(* ===== verification/_CoqProject ===== *)
-Q . S2P
Prelude.v
PyLib.v
Json.v
Events.v
Identity.v
Work.v
Amounts.v
Database.v
EventStore.v
Ledger.v
Raises.v
LedgerReads.v
LedgerAppend.v
LedgerTheorems.v
Parsing.v
ParsingTheorems.v
Projections.v
ProjectionTheorems.v
Outbox.v
Wire.v
PyEquality.v
WorkRepository.v
WorkLedger.v
WorkTheorems.v
WorkSafety.v
Fencing.v
Floats.v
Backoff.v
Scheduler.v
WorkerRuntime.v
WorkerTheorems.v
WorkerWiring.v
Publisher.v
Calendar.v
EventDecoding.v
Delivery.v
JsonText.v
RedisStreams.v
RedisTheorems.v
RedisQueue.v
WireDelivery.v
WorkReads.v
WorkerOperations.v
Authentication.v
AuthenticationTheorems.v
Policy.v
ModelContracts.v
Routing.v
Sha256.v
GatewayRepository.v
GatewayTheorems.v
GatewayBudgets.v
Resilience.v
Telemetry.v
GatewayService.v
GatewayServiceTheorems.v
GatewayWiring.v
GatewayPostgres.v
GatewayPostgresTheorems.v
TenantIsolation.v
GatewayPostgresWiring.v
GatewayUsage.v
AuditTrail.v
SecretsBoundary.v
Config.v
GatewayOperations.v
HttpText.v
ControlPlane.v
ControlPlaneResponses.v
ControlPlaneReads.v
Persistence.v
PersistenceTheorems.v
ControlPlaneWiring.v
ProviderTypes.v
Providers.v
OpenAI.v
Anthropic.v
ProviderTheorems.v
Diagnostic.v
Agents.v
