(* ===== verification/Prelude.v ===== *)
(** * Aegis agent platform: a verification development

    Models the core of the Python package under
    [src/src/aegis_agent_platform]: the durable ledger, the work repository
    and its workers, the outbox, the projections, the model gateway with
    its budgets and provider adapters, the HTTP control plane with its
    SQL repositories, and the metrics all of them record.  File names below without a directory are files of this
    library; the others are relative to that package.

    ** The parts of the program and how they interact

    A request for work is registered ([runtime/postgres.py]) by an append to
    the tenant's ledger ([event_store/postgres.py]) in one transaction with a
    status row and an outbox message.  A publisher ([queueing/publisher.py])
    leases outbox messages and sends them to a Redis stream; a worker
    ([runtime/__init__.py]) reads deliveries, claims the work under a lease,
    and commits the outcome by fenced appends before it acknowledges.  A
    handler calls models through the gateway ([gateway/service.py]), which
    routes ([gateway/catalog.py]), reserves a budget
    ([gateway/repository.py] in memory, [gateway/postgres.py] in SQL), calls a
    provider ([providers/]) behind a breaker, a bucket and a semaphore
    ([gateway/resilience.py]) and settles the reservation.  Projections
    ([projections/__init__.py]) replay the ledger into read models, one of
    which the SQL budget ledger reads.  The control plane
    ([control_plane/api.py]) authenticates, authorizes and audits HTTP
    requests and shows one tenant's records, ledger, read models and gateway
    ([gateway/operations.py]); the directory, tenants, policies and audit
    trail behind it are SQL tables ([persistence/postgres.py]).

    ** Files

    - [Prelude]: exceptions, the error/state monad, proof automation.
      [PyLib]: strings, UUIDs, time, sorting.  [Json]: JSON values and their
      snapshots.  [Amounts]: decimals and [numeric] columns.  [Parsing],
      [ParsingTheorems]: reading UUIDs and decimals from text.  [Calendar]:
      the round trips of ISO timestamps and of numbers.  [Floats]: binary64.  [Sha256]: the
      digest.
    - [Events] ([domain/events.py]), [Identity] ([identity/models.py],
      [identity/authorization.py], [tenancy/__init__.py]), [Work]
      ([domain/work.py]), [Policy] ([policy/__init__.py]), [ModelContracts]
      ([domain/model.py]), [Wire] ([queueing/__init__.py] and the envelope
      of [queueing/redis_streams.py]).
    - [EventDecoding]: [EventEnvelope.from_mapping], the reader of
      serialized envelopes of any release.  [Agents] ([agents/]): the
      specialists' artifacts and plans.
    - [Database]: the tables and the environment of a statement.
      [EventStore]: [PostgresEventStore].  [Ledger], [LedgerAppend],
      [LedgerReads], [LedgerTheorems], [Outbox]: its theorems.  [Raises]:
      which exceptions an operation can raise, with its automation.
      [Outbox] also holds the view a tenant has of the tables and the rules
      by which a statement stays within it; [TenantIsolation] applies them to
      every repository.
    - [Projections] and [ProjectionTheorems]: [projections/__init__.py] and
      [PostgresProjectionRepository].
    - [WorkRepository] ([runtime/postgres.py]) with [WorkLedger] (the life
      cycle recorded in a stream, which other events may share), [WorkTheorems]
      (the calls as chains of transactions of a tenant, and the invariant they
      keep), [WorkSafety], [Fencing]; [WorkReads]: its status pages.  [WorkerOperations] ([runtime/operations.py]): the operators'
      calls, over the class [OperationsRepository].
    - [Authentication] ([identity/authentication.py]) with
      [AuthenticationTheorems]: tokens, signing keys and the directory.
    - [Scheduler], [WorkerRuntime] ([runtime/__init__.py]) with
      [WorkerTheorems], proved against the class [WorkerStoreLaws], and
      [WorkerWiring], where the work repository implements it.
    - [Publisher] ([queueing/publisher.py]).
      [RedisStreams] ([queueing/redis_streams.py]) over [JsonText], the
      reader of [json.loads], with [RedisTheorems] (the round trip of an
      envelope) and [RedisQueue] (entries and failures); [Delivery] and
      [WireDelivery] follow a registered request to its worker.
      [PyEquality]: equality and key order of JSON values.
    - [Routing] ([gateway/catalog.py]), [GatewayRepository] with
      [GatewayTheorems] and [GatewayBudgets], [Resilience], [Backoff]
      ([runtime/backoff.py]), [GatewayService] with [GatewayServiceTheorems]
      and [GatewayWiring], [GatewayPostgres] with [GatewayPostgresTheorems],
      [GatewayPostgresWiring] and [GatewayUsage].  [GatewayOperations]
      ([gateway/operations.py]): the views of the gateway.  [Telemetry]
      ([observability/runtime.py], [gateway/telemetry.py]): the metric
      registries and who writes them.  [Diagnostic] ([gateway/__main__.py]):
      one call of the whole gateway with the scripted provider.
    - [Config] ([config.py]), [AuditTrail] ([audit.py]), [SecretsBoundary]
      ([secrets_boundary.py]).
    - [ControlPlane] ([control_plane/api.py]) over [HttpText], its reading of
      query strings and headers and writing of JSON; [ControlPlaneResponses]:
      what a call adds to its trace and what is answered; [ControlPlaneReads]:
      what may be read.
    - [Persistence] ([persistence/postgres.py]) with [PersistenceTheorems];
      [ControlPlaneWiring]: the control plane over these repositories.
    - [Providers]: what the adapters share ([providers/_translation.py],
      [providers/config.py], [providers/fake.py] and the common part of the
      two adapters); [OpenAI] ([providers/openai.py]), [Anthropic]
      ([providers/anthropic.py]), [ProviderTheorems].  [ProviderTypes]
      ([providers/types.py]).

    Each Python function or method is one definition of the same name (the
    constructor checks of a dataclass [C] are [C_post_init]); a SQL statement
    is a function on the tables that checks the constraints of the migration
    and then changes rows.

    ** What the theorems show

    - Ledger: reachable ledgers are gapless and free of key conflicts; an
      append commits exactly its events or changes nothing; appended events
      are read back unchanged and pages return the committed history; a
      redelivery is applied once; no call of any repository touches a row of
      another tenant in any table; outbox messages have one owner and one
      settlement.
    - Work: the status column and the leases refine the state machine of
      [domain/work.py] over the event stream under every interleaving of the
      work repository's and the gateway's transactions, but for a success or
      failure that is reported right after the claim, which the repository
      commits and the state machine rejects; completed work is final; a superseded lease is refused for
      good; claims respect limits; requeues need a fresh approval.  Operators
      reach the repository with the permission only, a requeue takes two of
      them, and walking the status pages lists every item once.
    - Workers and publisher: the scheduler is the round-robin reference and no
      tenant starves; a batch ends, respects the task limit and handles every
      delivery once; failures of handlers are contained; nothing is
      acknowledged before its outcome is durable.  A publisher's batch settles
      its claims in order, each at most once, and marks published only what
      the queue accepted.
    - Transport: a registered request crosses the outbox and the wire to a
      worker unchanged; entries read are handed out or quarantined in order;
      the client's errors are classified and a missing group is recreated.
    - Projections: catching up, in pages of any size, and rebuilding, from any
      view, end with the replay of the tenant's history.
    - Authentication: only registered, enabled identities with a verified
      token are let in, refusals are classified, and a signing key is
      believed no longer than the cache's lifetime.
    - Control plane: tenant data is read only after an audited authentication
      and an audited decision that allows the read; every request gets one
      response; storage outages are answered, but for the model views; cursors
      are bounded and read back what pages carry; settings that exist satisfy
      every bound; redacted details hold no credential; secrets stay with
      their tenant.
    - Persistence: the SQL directory and the SQL audit store answer as the
      in-memory ones, or report a storage error and change nothing; a stored
      policy is read exactly or refused, and what it leaves out is denied.
      Over them, what the control plane answers of a tenant is what its rows
      hold, and a failed authentication is recorded under the platform tenant
      the migrations seed.
    - Events: whatever spells an envelope, in the form of any release, is read
      as that envelope, and what is read is well formed.
    - Telemetry: the number of metrics is bounded and none is negative;
      recording never fails a settled call, nor the publisher or a worker.
    - Providers: a call raises classified gateway errors only, but for what
      the OpenAI adapter raises while it builds its request; an answer is
      metered at what the provider reported; requests carry the whole
      conversation; HTTP clients are closed.
    - Policy, identity, routing: decisions are characterised exactly; routing
      returns all eligible models, best first, or the exact reasons for which
      there is none, whatever the order of the catalog.
    - Gateway: events are numbered without a gap; a reservation is settled
      once; tokens and costs stay within the quotas; a finished call is
      replayed; the breaker is a function of its history; one call settles
      its reservation, bounds its provider calls and returns a validated
      answer.  The service theorems are proved against the class
      [GatewayRepoLaws], which both repositories implement.  The SQL ledger
      adds fencing and atomicity of every call and the agreement of live and
      replayed usage.

    ** Bounds and fuel

    Loops over lists are structural.  Three functions take fuel: the digits of
    an integer ([Amounts.ndigits], one more than its bit length), the SHA-256
    block loop (one more than the number of blocks), and the replay loop
    ([Projections.catch_up_loop]), for which [catch_up_replays_history] proves
    that one more than the number of events left suffices.
    The loops of [run_batch] take as many rounds as there are deliveries and
    tasks, which [run_batch_bounded_and_complete] proves to be enough.
    The members and elements of a JSON container take as fuel the length of
    the text, of which each consumes at least one character, and containers
    the depth that is the interpreter's own limit.

    ** Modelling notes

    - Aware datetimes are instants in microseconds; the session of the
      database is in UTC.  Strings are Latin-1, UUIDs 128-bit numbers.
      [bigint] columns are unbounded; [numeric(p, s)] columns count units of
      their last place.  Decimals use the default context and do not
      distinguish a signed zero.  Floats are [SpecFloat] binary64;
      durations, retry delays, latencies and metrics use them.
    - Clock readings, fresh UUIDs and identity values come from oracles of the
      state, read once per SQL statement.  A transaction that raises restores
      the tables but not sequences, clock, drawn UUIDs, closure variables or
      session locks.  Interleavings are sequences of whole transactions.
      Asyncio locks are not modelled, lost connections and row-level security
      only in [Persistence]; a constraint violation is the adapter's
      [IntegrityError].  Metrics are modelled in [Telemetry] alone: the models
      of the components leave out the calls that record them, which
      [telemetry_accepted] and [settlement_recorded] prove not to raise.
    - Advisory locks are identified by their key, not by its 32-bit hash, and
      are held by other sessions than the reader's.
    - A JSON object is an ordered list of items and compares without order;
      [repr] of floats and containers is a parameter ([PyRepr]); reading ISO
      timestamps covers the form [isoformat] writes, and [int] of a decimal
      text in a serialized envelope has no limit on its digits.
    - The event store and its outbox keep a [jsonb] value as it was written:
      that the server reorders the members of an object, normalises numbers
      and refuses NUL is not modelled there, nor that it refuses a text with
      NUL or a schema version beyond [integer].  Claims of the outbox read the
      clock once and return the rows in the order of the candidates.
    - [thaw_json] and [json.dumps] fail, on nesting and on long integers, in
      the provider adapters ([Providers.thawing], [Providers.dumping]) and, on
      integers, in the bodies of the control plane; elsewhere (the digest of a
      gateway request, envelopes, rows) they are total.  A JWKS document is
      decoded as UTF-8 without the detection of other encodings, and redaction
      takes a key that is no string for one that is not sensitive.
    - The Redis client is a parameter ([RedisClient]) whose commands change
      its state and may fail; its MULTI/EXEC block is one command.  The JSON
      reader takes the interpreter's limit on nesting as a parameter and reads
      UTF-8 and code points up to U+00FF; other text is refused as poison
      where Python would read it.
    - PyJWT, the RSA keys and the HTTP client are parameters; an
      [AuthenticationError] is its code, without the message.
    - A call of the control plane keeps a trace of the audit events it stored,
      the sources it read and the messages it sent, beside the state of the
      injected components, which are parameters.  The text of a query string
      may be any code points; decimal digits are those of Unicode 15.  Nested
      bodies are encoded without the interpreter's limit on depth.
    - The in-memory gateway repository keeps the state reached before an
      exception.  The service models one call; other tasks may change
      repository and controls at every await ([or_others]).  The JSON Schema
      library is a parameter.
    - In [Persistence] every round trip to the server may fail, by an oracle,
      and a COMMIT that fails counts as rolled back; how the driver stores a
      [jsonb] value is the parameter [JsonColumn].
    - The SDKs of the providers, [httpx] and the clock are the class
      [SdkLibrary]: an SDK exception is its class name, status code and
      retry-after, and how a call ends that races its deadline and its
      cancellation is one outcome per call.

    ** Not modelled

    Process start-up, command lines, log lines, the spans of the tracing
    library, connection pools and migrations are input and output or calls of
    libraries.  [integrations/], [sandbox], [tools], [memory] and [evals] hold
    placeholders, evidence records and protocols without an implementation;
    [scripts/] checks the repository itself.  Private helpers of the work
    repository without callers are left out. *)

From stdpp Require Import base gmap sets list strings pretty sorting.
From Stdlib Require Import ZArith Lia SpecFloat.

#[global] Set Default Goal Selector "!".

(** ** Exceptions

    One constructor per exception class the modelled code raises; the class
    hierarchy of [event_store/__init__.py] and [queueing/__init__.py] is
    given by the [except_*] predicates, so that an [except C:] clause of the
    source is a test by the predicate of [C]. *)

Inductive psycopg_class : Type :=
| OperationalError | InterfaceError | SerializationFailure | DeadlockDetected
| ConnectionException | IntegrityError | DataError.

#[export] Instance psycopg_class_eq_dec : EqDecision psycopg_class.
Proof. solve_decision. Defined.

(** [ModelErrorClass] of [domain/model.py] *)
Inductive ModelErrorClass : Type :=
| AUTHENTICATION | AUTHORIZATION | INVALID_REQUEST | CAPABILITY | SCHEMA | SAFETY
| RATE_LIMIT | MODEL_TIMEOUT | MODEL_CANCELLED | TRANSIENT | PROVIDER_UNAVAILABLE
| MALFORMED_RESPONSE | PROVIDER_BUG.

#[export] Instance ModelErrorClass_eq_dec : EqDecision ModelErrorClass.
Proof. solve_decision. Defined.

(** [FailureClass] of [domain/work.py] *)
Inductive FailureClass : Type :=
| RETRYABLE | PERMANENT | FC_CANCELLED | TIMEOUT | WORKER_BUG.

#[export] Instance FailureClass_eq_dec : EqDecision FailureClass.
Proof. solve_decision. Defined.

(** The fields of a [ModelGatewayError]. *)
Record gateway_error : Type := mkGatewayError {
  ge_error_class : ModelErrorClass;
  ge_code : string;
  ge_retryable : bool;
  ge_retry_after_seconds : option spec_float;
  ge_billing_ambiguous : bool;
}.

#[export] Instance gateway_error_eq_dec : EqDecision gateway_error.
Proof.
  assert (EqDecision spec_float) by (unfold EqDecision, Decision; decide equality; apply Pos.eq_dec || apply Z.eq_dec || apply Bool.bool_dec).
  solve_decision.
Defined.

(** [AuthenticationErrorCode] of [identity/authentication.py] *)
Inductive AuthenticationErrorCode : Type :=
| MISSING_TOKEN
| MALFORMED_TOKEN
| EXPIRED_TOKEN
| WRONG_ISSUER
| WRONG_AUDIENCE
| INVALID_SIGNATURE
| UNSUPPORTED_ALGORITHM
| SIGNING_KEY_UNAVAILABLE
| INVALID_CLAIMS
| UNKNOWN_IDENTITY
| TENANT_MISMATCH
| IDENTITY_DISABLED.

#[export] Instance authentication_code_eq_dec : EqDecision AuthenticationErrorCode.
Proof. solve_decision. Defined.

(** The exception classes of the Redis client and of the JWT library that the
    source tells apart. *)
Inductive redis_class : Type := RedisConnection | RedisTimeout | RedisResponse | RedisOther.
Inductive jwt_class : Type :=
| JwtExpiredSignature
| JwtInvalidIssuer
| JwtInvalidAudience
| JwtInvalidSignature
| JwtInvalidToken.

#[export] Instance redis_class_eq_dec : EqDecision redis_class.
Proof. solve_decision. Defined.
#[export] Instance jwt_class_eq_dec : EqDecision jwt_class.
Proof. solve_decision. Defined.

(** An exception of a provider's SDK: the name of its class, its
    [status_code], and the [retry-after] header of its response. *)
Record sdk_error : Type := mkSdkError {
  se_class : string;
  se_status_code : option Z;
  se_retry_after : option string;
}.

#[export] Instance sdk_error_eq_dec : EqDecision sdk_error.
Proof. solve_decision. Defined.

Inductive exn : Type :=
| ValueError (msg : string)
| TypeError (msg : string)
| KeyError (key : string)
| AssertionError
| PsycopgError (c : psycopg_class)
| TransientStorageError (msg : string)
| PermanentStorageError (msg : string)
| ConcurrencyError (expected actual : Z)
| FencingError (expected actual : Z)
| ReplayCorruptionError (msg : string)
| ClaimUnavailableError
| RetryableQueueError (msg : string)
| PermanentQueueError (msg : string)
| PoisonMessageError (msg : string)
| InvalidOperation
| DecimalOverflow
| PermissionError (msg : string)
| CatalogError (msg : string)
| RouteDeniedError (reasons : list string)
| BudgetDeniedError (msg : string)
| DuplicateCallInProgressError (msg : string)
| CircuitOpenError (msg : string)
| ModelGatewayError (error : gateway_error)
| IndexError
| TimeoutError
| CancelledError
| WorkerExecutionError (failure_class : FailureClass) (error_code : string)
| RecursionError
| OverflowError
| RedisError (c : redis_class) (text : string)
| JwtError (c : jwt_class)
| UrlError
| AuthenticationError (code : AuthenticationErrorCode)
| OperationDeniedError (msg : string)
| SecretError (msg : string)
| ConfigurationError (msg : string)
| SdkError (error : sdk_error)
| RuntimeError (msg : string).

#[export] Instance exn_eq_dec : EqDecision exn.
Proof. solve_decision. Defined.

Definition except_ValueError (e : exn) : bool :=
  match e with ValueError _ => true | _ => false end.

Definition except_ConcurrencyError (e : exn) : bool :=
  match e with ConcurrencyError _ _ | FencingError _ _ => true | _ => false end.

Definition except_FencingError (e : exn) : bool :=
  match e with FencingError _ _ => true | _ => false end.

Definition except_PermanentStorageError (e : exn) : bool :=
  match e with
  | PermanentStorageError _ | ConcurrencyError _ _ | FencingError _ _
  | ReplayCorruptionError _ => true
  | _ => false
  end.

Definition except_PermanentQueueError (e : exn) : bool :=
  match e with PermanentQueueError _ | PoisonMessageError _ => true | _ => false end.

Definition except_RetryableQueueError (e : exn) : bool :=
  match e with RetryableQueueError _ => true | _ => false end.

(** ** Fallible code

    A pure Python function that may raise returns [result A]; a method that
    also changes the state [S] is an [M E S A].  A Python exception does not
    undo the assignments made before it, so the final state is returned on
    both outcomes; a database transaction is the place that rolls back. *)

Abbreviation result A := (exn + A)%type.

Definition M (E S A : Type) : Type := S → (E + A) * S.

Declare Scope py_scope.
Delimit Scope py_scope with py.

Section Monad.
Context {E S : Type}.

Definition ret {A} (a : A) : M E S A := λ s, (inr a, s).
Definition raise {A} (e : E) : M E S A := λ s, (inl e, s).
Definition bind {A B} (m : M E S A) (k : A → M E S B) : M E S B := λ s,
  match m s with
  | (inr a, s') => k a s'
  | (inl e, s') => (inl e, s')
  end.
Definition get : M E S S := λ s, (inr s, s).
Definition gets {A} (f : S → A) : M E S A := λ s, (inr (f s), s).
Definition modify (f : S → S) : M E S unit := λ s, (inr tt, f s).
Definition lift {A} (r : E + A) : M E S A := λ s, (r, s).
Definition raise_if (b : bool) (e : E) : M E S unit :=
  if b then raise e else ret tt.
(** [try m except handler]: the handler sees the exception and the state
    the failing code left behind. *)
Definition catch {A} (m : M E S A) (h : E → M E S A) : M E S A := λ s,
  match m s with
  | (inl e, s') => h e s'
  | r => r
  end.
(** [try: m finally: f]: the final block runs on both outcomes; an exception
    of its own replaces the outcome. *)
Definition try_finally {A} (m : M E S A) (f : M E S unit) : M E S A := λ s,
  let '(r, s1) := m s in
  match f s1 with
  | (inl e, s2) => (inl e, s2)
  | (inr _, s2) => (r, s2)
  end.
(** [for x in l: body x] *)
Fixpoint for_each {A} (l : list A) (body : A → M E S unit) : M E S unit :=
  match l with
  | [] => ret tt
  | x :: l' => bind (body x) (λ _, for_each l' body)
  end.
End Monad.

Notation "'let!' x := c 'in' k" := (bind c (λ x, k))
  (at level 10, x pattern, c at level 100, k at level 200,
   format "'[v' 'let!'  x  :=  c  'in' '/' k ']'") : py_scope.
Notation "'do!' c ';;' k" := (bind c (λ _, k))
  (at level 10, c at level 99, k at level 200,
   format "'[v' 'do!'  c  ';;' '/' k ']'") : py_scope.

(** The same for pure results. *)
Definition rbind {A B} (r : result A) (k : A → result B) : result B :=
  match r with inr a => k a | inl e => inl e end.

Notation "'let?' x := c 'in' k" := (rbind c (λ x, k))
  (at level 10, x pattern, c at level 100, k at level 200,
   format "'[v' 'let?'  x  :=  c  'in' '/' k ']'") : py_scope.

Definition reject_if (b : bool) (e : exn) : result unit :=
  if b then inl e else inr tt.

Notation "'raise!' e 'when!' b ';;' k" := (rbind (reject_if b e) (λ _, k))
  (at level 10, e at level 99, b at level 99, k at level 200,
   format "'[v' 'raise!'  e  'when!'  b  ';;' '/' k ']'") : py_scope.

#[global] Open Scope py_scope.

(** [[f(a) for a in l]]: the first exception ends the loop. *)
Fixpoint map_result {A B} (f : A → result B) (l : list A) : result (list B) :=
  match l with
  | [] => inr []
  | a :: l => let? b := f a in let? bs := map_result f l in inr (b :: bs)
  end.

Section MonadLemmas.
Context {E S : Type}.
Implicit Types s : S.

Lemma bind_ok {A B} (m : M E S A) (k : A → M E S B) s b s'' :
  bind m k s = (inr b, s'') ↔
  ∃ a s', m s = (inr a, s') ∧ k a s' = (inr b, s'').
Proof.
  unfold bind. destruct (m s) as [[e|a] s'] eqn:Hm; split; naive_solver.
Qed.

Lemma bind_err {A B} (m : M E S A) (k : A → M E S B) s e s'' :
  bind m k s = (inl e, s'') ↔
  m s = (inl e, s'') ∨
  ∃ a s', m s = (inr a, s') ∧ k a s' = (inl e, s'').
Proof.
  unfold bind. destruct (m s) as [[e'|a] s'] eqn:Hm; split; naive_solver.
Qed.

Lemma bind_run {A B} (m : M E S A) (k : A → M E S B) s a s' :
  m s = (inr a, s') → bind m k s = k a s'.
Proof. unfold bind. by intros ->. Qed.

Lemma bind_fail {A B} (m : M E S A) (k : A → M E S B) s e s' :
  m s = (inl e, s') → bind m k s = (inl e, s').
Proof. unfold bind. by intros ->. Qed.

Lemma raise_if_ok (b : bool) (e : E) s u s' :
  raise_if b e s = (inr u, s') ↔ b = false ∧ s' = s ∧ u = tt.
Proof. unfold raise_if, raise, ret. destruct b, u; naive_solver. Qed.

Lemma raise_if_err (b : bool) (e e' : E) s s' :
  raise_if b e s = (inl e', s') ↔ b = true ∧ s' = s ∧ e' = e.
Proof. unfold raise_if, raise, ret. destruct b; naive_solver. Qed.

Lemma for_each_app {A} (l1 l2 : list A) (f : A → M E S unit) s :
  for_each (l1 ++ l2) f s = bind (for_each l1 f) (λ _, for_each l2 f) s.
Proof.
  revert s. induction l1 as [|x l1 IH]; intros s; simpl.
  - reflexivity.
  - unfold bind in *. destruct (f x s) as [[e|u] s1]; [done|]. apply IH.
Qed.

(** A state property kept by every round of a loop is kept by the loop,
    whether or not the loop raises. *)
Lemma for_each_inv {A} (P : S → Prop) (l : list A) (f : A → M E S unit) s r s' :
  (∀ x s r s', x ∈ l → P s → f x s = (r, s') → P s') →
  P s → for_each l f s = (r, s') → P s'.
Proof.
  revert s. induction l as [|x l IH]; intros s Hf HP Hrun; simpl in Hrun.
  - injection Hrun as <- <-. done.
  - unfold bind in Hrun. destruct (f x s) as [[e|u] s1] eqn:Hx.
    + injection Hrun as <- <-. eapply Hf; [|exact HP|exact Hx]. left.
    + eapply IH; [|eapply Hf; [left|exact HP|exact Hx]|exact Hrun].
      intros y ? ? ? Hy. apply Hf. by right.
Qed.
End MonadLemmas.

Lemma rbind_ok {A B} (r : result A) (k : A → result B) b :
  rbind r k = inr b ↔ ∃ a, r = inr a ∧ k a = inr b.
Proof. destruct r; simpl; naive_solver. Qed.

Lemma rbind_err {A B} (r : result A) (k : A → result B) e :
  rbind r k = inl e ↔ r = inl e ∨ ∃ a, r = inr a ∧ k a = inl e.
Proof. destruct r; simpl; naive_solver. Qed.

Lemma reject_if_ok b e u : reject_if b e = inr u ↔ b = false ∧ u = tt.
Proof. unfold reject_if. destruct b, u; naive_solver. Qed.

Lemma reject_if_err b e e' : reject_if b e = inl e' ↔ b = true ∧ e' = e.
Proof. unfold reject_if. destruct b; naive_solver. Qed.

Lemma map_result_ok {A B} (f : A → result B) l bs :
  map_result f l = inr bs ↔ Forall2 (λ a b, f a = inr b) l bs.
Proof.
  revert bs. induction l as [|a l IH]; intros bs; cbn [map_result].
  - split; [by intros [= <-]|by inversion 1].
  - rewrite rbind_ok. split.
    + intros (b & Hb & H). apply rbind_ok in H as (rest & Hrest & [= <-]). constructor; [done|by apply IH].
    + inversion 1 as [|? b ? rest Hb Hrest]; subst. exists b. split; [done|]. apply rbind_ok. exists rest.
      split; [by apply IH|done].
Qed.

Lemma run_inv {E S A} (r r' : E + A) (s s' : S) : (r, s) = (r', s') → r' = r ∧ s' = s.
Proof. by intros [= -> ->]. Qed.

(** Keep the older of two equal states. *)
Ltac py_eq H :=
  match type of H with
  | ?x = ?y => first [subst x | subst y | idtac]
  end.

Ltac py_run H :=
  apply run_inv in H;
  let H1 := fresh "Hres" in let H2 := fresh "Hst" in
  destruct H as [H1 H2]; py_eq H2; try discriminate H1;
  first [ py_eq H1 | idtac ].

(** Inversion of a successful run, one monadic operation at a time. *)
Ltac py_step :=
  match goal with
  | H : bind _ _ _ = (inr _, _) |- _ =>
      apply bind_ok in H;
      let a := fresh "a" in let s := fresh "st" in let H1 := fresh "Hm" in
      destruct H as (a & s & H1 & H)
  | H : raise_if _ _ _ = (inr _, _) |- _ =>
      apply raise_if_ok in H;
      let H1 := fresh "Hg" in let H2 := fresh "Hst" in let H3 := fresh "Hu" in
      destruct H as (H1 & H2 & H3); py_eq H2; py_eq H3
  | H : raise_if _ _ _ = (inl _, _) |- _ =>
      apply raise_if_err in H;
      let H1 := fresh "Hg" in let H2 := fresh "Hst" in let H3 := fresh "Hu" in
      destruct H as (H1 & H2 & H3); py_eq H2; py_eq H3
  | H : rbind _ _ = inr _ |- _ =>
      apply rbind_ok in H;
      let a := fresh "a" in let H1 := fresh "Hr" in destruct H as (a & H1 & H)
  | H : reject_if _ _ = inr _ |- _ =>
      apply reject_if_ok in H; destruct H as [? ?]; subst
  | H : reject_if _ _ = inl _ |- _ =>
      apply reject_if_err in H; destruct H as [? ?]; subst
  | H : ret _ _ = (_, _) |- _ => unfold ret in H; py_run H
  | H : raise _ _ = (_, _) |- _ => unfold raise in H; py_run H
  | H : get _ = (_, _) |- _ => unfold get in H; py_run H
  | H : gets _ _ = (_, _) |- _ => unfold gets in H; py_run H
  | H : modify _ _ = (_, _) |- _ => unfold modify in H; py_run H
  | H : lift _ _ = (_, _) |- _ => unfold lift in H; py_run H
  | H : (_, _) = (_, _) |- _ => py_run H
  | H : inr _ = inr _ |- _ => injection H as H; py_eq H
  | H : inl _ = inr _ |- _ => discriminate H
  | H : inr _ = inl _ |- _ => discriminate H
  end.

Ltac py_inv := repeat (py_step; simpl in *).

(** Execution of the first operation of a run whose result computes. *)
Ltac py_go := erewrite bind_run; [|reflexivity].

(** Booleans of the source turned into propositions. *)
Ltac bool_props :=
  repeat match goal with
  | H : negb _ = true |- _ => apply negb_true_iff in H
  | H : negb _ = false |- _ => apply negb_false_iff in H
  | H : _ && _ = true |- _ => apply andb_true_iff in H; destruct H
  | H : _ || _ = false |- _ => apply orb_false_iff in H; destruct H
  | H : bool_decide _ = true |- _ => apply bool_decide_eq_true in H
  | H : bool_decide _ = false |- _ => apply bool_decide_eq_false in H
  | H : (_ <? _)%Z = true |- _ => apply Z.ltb_lt in H
  | H : (_ <? _)%Z = false |- _ => apply Z.ltb_ge in H
  | H : (_ <=? _)%Z = true |- _ => apply Z.leb_le in H
  | H : (_ <=? _)%Z = false |- _ => apply Z.leb_gt in H
  | H : (_ =? _)%Z = true |- _ => apply Z.eqb_eq in H
  | H : (_ =? _)%Z = false |- _ => apply Z.eqb_neq in H
  end.

Create HintDb aegis discriminated.
