(* ===== verification/PyLib.v ===== *)
(** * Python primitives

    The fragment of the Python language and standard library the modelled
    code uses: [str] tests, [datetime] and [timedelta], [UUID] text, stable
    [sorted], and the values that can occur in a JSON payload with their
    [==].  Strings are sequences of Latin-1 code points; an aware [datetime]
    is its UTC instant in microseconds; a [timedelta] is a number of
    microseconds; a [UUID] is its 128-bit integer. *)

From stdpp Require Import base gmap sets list strings pretty.
From Stdlib Require Import ZArith Lia SpecFloat Sorted.
From S2P Require Import Prelude.

Local Open Scope Z_scope.

Abbreviation uuid := N.

(** ** Strings *)

Module PyStr.
(** [str.isspace] on one code point. *)
Definition is_space (c : Ascii.ascii) : bool :=
  let n := Z.of_nat (Ascii.nat_of_ascii c) in
  ((9 <=? n) && (n <=? 13)) || ((28 <=? n) && (n <=? 32)) ||
  (n =? 133) || (n =? 160).

Fixpoint lstrip (s : string) : string :=
  match s with
  | EmptyString => EmptyString
  | String c s' => if is_space c then lstrip s' else s
  end.

Fixpoint rstrip (s : string) : string :=
  match s with
  | EmptyString => EmptyString
  | String c s' =>
      match rstrip s' with
      | EmptyString => if is_space c then EmptyString else String c EmptyString
      | r => String c r
      end
  end.

Definition strip (s : string) : string := rstrip (lstrip s).

(** [not s] on a string. *)
Definition is_empty (s : string) : bool :=
  match s with EmptyString => true | _ => false end.

Definition len (s : string) : Z := Z.of_nat (String.length s).

Definition starts_with (p s : string) : bool := String.prefix p s.

Definition str_eqb (a b : string) : bool := bool_decide (a = b).

(** [<=] on strings: lexicographic by code point. *)
Fixpoint str_leb (a b : string) : bool :=
  match a, b with
  | EmptyString, _ => true
  | String _ _, EmptyString => false
  | String c a', String d b' =>
      let m := Ascii.N_of_ascii c in let n := Ascii.N_of_ascii d in
      if N.ltb m n then true
      else if N.ltb n m then false
      else str_leb a' b'
  end.

Lemma str_leb_total a b : str_leb a b = true ∨ str_leb b a = true.
Proof.
  revert b. induction a as [|c a IH]; intros [|d b]; simpl; auto.
  destruct (N.ltb_spec (Ascii.N_of_ascii c) (Ascii.N_of_ascii d)); [auto|].
  destruct (N.ltb_spec (Ascii.N_of_ascii d) (Ascii.N_of_ascii c)); auto.
Qed.

Lemma str_leb_trans a b c :
  str_leb a b = true → str_leb b c = true → str_leb a c = true.
Proof.
  revert b c. induction a as [|x a IH]; intros [|y b] [|z c]; simpl; auto; try done.
  repeat match goal with
    |- context [N.ltb ?m ?n] => destruct (N.ltb_spec m n) end;
    intros; try done; try lia; eauto.
Qed.

Lemma str_leb_antisym a b : str_leb a b = true → str_leb b a = true → a = b.
Proof.
  revert b. induction a as [|x a IH]; intros [|y b]; simpl; auto; try done.
  destruct (N.ltb_spec (Ascii.N_of_ascii x) (Ascii.N_of_ascii y));
    destruct (N.ltb_spec (Ascii.N_of_ascii y) (Ascii.N_of_ascii x));
    try done; try lia.
  intros H1 H2. f_equal; [|by apply IH].
  rewrite <- (Ascii.ascii_N_embedding x), <- (Ascii.ascii_N_embedding y).
  f_equal. lia.
Qed.

(** A string that starts with a visible character is not blank. *)
Lemma strip_visible c s : is_space c = false → is_empty (strip (String c s)) = false.
Proof. intros Hc. unfold strip. simpl. rewrite Hc. simpl. rewrite Hc. by case_match. Qed.

Lemma is_empty_true s : is_empty s = true ↔ s = EmptyString.
Proof. destruct s; naive_solver. Qed.

Lemma is_empty_false s : is_empty s = false ↔ s ≠ EmptyString.
Proof. destruct s; naive_solver. Qed.
End PyStr.

(** ** Dates and times *)

Module Dt.
Inductive datetime : Type :=
| Aware (us : Z)
| Naive (us : Z).

#[global] Instance datetime_eq_dec : EqDecision datetime.
Proof. solve_decision. Defined.

(** [d.tzinfo is None] *)
Definition naive (d : datetime) : bool :=
  match d with Naive _ => true | Aware _ => false end.

Definition us (d : datetime) : Z := match d with Aware u | Naive u => u end.

(** Ordering an aware against a naive value raises [TypeError]. *)
Definition le (a b : datetime) : result bool :=
  match a, b with
  | Aware x, Aware y | Naive x, Naive y => inr (x <=? y)
  | _, _ => inl (TypeError "can't compare offset-naive and offset-aware datetimes")
  end.

(** [a - b] as a [timedelta]. *)
Definition sub (a b : datetime) : result Z :=
  match a, b with
  | Aware x, Aware y | Naive x, Naive y => inr (x - y)
  | _, _ => inl (TypeError "can't subtract offset-naive and offset-aware datetimes")
  end.

(** [d + timedelta] *)
Definition add (d : datetime) (delta : Z) : datetime :=
  match d with Aware x => Aware (x + delta) | Naive x => Naive (x + delta) end.

Definition second : Z := 1000000.
Definition day : Z := 86400 * second.

(** Proleptic Gregorian calendar: days since 1970-01-01 to (year, month,
    day) and back. *)
Definition civil_from_days (d : Z) : Z * Z * Z :=
  let z := d + 719468 in
  let era := z / 146097 in
  let doe := z mod 146097 in
  let yoe := (doe - doe / 1460 + doe / 36524 - doe / 146096) / 365 in
  let doy := doe - (365 * yoe + yoe / 4 - yoe / 100) in
  let mp := (5 * doy + 2) / 153 in
  let dd := doy - (153 * mp + 2) / 5 + 1 in
  let m := if mp <? 10 then mp + 3 else mp - 9 in
  let y := yoe + era * 400 + (if m <=? 2 then 1 else 0) in
  (y, m, dd).

Definition days_from_civil (y m d : Z) : Z :=
  let y' := if m <=? 2 then y - 1 else y in
  let era := y' / 400 in
  let yoe := y' mod 400 in
  let doy := (153 * (if 2 <? m then m - 3 else m + 9) + 2) / 5 + d - 1 in
  let doe := yoe * 365 + yoe / 4 - yoe / 100 + doy in
  era * 146097 + doe - 719468.
End Dt.

(** ** UUID text *)

Module Uuid.
Definition hex_digit (n : N) : Ascii.ascii :=
  Ascii.ascii_of_N (if (n <? 10)%N then n + 48 else n + 87)%N.

(** The last [k] hexadecimal digits of [n]. *)
Fixpoint hex (k : nat) (n : N) (acc : string) : string :=
  match k with
  | O => acc
  | S k' => hex k' (n / 16)%N (String (hex_digit (n mod 16)%N) acc)
  end.

Definition field (u : uuid) (shift : N) (digits : nat) : string :=
  hex digits (N.shiftr u shift) EmptyString.

(** [str(UUID(int=u))]: 8-4-4-4-12 lower-case hexadecimal digits. *)
Definition to_str (u : uuid) : string :=
  (field u 96 8 +:+ "-" +:+ field u 80 4 +:+ "-" +:+ field u 64 4 +:+ "-" +:+
   field u 48 4 +:+ "-" +:+ field u 0 12)%string.

(** The values a [UUID] object can hold. *)
Definition valid (u : uuid) : Prop := (u < 2 ^ 128)%N.

Lemma hex_digit_inj a b :
  (a < 16)%N → (b < 16)%N → hex_digit a = hex_digit b → a = b.
Proof.
  intros Ha Hb Heq. unfold hex_digit in Heq.
  apply (f_equal Ascii.N_of_ascii) in Heq.
  rewrite !Ascii.N_ascii_embedding in Heq;
    destruct (N.ltb_spec a 10), (N.ltb_spec b 10); lia.
Qed.

Lemma hex_length k n acc :
  String.length (hex k n acc) = (k + String.length acc)%nat.
Proof.
  revert n acc. induction k as [|k IH]; intros n acc; simpl; [done|].
  rewrite IH. simpl. lia.
Qed.

Lemma hex_head k n acc :
  ∃ d s, (d < 16)%N ∧ hex (S k) n acc = String (hex_digit d) s.
Proof.
  revert n acc. induction k as [|k IH]; intros n acc.
  - exists (n mod 16)%N, acc. split; [by apply N.mod_lt|done].
  - apply (IH (n / 16)%N).
Qed.

Lemma hex_digit_visible d : (d < 16)%N → PyStr.is_space (hex_digit d) = false.
Proof.
  intros Hd. unfold hex_digit.
  assert (H : ∀ k, (k < 16)%nat → PyStr.is_space (Ascii.ascii_of_N
    (if (N.of_nat k <? 10)%N then N.of_nat k + 48 else N.of_nat k + 87)%N) = false).
  { intros k Hk. do 16 (destruct k; [done|]). lia. }
  specialize (H (N.to_nat d)). rewrite N2Nat.id in H. apply H. lia.
Qed.

Lemma to_str_visible u : PyStr.is_empty (PyStr.strip (to_str u)) = false.
Proof.
  unfold to_str, field. destruct (hex_head 7 (N.shiftr u 96) "") as (d & s & Hd & ->).
  simpl. by apply PyStr.strip_visible, hex_digit_visible.
Qed.

Lemma hex_inj k n m acc acc' :
  hex k n acc = hex k m acc' →
  (n mod 16 ^ N.of_nat k = m mod 16 ^ N.of_nat k)%N ∧ acc = acc'.
Proof.
  revert n m acc acc'. induction k as [|k IH]; intros n m acc acc' Heq.
  - split; [|done]. by rewrite !N.mod_1_r.
  - apply IH in Heq as [Hdiv Hs]. injection Hs as Hd Hacc. split; [|done].
    apply hex_digit_inj in Hd; [|by apply N.mod_lt..].
    rewrite Nat2N.inj_succ, N.pow_succ_r by lia.
    rewrite !N.Div0.mod_mul_r. congruence.
Qed.

Lemma str_app_inj (a b c d : string) :
  String.length a = String.length b → (a +:+ c = b +:+ d)%string → a = b ∧ c = d.
Proof.
  revert b. induction a as [|x a IH]; intros [|y b] Hlen Heq; simpl in *; try done.
  injection Heq as -> Heq. injection Hlen as Hlen.
  destruct (IH _ Hlen Heq) as [-> ->]. done.
Qed.

Lemma field_inj u v sh k c d :
  (field u sh k +:+ c = field v sh k +:+ d)%string →
  (N.shiftr u sh mod 16 ^ N.of_nat k = N.shiftr v sh mod 16 ^ N.of_nat k)%N ∧ c = d.
Proof.
  intros Heq. apply str_app_inj in Heq as [Hf ->].
  - split; [|done]. unfold field in Hf. by apply hex_inj in Hf as [? _].
  - unfold field. by rewrite !hex_length.
Qed.

Lemma dash_inj (a b : string) : ("-" +:+ a = "-" +:+ b)%string → a = b.
Proof. intros H. by injection H. Qed.

Lemma to_str_inj u v : valid u → valid v → to_str u = to_str v → u = v.
Proof.
  unfold valid, to_str. intros Hu Hv Heq.
  apply field_inj in Heq as [H1 Heq]. apply dash_inj in Heq.
  apply field_inj in Heq as [H2 Heq]. apply dash_inj in Heq.
  apply field_inj in Heq as [H3 Heq]. apply dash_inj in Heq.
  apply field_inj in Heq as [H4 Heq]. apply dash_inj in Heq as H5.
  unfold field in H5. apply hex_inj in H5 as [H5 _].
  rewrite !N.shiftr_div_pow2 in *.
  rewrite <- (N.mod_small u (2 ^ 128)), <- (N.mod_small v (2 ^ 128)) by done.
  change (2 ^ 128)%N with (2 ^ 96 * 16 ^ N.of_nat 8)%N.
  rewrite !N.Div0.mod_mul_r, H1. f_equal.
  change (2 ^ 96)%N with (2 ^ 80 * 16 ^ N.of_nat 4)%N.
  rewrite !N.Div0.mod_mul_r, H2. f_equal.
  change (2 ^ 80)%N with (2 ^ 64 * 16 ^ N.of_nat 4)%N.
  rewrite !N.Div0.mod_mul_r, H3. f_equal.
  change (2 ^ 64)%N with (2 ^ 48 * 16 ^ N.of_nat 4)%N.
  rewrite !N.Div0.mod_mul_r, H4. f_equal.
  by rewrite !N.pow_0_r, !N.div_1_r in H5.
Qed.
End Uuid.

(** ** Stable sorting: [sorted(l, key=...)] with [leb] the comparison of keys *)

Section Sorted.
Context {A : Type} (leb : A → A → bool).

Fixpoint insert_sorted (x : A) (l : list A) : list A :=
  match l with
  | [] => [x]
  | y :: l' => if leb x y then x :: l else y :: insert_sorted x l'
  end.

Definition py_sorted (l : list A) : list A := foldr insert_sorted [] l.

Lemma insert_sorted_perm x l : insert_sorted x l ≡ₚ x :: l.
Proof.
  induction l as [|y l IH]; simpl; [done|].
  destruct (leb x y); [done|]. rewrite IH. apply Permutation_swap.
Qed.

Lemma py_sorted_perm l : py_sorted l ≡ₚ l.
Proof.
  induction l as [|x l IH]; simpl; [done|].
  by rewrite insert_sorted_perm, IH.
Qed.

Lemma py_sorted_elem x l : x ∈ py_sorted l ↔ x ∈ l.
Proof. by rewrite py_sorted_perm. Qed.

Context (leb_total : ∀ a b, leb a b = true ∨ leb b a = true).
Context (leb_trans : ∀ a b c, leb a b = true → leb b c = true → leb a c = true).

Lemma insert_sorted_sorted x l :
  StronglySorted (λ a b, leb a b = true) l →
  StronglySorted (λ a b, leb a b = true) (insert_sorted x l).
Proof.
  induction 1 as [|y l Hs IH Hall]; simpl.
  - constructor; [constructor|by apply Forall_nil].
  - destruct (leb x y) eqn:Hxy.
    + constructor; [by constructor|]. apply Forall_cons. split; [done|].
      eapply Forall_impl; [exact Hall|]. eauto.
    + constructor; [done|]. rewrite insert_sorted_perm. apply Forall_cons.
      split; [|done]. destruct (leb_total x y) as [H|H]; congruence.
Qed.

Lemma py_sorted_sorted l : StronglySorted (λ a b, leb a b = true) (py_sorted l).
Proof.
  induction l as [|x l IH]; simpl; [constructor|]. by apply insert_sorted_sorted.
Qed.

(** Sorting a sorted list changes nothing. *)
Lemma py_sorted_id l : StronglySorted (λ a b, leb a b = true) l → py_sorted l = l.
Proof.
  induction 1 as [|x l _ IH Hall]; simpl; [done|]. rewrite IH.
  destruct Hall as [|y l Hxy _]; simpl; [done|]. by rewrite Hxy.
Qed.
End Sorted.

Lemma StronglySorted_filter {A} (R : A → A → Prop) (f : A → bool) l :
  StronglySorted R l → StronglySorted R (List.filter f l).
Proof.
  induction 1 as [|x l _ IH Hall]; simpl; [constructor|].
  destruct (f x); [|done]. constructor; [done|].
  rewrite Forall_forall in *. intros y Hy. apply list_elem_of_In, filter_In in Hy as [Hy _].
  by apply Hall, list_elem_of_In.
Qed.

Lemma StronglySorted_weaken {A} (R R' : A → A → Prop) l :
  (∀ x y, R x y → R' x y) → StronglySorted R l → StronglySorted R' l.
Proof.
  intros HR. induction 1 as [|x l _ IH Hall]; constructor; [done|].
  eapply Forall_impl; [exact Hall|]. auto.
Qed.

Lemma filter_filter_andb {A} (f g : A → bool) l :
  List.filter g (List.filter f l) = List.filter (λ x, f x && g x) l.
Proof.
  induction l as [|x l IH]; simpl; [done|]. destruct (f x); simpl; [|done].
  destruct (g x); by rewrite IH.
Qed.

(** A list is sorted when every element is related to all that precede it. *)
Lemma StronglySorted_alt {A} (R : A → A → Prop) l :
  StronglySorted R l ↔ ∀ pre x post, l = pre ++ x :: post → Forall (λ y, R y x) pre.
Proof.
  split.
  - induction 1 as [|y l Hs IH Hall]; intros pre x post Heq.
    + by destruct pre.
    + destruct pre as [|z pre]; [constructor|]. simpl in Heq. injection Heq as <- ->.
      apply Forall_cons. split; [|by eapply IH].
      apply Forall_app in Hall as [_ Hall]. by apply Forall_cons in Hall as [? _].
  - induction l as [|y l IH]; intros H; [constructor|]. constructor.
    + apply IH. intros pre x post ->. specialize (H (y :: pre) x post eq_refl).
      by apply Forall_cons in H as [_ ?].
    + apply Forall_forall. intros z Hz. apply list_elem_of_split in Hz as (pre & post & ->).
      specialize (H (y :: pre) z post eq_refl). by apply Forall_cons in H as [? _].
Qed.

(** The splits of a concatenation. *)
Lemma app_split_cons {A} (l1 l2 pre post : list A) x :
  l1 ++ l2 = pre ++ x :: post →
  (∃ q, l1 = pre ++ x :: q ∧ post = q ++ l2) ∨ (∃ q, pre = l1 ++ q ∧ l2 = q ++ x :: post).
Proof.
  revert pre. induction l1 as [|y l1 IH]; intros pre Heq; simpl in Heq.
  - right. by exists pre.
  - destruct pre as [|z pre]; simpl in Heq; injection Heq as -> Heq.
    + left. by exists l1.
    + destruct (IH _ Heq) as [(q & -> & ->)|(q & -> & ->)].
      * left. by exists q.
      * right. by exists q.
Qed.

(** ** Searching and changing case *)

(** [needle in s] *)
Fixpoint contains (needle s : string) : bool :=
  String.prefix needle s || match s with String _ s' => contains needle s' | EmptyString => false end.

(** [c.lower()] of a Latin-1 character *)
Definition lower_char (c : Ascii.ascii) : Ascii.ascii :=
  let n := Ascii.N_of_ascii c in
  if ((65 <=? n)%N && (n <=? 90)%N) || ((192 <=? n)%N && (n <=? 222)%N && negb (n =? 215)%N)
  then Ascii.ascii_of_N (n + 32) else c.

Fixpoint str_lower (s : string) : string :=
  match s with
  | EmptyString => EmptyString
  | String c s' => String (lower_char c) (str_lower s')
  end.

(** [s.split(sep)] on a separator of one character *)
Fixpoint split_on (sep : Ascii.ascii) (s : string) : list string :=
  match s with
  | EmptyString => [EmptyString]
  | String c s' =>
      if Ascii.eqb c sep then EmptyString :: split_on sep s'
      else match split_on sep s' with
           | part :: parts => String c part :: parts
           | [] => [String c EmptyString]
           end
  end.
