(* ===== verification/Json.v ===== *)
(** * JSON payload values

    Models [domain/events.py]: the Python values a JSON payload is built
    from, [freeze_json], [freeze_json_mapping] and [thaw_json], the
    [Mapping.get] accesses made on payloads and Python's [==] on them.  A
    dict is its item list in insertion order with distinct keys. *)

From stdpp Require Import base gmap sets list strings pretty.
From Stdlib Require Import ZArith Lia SpecFloat.
From S2P Require Import Prelude PyLib.

Local Open Scope Z_scope.

(** A mapping key: the code only distinguishes strings from other hashable
    objects, which are told apart by an integer. *)
Inductive pykey : Type :=
| KStr (s : string)
| KOther (n : Z).

#[export] Instance pykey_eq_dec : EqDecision pykey.
Proof. solve_decision. Defined.

(** [dict] and [list] are the mutable containers, [MappingProxyType] and
    [tuple] the immutable ones; [PBytes] covers [bytes], [bytearray] and
    [memoryview]; [PObject] any other object. *)
Inductive pyval : Type :=
| PNone
| PBool (b : bool)
| PInt (z : Z)
| PFloat (f : spec_float)
| PStr (s : string)
| PList (l : list pyval)
| PTuple (l : list pyval)
| PDict (d : list (pykey * pyval))
| PProxy (d : list (pykey * pyval))
| PBytes (b : string)
| PObject (n : Z).

Abbreviation pydict := (list (pykey * pyval)).

(** Induction with hypotheses for the members of containers. *)
Section PyvalInd.
Context (P : pyval → Prop).
Context (HNone : P PNone) (HBool : ∀ b, P (PBool b)) (HInt : ∀ z, P (PInt z))
  (HFloat : ∀ f, P (PFloat f)) (HStr : ∀ s, P (PStr s))
  (HList : ∀ l, Forall P l → P (PList l))
  (HTuple : ∀ l, Forall P l → P (PTuple l))
  (HDict : ∀ d, Forall (λ kv, P kv.2) d → P (PDict d))
  (HProxy : ∀ d, Forall (λ kv, P kv.2) d → P (PProxy d))
  (HBytes : ∀ b, P (PBytes b)) (HObject : ∀ n, P (PObject n)).

Fixpoint pyval_deep_ind (v : pyval) : P v :=
  let list_ind := fix go (l : list pyval) : Forall P l :=
    match l with
    | [] => List.Forall_nil _
    | x :: l' => @List.Forall_cons _ P x l' (pyval_deep_ind x) (go l')
    end in
  let dict_ind := fix go (d : pydict) : Forall (λ kv, P kv.2) d :=
    match d with
    | [] => List.Forall_nil _
    | kv :: d' =>
        @List.Forall_cons _ (λ kv, P kv.2) kv d' (pyval_deep_ind kv.2) (go d')
    end in
  match v with
  | PNone => HNone
  | PBool b => HBool b
  | PInt z => HInt z
  | PFloat f => HFloat f
  | PStr s => HStr s
  | PList l => HList l (list_ind l)
  | PTuple l => HTuple l (list_ind l)
  | PDict d => HDict d (dict_ind d)
  | PProxy d => HProxy d (dict_ind d)
  | PBytes b => HBytes b
  | PObject n => HObject n
  end.
End PyvalInd.

(** [d.get(key)] *)
Fixpoint dict_get (key : string) (d : pydict) : option pyval :=
  match d with
  | [] => None
  | (k, v) :: d' => if bool_decide (k = KStr key) then Some v else dict_get key d'
  end.

(** [d[key] = v]: an existing key keeps its place. *)
Fixpoint dict_set (key : string) (v : pyval) (d : pydict) : pydict :=
  match d with
  | [] => [(KStr key, v)]
  | (k, w) :: d' =>
      if bool_decide (k = KStr key) then (k, v) :: d' else (k, w) :: dict_set key v d'
  end.

(** [d.update(items)] *)
Definition dict_update (d : pydict) (items : list (string * pyval)) : pydict :=
  foldl (λ acc kv, dict_set kv.1 kv.2 acc) d items.

(** A dict display with string keys. *)
Definition dict_of (items : list (string * pyval)) : pydict := dict_update [] items.

(** [d.get(k) == text] and [d.get(k) == number]: an integer equals a [bool] or a
    float of the same value in Python. *)
Definition equals_str (v : option pyval) (s : string) : bool :=
  match v with Some (PStr t) => bool_decide (t = s) | _ => false end.

Definition float_equals_int (f : SpecFloat.spec_float) (z : Z) : bool :=
  match f with
  | SpecFloat.S754_zero _ => z =? 0
  | SpecFloat.S754_finite s m e =>
      let v := if s then Zneg m else Zpos m in
      if 0 <=? e then v * 2 ^ e =? z else v =? z * 2 ^ (- e)
  | _ => false
  end.

Definition equals_int (v : option pyval) (z : Z) : bool :=
  match v with
  | Some (PInt n) => n =? z
  | Some (PBool b) => (if b then 1 else 0) =? z
  | Some (PFloat f) => float_equals_int f z
  | _ => false
  end.

(** [math.isfinite] *)
Definition float_isfinite (f : spec_float) : bool :=
  match f with S754_zero _ | S754_finite _ _ _ => true | _ => false end.

Definition unsupported : exn := ValueError "unsupported JSON value type".

(** [freeze_json]; the local loop over a mapping is [freeze_json_mapping]. *)
Fixpoint freeze_json (value : pyval) : result pyval :=
  match value with
  | PNone | PStr _ | PBool _ | PInt _ => inr value
  | PFloat f =>
      if float_isfinite f then inr value
      else inl (ValueError "JSON numbers must be finite")
  | PDict d | PProxy d =>
      let? frozen :=
        (fix go (d : pydict) : result pydict :=
           match d with
           | [] => inr []
           | (KStr key, item) :: d' =>
               let? item' := freeze_json item in
               let? rest := go d' in
               inr ((KStr key, item') :: rest)
           | (KOther _, _) :: _ => inl (ValueError "JSON object keys must be strings")
           end) d in
      inr (PProxy frozen)
  | PList l | PTuple l =>
      let? items :=
        (fix go (l : list pyval) : result (list pyval) :=
           match l with
           | [] => inr []
           | item :: l' =>
               let? item' := freeze_json item in
               let? rest := go l' in
               inr (item' :: rest)
           end) l in
      inr (PTuple items)
  | PBytes _ | PObject _ => inl unsupported
  end.

Fixpoint freeze_json_mapping (value : pydict) : result pydict :=
  match value with
  | [] => inr []
  | (KStr key, item) :: d' =>
      let? item' := freeze_json item in
      let? rest := freeze_json_mapping d' in
      inr ((KStr key, item') :: rest)
  | (KOther _, _) :: _ => inl (ValueError "JSON object keys must be strings")
  end.

Fixpoint freeze_json_items (value : list pyval) : result (list pyval) :=
  match value with
  | [] => inr []
  | item :: l' =>
      let? item' := freeze_json item in
      let? rest := freeze_json_items l' in
      inr (item' :: rest)
  end.

(** [thaw_json] *)
Fixpoint thaw_json (value : pyval) : pyval :=
  match value with
  | PDict d | PProxy d => PDict (map (λ '(k, item), (k, thaw_json item)) d)
  | PList l | PTuple l => PList (map thaw_json l)
  | _ => value
  end.

(** ** What freezing guarantees *)

(** No mutable container is reachable from the value, numbers are finite,
    keys are strings, every leaf is a JSON scalar. *)
Fixpoint deeply_frozen (v : pyval) : bool :=
  match v with
  | PNone | PStr _ | PBool _ | PInt _ => true
  | PFloat f => float_isfinite f
  | PTuple l => forallb deeply_frozen l
  | PProxy d =>
      forallb (λ kv, match kv with
                     | (KStr _, x) => deeply_frozen x
                     | (KOther _, _) => false
                     end) d
  | PList _ | PDict _ | PBytes _ | PObject _ => false
  end.

(** The values the JSON data model admits, whatever their containers. *)
Fixpoint json_value (v : pyval) : bool :=
  match v with
  | PNone | PStr _ | PBool _ | PInt _ => true
  | PFloat f => float_isfinite f
  | PList l | PTuple l => forallb json_value l
  | PDict d | PProxy d =>
      forallb (λ kv, match kv with
                     | (KStr _, x) => json_value x
                     | (KOther _, _) => false
                     end) d
  | PBytes _ | PObject _ => false
  end.

Definition frozen_dict (d : pydict) : bool := deeply_frozen (PProxy d).

Lemma freeze_json_dict d :
  freeze_json (PDict d) = rbind (freeze_json_mapping d) (λ d', inr (PProxy d')) ∧
  freeze_json (PProxy d) = rbind (freeze_json_mapping d) (λ d', inr (PProxy d')).
Proof.
  simpl. set (go := fix go (d : pydict) : result pydict := _).
  assert (Hgo : go d = freeze_json_mapping d); [|by rewrite Hgo].
  induction d as [|[[key|n] item] d IH]; simpl; [done| |done].
  destruct (freeze_json item); simpl; [done|]. by rewrite IH.
Qed.

Lemma freeze_json_seq l :
  freeze_json (PList l) = rbind (freeze_json_items l) (λ l', inr (PTuple l')) ∧
  freeze_json (PTuple l) = rbind (freeze_json_items l) (λ l', inr (PTuple l')).
Proof.
  simpl. set (go := fix go (l : list pyval) : result (list pyval) := _).
  assert (Hgo : go l = freeze_json_items l); [|by rewrite Hgo].
  induction l as [|item l IH]; simpl; [done|].
  destruct (freeze_json item); simpl; [done|]. by rewrite IH.
Qed.

Definition dict_json (d : pydict) : bool := json_value (PDict d).

(** Freezing succeeds on every value of the JSON data model; the frozen
    value has no mutable container and thaws like the original. *)
Definition freeze_complete (v : pyval) : Prop :=
  json_value v = true →
  ∃ w, freeze_json v = inr w ∧ deeply_frozen w = true ∧ thaw_json w = thaw_json v.

Lemma freeze_items_complete l :
  Forall freeze_complete l → forallb json_value l = true →
  ∃ l', freeze_json_items l = inr l' ∧ forallb deeply_frozen l' = true ∧
        map thaw_json l' = map thaw_json l.
Proof.
  induction 1 as [|x l Hx _ IH]; simpl; intros Hj; [by eexists|].
  apply andb_true_iff in Hj as [Hjx Hjl].
  destruct (Hx Hjx) as (w & -> & Hw & Ht). destruct (IH Hjl) as (l' & -> & Hl & Hm).
  simpl. eexists. split; [done|]. simpl. rewrite Hw, Ht, Hm. by rewrite Hl.
Qed.

Lemma freeze_mapping_complete d :
  Forall (λ kv, freeze_complete kv.2) d → dict_json d = true →
  ∃ d', freeze_json_mapping d = inr d' ∧ frozen_dict d' = true ∧
        thaw_json (PProxy d') = thaw_json (PDict d).
Proof.
  unfold dict_json, frozen_dict.
  induction 1 as [|[[key|n] x] d Hx _ IH]; simpl; intros Hj; [by eexists| |done].
  apply andb_true_iff in Hj as [Hjx Hjl]. simpl in Hx.
  destruct (Hx Hjx) as (w & -> & Hw & Ht). destruct (IH Hjl) as (l' & -> & Hl & Hm).
  simpl in *. injection Hm as Hm. eexists. split; [done|]. simpl.
  simpl in Ht. rewrite Hw, Ht, Hm. by rewrite Hl.
Qed.

Lemma freeze_json_complete v : freeze_complete v.
Proof.
  induction v as [| | | | |l IH|l IH|d IH|d IH| |] using pyval_deep_ind;
    intros Hj; try done; try (by eexists).
  - simpl in *. rewrite Hj. by eexists.
  - rewrite (proj1 (freeze_json_seq l)).
    destruct (freeze_items_complete l IH Hj) as (l' & -> & Hl & Hm).
    eexists. split; [done|]. simpl. by rewrite Hm.
  - rewrite (proj2 (freeze_json_seq l)).
    destruct (freeze_items_complete l IH Hj) as (l' & -> & Hl & Hm).
    eexists. split; [done|]. simpl. by rewrite Hm.
  - rewrite (proj1 (freeze_json_dict d)).
    destruct (freeze_mapping_complete d IH Hj) as (d' & -> & Hl & Hm). by eexists.
  - rewrite (proj2 (freeze_json_dict d)).
    destruct (freeze_mapping_complete d IH Hj) as (d' & -> & Hl & Hm). by eexists.
Qed.

(** Conversely only values of the JSON data model freeze. *)
Lemma freeze_json_sound v w : freeze_json v = inr w → json_value v = true.
Proof.
  revert w. induction v as [| | | | |l IH|l IH|d IH|d IH| |] using pyval_deep_ind;
    intros w Hw; try done.
  - simpl in *. by destruct (float_isfinite f).
  - rewrite (proj1 (freeze_json_seq l)) in Hw. py_inv.
    revert a Hr. simpl. induction IH as [|x l Hx _ IHl]; simpl; intros a Hr; [done|].
    py_inv. rewrite (Hx _ Hr0). eauto.
  - rewrite (proj2 (freeze_json_seq l)) in Hw. py_inv.
    revert a Hr. simpl. induction IH as [|x l Hx _ IHl]; simpl; intros a Hr; [done|].
    py_inv. rewrite (Hx _ Hr0). eauto.
  - rewrite (proj1 (freeze_json_dict d)) in Hw. py_inv.
    revert a Hr. simpl. induction IH as [|[[k|n] x] d Hx _ IHl]; simpl; intros a Hr; try done.
    py_inv. simpl in Hx. rewrite (Hx _ Hr0). eauto.
  - rewrite (proj2 (freeze_json_dict d)) in Hw. py_inv.
    revert a Hr. simpl. induction IH as [|[[k|n] x] d Hx _ IHl]; simpl; intros a Hr; try done.
    py_inv. simpl in Hx. rewrite (Hx _ Hr0). eauto.
Qed.

(** Freezing a frozen value is the identity. *)
Lemma freeze_json_frozen v : deeply_frozen v = true → freeze_json v = inr v.
Proof.
  induction v as [| | | | |l IH|l IH|d IH|d IH| |] using pyval_deep_ind;
    intros Hf; try done.
  - simpl in *. by rewrite Hf.
  - rewrite (proj2 (freeze_json_seq l)).
    assert (freeze_json_items l = inr l) as ->; [|done]. simpl in Hf.
    induction IH as [|x l Hx _ IHl]; simpl in *; [done|].
    apply andb_true_iff in Hf as [Hfx Hfl]. rewrite (Hx Hfx). simpl. by rewrite IHl.
  - rewrite (proj2 (freeze_json_dict d)).
    assert (freeze_json_mapping d = inr d) as ->; [|done]. simpl in Hf.
    induction IH as [|[[k|n] x] d Hx _ IHl]; simpl in *; try done.
    apply andb_true_iff in Hf as [Hfx Hfl]. rewrite (Hx Hfx). simpl. by rewrite IHl.
Qed.

Lemma freeze_mapping_id d : frozen_dict d = true → freeze_json_mapping d = inr d.
Proof.
  intros Hd. pose proof (freeze_json_frozen _ Hd) as Hf.
  rewrite (proj2 (freeze_json_dict d)) in Hf.
  destruct (freeze_json_mapping d); simpl in Hf; congruence.
Qed.

(** Freezing a mapping keeps its keys and freezes each value in place. *)
Lemma freeze_mapping_get d d' key :
  freeze_json_mapping d = inr d' →
  match dict_get key d with
  | Some v => ∃ w, freeze_json v = inr w ∧ dict_get key d' = Some w
  | None => dict_get key d' = None
  end.
Proof.
  revert d'. induction d as [|[[k|n] x] d IH]; simpl; intros d' H; [by injection H as <-| |done].
  py_inv. case_bool_decide as Hk; [eauto|by apply IH].
Qed.

Lemma dict_get_set key k v d :
  dict_get key (dict_set k v d) = if bool_decide (key = k) then Some v else dict_get key d.
Proof.
  induction d as [|[k' w] d IH]; simpl.
  - repeat case_bool_decide; naive_solver.
  - destruct (decide (k' = KStr k)) as [->|Hne].
    + rewrite (bool_decide_true (KStr k = KStr k)) by done. simpl.
      repeat case_bool_decide; naive_solver.
    + rewrite (bool_decide_false (k' = KStr k)) by done. simpl. rewrite IH.
      repeat case_bool_decide; naive_solver.
Qed.

Lemma dict_set_frozen k v d :
  frozen_dict d = true → deeply_frozen v = true → frozen_dict (dict_set k v d) = true.
Proof.
  unfold frozen_dict. induction d as [|[[k'|n] w] d IH]; simpl; intros Hd Hv; [by rewrite Hv| |done].
  apply andb_true_iff in Hd as [Hw Hd].
  case_bool_decide; simpl; [by rewrite Hv|]. rewrite Hw. by apply IH.
Qed.

Lemma dict_update_frozen d items :
  frozen_dict d = true → Forall (λ kv, deeply_frozen kv.2 = true) items →
  frozen_dict (dict_update d items) = true.
Proof.
  intros Hd Hi. revert d Hd. unfold dict_update.
  induction Hi as [|[k v] items Hv _ IH]; intros d Hd; simpl; [done|].
  apply IH. by apply dict_set_frozen.
Qed.

(** Thawing a frozen value and freezing it again is the identity: a payload
    survives its trip through a JSON column. *)
Lemma freeze_thaw v : deeply_frozen v = true → freeze_json (thaw_json v) = inr v.
Proof.
  induction v as [| | | | |l IH|l IH|d IH|d IH| |] using pyval_deep_ind;
    intros Hf; try done.
  - simpl in *. by rewrite Hf.
  - change (thaw_json (PTuple l)) with (PList (map thaw_json l)).
    rewrite (proj1 (freeze_json_seq _)).
    assert (freeze_json_items (map thaw_json l) = inr l) as ->; [|done]. simpl in Hf.
    induction IH as [|x l Hx _ IHl]; simpl in *; [done|].
    apply andb_true_iff in Hf as [Hfx Hfl]. rewrite (Hx Hfx). simpl. by rewrite IHl.
  - change (thaw_json (PProxy d)) with (PDict (map (λ '(k, item), (k, thaw_json item)) d)).
    rewrite (proj1 (freeze_json_dict _)).
    assert (freeze_json_mapping (map (λ '(k, item), (k, thaw_json item)) d) = inr d) as ->;
      [|done]. simpl in Hf.
    induction IH as [|[[k|n] x] d Hx _ IHl]; simpl in *; try done.
    apply andb_true_iff in Hf as [Hfx Hfl]. rewrite (Hx Hfx). simpl. by rewrite IHl.
Qed.

Lemma freeze_thaw_mapping d :
  frozen_dict d = true →
  freeze_json_mapping (map (λ '(k, item), (k, thaw_json item)) d) = inr d.
Proof.
  intros Hd. pose proof (freeze_thaw _ Hd) as H.
  change (thaw_json (PProxy d)) with (PDict (map (λ '(k, item), (k, thaw_json item)) d)) in H.
  rewrite (proj1 (freeze_json_dict _)) in H.
  destruct (freeze_json_mapping _); simpl in H; congruence.
Qed.

(** Freezing accepts exactly the values of the JSON data model (string
    keys, finite numbers, no foreign objects); the snapshot contains no
    mutable container at any depth, denotes the same JSON document, is a
    fixed point of freezing and survives thawing and freezing again. *)
Theorem freeze_json_snapshot v :
  (json_value v = true ↔ ∃ w, freeze_json v = inr w) ∧
  ∀ w, freeze_json v = inr w →
    deeply_frozen w = true ∧ thaw_json w = thaw_json v ∧
    freeze_json w = inr w ∧ freeze_json (thaw_json w) = inr w.
Proof.
  assert (Hc : ∀ w, freeze_json v = inr w → deeply_frozen w = true ∧ thaw_json w = thaw_json v).
  { intros w Hw. destruct (freeze_json_complete v (freeze_json_sound _ _ Hw)) as (w' & Hw' & H).
    rewrite Hw in Hw'. by injection Hw' as <-. }
  split.
  - split; [|intros [w Hw]; by eapply freeze_json_sound].
    intros Hj. destruct (freeze_json_complete v Hj) as (w & Hw & _). eauto.
  - intros w Hw. destruct (Hc w Hw) as [Hf Ht].
    do 2 (split; [done|]). split; [by apply freeze_json_frozen|by apply freeze_thaw].
Qed.
