(* ===== verification/Events.v ===== *)
(** * Event contracts

    Models the rest of [domain/events.py]: the string-constant classes
    [ActorKind] and [DomainEventType], the envelope shared by every event and
    the invariants its constructor enforces. *)

From stdpp Require Import base gmap sets list strings pretty.
From Stdlib Require Import ZArith Lia.
From S2P Require Import Prelude PyLib Json.

Local Open Scope Z_scope.

(** ** [_StringConstant]: a closed set of string values

    [Cls(value)] looks the value up among the defined members and raises
    [ValueError] otherwise. *)

Class StringConstant (T : Type) : Type := {
  sc_value : T → string;
  sc_members : list T;
}.

Definition sc_new {T} `{StringConstant T} (v : string) : result T :=
  match find (λ m, bool_decide (sc_value m = v)) sc_members with
  | Some m => inr m
  | None => inl (ValueError "not a valid member")
  end.

(** What every string-constant class of the code satisfies: the table lists
    every member and two members never share a value. *)
Class StringConstantOk (T : Type) `{StringConstant T} : Prop := {
  sc_complete : ∀ m : T, m ∈ sc_members;
  sc_distinct : ∀ m n : T, sc_value m = sc_value n → m = n;
}.

Lemma sc_new_value {T} `{StringConstantOk T} (m : T) : sc_new (sc_value m) = inr m.
Proof.
  unfold sc_new.
  destruct (find (λ n : T, bool_decide (sc_value n = sc_value m)) sc_members)
    as [n|] eqn:Hf.
  - apply find_some in Hf as [_ Hf]. bool_props. by rewrite (sc_distinct _ _ Hf).
  - exfalso. apply find_none with (x := m) in Hf.
    + by rewrite bool_decide_true in Hf.
    + apply list_elem_of_In, sc_complete.
Qed.

Lemma sc_new_inv {T} `{StringConstant T} (v : string) (m : T) :
  sc_new v = inr m → sc_value m = v.
Proof.
  unfold sc_new. destruct (find _ _) as [n|] eqn:Hf; [|done]. intros [= <-].
  apply find_some in Hf as [_ Hf]. by bool_props.
Qed.

Ltac solve_string_constant :=
  split;
  [ intros m; destruct m; apply list_elem_of_In; simpl; tauto
  | intros m n; destruct m, n; simpl; intros Hv; first [reflexivity | discriminate Hv] ].

Inductive ActorKind : Type := USER | SERVICE | SYSTEM.

#[export] Instance ActorKind_eq_dec : EqDecision ActorKind.
Proof. solve_decision. Defined.

#[export] Instance ActorKind_constant : StringConstant ActorKind := {
  sc_value k := match k with
                | USER => "user" | SERVICE => "service" | SYSTEM => "system"
                end%string;
  sc_members := [USER; SERVICE; SYSTEM];
}.

#[export] Instance ActorKind_ok : StringConstantOk ActorKind.
Proof. solve_string_constant. Qed.

Inductive DomainEventType : Type :=
| INVESTIGATION_REQUESTED
| RUN_STARTED
| RUN_STATUS_CHANGED
| RUN_COMPLETED
| RUN_FAILED
| ARTIFACT_RECORDED
| APPROVAL_REQUESTED
| APPROVAL_DECIDED
| USAGE_RECORDED
| SIDE_EFFECT_INTENT_RECORDED
| SIDE_EFFECT_COMPLETED
| SIDE_EFFECT_FAILED
| OUTBOX_DEAD_LETTERED
| TENANT_REGISTERED
| WORK_REQUESTED
| WORK_PUBLISHED
| WORK_CLAIMED
| WORK_STARTED
| WORK_HEARTBEAT
| WORK_LEASE_EXPIRED
| WORK_SUCCEEDED
| WORK_FAILED
| WORK_RETRY_SCHEDULED
| WORK_CANCEL_REQUESTED
| WORK_CANCELLED
| WORK_DEAD_LETTERED
| WORK_RECONCILED
| MODEL_CALL_REQUESTED
| MODEL_CALL_STARTED
| MODEL_CALL_ATTEMPTED
| MODEL_CALL_SUCCEEDED
| MODEL_CALL_FAILED
| MODEL_CALL_TIMED_OUT
| MODEL_CALL_RATE_LIMITED
| MODEL_CALL_CANCELLED
| MODEL_USAGE_RECORDED
| MODEL_ROUTE_DECIDED
| MODEL_FALLBACK_SELECTED
| MODEL_BUDGET_RESERVED
| MODEL_BUDGET_RELEASED
| MODEL_BUDGET_CHARGED.

#[export] Instance DomainEventType_eq_dec : EqDecision DomainEventType.
Proof. solve_decision. Defined.

Definition event_type_value (t : DomainEventType) : string :=
  match t with
  | INVESTIGATION_REQUESTED => "investigation.requested.v1"
  | RUN_STARTED => "run.started.v1"
  | RUN_STATUS_CHANGED => "run.status_changed.v1"
  | RUN_COMPLETED => "run.completed.v1"
  | RUN_FAILED => "run.failed.v1"
  | ARTIFACT_RECORDED => "artifact.recorded.v1"
  | APPROVAL_REQUESTED => "approval.requested.v1"
  | APPROVAL_DECIDED => "approval.decided.v1"
  | USAGE_RECORDED => "usage.recorded.v1"
  | SIDE_EFFECT_INTENT_RECORDED => "effect.intent_recorded.v1"
  | SIDE_EFFECT_COMPLETED => "effect.completed.v1"
  | SIDE_EFFECT_FAILED => "effect.failed.v1"
  | OUTBOX_DEAD_LETTERED => "delivery.outbox_dead_lettered.v1"
  | TENANT_REGISTERED => "tenant.registered.v1"
  | WORK_REQUESTED => "work.requested.v1"
  | WORK_PUBLISHED => "work.published.v1"
  | WORK_CLAIMED => "work.claimed.v1"
  | WORK_STARTED => "work.started.v1"
  | WORK_HEARTBEAT => "work.heartbeat.v1"
  | WORK_LEASE_EXPIRED => "work.lease_expired.v1"
  | WORK_SUCCEEDED => "work.succeeded.v1"
  | WORK_FAILED => "work.failed.v1"
  | WORK_RETRY_SCHEDULED => "work.retry_scheduled.v1"
  | WORK_CANCEL_REQUESTED => "work.cancel_requested.v1"
  | WORK_CANCELLED => "work.cancelled.v1"
  | WORK_DEAD_LETTERED => "work.dead_lettered.v1"
  | WORK_RECONCILED => "work.reconciled.v1"
  | MODEL_CALL_REQUESTED => "model.call_requested.v1"
  | MODEL_CALL_STARTED => "model.call_started.v1"
  | MODEL_CALL_ATTEMPTED => "model.call_attempted.v1"
  | MODEL_CALL_SUCCEEDED => "model.call_succeeded.v1"
  | MODEL_CALL_FAILED => "model.call_failed.v1"
  | MODEL_CALL_TIMED_OUT => "model.call_timed_out.v1"
  | MODEL_CALL_RATE_LIMITED => "model.call_rate_limited.v1"
  | MODEL_CALL_CANCELLED => "model.call_cancelled.v1"
  | MODEL_USAGE_RECORDED => "model.usage_recorded.v1"
  | MODEL_ROUTE_DECIDED => "model.route_decided.v1"
  | MODEL_FALLBACK_SELECTED => "model.fallback_selected.v1"
  | MODEL_BUDGET_RESERVED => "model.budget_reserved.v1"
  | MODEL_BUDGET_RELEASED => "model.budget_released.v1"
  | MODEL_BUDGET_CHARGED => "model.budget_charged.v1"
  end%string.

Definition event_type_members : list DomainEventType :=
  [INVESTIGATION_REQUESTED; RUN_STARTED; RUN_STATUS_CHANGED;
   RUN_COMPLETED; RUN_FAILED; ARTIFACT_RECORDED;
   APPROVAL_REQUESTED; APPROVAL_DECIDED; USAGE_RECORDED;
   SIDE_EFFECT_INTENT_RECORDED; SIDE_EFFECT_COMPLETED; SIDE_EFFECT_FAILED;
   OUTBOX_DEAD_LETTERED; TENANT_REGISTERED; WORK_REQUESTED;
   WORK_PUBLISHED; WORK_CLAIMED; WORK_STARTED;
   WORK_HEARTBEAT; WORK_LEASE_EXPIRED; WORK_SUCCEEDED;
   WORK_FAILED; WORK_RETRY_SCHEDULED; WORK_CANCEL_REQUESTED;
   WORK_CANCELLED; WORK_DEAD_LETTERED; WORK_RECONCILED;
   MODEL_CALL_REQUESTED; MODEL_CALL_STARTED; MODEL_CALL_ATTEMPTED;
   MODEL_CALL_SUCCEEDED; MODEL_CALL_FAILED; MODEL_CALL_TIMED_OUT;
   MODEL_CALL_RATE_LIMITED; MODEL_CALL_CANCELLED; MODEL_USAGE_RECORDED;
   MODEL_ROUTE_DECIDED; MODEL_FALLBACK_SELECTED; MODEL_BUDGET_RESERVED;
   MODEL_BUDGET_RELEASED; MODEL_BUDGET_CHARGED].

#[export] Instance DomainEventType_constant : StringConstant DomainEventType := {
  sc_value := event_type_value;
  sc_members := event_type_members;
}.

#[export] Instance DomainEventType_ok : StringConstantOk DomainEventType.
Proof.
  split.
  - intros m. apply list_elem_of_In. destruct m; simpl; tauto.
  - intros m n Hv. change (event_type_value m = event_type_value n) in Hv.
    assert (Hn : find (λ k, bool_decide (event_type_value k = event_type_value m))
                      event_type_members = Some m) by by destruct m.
    rewrite Hv in Hn. destruct n; vm_compute in Hn; congruence.
Qed.

(** ** Envelope *)

Record ActorReference : Type := {
  actor_id : string;
  actor_kind : ActorKind;
}.

Definition ActorReference_post_init (a : ActorReference) : result ActorReference :=
  raise! ValueError "actor_id is required" when! PyStr.is_empty (actor_id a) ;;
  inr a.

Record TraceContext : Type := {
  traceparent : string;
  tracestate : option string;
}.

Definition TraceContext_post_init (t : TraceContext) : result TraceContext :=
  raise! ValueError "traceparent is required" when! PyStr.is_empty (traceparent t) ;;
  inr t.

Definition require_aware_datetime (d : Dt.datetime) : result unit :=
  reject_if (Dt.naive d) (ValueError "must be timezone-aware").

Record EventEnvelope : Type := mkEventEnvelope {
  event_id : uuid;
  ev_tenant_id : string;
  aggregate_id : string;
  event_type : string;
  schema_version : Z;
  occurred_at : Dt.datetime;
  payload : pydict;
  correlation_id : option uuid;
  causation_id : option uuid;
  aggregate_sequence : Z;
  global_position : option Z;
  recorded_at : option Dt.datetime;
  actor : option ActorReference;
  identity_reference : option string;
  policy_reference : option string;
  audit_reference : option uuid;
  idempotency_key : option string;
  trace_context : option TraceContext;
  previous_aggregate_sequence : option Z;
  metadata : pydict;
}.

(** [replace] of the two JSON mappings by their frozen snapshots. *)
Definition set_payload_metadata (e : EventEnvelope) (p m : pydict) : EventEnvelope :=
  {| event_id := event_id e; ev_tenant_id := ev_tenant_id e;
     aggregate_id := aggregate_id e; event_type := event_type e;
     schema_version := schema_version e; occurred_at := occurred_at e; payload := p;
     correlation_id := correlation_id e; causation_id := causation_id e;
     aggregate_sequence := aggregate_sequence e; global_position := global_position e;
     recorded_at := recorded_at e; actor := actor e;
     identity_reference := identity_reference e; policy_reference := policy_reference e;
     audit_reference := audit_reference e; idempotency_key := idempotency_key e;
     trace_context := trace_context e;
     previous_aggregate_sequence := previous_aggregate_sequence e; metadata := m |}.

Definition opt_test {A} (f : A → bool) (o : option A) : bool :=
  match o with Some a => f a | None => false end.

Definition blank (s : string) : bool := PyStr.is_empty (PyStr.strip s).

Definition EventEnvelope_post_init (e : EventEnvelope) : result EventEnvelope :=
  raise! ValueError "schema_version must be positive" when! schema_version e <? 1 ;;
  raise! ValueError "tenant, aggregate, and event type are required"
    when! blank (ev_tenant_id e) || blank (aggregate_id e) || blank (event_type e) ;;
  let? _ := require_aware_datetime (occurred_at e) in
  let? _ := match recorded_at e with
            | Some r => require_aware_datetime r
            | None => inr tt
            end in
  raise! ValueError "aggregate_sequence cannot be negative"
    when! aggregate_sequence e <? 0 ;;
  raise! ValueError "global_position must be positive"
    when! opt_test (λ p, p <? 1) (global_position e) ;;
  raise! ValueError "previous_aggregate_sequence cannot be negative"
    when! opt_test (λ p, p <? 0) (previous_aggregate_sequence e) ;;
  raise! ValueError "idempotency_key cannot be empty"
    when! opt_test PyStr.is_empty (idempotency_key e) ;;
  let? p := freeze_json_mapping (payload e) in
  let? m := freeze_json_mapping (metadata e) in
  inr (set_payload_metadata e p m).

(** The type invariant of a constructed envelope. *)
Record envelope_wf (e : EventEnvelope) : Prop := {
  wf_schema : 1 ≤ schema_version e;
  wf_tenant : blank (ev_tenant_id e) = false;
  wf_aggregate : blank (aggregate_id e) = false;
  wf_event_type : blank (event_type e) = false;
  wf_occurred : Dt.naive (occurred_at e) = false;
  wf_recorded : ∀ r, recorded_at e = Some r → Dt.naive r = false;
  wf_sequence : 0 ≤ aggregate_sequence e;
  wf_position : ∀ p, global_position e = Some p → 1 ≤ p;
  wf_previous : ∀ p, previous_aggregate_sequence e = Some p → 0 ≤ p;
  wf_key : ∀ k, idempotency_key e = Some k → k ≠ ""%string;
  wf_payload : frozen_dict (payload e) = true;
  wf_metadata : frozen_dict (metadata e) = true;
}.

Lemma freeze_mapping_frozen d d' : freeze_json_mapping d = inr d' → frozen_dict d' = true.
Proof.
  intros H. assert (Hd : freeze_json (PDict d) = inr (PProxy d')).
  { rewrite (proj1 (freeze_json_dict d)), H. done. }
  pose proof (freeze_json_sound _ _ Hd) as Hj.
  destruct (freeze_json_complete (PDict d) Hj) as (w & Hw & Hf & _). rewrite Hd in Hw. by injection Hw as <-.
Qed.

Lemma opt_test_false {A} (f : A → bool) o x :
  opt_test f o = false → o = Some x → f x = false.
Proof. intros H ->. done. Qed.

Lemma post_init_wf e e' : EventEnvelope_post_init e = inr e' → envelope_wf e'.
Proof.
  unfold EventEnvelope_post_init, require_aware_datetime. intros H. py_inv.
  bool_props. constructor; simpl; try done; eauto using freeze_mapping_frozen.
  - intros r Hr. rewrite Hr in *. by py_inv.
  - intros p Hp. eapply opt_test_false in Hp; [|done]. simpl in Hp. bool_props. lia.
  - intros p Hp. eapply opt_test_false in Hp; [|done]. simpl in Hp. by bool_props.
  - intros k Hk. eapply opt_test_false in Hk; [|done]. by apply PyStr.is_empty_false.
Qed.

(** The constructor only replaces the two mappings by their snapshots. *)
Lemma post_init_inv e e' :
  EventEnvelope_post_init e = inr e' →
  ∃ p m, freeze_json_mapping (payload e) = inr p ∧
         freeze_json_mapping (metadata e) = inr m ∧ e' = set_payload_metadata e p m.
Proof. unfold EventEnvelope_post_init. intros H. py_inv. eauto. Qed.

(** A constructed envelope passes its own constructor unchanged: decoding a
    stored event and rebuilding it is the identity. *)
Lemma post_init_idem e : envelope_wf e → EventEnvelope_post_init e = inr e.
Proof.
  intros [Hs Ht Ha He Ho Hr Hseq Hpos Hprev Hk Hp Hm].
  unfold EventEnvelope_post_init, require_aware_datetime.
  rewrite (proj2 (Z.ltb_ge _ _)) by lia. simpl. rewrite Ht, Ha, He, Ho. simpl.
  assert (match recorded_at e with
          | Some r => reject_if (Dt.naive r) (ValueError "must be timezone-aware")
          | None => inr tt end = inr tt) as ->.
  { destruct (recorded_at e); [|done]. by rewrite Hr. }
  simpl. rewrite (proj2 (Z.ltb_ge _ _)) by lia. simpl.
  assert (opt_test (λ p, p <? 1) (global_position e) = false) as ->.
  { destruct (global_position e) as [p|]; [|done]. simpl. apply Z.ltb_ge. by apply Hpos. }
  assert (opt_test (λ p, p <? 0) (previous_aggregate_sequence e) = false) as ->.
  { destruct (previous_aggregate_sequence e) as [p|]; [|done]. simpl.
    apply Z.ltb_ge. by apply Hprev. }
  assert (opt_test PyStr.is_empty (idempotency_key e) = false) as ->.
  { destruct (idempotency_key e) as [k|]; [|done]. simpl.
    apply PyStr.is_empty_false. by apply Hk. }
  simpl. rewrite !freeze_mapping_id by done. simpl. by destruct e.
Qed.

(** Every check of the constructor raises a [ValueError]. *)
Lemma freeze_json_error v e : freeze_json v = inl e → except_ValueError e = true.
Proof.
  induction v as [| | | | |l IH|l IH|d IH|d IH| |] using pyval_deep_ind; intros H; try done.
  - simpl in H. destruct (float_isfinite f); [done|]. by injection H as <-.
  - rewrite (proj1 (freeze_json_seq l)) in H. apply rbind_err in H as [H|(? & ? & ?)]; [|done].
    induction IH as [|x l Hx _ IHl]; simpl in H; [done|].
    apply rbind_err in H as [H|(a & _ & H)]; [auto|].
    apply rbind_err in H as [H|(? & _ & H)]; [auto|done].
  - rewrite (proj2 (freeze_json_seq l)) in H. apply rbind_err in H as [H|(? & ? & ?)]; [|done].
    induction IH as [|x l Hx _ IHl]; simpl in H; [done|].
    apply rbind_err in H as [H|(a & _ & H)]; [auto|].
    apply rbind_err in H as [H|(? & _ & H)]; [auto|done].
  - rewrite (proj1 (freeze_json_dict d)) in H. apply rbind_err in H as [H|(? & ? & ?)]; [|done].
    induction IH as [|[[k|n] x] d Hx _ IHl]; simpl in H; [done| |by injection H as <-].
    apply rbind_err in H as [H|(a & _ & H)]; [auto|].
    apply rbind_err in H as [H|(? & _ & H)]; [auto|done].
  - rewrite (proj2 (freeze_json_dict d)) in H. apply rbind_err in H as [H|(? & ? & ?)]; [|done].
    induction IH as [|[[k|n] x] d Hx _ IHl]; simpl in H; [done| |by injection H as <-].
    apply rbind_err in H as [H|(a & _ & H)]; [auto|].
    apply rbind_err in H as [H|(? & _ & H)]; [auto|done].
  - by injection H as <-.
  - by injection H as <-.
Qed.

Lemma freeze_mapping_error d e : freeze_json_mapping d = inl e → except_ValueError e = true.
Proof.
  intros H. apply (freeze_json_error (PDict d)).
  by rewrite (proj1 (freeze_json_dict d)), H.
Qed.

(** Which raw envelopes the constructor accepts. *)
Definition envelope_acceptable (e : EventEnvelope) : Prop :=
  ∃ p m, freeze_json_mapping (payload e) = inr p ∧ freeze_json_mapping (metadata e) = inr m ∧
         envelope_wf (set_payload_metadata e p m).

(** The envelope constructor accepts a raw envelope exactly when every
    field check holds and both mappings are JSON objects; the result is
    well-formed, differs from the input only in that both mappings are
    deeply frozen snapshots, and is accepted unchanged when constructed
    again; a rejection is always a [ValueError]. *)
Theorem envelope_constructor e :
  (∀ e', EventEnvelope_post_init e = inr e' →
     envelope_wf e' ∧ EventEnvelope_post_init e' = inr e' ∧
     ∃ p m, freeze_json_mapping (payload e) = inr p ∧
            freeze_json_mapping (metadata e) = inr m ∧ e' = set_payload_metadata e p m) ∧
  ((∃ e', EventEnvelope_post_init e = inr e') ↔ envelope_acceptable e) ∧
  (∀ x, EventEnvelope_post_init e = inl x → except_ValueError x = true).
Proof.
  split; [|split].
  - intros e' H. pose proof (post_init_wf _ _ H) as Hwf.
    split; [done|]. split; [by apply post_init_idem|]. by apply post_init_inv.
  - split.
    + intros [e' H]. pose proof (post_init_wf _ _ H) as Hwf.
      apply post_init_inv in H as (p & m & Hp & Hm & ->). by exists p, m.
    + intros (p & m & Hp & Hm & Hwf). exists (set_payload_metadata e p m).
      apply post_init_idem in Hwf. revert Hwf. unfold EventEnvelope_post_init.
      cbn -[freeze_json_mapping]. rewrite Hp, Hm.
      rewrite !freeze_mapping_id by eauto using freeze_mapping_frozen. done.
  - intros x. unfold EventEnvelope_post_init, require_aware_datetime.
    repeat (intros H; apply rbind_err in H as [H|(? & _ & H)];
      [first [apply reject_if_err in H as [_ ->]; done
             |by apply freeze_mapping_error in H
             |destruct (recorded_at e); [apply reject_if_err in H as [_ ->]; done|done]]
      |revert H]). done.
Qed.
