(* ===== verification/Identity.v ===== *)
(** * Identity, tenancy and authorization

    Models [identity/models.py], [identity/authorization.py] and
    [tenancy/__init__.py]: normalized identifiers, tenant contexts, role
    bindings and their lifetime, principals, and the deny-by-default
    authorization decision. *)

From stdpp Require Import base gmap sets list strings pretty.
From Stdlib Require Import ZArith Lia Sorted.
From S2P Require Import Prelude PyLib Json Events.

Local Open Scope Z_scope.

(** ** Identifiers *)

Definition _validate_identifier (value : string) (name : string) : result unit :=
  reject_if (PyStr.is_empty value || negb (PyStr.str_eqb value (PyStr.strip value))
             || (128 <? PyStr.len value))
    (ValueError (name +:+ " must be a non-empty normalized identifier")).

Record TenantId : Type := mkTenantId { tid_value : string }.
Record UserId : Type := mkUserId { uid_value : string }.
Record ServiceIdentity : Type := mkServiceIdentity { sid_value : string }.

#[export] Instance TenantId_eq_dec : EqDecision TenantId.
Proof. solve_decision. Defined.
#[export] Instance UserId_eq_dec : EqDecision UserId.
Proof. solve_decision. Defined.
#[export] Instance ServiceIdentity_eq_dec : EqDecision ServiceIdentity.
Proof. solve_decision. Defined.

Definition TenantId_new (value : string) : result TenantId :=
  let? _ := _validate_identifier value "tenant_id" in inr (mkTenantId value).
Definition UserId_new (value : string) : result UserId :=
  let? _ := _validate_identifier value "user_id" in inr (mkUserId value).
Definition ServiceIdentity_new (value : string) : result ServiceIdentity :=
  let? _ := _validate_identifier value "service_identity" in
  inr (mkServiceIdentity value).

Definition PLATFORM_TENANT_ID : TenantId := mkTenantId "platform".

(** [TenantContext]: the trusted tenant an operation runs for. *)
Record TenantContext : Type := mkTenantContext { ctx_tenant_id : TenantId }.

(** [str(context.tenant_id)] *)
Definition ctx_str (c : TenantContext) : string := tid_value (ctx_tenant_id c).

(** The invariant of a constructed [TenantId]. *)
Definition tenant_id_ok (t : TenantId) : Prop :=
  tid_value t ≠ ""%string ∧ PyStr.strip (tid_value t) = tid_value t ∧
  PyStr.len (tid_value t) ≤ 128.

Lemma TenantId_new_ok v t : TenantId_new v = inr t → tid_value t = v ∧ tenant_id_ok t.
Proof.
  unfold TenantId_new, _validate_identifier. intros H. py_inv. bool_props.
  unfold PyStr.str_eqb in *. bool_props. split; [done|].
  by split; [apply PyStr.is_empty_false|].
Qed.

Lemma TenantId_new_raises v e : TenantId_new v = inl e → except_ValueError e = true.
Proof.
  unfold TenantId_new, _validate_identifier, reject_if. intros Hv.
  destruct (_ || _) in Hv; [by injection Hv as <-|done].
Qed.

(** A normalized identifier is never blank, so the envelopes of a trusted
    tenant always pass the tenant check of the event constructor. *)
Lemma tenant_id_not_blank t : tenant_id_ok t → blank (tid_value t) = false.
Proof.
  intros (Hne & Hs & _). unfold blank. rewrite Hs. by apply PyStr.is_empty_false.
Qed.

(** ** Tenants *)

Record Tenant : Type := mkTenant {
  tn_tenant_id : TenantId;
  tn_display_name : string;
  tn_enabled : bool;
}.

Definition Tenant_post_init (t : Tenant) : result Tenant :=
  raise! ValueError "display_name is required" when! blank (tn_display_name t) ;;
  inr t.

(** [InMemoryTenantRepository]: the tenants by identifier. *)
Definition tenant_lookup (id : TenantId) (l : list (TenantId * Tenant)) : option Tenant :=
  snd <$> find (λ kv, bool_decide (kv.1 = id)) l.

Definition InMemoryTenantRepository_init (tenants : list Tenant)
    : result (list (TenantId * Tenant)) :=
  foldl (λ acc t,
    let? l := acc in
    match tenant_lookup (tn_tenant_id t) l with
    | Some _ => inl (ValueError "duplicate tenant records are not allowed")
    | None => inr (l ++ [(tn_tenant_id t, t)])
    end) (inr []) tenants.

Definition InMemoryTenantRepository_get (l : list (TenantId * Tenant))
    (context : TenantContext) : option Tenant :=
  tenant_lookup (ctx_tenant_id context) l.

(** ** Roles and permissions *)

Inductive PrincipalKind : Type := PK_USER | PK_SERVICE.

Inductive Role : Type :=
| VIEWER | INVESTIGATOR | APPROVER | OPERATOR | TENANT_ADMIN | PLATFORM_ADMIN.

#[export] Instance Role_eq_dec : EqDecision Role.
Proof. solve_decision. Defined.

#[export] Instance Role_constant : StringConstant Role := {
  sc_value r := match r with
    | VIEWER => "viewer" | INVESTIGATOR => "investigator" | APPROVER => "approver"
    | OPERATOR => "operator" | TENANT_ADMIN => "tenant_admin"
    | PLATFORM_ADMIN => "platform_admin"
    end%string;
  sc_members := [VIEWER; INVESTIGATOR; APPROVER; OPERATOR; TENANT_ADMIN; PLATFORM_ADMIN];
}.

#[export] Instance Role_ok : StringConstantOk Role.
Proof. solve_string_constant. Qed.

Inductive Permission : Type :=
| TENANT_READ | RESOURCE_READ | INVESTIGATION_CREATE | APPROVAL_DECIDE
| OPERATION_PROPOSE | POLICY_READ | POLICY_MANAGE | QUOTA_MANAGE | AUDIT_READ
| IDENTITY_MANAGE | ROLE_BINDING_MANAGE | SECRET_REFERENCE_MANAGE
| PLATFORM_TENANT_CREATE | PLATFORM_AUDIT_READ | QUEUE_READ | WORK_CANCEL
| DLQ_REQUEUE | WORK_RECONCILE | MODEL_READ | MODEL_DIAGNOSTIC.

#[export] Instance Permission_eq_dec : EqDecision Permission.
Proof. solve_decision. Defined.

#[export] Instance Permission_constant : StringConstant Permission := {
  sc_value p := match p with
    | TENANT_READ => "tenant:read" | RESOURCE_READ => "resource:read"
    | INVESTIGATION_CREATE => "investigation:create"
    | APPROVAL_DECIDE => "approval:decide" | OPERATION_PROPOSE => "operation:propose"
    | POLICY_READ => "policy:read" | POLICY_MANAGE => "policy:manage"
    | QUOTA_MANAGE => "quota:manage" | AUDIT_READ => "audit:read"
    | IDENTITY_MANAGE => "identity:manage"
    | ROLE_BINDING_MANAGE => "role_binding:manage"
    | SECRET_REFERENCE_MANAGE => "secret_reference:manage"
    | PLATFORM_TENANT_CREATE => "platform:tenant:create"
    | PLATFORM_AUDIT_READ => "platform:audit:read" | QUEUE_READ => "queue:read"
    | WORK_CANCEL => "work:cancel" | DLQ_REQUEUE => "dlq:requeue"
    | WORK_RECONCILE => "work:reconcile" | MODEL_READ => "model:read"
    | MODEL_DIAGNOSTIC => "model:diagnostic"
    end%string;
  sc_members :=
    [TENANT_READ; RESOURCE_READ; INVESTIGATION_CREATE; APPROVAL_DECIDE;
     OPERATION_PROPOSE; POLICY_READ; POLICY_MANAGE; QUOTA_MANAGE; AUDIT_READ;
     IDENTITY_MANAGE; ROLE_BINDING_MANAGE; SECRET_REFERENCE_MANAGE;
     PLATFORM_TENANT_CREATE; PLATFORM_AUDIT_READ; QUEUE_READ; WORK_CANCEL;
     DLQ_REQUEUE; WORK_RECONCILE; MODEL_READ; MODEL_DIAGNOSTIC];
}.

#[export] Instance Permission_ok : StringConstantOk Permission.
Proof. solve_string_constant. Qed.

Definition ROLE_PERMISSIONS (r : Role) : list Permission :=
  match r with
  | VIEWER => [TENANT_READ; RESOURCE_READ; POLICY_READ; MODEL_READ]
  | INVESTIGATOR =>
      [TENANT_READ; RESOURCE_READ; POLICY_READ; INVESTIGATION_CREATE; MODEL_READ;
       MODEL_DIAGNOSTIC]
  | APPROVER => [TENANT_READ; RESOURCE_READ; POLICY_READ; APPROVAL_DECIDE; MODEL_READ]
  | OPERATOR =>
      [TENANT_READ; RESOURCE_READ; POLICY_READ; OPERATION_PROPOSE; QUEUE_READ;
       WORK_CANCEL; MODEL_READ; MODEL_DIAGNOSTIC]
  | TENANT_ADMIN =>
      [TENANT_READ; RESOURCE_READ; POLICY_READ; POLICY_MANAGE; QUOTA_MANAGE;
       AUDIT_READ; IDENTITY_MANAGE; ROLE_BINDING_MANAGE; SECRET_REFERENCE_MANAGE;
       QUEUE_READ; WORK_CANCEL; DLQ_REQUEUE; WORK_RECONCILE; MODEL_READ;
       MODEL_DIAGNOSTIC]
  | PLATFORM_ADMIN =>
      [TENANT_READ; PLATFORM_TENANT_CREATE; PLATFORM_AUDIT_READ; WORK_RECONCILE]
  end.

(** ** Bindings and principals *)

Record RoleBinding : Type := mkRoleBinding {
  rb_tenant_id : TenantId;
  rb_role : Role;
  rb_assigned_by : UserId + ServiceIdentity;
  rb_assigned_at : Dt.datetime;
  rb_expires_at : option Dt.datetime;
  rb_revoked_at : option Dt.datetime;
}.

Definition RoleBinding_post_init (b : RoleBinding) : result RoleBinding :=
  let? _ := require_aware_datetime (rb_assigned_at b) in
  raise! ValueError "platform_admin bindings require the platform tenant"
    when! bool_decide (rb_role b = PLATFORM_ADMIN)
          && negb (bool_decide (rb_tenant_id b = PLATFORM_TENANT_ID)) ;;
  let? _ := match rb_expires_at b with
            | Some e =>
                let? _ := require_aware_datetime e in
                let? early := Dt.le e (rb_assigned_at b) in
                reject_if early (ValueError "expires_at must follow assigned_at")
            | None => inr tt
            end in
  let? _ := match rb_revoked_at b with
            | Some r => require_aware_datetime r
            | None => inr tt
            end in
  inr b.

(** [a < b] on datetimes. *)
Definition dt_lt (a b : Dt.datetime) : result bool :=
  let? r := Dt.le b a in inr (negb r).

Definition is_active (b : RoleBinding) (at_ : Dt.datetime) : result bool :=
  let? _ := require_aware_datetime at_ in
  let? c1 := Dt.le (rb_assigned_at b) at_ in
  if negb c1 then inr false else
  let? c2 := match rb_expires_at b with None => inr true | Some e => dt_lt at_ e end in
  if negb c2 then inr false else
  match rb_revoked_at b with None => inr true | Some r => dt_lt at_ r end.

Record Principal : Type := mkPrincipal {
  pr_subject : string;
  pr_issuer : string;
  pr_tenant_id : TenantId;
  pr_kind : PrincipalKind;
  pr_role_bindings : list RoleBinding;
  pr_user_id : option UserId;
  pr_service_identity : option ServiceIdentity;
}.

Definition is_some {A} (o : option A) : bool :=
  match o with Some _ => true | None => false end.

Definition Principal_post_init (p : Principal) : result Principal :=
  let? _ := _validate_identifier (pr_subject p) "subject" in
  raise! ValueError "issuer is required" when! PyStr.is_empty (pr_issuer p) ;;
  let has_user := is_some (pr_user_id p) in
  let has_service := is_some (pr_service_identity p) in
  raise! ValueError "principal must have exactly one internal identity"
    when! Bool.eqb has_user has_service ;;
  raise! ValueError "user principal requires user_id"
    when! match pr_kind p with PK_USER => negb has_user | PK_SERVICE => false end ;;
  raise! ValueError "service principal requires service_identity"
    when! match pr_kind p with PK_SERVICE => negb has_service | PK_USER => false end ;;
  raise! ValueError "role bindings must match the principal tenant"
    when! existsb (λ b, negb (bool_decide (rb_tenant_id b = pr_tenant_id p)))
            (pr_role_bindings p) ;;
  inr p.

(** ** Authorization *)

Record AuthorizationDecision : Type := mkDecision {
  ad_allowed : bool;
  ad_reason : string;
  ad_tenant_id : TenantId;
  ad_permission : string;
  ad_active_roles : list Role;
}.

(** [sorted({...}, key=lambda role: role.value)] *)
Definition role_leb (a b : Role) : bool := PyStr.str_leb (sc_value a) (sc_value b).

Fixpoint active_roles_of (tenant : TenantId) (at_ : Dt.datetime) (bs : list RoleBinding)
    : result (list Role) :=
  match bs with
  | [] => inr []
  | b :: bs' =>
      let? keep := if bool_decide (rb_tenant_id b = tenant) then is_active b at_
                   else inr false in
      let? rest := active_roles_of tenant at_ bs' in
      inr (if keep then rb_role b :: rest else rest)
  end.

Definition granted (permission : Permission) (roles : list Role) : bool :=
  existsb (λ r, bool_decide (permission ∈ ROLE_PERMISSIONS r)) roles.

(** [AuthorizationService.decide]; [inr s] is a permission given as a string
    that is not a [Permission]. *)
Definition decide_authorization (principal : Principal) (tenant : TenantId)
    (permission : Permission + string) (at_ : Dt.datetime)
    : result AuthorizationDecision :=
  let permission_name := match permission with inl p => sc_value p | inr s => s end in
  if negb (bool_decide (pr_tenant_id principal = tenant)) then
    inr (mkDecision false "cross_tenant_access_denied" tenant permission_name [])
  else match permission with
  | inr _ => inr (mkDecision false "unknown_permission" tenant permission_name [])
  | inl p =>
      let? active := active_roles_of tenant at_ (pr_role_bindings principal) in
      let active_roles := py_sorted role_leb (remove_dups active) in
      let ok := granted p active_roles in
      inr (mkDecision ok
             (if ok then "role_permission_granted" else "permission_not_granted")
             tenant (sc_value p) active_roles)
  end.

(** [Principal.actor_id]; identities have no [__bool__] and are always true. *)
Definition principal_actor_id (p : Principal) : result string :=
  match pr_user_id p, pr_service_identity p with
  | Some u, _ => inr (uid_value u)
  | None, Some s => inr (sid_value s)
  | None, None => inl (RuntimeError "principal has no internal identity")
  end.

(** ** What the decision means *)

(** A binding is in force at instant [us]. *)
Definition in_force (b : RoleBinding) (us : Z) : Prop :=
  Dt.us (rb_assigned_at b) ≤ us ∧
  (∀ e, rb_expires_at b = Some e → us < Dt.us e) ∧
  (∀ r, rb_revoked_at b = Some r → us < Dt.us r).

Definition binding_ok (b : RoleBinding) : Prop := RoleBinding_post_init b = inr b.

Lemma binding_ok_aware b :
  binding_ok b →
  Dt.naive (rb_assigned_at b) = false ∧
  (∀ e, rb_expires_at b = Some e → Dt.naive e = false) ∧
  (∀ r, rb_revoked_at b = Some r → Dt.naive r = false) ∧
  (rb_role b = PLATFORM_ADMIN → rb_tenant_id b = PLATFORM_TENANT_ID).
Proof.
  unfold binding_ok, RoleBinding_post_init, require_aware_datetime. intros H.
  destruct (rb_expires_at b) as [e|], (rb_revoked_at b) as [r|]; py_inv;
    (split; [done|]); (split; [naive_solver|]); (split; [naive_solver|]);
    intros Hrole; rewrite Hrole in *; apply dec_stable; intros Hne;
    rewrite (bool_decide_true (PLATFORM_ADMIN = PLATFORM_ADMIN)) in * by done;
    rewrite (bool_decide_false (rb_tenant_id b = PLATFORM_TENANT_ID)) in * by done;
    done.
Qed.

Lemma dt_lt_aware a b : dt_lt (Dt.Aware a) (Dt.Aware b) = inr (a <? b).
Proof. unfold dt_lt. simpl. by rewrite Z.ltb_antisym. Qed.

(** On a constructed binding the lifetime test never raises. *)
Lemma is_active_spec b us :
  binding_ok b →
  ∃ r, is_active b (Dt.Aware us) = inr r ∧ (r = true ↔ in_force b us).
Proof.
  intros Hok. destruct (binding_ok_aware b Hok) as (Ha & He & Hr & _).
  unfold is_active, in_force. simpl.
  destruct (rb_assigned_at b) as [a|]; [|done]. simpl.
  destruct (Z.leb_spec a us) as [Hle|Hgt]; simpl.
  2:{ exists false. split; [done|]. split; [done|]. lia. }
  assert (Hexp : ∃ c, match rb_expires_at b with
      | None => inr true | Some e => dt_lt (Dt.Aware us) e end = inr c ∧
      (c = true ↔ ∀ e, rb_expires_at b = Some e → us < Dt.us e)).
  { destruct (rb_expires_at b) as [e|]; [|exists true; naive_solver].
    specialize (He e eq_refl). destruct e as [e|]; [|done].
    rewrite dt_lt_aware. exists (us <? e). split; [done|]. rewrite Z.ltb_lt.
    naive_solver. }
  assert (Hrev : ∃ c, match rb_revoked_at b with
      | None => inr true | Some r => dt_lt (Dt.Aware us) r end = inr c ∧
      (c = true ↔ ∀ r, rb_revoked_at b = Some r → us < Dt.us r)).
  { destruct (rb_revoked_at b) as [e|]; [|exists true; naive_solver].
    specialize (Hr e eq_refl). destruct e as [e|]; [|done].
    rewrite dt_lt_aware. exists (us <? e). split; [done|]. rewrite Z.ltb_lt.
    naive_solver. }
  destruct Hexp as (c & -> & Hc), Hrev as (c' & -> & Hc'). simpl.
  destruct c; simpl; [exists c'|exists false]; naive_solver.
Qed.

Lemma active_roles_spec tenant us bs :
  Forall binding_ok bs →
  ∃ roles, active_roles_of tenant (Dt.Aware us) bs = inr roles ∧
    ∀ r, r ∈ roles ↔
      ∃ b, b ∈ bs ∧ rb_tenant_id b = tenant ∧ in_force b us ∧ rb_role b = r.
Proof.
  induction 1 as [|b bs Hb _ (roles & Hroles & IH)]; simpl.
  - exists []. split; [done|]. set_solver.
  - destruct (is_active_spec b us Hb) as (c & Hc & Hiff). rewrite Hroles.
    case_bool_decide as Ht; [rewrite Hc|]; simpl; eexists; (split; [done|]); intros r.
    + destruct c; [rewrite elem_of_cons|]; rewrite IH; set_solver.
    + rewrite IH. set_solver.
Qed.

Lemma granted_spec p roles : granted p roles = true ↔ ∃ r, r ∈ roles ∧ p ∈ ROLE_PERMISSIONS r.
Proof.
  unfold granted. rewrite existsb_exists. setoid_rewrite <- list_elem_of_In.
  setoid_rewrite bool_decide_eq_true. done.
Qed.

(** The permissions that only the platform tenant can hold. *)
Lemma platform_permission_role p r :
  p ∈ [PLATFORM_TENANT_CREATE; PLATFORM_AUDIT_READ] →
  p ∈ ROLE_PERMISSIONS r → r = PLATFORM_ADMIN.
Proof. destruct r; [set_solver..|done]. Qed.

Lemma decide_allowed_iff principal tenant p us :
  Forall binding_ok (pr_role_bindings principal) →
  ∃ d, decide_authorization principal tenant (inl p) (Dt.Aware us) = inr d ∧
    ad_tenant_id d = tenant ∧
    (ad_allowed d = true ↔
     pr_tenant_id principal = tenant ∧
     ∃ b, b ∈ pr_role_bindings principal ∧ rb_tenant_id b = tenant ∧
          in_force b us ∧ p ∈ ROLE_PERMISSIONS (rb_role b)).
Proof.
  intros Hok. unfold decide_authorization.
  case_bool_decide as Ht; simpl; [|eexists; split; [done|]; naive_solver].
  destruct (active_roles_spec tenant us _ Hok) as (roles & -> & Hroles). simpl.
  eexists. split; [done|]. split; [done|]. simpl. rewrite granted_spec.
  setoid_rewrite py_sorted_elem. setoid_rewrite elem_of_remove_dups.
  setoid_rewrite Hroles. naive_solver.
Qed.

(** An instant without a time zone is never allowed: comparing it raises. *)
Lemma decide_naive principal tenant p us d :
  Forall binding_ok (pr_role_bindings principal) →
  decide_authorization principal tenant (inl p) (Dt.Naive us) = inr d → ad_allowed d = false.
Proof.
  intros Hok. unfold decide_authorization. case_bool_decide; simpl; [|by intros [= <-]].
  assert (Hroles : ∀ roles, active_roles_of tenant (Dt.Naive us) (pr_role_bindings principal) = inr roles →
    roles = []).
  { induction Hok as [|b bs Hb _ IH]; intros roles; simpl; [by intros [= <-]|].
    destruct (binding_ok_aware b Hb) as (Ha & _). case_bool_decide.
    - unfold is_active, Dt.le. destruct (rb_assigned_at b); simpl; [done|done].
    - simpl. destruct (active_roles_of _ _ bs); [done|]. intros [= <-]. by apply IH. }
  destruct (active_roles_of _ _ _) as [e|roles] eqn:Hr; [done|]. rewrite (Hroles roles) by done.
  by intros [= <-].
Qed.

(** An allowed decision names a binding in force. *)
Lemma allowed_binding principal tenant p at_ d :
  Forall binding_ok (pr_role_bindings principal) →
  decide_authorization principal tenant (inl p) at_ = inr d → ad_allowed d = true →
  pr_tenant_id principal = tenant ∧
  ∃ b, b ∈ pr_role_bindings principal ∧ rb_tenant_id b = tenant ∧
       in_force b (Dt.us at_) ∧ p ∈ ROLE_PERMISSIONS (rb_role b).
Proof.
  intros Hok Hd Hall. destruct at_ as [us|us].
  - destruct (decide_allowed_iff principal tenant p us Hok) as (d' & Hd' & _ & Hiff).
    rewrite Hd in Hd'. injection Hd' as <-. by apply Hiff.
  - apply decide_naive in Hd; [congruence|done].
Qed.

(** The principal belongs to the tenant and one of its bindings in force
    grants the permission. *)
Definition entitled (principal : Principal) (context : TenantContext) (permission : Permission)
    (at_ : Dt.datetime) : Prop :=
  pr_tenant_id principal = ctx_tenant_id context ∧
  ∃ b, b ∈ pr_role_bindings principal ∧ rb_tenant_id b = ctx_tenant_id context ∧
       in_force b (Dt.us at_) ∧ permission ∈ ROLE_PERMISSIONS (rb_role b).

Lemma decide_entitled principal context p at_ d :
  Forall binding_ok (pr_role_bindings principal) →
  decide_authorization principal (ctx_tenant_id context) (inl p) at_ = inr d → ad_allowed d = true →
  entitled principal context p at_.
Proof. apply allowed_binding. Qed.

(** At an instant with a time zone the entitled are allowed. *)
Lemma entitled_decide principal context p us :
  Forall binding_ok (pr_role_bindings principal) → entitled principal context p (Dt.Aware us) →
  ∃ d, decide_authorization principal (ctx_tenant_id context) (inl p) (Dt.Aware us) = inr d ∧
       ad_allowed d = true.
Proof.
  intros Hok Hent.
  destruct (decide_allowed_iff principal (ctx_tenant_id context) p us Hok) as (d & Hd & _ & Hiff).
  exists d. split; [done|]. by apply Hiff.
Qed.

(** C12. Authorization is exact: for a principal whose role bindings were
    constructed normally the decision never raises, and it allows a known
    permission exactly when the request is in the principal's own tenant and
    some binding of that tenant, in force at that instant, has a role that
    grants it. *)
Theorem authorization_exact principal tenant p us :
  Forall binding_ok (pr_role_bindings principal) →
  ∃ d, decide_authorization principal tenant (inl p) (Dt.Aware us) = inr d ∧
    ad_tenant_id d = tenant ∧
    (ad_allowed d = true ↔
     pr_tenant_id principal = tenant ∧
     ∃ b, b ∈ pr_role_bindings principal ∧ rb_tenant_id b = tenant ∧
          in_force b us ∧ p ∈ ROLE_PERMISSIONS (rb_role b)).
Proof. apply decide_allowed_iff. Qed.

(** The platform permissions are granted in the platform tenant only:
    whatever the bindings, a permission to create tenants or to read the
    platform audit log is denied for every other tenant. *)
Theorem platform_permissions_contained principal tenant p us :
  Forall binding_ok (pr_role_bindings principal) →
  p ∈ [PLATFORM_TENANT_CREATE; PLATFORM_AUDIT_READ] → tenant ≠ PLATFORM_TENANT_ID →
  ∃ d, decide_authorization principal tenant (inl p) (Dt.Aware us) = inr d ∧
       ad_allowed d = false.
Proof.
  intros Hok Hp Hne.
  destruct (decide_allowed_iff principal tenant p us Hok) as (d & Hd & _ & Hiff).
  exists d. split; [done|]. apply not_true_iff_false. intros Htrue.
  apply Hiff in Htrue as (_ & b & Hb & Ht & _ & Hperm).
  apply (platform_permission_role _ _ Hp) in Hperm.
  eapply Forall_forall in Hok; [|exact Hb].
  destruct (binding_ok_aware b Hok) as (_ & _ & _ & Hplat). apply Hne. rewrite <- Ht. auto.
Qed.

(** An operator of tenant acme, and a platform administrator. *)
Definition sample_binding (tenant : string) (role : Role) : RoleBinding :=
  mkRoleBinding (mkTenantId tenant) role (inl (mkUserId "root")) (Dt.Aware 10)
    (Some (Dt.Aware 100)) None.

Definition sample_principal (tenant : string) (role : Role) : Principal :=
  mkPrincipal "sub" "issuer" (mkTenantId tenant) PK_USER [sample_binding tenant role]
    (Some (mkUserId "u1")) None.

Lemma authorization_exact_witness :
  ∃ d, decide_authorization (sample_principal "acme" TENANT_ADMIN) (mkTenantId "acme")
         (inl WORK_CANCEL) (Dt.Aware 50) = inr d ∧ ad_allowed d = true.
Proof.
  destruct (authorization_exact (sample_principal "acme" TENANT_ADMIN) (mkTenantId "acme")
              WORK_CANCEL 50) as (d & Hd & _ & Hiff).
  - by repeat constructor.
  - exists d. split; [exact Hd|]. apply Hiff. split; [done|].
    exists (sample_binding "acme" TENANT_ADMIN). split; [left|]. split; [done|].
    split; [|apply (bool_decide_unpack _); vm_compute; done].
    split; [simpl; lia|]. split; intros e [= <-]. simpl. lia.
Defined.

Lemma platform_permissions_contained_witness :
  ∃ d, decide_authorization (sample_principal "acme" TENANT_ADMIN) (mkTenantId "acme")
         (inl PLATFORM_TENANT_CREATE) (Dt.Aware 50) = inr d ∧ ad_allowed d = false.
Proof.
  apply (platform_permissions_contained (sample_principal "acme" TENANT_ADMIN)
           (mkTenantId "acme") PLATFORM_TENANT_CREATE 50).
  - by repeat constructor.
  - left.
  - discriminate.
Defined.
