(* ===== verification/Work.v ===== *)
(** * Distributed work contracts

    Models [domain/work.py]: work requests, leases and transitions with the
    checks of their constructors, [WorkTransition.to_event], and the
    [next_status] state machine with the history properties it enforces. *)

From stdpp Require Import base gmap sets list strings pretty.
From Stdlib Require Import ZArith Lia.
From S2P Require Import Prelude PyLib Json Events.

Local Open Scope Z_scope.

Inductive WorkStatus : Type :=
| REQUESTED | PUBLISHED | CLAIMED | RUNNING | RETRY_WAIT
| SUCCEEDED | FAILED | CANCELLED | DEAD_LETTER.

#[export] Instance WorkStatus_eq_dec : EqDecision WorkStatus.
Proof. solve_decision. Defined.

#[export] Instance WorkStatus_constant : StringConstant WorkStatus := {
  sc_value s := match s with
    | REQUESTED => "requested" | PUBLISHED => "published" | CLAIMED => "claimed"
    | RUNNING => "running" | RETRY_WAIT => "retry_wait" | SUCCEEDED => "succeeded"
    | FAILED => "failed" | CANCELLED => "cancelled" | DEAD_LETTER => "dead_letter"
    end%string;
  sc_members := [REQUESTED; PUBLISHED; CLAIMED; RUNNING; RETRY_WAIT;
                 SUCCEEDED; FAILED; CANCELLED; DEAD_LETTER];
}.

#[export] Instance WorkStatus_ok : StringConstantOk WorkStatus.
Proof. solve_string_constant. Qed.

#[export] Instance FailureClass_constant : StringConstant FailureClass := {
  sc_value c := match c with
    | RETRYABLE => "retryable" | PERMANENT => "permanent"
    | FC_CANCELLED => "cancelled" | TIMEOUT => "timeout" | WORKER_BUG => "worker_bug"
    end%string;
  sc_members := [RETRYABLE; PERMANENT; FC_CANCELLED; TIMEOUT; WORKER_BUG];
}.

#[export] Instance FailureClass_ok : StringConstantOk FailureClass.
Proof. solve_string_constant. Qed.

Definition TERMINAL_WORK_STATUSES : list WorkStatus :=
  [SUCCEEDED; FAILED; CANCELLED; DEAD_LETTER].

Definition is_terminal (s : WorkStatus) : bool :=
  bool_decide (s ∈ TERMINAL_WORK_STATUSES).

(** ** Requests, leases, transitions *)

Record WorkRequest : Type := mkWorkRequest {
  wr_work_id : uuid;
  wr_tenant_id : string;
  wr_work_kind : string;
  wr_idempotency_key : string;
  wr_correlation_id : uuid;
  wr_requested_at : Dt.datetime;
  wr_payload : pydict;
  wr_causation_id : option uuid;
  wr_max_attempts : Z;
  wr_timeout_seconds : Z;
  wr_schema_version : Z;
}.

Definition WorkRequest_post_init (r : WorkRequest) : result WorkRequest :=
  raise! ValueError "tenant, work kind, and idempotency key are required"
    when! PyStr.is_empty (wr_tenant_id r) || PyStr.is_empty (wr_work_kind r)
          || PyStr.is_empty (wr_idempotency_key r) ;;
  raise! ValueError "requested_at must be timezone-aware"
    when! Dt.naive (wr_requested_at r) ;;
  raise! ValueError "max_attempts must be between 1 and 100"
    when! negb ((1 <=? wr_max_attempts r) && (wr_max_attempts r <=? 100)) ;;
  raise! ValueError "timeout_seconds must be between 1 and 86400"
    when! negb ((1 <=? wr_timeout_seconds r) && (wr_timeout_seconds r <=? 86400)) ;;
  raise! ValueError "schema_version must be positive" when! wr_schema_version r <? 1 ;;
  let? p := freeze_json_mapping (wr_payload r) in
  inr {| wr_work_id := wr_work_id r; wr_tenant_id := wr_tenant_id r;
         wr_work_kind := wr_work_kind r; wr_idempotency_key := wr_idempotency_key r;
         wr_correlation_id := wr_correlation_id r; wr_requested_at := wr_requested_at r;
         wr_payload := p; wr_causation_id := wr_causation_id r;
         wr_max_attempts := wr_max_attempts r;
         wr_timeout_seconds := wr_timeout_seconds r;
         wr_schema_version := wr_schema_version r |}.

Record WorkLease : Type := mkWorkLease {
  wl_work_id : uuid;
  wl_tenant_id : string;
  wl_token : uuid;
  wl_generation : Z;
  wl_owner : string;
  wl_attempt : Z;
  wl_acquired_at : Dt.datetime;
  wl_heartbeat_at : Dt.datetime;
  wl_expires_at : Dt.datetime;
}.

Definition WorkLease_post_init (l : WorkLease) : result WorkLease :=
  raise! ValueError "lease tenant and owner are required"
    when! PyStr.is_empty (wl_tenant_id l) || PyStr.is_empty (wl_owner l) ;;
  raise! ValueError "lease generation and attempt must be positive"
    when! (wl_generation l <? 1) || (wl_attempt l <? 1) ;;
  raise! ValueError "lease timestamps must be timezone-aware"
    when! existsb Dt.naive [wl_acquired_at l; wl_heartbeat_at l; wl_expires_at l] ;;
  let? expired := Dt.le (wl_expires_at l) (wl_heartbeat_at l) in
  raise! ValueError "lease expiry must follow heartbeat" when! expired ;;
  inr l.

Record WorkTransition : Type := {
  wt_event_type : DomainEventType;
  wt_occurred_at : Dt.datetime;
  wt_details : pydict;
  wt_lease : option WorkLease;
}.

Definition WorkTransition_post_init (t : WorkTransition) : result WorkTransition :=
  raise! ValueError "work transition requires a work event type"
    when! negb (PyStr.starts_with "work." (event_type_value (wt_event_type t))) ;;
  raise! ValueError "transition time must be timezone-aware"
    when! Dt.naive (wt_occurred_at t) ;;
  let? d := freeze_json_mapping (wt_details t) in
  inr {| wt_event_type := wt_event_type t; wt_occurred_at := wt_occurred_at t;
         wt_details := d; wt_lease := wt_lease t |}.

(** The payload [to_event] builds: transition details overlaid with the
    request's identity and, for a leased transition, the fence. *)
Definition transition_payload (t : WorkTransition) (request : WorkRequest) : pydict :=
  let p := dict_update (wt_details t)
    [("work_id", PStr (Uuid.to_str (wr_work_id request)));
     ("work_kind", PStr (wr_work_kind request))]%string in
  match wt_lease t with
  | None => p
  | Some lease =>
      dict_update p
        [("lease_token", PStr (Uuid.to_str (wl_token lease)));
         ("lease_generation", PInt (wl_generation lease));
         ("attempt", PInt (wl_attempt lease))]%string
  end.

(** The envelope [to_event] passes to the [EventEnvelope] constructor. *)
Definition transition_envelope (t : WorkTransition) (request : WorkRequest)
    (event_id : uuid) (causation : option uuid) : EventEnvelope :=
  {| event_id := event_id;
     ev_tenant_id := wr_tenant_id request;
     aggregate_id := Uuid.to_str (wr_work_id request);
     event_type := event_type_value (wt_event_type t);
     schema_version := 1;
     occurred_at := wt_occurred_at t;
     payload := transition_payload t request;
     correlation_id := Some (wr_correlation_id request);
     causation_id := match causation with
                     | Some c => Some c
                     | None => wr_causation_id request
                     end;
     aggregate_sequence := 0;
     global_position := None;
     recorded_at := None;
     actor := None;
     identity_reference := None;
     policy_reference := None;
     audit_reference := None;
     idempotency_key :=
       Some (wr_idempotency_key request +:+ ":" +:+
             event_type_value (wt_event_type t) +:+ ":" +:+
             Uuid.to_str event_id)%string;
     trace_context := None;
     previous_aggregate_sequence := None;
     metadata := [] |}.

Definition to_event (t : WorkTransition) (request : WorkRequest)
    (event_id : uuid) (causation : option uuid) : result EventEnvelope :=
  raise! ValueError "lease does not belong to work request"
    when! match wt_lease t with
          | Some lease =>
              negb (bool_decide (wl_work_id lease = wr_work_id request))
              || negb (bool_decide (wl_tenant_id lease = wr_tenant_id request))
          | None => false
          end ;;
  EventEnvelope_post_init (transition_envelope t request event_id causation).

(** [WorkTransition(...).to_event(...)], the way the code always builds one. *)
Definition transition_event (t : WorkTransition) (request : WorkRequest)
    (event_id : uuid) (causation : option uuid) : result EventEnvelope :=
  let? t' := WorkTransition_post_init t in
  to_event t' request event_id causation.

Lemma transition_payload_frozen t r :
  frozen_dict (wt_details t) = true → frozen_dict (transition_payload t r) = true.
Proof.
  intros Hd. unfold transition_payload.
  destruct (wt_lease t); repeat apply dict_update_frozen; try done; by repeat constructor.
Qed.

(** The transition after its constructor has frozen the details. *)
Definition frozen_transition (t : WorkTransition) (d : pydict) : WorkTransition :=
  {| wt_event_type := wt_event_type t; wt_occurred_at := wt_occurred_at t;
     wt_details := d; wt_lease := wt_lease t |}.

Definition lease_matches (l : option WorkLease) (r : WorkRequest) : Prop :=
  ∀ lease, l = Some lease →
    wl_work_id lease = wr_work_id r ∧ wl_tenant_id lease = wr_tenant_id r.

(** An event built from a transition is the transition's envelope, verbatim. *)
Lemma transition_event_inv t r id c e :
  transition_event t r id c = inr e →
  ∃ d, freeze_json_mapping (wt_details t) = inr d ∧
       e = transition_envelope (frozen_transition t d) r id c ∧
       lease_matches (wt_lease t) r ∧ envelope_wf e.
Proof.
  unfold transition_event, WorkTransition_post_init, to_event. intros H.
  destruct (freeze_json_mapping (wt_details t)) as [x|d] eqn:Hd; py_inv.
  pose proof (post_init_wf _ _ H) as Hwf. exists d. split; [done|].
  split; [|split; [|done]].
  - pose proof (transition_payload_frozen (frozen_transition t d) r
                  (freeze_mapping_frozen _ _ Hd)) as Hf.
    apply post_init_inv in H as (p & m & Hp & Hm & ->).
    change (payload _) with (transition_payload (frozen_transition t d) r) in Hp.
    rewrite freeze_mapping_id in Hp by done. injection Hp as <-. by injection Hm as <-.
  - intros lease Hl. rewrite Hl in *. by bool_props.
Qed.

Lemma transition_event_ok t r id c d :
  PyStr.starts_with "work." (event_type_value (wt_event_type t)) = true →
  Dt.naive (wt_occurred_at t) = false →
  freeze_json_mapping (wt_details t) = inr d →
  lease_matches (wt_lease t) r →
  blank (wr_tenant_id r) = false →
  transition_event t r id c = inr (transition_envelope (frozen_transition t d) r id c).
Proof.
  intros Hw Ht Hd Hl Hten. unfold transition_event, WorkTransition_post_init, to_event.
  rewrite Hw, Ht, Hd. simpl.
  assert (match wt_lease t with
    | Some lease => negb (bool_decide (wl_work_id lease = wr_work_id r))
                    || negb (bool_decide (wl_tenant_id lease = wr_tenant_id r))
    | None => false end = false) as ->.
  { destruct (wt_lease t) as [l|]; [|done]. destruct (Hl l eq_refl) as [-> ->].
    by rewrite !bool_decide_true. }
  simpl. apply post_init_idem. split; simpl; try done.
  - apply Uuid.to_str_visible.
  - by destruct (wt_event_type t).
  - intros k [= <-]. by destruct (wr_idempotency_key r).
  - apply transition_payload_frozen. simpl. by eapply freeze_mapping_frozen.
Qed.

(** ** The state machine *)

Definition transitions : list ((option WorkStatus * DomainEventType) * WorkStatus) :=
  [((None, WORK_REQUESTED), REQUESTED);
   ((Some REQUESTED, WORK_PUBLISHED), PUBLISHED);
   ((Some RETRY_WAIT, WORK_PUBLISHED), PUBLISHED);
   ((Some PUBLISHED, WORK_CLAIMED), CLAIMED);
   ((Some RETRY_WAIT, WORK_CLAIMED), CLAIMED);
   ((Some CLAIMED, WORK_STARTED), RUNNING);
   ((Some CLAIMED, WORK_LEASE_EXPIRED), RETRY_WAIT);
   ((Some RUNNING, WORK_LEASE_EXPIRED), RETRY_WAIT);
   ((Some RUNNING, WORK_SUCCEEDED), SUCCEEDED);
   ((Some RUNNING, WORK_FAILED), FAILED);
   ((Some FAILED, WORK_RETRY_SCHEDULED), RETRY_WAIT);
   ((Some FAILED, WORK_DEAD_LETTERED), DEAD_LETTER);
   ((Some RUNNING, WORK_RETRY_SCHEDULED), RETRY_WAIT);
   ((Some CLAIMED, WORK_RETRY_SCHEDULED), RETRY_WAIT);
   ((Some DEAD_LETTER, WORK_RETRY_SCHEDULED), RETRY_WAIT);
   ((Some REQUESTED, WORK_CANCELLED), CANCELLED);
   ((Some PUBLISHED, WORK_CANCELLED), CANCELLED);
   ((Some CLAIMED, WORK_CANCELLED), CANCELLED);
   ((Some RUNNING, WORK_CANCELLED), CANCELLED);
   ((Some RETRY_WAIT, WORK_CANCELLED), CANCELLED);
   ((Some RUNNING, WORK_DEAD_LETTERED), DEAD_LETTER);
   ((Some RETRY_WAIT, WORK_DEAD_LETTERED), DEAD_LETTER)].

Definition invalid_edge : exn := ValueError "event is invalid from current status".

Definition next_status (current : option WorkStatus) (event_type : DomainEventType)
    : result WorkStatus :=
  if bool_decide (event_type = WORK_HEARTBEAT) then
    match current with
    | Some CLAIMED => inr CLAIMED
    | Some RUNNING => inr RUNNING
    | _ => inl invalid_edge
    end
  else if bool_decide (event_type ∈ [WORK_CANCEL_REQUESTED; WORK_RECONCILED]) then
    match current with
    | None => inl invalid_edge
    | Some c => if is_terminal c then inl invalid_edge else inr c
    end
  else
    match find (λ row, bool_decide (row.1 = (current, event_type))) transitions with
    | Some row => inr row.2
    | None => inl invalid_edge
    end.

(** Replaying a history: the status reconstructed from a work event stream. *)
Definition replay (current : option WorkStatus) (history : list DomainEventType)
    : result (option WorkStatus) :=
  foldl (λ acc ev, let? c := acc in let? s := next_status c ev in inr (Some s))
        (inr current) history.

(** The same state machine by event: from which statuses each lifecycle event
    is legal and where it leads. *)
Inductive work_step : option WorkStatus → DomainEventType → WorkStatus → Prop :=
| step_requested : work_step None WORK_REQUESTED REQUESTED
| step_published s : s ∈ [REQUESTED; RETRY_WAIT] → work_step (Some s) WORK_PUBLISHED PUBLISHED
| step_claimed s : s ∈ [PUBLISHED; RETRY_WAIT] → work_step (Some s) WORK_CLAIMED CLAIMED
| step_started : work_step (Some CLAIMED) WORK_STARTED RUNNING
| step_heartbeat s : s ∈ [CLAIMED; RUNNING] → work_step (Some s) WORK_HEARTBEAT s
| step_expired s : s ∈ [CLAIMED; RUNNING] → work_step (Some s) WORK_LEASE_EXPIRED RETRY_WAIT
| step_succeeded : work_step (Some RUNNING) WORK_SUCCEEDED SUCCEEDED
| step_failed : work_step (Some RUNNING) WORK_FAILED FAILED
| step_retry s : s ∈ [CLAIMED; RUNNING; FAILED; DEAD_LETTER] →
    work_step (Some s) WORK_RETRY_SCHEDULED RETRY_WAIT
| step_cancel_requested s : s ∉ TERMINAL_WORK_STATUSES →
    work_step (Some s) WORK_CANCEL_REQUESTED s
| step_cancelled s : s ∉ TERMINAL_WORK_STATUSES → work_step (Some s) WORK_CANCELLED CANCELLED
| step_dead_lettered s : s ∈ [RUNNING; FAILED; RETRY_WAIT] →
    work_step (Some s) WORK_DEAD_LETTERED DEAD_LETTER
| step_reconciled s : s ∉ TERMINAL_WORK_STATUSES → work_step (Some s) WORK_RECONCILED s.

(** Members of an explicit list, one case each. *)
Ltac elem_cases :=
  repeat match goal with
  | H : _ ∈ [] |- _ => by apply not_elem_of_nil in H
  | H : _ ∈ _ :: _ |- _ => apply elem_of_cons in H as [H|H]; subst
  end.

Lemma next_status_step c ev s : next_status c ev = inr s ↔ work_step c ev s.
Proof.
  split.
  - intros H.
    destruct c as [[]|], ev; vm_compute in H; try discriminate H;
      injection H as <-; constructor;
      first [ set_solver
            | apply (bool_decide_unpack _); vm_compute; done ].
  - intros H. destruct H; elem_cases; try reflexivity;
      destruct s; try reflexivity; exfalso;
      match goal with H : _ ∉ _ |- _ => apply H end; set_solver.
Qed.

Lemma next_status_total c ev :
  (∃ s, work_step c ev s ∧ next_status c ev = inr s) ∨ next_status c ev = inl invalid_edge.
Proof.
  destruct (next_status c ev) as [e|s] eqn:H.
  - right. revert H. unfold next_status.
    repeat case_match; naive_solver.
  - left. exists s. split; [|done]. by apply next_status_step.
Qed.

Lemma replay_snoc c h ev :
  replay c (h ++ [ev]) =
  let? o := replay c h in let? s := next_status o ev in inr (Some s).
Proof. unfold replay. by rewrite foldl_app. Qed.

Lemma replay_app c h1 h2 : replay c (h1 ++ h2) = let? o := replay c h1 in replay o h2.
Proof.
  induction h2 as [|ev h2 IH] using rev_ind.
  - rewrite app_nil_r. by destruct (replay c h1).
  - rewrite app_assoc, replay_snoc, IH.
    destruct (replay c h1) as [e|o]; [done|]. simpl. by rewrite replay_snoc.
Qed.

(** No event is legal after a success or a cancellation. *)
Lemma absorbing_status s ev :
  s ∈ [SUCCEEDED; CANCELLED] → next_status (Some s) ev = inl invalid_edge.
Proof.
  intros Hs.
  destruct (next_status_total (Some s) ev) as [(t & Hstep & _)|]; [|done]. exfalso.
  inversion Hstep; subst; elem_cases; try discriminate;
    match goal with H : _ ∉ _ |- _ => apply H; set_solver end.
Qed.

Lemma replay_absorbing s h o :
  s ∈ [SUCCEEDED; CANCELLED] → replay (Some s) h = inr o → h = [] ∧ o = Some s.
Proof.
  intros Hs. destruct h as [|ev h]; intros H.
  - by injection H as <-.
  - change (ev :: h) with ([ev] ++ h) in H. rewrite replay_app in H. exfalso.
    unfold replay at 1 in H. simpl in H. by rewrite absorbing_status in H.
Qed.

Definition count_event (ev : DomainEventType) (h : list DomainEventType) : nat :=
  length (filter (λ x, x = ev) h).

Lemma count_event_snoc ev h x :
  count_event ev (h ++ [x]) = (count_event ev h + if bool_decide (x = ev) then 1 else 0)%nat.
Proof.
  unfold count_event. rewrite filter_app, length_app, filter_cons.
  case_bool_decide as H; [rewrite decide_True by done|rewrite decide_False by done];
    rewrite filter_nil; simpl; lia.
Qed.

(** Status-indexed accounting of an accepted history. *)
Record history_accounting (h : list DomainEventType) (o : option WorkStatus) : Prop := {
  ha_request : (o = None → h = []) ∧
    (o ≠ None → ∃ t, h = WORK_REQUESTED :: t ∧ count_event WORK_REQUESTED t = 0%nat);
  ha_started : (count_event WORK_STARTED h + (if bool_decide (o = Some CLAIMED) then 1 else 0)
                ≤ count_event WORK_CLAIMED h)%nat;
  ha_succeeded : count_event WORK_SUCCEEDED h =
                 if bool_decide (o = Some SUCCEEDED) then 1%nat else 0%nat;
  ha_cancelled : count_event WORK_CANCELLED h =
                 if bool_decide (o = Some CANCELLED) then 1%nat else 0%nat;
}.

Lemma accounting_snoc h o ev s :
  history_accounting h o → work_step o ev s → history_accounting (h ++ [ev]) (Some s).
Proof.
  intros [[Hn Hr] Hst Hsu Hca] Hstep.
  split.
  - split; [done|]. intros _.
    destruct o as [c|].
    + destruct Hr as (t & -> & Ht); [done|]. exists (t ++ [ev]). split; [done|].
      rewrite count_event_snoc, Ht. by inversion Hstep; subst.
    + rewrite Hn by done. inversion Hstep; subst. by exists [].
  - rewrite !count_event_snoc. inversion Hstep; subst; elem_cases; simpl in *;
      repeat case_bool_decide; simplify_eq; lia.
  - rewrite !count_event_snoc, Hsu. inversion Hstep; subst; elem_cases; simpl in *;
      repeat case_bool_decide; simplify_eq; try done;
      match goal with H : _ ∉ _ |- _ => exfalso; apply H; set_solver end.
  - rewrite !count_event_snoc, Hca. inversion Hstep; subst; elem_cases; simpl in *;
      repeat case_bool_decide; simplify_eq; try done;
      match goal with H : _ ∉ _ |- _ => exfalso; apply H; set_solver end.
Qed.

Lemma replay_accounting h o : replay None h = inr o → history_accounting h o.
Proof.
  revert o. induction h as [|ev h IH] using rev_ind; intros o H.
  - injection H as <-. by split.
  - rewrite replay_snoc in H. py_inv. apply next_status_step in Hr0.
    by eapply accounting_snoc; [apply IH|].
Qed.

(** The transition table of [next_status], by event: an event is accepted from
    a status iff [work_step] has that step; every other pair raises the
    invalid-edge [ValueError]. *)
Theorem next_status_machine current ev :
  (∀ s, next_status current ev = inr s ↔ work_step current ev s) ∧
  ((∀ s, ¬ work_step current ev s) ↔ next_status current ev = inl invalid_edge).
Proof.
  split; [apply next_status_step|]. split.
  - intros Hno. destruct (next_status_total current ev) as [(s & Hs & _)|]; [|done].
    by destruct (Hno s).
  - intros Hinv s Hs. apply next_status_step in Hs. congruence.
Qed.

Lemma after_dead_letter s ev : next_status (Some DEAD_LETTER) ev = inr s → ev = WORK_RETRY_SCHEDULED.
Proof. destruct ev; intros H; vm_compute in H; try discriminate; set_solver. Qed.

Lemma after_failure s ev :
  next_status (Some FAILED) ev = inr s → ev ∈ [WORK_RETRY_SCHEDULED; WORK_DEAD_LETTERED].
Proof. destruct ev; intros H; vm_compute in H; try discriminate; set_solver. Qed.

(** The statuses around two consecutive events of an accepted history. *)
Lemma replay_adjacent c h1 ev1 ev2 h2 o :
  replay c (h1 ++ ev1 :: ev2 :: h2) = inr o →
  ∃ c1 s1 s2, next_status c1 ev1 = inr s1 ∧ next_status (Some s1) ev2 = inr s2.
Proof.
  replace (h1 ++ ev1 :: ev2 :: h2) with (((h1 ++ [ev1]) ++ [ev2]) ++ h2) by by rewrite <- !app_assoc.
  rewrite replay_app. intros H. apply rbind_ok in H as (o2 & H & _).
  rewrite !replay_snoc in H. py_inv. eauto.
Qed.

(** C11. What the transition table enforces over whole histories: every
    history [next_status] accepts begins with its only request and starts work
    at most once per claim; it holds a success or a cancellation at most once,
    exactly when it ends there, and nothing follows either: completed or
    cancelled work accepts no further event.  A failure is followed by a retry
    or a dead letter, and a dead letter only by being scheduled again. *)
Theorem work_history_shape h o :
  replay None h = inr o →
  history_accounting h o ∧
  (∀ h1 ev h2, h = h1 ++ ev :: h2 → ev ∈ [WORK_SUCCEEDED; WORK_CANCELLED] → h2 = []) ∧
  (∀ h1 ev h2, h = h1 ++ WORK_DEAD_LETTERED :: ev :: h2 → ev = WORK_RETRY_SCHEDULED) ∧
  (∀ h1 ev h2, h = h1 ++ WORK_FAILED :: ev :: h2 → ev ∈ [WORK_RETRY_SCHEDULED; WORK_DEAD_LETTERED]).
Proof.
  intros H. split; [by apply replay_accounting|]. split; [|split].
  - intros h1 ev h2 -> Hev.
    replace (h1 ++ ev :: h2) with ((h1 ++ [ev]) ++ h2) in H by by rewrite <- app_assoc.
    rewrite replay_app in H. apply rbind_ok in H as (o1 & H1 & H2).
    rewrite replay_snoc in H1. py_inv. apply next_status_step in Hr0.
    eapply (replay_absorbing a0); [|exact H2].
    inversion Hr0; subst; elem_cases; set_solver.
  - intros h1 ev h2 ->. apply replay_adjacent in H as (c & s1 & s2 & H1%next_status_step & H2).
    inversion H1; subst. by eapply after_dead_letter.
  - intros h1 ev h2 ->. apply replay_adjacent in H as (c & s1 & s2 & H1%next_status_step & H2).
    inversion H1; subst. by eapply after_failure.
Qed.

(** A work item that fails, is dead-lettered, sent back and succeeds. *)
Lemma work_history_shape_witness :
  let h := [WORK_REQUESTED; WORK_PUBLISHED; WORK_CLAIMED; WORK_STARTED; WORK_FAILED;
            WORK_DEAD_LETTERED; WORK_RETRY_SCHEDULED; WORK_CLAIMED; WORK_STARTED;
            WORK_HEARTBEAT; WORK_SUCCEEDED] in
  replay None h = inr (Some SUCCEEDED) ∧ history_accounting h (Some SUCCEEDED).
Proof.
  split; [reflexivity|]. apply (work_history_shape _ (Some SUCCEEDED)). reflexivity.
Defined.
