(* ===== verification/Amounts.v ===== *)
(** * Decimal amounts

    Python's [decimal.Decimal] as the policy and gateway code uses it: the
    default context (28 significant digits, round half to even, exponents up
    to 999999, traps on invalid operations and overflow), exact comparison,
    [+], [-], [*], [/] and [str].  A signed zero is not distinguished from
    zero.  The lemmas say when the arithmetic is exact: amounts on a common
    grid whose sum has at most 28 digits. *)

From stdpp Require Import base list strings pretty.
From Stdlib Require Import ZArith Lia.
From S2P Require Import Prelude PyLib.

Local Open Scope Z_scope.

Inductive decimal : Type :=
| DFin (coef exp : Z)
| DInf (negative : bool)
| DNaN.

#[export] Instance decimal_eq_dec : EqDecision decimal.
Proof. solve_decision. Defined.

Definition prec : Z := 28.
Definition Emax : Z := 999999.
Definition Etop : Z := Emax - prec + 1.
Definition Etiny : Z := - Emax - prec + 1.

Definition is_finite (d : decimal) : bool := match d with DFin _ _ => true | _ => false end.

Definition pow10 (n : Z) : Z := 10 ^ n.

(** [len(str(z))] of a non-negative integer. *)
Fixpoint ndigits_go (fuel : nat) (z : Z) : Z :=
  match fuel with
  | O => 1
  | S fuel => if z <? 10 then 1 else 1 + ndigits_go fuel (z / 10)
  end.

Definition ndigits (z : Z) : Z := ndigits_go (S (Z.to_nat (Z.log2 (Z.abs z)))) (Z.abs z).

(** Division rounded half to even. *)
Definition div_half_even (a b : Z) : Z :=
  let s := Z.sgn a in
  let q := Z.abs a / b in
  let r := Z.abs a mod b in
  s * (if (2 * r <? b) || ((2 * r =? b) && Z.even q) then q else q + 1).

(** [Decimal._fix]: rounding to the context. *)
Definition dec_fix (c e : Z) : result decimal :=
  if c =? 0 then inr (DFin 0 (Z.min (Z.max e Etiny) Emax)) else
  let exp_min := ndigits c + e - prec in
  if Etop <? exp_min then inl DecimalOverflow else
  let exp_min := Z.max exp_min Etiny in
  if e <? exp_min then
    let q := div_half_even c (pow10 (exp_min - e)) in
    let '(q, x) := if prec <? ndigits q then (q / 10, exp_min + 1) else (q, exp_min) in
    if Etop <? x then inl DecimalOverflow else inr (DFin q x)
  else inr (DFin c e).

(** The coefficient of a finite decimal at a smaller exponent. *)
Definition rescale (c e k : Z) : Z := c * pow10 (e - k).

Definition dec_cmp (a b : decimal) : result comparison :=
  match a, b with
  | DNaN, _ | _, DNaN => inl InvalidOperation
  | DInf m, DInf n => inr (match m, n with
                           | true, false => Lt | false, true => Gt | _, _ => Eq end)
  | DInf m, DFin _ _ => inr (if m then Lt else Gt)
  | DFin _ _, DInf n => inr (if n then Gt else Lt)
  | DFin c e, DFin d f =>
      let k := Z.min e f in inr (Z.compare (rescale c e k) (rescale d f k))
  end.

Definition dec_lt (a b : decimal) : result bool :=
  let? c := dec_cmp a b in inr (match c with Lt => true | _ => false end).
Definition dec_gt (a b : decimal) : result bool := dec_lt b a.
Definition dec_le (a b : decimal) : result bool :=
  let? c := dec_cmp a b in inr (match c with Gt => false | _ => true end).

Definition dec_add (a b : decimal) : result decimal :=
  match a, b with
  | DNaN, _ | _, DNaN => inr DNaN
  | DInf m, DInf n => if Bool.eqb m n then inr (DInf m) else inl InvalidOperation
  | DInf m, _ | _, DInf m => inr (DInf m)
  | DFin c e, DFin d f =>
      let k := Z.min e f in dec_fix (rescale c e k + rescale d f k) k
  end.

Definition dec_neg (a : decimal) : decimal :=
  match a with DFin c e => DFin (- c) e | DInf m => DInf (negb m) | DNaN => DNaN end.

Definition dec_sub (a b : decimal) : result decimal := dec_add a (dec_neg b).

Definition sign_of (c : Z) : bool := c <? 0.

Definition dec_mul (a b : decimal) : result decimal :=
  match a, b with
  | DNaN, _ | _, DNaN => inr DNaN
  | DInf m, DInf n => inr (DInf (xorb m n))
  | DInf m, DFin c _ | DFin c _, DInf m =>
      if c =? 0 then inl InvalidOperation else inr (DInf (xorb m (sign_of c)))
  | DFin c e, DFin d f => dec_fix (c * d) (e + f)
  end.

(** Trailing zeros are dropped while the exponent is below the ideal one. *)
Fixpoint strip_zeros (n : nat) (c e : Z) : Z * Z :=
  match n with
  | O => (c, e)
  | S n => if c mod 10 =? 0 then strip_zeros n (c / 10) (e + 1) else (c, e)
  end.

(** Division by a positive integer, [d / Decimal(n)]. *)
Definition dec_div_int (a : decimal) (n : Z) : result decimal :=
  match a with
  | DNaN => inr DNaN
  | DInf m => inr (DInf m)
  | DFin c e =>
      if c =? 0 then dec_fix 0 e else
      let shift := ndigits n - ndigits c + prec + 1 in
      let x := e - shift in
      let '(num, den) := if 0 <=? shift then (Z.abs c * pow10 shift, n)
                         else (Z.abs c, n * pow10 (- shift)) in
      let q := num / den in
      if num mod den =? 0 then
        let '(q, x) := strip_zeros (Z.to_nat (e - x)) q x in
        dec_fix (Z.sgn c * q) x
      else dec_fix (Z.sgn c * (if q mod 5 =? 0 then q + 1 else q)) x
  end.

Definition dec_of_int (n : Z) : decimal := DFin n 0.

(** [max(first, *rest)]: the first of the largest. *)
Fixpoint dec_max (first : decimal) (rest : list decimal) : result decimal :=
  match rest with
  | [] => inr first
  | d :: rest => let? bigger := dec_gt d first in dec_max (if bigger then d else first) rest
  end.

(** [sum(items, start=Decimal("0"))] *)
Fixpoint dec_sum_from (acc : decimal) (items : list decimal) : result decimal :=
  match items with
  | [] => inr acc
  | d :: items => let? s := dec_add acc d in dec_sum_from s items
  end.

Definition dec_sum (items : list decimal) : result decimal :=
  dec_sum_from (DFin 0 0) items.

(** [str(d)] *)
Definition dec_str (d : decimal) : string :=
  match d with
  | DNaN => "NaN"
  | DInf m => if m then "-Infinity" else "Infinity"
  | DFin c e =>
      let int := pretty (Z.abs c) in
      let len := PyStr.len int in
      let left := e + len in
      let dot := if (e <=? 0) && (-6 <? left) then left else 1 in
      let zeros (n : Z) := String.concat "" (replicate (Z.to_nat n) "0"%string) in
      ((if sign_of c then "-" else "") +:+
       (if (dot <=? 0)%Z then "0." +:+ zeros (- dot)%Z +:+ int
        else if (len <=? dot)%Z then int +:+ zeros (dot - len)%Z
        else String.substring 0 (Z.to_nat dot) int +:+ "." +:+
             String.substring (Z.to_nat dot) (Z.to_nat (len - dot)%Z) int) +:+
       (if (left =? dot)%Z then ""
        else "E" +:+ (if (left <? dot)%Z then "-" else "+") +:+ pretty (Z.abs (left - dot)%Z)))%string
  end.

(** ** [numeric] columns

    A [numeric(p, s)] column rounds to [s] places, half away from zero, and
    refuses values of more than [p] digits; NaN is stored as such. *)

Definition numeric : Type := option Z.

Definition div_half_away (a b : Z) : Z :=
  Z.sgn a * ((2 * Z.abs a + b) / (2 * b)).

Definition to_numeric (precision scale : Z) (d : decimal) : result numeric :=
  match d with
  | DNaN => inr None
  | DInf _ => inl (PsycopgError DataError)
  | DFin c e =>
      let units := if - scale <=? e then c * pow10 (e + scale)
                   else div_half_away c (pow10 (- scale - e)) in
      raise! PsycopgError DataError when! pow10 precision <=? Z.abs units ;;
      inr (Some units)
  end.

(** [Decimal(row[i])] of a column with [scale] places *)
Definition of_numeric (scale : Z) (n : numeric) : decimal :=
  match n with Some units => DFin units (- scale) | None => DNaN end.

Definition numeric_add (a b : numeric) : numeric :=
  match a, b with Some x, Some y => Some (x + y) | _, _ => None end.

(** [CHECK (column >= 0)]; NaN is larger than every number. *)
Definition numeric_nonneg (n : numeric) : bool :=
  match n with Some units => 0 <=? units | None => true end.

(** ** Exact amounts *)

(** [d] is [x] units of [10 ^ k]. *)
Definition amount (k : Z) (d : decimal) (x : Z) : Prop :=
  ∃ c e, d = DFin c e ∧ k ≤ e ≤ 1000 ∧ x = c * pow10 (e - k).

(** Grids and sums for which the context neither rounds nor overflows. *)
Definition grid (k : Z) : Prop := -1000 ≤ k ≤ 0.

Lemma pow10_pos n : 0 ≤ n → 0 < pow10 n.
Proof. intros. apply Z.pow_pos_nonneg; lia. Qed.

Lemma pow10_add m n : 0 ≤ m → 0 ≤ n → pow10 (m + n) = pow10 m * pow10 n.
Proof. intros. by apply Z.pow_add_r. Qed.

Lemma rescale_at c e m k : k ≤ m ≤ e → rescale c e m * pow10 (m - k) = c * pow10 (e - k).
Proof.
  intros. unfold rescale. rewrite <- Z.mul_assoc, <- pow10_add by lia. do 2 f_equal. lia.
Qed.

Lemma ndigits_go_le fuel z (n : nat) :
  0 ≤ z < pow10 (Z.of_nat (S n)) → ndigits_go fuel z ≤ Z.of_nat (S n).
Proof.
  revert z n. induction fuel as [|fuel IH]; intros z n Hz; cbn [ndigits_go]; [lia|].
  destruct (Z.ltb_spec z 10); [lia|].
  destruct n as [|n]; [change (pow10 (Z.of_nat 1)) with 10 in Hz; lia|].
  assert (Hdiv : 0 ≤ z / 10 < pow10 (Z.of_nat (S n))).
  { split; [apply Z.div_pos; lia|]. apply Z.div_lt_upper_bound; [lia|].
    replace (Z.of_nat (S (S n))) with (1 + Z.of_nat (S n)) in Hz by lia.
    rewrite pow10_add in Hz by lia. exact (proj2 Hz). }
  specialize (IH (z / 10) n Hdiv). lia.
Qed.

Lemma ndigits_go_pos fuel z : 1 ≤ ndigits_go fuel z.
Proof.
  revert z. induction fuel as [|fuel IH]; intros z; cbn [ndigits_go]; [lia|].
  destruct (z <? 10); [lia|]. specialize (IH (z / 10)). lia.
Qed.

Lemma ndigits_le c : Z.abs c < pow10 prec → ndigits c ≤ prec.
Proof. intros H. apply (ndigits_go_le _ _ 27). split; [lia|exact H]. Qed.

(** No rounding below 28 digits. *)
Lemma dec_fix_exact c e :
  Z.abs c < pow10 prec → -1000 ≤ e ≤ 1000 → dec_fix c e = inr (DFin c e).
Proof.
  intros Hc He. unfold dec_fix. destruct (Z.eqb_spec c 0) as [->|Hne].
  { unfold Etiny, Emax, prec. do 2 f_equal. lia. }
  pose proof (ndigits_le c Hc). pose proof (ndigits_go_pos (S (Z.to_nat (Z.log2 (Z.abs c)))) (Z.abs c)).
  fold (ndigits c) in *. unfold Etop, Etiny, Emax, prec in *.
  rewrite (proj2 (Z.ltb_ge _ _)) by lia. by rewrite (proj2 (Z.ltb_ge _ _)) by lia.
Qed.

Lemma abs_unscaled s n x : x = s * pow10 n → 0 ≤ n → Z.abs s ≤ Z.abs x.
Proof. intros -> Hn. pose proof (pow10_pos n Hn). rewrite Z.abs_mul. nia. Qed.

Lemma dec_add_exact k a b x y :
  grid k → amount k a x → amount k b y → Z.abs (x + y) < pow10 prec →
  ∃ d, dec_add a b = inr d ∧ amount k d (x + y).
Proof.
  intros Hk (c & e & -> & He & ->) (c' & f & -> & Hf & ->) Hsum. simpl.
  set (m := Z.min e f) in *. set (s := rescale c e m + rescale c' f m).
  assert (Hs : c * pow10 (e - k) + c' * pow10 (f - k) = s * pow10 (m - k)).
  { unfold s. rewrite Z.mul_add_distr_r, !rescale_at by lia. done. }
  exists (DFin s m). unfold grid in Hk. split.
  - apply dec_fix_exact; [|lia]. pose proof (abs_unscaled _ _ _ Hs). lia.
  - exists s, m. split; [done|]. split; [lia|done].
Qed.

Lemma dec_cmp_exact k a b x y :
  amount k a x → amount k b y → dec_cmp a b = inr (Z.compare x y).
Proof.
  intros (c & e & -> & He & ->) (c' & f & -> & Hf & ->). simpl. f_equal.
  set (m := Z.min e f) in *.
  rewrite <- (rescale_at c e m k), <- (rescale_at c' f m k) by lia.
  pose proof (pow10_pos (m - k) ltac:(lia)) as Hp.
  destruct (Z.compare_spec (rescale c e m) (rescale c' f m)); symmetry.
  - apply Z.compare_eq_iff. congruence.
  - apply Z.compare_lt_iff. nia.
  - apply Z.compare_gt_iff. nia.
Qed.

Lemma dec_gt_exact k a b x y :
  amount k a x → amount k b y → dec_gt a b = inr (y <? x).
Proof.
  intros Ha Hb. unfold dec_gt, dec_lt. rewrite (dec_cmp_exact k b a y x) by done. done.
Qed.

Lemma amount_zero k : grid k → amount k (DFin 0 0) 0.
Proof. intros Hk. unfold grid in Hk. exists 0, 0. split; [done|]. split; [lia|done]. Qed.

(** A sum of amounts that stays below 28 digits is exact. *)
Lemma dec_sum_from_exact k acc items a xs :
  grid k → amount k acc a → Forall2 (amount k) items xs → Forall (λ x, 0 ≤ x) xs → 0 ≤ a →
  a + foldr Z.add 0 xs < pow10 prec →
  ∃ d, dec_sum_from acc items = inr d ∧ amount k d (a + foldr Z.add 0 xs).
Proof.
  intros Hk Ha Hall. revert acc a Ha.
  induction Hall as [|d x items xs Hd Hall IH]; intros acc a Ha Hpos Ha0 Hsum; simpl in *.
  { exists acc. by rewrite Z.add_0_r. }
  apply Forall_cons in Hpos as [Hx Hpos].
  assert (Hrest : 0 ≤ foldr Z.add 0 xs) by (clear -Hpos; induction Hpos; simpl; lia).
  destruct (dec_add_exact k acc d a x Hk Ha Hd) as (s & Hs & Hsa); [lia|].
  rewrite Hs. simpl. rewrite Z.add_assoc. apply IH; [done|done|lia|lia].
Qed.

Lemma dec_sum_exact k items xs :
  grid k → Forall2 (amount k) items xs → Forall (λ x, 0 ≤ x) xs →
  foldr Z.add 0 xs < pow10 prec →
  ∃ d, dec_sum items = inr d ∧ amount k d (foldr Z.add 0 xs).
Proof.
  intros Hk Hall Hpos Hsum. rewrite <- (Z.add_0_l (foldr _ _ _)).
  apply dec_sum_from_exact; [done|by apply amount_zero|done|done|lia|lia].
Qed.
