(* ===== verification/Database.v ===== *)
(** * The PostgreSQL state

    The tables the storage adapters read and write, as the migrations declare
    them, and the environment of a statement: the server clock, the UUID
    factory and the identity sequence.  A transaction that raises restores
    the tables; sequence values, clock readings and drawn UUIDs stay consumed,
    as they do on the server. *)

From stdpp Require Import base gmap sets list strings pretty.
From Stdlib Require Import ZArith Lia.
From S2P Require Import Prelude PyLib Json Events Work Amounts.

Local Open Scope Z_scope.

(** A row of [events], in the column order of [_READ_STREAM]. *)
Record EventRow : Type := mkEventRow {
  er_event_id : uuid;
  er_tenant_id : string;
  er_aggregate_id : string;
  er_aggregate_sequence : Z;
  er_global_position : Z;
  er_event_type : string;
  er_schema_version : Z;
  er_occurred_at : Z;
  er_recorded_at : Z;
  er_payload : pyval;
  er_metadata : pyval;
  er_correlation_id : option uuid;
  er_causation_id : option uuid;
  er_actor_id : option string;
  er_actor_kind : option string;
  er_identity_reference : option string;
  er_policy_reference : option string;
  er_audit_reference : option uuid;
  er_idempotency_key : option string;
  er_traceparent : option string;
  er_tracestate : option string;
}.

Inductive OutboxStatus : Type := OB_PENDING | OB_LEASED | OB_PUBLISHED | OB_DEAD_LETTER.

#[export] Instance OutboxStatus_eq_dec : EqDecision OutboxStatus.
Proof. solve_decision. Defined.

(** A row of [outbox_messages]; the key is (tenant_id, message_id). *)
Record OutboxRow : Type := mkOutboxRow {
  ob_event_id : option uuid;
  ob_destination : string;
  ob_payload : pyval;
  ob_headers : pyval;
  ob_status : OutboxStatus;
  ob_available_at : Z;
  ob_attempt_count : Z;
  ob_max_attempts : Z;
  ob_lease_owner : option string;
  ob_lease_expires_at : option Z;
  ob_published_at : option Z;
  ob_last_error_code : option string;
}.

(** A row of [work_items]; the key is (tenant_id, work_id). *)
Record WorkItemRow : Type := mkWorkItemRow {
  wi_work_kind : string;
  wi_idempotency_key : string;
  wi_status : WorkStatus;
  wi_requested_at : Z;
  wi_available_at : Z;
  wi_attempt_count : Z;
  wi_max_attempts : Z;
  wi_timeout_seconds : Z;
  wi_request_event_id : uuid;
  wi_correlation_id : uuid;
  wi_causation_id : option uuid;
  wi_request_payload : pyval;
  wi_cancel_requested_at : option Z;
  wi_completed_at : option Z;
  wi_last_error_code : option string;
}.

(** A row of [work_leases]; the key is (tenant_id, work_id). *)
Record LeaseRow : Type := mkLeaseRow {
  le_lease_token : uuid;
  le_generation : Z;
  le_owner : string;
  le_acquired_at : Z;
  le_heartbeat_at : Z;
  le_expires_at : Z;
  le_released_at : option Z;
  le_release_reason : option string;
}.

(** A row of [work_dead_letters]; the key is (tenant_id, work_id). *)
Record DeadLetterRow : Type := mkDeadLetterRow {
  dl_dead_lettered_at : Z;
  dl_reason_code : string;
  dl_attempts : Z;
  dl_requeue_count : Z;
  dl_last_requeued_at : option Z;
}.

(** A row of [work_requeue_approvals]; the key is (tenant_id, approval_id). *)
Record ApprovalRow : Type := mkApprovalRow {
  ap_work_id : uuid;
  ap_approved_by : string;
  ap_approved_at : Z;
  ap_expires_at : Z;
  ap_consumed_at : option Z;
  ap_consumed_by : option string;
}.

(** ** Read models

    The tables of the projections; a [numeric] column holds whole units of
    its last decimal place, or NaN. *)

Record RunStatusRow : Type := mkRunStatusRow {
  rs_status : string;
  rs_aggregate_sequence : Z;
  rs_last_global_position : Z;
  rs_updated_at : Z;
}.

Record ArtifactRow : Type := mkArtifactRow {
  ar_run_id : string;
  ar_artifact_kind : string;
  ar_source_reference : string;
  ar_summary : string;
  ar_event_id : uuid;
  ar_global_position : Z;
}.

Record PendingApprovalRow : Type := mkPendingApprovalRow {
  pa_run_id : string;
  pa_proposal_reference : string;
  pa_requested_at : Z;
  pa_event_id : uuid;
  pa_global_position : Z;
}.

Record ModelUsageRow : Type := mkModelUsageRow {
  mu_run_id : uuid;
  mu_provider : string;
  mu_model : string;
  mu_price_version : string;
  mu_input_tokens : Z;
  mu_output_tokens : Z;
  mu_cache_read_tokens : Z;
  mu_cache_write_tokens : Z;
  mu_reasoning_tokens : Z;
  mu_total_tokens : Z;
  mu_cost_usd : numeric;
  mu_recorded_at : Z;
}.

Record UsageQuotaRow : Type := mkUsageQuotaRow {
  uq_tokens_used : Z;
  uq_cost_usd : numeric;
  uq_last_global_position : Z;
}.

Record TenantListingRow : Type := mkTenantListingRow {
  tl_display_name : string;
  tl_enabled : bool;
  tl_last_global_position : Z;
}.

Record Views : Type := mkViews {
  v_checkpoints : gmap (string * string) Z;
  v_run_status : gmap (string * string) RunStatusRow;
  v_artifacts : gmap (string * uuid) ArtifactRow;
  v_pending : gmap (string * uuid) PendingApprovalRow;
  v_model_usage : gmap (string * uuid) ModelUsageRow;
  v_usage_quota : gmap (string * string) UsageQuotaRow;
  v_tenant_listing : gmap (string * unit) TenantListingRow;
}.

Definition no_views : Views := mkViews ∅ ∅ ∅ ∅ ∅ ∅ ∅.

(** ** Model budgets *)

Inductive ReservationStatus : Type := RS_ACTIVE | RS_CHARGED | RS_RELEASED.

#[export] Instance ReservationStatus_eq_dec : EqDecision ReservationStatus.
Proof. solve_decision. Defined.

(** A row of [model_budget_reservations]; the key is (tenant_id,
    reservation_id). *)
Record BudgetRow : Type := mkBudgetRow {
  bg_run_id : uuid;
  bg_work_id : uuid;
  bg_request_id : uuid;
  bg_idempotency_key : string;
  bg_token_limit : Z;
  bg_cost_limit_usd : numeric;
  bg_price_version : string;
  bg_status : ReservationStatus;
  bg_charged_tokens : Z;
  bg_charged_cost_usd : numeric;
  bg_lease_token : uuid;
  bg_lease_generation : Z;
  bg_created_at : Z;
  bg_expires_at : Z;
  bg_reconciled_at : option Z;
}.

(** A row of [tenant_quotas]. *)
Record QuotaRow : Type := mkQuotaRow {
  qr_max_run_tokens : Z;
  qr_max_run_cost_usd : numeric;
  qr_max_tenant_tokens_per_period : Z;
  qr_max_tenant_cost_usd_per_period : numeric;
  qr_max_concurrent_runs : Z;
}.

Record Budgets : Type := mkBudgetTables {
  bt_locks : gset string;
  bt_reservations : gmap (string * uuid) BudgetRow;
  bt_quotas : gmap string QuotaRow;
}.

Definition no_budgets : Budgets := mkBudgetTables ∅ ∅ ∅.

Record Tables : Type := mkTables {
  t_tenants : gset string;
  t_commit_locks : gset string;
  t_heads : gmap (string * string) Z;
  t_events : list EventRow;
  t_inbox : gmap (string * string * string) (option Z);
  t_outbox : gmap (string * uuid) OutboxRow;
  t_work_items : gmap (string * uuid) WorkItemRow;
  t_work_leases : gmap (string * uuid) LeaseRow;
  t_dead_letters : gmap (string * uuid) DeadLetterRow;
  t_approvals : gmap (string * uuid) ApprovalRow;
  t_views : Views;
  t_budgets : Budgets;
}.

(** Updates of one table. *)
Definition upd_commit_locks (g : gset string → gset string) (t : Tables) : Tables :=
  {| t_tenants := t_tenants t; t_commit_locks := g (t_commit_locks t);
     t_heads := t_heads t; t_events := t_events t;
     t_inbox := t_inbox t; t_outbox := t_outbox t;
     t_work_items := t_work_items t; t_work_leases := t_work_leases t;
     t_dead_letters := t_dead_letters t; t_approvals := t_approvals t;
     t_views := t_views t; t_budgets := t_budgets t |}.

Definition upd_heads (g : gmap (string * string) Z → gmap (string * string) Z) (t : Tables) : Tables :=
  {| t_tenants := t_tenants t; t_commit_locks := t_commit_locks t;
     t_heads := g (t_heads t); t_events := t_events t;
     t_inbox := t_inbox t; t_outbox := t_outbox t;
     t_work_items := t_work_items t; t_work_leases := t_work_leases t;
     t_dead_letters := t_dead_letters t; t_approvals := t_approvals t;
     t_views := t_views t; t_budgets := t_budgets t |}.

Definition upd_events (g : list EventRow → list EventRow) (t : Tables) : Tables :=
  {| t_tenants := t_tenants t; t_commit_locks := t_commit_locks t;
     t_heads := t_heads t; t_events := g (t_events t);
     t_inbox := t_inbox t; t_outbox := t_outbox t;
     t_work_items := t_work_items t; t_work_leases := t_work_leases t;
     t_dead_letters := t_dead_letters t; t_approvals := t_approvals t;
     t_views := t_views t; t_budgets := t_budgets t |}.

Definition upd_inbox (g : gmap (string * string * string) (option Z) → gmap (string * string * string) (option Z)) (t : Tables) : Tables :=
  {| t_tenants := t_tenants t; t_commit_locks := t_commit_locks t;
     t_heads := t_heads t; t_events := t_events t;
     t_inbox := g (t_inbox t); t_outbox := t_outbox t;
     t_work_items := t_work_items t; t_work_leases := t_work_leases t;
     t_dead_letters := t_dead_letters t; t_approvals := t_approvals t;
     t_views := t_views t; t_budgets := t_budgets t |}.

Definition upd_outbox (g : gmap (string * uuid) OutboxRow → gmap (string * uuid) OutboxRow) (t : Tables) : Tables :=
  {| t_tenants := t_tenants t; t_commit_locks := t_commit_locks t;
     t_heads := t_heads t; t_events := t_events t;
     t_inbox := t_inbox t; t_outbox := g (t_outbox t);
     t_work_items := t_work_items t; t_work_leases := t_work_leases t;
     t_dead_letters := t_dead_letters t; t_approvals := t_approvals t;
     t_views := t_views t; t_budgets := t_budgets t |}.

Definition upd_work_items (g : gmap (string * uuid) WorkItemRow → gmap (string * uuid) WorkItemRow) (t : Tables) : Tables :=
  {| t_tenants := t_tenants t; t_commit_locks := t_commit_locks t;
     t_heads := t_heads t; t_events := t_events t;
     t_inbox := t_inbox t; t_outbox := t_outbox t;
     t_work_items := g (t_work_items t); t_work_leases := t_work_leases t;
     t_dead_letters := t_dead_letters t; t_approvals := t_approvals t;
     t_views := t_views t; t_budgets := t_budgets t |}.

Definition upd_work_leases (g : gmap (string * uuid) LeaseRow → gmap (string * uuid) LeaseRow) (t : Tables) : Tables :=
  {| t_tenants := t_tenants t; t_commit_locks := t_commit_locks t;
     t_heads := t_heads t; t_events := t_events t;
     t_inbox := t_inbox t; t_outbox := t_outbox t;
     t_work_items := t_work_items t; t_work_leases := g (t_work_leases t);
     t_dead_letters := t_dead_letters t; t_approvals := t_approvals t;
     t_views := t_views t; t_budgets := t_budgets t |}.

Definition upd_dead_letters (g : gmap (string * uuid) DeadLetterRow → gmap (string * uuid) DeadLetterRow) (t : Tables) : Tables :=
  {| t_tenants := t_tenants t; t_commit_locks := t_commit_locks t;
     t_heads := t_heads t; t_events := t_events t;
     t_inbox := t_inbox t; t_outbox := t_outbox t;
     t_work_items := t_work_items t; t_work_leases := t_work_leases t;
     t_dead_letters := g (t_dead_letters t); t_approvals := t_approvals t;
     t_views := t_views t; t_budgets := t_budgets t |}.

Definition upd_approvals (g : gmap (string * uuid) ApprovalRow → gmap (string * uuid) ApprovalRow) (t : Tables) : Tables :=
  {| t_tenants := t_tenants t; t_commit_locks := t_commit_locks t;
     t_heads := t_heads t; t_events := t_events t;
     t_inbox := t_inbox t; t_outbox := t_outbox t;
     t_work_items := t_work_items t; t_work_leases := t_work_leases t;
     t_dead_letters := t_dead_letters t; t_approvals := g (t_approvals t);
     t_views := t_views t; t_budgets := t_budgets t |}.

Definition upd_views (g : Views → Views) (t : Tables) : Tables :=
  {| t_tenants := t_tenants t; t_commit_locks := t_commit_locks t;
     t_heads := t_heads t; t_events := t_events t;
     t_inbox := t_inbox t; t_outbox := t_outbox t;
     t_work_items := t_work_items t; t_work_leases := t_work_leases t;
     t_dead_letters := t_dead_letters t; t_approvals := t_approvals t;
     t_views := g (t_views t); t_budgets := t_budgets t |}.

Definition upd_budgets (g : Budgets → Budgets) (t : Tables) : Tables :=
  {| t_tenants := t_tenants t; t_commit_locks := t_commit_locks t;
     t_heads := t_heads t; t_events := t_events t;
     t_inbox := t_inbox t; t_outbox := t_outbox t;
     t_work_items := t_work_items t; t_work_leases := t_work_leases t;
     t_dead_letters := t_dead_letters t; t_approvals := t_approvals t;
     t_views := t_views t; t_budgets := g (t_budgets t) |}.

(** What a statement can observe besides the tables. *)
Record World : Type := mkWorld {
  w_db : Tables;
  w_position : Z;         (** last value of [events_global_position_seq] *)
  w_clock : nat → Z;      (** the readings of the server clock, in order *)
  w_tick : nat;           (** how many readings were made *)
  w_uuids : nat → uuid;   (** the values of [uuid_factory], in order *)
  w_draw : nat;           (** how many were drawn *)
  w_txn_start : Z;        (** [transaction_timestamp()] *)
  w_cell : list (Z * Z);  (** the list a mutation closure appends to *)
  w_maintenance : gset (string * string);  (** rebuild locks held by a session *)
}.

Abbreviation Db := (M exn World).

Definition set_db (f : Tables → Tables) (w : World) : World :=
  {| w_db := f (w_db w); w_position := w_position w; w_clock := w_clock w;
     w_tick := w_tick w; w_uuids := w_uuids w; w_draw := w_draw w;
     w_txn_start := w_txn_start w;
      w_cell := w_cell w; w_maintenance := w_maintenance w |}.

Definition query {A} (f : Tables → A) : Db A := gets (λ w, f (w_db w)).
Definition execute (f : Tables → Tables) : Db unit := modify (set_db f).

(** [SELECT clock_timestamp()]: one reading per statement. *)
Definition clock_timestamp : Db Z := λ w,
  (inr (w_clock w (w_tick w)),
   {| w_db := w_db w; w_position := w_position w; w_clock := w_clock w;
      w_tick := S (w_tick w); w_uuids := w_uuids w; w_draw := w_draw w;
      w_txn_start := w_txn_start w;
      w_cell := w_cell w; w_maintenance := w_maintenance w |}).

(** [self._uuid_factory()] *)
Definition uuid_factory : Db uuid := λ w,
  (inr (w_uuids w (w_draw w)),
   {| w_db := w_db w; w_position := w_position w; w_clock := w_clock w;
      w_tick := w_tick w; w_uuids := w_uuids w; w_draw := S (w_draw w);
      w_txn_start := w_txn_start w;
      w_cell := w_cell w; w_maintenance := w_maintenance w |}).

(** [nextval('events_global_position_seq')] *)
Definition nextval : Db Z := λ w,
  (inr (w_position w + 1),
   {| w_db := w_db w; w_position := w_position w + 1; w_clock := w_clock w;
      w_tick := w_tick w; w_uuids := w_uuids w; w_draw := w_draw w;
      w_txn_start := w_txn_start w;
      w_cell := w_cell w; w_maintenance := w_maintenance w |}).

Definition begin : Db unit := λ w,
  (inr tt,
   {| w_db := w_db w; w_position := w_position w; w_clock := w_clock w;
      w_tick := S (w_tick w); w_uuids := w_uuids w; w_draw := w_draw w;
      w_txn_start := w_clock w (w_tick w);
      w_cell := w_cell w; w_maintenance := w_maintenance w |}).

(** [async with _tenant_transaction(...)]: commit on a normal exit, roll the
    tables back when the block raises. *)
Definition transaction {A} (body : Db A) : Db A := λ w,
  match (do! begin ;; body) w with
  | (inr a, w') => (inr a, w')
  | (inl e, w') => (inl e, set_db (λ _, w_db w) w')
  end.

(** A closure of the adapters may report to its caller through a list it
    captures; a rollback does not undo Python assignments. *)
Definition set_cell (f : list (Z * Z) → list (Z * Z)) : Db unit := λ w,
  (inr tt,
   {| w_db := w_db w; w_position := w_position w; w_clock := w_clock w;
      w_tick := w_tick w; w_uuids := w_uuids w; w_draw := w_draw w;
      w_txn_start := w_txn_start w; w_cell := f (w_cell w); w_maintenance := w_maintenance w |}).

(** A constraint the server rejects a row for. *)
Definition violates : exn := PsycopgError IntegrityError.

Lemma transaction_ok {A} (body : Db A) w a w' :
  transaction body w = (inr a, w') →
  ∃ w1, begin w = (inr tt, w1) ∧ w_db w1 = w_db w ∧ body w1 = (inr a, w').
Proof.
  unfold transaction. destruct ((do! begin ;; body) w) as [[e|b] w2] eqn:H; [done|].
  intros [= <- <-]. apply bind_ok in H as ([] & w1 & H1 & H2). exists w1.
  split; [done|]. split; [|done]. unfold begin in H1. by injection H1 as <-.
Qed.

Lemma transaction_err {A} (body : Db A) w e w' :
  transaction body w = (inl e, w') → w_db w' = w_db w.
Proof.
  unfold transaction. destruct ((do! begin ;; body) w) as [[e'|b] w2]; [|done].
  by intros [= <- <-].
Qed.

(** Inversion of a successful run of statements. *)
Ltac db_step :=
  match goal with
  | H : query _ _ = (_, _) |- _ => unfold query, gets in H; py_run H
  | H : execute _ _ = (_, _) |- _ => unfold execute, modify in H; py_run H
  | H : clock_timestamp _ = (_, _) |- _ => unfold clock_timestamp in H; py_run H
  | H : uuid_factory _ = (_, _) |- _ => unfold uuid_factory in H; py_run H
  | H : begin _ = (_, _) |- _ => unfold begin in H; py_run H
  | H : set_cell _ _ = (_, _) |- _ => unfold set_cell in H; py_run H
  | _ => py_step
  end.

Ltac db_inv := repeat (db_step; simpl in *).
