(* ===== verification/EventStore.v ===== *)
(** * The event store

    Models [event_store/__init__.py] and the [PostgresEventStore] of
    [event_store/postgres.py]: the append-only ledger with optimistic
    concurrency, the inbox that deduplicates deliveries, fenced appends, the
    two readers and the outbox with its leases. *)

From stdpp Require Import base gmap sets list strings pretty.
From Stdlib Require Import ZArith Lia Sorted.
From S2P Require Import Prelude PyLib Json Events Identity Work Database.

Local Open Scope Z_scope.

(** [OutboxMessage] *)
Record OutboxMessage : Type := mkOutboxMessage {
  om_message_id : uuid;
  om_destination : string;
  om_payload : pydict;
  om_headers : pydict;
  om_available_at : Dt.datetime;
  om_max_attempts : Z;
  om_event_id : option uuid;
}.

Definition OutboxMessage_post_init (m : OutboxMessage) : result OutboxMessage :=
  raise! ValueError "outbox destination is required"
    when! PyStr.is_empty (om_destination m) ;;
  raise! ValueError "outbox available_at must be timezone-aware"
    when! Dt.naive (om_available_at m) ;;
  raise! ValueError "outbox max_attempts must be positive" when! om_max_attempts m <? 1 ;;
  inr m.

(** [ClaimedOutboxMessage] *)
Record ClaimedOutboxMessage : Type := mkClaimed {
  co_message : OutboxMessage;
  co_attempt_count : Z;
  co_lease_owner : string;
  co_lease_expires_at : Z;
}.

(** [EventPage] and [AppendResult] *)
Record EventPage : Type := mkEventPage {
  pg_events : list EventEnvelope;
  pg_next_cursor : option Z;
}.

Record AppendResult : Type := mkAppendResult {
  ar_aggregate_version : Z;
  ar_duplicate : bool;
}.

(** ** Rows *)

Definition classify_storage_error (c : psycopg_class) : exn :=
  match c with
  | OperationalError | InterfaceError | SerializationFailure | DeadlockDetected
  | ConnectionException => TransientStorageError "transient PostgreSQL storage failure"
  | IntegrityError | DataError =>
      PermanentStorageError "permanent PostgreSQL storage failure"
  end.

(** [try: ... except psycopg.Error as error: raise classify_storage_error(error)] *)
Definition storage_guard {S A} (m : M exn S A) : M exn S A :=
  catch m (λ e, match e with
                | PsycopgError c => raise (classify_storage_error c)
                | _ => raise e
                end).

(** [_event_insert_values] with the columns the server fills in. *)
Definition _event_insert_values (event : EventEnvelope) (sequence position recorded : Z)
    : EventRow :=
  {| er_event_id := event_id event;
     er_tenant_id := ev_tenant_id event;
     er_aggregate_id := aggregate_id event;
     er_aggregate_sequence := sequence;
     er_global_position := position;
     er_event_type := event_type event;
     er_schema_version := schema_version event;
     er_occurred_at := Dt.us (occurred_at event);
     er_recorded_at := recorded;
     er_payload := thaw_json (PProxy (payload event));
     er_metadata := thaw_json (PProxy (metadata event));
     er_correlation_id := correlation_id event;
     er_causation_id := causation_id event;
     er_actor_id := actor_id <$> actor event;
     er_actor_kind := (λ a, sc_value (actor_kind a)) <$> actor event;
     er_identity_reference := identity_reference event;
     er_policy_reference := policy_reference event;
     er_audit_reference := audit_reference event;
     er_idempotency_key := idempotency_key event;
     er_traceparent := traceparent <$> trace_context event;
     er_tracestate := trace_context event ≫= tracestate |}.

(** A JSON object column read back by the driver. *)
Definition as_mapping (v : pyval) : pydict :=
  match v with PDict d | PProxy d => d | _ => [] end.

Definition _event_from_row (row : EventRow) (previous : option Z) : result EventEnvelope :=
  let? actor :=
    match er_actor_id row with
    | Some id =>
        let? kind := sc_new (default ""%string (er_actor_kind row)) in
        let? a := ActorReference_post_init {| actor_id := id; actor_kind := kind |} in
        inr (Some a)
    | None => inr None
    end in
  let? trace :=
    match er_traceparent row with
    | Some tp =>
        let? t := TraceContext_post_init
                    {| traceparent := tp; tracestate := er_tracestate row |} in
        inr (Some t)
    | None => inr None
    end in
  EventEnvelope_post_init
    {| event_id := er_event_id row;
       ev_tenant_id := er_tenant_id row;
       aggregate_id := er_aggregate_id row;
       aggregate_sequence := er_aggregate_sequence row;
       global_position := Some (er_global_position row);
       event_type := er_event_type row;
       schema_version := er_schema_version row;
       occurred_at := Dt.Aware (er_occurred_at row);
       recorded_at := Some (Dt.Aware (er_recorded_at row));
       payload := as_mapping (er_payload row);
       metadata := as_mapping (er_metadata row);
       correlation_id := er_correlation_id row;
       causation_id := er_causation_id row;
       actor := actor;
       identity_reference := er_identity_reference row;
       policy_reference := er_policy_reference row;
       audit_reference := er_audit_reference row;
       idempotency_key := er_idempotency_key row;
       trace_context := trace;
       previous_aggregate_sequence := previous |}.

(** ** Append *)

Definition _validate_append (context : TenantContext) (events : list EventEnvelope)
    (expected_version : Z) : result unit :=
  raise! ValueError "expected_version cannot be negative" when! expected_version <? 0 ;;
  match events with
  | [] => inl (ValueError "at least one event is required")
  | first :: _ =>
      raise! ValueError "event tenant does not match trusted tenant context"
        when! existsb (λ e, negb (bool_decide (ev_tenant_id e = ctx_str context))) events ;;
      raise! ValueError "an append batch must target one aggregate"
        when! existsb (λ e, negb (bool_decide (aggregate_id e = aggregate_id first))) events ;;
      raise! ValueError "new events cannot preassign aggregate sequences"
        when! existsb (λ e, negb (aggregate_sequence e =? 0)) events ;;
      raise! ValueError "new events cannot preassign global positions"
        when! existsb (λ e, bool_decide (global_position e ≠ None)) events ;;
      inr tt
  end.

(** The unique keys of [events]. *)
Definition event_conflicts (row old : EventRow) : bool :=
  bool_decide (er_tenant_id row = er_tenant_id old) &&
  (bool_decide (er_event_id row = er_event_id old) ||
   (bool_decide (er_aggregate_id row = er_aggregate_id old) &&
    (er_aggregate_sequence row =? er_aggregate_sequence old)) ||
   match er_idempotency_key row, er_idempotency_key old with
   | Some k, Some k' => bool_decide (k = k')
   | _, _ => false
   end).

(** The column checks of [events] that the envelope type does not imply. *)
Definition event_row_check (row : EventRow) : bool :=
  (0 <? er_aggregate_sequence row) && (0 <? er_schema_version row).

(** [INSERT INTO events]: the position is drawn before the constraints are
    checked. *)
Definition insert_event (event : EventEnvelope) (sequence : Z) : Db unit :=
  let! position := nextval in
  let! recorded := gets w_txn_start in
  let row := _event_insert_values event sequence position recorded in
  let! rows := query t_events in
  let! heads := query t_heads in
  do! raise_if (negb (event_row_check row) || existsb (event_conflicts row) rows
                || bool_decide (heads !! (er_tenant_id row, er_aggregate_id row) = None))
        violates ;;
  execute (upd_events (λ rows, rows ++ [row])).

Fixpoint insert_events (events : list EventEnvelope) (version : Z) : Db Z :=
  match events with
  | [] => ret version
  | e :: rest =>
      do! insert_event e (version + 1) ;;
      insert_events rest (version + 1)
  end.

(** [INSERT INTO outbox_messages] with the column defaults. *)
Definition outbox_row (m : OutboxMessage) : OutboxRow :=
  {| ob_event_id := om_event_id m;
     ob_destination := om_destination m;
     ob_payload := thaw_json (PProxy (om_payload m));
     ob_headers := thaw_json (PProxy (om_headers m));
     ob_status := OB_PENDING;
     ob_available_at := Dt.us (om_available_at m);
     ob_attempt_count := 0;
     ob_max_attempts := om_max_attempts m;
     ob_lease_owner := None;
     ob_lease_expires_at := None;
     ob_published_at := None;
     ob_last_error_code := None |}.

Definition insert_outbox (tenant : string) (m : OutboxMessage) : Db unit :=
  let! outbox := query t_outbox in
  let! rows := query t_events in
  do! raise_if
        (PyStr.is_empty (om_destination m) || (om_max_attempts m <? 1)
         || bool_decide (outbox !! (tenant, om_message_id m) ≠ None)
         || match om_event_id m with
            | Some id => negb (existsb (λ r, bool_decide (er_tenant_id r = tenant)
                                            && bool_decide (er_event_id r = id)) rows)
            | None => false
            end) violates ;;
  execute (upd_outbox <[(tenant, om_message_id m) := outbox_row m]>).

Definition _append_in_transaction (events : list EventEnvelope) (expected_version : Z)
    (outbox : list OutboxMessage) : Db Z :=
  match events with
  | [] => raise (KeyError "events[0]")
  | first :: _ =>
      let tenant := ev_tenant_id first in
      let stream := (tenant, aggregate_id first) in
      let! tenants := query t_tenants in
      do! raise_if (bool_decide (tenant ∉ tenants)) violates ;;
      do! execute (upd_commit_locks (λ l, {[tenant]} ∪ l)) ;;
      do! execute (upd_heads (λ h, match h !! stream with
                                   | Some _ => h
                                   | None => <[stream := 0]> h
                                   end)) ;;
      let! head := query (λ t, t_heads t !! stream) in
      match head with
      | None => raise (PermanentStorageError "aggregate head could not be established")
      | Some actual_version =>
          do! raise_if (negb (actual_version =? expected_version))
                (ConcurrencyError expected_version actual_version) ;;
          let! version := insert_events events expected_version in
          do! execute (upd_heads <[stream := version]>) ;;
          do! for_each outbox (insert_outbox tenant) ;;
          ret version
      end
  end.

(** [PostgresEventStore.append] *)
Definition append (context : TenantContext) (events : list EventEnvelope)
    (expected_version : Z) (outbox : list OutboxMessage) : Db Z :=
  do! lift (_validate_append context events expected_version) ;;
  storage_guard (transaction (_append_in_transaction events expected_version outbox)).

(** [PostgresEventStore.append_atomic] *)
Definition append_atomic (context : TenantContext) (events : list EventEnvelope)
    (expected_version : Z) (mutation : Db unit) (outbox : list OutboxMessage) : Db Z :=
  do! lift (_validate_append context events expected_version) ;;
  storage_guard (transaction (
    let! version := _append_in_transaction events expected_version outbox in
    do! mutation ;;
    ret version)).

(** [PostgresEventStore.append_from_inbox] *)
Definition append_from_inbox (context : TenantContext) (source message_id : string)
    (events : list EventEnvelope) (expected_version : Z)
    (outbox : list OutboxMessage) (mutation : option (Db unit)) : Db AppendResult :=
  do! raise_if (PyStr.is_empty source || PyStr.is_empty message_id)
        (ValueError "inbox source and message_id are required") ;;
  do! lift (_validate_append context events expected_version) ;;
  let key := (ctx_str context, source, message_id) in
  storage_guard (transaction (
    let! tenants := query t_tenants in
    let! existing := query (λ t, t_inbox t !! key) in
    match existing with
    | Some (Some version) => ret (mkAppendResult version true)
    | Some None =>
        raise (PermanentStorageError "duplicate inbox record has no committed result")
    | None =>
        do! raise_if (bool_decide (ctx_str context ∉ tenants)) violates ;;
        do! execute (upd_inbox <[key := None]>) ;;
        let! version := _append_in_transaction events expected_version outbox in
        do! execute (upd_inbox <[key := Some version]>) ;;
        do! match mutation with Some m => m | None => ret tt end ;;
        ret (mkAppendResult version false)
    end)).

(** The fence test of [append_fenced]: the lease row with this token and
    generation, unreleased and unexpired at [now]. *)
Definition lease_current (row : LeaseRow) (token : uuid) (generation now : Z) : bool :=
  bool_decide (le_lease_token row = token) && (le_generation row =? generation)
  && bool_decide (le_released_at row = None) && (now <? le_expires_at row).

(** [PostgresEventStore.append_fenced] *)
Definition append_fenced (context : TenantContext) (events : list EventEnvelope)
    (expected_version : Z) (work_id lease_token : uuid) (lease_generation : Z)
    (at_ : Dt.datetime) (outbox : list OutboxMessage) (mutation : option (Db unit))
    : Db Z :=
  do! lift (_validate_append context events expected_version) ;;
  do! raise_if (Dt.naive at_ || (lease_generation <? 1))
        (ValueError "valid fence generation and timestamp are required") ;;
  do! raise_if (existsb (λ e, negb (bool_decide (aggregate_id e = Uuid.to_str work_id))) events)
        (ValueError "fenced events must belong to the leased work") ;;
  do! raise_if
        (existsb (λ e, negb (equals_str (dict_get "lease_token" (payload e))
                                        (Uuid.to_str lease_token))
                       || negb (equals_int (dict_get "lease_generation" (payload e))
                                           lease_generation)) events)
        (ValueError "fenced event payload does not match lease") ;;
  storage_guard (transaction (
    let! now := clock_timestamp in
    let! lease := query (λ t, t_work_leases t !! (ctx_str context, work_id)) in
    do! raise_if (match lease with
                  | Some row => negb (lease_current row lease_token lease_generation now)
                  | None => true
                  end) (FencingError lease_generation 0) ;;
    let! version := _append_in_transaction events expected_version outbox in
    do! match mutation with Some m => m | None => ret tt end ;;
    ret version)).

(** ** Readers *)

Definition _validate_page_arguments (cursor limit : Z) : result unit :=
  raise! ValueError "cursor cannot be negative" when! cursor <? 0 ;;
  raise! ValueError "page limit must be between 1 and 1000"
    when! negb ((1 <=? limit) && (limit <=? 1000)) ;;
  inr tt.

Definition seq_leb (a b : EventRow) : bool :=
  er_aggregate_sequence a <=? er_aggregate_sequence b.
Definition pos_leb (a b : EventRow) : bool :=
  er_global_position a <=? er_global_position b.

Definition in_stream (tenant aggregate : string) (r : EventRow) : bool :=
  bool_decide (er_tenant_id r = tenant) && bool_decide (er_aggregate_id r = aggregate).

(** [_READ_STREAM] *)
Definition select_stream (tenant aggregate : string) (after limit : Z) (t : Tables)
    : list EventRow :=
  take (Z.to_nat limit)
    (py_sorted seq_leb
       (List.filter (λ r, in_stream tenant aggregate r && (after <? er_aggregate_sequence r))
                    (t_events t))).

(** The generator of [read_stream]: the events it yields before it finishes
    or raises. *)
Fixpoint yield_stream (rows : list EventRow) (expected : Z)
    : list EventEnvelope * result unit :=
  match rows with
  | [] => ([], inr tt)
  | row :: rest =>
      match _event_from_row row None with
      | inl e => ([], inl e)
      | inr event =>
          let expected := expected + 1 in
          if aggregate_sequence event =? expected then
            let '(more, r) := yield_stream rest expected in (event :: more, r)
          else ([], inl (ReplayCorruptionError "aggregate sequence gap"))
      end
  end.

Definition read_stream (context : TenantContext) (aggregate : string)
    (after_version limit : Z) : Db (list EventEnvelope * result unit) :=
  do! lift (_validate_page_arguments after_version limit) ;;
  let! rows := storage_guard (transaction (
    query (select_stream (ctx_str context) aggregate after_version limit))) in
  ret (yield_stream rows after_version).

Definition current_version (context : TenantContext) (aggregate : string) : Db Z :=
  do! raise_if (PyStr.is_empty aggregate) (ValueError "aggregate_id is required") ;;
  storage_guard (transaction (
    query (λ t, default 0 (t_heads t !! (ctx_str context, aggregate))))).

(** [lag(aggregate_sequence) OVER (PARTITION BY tenant_id, aggregate_id ORDER
    BY aggregate_sequence)]: the greatest smaller sequence of the stream. *)
Definition lag_sequence (rows : list EventRow) (r : EventRow) : option Z :=
  foldr (λ o acc,
    if in_stream (er_tenant_id r) (er_aggregate_id r) o
       && (er_aggregate_sequence o <? er_aggregate_sequence r)
    then Some (match acc with
               | Some m => Z.max m (er_aggregate_sequence o)
               | None => er_aggregate_sequence o
               end)
    else acc) None rows.

(** [_READ_ALL] *)
Definition select_all (tenant : string) (after limit : Z) (t : Tables)
    : list (EventRow * option Z) :=
  let owned := List.filter (λ r, bool_decide (er_tenant_id r = tenant)) (t_events t) in
  map (λ r, (r, lag_sequence owned r))
    (take (Z.to_nat limit)
       (py_sorted pos_leb (List.filter (λ r, after <? er_global_position r) owned))).

Fixpoint rows_to_events (rows : list (EventRow * option Z)) : result (list EventEnvelope) :=
  match rows with
  | [] => inr []
  | (row, previous) :: rest =>
      let? e := _event_from_row row previous in
      let? es := rows_to_events rest in
      inr (e :: es)
  end.

Fixpoint check_gaps (rows : list (EventRow * option Z)) (events : list EventEnvelope)
    : result unit :=
  match rows, events with
  | (_, previous) :: rows', e :: events' =>
      let expected := match previous with None => 1 | Some p => p + 1 end in
      raise! ReplayCorruptionError "aggregate sequence gap"
        when! negb (aggregate_sequence e =? expected) ;;
      check_gaps rows' events'
  | _, _ => inr tt
  end.

Definition read_all (context : TenantContext) (after_position limit : Z) : Db EventPage :=
  do! lift (_validate_page_arguments after_position limit) ;;
  let! rows := storage_guard (transaction (
    query (select_all (ctx_str context) after_position limit))) in
  let! events := lift (rows_to_events rows) in
  do! lift (check_gaps rows events) ;;
  ret (mkEventPage events
         (if Z.of_nat (length events) =? limit
          then last events ≫= global_position
          else None)).

(** ** Outbox *)

(** Which rows [_CLAIM_OUTBOX_*] may take at [now]. *)
Definition claimable (tenant : string) (destination : option string) (now : Z)
    (key : string * uuid) (r : OutboxRow) : bool :=
  bool_decide (key.1 = tenant)
  && match destination with Some d => bool_decide (ob_destination r = d) | None => true end
  && bool_decide (ob_status r ∈ [OB_PENDING; OB_LEASED])
  && ((ob_attempt_count r <? ob_max_attempts r)
      || (bool_decide (ob_status r = OB_LEASED) && bool_decide (ob_last_error_code r = None)))
  && (ob_available_at r <=? now)
  && match ob_lease_expires_at r with None => true | Some e => e <=? now end.

(** [ORDER BY available_at, message_id] *)
Definition claim_leb (a b : (string * uuid) * OutboxRow) : bool :=
  (ob_available_at a.2 <? ob_available_at b.2)
  || ((ob_available_at a.2 =? ob_available_at b.2) && N.leb a.1.2 b.1.2).

Definition lease_row (owner : string) (expires : Z) (r : OutboxRow) : OutboxRow :=
  {| ob_event_id := ob_event_id r; ob_destination := ob_destination r;
     ob_payload := ob_payload r; ob_headers := ob_headers r;
     ob_status := OB_LEASED; ob_available_at := ob_available_at r;
     ob_attempt_count := ob_attempt_count r + 1; ob_max_attempts := ob_max_attempts r;
     ob_lease_owner := Some owner; ob_lease_expires_at := Some expires;
     ob_published_at := ob_published_at r; ob_last_error_code := None |}.

Definition claim_candidates (tenant : string) (destination : option string) (now limit : Z)
    (t : Tables) : list ((string * uuid) * OutboxRow) :=
  take (Z.to_nat limit)
    (py_sorted claim_leb
       (List.filter (λ kv, claimable tenant destination now kv.1 kv.2)
                    (map_to_list (t_outbox t)))).

(** The message of a leased row; the checks of [OutboxMessage.__post_init__]
    hold of every row by the CHECK constraints of [outbox]. *)
Definition claimed_message (owner : string) (expires : Z)
    (kv : (string * uuid) * OutboxRow) : ClaimedOutboxMessage :=
  let r := lease_row owner expires kv.2 in
  mkClaimed
    (mkOutboxMessage kv.1.2 (ob_destination r) (as_mapping (ob_payload r))
       (as_mapping (ob_headers r)) (Dt.Aware (ob_available_at r)) (ob_max_attempts r)
       (ob_event_id r))
    (ob_attempt_count r) owner expires.

Definition claim_outbox (context : TenantContext) (lease_owner : string)
    (lease_expires_at now : Dt.datetime) (limit : Z) (destination : option string)
    : Db (list ClaimedOutboxMessage) :=
  let! lease_duration := lift (Dt.sub lease_expires_at now) in
  do! raise_if (PyStr.is_empty lease_owner || Dt.naive now
                || negb ((Dt.second <=? lease_duration)
                         && (lease_duration <=? 3600 * Dt.second)))
        (ValueError "valid lease owner and future expiry are required") ;;
  do! raise_if (negb ((1 <=? limit) && (limit <=? 100)))
        (ValueError "outbox claim limit must be between 1 and 100") ;;
  storage_guard (transaction (
    let! at_ := clock_timestamp in
    let expires := at_ + lease_duration in
    let! candidates :=
      query (claim_candidates (ctx_str context) destination at_ limit) in
    do! execute (upd_outbox (λ o,
          foldr (λ kv acc, <[kv.1 := lease_row lease_owner expires kv.2]> acc) o
                candidates)) ;;
    ret (map (claimed_message lease_owner expires) candidates))).

(** The row a publisher may still settle: leased under this owner and expiry. *)
Definition holds_outbox_lease (owner : string) (expires : Z) (r : OutboxRow) : bool :=
  bool_decide (ob_status r = OB_LEASED) && bool_decide (ob_lease_owner r = Some owner)
  && bool_decide (ob_lease_expires_at r = Some expires).

(** [_update_outbox_state]: exactly one row must match. *)
Definition _update_outbox_state (context : TenantContext) (message_id : uuid)
    (owner : string) (expires : Z) (f : OutboxRow → OutboxRow) : Db unit :=
  let key := (ctx_str context, message_id) in
  storage_guard (transaction (
    let! row := query (λ t, t_outbox t !! key) in
    match row with
    | Some r =>
        if holds_outbox_lease owner expires r
        then execute (upd_outbox <[key := f r]>)
        else raise (ConcurrencyError 1 0)
    | None => raise (ConcurrencyError 1 0)
    end)).

Definition mark_outbox_published (context : TenantContext) (message_id : uuid)
    (lease_owner : string) (lease_expires_at : Z) (published_at : Dt.datetime) : Db unit :=
  _update_outbox_state context message_id lease_owner lease_expires_at (λ r,
    {| ob_event_id := ob_event_id r; ob_destination := ob_destination r;
       ob_payload := ob_payload r; ob_headers := ob_headers r;
       ob_status := OB_PUBLISHED; ob_available_at := ob_available_at r;
       ob_attempt_count := ob_attempt_count r; ob_max_attempts := ob_max_attempts r;
       ob_lease_owner := None; ob_lease_expires_at := None;
       ob_published_at := Some (Dt.us published_at);
       ob_last_error_code := ob_last_error_code r |}).

Definition bounded_code (code : string) : bool :=
  negb (PyStr.is_empty code) && (PyStr.len code <=? 128).

Definition mark_outbox_failed (context : TenantContext) (message_id : uuid)
    (lease_owner : string) (lease_expires_at : Z) (retry_at : Dt.datetime)
    (error_code : string) : Db unit :=
  do! raise_if (negb (bounded_code error_code))
        (ValueError "bounded error_code is required") ;;
  _update_outbox_state context message_id lease_owner lease_expires_at (λ r,
    {| ob_event_id := ob_event_id r; ob_destination := ob_destination r;
       ob_payload := ob_payload r; ob_headers := ob_headers r;
       ob_status := if ob_max_attempts r <=? ob_attempt_count r
                    then OB_DEAD_LETTER else OB_PENDING;
       ob_available_at := Dt.us retry_at;
       ob_attempt_count := ob_attempt_count r; ob_max_attempts := ob_max_attempts r;
       ob_lease_owner := None; ob_lease_expires_at := None;
       ob_published_at := ob_published_at r; ob_last_error_code := Some error_code |}).

Definition mark_outbox_dead_lettered (context : TenantContext) (message_id : uuid)
    (lease_owner : string) (lease_expires_at : Z) (error_code : string) : Db unit :=
  do! raise_if (negb (bounded_code error_code))
        (ValueError "bounded error_code is required") ;;
  _update_outbox_state context message_id lease_owner lease_expires_at (λ r,
    {| ob_event_id := ob_event_id r; ob_destination := ob_destination r;
       ob_payload := ob_payload r; ob_headers := ob_headers r;
       ob_status := OB_DEAD_LETTER; ob_available_at := ob_available_at r;
       ob_attempt_count := ob_attempt_count r; ob_max_attempts := ob_max_attempts r;
       ob_lease_owner := None; ob_lease_expires_at := None;
       ob_published_at := ob_published_at r; ob_last_error_code := Some error_code |}).
