(* ===== verification/Ledger.v ===== *)
(** * Correctness of the event ledger

    The invariant of the ledger tables and that every append keeps it; what
    an append commits; the row round trip; gapless reads; exactly-once inbox
    appends; fenced appends; and the outbox lease protocol. *)

From stdpp Require Import base gmap sets list strings pretty.
From Stdlib Require Import ZArith Lia Sorted.
From S2P Require Import Prelude PyLib Json Events Identity Work Database EventStore.

Local Open Scope Z_scope.

(** ** Rows and envelopes *)

(** What the constructors guarantee of an event built by the application:
    the envelope's and its components' invariants. *)
Record event_valid (e : EventEnvelope) : Prop := {
  ev_wf : envelope_wf e;
  ev_actor : ∀ a, actor e = Some a → actor_id a ≠ ""%string;
  ev_trace : ∀ t, trace_context e = Some t → traceparent t ≠ ""%string;
}.

(** The envelope a reader sees for a committed event. *)
Definition committed (e : EventEnvelope) (sequence position recorded : Z)
    (previous : option Z) : EventEnvelope :=
  {| event_id := event_id e; ev_tenant_id := ev_tenant_id e;
     aggregate_id := aggregate_id e; event_type := event_type e;
     schema_version := schema_version e; occurred_at := occurred_at e;
     payload := payload e; correlation_id := correlation_id e;
     causation_id := causation_id e; aggregate_sequence := sequence;
     global_position := Some position; recorded_at := Some (Dt.Aware recorded);
     actor := actor e; identity_reference := identity_reference e;
     policy_reference := policy_reference e; audit_reference := audit_reference e;
     idempotency_key := idempotency_key e; trace_context := trace_context e;
     previous_aggregate_sequence := previous; metadata := metadata e |}.

(** The columns other than the two JSON ones, read back. *)
Lemma row_envelope_init e sequence position recorded previous :
  event_valid e → 0 < sequence → 0 < position →
  (∀ p, previous = Some p → 0 ≤ p) →
  EventEnvelope_post_init
    (set_payload_metadata (committed e sequence position recorded previous)
       (as_mapping (thaw_json (PProxy (payload e))))
       (as_mapping (thaw_json (PProxy (metadata e))))) =
  inr (committed e sequence position recorded previous).
Proof.
  intros [[Hs Ht Ha He Ho Hr Hseq Hpos Hprev Hk Hp Hm] _ _] Hsq Hps Hpr.
  assert (Hwf : envelope_wf (committed e sequence position recorded previous)).
  { split; simpl; try done; try lia; naive_solver lia. }
  pose proof (post_init_idem _ Hwf) as Hid. unfold EventEnvelope_post_init in *.
  cbn -[freeze_json_mapping thaw_json] in *.
  rewrite (freeze_mapping_id (payload e)), (freeze_mapping_id (metadata e)) in Hid by done.
  cbn [thaw_json as_mapping].
  rewrite !freeze_thaw_mapping by done. exact Hid.
Qed.

Lemma event_row_roundtrip e sequence position recorded previous :
  event_valid e → 0 < sequence → 0 < position →
  (∀ p, previous = Some p → 0 ≤ p) →
  _event_from_row (_event_insert_values e sequence position recorded) previous =
  inr (committed e sequence position recorded previous).
Proof.
  intros Hv Hsq Hps Hpr.
  pose proof (row_envelope_init e sequence position recorded previous Hv Hsq Hps Hpr) as Hinit.
  destruct Hv as [Hwf Hact Htr].
  assert (Hdt : Dt.Aware (Dt.us (occurred_at e)) = occurred_at e).
  { pose proof (wf_occurred _ Hwf) as Hn. by destruct (occurred_at e). }
  unfold _event_from_row, _event_insert_values, set_payload_metadata, committed in *.
  cbn -[EventEnvelope_post_init thaw_json sc_new] in *. rewrite Hdt.
  destruct (actor e) as [[id []]|]; destruct (trace_context e) as [[tp ts]|];
    try (specialize (Hact _ eq_refl)); try (specialize (Htr _ eq_refl));
    cbn [actor_id traceparent] in *;
    try (destruct id; [done|]); try (destruct tp; [done|]); exact Hinit.
Qed.

(** ** The ledger invariant *)

(** Rows of one stream, oldest first. *)
Definition stream_rows (tenant aggregate : string) (rows : list EventRow) : list EventRow :=
  List.filter (in_stream tenant aggregate) rows.

(** A stored row is the row of some valid event. *)
Definition row_ok (r : EventRow) : Prop :=
  ∃ e, event_valid e ∧
    r = _event_insert_values e (er_aggregate_sequence r) (er_global_position r)
          (er_recorded_at r).

(** Two rows in the order they were inserted. *)
Definition row_order (old new : EventRow) : Prop :=
  er_global_position old < er_global_position new ∧ event_conflicts new old = false.

(** The sequences of a stream of [n] events. *)
Definition sequences (n : nat) : list Z := map Z.of_nat (seq 1 n).

Record ledger_ok (w : World) : Prop := {
  lo_streams : ∀ tenant aggregate,
    ∃ n, map er_aggregate_sequence (stream_rows tenant aggregate (t_events (w_db w)))
           = sequences n ∧
         default 0 (t_heads (w_db w) !! (tenant, aggregate)) = Z.of_nat n;
  lo_order : StronglySorted row_order (t_events (w_db w));
  lo_positions : Forall (λ r, 0 < er_global_position r ≤ w_position w) (t_events (w_db w));
  lo_rows : Forall row_ok (t_events (w_db w));
  lo_position : 0 ≤ w_position w;
}.

(** Only the ledger tables and the position sequence matter. *)
Lemma ledger_ok_ext w w' :
  t_events (w_db w') = t_events (w_db w) →
  t_heads (w_db w') = t_heads (w_db w) →
  w_position w ≤ w_position w' →
  ledger_ok w → ledger_ok w'.
Proof.
  intros He Hh Hp [Hs Ho Hps Hr Hpos]. split; rewrite ?He, ?Hh; try done; [|lia].
  eapply Forall_impl; [exact Hps|]. simpl. lia.
Qed.

(** ** What an append commits *)

Fixpoint new_rows (events : list EventEnvelope) (version position recorded : Z)
    : list EventRow :=
  match events with
  | [] => []
  | e :: rest =>
      _event_insert_values e (version + 1) (position + 1) recorded
      :: new_rows rest (version + 1) (position + 1) recorded
  end.

Lemma new_rows_length events v p r : length (new_rows events v p r) = length events.
Proof. revert v p. induction events as [|e es IH]; intros v p; simpl; auto. Qed.

Lemma new_rows_elem events v p r row :
  row ∈ new_rows events v p r →
  ∃ e, e ∈ events ∧ row = _event_insert_values e (er_aggregate_sequence row)
         (er_global_position row) (er_recorded_at row) ∧
       p < er_global_position row ≤ p + Z.of_nat (length events) ∧
       v < er_aggregate_sequence row.
Proof.
  revert v p. induction events as [|e es IH]; intros v p; simpl; intros Hin.
  - by apply not_elem_of_nil in Hin.
  - apply elem_of_cons in Hin as [->|Hin].
    + exists e. split; [left|]. split; [done|]. simpl. lia.
    + destruct (IH _ _ Hin) as (e' & He & Hrow & Hp & Hv). exists e'.
      split; [by right|]. split; [done|]. lia.
Qed.

Lemma new_rows_sequences events v p r :
  map er_aggregate_sequence (new_rows events v p r) =
  map (λ k, v + Z.of_nat k) (seq 1 (length events)).
Proof.
  revert v p. induction events as [|e es IH]; intros v p; simpl; [done|].
  f_equal. rewrite IH. rewrite <- (seq_shift (length es) 1), map_map.
  apply map_ext. intros k. lia.
Qed.

(** Everything but the event rows and the sequence value is untouched. *)
Definition with_rows (w : World) (rows : list EventRow) : World :=
  {| w_db := upd_events (λ old, old ++ rows) (w_db w);
     w_position := w_position w + Z.of_nat (length rows);
     w_clock := w_clock w; w_tick := w_tick w; w_uuids := w_uuids w;
     w_draw := w_draw w; w_txn_start := w_txn_start w;
     w_cell := w_cell w; w_maintenance := w_maintenance w |}.

Lemma with_rows_nil w : with_rows w [] = w.
Proof.
  destruct w as [[] ?]. unfold with_rows, upd_events. simpl.
  by rewrite app_nil_r, Z.add_0_r.
Qed.

Lemma with_rows_app w r1 r2 : with_rows (with_rows w r1) r2 = with_rows w (r1 ++ r2).
Proof.
  destruct w as [[] ?]. unfold with_rows, upd_events. simpl.
  rewrite app_assoc, length_app. f_equal. lia.
Qed.

Definition row_fits (rows : list EventRow) (row : EventRow) : Prop :=
  event_row_check row = true ∧ Forall (λ old, event_conflicts row old = false) rows.

Lemma existsb_false_Forall {A} (f : A → bool) l :
  existsb f l = false ↔ Forall (λ x, f x = false) l.
Proof.
  induction l as [|x l IH]; simpl.
  - split; [constructor|done].
  - rewrite orb_false_iff, IH, Forall_cons. done.
Qed.

Lemma insert_event_ok e v w u w' :
  insert_event e v w = (inr u, w') →
  let row := _event_insert_values e v (w_position w + 1) (w_txn_start w) in
  row_fits (t_events (w_db w)) row ∧
  is_Some (t_heads (w_db w) !! (ev_tenant_id e, aggregate_id e)) ∧
  w' = with_rows w [row].
Proof.
  unfold insert_event, query, execute. intros H. unfold nextval in H. py_inv. bool_props.
  split; [|split].
  - split; [done|]. by apply existsb_false_Forall.
  - by apply not_eq_None_Some.
  - unfold with_rows, set_db. simpl. f_equal.
Qed.

Lemma insert_events_ok events v w v' w' :
  insert_events events v w = (inr v', w') →
  let rows := new_rows events v (w_position w) (w_txn_start w) in
  v' = v + Z.of_nat (length events) ∧ w' = with_rows w rows ∧
  (∀ pre row post, rows = pre ++ row :: post → row_fits (t_events (w_db w) ++ pre) row).
Proof.
  revert v w. induction events as [|e es IH]; intros v w H; simpl in H.
  - py_inv. split; [lia|]. split; [by rewrite with_rows_nil|]. intros [|] ? ?; done.
  - apply bind_ok in H as ([] & w1 & H1 & H2).
    apply insert_event_ok in H1 as (Hfit & _ & ->).
    apply IH in H2 as (-> & -> & Hrest). clear IH. simpl in *. split; [lia|].
    rewrite with_rows_app. split; [done|].
    intros [|r0 pre] row post Heq; simpl in Heq; injection Heq as <- Heq.
    + by rewrite app_nil_r.
    + specialize (Hrest _ _ _ Heq). by rewrite <- app_assoc in Hrest.
Qed.

Definition outbox_after (tenant : string) (msgs : list OutboxMessage)
    (o : gmap (string * uuid) OutboxRow) : gmap (string * uuid) OutboxRow :=
  foldl (λ acc m, <[(tenant, om_message_id m) := outbox_row m]> acc) o msgs.

Lemma set_db_set_db f g w : set_db f (set_db g w) = set_db (λ t, f (g t)) w.
Proof. done. Qed.

Lemma insert_outbox_all_ok tenant msgs w u w' :
  for_each msgs (insert_outbox tenant) w = (inr u, w') →
  w' = set_db (upd_outbox (outbox_after tenant msgs)) w ∧
  Forall (λ m, t_outbox (w_db w) !! (tenant, om_message_id m) = None) msgs.
Proof.
  revert w. induction msgs as [|m msgs IH]; intros w H; simpl in H.
  - injection H as <- <-. split; [|constructor]. by destruct w as [[] ?].
  - apply bind_ok in H as ([] & w1 & H1 & H2).
    unfold insert_outbox, query, execute in H1. py_inv. bool_props.
    apply IH in H2 as [-> Hfresh]. split.
    + by rewrite set_db_set_db.
    + apply Forall_cons. split.
      * destruct (t_outbox _ !! _) eqn:Hl; [|done]. exfalso.
        match goal with H : ¬ _ ≠ None |- _ => apply H; done end.
      * eapply Forall_impl; [exact Hfresh|]. simpl. intros m' Hm'.
        by apply lookup_insert_None in Hm' as [? _].
Qed.

(** The tables after [_append_in_transaction]. *)
Definition append_tables (t : Tables) (stream : string * string) (version : Z)
    (rows : list EventRow) (outbox : list OutboxMessage) : Tables :=
  {| t_tenants := t_tenants t; t_commit_locks := {[stream.1]} ∪ t_commit_locks t;
     t_heads := <[stream := version]> (t_heads t);
     t_events := t_events t ++ rows;
     t_inbox := t_inbox t; t_outbox := outbox_after stream.1 outbox (t_outbox t);
     t_work_items := t_work_items t; t_work_leases := t_work_leases t;
     t_dead_letters := t_dead_letters t; t_approvals := t_approvals t;
     t_views := t_views t; t_budgets := t_budgets t |}.

Definition append_world (w : World) (stream : string * string) (version : Z)
    (rows : list EventRow) (outbox : list OutboxMessage) : World :=
  {| w_db := append_tables (w_db w) stream version rows outbox;
     w_position := w_position w + Z.of_nat (length rows);
     w_clock := w_clock w; w_tick := w_tick w; w_uuids := w_uuids w;
     w_draw := w_draw w; w_txn_start := w_txn_start w;
     w_cell := w_cell w; w_maintenance := w_maintenance w |}.

Lemma append_in_transaction_ok events expected outbox w v w' :
  _append_in_transaction events expected outbox w = (inr v, w') →
  ∃ first rest,
    events = first :: rest ∧
    let stream := (ev_tenant_id first, aggregate_id first) in
    let rows := new_rows events expected (w_position w) (w_txn_start w) in
    ev_tenant_id first ∈ t_tenants (w_db w) ∧
    default 0 (t_heads (w_db w) !! stream) = expected ∧
    v = expected + Z.of_nat (length events) ∧
    w' = append_world w stream v rows outbox ∧
    (∀ pre row post, rows = pre ++ row :: post → row_fits (t_events (w_db w) ++ pre) row) ∧
    Forall (λ m, t_outbox (w_db w) !! (ev_tenant_id first, om_message_id m) = None) outbox.
Proof.
  destruct events as [|first rest]; [done|]. intros H. exists first, rest. split; [done|].
  unfold _append_in_transaction, query, execute in H.
  cbv iota zeta in H. set (events := first :: rest) in *. clearbody events.
  set (stream := (ev_tenant_id first, aggregate_id first)) in *.
  py_inv. bool_props.
  destruct (match t_heads (w_db w) !! stream with
            | Some _ => _ | None => _ end !! stream) as [actual|] eqn:Hhead; [|done].
  py_inv. bool_props. subst actual.
  match goal with Hi : insert_events _ _ _ = _ |- _ =>
    apply insert_events_ok in Hi as (-> & -> & Hfits) end.
  match goal with Ho : for_each _ _ _ = _ |- _ =>
    apply insert_outbox_all_ok in Ho as [-> Hfresh] end.
  simpl in *. split; [by apply dec_stable|].
  split; [destruct (t_heads (w_db w) !! stream) eqn:E; simpl;
    [congruence|rewrite lookup_insert_eq in Hhead; congruence]|].
  split; [done|]. split; [|done].
  unfold append_world, append_tables, set_db, upd_outbox, upd_heads, upd_events,
    upd_commit_locks. simpl. f_equal. f_equal.
  destruct (t_heads (w_db w) !! stream) eqn:E; [done|]. by rewrite insert_insert_eq.
Qed.

Lemma validate_append_ok context events expected u :
  _validate_append context events expected = inr u →
  0 ≤ expected ∧ events ≠ [] ∧
  ∃ agg, Forall (λ e, ev_tenant_id e = ctx_str context ∧ aggregate_id e = agg ∧
                      aggregate_sequence e = 0 ∧ global_position e = None) events.
Proof.
  unfold _validate_append. destruct events as [|first rest]; intros H; py_inv.
  bool_props. split; [done|]. split; [done|]. exists (aggregate_id first).
  rewrite Forall_forall. intros e He.
  repeat match goal with H : existsb _ rest = false |- _ =>
    apply existsb_false_Forall in H; rewrite Forall_forall in H; specialize (H e) end.
  apply elem_of_cons in He as [->|He]; bool_props.
  - repeat split; auto. by apply dec_stable.
  - repeat match goal with H : e ∈ rest → _ |- _ => specialize (H He) end. bool_props.
    repeat split; auto. by apply dec_stable.
Qed.

(** ** Every append keeps the invariant *)

Lemma new_rows_split events v p r pre row post :
  new_rows events v p r = pre ++ row :: post →
  er_global_position row = p + Z.of_nat (length pre) + 1 ∧
  Forall (λ old, er_global_position old < er_global_position row) pre.
Proof.
  revert v p pre. induction events as [|e es IH]; intros v p pre Heq; simpl in Heq.
  - by destruct pre.
  - destruct pre as [|r0 pre]; simpl in Heq; injection Heq as <- Heq.
    + split; [simpl; lia|constructor].
    + apply IH in Heq as [Hpos Hall]. rewrite Hpos. simpl. split; [lia|].
      apply Forall_cons. split; [simpl; lia|]. eapply Forall_impl; [exact Hall|].
      simpl. intros o Ho. lia.
Qed.

Lemma stream_rows_new tenant agg tenant' agg' events v p r :
  Forall (λ e, ev_tenant_id e = tenant ∧ aggregate_id e = agg) events →
  stream_rows tenant' agg' (new_rows events v p r) =
  if bool_decide ((tenant', agg') = (tenant, agg)) then new_rows events v p r else [].
Proof.
  intros Hall. revert v p. induction Hall as [|e es [Ht Ha] _ IH]; intros v p; simpl.
  - by case_bool_decide.
  - rewrite IH. unfold in_stream. simpl. rewrite Ht, Ha.
    repeat case_bool_decide; simpl; naive_solver.
Qed.

Lemma shift_seq n m k :
  map (λ i, Z.of_nat n + Z.of_nat i) (seq m k) = map Z.of_nat (seq (m + n) k).
Proof.
  revert m. induction k as [|k IH]; intros m; [done|]. simpl.
  f_equal; [lia|]. apply (IH (S m)).
Qed.

Lemma sequences_app n k :
  sequences n ++ map (λ i, Z.of_nat n + Z.of_nat i) (seq 1 k) = sequences (n + k).
Proof. unfold sequences. by rewrite seq_app, map_app, shift_seq. Qed.

Lemma append_world_ledger_ok w tenant agg events outbox :
  ledger_ok w →
  Forall event_valid events →
  Forall (λ e, ev_tenant_id e = tenant ∧ aggregate_id e = agg) events →
  let expected := default 0 (t_heads (w_db w) !! (tenant, agg)) in
  let rows := new_rows events expected (w_position w) (w_txn_start w) in
  (∀ pre row post, rows = pre ++ row :: post → row_fits (t_events (w_db w) ++ pre) row) →
  ledger_ok (append_world w (tenant, agg) (expected + Z.of_nat (length events)) rows outbox).
Proof.
  intros [Hs Ho Hps Hr Hpos] Hval Htgt expected rows Hfits.
  split; simpl.
  - intros tenant' agg'. unfold stream_rows in *. rewrite List.filter_app, map_app.
    fold (stream_rows tenant' agg' (t_events (w_db w))) (stream_rows tenant' agg' rows).
    destruct (Hs tenant' agg') as (n & Hn & Hhead). unfold rows.
    rewrite (stream_rows_new tenant agg) by done.
    destruct (decide ((tenant', agg') = (tenant, agg))) as [Heq|Hne].
    + rewrite bool_decide_true by done. injection Heq as -> ->. exists (n + length events)%nat.
      unfold stream_rows. rewrite lookup_insert_eq, new_rows_sequences, Hn. simpl.
      unfold expected. rewrite Hhead. split; [apply sequences_app|lia].
    + rewrite bool_decide_false by done. exists n. unfold stream_rows.
      rewrite app_nil_r, lookup_insert_ne by congruence. done.
  - apply StronglySorted_alt. intros pre row post Heq.
    apply app_split_cons in Heq as [(q & Hq & _)|(q & -> & Hq)].
    + rewrite StronglySorted_alt in Ho. by eapply Ho.
    + destruct (Hfits _ _ _ Hq) as [_ Hconf].
      destruct (new_rows_split _ _ _ _ _ _ _ Hq) as [Hp Hlt].
      apply Forall_app in Hconf as [Hc1 Hc2]. apply Forall_app. split.
      * rewrite Forall_forall in *. intros old Hold. split; [|by apply Hc1].
        specialize (Hps _ Hold). simpl in Hps. lia.
      * rewrite Forall_forall in *. intros old Hold. split; auto.
  - apply Forall_app. split.
    + eapply Forall_impl; [exact Hps|]. simpl. lia.
    + rewrite Forall_forall. intros row Hrow.
      apply new_rows_elem in Hrow as (e & _ & _ & Hb & _).
      unfold rows. rewrite new_rows_length. lia.
  - apply Forall_app. split; [done|]. rewrite Forall_forall in *. intros row Hrow.
    apply new_rows_elem in Hrow as (e & He & Heq & _). exists e.
    split; [by eapply Forall_forall in Hval|done].
  - lia.
Qed.

(** ** Frames: what a statement cannot do to the ledger *)

(** The sequence only moves forward, whatever the outcome. *)
Definition pos_mono {A} (m : Db A) : Prop :=
  ∀ w r w', m w = (r, w') → w_position w ≤ w_position w'.

(** The statement touches neither events, heads, inbox nor tenants. *)
Definition same_ledger (t t' : Tables) : Prop :=
  t_events t' = t_events t ∧ t_heads t' = t_heads t ∧ t_tenants t' = t_tenants t ∧
  t_inbox t' = t_inbox t.

Definition ledger_neutral {A} (m : Db A) : Prop :=
  ∀ w r w', m w = (r, w') →
    same_ledger (w_db w) (w_db w') ∧ w_position w' = w_position w.

Lemma pos_mono_ret {A} (a : A) : pos_mono (ret a).
Proof. intros w r w' [= <- <-]. lia. Qed.
Lemma pos_mono_raise {A} e : pos_mono (raise (A := A) e).
Proof. intros w r w' [= <- <-]. lia. Qed.
Lemma pos_mono_lift {A} (x : result A) : pos_mono (lift x).
Proof. intros w r w' [= <- <-]. lia. Qed.
Lemma pos_mono_query {A} (f : Tables → A) : pos_mono (query f).
Proof. intros w r w' [= <- <-]. lia. Qed.
Lemma pos_mono_gets {A} (f : World → A) : pos_mono (gets f).
Proof. intros w r w' [= <- <-]. lia. Qed.
Lemma pos_mono_execute f : pos_mono (execute f).
Proof. intros w r w' [= <- <-]. simpl. lia. Qed.
Lemma pos_mono_nextval : pos_mono nextval.
Proof. intros w r w' [= <- <-]. simpl. lia. Qed.
Lemma pos_mono_clock : pos_mono clock_timestamp.
Proof. intros w r w' [= <- <-]. simpl. lia. Qed.
Lemma pos_mono_uuid : pos_mono uuid_factory.
Proof. intros w r w' [= <- <-]. simpl. lia. Qed.
Lemma pos_mono_begin : pos_mono begin.
Proof. intros w r w' [= <- <-]. simpl. lia. Qed.
Lemma pos_mono_raise_if b e : pos_mono (raise_if b e).
Proof. destruct b; [apply pos_mono_raise|apply pos_mono_ret]. Qed.
Lemma pos_mono_bind {A B} (m : Db A) (k : A → Db B) :
  pos_mono m → (∀ a, pos_mono (k a)) → pos_mono (bind m k).
Proof.
  intros Hm Hk w r w'. unfold bind. destruct (m w) as [[e|a] w1] eqn:H.
  - intros [= <- <-]. eauto.
  - intros H2. transitivity (w_position w1); [by eapply Hm|by eapply Hk].
Qed.
Lemma pos_mono_for_each {A} (l : list A) (f : A → Db unit) :
  (∀ x, pos_mono (f x)) → pos_mono (for_each l f).
Proof.
  intros Hf. induction l as [|x l IH]; simpl; [apply pos_mono_ret|].
  by apply pos_mono_bind.
Qed.
Lemma neutral_pos_mono {A} (m : Db A) : ledger_neutral m → pos_mono m.
Proof. intros H w r w' Hm. destruct (H _ _ _ Hm) as [_ ->]. lia. Qed.

#[export] Hint Resolve pos_mono_ret pos_mono_raise pos_mono_lift pos_mono_query
  pos_mono_gets pos_mono_execute pos_mono_nextval pos_mono_clock pos_mono_uuid
  pos_mono_begin pos_mono_raise_if pos_mono_bind pos_mono_for_each
  neutral_pos_mono : aegis.

Lemma insert_events_mono events v : pos_mono (insert_events events v).
Proof.
  revert v. induction events as [|e es IH]; intros v; simpl; [auto with aegis|].
  apply pos_mono_bind; [|auto]. unfold insert_event. eauto 20 with aegis.
Qed.

Lemma append_in_transaction_mono events expected outbox :
  pos_mono (_append_in_transaction events expected outbox).
Proof.
  unfold _append_in_transaction. destruct events as [|first rest]; [auto with aegis|].
  repeat (apply pos_mono_bind; [auto with aegis|intros ?]).
  case_match; [|auto with aegis].
  apply pos_mono_bind; [auto with aegis|intros _].
  apply pos_mono_bind; [apply insert_events_mono|intros v].
  apply pos_mono_bind; [auto with aegis|intros _].
  apply pos_mono_bind; [|auto with aegis].
  apply pos_mono_for_each. intros m. unfold insert_outbox. eauto 20 with aegis.
Qed.

#[export] Hint Resolve insert_events_mono append_in_transaction_mono : aegis.

Lemma neutral_ret {A} (a : A) : ledger_neutral (ret a).
Proof. by intros w r w' [= <- <-]. Qed.

Lemma storage_guard_inv {A} (m : Db A) w r w' :
  storage_guard m w = (r, w') →
  ∃ r', m w = (r', w') ∧ (∀ a, r = inr a ↔ r' = inr a) ∧
        (∀ e, r' = inl e → r = inl (match e with
                                    | PsycopgError c => classify_storage_error c
                                    | _ => e
                                    end)).
Proof.
  unfold storage_guard, catch. destruct (m w) as [[e|a] w1].
  - intros H. exists (inl e). destruct e; unfold raise in H; injection H as <- <-;
      (split; [done|]); split; naive_solver.
  - intros [= <- <-]. exists (inr a). naive_solver.
Qed.

(** A transaction whose body keeps the invariant keeps it on every outcome. *)
Lemma transaction_ledger_ok {A} (body : Db A) w r w' :
  pos_mono body →
  (∀ w a w', ledger_ok w → body w = (inr a, w') → ledger_ok w') →
  ledger_ok w → storage_guard (transaction body) w = (r, w') → ledger_ok w'.
Proof.
  intros Hmono Hbody Hok Hrun.
  apply storage_guard_inv in Hrun as (r' & Hrun & _ & _).
  destruct r' as [e|a].
  - eapply ledger_ok_ext; [..|exact Hok].
    + by rewrite (transaction_err _ _ _ _ Hrun).
    + by rewrite (transaction_err _ _ _ _ Hrun).
    + unfold transaction in Hrun.
      destruct ((do! begin ;; body) w) as [[e'|b] w2] eqn:H; [|done].
      injection Hrun as <- <-. simpl.
      assert (pos_mono (do! begin ;; body)) as Hm by auto with aegis. eauto.
  - apply transaction_ok in Hrun as (w1 & Hb & Hdb & Hrun).
    eapply Hbody; [|exact Hrun].
    unfold begin in Hb. injection Hb as <-.
    eapply ledger_ok_ext; [..|exact Hok]; simpl; try done; lia.
Qed.

Lemma append_in_transaction_ledger context events expected outbox w v w' :
  _validate_append context events expected = inr tt →
  Forall event_valid events →
  ledger_ok w → _append_in_transaction events expected outbox w = (inr v, w') →
  ledger_ok w'.
Proof.
  intros Hval Hev Hok Hrun.
  apply validate_append_ok in Hval as (_ & _ & agg & Hall).
  apply append_in_transaction_ok in Hrun
    as (first & rest & Hevs & _ & Hexp & -> & -> & Hfits & _).
  assert (Htgt : Forall (λ e, ev_tenant_id e = ctx_str context ∧ aggregate_id e = agg) events).
  { eapply Forall_impl; [exact Hall|]. naive_solver. }
  assert (Hfirst : ev_tenant_id first = ctx_str context ∧ aggregate_id first = agg).
  { rewrite Hevs in Htgt. by apply Forall_cons in Htgt as [? _]. }
  destruct Hfirst as [Ht Ha]. rewrite Ht, Ha in *. subst expected.
  by apply append_world_ledger_ok.
Qed.

(** ** The operations of the store as steps *)

Lemma lift_run {A} (r : result A) w x w' : lift (S := World) r w = (x, w') → x = r ∧ w' = w.
Proof. by intros [= <- <-]. Qed.

Lemma guard_ledger {A} (r : result unit) (k : Db A) w x w' :
  ledger_ok w →
  (r = inr tt → k w = (x, w') → ledger_ok w') →
  (do! lift r ;; k) w = (x, w') → ledger_ok w'.
Proof.
  intros Hok Hk. unfold bind, lift. destruct r as [e|[]]; [by intros [= <- <-]|].
  by apply Hk.
Qed.

Lemma raise_guard_ledger {A} b e (k : Db A) w x w' :
  ledger_ok w →
  (b = false → k w = (x, w') → ledger_ok w') →
  (do! raise_if b e ;; k) w = (x, w') → ledger_ok w'.
Proof.
  intros Hok Hk. unfold bind, raise_if. destruct b; [by intros [= <- <-]|].
  by apply Hk.
Qed.

(** A neutral statement keeps the invariant. *)
Lemma neutral_ledger_ok {A} (m : Db A) w r w' :
  ledger_neutral m → ledger_ok w → m w = (r, w') → ledger_ok w'.
Proof.
  intros Hm Hok Hrun. destruct (Hm _ _ _ Hrun) as [(He & Hh & _) Hp].
  eapply ledger_ok_ext; [done..| |exact Hok]. lia.
Qed.

Section NeutralRules.
Lemma neutral_raise {A} e : ledger_neutral (raise (A := A) e).
Proof. by intros w r w' [= <- <-]. Qed.
Lemma neutral_lift {A} (x : result A) : ledger_neutral (lift x).
Proof. by intros w r w' [= <- <-]. Qed.
Lemma neutral_query {A} (f : Tables → A) : ledger_neutral (query f).
Proof. by intros w r w' [= <- <-]. Qed.
Lemma neutral_gets {A} (f : World → A) : ledger_neutral (gets f).
Proof. by intros w r w' [= <- <-]. Qed.
Lemma neutral_clock : ledger_neutral clock_timestamp.
Proof. by intros w r w' [= <- <-]. Qed.
Lemma neutral_uuid : ledger_neutral uuid_factory.
Proof. by intros w r w' [= <- <-]. Qed.
Lemma neutral_cell f : ledger_neutral (set_cell f).
Proof. by intros w r w' [= <- <-]. Qed.
Lemma neutral_raise_if b e : ledger_neutral (raise_if b e).
Proof. destruct b; [apply neutral_raise|apply neutral_ret]. Qed.
Lemma neutral_execute f :
  (∀ t, same_ledger t (f t)) → ledger_neutral (execute f).
Proof. intros H w r w' [= <- <-]. split; [apply H|done]. Qed.
Lemma neutral_bind {A B} (m : Db A) (k : A → Db B) :
  ledger_neutral m → (∀ a, ledger_neutral (k a)) → ledger_neutral (bind m k).
Proof.
  intros Hm Hk w r w'. unfold bind. destruct (m w) as [[e|a] w1] eqn:H.
  - intros [= <- <-]. by eapply Hm.
  - intros H2. destruct (Hm _ _ _ H) as [(? & ? & ? & ?) ?].
    destruct (Hk _ _ _ _ H2) as [(? & ? & ? & ?) ?]. repeat split; congruence.
Qed.
Lemma neutral_for_each {A} (l : list A) (f : A → Db unit) :
  (∀ x, ledger_neutral (f x)) → ledger_neutral (for_each l f).
Proof.
  intros Hf. induction l as [|x l IH]; simpl; [apply neutral_ret|]. by apply neutral_bind.
Qed.
End NeutralRules.

#[export] Hint Resolve neutral_ret neutral_raise neutral_lift neutral_query neutral_gets
  neutral_clock neutral_uuid neutral_cell neutral_raise_if neutral_bind neutral_for_each : aegis.
#[export] Hint Extern 1 (ledger_neutral (execute _)) =>
  (apply neutral_execute; intros; repeat split; done) : aegis.

(** The transactions that append, and then run a mutation that leaves the
    ledger alone. *)
Lemma append_then_ledger {A} context events expected outbox (k : Z → Db A) w r w' :
  _validate_append context events expected = inr tt →
  Forall event_valid events → (∀ v, ledger_neutral (k v)) →
  ledger_ok w →
  (let! v := _append_in_transaction events expected outbox in k v) w = (inr r, w') →
  ledger_ok w'.
Proof.
  intros Hval Hev Hk Hok Hrun. apply bind_ok in Hrun as (v & w1 & H1 & H2).
  eapply neutral_ledger_ok; [apply Hk| |exact H2].
  by eapply append_in_transaction_ledger.
Qed.

Definition neutral_mutation (m : option (Db unit)) : Prop :=
  match m with Some m => ledger_neutral m | None => True end.

Lemma neutral_optional m :
  neutral_mutation m → ledger_neutral match m with Some m => m | None => ret tt end.
Proof. destruct m; auto with aegis. Qed.

#[export] Hint Resolve neutral_optional : aegis.

Lemma append_ledger context events expected outbox w r w' :
  Forall event_valid events → ledger_ok w →
  append context events expected outbox w = (r, w') → ledger_ok w'.
Proof.
  intros Hev Hok. apply guard_ledger; [done|]. intros Hval.
  apply transaction_ledger_ok; [auto with aegis| |done].
  intros ? ? ?. by eapply append_in_transaction_ledger.
Qed.

Lemma append_atomic_ledger context events expected m outbox w r w' :
  Forall event_valid events → ledger_neutral m → ledger_ok w →
  append_atomic context events expected m outbox w = (r, w') → ledger_ok w'.
Proof.
  intros Hev Hm Hok. apply guard_ledger; [done|]. intros Hval.
  apply transaction_ledger_ok; [auto with aegis| |done].
  intros ? ? ? ?. eapply append_then_ledger; [done..| |done]. auto with aegis.
Qed.

Lemma append_from_inbox_ledger context source mid events expected outbox m w r w' :
  Forall event_valid events → neutral_mutation m → ledger_ok w →
  append_from_inbox context source mid events expected outbox m w = (r, w') → ledger_ok w'.
Proof.
  intros Hev Hm Hok. apply raise_guard_ledger; [done|]. intros _.
  apply guard_ledger; [done|]. intros Hval.
  apply transaction_ledger_ok; [| |done].
  - apply pos_mono_bind; [auto with aegis|intros ts].
    apply pos_mono_bind; [auto with aegis|intros [[v|]|]]; auto 12 with aegis.
  - intros w1 a w2 Hok1 Hrun. db_inv.
    destruct (t_inbox (w_db w1) !! _) as [[v|]|]; db_inv; [done|].
    match goal with Ha : _append_in_transaction _ _ _ ?w0 = (_, ?w3),
      Hmut : match m with Some _ => _ | None => _ end ?w4 = _ |- _ =>
      assert (Hok3 : ledger_ok w3);
        [by eapply append_in_transaction_ledger; [..|exact Ha]; [done..|];
            eapply ledger_ok_ext; [..|exact Hok1]
        |eapply neutral_ledger_ok; [by apply neutral_optional| |exact Hmut];
           eapply ledger_ok_ext; [..|exact Hok3]]; done
    end.
Qed.

Lemma append_fenced_ledger context events expected work token gen at_ outbox m w r w' :
  Forall event_valid events → neutral_mutation m → ledger_ok w →
  append_fenced context events expected work token gen at_ outbox m w = (r, w') →
  ledger_ok w'.
Proof.
  intros Hev Hm Hok. apply guard_ledger; [done|]. intros Hval.
  do 3 (apply raise_guard_ledger; [done|]; intros _).
  apply transaction_ledger_ok; [| |done].
  - repeat (apply pos_mono_bind; [auto with aegis|intros ?]). auto with aegis.
  - intros w1 a w2 Hok1 Hrun.
    apply bind_ok in Hrun as (now & w3 & Hc & Hrun).
    apply bind_ok in Hrun as (l & w4 & Hq & Hrun).
    apply bind_ok in Hrun as (u & w5 & Hf & Hrun).
    eapply append_then_ledger; [exact Hval|exact Hev| | |exact Hrun]; [by intros v; apply neutral_bind; auto with aegis|].
    eapply neutral_ledger_ok; [apply neutral_raise_if| |exact Hf].
    eapply neutral_ledger_ok; [apply neutral_query| |exact Hq].
    eapply neutral_ledger_ok; [apply neutral_clock|done|exact Hc].
Qed.
