(* ===== verification/Raises.v ===== *)
(** * Which exceptions a computation raises

    [raises P m]: every exception of [m] is in [P].  Rules for the monad and
    for the statements of the database and of the event store, and the tactic
    [raises_solve] that applies them along the structure of the code. *)

From stdpp Require Import base gmap list strings.
From Stdlib Require Import ZArith Lia.
From S2P Require Import Prelude PyLib Json Events Identity Work Database EventStore.
From S2P Require Import Ledger.

Local Open Scope Z_scope.

Definition raises {S A} (P : exn → Prop) (m : M exn S A) : Prop :=
  ∀ s e s', m s = (inl e, s') → P e.

Definition raises_result {A} (P : exn → Prop) (r : result A) : Prop := ∀ e, r = inl e → P e.

Create HintDb raises.

(** ** Rules of the monad *)

Section Rules.
Context {S : Type} (P : exn → Prop).

Lemma raises_ret {A} (a : A) : raises (S := S) P (ret a).
Proof. by intros s e s' [=]. Qed.
Lemma raises_gets {A} (f : S → A) : raises P (gets f).
Proof. by intros s e s' [=]. Qed.
Lemma raises_modify (f : S → S) : raises P (modify f).
Proof. by intros s e s' [=]. Qed.
Lemma raises_raise {A} e : P e → raises (S := S) (A := A) P (raise e).
Proof. by intros He s e' s' [= <- <-]. Qed.
Lemma raises_raise_if b e : P e → raises (S := S) P (raise_if b e).
Proof. intros He. destruct b; [by apply raises_raise|apply raises_ret]. Qed.
Lemma raises_lift {A} (r : result A) : raises_result P r → raises (S := S) P (lift r).
Proof. intros Hr s e s' [= He <-]. by apply Hr. Qed.
Lemma raises_bind {A B} (m : M exn S A) (k : A → M exn S B) :
  raises P m → (∀ a, raises P (k a)) → raises P (bind m k).
Proof.
  intros Hm Hk s e s'. unfold bind. destruct (m s) as [[e1|a] s1] eqn:H1.
  - intros [= <- <-]. by eapply Hm.
  - by apply Hk.
Qed.
Lemma raises_finally {A} (m : M exn S A) (f : M exn S unit) :
  raises P m → raises P f → raises P (try_finally m f).
Proof.
  intros Hm Hf s e s'. unfold try_finally. destruct (m s) as [r s1] eqn:H1.
  destruct (f s1) as [[e2|u] s2] eqn:H2; intros [= Hr <-]; subst; [by eapply Hf|by eapply Hm].
Qed.
(** Whatever the body raises is the handler's to raise or not. *)
Lemma raises_catch {A} (m : M exn S A) (h : exn → M exn S A) :
  (∀ e, raises P (h e)) → raises P (catch m h).
Proof.
  intros Hh s e s'. unfold catch. destruct (m s) as [[e1|a] s1] eqn:H1; [|done]. apply Hh.
Qed.
(** A handler that raises again keeps what the body raises. *)
Lemma raises_catch_again {A} (m : M exn S A) (h : exn → M exn S A) :
  raises P m → (∀ e, P e → raises P (h e)) → raises P (catch m h).
Proof.
  intros Hm Hh s e s'. unfold catch. destruct (m s) as [[e1|a] s1] eqn:H1; [|done].
  apply Hh. by eapply Hm.
Qed.
Lemma raises_for_each {A} (l : list A) (f : A → M exn S unit) :
  (∀ x, raises P (f x)) → raises P (for_each l f).
Proof. intros Hf. induction l; simpl; [apply raises_ret|by apply raises_bind]. Qed.
Lemma raises_weaken (Q : exn → Prop) {A} (m : M exn S A) :
  (∀ e, P e → Q e) → raises P m → raises Q m.
Proof. intros HPQ Hm s e s' Hrun. by eapply HPQ, Hm. Qed.

Lemma raises_inr {A} (a : A) : raises_result P (inr a).
Proof. by intros e [=]. Qed.
Lemma raises_inl {A} e : P e → raises_result (A := A) P (inl e).
Proof. by intros He e' [= <-]. Qed.
Lemma raises_rbind {A B} (r : result A) (k : A → result B) :
  raises_result P r → (∀ a, raises_result P (k a)) → raises_result P (rbind r k).
Proof. intros Hr Hk. destruct r; [|apply Hk]. intros e' [= <-]. by apply Hr. Qed.
Lemma raises_reject b e : P e → raises_result P (reject_if b e).
Proof. intros He. destruct b; [by apply raises_inl|apply raises_inr]. Qed.
Lemma raises_map_result {A B} (f : A → result B) l :
  (∀ a, raises_result P (f a)) → raises_result P (map_result f l).
Proof.
  intros Hf. induction l; cbn [map_result]; [apply raises_inr|].
  apply raises_rbind; [apply Hf|]. intros b. apply raises_rbind; [done|]. intros bs. apply raises_inr.
Qed.
End Rules.

#[export] Hint Resolve raises_ret raises_gets raises_modify raises_raise raises_raise_if raises_lift
  raises_bind raises_finally raises_for_each raises_inr raises_inl raises_rbind raises_reject raises_map_result : raises.
#[export] Hint Extern 3 (raises _ (match ?x with _ => _ end)) => destruct x : raises.
#[export] Hint Extern 3 (raises_result _ (match ?x with _ => _ end)) => destruct x : raises.
#[export] Hint Extern 3 (raises _ (let _ := _ in _)) => cbv zeta : raises.
#[export] Hint Extern 3 (raises_result _ (let _ := _ in _)) => cbv zeta : raises.

(** ** Errors of statements and checks *)

(** The errors the store and the constructors raise; a gateway or a worker
    tells its own failures by the others. *)
Definition ordinary (e : exn) : Prop :=
  match e with
  | ModelGatewayError _ | IndexError | TimeoutError | CancelledError | WorkerExecutionError _ _
  | SdkError _ => False
  | _ => True
  end.

Class StoreErrors (P : exn → Prop) : Prop := store_error : ∀ e, ordinary e → P e.

#[export] Instance ordinary_store_errors : StoreErrors ordinary.
Proof. by intros e. Qed.

#[export] Hint Extern 0 (StoreErrors _) => apply _ : raises.
#[export] Hint Extern 2 (ordinary _) => exact I : raises.

Section Store.
Context (P : exn → Prop) {Errors : StoreErrors P}.

#[local] Hint Extern 2 (P _) => (apply store_error; exact I) : raises.

Lemma raises_query {A} (f : Tables → A) : raises P (query f).
Proof. by intros s e s' [=]. Qed.
Lemma raises_execute f : raises P (execute f).
Proof. by intros s e s' [=]. Qed.
Lemma raises_clock : raises P clock_timestamp.
Proof. by intros s e s' [=]. Qed.
Lemma raises_uuid : raises P uuid_factory.
Proof. by intros s e s' [=]. Qed.
Lemma raises_nextval : raises P nextval.
Proof. by intros s e s' [=]. Qed.
Lemma raises_cell f : raises P (set_cell f).
Proof. by intros s e s' [=]. Qed.
#[local] Hint Resolve raises_query raises_execute raises_clock raises_uuid raises_nextval raises_cell : raises.

Lemma raises_transaction {A} (m : Db A) : raises P m → raises P (storage_guard (transaction m)).
Proof.
  intros Hm s e s' Hrun. apply storage_guard_inv in Hrun as (r & Hr & Hok & Herr).
  destruct r as [x|a]; [|by specialize (proj2 (Hok a) eq_refl)].
  specialize (Herr x eq_refl). injection Herr as ->.
  assert (Hx : P x).
  { unfold transaction in Hr. destruct ((do! begin ;; m) s) as [[y|a] s1] eqn:Hrun; [|done].
    injection Hr as <- <-. revert Hrun. unfold bind, begin. apply Hm. }
  destruct x; try exact Hx. apply store_error. destruct c; exact I.
Qed.
#[local] Hint Resolve raises_transaction : raises.

Lemma raises_insert_events events v : raises P (insert_events events v).
Proof.
  revert v. induction events as [|e events IH]; intros v; simpl; [eauto with raises|].
  unfold insert_event. repeat (apply raises_bind; [|intros ?]); eauto with raises.
Qed.
#[local] Hint Resolve raises_insert_events : raises.

Lemma raises_append_in_transaction events v outbox : raises P (_append_in_transaction events v outbox).
Proof.
  unfold _append_in_transaction, insert_outbox. destruct events; [auto with raises|].
  cbv zeta. repeat (apply raises_bind; [|intros ?] || case_match); eauto 8 with raises.
Qed.

Lemma raises_validate_append context events v : raises_result P (_validate_append context events v).
Proof.
  unfold _validate_append. destruct events; cbv zeta;
    repeat (apply raises_rbind; [|intros ?]); eauto with raises.
Qed.
#[local] Hint Resolve raises_append_in_transaction raises_validate_append : raises.

Ltac store_solve :=
  cbv zeta;
  repeat first [ solve [eauto 5 with raises] | apply raises_transaction
               | apply raises_bind; [|intros ?] | case_match ].

Lemma raises_append_atomic context events v m outbox :
  raises P m → raises P (append_atomic context events v m outbox).
Proof. intros Hm. unfold append_atomic. store_solve. Qed.
Lemma raises_append_fenced context events v work token gen at_ outbox m :
  raises P m → raises P (append_fenced context events v work token gen at_ outbox (Some m)).
Proof. intros Hm. unfold append_fenced. store_solve. Qed.
Lemma raises_append_fenced_only context events v work token gen at_ outbox :
  raises P (append_fenced context events v work token gen at_ outbox None).
Proof. unfold append_fenced. store_solve. Qed.
Lemma raises_append_from_inbox context source mid events v outbox m :
  raises P m → raises P (append_from_inbox context source mid events v outbox (Some m)).
Proof. intros Hm. unfold append_from_inbox. store_solve. Qed.
Lemma raises_current_version context aggregate : raises P (current_version context aggregate).
Proof. unfold current_version. store_solve. Qed.

Lemma raises_le a b : raises_result P (Dt.le a b).
Proof. unfold Dt.le. destruct a, b; auto with raises. Qed.
Lemma raises_sub a b : raises_result P (Dt.sub a b).
Proof. unfold Dt.sub. destruct a, b; auto with raises. Qed.
Lemma raises_value_error {A} (r : result A) :
  (∀ e, r = inl e → except_ValueError e = true) → raises_result P r.
Proof. intros Hr e He. specialize (Hr e He). apply store_error. by destruct e. Qed.
Lemma raises_freeze d : raises_result P (freeze_json_mapping d).
Proof. apply raises_value_error. intros e. apply freeze_mapping_error. Qed.
#[local] Hint Resolve raises_freeze : raises.
Lemma raises_envelope e : raises_result P (EventEnvelope_post_init e).
Proof. unfold EventEnvelope_post_init, require_aware_datetime. eauto 20 with raises. Qed.
End Store.

#[export] Hint Resolve raises_query raises_execute raises_clock raises_uuid raises_nextval raises_cell
  raises_transaction raises_append_in_transaction raises_validate_append raises_append_atomic
  raises_append_fenced raises_append_fenced_only raises_append_from_inbox raises_current_version
  raises_le raises_sub raises_freeze raises_envelope : raises.

(** Along the structure of the code. *)
Ltac raises_solve :=
  cbv zeta;
  repeat first [ solve [eauto 5 with raises]
               | apply raises_transaction
               | apply raises_bind; [|intros ?]
               | apply raises_rbind; [|intros ?]
               | apply raises_catch_again; [|intros ? ?]
               | case_match ];
  eauto 6 with raises.

(** ** Deny unless authorized *)

(** The guard in front of an operation: raise unless the decision allows. *)
Section Guard.
Context {S : Type} (deny : AuthorizationDecision → exn).
Context (principal : Principal) (context : TenantContext) (permission : Permission).
Context (Hok : Forall binding_ok (pr_role_bindings principal)).

Lemma decision_guard at_ (s : S) r s' :
  (let! decision := lift (decide_authorization principal (ctx_tenant_id context) (inl permission) at_) in
   raise_if (negb (ad_allowed decision)) (deny decision)) s = (r, s') →
  s' = s ∧ (r = inr tt → entitled principal context permission at_).
Proof using Hok.
  unfold bind, lift. destruct (decide_authorization _ _ _ _) as [e|d] eqn:Hd; [by intros [= <- <-]|].
  destruct (ad_allowed d) eqn:Hall; simpl; intros [= <- <-]; (split; [done|]); [|done].
  intros _. by eapply decide_entitled.
Qed.

Lemma decision_guard_passes us (s : S) :
  entitled principal context permission (Dt.Aware us) →
  (let! decision := lift (decide_authorization principal (ctx_tenant_id context) (inl permission)
     (Dt.Aware us)) in
   raise_if (negb (ad_allowed decision)) (deny decision)) s = (inr tt, s).
Proof using Hok.
  intros Hent. destruct (entitled_decide _ _ _ us Hok Hent) as (d & Hd & Hall).
  unfold bind, lift. rewrite Hd. by rewrite Hall.
Qed.
End Guard.
