(* ===== verification/LedgerReads.v ===== *)
(** * The abstract ledger and its readers

    The ledger seen as one list of committed events.  The two readers of
    [PostgresEventStore] are shown to compute the obvious selections of that
    list: [read_stream] a slice of one aggregate's events, [read_all] a page
    of one tenant's events in commit order; on a consistent ledger neither
    can report a sequence gap. *)

From stdpp Require Import base gmap sets list strings pretty.
From Stdlib Require Import ZArith Lia Sorted.
From S2P Require Import Prelude PyLib Json Events Identity Work Database EventStore.
From S2P Require Import Ledger.

Local Open Scope Z_scope.

(** The event a row holds. *)
Definition decode (r : EventRow) : option EventEnvelope :=
  match _event_from_row r None with inr e => Some e | inl _ => None end.

(** The ledger as a list of events, in commit order. *)
Definition log (w : World) : list EventEnvelope := omap decode (t_events (w_db w)).

Definition of_stream (tenant aggregate : string) (e : EventEnvelope) : bool :=
  bool_decide (ev_tenant_id e = tenant) && bool_decide (aggregate_id e = aggregate).

Definition position (e : EventEnvelope) : Z := default 0 (global_position e).

(** The events of one aggregate, and those of one tenant after a position. *)
Definition stream_events (tenant aggregate : string) (l : list EventEnvelope)
    : list EventEnvelope := List.filter (of_stream tenant aggregate) l.

Definition tenant_events (tenant : string) (after : Z) (l : list EventEnvelope)
    : list EventEnvelope :=
  List.filter (λ e, bool_decide (ev_tenant_id e = tenant) && (after <? position e)) l.

(** The predecessor the all-stream reader attaches to an event. *)
Definition predecessor (sequence : Z) : option Z :=
  if sequence =? 1 then None else Some (sequence - 1).

Definition set_previous (e : EventEnvelope) (p : option Z) : EventEnvelope :=
  {| event_id := event_id e; ev_tenant_id := ev_tenant_id e;
     aggregate_id := aggregate_id e; event_type := event_type e;
     schema_version := schema_version e; occurred_at := occurred_at e;
     payload := payload e; correlation_id := correlation_id e;
     causation_id := causation_id e; aggregate_sequence := aggregate_sequence e;
     global_position := global_position e; recorded_at := recorded_at e;
     actor := actor e; identity_reference := identity_reference e;
     policy_reference := policy_reference e; audit_reference := audit_reference e;
     idempotency_key := idempotency_key e; trace_context := trace_context e;
     previous_aggregate_sequence := p; metadata := metadata e |}.

Definition with_predecessor (e : EventEnvelope) : EventEnvelope :=
  set_previous e (predecessor (aggregate_sequence e)).

(** ** Decoding rows of a consistent ledger *)

(** A row whose sequence and position are positive and which holds a valid
    event: every row of a consistent ledger. *)
Definition good_row (r : EventRow) : Prop :=
  row_ok r ∧ 0 < er_global_position r ∧ 0 < er_aggregate_sequence r.

Lemma good_row_decode r :
  good_row r →
  ∃ e, decode r = Some e ∧
       (∀ p, (∀ q, p = Some q → 0 ≤ q) → _event_from_row r p = inr (set_previous e p)) ∧
       aggregate_sequence e = er_aggregate_sequence r ∧
       global_position e = Some (er_global_position r) ∧
       ev_tenant_id e = er_tenant_id r ∧ aggregate_id e = er_aggregate_id r.
Proof.
  intros ((e & Hv & Hr) & Hp & Hs).
  exists (committed e (er_aggregate_sequence r) (er_global_position r)
            (er_recorded_at r) None).
  assert (Hrow : ∀ p, (∀ q, p = Some q → 0 ≤ q) →
    _event_from_row r p = inr (committed e (er_aggregate_sequence r)
      (er_global_position r) (er_recorded_at r) p)).
  { intros p Hq. rewrite Hr at 1. by apply event_row_roundtrip. }
  split; [unfold decode; by rewrite Hrow|]. split; [exact Hrow|].
  rewrite Hr. done.
Qed.

Lemma stream_sequence_pos w r :
  ledger_ok w → r ∈ t_events (w_db w) → 0 < er_aggregate_sequence r.
Proof.
  intros Hok Hr.
  destruct (lo_streams _ Hok (er_tenant_id r) (er_aggregate_id r)) as (n & Hn & _).
  assert (er_aggregate_sequence r ∈ sequences n) as Hin.
  { rewrite <- Hn. apply list_elem_of_In, in_map, filter_In.
    split; [by apply list_elem_of_In|]. unfold in_stream. by rewrite !bool_decide_true. }
  unfold sequences in Hin. apply list_elem_of_In, in_map_iff in Hin as (k & <- & Hk).
  apply in_seq in Hk. lia.
Qed.

Lemma ledger_good_rows w : ledger_ok w → Forall good_row (t_events (w_db w)).
Proof.
  intros Hok. rewrite Forall_forall. intros r Hr. split; [|split].
  - pose proof (lo_rows _ Hok) as H. rewrite Forall_forall in H. auto.
  - pose proof (lo_positions _ Hok) as H. rewrite Forall_forall in H.
    specialize (H _ Hr). simpl in H. lia.
  - by eapply stream_sequence_pos.
Qed.

Lemma good_rows_filter (f : EventRow → bool) rows :
  Forall good_row rows → Forall good_row (List.filter f rows).
Proof.
  rewrite !Forall_forall. intros H r Hr.
  apply list_elem_of_In, filter_In in Hr as [Hr _]. by apply H, list_elem_of_In.
Qed.

Lemma omap_decode_cons r e rows :
  decode r = Some e → omap decode (r :: rows) = e :: omap decode rows.
Proof. intros He. simpl. by rewrite He. Qed.

(** Decoding commutes with a selection that reads the same columns. *)
Lemma omap_decode_filter (f : EventRow → bool) (g : EventEnvelope → bool) rows :
  Forall good_row rows →
  (∀ r e, good_row r → decode r = Some e → g e = f r) →
  omap decode (List.filter f rows) = List.filter g (omap decode rows).
Proof.
  intros Hall Hfg. induction Hall as [|r rows Hr _ IH]; [done|].
  destruct (good_row_decode _ Hr) as (e & He & _).
  rewrite (omap_decode_cons r e rows He). cbn [List.filter].
  rewrite (Hfg _ _ Hr He). destruct (f r); [|done].
  by rewrite (omap_decode_cons r e _ He), IH.
Qed.

Lemma omap_decode_take n rows :
  Forall good_row rows → omap decode (take n rows) = take n (omap decode rows).
Proof.
  intros Hall. revert n. induction Hall as [|r rows Hr _ IH]; intros [|n]; try done.
  destruct (good_row_decode _ Hr) as (e & He & _). rewrite firstn_cons.
  rewrite !(omap_decode_cons r e _ He). by rewrite IH.
Qed.

Lemma omap_decode_drop n rows :
  Forall good_row rows → omap decode (drop n rows) = drop n (omap decode rows).
Proof.
  intros Hall. revert n. induction Hall as [|r rows Hr _ IH]; intros [|n]; try done.
  destruct (good_row_decode _ Hr) as (e & He & _).
  rewrite (omap_decode_cons r e _ He). apply IH.
Qed.

Lemma stream_events_log w tenant aggregate :
  ledger_ok w →
  stream_events tenant aggregate (log w) =
  omap decode (stream_rows tenant aggregate (t_events (w_db w))).
Proof.
  intros Hok. symmetry. apply omap_decode_filter; [by apply ledger_good_rows|].
  intros r e Hr He. destruct (good_row_decode _ Hr) as (e' & He' & _ & _ & _ & Ht & Ha).
  assert (e' = e) as -> by congruence. unfold of_stream, in_stream. by rewrite Ht, Ha.
Qed.

(** ** [read_stream] *)

(** Rows whose sequences run from [v + 1]. *)
Definition numbered (v : Z) (rows : list EventRow) : Prop :=
  map er_aggregate_sequence rows = map (λ k, v + Z.of_nat k) (seq 1 (length rows)).

Lemma numbered_cons v r rows :
  numbered v (r :: rows) ↔ er_aggregate_sequence r = v + 1 ∧ numbered (v + 1) rows.
Proof.
  unfold numbered. simpl. rewrite <- (seq_shift (length rows) 1), map_map.
  rewrite (map_ext (λ x, v + Z.of_nat (S x)) (λ k, v + 1 + Z.of_nat k)) by (intros; lia).
  split; [intros [= ? ?]; split; [lia|done]|intros [-> ->]; done].
Qed.

Lemma numbered_above v rows a :
  numbered v rows → a ≤ v →
  List.filter (λ r, a <? er_aggregate_sequence r) rows = rows.
Proof.
  revert v. induction rows as [|r rows IH]; intros v Hn Ha; [done|].
  apply numbered_cons in Hn as [Hr Hn]. simpl.
  destruct (Z.ltb_spec a (er_aggregate_sequence r)); [|lia].
  f_equal. apply (IH (v + 1)); [done|lia].
Qed.

Lemma numbered_filter v rows a :
  numbered v rows →
  List.filter (λ r, a <? er_aggregate_sequence r) rows = drop (Z.to_nat (a - v)) rows.
Proof.
  revert v. induction rows as [|r rows IH]; intros v Hn; [by rewrite drop_nil|].
  destruct (Z.leb_spec a v) as [Ha|Ha].
  - rewrite (numbered_above v) by done. by replace (Z.to_nat (a - v)) with 0%nat by lia.
  - apply numbered_cons in Hn as [Hr Hn]. simpl.
    destruct (Z.ltb_spec a (er_aggregate_sequence r)); [lia|].
    replace (Z.to_nat (a - v)) with (S (Z.to_nat (a - (v + 1)))) by lia. by apply IH.
Qed.

Lemma numbered_sorted v rows :
  numbered v rows → StronglySorted (λ a b, seq_leb a b = true) rows.
Proof.
  revert v. induction rows as [|r rows IH]; intros v Hn; [constructor|].
  apply numbered_cons in Hn as [Hr Hn]. constructor; [by eapply IH|].
  rewrite Forall_forall. intros x Hx.
  rewrite <- (numbered_above (v + 1) rows (v + 1)) in Hx by (done || lia).
  apply list_elem_of_In, filter_In in Hx as [_ Hx]. unfold seq_leb. bool_props. lia.
Qed.

Lemma numbered_take v rows n : numbered v rows → numbered v (take n rows).
Proof.
  revert v n. induction rows as [|r rows IH]; intros v [|n] Hn; try done.
  apply numbered_cons in Hn as [Hr Hn]. simpl. apply numbered_cons. auto.
Qed.

Lemma numbered_drop v rows n :
  numbered v rows → numbered (v + Z.of_nat n) (drop n rows).
Proof.
  revert v n. induction rows as [|r rows IH]; intros v [|n] Hn; try done.
  - by rewrite Z.add_0_r.
  - apply numbered_cons in Hn as [Hr Hn]. simpl.
    replace (v + Z.of_nat (S n)) with (v + 1 + Z.of_nat n) by lia. auto.
Qed.

Lemma ledger_numbered w tenant aggregate :
  ledger_ok w → numbered 0 (stream_rows tenant aggregate (t_events (w_db w))).
Proof.
  intros Hok. destruct (lo_streams _ Hok tenant aggregate) as (n & Hn & _).
  unfold numbered. assert (length (stream_rows tenant aggregate (t_events (w_db w))) = n) as ->.
  { rewrite <- (length_map er_aggregate_sequence), Hn. unfold sequences.
    by rewrite length_map, length_seq. }
  rewrite Hn. unfold sequences. apply map_ext. lia.
Qed.

Lemma select_stream_slice w tenant aggregate after limit :
  ledger_ok w → 0 ≤ after →
  select_stream tenant aggregate after limit (w_db w) =
  take (Z.to_nat limit)
    (drop (Z.to_nat after) (stream_rows tenant aggregate (t_events (w_db w)))).
Proof.
  intros Hok Ha. unfold select_stream.
  pose proof (ledger_numbered _ tenant aggregate Hok) as Hn.
  rewrite <- (filter_filter_andb (in_stream tenant aggregate)).
  fold (stream_rows tenant aggregate (t_events (w_db w))).
  rewrite (numbered_filter 0), Z.sub_0_r by done.
  rewrite py_sorted_id; [done|]. by eapply numbered_sorted, numbered_drop.
Qed.

Lemma yield_stream_numbered rows v :
  Forall good_row rows → numbered v rows →
  yield_stream rows v = (omap decode rows, inr tt).
Proof.
  intros Hall. revert v. induction Hall as [|r rows Hr _ IH]; intros v Hn; [done|].
  apply numbered_cons in Hn as [Hs Hn].
  destruct (good_row_decode _ Hr) as (e & He & Hrow & Hseq & _).
  simpl. unfold decode in *. rewrite (Hrow None) in * by done. simpl in *.
  injection He as He. rewrite Hseq, Hs, Z.eqb_refl.
  by rewrite (IH (v + 1)), He.
Qed.

Lemma good_rows_sublist {rows} (n m : nat) :
  Forall good_row rows → Forall good_row (take n (drop m rows)).
Proof. intros H. by apply Forall_take, Forall_drop. Qed.

(** Reading statements do not fail and leave the tables as they are. *)
Lemma read_transaction {A} (f : Tables → A) w :
  ∃ w', storage_guard (transaction (query f)) w = (inr (f (w_db w)), w') ∧
        w_db w' = w_db w ∧ w_position w' = w_position w.
Proof. eexists. split; [reflexivity|done]. Qed.

Lemma page_arguments_ok after limit :
  0 ≤ after → 1 ≤ limit ≤ 1000 → _validate_page_arguments after limit = inr tt.
Proof.
  intros Ha Hl. unfold _validate_page_arguments.
  destruct (Z.ltb_spec after 0), (Z.leb_spec 1 limit), (Z.leb_spec limit 1000);
    done || lia.
Qed.

Lemma read_stream_run w context aggregate after limit :
  ledger_ok w → 0 ≤ after → 1 ≤ limit ≤ 1000 →
  ∃ w', read_stream context aggregate after limit w =
    (inr (take (Z.to_nat limit)
            (drop (Z.to_nat after) (stream_events (ctx_str context) aggregate (log w))),
          inr tt), w') ∧ w_db w' = w_db w ∧ w_position w' = w_position w.
Proof.
  intros Hok Ha Hl. unfold read_stream.
  destruct (read_transaction (select_stream (ctx_str context) aggregate after limit) w)
    as (w' & Hrun & Hdb & Hpos).
  exists w'. split; [|done]. unfold bind, lift. rewrite page_arguments_ok by done. cbn iota beta. rewrite Hrun.
  unfold ret. rewrite select_stream_slice by done.
  pose proof (ledger_numbered _ (ctx_str context) aggregate Hok) as Hn.
  assert (Forall good_row (stream_rows (ctx_str context) aggregate (t_events (w_db w))))
    as Hg by by apply good_rows_filter, ledger_good_rows.
  rewrite (yield_stream_numbered _ after).
  - rewrite omap_decode_take, omap_decode_drop, <- stream_events_log; try done.
    by apply Forall_drop.
  - by apply good_rows_sublist.
  - apply numbered_take. replace after with (0 + Z.of_nat (Z.to_nat after)) at 1 by lia.
    by apply numbered_drop.
Qed.

(** ** [read_all] *)

Definition lag_candidate (r o : EventRow) : Prop :=
  in_stream (er_tenant_id r) (er_aggregate_id r) o = true ∧
  er_aggregate_sequence o < er_aggregate_sequence r.

(** The window function yields the greatest smaller sequence of the stream. *)
Lemma lag_sequence_spec rows r :
  match lag_sequence rows r with
  | None => ∀ o, o ∈ rows → ¬ lag_candidate r o
  | Some m => (∃ o, o ∈ rows ∧ lag_candidate r o ∧ er_aggregate_sequence o = m) ∧
              ∀ o, o ∈ rows → lag_candidate r o → er_aggregate_sequence o ≤ m
  end.
Proof.
  induction rows as [|x rows IH]; simpl.
  - intros o Ho. by apply not_elem_of_nil in Ho.
  - fold (lag_sequence rows r). destruct (_ && _) eqn:Hx; bool_props.
    + assert (Hc : lag_candidate r x) by done.
      destruct (lag_sequence rows r) as [m|].
      * destruct IH as [(o & Ho & Hco & Hm) Hmax]. split.
        -- destruct (Z.max_spec m (er_aggregate_sequence x)) as [[_ ->]|[_ ->]];
             [by exists x; repeat split; [left|..]; try apply Hc|].
           exists o. split; [by right|done].
        -- intros y Hy Hcy. apply elem_of_cons in Hy as [->|Hy]; [lia|].
           specialize (Hmax _ Hy Hcy). lia.
      * split; [by exists x; repeat split; [left|..]; try apply Hc|].
        intros y Hy Hcy. apply elem_of_cons in Hy as [->|Hy]; [lia|].
        exfalso. by eapply IH.
    + assert (Hc : ¬ lag_candidate r x).
      { intros [H1 H2]. rewrite H1 in Hx. simpl in Hx. bool_props. lia. }
      destruct (lag_sequence rows r) as [m|].
      * destruct IH as [(o & Ho & Hco & Hm) Hmax]. split; [exists o; split; [by right|done]|].
        intros y Hy Hcy. apply elem_of_cons in Hy as [->|Hy]; [done|auto].
      * intros y Hy. apply elem_of_cons in Hy as [->|Hy]; [done|auto].
Qed.

Lemma stream_has_sequence w r k :
  ledger_ok w → r ∈ t_events (w_db w) → 1 ≤ k ≤ er_aggregate_sequence r →
  ∃ o, o ∈ t_events (w_db w) ∧
       in_stream (er_tenant_id r) (er_aggregate_id r) o = true ∧
       er_aggregate_sequence o = k.
Proof.
  intros Hok Hr Hk.
  destruct (lo_streams _ Hok (er_tenant_id r) (er_aggregate_id r)) as (n & Hn & _).
  assert (Hin : ∀ z, z ∈ sequences n ↔ 1 ≤ z ≤ Z.of_nat n).
  { intros z. unfold sequences. rewrite list_elem_of_In, in_map_iff. split.
    - intros (i & <- & Hi). apply in_seq in Hi. lia.
    - intros Hz. exists (Z.to_nat z). split; [lia|]. apply in_seq. lia. }
  assert (er_aggregate_sequence r ∈ sequences n) as Hin_r.
  { rewrite <- Hn. apply list_elem_of_In, in_map, filter_In.
    split; [by apply list_elem_of_In|]. unfold in_stream. by rewrite !bool_decide_true. }
  apply Hin in Hin_r. assert (k ∈ sequences n) as Hin_k by (apply Hin; lia).
  rewrite <- Hn in Hin_k. apply list_elem_of_In, in_map_iff in Hin_k as (o & Ho & Hmem).
  apply filter_In in Hmem as [Hmem Hstream]. exists o.
  split; [by apply list_elem_of_In|done].
Qed.

Lemma elem_of_filterb {A} (f : A → bool) x l : x ∈ List.filter f l ↔ x ∈ l ∧ f x = true.
Proof. by rewrite !list_elem_of_In, filter_In. Qed.

Lemma lag_sequence_ledger w tenant r :
  ledger_ok w → r ∈ t_events (w_db w) → er_tenant_id r = tenant →
  lag_sequence (List.filter (λ o, bool_decide (er_tenant_id o = tenant)) (t_events (w_db w))) r
  = predecessor (er_aggregate_sequence r).
Proof.
  intros Hok Hr Ht. pose proof (stream_sequence_pos _ _ Hok Hr) as Hpos.
  set (owned := List.filter _ _).
  assert (Howned : ∀ o, o ∈ t_events (w_db w) →
    in_stream (er_tenant_id r) (er_aggregate_id r) o = true → o ∈ owned).
  { intros o Ho Hs. apply elem_of_filterb. split; [done|].
    unfold in_stream in Hs. bool_props. rewrite bool_decide_true; congruence. }
  pose proof (lag_sequence_spec owned r) as Hspec. unfold predecessor.
  destruct (lag_sequence owned r) as [m|].
  - destruct Hspec as [(o & Ho & [Hso Hlt] & Hm) Hmax].
    apply elem_of_filterb in Ho as [Ho _].
    pose proof (stream_sequence_pos _ _ Hok Ho) as Hopos.
    destruct (Z.eqb_spec (er_aggregate_sequence r) 1); [lia|].
    destruct (stream_has_sequence w r (er_aggregate_sequence r - 1) Hok Hr) as (p & Hp & Hsp & Hpp);
      [lia|].
    assert (er_aggregate_sequence p ≤ m) by (apply Hmax; [auto|split; [done|lia]]).
    f_equal. lia.
  - destruct (Z.eqb_spec (er_aggregate_sequence r) 1) as [|Hne]; [done|]. exfalso.
    destruct (stream_has_sequence w r (er_aggregate_sequence r - 1) Hok Hr) as (p & Hp & Hsp & Hpp);
      [lia|].
    apply (Hspec p); [auto|]. split; [done|lia].
Qed.

(** The tenant's rows after a position, in commit order. *)
Definition tenant_rows (tenant : string) (after : Z) (rows : list EventRow) : list EventRow :=
  List.filter (λ r, bool_decide (er_tenant_id r = tenant) && (after <? er_global_position r))
    rows.

Lemma tenant_rows_sorted w tenant after :
  ledger_ok w →
  StronglySorted (λ a b, er_global_position a < er_global_position b)
    (tenant_rows tenant after (t_events (w_db w))).
Proof.
  intros Hok. apply StronglySorted_filter.
  eapply StronglySorted_weaken; [|apply (lo_order _ Hok)]. by intros x y [? _].
Qed.

Lemma select_all_page w tenant after limit :
  ledger_ok w →
  select_all tenant after limit (w_db w) =
  map (λ r, (r, predecessor (er_aggregate_sequence r)))
    (take (Z.to_nat limit) (tenant_rows tenant after (t_events (w_db w)))).
Proof.
  intros Hok. unfold select_all. rewrite filter_filter_andb.
  fold (tenant_rows tenant after (t_events (w_db w))).
  rewrite py_sorted_id.
  2:{ eapply StronglySorted_weaken; [|by apply tenant_rows_sorted].
      intros x y Hxy. unfold pos_leb. apply Z.leb_le. simpl in Hxy. lia. }
  apply map_ext_in. intros r Hr. f_equal.
  apply list_elem_of_In in Hr. apply elem_of_take in Hr as (i & Hi & _).
  apply list_elem_of_lookup_2 in Hi. apply elem_of_filterb in Hi as [Hi Hf].
  bool_props. by apply lag_sequence_ledger.
Qed.

Lemma tenant_events_log w tenant after :
  ledger_ok w →
  tenant_events tenant after (log w) =
  omap decode (tenant_rows tenant after (t_events (w_db w))).
Proof.
  intros Hok. symmetry. apply omap_decode_filter; [by apply ledger_good_rows|].
  intros r e Hr He. destruct (good_row_decode _ Hr) as (e' & He' & _ & _ & Hp & Ht & Ha).
  assert (e' = e) as -> by congruence. unfold position. by rewrite Ht, Hp.
Qed.

Lemma rows_to_events_good rows :
  Forall good_row rows →
  rows_to_events (map (λ r, (r, predecessor (er_aggregate_sequence r))) rows) =
  inr (map with_predecessor (omap decode rows)).
Proof.
  induction 1 as [|r rows Hr _ IH]; [done|].
  destruct (good_row_decode _ Hr) as (e & He & Hrow & Hseq & _).
  rewrite (omap_decode_cons r e _ He). cbn [map rows_to_events]. rewrite Hrow.
  - rewrite IH. simpl. unfold with_predecessor. by rewrite Hseq.
  - destruct Hr as (_ & _ & Hpos). unfold predecessor.
    destruct (Z.eqb_spec (er_aggregate_sequence r) 1); intros q [= <-]. lia.
Qed.

Lemma check_gaps_good rows :
  Forall good_row rows →
  check_gaps (map (λ r, (r, predecessor (er_aggregate_sequence r))) rows)
    (map with_predecessor (omap decode rows)) = inr tt.
Proof.
  induction 1 as [|r rows Hr _ IH]; [done|].
  destruct (good_row_decode _ Hr) as (e & He & Hrow & Hseq & _).
  rewrite (omap_decode_cons r e _ He). cbn [map check_gaps].
  assert (aggregate_sequence (with_predecessor e) =
    match predecessor (er_aggregate_sequence r) with None => 1 | Some p => p + 1 end) as ->.
  { simpl. rewrite Hseq. unfold predecessor.
    destruct (Z.eqb_spec (er_aggregate_sequence r) 1); lia. }
  rewrite Z.eqb_refl. apply IH.
Qed.

(** The page [read_all] returns, from the abstract ledger. *)
Definition abstract_page (tenant : string) (after limit : Z) (l : list EventEnvelope)
    : EventPage :=
  let events := map with_predecessor (take (Z.to_nat limit) (tenant_events tenant after l)) in
  mkEventPage events
    (if Z.of_nat (length events) =? limit then last events ≫= global_position else None).

Lemma read_all_run w context after limit :
  ledger_ok w → 0 ≤ after → 1 ≤ limit ≤ 1000 →
  ∃ w', read_all context after limit w =
    (inr (abstract_page (ctx_str context) after limit (log w)), w') ∧
    w_db w' = w_db w ∧ w_position w' = w_position w.
Proof.
  intros Hok Ha Hl. unfold read_all.
  destruct (read_transaction (select_all (ctx_str context) after limit) w)
    as (w' & Hrun & Hdb & Hpos).
  exists w'. split; [|done]. unfold bind, lift. rewrite page_arguments_ok by done.
  cbn iota beta. rewrite Hrun. rewrite select_all_page by done.
  assert (Hg : Forall good_row
    (take (Z.to_nat limit) (tenant_rows (ctx_str context) after (t_events (w_db w))))).
  { by apply Forall_take, good_rows_filter, ledger_good_rows. }
  rewrite rows_to_events_good, check_gaps_good by done. unfold ret, abstract_page.
  rewrite tenant_events_log by done.
  rewrite omap_decode_take by by apply good_rows_filter, ledger_good_rows. done.
Qed.

(** A position is the sort key of a tenant's events. *)
Lemma log_sorted w : ledger_ok w → StronglySorted (λ a b, position a < position b) (log w).
Proof.
  intros Hok. unfold log. pose proof (ledger_good_rows _ Hok) as Hg.
  pose proof (lo_order _ Hok) as Ho. revert Hg.
  induction Ho as [|r rows _ IH Hall]; intros Hg; [constructor|].
  apply Forall_cons in Hg as [Hr Hg].
  destruct (good_row_decode _ Hr) as (e & He & _ & _ & Hp & _).
  rewrite (omap_decode_cons r e _ He). constructor; [auto|].
  apply Forall_forall. intros x Hx.
  apply list_elem_of_omap in Hx as (r' & Hr' & Hx).
  eapply Forall_forall in Hall as [Hlt _]; [|exact Hr'].
  eapply Forall_forall in Hg; [|exact Hr'].
  destruct (good_row_decode r' Hg) as (e' & He' & _ & _ & Hp' & _).
  assert (x = e') as -> by congruence. unfold position. by rewrite Hp, Hp'.
Qed.

(** The events past the [n]-th are those after the [n]-th's position. *)
Lemma tenant_events_cut tenant after l n e :
  StronglySorted (λ a b, position a < position b) l →
  tenant_events tenant after l !! n = Some e →
  after < position e ∧
  tenant_events tenant (position e) l = drop (S n) (tenant_events tenant after l).
Proof.
  intros Hs Hn.
  assert (Hafter : after < position e).
  { apply list_elem_of_lookup_2, elem_of_filterb in Hn as [_ Hn]. by bool_props. }
  split; [done|]. pose proof (StronglySorted_filter _
    (λ e, bool_decide (ev_tenant_id e = tenant) && (after <? position e)) _ Hs) as Hf.
  assert (Heq : tenant_events tenant (position e) l =
    List.filter (λ x, position e <? position x) (tenant_events tenant after l)).
  { unfold tenant_events. rewrite filter_filter_andb. apply filter_ext. intros x.
    destruct (bool_decide _), (Z.ltb_spec (position e) (position x)),
      (Z.ltb_spec after (position x)); simpl; done || lia. }
  rewrite Heq. clear Heq. fold (tenant_events tenant after l) in Hf.
  revert n Hn Hf. generalize (tenant_events tenant after l). intros t.
  induction t as [|x t IH]; intros n Hn Hf; [done|].
  inversion Hf as [|? ? Hf' Hall]; subst. rewrite Forall_forall in Hall.
  destruct n as [|n]; simpl in Hn.
  - injection Hn as ->. simpl. destruct (Z.ltb_spec (position e) (position e)); [lia|].
    clear -Hall. induction t as [|y t IH]; [done|]. simpl.
    destruct (Z.ltb_spec (position e) (position y)) as [|Hle].
    + f_equal. apply IH. intros z Hz. apply Hall. by right.
    + specialize (Hall y (list_elem_of_here _ _)). lia.
  - assert (position x < position e) by (apply Hall; by eapply list_elem_of_lookup_2).
    simpl. destruct (Z.ltb_spec (position e) (position x)); [lia|]. by apply IH.
Qed.

Lemma abstract_page_cursor w tenant after limit :
  ledger_ok w → 1 ≤ limit →
  let rest := tenant_events tenant after (log w) in
  match pg_next_cursor (abstract_page tenant after limit (log w)) with
  | None => (length rest < Z.to_nat limit)%nat
  | Some next =>
      after < next ∧
      rest = take (Z.to_nat limit) rest ++ tenant_events tenant next (log w)
  end.
Proof.
  intros Hok Hl rest. unfold abstract_page. cbn [pg_next_cursor].
  rewrite length_map, length_take. fold rest.
  destruct (Z.eqb_spec (Z.of_nat (Z.to_nat limit `min` length rest)) limit) as [Hlen|Hlen];
    [|lia].
  destruct (rest !! pred (Z.to_nat limit)) as [e|] eqn:He.
  2:{ apply lookup_ge_None in He. lia. }
  assert (Hlast : last (map with_predecessor (take (Z.to_nat limit) rest)) =
    Some (with_predecessor e)).
  { rewrite last_lookup, length_map, length_take.
    replace (pred (Z.to_nat limit `min` length rest)) with (pred (Z.to_nat limit)) by lia.
    rewrite list_lookup_fmap, lookup_take_lt by lia. by rewrite He. }
  rewrite Hlast. simpl.
  destruct (tenant_events_cut tenant after (log w) (pred (Z.to_nat limit)) e) as [Ha Hcut];
    [by apply log_sorted|done|].
  assert (Hpos : global_position e = Some (position e)).
  { apply list_elem_of_lookup_2, elem_of_filterb in He as [He _].
    unfold log in He. apply list_elem_of_omap in He as (r & Hr & Hd).
    destruct (good_row_decode r) as (e' & He' & _ & _ & Hp & _).
    - pose proof (ledger_good_rows _ Hok) as Hg. rewrite Forall_forall in Hg. auto.
    - assert (e' = e) as -> by congruence. unfold position. by rewrite Hp. }
  rewrite Hpos. split; [done|]. rewrite Hcut.
  replace (S (pred (Z.to_nat limit))) with (Z.to_nat limit) by lia. by rewrite take_drop.
Qed.
