(* ===== verification/LedgerAppend.v ===== *)
(** * What an append does, on every branch

    The forward direction of the append transaction: under which conditions
    it commits, what it adds to the abstract ledger, and which exception a
    failing one raises; the inbox and the fence on top of it. *)

From stdpp Require Import base gmap sets list strings pretty.
From Stdlib Require Import ZArith Lia Sorted.
From S2P Require Import Prelude PyLib Json Events Identity Work Database EventStore.
From S2P Require Import Ledger Raises LedgerReads.

Local Open Scope Z_scope.

(** The events as committed from version [v] and position [p] on. *)
Fixpoint commit_events (events : list EventEnvelope) (v p recorded : Z)
    : list EventEnvelope :=
  match events with
  | [] => []
  | e :: rest =>
      committed e (v + 1) (p + 1) recorded None :: commit_events rest (v + 1) (p + 1) recorded
  end.

Lemma decode_new_rows events v p recorded :
  Forall event_valid events → 0 ≤ v → 0 ≤ p →
  omap decode (new_rows events v p recorded) = commit_events events v p recorded.
Proof.
  intros Hv. revert v p. induction Hv as [|e es He _ IH]; intros v p Hv' Hp; [done|].
  cbn [new_rows commit_events]. rewrite (omap_decode_cons _
    (committed e (v + 1) (p + 1) recorded None)).
  - by rewrite IH by lia.
  - unfold decode. rewrite event_row_roundtrip; [done|done|lia|lia|done].
Qed.

(** The new rows violate no constraint of the table. *)
Definition rows_fit (rows new : list EventRow) : Prop :=
  ∀ pre row post, new = pre ++ row :: post → row_fits (rows ++ pre) row.

Lemma rows_fit_cons rows r new :
  rows_fit rows (r :: new) ↔ row_fits rows r ∧ rows_fit (rows ++ [r]) new.
Proof.
  split.
  - intros H. split.
    + specialize (H [] r new eq_refl). by rewrite app_nil_r in H.
    + intros pre row post ->. specialize (H (r :: pre) row post eq_refl).
      by rewrite <- app_assoc.
  - intros [H1 H2] [|x pre] row post [= <- ->].
    + by rewrite app_nil_r.
    + specialize (H2 pre row post eq_refl). by rewrite <- app_assoc in H2.
Qed.

Lemma insert_event_run e v w :
  row_fits (t_events (w_db w)) (_event_insert_values e v (w_position w + 1) (w_txn_start w)) →
  is_Some (t_heads (w_db w) !! (ev_tenant_id e, aggregate_id e)) →
  insert_event e v w =
  (inr tt, with_rows w [_event_insert_values e v (w_position w + 1) (w_txn_start w)]).
Proof.
  intros [Hc Hf] [h Hh]. unfold insert_event, bind, nextval, query, gets, execute, modify.
  cbn [w_db w_txn_start]. rewrite Hc.
  apply existsb_false_Forall in Hf. rewrite Hf.
  cbn [er_tenant_id er_aggregate_id _event_insert_values]. rewrite Hh. done.
Qed.

Lemma insert_events_run tenant agg events v w :
  Forall (λ e, ev_tenant_id e = tenant ∧ aggregate_id e = agg) events →
  is_Some (t_heads (w_db w) !! (tenant, agg)) →
  rows_fit (t_events (w_db w)) (new_rows events v (w_position w) (w_txn_start w)) →
  insert_events events v w =
  (inr (v + Z.of_nat (length events)),
   with_rows w (new_rows events v (w_position w) (w_txn_start w))).
Proof.
  intros Hall. revert v w. induction Hall as [|e es [Ht Ha] _ IH]; intros v w Hh Hfit.
  - simpl. rewrite with_rows_nil. unfold ret. repeat f_equal. lia.
  - cbn [new_rows] in Hfit. apply rows_fit_cons in Hfit as [Hr Hrest].
    cbn [insert_events new_rows]. unfold bind. rewrite insert_event_run; [|done|by rewrite Ht, Ha].
    rewrite IH; [|done|exact Hrest]. simpl. rewrite with_rows_app. simpl.
    f_equal. f_equal. lia.
Qed.

(** The outbox messages violate no constraint given these event rows. *)
Definition outbox_fits (tenant : string) (rows : list EventRow)
    (o : gmap (string * uuid) OutboxRow) (msgs : list OutboxMessage) : Prop :=
  NoDup (om_message_id <$> msgs) ∧
  Forall (λ m, om_destination m ≠ ""%string ∧ 1 ≤ om_max_attempts m ∧
               o !! (tenant, om_message_id m) = None ∧
               ∀ id, om_event_id m = Some id →
                 ∃ r, r ∈ rows ∧ er_tenant_id r = tenant ∧ er_event_id r = id) msgs.

Lemma insert_outbox_run tenant w m :
  outbox_fits tenant (t_events (w_db w)) (t_outbox (w_db w)) [m] →
  insert_outbox tenant m w =
  (inr tt, set_db (upd_outbox <[(tenant, om_message_id m) := outbox_row m]>) w).
Proof.
  intros [_ Hf]. apply Forall_cons in Hf as [(Hd & Hm & Hk & Hid) _].
  unfold insert_outbox, bind, query, gets, execute, modify.
  apply PyStr.is_empty_false in Hd. rewrite Hd, Hk.
  destruct (Z.ltb_spec (om_max_attempts m) 1); [lia|]. rewrite bool_decide_false by auto.
  simpl. destruct (om_event_id m) as [id|]; [|done].
  destruct (Hid id eq_refl) as (r & Hr & Hrt & Hri).
  assert (existsb (λ r, bool_decide (er_tenant_id r = tenant)
    && bool_decide (er_event_id r = id)) (t_events (w_db w)) = true) as ->; [|done].
  apply existsb_exists. exists r. split; [by apply list_elem_of_In|].
  by rewrite !bool_decide_true.
Qed.

Lemma insert_outbox_all_run tenant msgs w :
  outbox_fits tenant (t_events (w_db w)) (t_outbox (w_db w)) msgs →
  for_each msgs (insert_outbox tenant) w =
  (inr tt, set_db (upd_outbox (outbox_after tenant msgs)) w).
Proof.
  revert w. induction msgs as [|m msgs IH]; intros w Hf.
  - by destruct w as [[] ?].
  - destruct Hf as [Hnd Hf]. rewrite fmap_cons in Hnd. apply NoDup_cons in Hnd as [Hnm Hnd].
    apply Forall_cons in Hf as [Hm Hf]. cbn [for_each]. unfold bind.
    rewrite insert_outbox_run; [|split; [by repeat constructor; apply not_elem_of_nil|
                                         by apply Forall_singleton]].
    rewrite IH; [by rewrite set_db_set_db|]. split; [done|].
    rewrite Forall_forall in *. intros x Hx. destruct (Hf x Hx) as (? & ? & ? & ?).
    repeat split; try done. simpl. rewrite lookup_insert_ne; [done|]. intros [= Heq].
    apply Hnm. apply list_elem_of_fmap. by exists x.
Qed.

(** What must hold for an append to commit. *)
Record append_fits (tenant agg : string) (events : list EventEnvelope)
    (outbox : list OutboxMessage) (w : World) : Prop := {
  af_tenant : tenant ∈ t_tenants (w_db w);
  af_rows : rows_fit (t_events (w_db w))
    (new_rows events (default 0 (t_heads (w_db w) !! (tenant, agg)))
       (w_position w) (w_txn_start w));
  af_outbox : outbox_fits tenant
    (t_events (w_db w) ++
       new_rows events (default 0 (t_heads (w_db w) !! (tenant, agg)))
         (w_position w) (w_txn_start w))
    (t_outbox (w_db w)) outbox;
}.

Definition targets (tenant agg : string) (events : list EventEnvelope) : Prop :=
  events ≠ [] ∧ Forall (λ e, ev_tenant_id e = tenant ∧ aggregate_id e = agg) events.

Lemma append_in_transaction_run tenant agg events outbox w :
  targets tenant agg events → append_fits tenant agg events outbox w →
  let expected := default 0 (t_heads (w_db w) !! (tenant, agg)) in
  let rows := new_rows events expected (w_position w) (w_txn_start w) in
  let version := expected + Z.of_nat (length events) in
  _append_in_transaction events expected outbox w =
  (inr version, append_world w (tenant, agg) version rows outbox).
Proof.
  intros [Hne Htgt] [Hten Hrows Hout]. cbv zeta.
  destruct events as [|first rest]; [done|].
  assert (ev_tenant_id first = tenant ∧ aggregate_id first = agg) as [Hft Hfa]
    by by apply Forall_cons in Htgt as [? _].
  unfold _append_in_transaction. rewrite Hft, Hfa.
  set (events := first :: rest) in *. clearbody events.
  set (heads := t_heads (w_db w)) in *. set (stream := (tenant, agg)) in *.
  set (expected := default 0 (heads !! stream)) in *.
  py_go. rewrite bool_decide_false by (intros H; by apply H). do 4 py_go.
  cbn [w_db set_db t_heads upd_heads upd_commit_locks]. fold heads.
  assert (Hhead : match heads !! stream with
    | Some _ => heads | None => <[stream := 0]> heads end !! stream = Some expected).
  { unfold expected. destruct (heads !! stream) eqn:E; [done|]. by rewrite lookup_insert_eq. }
  rewrite Hhead, Z.eqb_refl. py_go.
  erewrite bind_run;
    [|apply (insert_events_run tenant agg); [done|by eexists|exact Hrows]].
  py_go. erewrite bind_run; [|apply insert_outbox_all_run; exact Hout].
  unfold ret. f_equal. unfold append_world, append_tables, set_db, upd_outbox, upd_heads, upd_events,
    upd_commit_locks. simpl. f_equal. f_equal. fold heads.
  destruct (heads !! stream) eqn:E; [done|]. by rewrite insert_insert_eq.
Qed.

(** An append against a version other than the head's reports both. *)
Lemma append_in_transaction_conflict tenant agg events outbox w expected :
  targets tenant agg events → tenant ∈ t_tenants (w_db w) →
  expected ≠ default 0 (t_heads (w_db w) !! (tenant, agg)) →
  ∃ w', _append_in_transaction events expected outbox w =
    (inl (ConcurrencyError expected (default 0 (t_heads (w_db w) !! (tenant, agg)))), w').
Proof.
  intros [Hne Htgt] Hten Hexp. destruct events as [|first rest]; [done|].
  assert (ev_tenant_id first = tenant ∧ aggregate_id first = agg) as [Hft Hfa]
    by by apply Forall_cons in Htgt as [? _].
  unfold _append_in_transaction. rewrite Hft, Hfa.
  set (heads := t_heads (w_db w)) in *. set (stream := (tenant, agg)) in *.
  py_go. rewrite bool_decide_false by (intros H; by apply H). do 4 py_go.
  cbn [w_db set_db t_heads upd_heads upd_commit_locks]. fold heads.
  assert (Hhead : match heads !! stream with
    | Some _ => heads | None => <[stream := 0]> heads end !! stream =
    Some (default 0 (heads !! stream))).
  { destruct (heads !! stream) eqn:E; [done|]. by rewrite lookup_insert_eq. }
  rewrite Hhead. destruct (Z.eqb_spec (default 0 (heads !! stream)) expected); [congruence|].
  eexists. reflexivity.
Qed.

(** ** Which exceptions a statement can raise *)

Lemma insert_events_raises (P : exn → Prop) events v :
  P violates → raises P (insert_events events v).
Proof.
  intros HP. revert v. induction events as [|e es IH]; intros v; simpl; [auto with raises|].
  apply raises_bind; [|auto]. unfold insert_event. auto 12 with raises.
Qed.

Definition append_error (head expected : Z) (e : exn) : Prop :=
  e = violates ∨ (head ≠ expected ∧ e = ConcurrencyError expected head).

(** The only failures of a validated append: a violated constraint or a
    version other than the head's. *)
Lemma append_in_transaction_error tenant agg events expected outbox w e w' :
  targets tenant agg events →
  _append_in_transaction events expected outbox w = (inl e, w') →
  append_error (default 0 (t_heads (w_db w) !! (tenant, agg))) expected e.
Proof.
  intros Htgt Hrun.
  destruct (decide (tenant ∈ t_tenants (w_db w))) as [Hin|Hout].
  - destruct (decide (expected = default 0 (t_heads (w_db w) !! (tenant, agg)))) as [Heq|Hne].
    + left. destruct events as [|first rest]; [by destruct Htgt|].
      assert (ev_tenant_id first = tenant ∧ aggregate_id first = agg) as [Hft Hfa]
        by (destruct Htgt as [_ Htgt]; by apply Forall_cons in Htgt as [? _]).
      unfold _append_in_transaction in Hrun. rewrite Hft, Hfa in Hrun.
      revert Hrun. py_go. rewrite bool_decide_false by (intros H; by apply H). do 4 py_go.
      cbn [w_db set_db t_heads upd_heads upd_commit_locks].
      replace (match t_heads (w_db w) !! (tenant, agg) with
        | Some _ => t_heads (w_db w) | None => <[(tenant, agg) := 0]> (t_heads (w_db w))
        end !! (tenant, agg)) with (Some expected).
      2:{ rewrite Heq. destruct (t_heads (w_db w) !! _) eqn:E; [done|].
          by rewrite lookup_insert_eq. }
      rewrite Z.eqb_refl. py_go.
      match goal with |- ?m ?s = _ → _ => intros Hrun;
        assert (raises (eq violates) m) as Hr end.
      { apply raises_bind; [by apply insert_events_raises|]. intros v.
        apply raises_bind; [auto with raises|intros _].
        apply raises_bind; [|auto with raises]. apply raises_for_each. intros x.
        unfold insert_outbox. auto 12 with raises. }
      symmetry. by eapply Hr.
    + right. split; [congruence|].
      destruct (append_in_transaction_conflict tenant agg events outbox w expected)
        as (w2 & H2); [done..|]. congruence.
  - left. destruct events as [|first rest]; [by destruct Htgt|].
    assert (ev_tenant_id first = tenant) as Hft
      by (destruct Htgt as [_ Htgt]; by apply Forall_cons in Htgt as [[? _] _]).
    unfold _append_in_transaction in Hrun. rewrite Hft in Hrun. revert Hrun. py_go.
    rewrite bool_decide_true by done. by intros [= <- _].
Qed.
