(* ===== verification/LedgerTheorems.v ===== *)
(** * Theorems about the event store

    Reachable ledgers are consistent; an append commits exactly its events or
    changes nothing; readers return the committed history; the inbox applies
    a delivery once; a stale lease cannot append; an outbox message belongs to
    one publisher at a time; tenants do not see each other. *)

From stdpp Require Import base gmap sets list strings pretty.
From Stdlib Require Import ZArith Lia Sorted.
From S2P Require Import Prelude PyLib Json Events Identity Work Database EventStore.
From S2P Require Import Ledger LedgerReads LedgerAppend.

Local Open Scope Z_scope.

(** ** Reachable states *)

(** A database just migrated and provisioned with [tenants]. *)
Definition genesis (tenants : gset string) (clock : nat → Z) (uuids : nat → uuid) : World :=
  {| w_db := {| t_tenants := tenants; t_commit_locks := ∅; t_heads := ∅; t_events := [];
                t_inbox := ∅; t_outbox := ∅; t_work_items := ∅; t_work_leases := ∅;
                t_dead_letters := ∅; t_approvals := ∅; t_views := no_views;
                t_budgets := no_budgets |};
     w_position := 0; w_clock := clock; w_tick := 0; w_uuids := uuids; w_draw := 0;
     w_txn_start := 0; w_cell := []; w_maintenance := ∅ |}.

(** One call of the store's interface, whatever its outcome, or a statement
    of another adapter that does not write the ledger. *)
Inductive store_step : World → World → Prop :=
| step_append context events expected outbox w r w' :
    Forall event_valid events →
    append context events expected outbox w = (r, w') → store_step w w'
| step_append_atomic context events expected mutation outbox w r w' :
    Forall event_valid events → ledger_neutral mutation →
    append_atomic context events expected mutation outbox w = (r, w') → store_step w w'
| step_append_from_inbox context source mid events expected outbox mutation w r w' :
    Forall event_valid events → neutral_mutation mutation →
    append_from_inbox context source mid events expected outbox mutation w = (r, w') →
    store_step w w'
| step_append_fenced context events expected work token gen at_ outbox mutation w r w' :
    Forall event_valid events → neutral_mutation mutation →
    append_fenced context events expected work token gen at_ outbox mutation w = (r, w') →
    store_step w w'
| step_claim_outbox context owner until now limit destination w r w' :
    claim_outbox context owner until now limit destination w = (r, w') → store_step w w'
| step_settle_outbox context mid owner until f w r w' :
    _update_outbox_state context mid owner until f w = (r, w') → store_step w w'
| step_elsewhere {A} (m : Db A) w r w' :
    ledger_neutral m → storage_guard (transaction m) w = (r, w') → store_step w w'.

Definition reachable (w : World) : Prop :=
  ∃ tenants clock uuids, rtc store_step (genesis tenants clock uuids) w.

Lemma genesis_ledger_ok tenants clock uuids : ledger_ok (genesis tenants clock uuids).
Proof. split; simpl; try done; [|constructor]. intros tenant agg. by exists 0%nat. Qed.

Lemma neutral_transaction_ledger {A} (m : Db A) w r w' :
  ledger_neutral m → ledger_ok w → storage_guard (transaction m) w = (r, w') → ledger_ok w'.
Proof.
  intros Hm. apply transaction_ledger_ok; [auto with aegis|].
  intros ? ? ? ? ?. by eapply neutral_ledger_ok.
Qed.

Lemma claim_body_neutral context owner at_dur limit destination :
  ledger_neutral (
    let! at_ := clock_timestamp in
    let expires := at_ + at_dur in
    let! candidates := query (claim_candidates (ctx_str context) destination at_ limit) in
    do! execute (upd_outbox (λ o,
          foldr (λ kv acc, <[kv.1 := lease_row owner expires kv.2]> acc) o candidates)) ;;
    ret (map (claimed_message owner expires) candidates)).
Proof. auto 12 with aegis. Qed.

Lemma settle_body_neutral key owner expires f :
  ledger_neutral (
    let! row := query (λ t, t_outbox t !! key) in
    match row with
    | Some r =>
        if holds_outbox_lease owner expires r
        then execute (upd_outbox <[key := f r]>)
        else raise (ConcurrencyError 1 0)
    | None => raise (ConcurrencyError 1 0)
    end).
Proof.
  apply neutral_bind; [auto with aegis|]. intros [row|]; [|auto with aegis].
  destruct (holds_outbox_lease _ _ _); auto with aegis.
Qed.

Lemma claim_outbox_ledger context owner until now limit destination w r w' :
  ledger_ok w →
  claim_outbox context owner until now limit destination w = (r, w') → ledger_ok w'.
Proof.
  intros Hok. unfold claim_outbox, bind at 1, lift.
  destruct (Dt.sub until now) as [e|dur]; [by intros [= <- <-]|].
  do 2 (apply raise_guard_ledger; [done|]; intros _).
  apply neutral_transaction_ledger; [apply claim_body_neutral|done].
Qed.

Lemma store_step_ledger_ok w w' : store_step w w' → ledger_ok w → ledger_ok w'.
Proof.
  destruct 1; intros Hok.
  - by eapply append_ledger.
  - by eapply append_atomic_ledger.
  - by eapply append_from_inbox_ledger.
  - by eapply append_fenced_ledger.
  - by eapply claim_outbox_ledger.
  - eapply neutral_transaction_ledger; [apply settle_body_neutral|done|done].
  - by eapply neutral_transaction_ledger.
Qed.

Lemma steps_ledger_ok w w' : rtc store_step w w' → ledger_ok w → ledger_ok w'.
Proof. induction 1; intros; [done|]. eauto using store_step_ledger_ok. Qed.

Lemma reachable_ok w : reachable w → ledger_ok w.
Proof. intros (ts & c & u & H). eapply steps_ledger_ok; [done|apply genesis_ledger_ok]. Qed.

(** C3. In every state reachable through the store's interface, whatever
    calls failed on the way, each stream's sequences are 1, 2, ..., n in
    commit order with the aggregate head at n, global positions strictly
    increase, no two events share an event id, a sequence of one aggregate
    or an idempotency key of one tenant, and every stored row is the row of
    a valid event. *)
Theorem ledger_invariant w : reachable w → ledger_ok w.
Proof. apply reachable_ok. Qed.

(** ** Sample data for the witnesses *)

Definition acme : TenantContext := mkTenantContext (mkTenantId "acme").
Definition globex : TenantContext := mkTenantContext (mkTenantId "globex").

Definition sample_event (id : uuid) : EventEnvelope :=
  {| event_id := id; ev_tenant_id := "acme"; aggregate_id := "task-1";
     event_type := "task.requested"; schema_version := 1;
     occurred_at := Dt.Aware 5; payload := [(KStr "n", PInt 7)]; correlation_id := None;
     causation_id := None; aggregate_sequence := 0; global_position := None;
     recorded_at := None; actor := None; identity_reference := None;
     policy_reference := None; audit_reference := None; idempotency_key := None;
     trace_context := None; previous_aggregate_sequence := None; metadata := [] |}.

Definition sample_message (id : uuid) (event : option uuid) : OutboxMessage :=
  mkOutboxMessage id "work-queue" [] [] (Dt.Aware 5) 3 event.

Lemma sample_event_valid id : event_valid (sample_event id).
Proof. split; [split|..]; done. Qed.

Lemma sample_events_valid ids : Forall event_valid (map sample_event ids).
Proof. induction ids; constructor; [apply sample_event_valid|done]. Qed.

Definition start : World :=
  genesis {["acme"; "globex"]}%string (λ n, 1000000 * Z.of_nat n) N.of_nat.

(** After a first append of two events with one outbox message. *)
Definition after_append : World :=
  (append acme [sample_event 1; sample_event 2] 0 [sample_message 9 (Some 2%N)] start).2.

Lemma after_append_reachable : reachable after_append.
Proof.
  exists {["acme"; "globex"]}%string, (λ n, 1000000 * Z.of_nat n), N.of_nat.
  apply rtc_once.
  eapply (step_append acme [sample_event 1; sample_event 2] 0 [sample_message 9 (Some 2%N)]
    start); [apply (sample_events_valid [1; 2]%N)|].
  apply surjective_pairing.
Qed.

(** The invariant on a ledger with two events. *)
Lemma ledger_invariant_witness :
  reachable after_append ∧ ledger_ok after_append ∧
  map er_aggregate_sequence (t_events (w_db after_append)) = [1; 2].
Proof.
  split; [apply after_append_reachable|]. split; [|vm_compute; reflexivity].
  apply (ledger_invariant after_append), after_append_reachable.
Defined.

(** ** Append *)

(** The state in which a transaction opened in [w] runs its body. *)
Definition started (w : World) : World := (begin w).2.

Lemma append_unfold context events expected outbox w :
  _validate_append context events expected = inr tt →
  append context events expected outbox w =
  storage_guard (transaction (_append_in_transaction events expected outbox)) w.
Proof. intros H. unfold append, bind, lift. by rewrite H. Qed.

Lemma transaction_run {A} (body : Db A) w a w' :
  body (started w) = (inr a, w') → storage_guard (transaction body) w = (inr a, w').
Proof.
  intros H. unfold storage_guard, catch, transaction.
  erewrite bind_run; [|reflexivity]. unfold started, begin in H. simpl in H. by rewrite H.
Qed.

Lemma transaction_raise {A} (body : Db A) w e w' :
  body (started w) = (inl e, w') →
  storage_guard (transaction body) w =
  (inl (match e with PsycopgError c => classify_storage_error c | _ => e end),
   set_db (λ _, w_db w) w').
Proof.
  intros H. unfold storage_guard, catch, transaction.
  erewrite bind_run; [|reflexivity]. unfold started, begin in H. simpl in H. rewrite H.
  by destruct e.
Qed.

Lemma validate_targets context events expected :
  _validate_append context events expected = inr tt →
  ∃ agg, targets (ctx_str context) agg events ∧ agg = default ""%string (aggregate_id <$> head events).
Proof.
  intros H. apply validate_append_ok in H as (_ & Hne & agg & Hall). exists agg.
  split; [split; [done|]|].
  - eapply Forall_impl; [exact Hall|]. naive_solver.
  - destruct events as [|e es]; [done|]. apply Forall_cons in Hall as [(_ & Ha & _) _]. done.
Qed.

(** What a committed append leaves behind. *)
Record appended (w w' : World) (tenant agg : string) (events : list EventEnvelope)
    (expected : Z) (outbox : list OutboxMessage) : Prop := {
  ap_log : log w' = log w ++ commit_events events expected (w_position w) (w_txn_start w');
  ap_head : t_heads (w_db w') =
    <[(tenant, agg) := expected + Z.of_nat (length events)]> (t_heads (w_db w));
  ap_outbox : t_outbox (w_db w') = outbox_after tenant outbox (t_outbox (w_db w));
  ap_ledger : ledger_ok w';
}.

Lemma log_append w stream v rows outbox :
  log (append_world w stream v rows outbox) = log w ++ omap decode rows.
Proof. unfold log. simpl. by rewrite omap_app. Qed.

Lemma append_world_appended w tenant agg events outbox :
  ledger_ok w → Forall event_valid events → targets tenant agg events →
  let expected := default 0 (t_heads (w_db w) !! (tenant, agg)) in
  let rows := new_rows events expected (w_position w) (w_txn_start w) in
  rows_fit (t_events (w_db w)) rows →
  appended w (append_world w (tenant, agg) (expected + Z.of_nat (length events)) rows outbox)
    tenant agg events expected outbox.
Proof.
  intros Hok Hv [_ Htgt] expected rows Hfit. split; [|done..|].
  - rewrite log_append. simpl. unfold rows. rewrite decode_new_rows; [done|done| |apply Hok].
    unfold expected. destruct (lo_streams _ Hok tenant agg) as (n & _ & ->). lia.
  - by apply append_world_ledger_ok.
Qed.

Lemma log_started w : log (started w) = log w.
Proof. done. Qed.

Lemma started_ledger_ok w : ledger_ok w → ledger_ok (started w).
Proof. apply ledger_ok_ext; simpl; done || lia. Qed.

Lemma append_commits context agg events outbox w :
  ledger_ok w → Forall event_valid events → targets (ctx_str context) agg events →
  let expected := default 0 (t_heads (w_db w) !! (ctx_str context, agg)) in
  _validate_append context events expected = inr tt →
  append_fits (ctx_str context) agg events outbox (started w) →
  ∃ w', append context events expected outbox w =
          (inr (expected + Z.of_nat (length events)), w') ∧
        appended w w' (ctx_str context) agg events expected outbox.
Proof.
  intros Hok Hv Htgt expected Hval Hfits. eexists. split.
  - rewrite append_unfold by done. apply transaction_run.
    exact (append_in_transaction_run (ctx_str context) agg events outbox (started w)
             Htgt Hfits).
  - destruct (append_world_appended (started w) (ctx_str context) agg events outbox)
      as [H1 H2 H3 H4]; [by apply started_ledger_ok|done..|by apply Hfits|].
    by split.
Qed.

(** C7. An append against the current head of a registered tenant's stream,
    whose rows and outbox messages violate no constraint, commits: it
    returns the new version, the ledger grows by exactly the given events,
    numbered from the head on, the head moves to the new version and the
    outbox gains exactly the given messages. *)
Theorem append_succeeds context agg events outbox w :
  reachable w → Forall event_valid events → targets (ctx_str context) agg events →
  let expected := default 0 (t_heads (w_db w) !! (ctx_str context, agg)) in
  _validate_append context events expected = inr tt →
  append_fits (ctx_str context) agg events outbox (started w) →
  ∃ w', append context events expected outbox w =
          (inr (expected + Z.of_nat (length events)), w') ∧
        appended w w' (ctx_str context) agg events expected outbox.
Proof. intros Hw. by apply append_commits, reachable_ok. Qed.

Lemma sample_fits :
  append_fits "acme" "task-1" [sample_event 3] [sample_message 10 (Some 3%N)]
    (started after_append).
Proof.
  split.
  - apply (bool_decide_unpack _). vm_compute. done.
  - assert (Hnew : ∃ r, new_rows [sample_event 3] (default 0 (t_heads (w_db
      (started after_append)) !! ("acme", "task-1")%string)) (w_position (started after_append))
      (w_txn_start (started after_append)) = [r] ∧
      row_fits (t_events (w_db (started after_append))) r).
    { eexists. split; [reflexivity|]. split; [reflexivity|]. vm_compute. by repeat constructor. }
    destruct Hnew as (r & -> & Hr). apply rows_fit_cons. split; [done|].
    by intros [|] ? ?.
  - split; [by repeat constructor; apply not_elem_of_nil|].
    repeat constructor; try done. intros id [= <-].
    eexists. split; [apply elem_of_app; right; left|done].
Qed.

(** A third event appended at version 2. *)
Lemma append_succeeds_witness :
  ∃ w', append acme [sample_event 3] 2 [sample_message 10 (Some 3%N)] after_append =
          (inr 3, w') ∧
        appended after_append w' "acme" "task-1" [sample_event 3] 2
          [sample_message 10 (Some 3%N)].
Proof.
  apply (append_succeeds acme "task-1" [sample_event 3] [sample_message 10 (Some 3%N)]
    after_append after_append_reachable (sample_events_valid [3%N])).
  - split; [done|]. by repeat constructor.
  - reflexivity.
  - apply sample_fits.
Defined.

(** The version of an aggregate: the head row's, or 0 for a new stream. *)
Definition head_version (w : World) (tenant agg : string) : Z :=
  default 0 (t_heads (w_db w) !! (tenant, agg)).

(** C8. A failing append leaves every table as it was.  It fails with a
    [ValueError] exactly when its arguments are invalid; otherwise with a
    [ConcurrencyError] that carries the expected version and the actual
    head, which differ, or with the permanent error of a violated
    constraint; and against another version than the head's it does fail
    that way. *)
Theorem append_fails context events expected outbox w :
  (∀ e w', append context events expected outbox w = (inl e, w') →
     w_db w' = w_db w ∧
     ((∃ msg, e = ValueError msg ∧ _validate_append context events expected = inl e) ∨
      e = PermanentStorageError "permanent PostgreSQL storage failure" ∨
      ∃ agg, targets (ctx_str context) agg events ∧
        head_version w (ctx_str context) agg ≠ expected ∧
        e = ConcurrencyError expected (head_version w (ctx_str context) agg))) ∧
  (∀ agg, _validate_append context events expected = inr tt →
     targets (ctx_str context) agg events → ctx_str context ∈ t_tenants (w_db w) →
     head_version w (ctx_str context) agg ≠ expected →
     ∃ w', append context events expected outbox w =
       (inl (ConcurrencyError expected (head_version w (ctx_str context) agg)), w')).
Proof.
  split.
  - intros e w'. destruct (_validate_append context events expected) as [e0|[]] eqn:Hval.
    + unfold append, bind, lift. rewrite Hval. intros [= <- <-]. split; [done|]. left.
      revert Hval. unfold _validate_append. destruct events; unfold reject_if;
        repeat (case_match; simpl); intros [= <-]; eauto.
    + rewrite append_unfold by done. intros Hrun.
      destruct (validate_targets _ _ _ Hval) as (agg & Htgt & _).
      destruct (_append_in_transaction events expected outbox (started w))
        as [[e1|v] w1] eqn:Hbody.
      * rewrite (transaction_raise _ _ _ _ Hbody) in Hrun. injection Hrun as <- <-.
        split; [done|]. right.
        destruct (append_in_transaction_error _ _ _ _ _ _ _ _ Htgt Hbody) as [->|[Hne ->]];
          [by left|right; by exists agg].
      * by rewrite (transaction_run _ _ _ _ Hbody) in Hrun.
  - intros agg Hval Htgt Hten Hne. rewrite append_unfold by done.
    destruct (append_in_transaction_conflict (ctx_str context) agg events outbox (started w)
      expected) as (w1 & H1); [done|done|by apply not_eq_sym|].
    eexists. by apply (transaction_raise _ _ _ _ H1).
Qed.

(** Reading a stream of a reachable ledger never reports a gap: the
    generator yields the committed events of that aggregate after
    [after_version], at most [limit] of them, in sequence, and finishes
    normally. *)
Theorem read_stream_exact w context aggregate after limit :
  reachable w → 0 ≤ after → 1 ≤ limit ≤ 1000 →
  ∃ w', read_stream context aggregate after limit w =
    (inr (take (Z.to_nat limit)
            (drop (Z.to_nat after) (stream_events (ctx_str context) aggregate (log w))),
          inr tt), w') ∧ w_db w' = w_db w.
Proof.
  intros Hw Ha Hl. destruct (read_stream_run w context aggregate after limit)
    as (w' & H & Hdb & _); [by apply reachable_ok|done..|]. eauto.
Qed.

Lemma read_stream_exact_witness :
  ∃ w', read_stream acme "task-1" 1 10 after_append =
    (inr ([committed (sample_event 2) 2 2 0 None], inr tt), w') ∧
    w_db w' = w_db after_append.
Proof.
  apply (read_stream_exact after_append acme "task-1" 1 10 after_append_reachable); lia.
Defined.

(** A page of a reachable ledger is exactly the tenant's next [limit]
    events in commit order, each with its predecessor's sequence; no gap is
    reported; and when a next cursor is returned, the events of the page
    followed by the events after the cursor are all the events after the
    old cursor, so that paging visits each event exactly once. *)
Theorem read_all_pages w context after limit :
  reachable w → 0 ≤ after → 1 ≤ limit ≤ 1000 →
  let rest := tenant_events (ctx_str context) after (log w) in
  ∃ page w', read_all context after limit w = (inr page, w') ∧ w_db w' = w_db w ∧
    pg_events page = map with_predecessor (take (Z.to_nat limit) rest) ∧
    match pg_next_cursor page with
    | None => (length rest < Z.to_nat limit)%nat
    | Some next =>
        after < next ∧
        rest = take (Z.to_nat limit) rest ++ tenant_events (ctx_str context) next (log w)
    end.
Proof.
  intros Hw Ha Hl rest. apply reachable_ok in Hw as Hok.
  destruct (read_all_run w context after limit) as (w' & Hrun & Hdb & _); [done..|].
  exists (abstract_page (ctx_str context) after limit (log w)), w'.
  do 3 (split; [done|]). apply abstract_page_cursor; [done|lia].
Qed.

(** Both outcomes of a refused append occur. *)
Lemma append_fails_witness :
  (append acme [sample_event 3] 1 [] after_append).1 = inl (ConcurrencyError 1 2) ∧
  w_db (append acme [sample_event 3] 1 [] after_append).2 = w_db after_append.
Proof.
  split; [vm_compute; reflexivity|].
  apply (append_fails acme [sample_event 3] 1 [] after_append) with (ConcurrencyError 1 2).
  vm_compute. reflexivity.
Defined.

(** Paging a two-event ledger one event at a time. *)
Lemma read_all_pages_witness :
  ∃ page w', read_all acme 0 1 after_append = (inr page, w') ∧
    w_db w' = w_db after_append ∧
    pg_events page = [committed (sample_event 1) 1 1 0 None] ∧
    match pg_next_cursor page with
    | None => False
    | Some next => 0 < next ∧ tenant_events "acme" next (log after_append) =
                              [committed (sample_event 2) 2 2 0 None]
    end.
Proof.
  destruct (read_all_pages after_append acme 0 1 after_append_reachable)
    as (page & w' & Hrun & Hdb & Hevents & Hcursor); [lia..|].
  exists page, w'. do 2 (split; [done|]). split; [rewrite Hevents; vm_compute; reflexivity|].
  destruct (pg_next_cursor page) as [next|]; [|vm_compute in Hcursor; lia].
  destruct Hcursor as [Hlt Hrest]. split; [done|].
  vm_compute in Hrest |- *. by injection Hrest.
Defined.

Lemma stream_length w tenant agg :
  ledger_ok w →
  length (stream_events tenant agg (log w)) =
  Z.to_nat (default 0 (t_heads (w_db w) !! (tenant, agg))).
Proof.
  intros Hok. rewrite stream_events_log by done.
  destruct (lo_streams _ Hok tenant agg) as (n & Hn & ->). rewrite Nat2Z.id.
  assert (Hg : Forall good_row (stream_rows tenant agg (t_events (w_db w))))
    by by apply good_rows_filter, ledger_good_rows.
  transitivity (length (stream_rows tenant agg (t_events (w_db w)))).
  - clear Hn. induction Hg as [|r rows Hr _ IH]; [done|].
    destruct (good_row_decode _ Hr) as (e & He & _).
    rewrite (omap_decode_cons r e _ He). simpl. by f_equal.
  - rewrite <- (length_map er_aggregate_sequence), Hn. unfold sequences.
    by rewrite length_map, length_seq.
Qed.

Lemma stream_commit tenant agg events v p ts :
  Forall (λ e, ev_tenant_id e = tenant ∧ aggregate_id e = agg) events →
  stream_events tenant agg (commit_events events v p ts) = commit_events events v p ts.
Proof.
  intros Hall. revert v p. induction Hall as [|e es [Ht Ha] _ IH]; intros v p; [done|].
  simpl. unfold of_stream. simpl. rewrite Ht, Ha, !bool_decide_true by done. simpl.
  f_equal. apply IH.
Qed.

Lemma commit_events_length events v p ts : length (commit_events events v p ts) = length events.
Proof. revert v p. induction events as [|e es IH]; intros; simpl; auto. Qed.

Lemma append_inv context events expected outbox w v w' :
  ledger_ok w → Forall event_valid events →
  append context events expected outbox w = (inr v, w') →
  ∃ agg, targets (ctx_str context) agg events ∧
    agg = default ""%string (aggregate_id <$> head events) ∧
    expected = default 0 (t_heads (w_db w) !! (ctx_str context, agg)) ∧
    v = expected + Z.of_nat (length events) ∧
    appended w w' (ctx_str context) agg events expected outbox.
Proof.
  intros Hok Hv Hrun. unfold append in Hrun. apply bind_ok in Hrun as ([] & w0 & Hval & Hrun).
  apply lift_run in Hval as [Hval ->]. symmetry in Hval.
  destruct (validate_targets _ _ _ Hval) as (agg & Htgt & Hagg).
  destruct (_append_in_transaction events expected outbox (started w))
    as [[e1|v1] w1] eqn:Hbody; [by rewrite (transaction_raise _ _ _ _ Hbody) in Hrun|].
  rewrite (transaction_run _ _ _ _ Hbody) in Hrun. injection Hrun as <- <-.
  apply append_in_transaction_ok in Hbody
    as (first & rest & -> & _ & Hexp & -> & -> & Hfits & _).
  assert (ev_tenant_id first = ctx_str context ∧ aggregate_id first = agg) as [Hft Hfa]
    by (destruct Htgt as [_ Htgt]; by apply Forall_cons in Htgt as [? _]).
  rewrite Hft, Hfa in *. exists agg. do 2 (split; [done|]). split; [by symmetry|].
  split; [done|]. rewrite <- Hexp in *.
  destruct (append_world_appended (started w) (ctx_str context) agg (first :: rest) outbox)
    as [H1 H2 H3 H4]; [by apply started_ledger_ok|done..|]. by split.
Qed.

(** C4. Round trip: after a successful append, reading the stream from the
    expected version returns exactly the appended events, with consecutive
    sequences, the positions drawn and the transaction's timestamp added and
    every other field as given. *)
Theorem append_read_roundtrip context events expected outbox w v w1 limit :
  reachable w → Forall event_valid events →
  append context events expected outbox w = (inr v, w1) →
  Z.of_nat (length events) ≤ limit ≤ 1000 →
  ∃ w2, read_stream context (default ""%string (aggregate_id <$> head events))
          expected limit w1 =
    (inr (commit_events events expected (w_position w) (w_txn_start w1), inr tt), w2).
Proof.
  intros Hw Hv Hrun Hl. apply reachable_ok in Hw as Hok.
  destruct (append_inv _ _ _ _ _ _ _ Hok Hv Hrun)
    as (agg & [Hne Htgt] & <- & Hexp & -> & [Hlog _ _ Hok1]).
  assert (length events ≠ 0%nat) by by destruct events.
  assert (0 ≤ expected) as Hpos.
  { rewrite Hexp. destruct (lo_streams _ Hok (ctx_str context) agg) as (n & _ & ->). lia. }
  destruct (read_stream_run w1 context agg expected limit) as (w2 & Hread & _);
    [done|lia|lia|].
  exists w2. rewrite Hread, Hlog. unfold stream_events. rewrite List.filter_app.
  fold (stream_events (ctx_str context) agg (log w)).
  fold (stream_events (ctx_str context) agg
          (commit_events events expected (w_position w) (w_txn_start w1))).
  rewrite stream_commit by done.
  rewrite drop_app_length'; [|rewrite stream_length by done; by rewrite <- Hexp].
  rewrite firstn_all2; [done|]. rewrite commit_events_length. lia.
Qed.

Lemma append_read_roundtrip_witness :
  ∃ w2, read_stream acme "task-1" 0 5 after_append =
    (inr (commit_events [sample_event 1; sample_event 2] 0 0 0, inr tt), w2).
Proof.
  apply (append_read_roundtrip acme [sample_event 1; sample_event 2] 0
           [sample_message 9 (Some 2%N)] start 2 after_append 5).
  - exists {["acme"; "globex"]}%string, (λ n, 1000000 * Z.of_nat n), N.of_nat. apply rtc_refl.
  - apply (sample_events_valid [1; 2]%N).
  - unfold after_append. rewrite (surjective_pairing (append _ _ _ _ start)) at 1.
    f_equal.
  - simpl. lia.
Defined.

(** ** Inbox *)

Definition inbox_kept (w w' : World) : Prop :=
  ∀ k v, t_inbox (w_db w) !! k = Some (Some v) → t_inbox (w_db w') !! k = Some (Some v).

Lemma transaction_inbox {A} (body : Db A) w r w' :
  (∀ w a w', body w = (inr a, w') → inbox_kept w w') →
  storage_guard (transaction body) w = (r, w') → inbox_kept w w'.
Proof.
  intros Hbody Hrun. destruct (body (started w)) as [[e|a] w1] eqn:Hb.
  - rewrite (transaction_raise _ _ _ _ Hb) in Hrun. injection Hrun as <- <-. by intros k v.
  - rewrite (transaction_run _ _ _ _ Hb) in Hrun. injection Hrun as <- <-.
    by apply Hbody in Hb.
Qed.

Lemma append_in_transaction_inbox events expected outbox w v w' :
  _append_in_transaction events expected outbox w = (inr v, w') →
  t_inbox (w_db w') = t_inbox (w_db w).
Proof.
  intros H. by apply append_in_transaction_ok in H as (? & ? & _ & _ & _ & _ & -> & _).
Qed.

Lemma neutral_inbox {A} (m : Db A) w r w' :
  ledger_neutral m → m w = (r, w') → t_inbox (w_db w') = t_inbox (w_db w).
Proof. intros Hm H. by destruct (Hm _ _ _ H) as [(_ & _ & _ & ->) _]. Qed.

Lemma guard_inbox {A} (r : result unit) (k : Db A) w x w' :
  (k w = (x, w') → inbox_kept w w') → (do! lift r ;; k) w = (x, w') → inbox_kept w w'.
Proof. intros Hk. unfold bind, lift. destruct r; [by intros [= <- <-] ? ?|done]. Qed.

Lemma raise_guard_inbox {A} b e (k : Db A) w x w' :
  (k w = (x, w') → inbox_kept w w') → (do! raise_if b e ;; k) w = (x, w') → inbox_kept w w'.
Proof. intros Hk. unfold bind, raise_if. destruct b; [by intros [= <- <-] ? ?|done]. Qed.

(** The inbox entry an accepted delivery leaves. *)
Lemma append_from_inbox_inv context source mid events expected outbox m w r w' :
  neutral_mutation m →
  append_from_inbox context source mid events expected outbox m w = (inr r, w') →
  let key := (ctx_str context, source, mid) in
  t_inbox (w_db w') !! key = Some (Some (ar_aggregate_version r)) ∧
  (∀ k, k ≠ key → t_inbox (w_db w') !! k = t_inbox (w_db w) !! k) ∧
  (if ar_duplicate r then w_db w' = w_db w ∧
     t_inbox (w_db w) !! key = Some (Some (ar_aggregate_version r))
   else t_inbox (w_db w) !! key = None).
Proof.
  intros Hm Hrun key. unfold append_from_inbox in Hrun.
  apply bind_ok in Hrun as (u1 & w1 & H1 & Hrun). apply raise_if_ok in H1 as (_ & -> & _).
  apply bind_ok in Hrun as (u2 & w2 & H2 & Hrun). apply lift_run in H2 as [_ ->].
  fold key in Hrun.
  match type of Hrun with storage_guard (transaction ?b) _ = _ => set (body := b) in Hrun end.
  destruct (body (started w)) as [[e|a] w3] eqn:Hb;
    [by rewrite (transaction_raise _ _ _ _ Hb) in Hrun|].
  rewrite (transaction_run _ _ _ _ Hb) in Hrun. injection Hrun as <- <-.
  unfold body in Hb. db_inv.
  destruct (t_inbox (w_db w) !! key) as [[v|]|] eqn:Hkey; db_inv; [done|].
  match goal with Ha : _append_in_transaction _ _ _ ?wa = (_, ?wb),
    Hmut : match m with Some _ => _ | None => _ end ?wc = _ |- _ =>
    apply append_in_transaction_inbox in Ha; simpl in Ha;
    apply neutral_inbox in Hmut; [|by apply neutral_optional]; simpl in Hmut;
    rewrite Hmut, Ha end.
  split; [by rewrite lookup_insert_eq|]. split; [|done].
  intros k Hk. by rewrite !lookup_insert_ne by done.
Qed.

Lemma append_from_inbox_kept context source mid events expected outbox m w r w' :
  neutral_mutation m →
  append_from_inbox context source mid events expected outbox m w = (r, w') →
  inbox_kept w w'.
Proof.
  intros Hm Hrun. destruct r as [e|r].
  - revert Hrun. apply raise_guard_inbox, guard_inbox. intros Hrun.
    apply storage_guard_inv in Hrun as ([e'|a] & Hrun & Hiff & _).
    + intros k v. by rewrite (transaction_err _ _ _ _ Hrun).
    + destruct (Hiff a) as [_ Hbad]. by specialize (Hbad eq_refl).
  - destruct (append_from_inbox_inv _ _ _ _ _ _ _ _ _ _ Hm Hrun) as (Hkey & Hother & Hcase).
    intros k v Hk. destruct (decide (k = (ctx_str context, source, mid))) as [->|Hne].
    + rewrite Hkey. destruct (ar_duplicate r); [destruct Hcase; congruence|congruence].
    + by rewrite Hother.
Qed.

Lemma store_step_inbox w w' : store_step w w' → inbox_kept w w'.
Proof.
  destruct 1 as [ ? ? ? ? ? ? ? _ Hrun | ? ? ? ? ? ? ? ? _ Hm Hrun
    | ? ? ? ? ? ? ? ? ? ? _ Hm Hrun | ? ? ? ? ? ? ? ? ? ? ? ? _ Hm Hrun
    | ? ? ? ? ? ? ? ? ? Hrun | ? ? ? ? ? ? ? ? Hrun | ? ? ? ? ? Hm Hrun ];
    revert Hrun.
  - apply guard_inbox, transaction_inbox. intros ? ? ? H k v.
    by rewrite (append_in_transaction_inbox _ _ _ _ _ _ H).
  - apply guard_inbox, transaction_inbox. intros ? ? ? H k v.
    apply bind_ok in H as (v1 & w1 & H & H2).
    rewrite (neutral_inbox _ _ _ _ (neutral_bind _ _ Hm (λ _, neutral_ret v1)) H2).
    by rewrite (append_in_transaction_inbox _ _ _ _ _ _ H).
  - intros Hrun. by eapply append_from_inbox_kept.
  - apply guard_inbox. do 3 apply raise_guard_inbox. apply transaction_inbox.
    intros ? ? ? H k v. db_inv.
    match goal with Ha : _append_in_transaction _ _ _ ?wa = (_, ?wb),
      Hmut : match _ with Some _ => _ | None => _ end ?wc = _ |- _ =>
      apply append_in_transaction_inbox in Ha; simpl in Ha;
      apply neutral_inbox in Hmut; [|by apply neutral_optional]; simpl in Hmut;
      by rewrite Hmut, Ha end.
  - unfold claim_outbox, bind at 1, lift.
    destruct (Dt.sub _ _) as [e|dur]; [by intros [= <- <-] ? ?|].
    do 2 apply raise_guard_inbox. apply transaction_inbox. intros ? ? ? H k v.
    by rewrite (neutral_inbox _ _ _ _ (claim_body_neutral _ _ _ _ _) H).
  - apply transaction_inbox. intros ? ? ? H k v.
    by rewrite (neutral_inbox _ _ _ _ (settle_body_neutral _ _ _ _) H).
  - apply transaction_inbox. intros ? ? ? H k v. by rewrite (neutral_inbox _ _ _ _ Hm H).
Qed.

Lemma steps_inbox w w' : rtc store_step w w' → inbox_kept w w'.
Proof.
  induction 1 as [|x y z Hxy _ IH]; [by intros k v|].
  intros k v Hk. by apply IH, (store_step_inbox _ _ Hxy).
Qed.

(** C6. Exactly-once deliveries: once a delivery with an inbox message id has
    been applied, any later redelivery of it, after any sequence of store
    operations and whatever events it carries, is recognised: it reports a
    duplicate with the version the first delivery committed and changes no
    table. *)
Theorem inbox_exactly_once context source mid events expected outbox m w r w1
    w2 events' expected' outbox' m' :
  neutral_mutation m →
  append_from_inbox context source mid events expected outbox m w = (inr r, w1) →
  rtc store_step w1 w2 →
  _validate_append context events' expected' = inr tt →
  ∃ w3, append_from_inbox context source mid events' expected' outbox' m' w2 =
          (inr (mkAppendResult (ar_aggregate_version r) true), w3) ∧ w_db w3 = w_db w2.
Proof.
  intros Hm Hrun Hsteps Hval.
  destruct (append_from_inbox_inv _ _ _ _ _ _ _ _ _ _ Hm Hrun) as (Hkey & _).
  apply (steps_inbox _ _ Hsteps) in Hkey.
  unfold append_from_inbox in *. apply bind_ok in Hrun as (u1 & w0 & Hr & _).
  apply raise_if_ok in Hr as (Hargs & _). eexists. split.
  - erewrite bind_run by (rewrite Hargs; reflexivity).
    erewrite bind_run by (unfold lift; rewrite Hval; reflexivity).
    apply transaction_run. py_go. py_go. simpl. rewrite Hkey. reflexivity.
  - done.
Qed.

Lemma inbox_exactly_once_witness :
  ∃ w3, append_from_inbox acme "queue" "m-1" [sample_event 2] 7 [] None
          (append_from_inbox acme "queue" "m-1" [sample_event 1] 0 [] None start).2 =
          (inr (mkAppendResult 1 true), w3) ∧
        w_db w3 = w_db (append_from_inbox acme "queue" "m-1" [sample_event 1] 0 [] None start).2.
Proof.
  eapply (inbox_exactly_once acme "queue" "m-1" [sample_event 1] 0 [] None start
            (mkAppendResult 1 false)); [exact I| |apply rtc_refl|reflexivity].
  rewrite (surjective_pairing (append_from_inbox _ _ _ _ _ _ _ start)) at 1. f_equal.
Defined.

(** ** Fenced appends *)

(** The lease under which a fenced append opened in [w] finds itself. *)
Definition holds_lease (w : World) (tenant : string) (work token : uuid) (gen : Z) : Prop :=
  ∃ row, t_work_leases (w_db w) !! (tenant, work) = Some row ∧
         lease_current row token gen (w_clock w (S (w_tick w))) = true.

(** The argument checks of [append_fenced]. *)
Definition fence_arguments (context : TenantContext) (events : list EventEnvelope)
    (expected : Z) (work token : uuid) (gen : Z) (at_ : Dt.datetime) : Prop :=
  _validate_append context events expected = inr tt ∧ Dt.naive at_ = false ∧ 1 ≤ gen ∧
  Forall (λ e, aggregate_id e = Uuid.to_str work ∧
    equals_str (dict_get "lease_token" (payload e)) (Uuid.to_str token) = true ∧
    equals_int (dict_get "lease_generation" (payload e)) gen = true) events.

Definition fenced_body (context : TenantContext) (events : list EventEnvelope)
    (expected : Z) (work token : uuid) (gen : Z) (outbox : list OutboxMessage)
    (mutation : option (Db unit)) : Db Z :=
  let! now := clock_timestamp in
  let! lease := query (λ t, t_work_leases t !! (ctx_str context, work)) in
  do! raise_if (match lease with
                | Some row => negb (lease_current row token gen now)
                | None => true
                end) (FencingError gen 0) ;;
  let! version := _append_in_transaction events expected outbox in
  do! match mutation with Some m => m | None => ret tt end ;;
  ret version.

Lemma fence_arguments_spec context events expected work token gen at_ outbox m w :
  (fence_arguments context events expected work token gen at_ ∧
   append_fenced context events expected work token gen at_ outbox m w =
   storage_guard (transaction (fenced_body context events expected work token gen outbox m)) w)
  ∨ (¬ fence_arguments context events expected work token gen at_ ∧
     ∃ e, append_fenced context events expected work token gen at_ outbox m w = (inl e, w)).
Proof.
  unfold append_fenced, fence_arguments.
  destruct (_validate_append context events expected) as [e|[]] eqn:Hval.
  { right. split; [by intros (? & _)|]. eexists. by apply bind_fail. }
  erewrite bind_run by reflexivity.
  destruct (Dt.naive at_ || (gen <? 1)) eqn:H1.
  { right. split; [|eexists; by apply bind_fail]. intros (_ & Hn & Hg & _).
    rewrite Hn in H1. simpl in H1. bool_props. lia. }
  erewrite bind_run by reflexivity.
  destruct (existsb _ events) eqn:H2.
  { right. split; [|eexists; by apply bind_fail]. intros (_ & _ & _ & Hall).
    apply existsb_exists in H2 as (e & He & Hne). apply list_elem_of_In in He.
    eapply Forall_forall in Hall as (Ha & _); [|exact He].
    rewrite bool_decide_true in Hne by done. done. }
  erewrite bind_run by reflexivity.
  destruct (existsb (λ e, _ || _) events) eqn:H3.
  { right. split; [|eexists; by apply bind_fail]. intros (_ & _ & _ & Hall).
    apply existsb_exists in H3 as (e & He & Hne). apply list_elem_of_In in He.
    eapply Forall_forall in Hall as (_ & Ht & Hg); [|exact He].
    rewrite Ht, Hg in Hne. done. }
  erewrite bind_run by reflexivity. left. bool_props. split; [|done].
  do 3 (split; [done|]). apply Forall_forall. intros e He.
  apply existsb_false_Forall in H2, H3.
  eapply Forall_forall in H2; [|exact He]. eapply Forall_forall in H3; [|exact He].
  by bool_props.
Qed.

(** Fencing: a fenced append commits only while the caller's lease (same
    token, same generation, not released, not expired by the server's clock)
    is the current one, only events that carry that token and generation and
    belong to the leased work; without such a lease it raises
    [FencingError]; whenever it fails nothing is changed. *)
Theorem append_fenced_requires_lease context events expected work token gen at_ outbox m w r w' :
  append_fenced context events expected work token gen at_ outbox m w = (r, w') →
  match r with
  | inr v => fence_arguments context events expected work token gen at_ ∧
             holds_lease w (ctx_str context) work token gen ∧
             v = expected + Z.of_nat (length events)
  | inl e => w_db w' = w_db w ∧
             (fence_arguments context events expected work token gen at_ →
              ¬ holds_lease w (ctx_str context) work token gen → e = FencingError gen 0)
  end.
Proof.
  destruct (fence_arguments_spec context events expected work token gen at_ outbox m w)
    as [[Hargs ->]|[Hargs [e0 ->]]]; [|by intros [= <- <-]].
  intros Hrun.
  destruct (fenced_body context events expected work token gen outbox m (started w))
    as [[e1|v] w1] eqn:Hb.
  - rewrite (transaction_raise _ _ _ _ Hb) in Hrun. injection Hrun as <- <-.
    split; [done|]. intros _ Hno. revert Hb. unfold fenced_body. py_go. py_go.
    rewrite bind_fail with (e := FencingError gen 0) (s' := (clock_timestamp (started w)).2);
      [by intros [= <- _]|].
    simpl. destruct (t_work_leases (w_db w) !! (ctx_str context, work)) as [row|] eqn:Hrow;
      [|done].
    destruct (lease_current row token gen _) eqn:Hcur; [|done].
    exfalso. apply Hno. by exists row.
  - rewrite (transaction_run _ _ _ _ Hb) in Hrun. injection Hrun as <- <-.
    split; [done|]. unfold fenced_body in Hb. db_inv.
    split.
    + destruct (t_work_leases (w_db w) !! (ctx_str context, work)) as [row|] eqn:Hrow; [|done].
      exists row. split; [done|]. by bool_props.
    + match goal with Ha : _append_in_transaction _ _ _ _ = _ |- _ =>
        apply append_in_transaction_ok in Ha as (? & ? & _ & _ & _ & -> & _) end. done.
Qed.

(** A work item leased under token 7 and generation 1 until 10 s. *)
Definition leased : World :=
  set_db (upd_work_leases <[("acme"%string, 4%N) :=
    mkLeaseRow 7 1 "worker" 0 0 10000000 None None]>) start.

Definition leased_event (token : uuid) : EventEnvelope :=
  {| event_id := 1; ev_tenant_id := "acme"; aggregate_id := Uuid.to_str 4;
     event_type := "work.started"; schema_version := 1;
     occurred_at := Dt.Aware 5;
     payload := [(KStr "lease_token", PStr (Uuid.to_str token));
                 (KStr "lease_generation", PInt 1)];
     correlation_id := None;
     causation_id := None; aggregate_sequence := 0; global_position := None;
     recorded_at := None; actor := None; identity_reference := None;
     policy_reference := None; audit_reference := None; idempotency_key := None;
     trace_context := None; previous_aggregate_sequence := None; metadata := [] |}.

Lemma append_fenced_requires_lease_witness :
  (append_fenced acme [leased_event 7] 0 4 7 1 (Dt.Aware 5) [] None leased).1 = inr 1 ∧
  holds_lease leased "acme" 4 7 1 ∧
  (append_fenced acme [leased_event 8] 0 4 8 1 (Dt.Aware 5) [] None leased).1
  = inl (FencingError 1 0).
Proof.
  assert (Hok : (append_fenced acme [leased_event 7] 0 4 7 1 (Dt.Aware 5) [] None leased).1
    = inr 1) by (vm_compute; reflexivity).
  split; [done|]. split; [|vm_compute; reflexivity].
  pose proof (append_fenced_requires_lease _ _ _ _ _ _ _ _ _ leased _ _
    (surjective_pairing (append_fenced acme [leased_event 7] 0 4 7 1 (Dt.Aware 5) [] None
                           leased))) as H.
  rewrite Hok in H. apply H.
Defined.
