(* ===== verification/Parsing.v ===== *)
(** * Reading UUIDs and decimals from text

    [UUID(text)] and [Decimal(text)] of the Python library, as the projections
    use them on event payloads, and the inverse of the UUID's text form. *)

From stdpp Require Import base list strings.
From Stdlib Require Import ZArith Lia Ascii.
From S2P Require Import Prelude PyLib Amounts.

Local Open Scope Z_scope.

(** ** Strings *)

(** [s.replace(p, "")] of a non-empty [p]; [skip] characters of the current
    match are still to be dropped. *)
Fixpoint remove_from (p : string) (skip : nat) (s : string) : string :=
  match s with
  | EmptyString => EmptyString
  | String c s' =>
      match skip with
      | S k => remove_from p k s'
      | O => if String.prefix p s then remove_from p (pred (String.length p)) s'
             else String c (remove_from p 0 s')
      end
  end.

Definition str_remove (p s : string) : string := remove_from p 0 s.

(** [s.strip(chars)] *)
Fixpoint lstrip_by (f : Ascii.ascii → bool) (s : string) : string :=
  match s with
  | String c s' => if f c then lstrip_by f s' else s
  | EmptyString => EmptyString
  end.

Fixpoint rstrip_by (f : Ascii.ascii → bool) (s : string) : string :=
  match s with
  | EmptyString => EmptyString
  | String c s' =>
      match rstrip_by f s' with
      | EmptyString => if f c then EmptyString else String c EmptyString
      | s'' => String c s''
      end
  end.

Definition lower_ascii (c : Ascii.ascii) : Ascii.ascii :=
  let n := Ascii.N_of_ascii c in
  if (65 <=? n)%N && (n <=? 90)%N then Ascii.ascii_of_N (n + 32) else c.

Fixpoint lower (s : string) : string :=
  match s with
  | EmptyString => EmptyString
  | String c s' => String (lower_ascii c) (lower s')
  end.

Fixpoint all_chars (f : Ascii.ascii → bool) (s : string) : bool :=
  match s with
  | EmptyString => true
  | String c s' => f c && all_chars f s'
  end.

Definition is_ascii (c : Ascii.ascii) : bool := (Ascii.N_of_ascii c <? 128)%N.

(** ** UUIDs *)

Definition hex_value (c : Ascii.ascii) : option N :=
  let n := Ascii.N_of_ascii c in
  if (48 <=? n)%N && (n <=? 57)%N then Some (n - 48)%N
  else if (97 <=? n)%N && (n <=? 102)%N then Some (n - 87)%N
  else if (65 <=? n)%N && (n <=? 70)%N then Some (n - 55)%N
  else None.

(** Digits with single underscores between them. *)
Fixpoint hex_number (s : string) (acc : N) (after_digit : bool) : option N :=
  match s with
  | EmptyString => if after_digit then Some acc else None
  | String c s' =>
      match hex_value c with
      | Some d => hex_number s' (16 * acc + d) true
      | None => if Ascii.eqb c "_"%char && after_digit then hex_number s' acc false else None
      end
  end.

Definition hex_body (s : string) : option N :=
  if String.prefix "0x" s || String.prefix "0X" s then
    match String.substring 2 (String.length s - 2) s with
    | String "_" s' => hex_number s' 0 false
    | s' => hex_number s' 0 false
    end
  else hex_number s 0 false.

(** [int(s, 16)] where a negative number is not wanted. *)
Definition int16 (s : string) : option N :=
  match PyStr.strip s with
  | String "-" s' => match hex_body s' with Some 0%N => Some 0%N | _ => None end
  | String "+" s' => hex_body s'
  | s' => hex_body s'
  end.

Definition is_brace (c : Ascii.ascii) : bool := Ascii.eqb c "{"%char || Ascii.eqb c "}"%char.

(** [UUID(text)] *)
Definition uuid_of_str (s : string) : result uuid :=
  let bad := ValueError "badly formed hexadecimal UUID string" in
  let s := str_remove "uuid:" (str_remove "urn:" s) in
  let s := str_remove "-" (rstrip_by is_brace (lstrip_by is_brace s)) in
  if bool_decide (String.length s = 32%nat) then
    match int16 s with
    | Some u => if (u <? 2 ^ 128)%N then inr u else inl bad
    | None => inl bad
    end
  else inl bad.

(** ** Decimals *)

Definition dec_value (c : Ascii.ascii) : option Z :=
  let n := Z.of_N (Ascii.N_of_ascii c) in
  if (48 <=? n) && (n <=? 57) then Some (n - 48) else None.

Definition is_dec_digit (c : Ascii.ascii) : bool :=
  match dec_value c with Some _ => true | None => false end.

(** The leading digits: their value after [acc], their number, the rest. *)
Fixpoint take_digits (s : string) (acc : Z) (n : Z) : Z * Z * string :=
  match s with
  | EmptyString => (acc, n, s)
  | String c s' =>
      match dec_value c with
      | Some d => take_digits s' (10 * acc + d) (n + 1)
      | None => (acc, n, s)
      end
  end.

Definition signed_text (s : string) : bool * string :=
  match s with
  | String "-" s' => (true, s')
  | String "+" s' => (false, s')
  | _ => (false, s)
  end.

(** The exponent part, [None] when the text is not one. *)
Definition exponent_text (s : string) : option Z :=
  match lower s with
  | EmptyString => Some 0
  | String "e" s' =>
      let '(negative, s') := signed_text s' in
      let '(z, n, rest) := take_digits s' 0 0 in
      if (0 <? n) && PyStr.is_empty rest then Some (if negative : bool then - z else z) else None
  | _ => None
  end.

Definition number_text (negative : bool) (s : string) : result decimal :=
  let '(whole, n, rest) := take_digits s 0 0 in
  let '(coef, m, rest) :=
    match rest with
    | String "." rest => take_digits rest whole 0
    | _ => (whole, 0, rest)
    end in
  match exponent_text rest with
  | Some e => raise! InvalidOperation when! n + m =? 0 ;;
              inr (DFin (if negative then - coef else coef) (e - m))
  | None => inl InvalidOperation
  end.

(** [Decimal(text)], short of exponents beyond the range of the library. *)
Definition dec_of_str (s : string) : result decimal :=
  let '(negative, s) := signed_text (str_remove "_" (PyStr.strip s)) in
  let body := lower s in
  if bool_decide (body = "inf"%string) || bool_decide (body = "infinity"%string)
  then inr (DInf negative)
  else if String.prefix "nan" body
  then if all_chars is_dec_digit (String.substring 3 (String.length body) body)
       then inr DNaN else inl InvalidOperation
  else if String.prefix "snan" body
  then if all_chars is_dec_digit (String.substring 4 (String.length body) body)
       then inr DNaN else inl InvalidOperation
  else number_text negative s.
