(* ===== verification/ParsingTheorems.v ===== *)
(** * What is printed is read back

    [UUID(str(u)) == u] and [Decimal(str(d)) == d]: identifiers and amounts
    survive their way through event payloads. *)

From stdpp Require Import base list strings pretty.
From Stdlib Require Import ZArith Lia Ascii.
From S2P Require Import Prelude PyLib Amounts Parsing.

Local Open Scope Z_scope.

(** ** Strings of a class of characters *)

Lemma all_chars_app f a b : all_chars f (a +:+ b) = all_chars f a && all_chars f b.
Proof. induction a as [|c a IH]; simpl; [done|]. by rewrite IH, andb_assoc. Qed.

Lemma all_chars_impl (f g : ascii → bool) s :
  (∀ c, f c = true → g c = true) → all_chars f s = true → all_chars g s = true.
Proof.
  intros Hfg. induction s as [|c s IH]; simpl; [done|]. intros [Hc Hs]%andb_true_iff.
  by rewrite (Hfg c Hc), IH.
Qed.

(** Nothing is removed where the pattern's first character is absent. *)
Lemma str_remove_absent c p s :
  all_chars (λ x, negb (Ascii.eqb c x)) s = true → str_remove (String c p) s = s.
Proof.
  unfold str_remove. induction s as [|x s IH]; [done|]. cbn [all_chars].
  intros [Hx Hs]%andb_true_iff. cbn [remove_from].
  assert (Hp : String.prefix (String c p) (String x s) = false).
  { simpl. destruct (ascii_dec c x) as [->|]; [|done]. by rewrite Ascii.eqb_refl in Hx. }
  by rewrite Hp, IH.
Qed.

(** Every occurrence of a single character is removed. *)
Lemma str_remove_char_app c a b :
  all_chars (λ x, negb (Ascii.eqb c x)) a = true →
  str_remove (String c "") (a +:+ String c "" +:+ b) = a +:+ str_remove (String c "") b.
Proof.
  unfold str_remove. intros Ha. induction a as [|x a IH].
  - simpl. destruct (ascii_dec c c) as [_|]; [|done]. simpl. by destruct b.
  - cbn [all_chars] in Ha. apply andb_true_iff in Ha as [Hx Ha].
    change (String x a +:+ String c "" +:+ b) with (String x (a +:+ String c "" +:+ b)). cbn [remove_from].
    assert (Hp : String.prefix (String c "") (String x (a +:+ String c "" +:+ b)) = false).
    { simpl. destruct (ascii_dec c x) as [->|]; [|done]. by rewrite Ascii.eqb_refl in Hx. }
    rewrite Hp, IH by done. done.
Qed.

Lemma lstrip_by_none f s : all_chars (λ c, negb (f c)) s = true → lstrip_by f s = s.
Proof. destruct s as [|c s]; simpl; [done|]. by intros [->%negb_true_iff _]%andb_true_iff. Qed.

Lemma rstrip_by_none f s : all_chars (λ c, negb (f c)) s = true → rstrip_by f s = s.
Proof.
  induction s as [|c s IH]; simpl; [done|]. intros [Hc%negb_true_iff Hs]%andb_true_iff.
  rewrite IH by done. destruct s; [by rewrite Hc|done].
Qed.

Lemma strip_none s : all_chars (λ c, negb (PyStr.is_space c)) s = true → PyStr.strip s = s.
Proof.
  intros Hs. unfold PyStr.strip.
  assert (Hl : PyStr.lstrip s = s)
    by (destruct s as [|c s]; simpl in *; [done|]; by apply andb_true_iff in Hs as [->%negb_true_iff _]).
  rewrite Hl. clear Hl. induction s as [|c s IH]; simpl in *; [done|].
  apply andb_true_iff in Hs as [Hc%negb_true_iff Hs]. rewrite IH by done.
  destruct s; [by rewrite Hc|done].
Qed.

(** ** UUIDs *)

(** Lower-case hexadecimal digits and dashes: what [str(uuid)] consists of. *)
Definition is_hex (c : ascii) : bool :=
  let n := Ascii.N_of_ascii c in ((48 <=? n) && (n <=? 57) || (97 <=? n) && (n <=? 102))%N.

Lemma hex_digit_is_hex d : (d < 16)%N → is_hex (Uuid.hex_digit d) = true.
Proof.
  intros Hd. unfold is_hex, Uuid.hex_digit. destruct (N.ltb_spec d 10);
    rewrite Ascii.N_ascii_embedding by lia; apply orb_true_iff; [left|right];
    apply andb_true_iff; rewrite !N.leb_le; lia.
Qed.

Lemma hex_digit_value d : (d < 16)%N → hex_value (Uuid.hex_digit d) = Some d.
Proof.
  intros Hd. unfold hex_value, Uuid.hex_digit. destruct (N.ltb_spec d 10);
    rewrite Ascii.N_ascii_embedding by lia.
  - rewrite (proj2 (N.leb_le 48 _)), (proj2 (N.leb_le _ 57)) by lia. simpl. f_equal. lia.
  - rewrite (proj2 (N.leb_gt _ 57)) by lia. rewrite andb_false_r.
    rewrite (proj2 (N.leb_le 97 _)), (proj2 (N.leb_le _ 102)) by lia. simpl. f_equal. lia.
Qed.

Lemma hex_is_hex k n acc : all_chars is_hex acc = true → all_chars is_hex (Uuid.hex k n acc) = true.
Proof.
  revert n acc. induction k as [|k IH]; intros n acc Hacc; [done|]. simpl. apply IH. simpl.
  rewrite hex_digit_is_hex by (by apply N.mod_lt). done.
Qed.

Lemma hex_app k n acc s : Uuid.hex k n acc +:+ s = Uuid.hex k n (acc +:+ s).
Proof. revert n acc. induction k as [|k IH]; intros n acc; simpl; [done|]. apply IH. Qed.

Lemma hex_join j k n acc :
  Uuid.hex k (N.shiftr n (4 * N.of_nat j)) (Uuid.hex j n acc) = Uuid.hex (j + k) n acc.
Proof.
  revert n acc. induction j as [|j IH]; intros n acc; [simpl; by rewrite N.shiftr_0_r|].
  cbn [Uuid.hex Nat.add]. rewrite <- IH. f_equal.
  change 16%N with (2 ^ 4)%N. rewrite <- N.shiftr_div_pow2, N.shiftr_shiftr. f_equal. lia.
Qed.

Lemma hex_number_hex k n acc s b :
  hex_number (Uuid.hex (S k) n s) acc b =
  hex_number s (acc * 16 ^ N.of_nat (S k) + n mod 16 ^ N.of_nat (S k))%N true.
Proof.
  revert n s. induction k as [|k IH]; intros n s.
  - cbn [Uuid.hex hex_number]. rewrite hex_digit_value by (by apply N.mod_lt).
    change (16 ^ N.of_nat 1)%N with 16%N. f_equal. lia.
  - change (Uuid.hex (S (S k)) n s)
      with (Uuid.hex (S k) (n / 16)%N (String (Uuid.hex_digit (n mod 16)%N) s)).
    rewrite IH. cbn [hex_number]. rewrite hex_digit_value by (by apply N.mod_lt). f_equal.
    assert (Hp : (16 ^ N.of_nat (S (S k)) = 16 * 16 ^ N.of_nat (S k))%N)
      by (rewrite (Nnat.Nat2N.inj_succ (S k)), N.pow_succ_r'; done).
    rewrite Hp. rewrite N.Div0.mod_mul_r. lia.
Qed.

(** The digits of a UUID without the dashes. *)
Lemma uuid_digits u :
  str_remove "-" (Uuid.to_str u) = Uuid.hex 32 u "".
Proof.
  assert (Hf : ∀ k n, all_chars (λ x, negb (Ascii.eqb "-"%char x)) (Uuid.hex k n "") = true).
  { intros k n. eapply all_chars_impl; [|by apply hex_is_hex]. intros c Hc.
    destruct (Ascii.eqb_spec "-"%char c) as [<-|]; done. }
  unfold Uuid.to_str, Uuid.field.
  do 4 (rewrite str_remove_char_app by apply Hf). rewrite str_remove_absent by apply Hf.
  rewrite !hex_app, N.shiftr_0_r.
  change (Uuid.hex 8 (N.shiftr u (4 * N.of_nat 24))
    (Uuid.hex 4 (N.shiftr u (4 * N.of_nat 20)) (Uuid.hex 4 (N.shiftr u (4 * N.of_nat 16))
      (Uuid.hex 4 (N.shiftr u (4 * N.of_nat 12)) (Uuid.hex 12 u "")))) = Uuid.hex 32 u "").
  by rewrite !hex_join.
Qed.

Definition is_uuid_char (c : ascii) : bool := is_hex c || Ascii.eqb c "-"%char.

Lemma uuid_chars u : all_chars is_uuid_char (Uuid.to_str u) = true.
Proof.
  assert (Hf : ∀ k n, all_chars is_uuid_char (Uuid.hex k n "") = true).
  { intros k n. eapply all_chars_impl; [|by apply hex_is_hex]. intros c Hc.
    unfold is_uuid_char. by rewrite Hc. }
  unfold Uuid.to_str, Uuid.field. by rewrite !all_chars_app, !Hf.
Qed.

(** A decision over the characters of a class by going through all of them. *)
Ltac each_char c := destruct c as [[] [] [] [] [] [] [] []]; vm_compute; done.

Lemma int16_hex k n : (2 ≤ k)%nat → int16 (Uuid.hex k n "") = Some (n mod 16 ^ N.of_nat k)%N.
Proof.
  intros Hk. destruct k as [|[|k]]; [lia..|].
  unfold int16. rewrite strip_none.
  2:{ eapply all_chars_impl; [|by apply hex_is_hex]. intros c. each_char c. }
  pose proof (hex_number_hex (S k) n 0 "" false) as Hval. cbn [hex_number] in Hval.
  rewrite N.mul_0_l, N.add_0_l in Hval.
  pose proof (hex_is_hex (S (S k)) n "" eq_refl) as Hhex.
  destruct (Uuid.hex (S (S k)) n "") as [|c [|d s]] eqn:Hs.
  { apply (f_equal String.length) in Hs. by rewrite Uuid.hex_length in Hs. }
  { apply (f_equal String.length) in Hs. rewrite Uuid.hex_length in Hs. simpl in Hs. lia. }
  cbn [all_chars] in Hhex. apply andb_true_iff in Hhex as [Hc [Hd _]%andb_true_iff].
  assert (Hbody : hex_body (String c (String d s)) = hex_number (String c (String d s)) 0 false).
  { unfold hex_body. assert (Hpre : String.prefix "0x" (String c (String d s))
      || String.prefix "0X" (String c (String d s)) = false); [|by rewrite Hpre].
    assert (d ≠ "x"%char ∧ d ≠ "X"%char) as [Hx HX] by (split; by intros ->).
    cbn [String.prefix]. destruct (ascii_dec "x" d), (ascii_dec "X" d); try congruence.
    by destruct (ascii_dec "0" c). }
  rewrite <- Hval, <- Hbody.
  assert (c ≠ "-"%char ∧ c ≠ "+"%char) as [Hm Hp] by (split; by intros ->). clear -Hm Hp.
  by destruct c as [[] [] [] [] [] [] [] []].
Qed.

(** Reading a printed UUID gives it back. *)
Lemma uuid_roundtrip u : Uuid.valid u → uuid_of_str (Uuid.to_str u) = inr u.
Proof.
  intros Hu. pose proof (uuid_chars u) as Hch. unfold uuid_of_str.
  assert (Hno : ∀ f : ascii → bool, (∀ c, is_uuid_char c = true → f c = true) →
    all_chars f (Uuid.to_str u) = true) by (intros f Hf; by eapply all_chars_impl).
  rewrite (str_remove_absent "u" "rn:"), (str_remove_absent "u" "uid:").
  2-3: apply Hno; intros c; each_char c.
  rewrite lstrip_by_none, rstrip_by_none, uuid_digits.
  2-3: apply Hno; intros c; each_char c.
  rewrite Uuid.hex_length. rewrite bool_decide_true by done.
  rewrite int16_hex by lia. change (16 ^ N.of_nat 32)%N with (2 ^ 128)%N.
  rewrite (N.mod_small u) by exact Hu. by rewrite (proj2 (N.ltb_lt _ _)) by exact Hu.
Qed.

(** ** Decimals *)

(** The value of a string of digits, and their number. *)
Fixpoint digits_value (s : string) (acc : Z) : Z :=
  match s with
  | EmptyString => acc
  | String c s => digits_value s (10 * acc + default 0 (dec_value c))
  end.

Lemma take_digits_app s rest acc n :
  all_chars is_dec_digit s = true →
  take_digits (s +:+ rest) acc n = take_digits rest (digits_value s acc) (n + PyStr.len s).
Proof.
  unfold PyStr.len. revert acc n. induction s as [|c s IH]; intros acc n Hs.
  - simpl. by rewrite Z.add_0_r.
  - cbn [all_chars] in Hs. apply andb_true_iff in Hs as [Hc Hs].
    change (String c s +:+ rest) with (String c (s +:+ rest)). cbn [take_digits digits_value].
    unfold is_dec_digit in Hc. destruct (dec_value c) as [d|]; [|done]. rewrite IH by done.
    f_equal. simpl. lia.
Qed.

Lemma digits_value_app a b acc : digits_value (a +:+ b) acc = digits_value b (digits_value a acc).
Proof. revert acc. induction a as [|c a IH]; intros acc; simpl; [done|]. apply IH. Qed.

(** The decimal text of a natural number. *)
Lemma pretty_char_value d :
  (d < 10)%N → dec_value (pretty_N_char d) = Some (Z.of_N d).
Proof.
  intros Hd. assert (d = 0 ∨ d = 1 ∨ d = 2 ∨ d = 3 ∨ d = 4 ∨ d = 5 ∨ d = 6 ∨ d = 7 ∨ d = 8
    ∨ d = 9)%N as Hin by lia.
  by repeat destruct Hin as [->|Hin]; [..|subst].
Qed.

Lemma pretty_go_digits x s :
  all_chars is_dec_digit s = true → all_chars is_dec_digit (pretty_N_go x s) = true.
Proof.
  revert s. induction (N.lt_wf_0 x) as [x _ IH]; intros s Hs.
  destruct (decide (x = 0%N)) as [->|Hx]; [by rewrite pretty_N_go_0|].
  rewrite pretty_N_go_step by lia. apply IH; [by apply N.div_lt; lia|]. cbn [all_chars].
  unfold is_dec_digit at 1. by rewrite pretty_char_value by (by apply N.mod_lt).
Qed.

Lemma pretty_go_value x s : digits_value (pretty_N_go x s) 0 = digits_value s (Z.of_N x).
Proof.
  revert s. induction (N.lt_wf_0 x) as [x _ IH]; intros s.
  destruct (decide (x = 0%N)) as [->|Hx]; [by rewrite pretty_N_go_0|].
  rewrite pretty_N_go_step by lia. rewrite IH by (by apply N.div_lt; lia). cbn [digits_value].
  rewrite pretty_char_value by (by apply N.mod_lt). simpl. f_equal.
  rewrite (N.div_mod x 10) at 3 by done. lia.
Qed.

Lemma pretty_digits z :
  0 ≤ z → all_chars is_dec_digit (pretty z) = true ∧ digits_value (pretty z) 0 = z ∧
    1 ≤ PyStr.len (pretty z).
Proof.
  intros Hz. assert (Heq : pretty z = pretty (Z.to_N z)) by (by destruct z).
  rewrite Heq. unfold pretty, pretty_N. case_decide as H0.
  - split; [done|]. split; [|done]. simpl. lia.
  - split; [by apply pretty_go_digits|]. rewrite pretty_go_value. split; [simpl; lia|].
    rewrite pretty_N_go_step by lia. generalize (Z.to_N z `div` 10)%N. intros y.
    assert (Hlen : ∀ x s, (String.length s ≤ String.length (pretty_N_go x s))%nat).
    { intros x. induction (N.lt_wf_0 x) as [x _ IH]; intros s.
      destruct (decide (x = 0%N)) as [->|Hx]; [by rewrite pretty_N_go_0|].
      rewrite pretty_N_go_step by lia. etransitivity; [|apply IH; by apply N.div_lt; lia]. simpl. lia. }
    unfold PyStr.len. specialize (Hlen y (String (pretty_N_char (Z.to_N z `mod` 10)) "")).
    simpl in Hlen. lia.
Qed.

Lemma str_length_app (a b : string) :
  String.length (a +:+ b) = (String.length a + String.length b)%nat.
Proof.
  induction a as [|c a IH]; [done|].
  change (S (String.length (a +:+ b)) = S (String.length a + String.length b)). by rewrite IH.
Qed.

Lemma str_app_nil s : s +:+ "" = s.
Proof.
  induction s as [|c s IH]; [done|]. change (String c s +:+ "") with (String c (s +:+ "")).
  by rewrite IH.
Qed.

(** The text that ends a run of digits. *)
Definition ends_digits (s : string) : Prop :=
  match s with String c _ => is_dec_digit c = false | EmptyString => True end.

Lemma take_digits_end s acc n : ends_digits s → take_digits s acc n = (acc, n, s).
Proof.
  destruct s as [|c s]; simpl; [done|]. unfold is_dec_digit. by destruct (dec_value c).
Qed.

Lemma take_all s rest acc n :
  all_chars is_dec_digit s = true → ends_digits rest →
  take_digits (s +:+ rest) acc n = (digits_value s acc, n + PyStr.len s, rest).
Proof. intros Hs Hr. by rewrite take_digits_app, take_digits_end. Qed.

(** An exponent part: empty, or [E], a sign and digits. *)
Definition exponent_part (x : Z) : string :=
  if x =? 0 then "" else "E" +:+ (if x <? 0 then "-" else "+") +:+ pretty (Z.abs x).

Lemma lower_digits s : all_chars is_dec_digit s = true → lower s = s.
Proof.
  induction s as [|c s IH]; simpl; [done|]. intros [Hc Hs]%andb_true_iff. rewrite IH by done.
  f_equal. revert Hc. each_char c.
Qed.

Lemma exponent_part_value x : exponent_text (exponent_part x) = Some x ∧
  match exponent_part x with String c _ => c = "E"%char | EmptyString => True end.
Proof.
  unfold exponent_part. destruct (Z.eqb_spec x 0) as [->|Hx]; [done|].
  destruct (pretty_digits (Z.abs x) ltac:(lia)) as (Hd & Hv & Hl). split; [|done].
  assert (Htake : take_digits (pretty (Z.abs x)) 0 0
                  = (Z.abs x, PyStr.len (pretty (Z.abs x)), EmptyString)).
  { pose proof (take_all (pretty (Z.abs x)) "" 0 0 Hd I) as Ht.
    by rewrite Hv, str_app_nil, Z.add_0_l in Ht. }
  pose proof (lower_digits _ Hd) as Hlow. revert Hlow Htake Hl. generalize (pretty (Z.abs x)).
  intros s Hlow Htake Hl. unfold exponent_text.
  destruct (Z.ltb_spec x 0); simpl; change ("" +:+ s) with s; rewrite Hlow, Htake, (proj2 (Z.ltb_lt _ _)) by lia;
    simpl; f_equal; lia.
Qed.

Lemma number_plain negative a x :
  all_chars is_dec_digit a = true → 1 ≤ PyStr.len a →
  number_text negative (a +:+ exponent_part x) =
  inr (DFin (if negative then - digits_value a 0 else digits_value a 0) x).
Proof.
  intros Ha Hl. destruct (exponent_part_value x) as [Hx Hc]. unfold number_text.
  rewrite take_all; [|done|by destruct (exponent_part x); [|subst]].
  assert (Hm : match exponent_part x with
               | String "." rest => take_digits rest (digits_value a 0) 0
               | _ => (digits_value a 0, 0, exponent_part x)
               end = (digits_value a 0, 0, exponent_part x))
    by (destruct (exponent_part x); [done|by subst]).
  rewrite Hm, Hx. rewrite (proj2 (Z.eqb_neq _ _)) by lia. simpl. do 2 f_equal. lia.
Qed.

Lemma number_point negative a b x :
  all_chars is_dec_digit a = true → all_chars is_dec_digit b = true → 1 ≤ PyStr.len a →
  number_text negative (a +:+ "." +:+ b +:+ exponent_part x) =
  inr (DFin (if negative then - digits_value (a +:+ b) 0 else digits_value (a +:+ b) 0)
         (x - PyStr.len b)).
Proof.
  intros Ha Hb Hl. destruct (exponent_part_value x) as [Hx Hc]. unfold number_text.
  rewrite take_all; [|done|done].
  change ("." +:+ b +:+ exponent_part x) with (String "." (b +:+ exponent_part x)). cbv iota beta.
  rewrite take_all; [|done|by destruct (exponent_part x); [|subst]].
  rewrite Hx, digits_value_app. rewrite (proj2 (Z.eqb_neq _ _)).
  - simpl. done.
  - unfold PyStr.len in *. lia.
Qed.

Lemma substring_all s : String.substring 0 (String.length s) s = s.
Proof. induction s as [|c s IH]; simpl; [done|]. by rewrite IH. Qed.

Lemma substring_split k s :
  (k ≤ String.length s)%nat →
  String.substring 0 k s +:+ String.substring k (String.length s - k) s = s ∧
  String.length (String.substring 0 k s) = k ∧
  String.length (String.substring k (String.length s - k) s) = (String.length s - k)%nat.
Proof.
  revert s. induction k as [|k IH]; intros s Hk.
  - rewrite Nat.sub_0_r, substring_all. by destruct s.
  - destruct s as [|c s]; simpl in Hk; [lia|]. destruct (IH s ltac:(lia)) as (H1 & H2 & H3).
    simpl. rewrite H2, H3. split; [|done].
    change (String c (String.substring 0 k s) +:+ String.substring k (String.length s - k) s)
      with (String c (String.substring 0 k s +:+ String.substring k (String.length s - k) s)).
    by rewrite H1.
Qed.

Definition zeros (n : Z) : string := String.concat "" (replicate (Z.to_nat n) "0"%string).

Lemma zeros_digits n acc :
  all_chars is_dec_digit (zeros n) = true ∧ PyStr.len (zeros n) = Z.max n 0 ∧
  (acc = 0 → digits_value (zeros n) acc = 0).
Proof.
  unfold zeros, PyStr.len. rewrite <- (Z2Nat.id (Z.max n 0)) by lia.
  replace (Z.to_nat (Z.max n 0)) with (Z.to_nat n) by lia. generalize (Z.to_nat n). intros k.
  assert (Hs : ∀ k, String.concat "" (replicate (S k) "0"%string)
                    = String "0" (String.concat "" (replicate k "0"%string))) by (by intros []).
  induction k as [|k IH]; [done|]. rewrite Hs. cbn [all_chars String.length digits_value].
  destruct IH as (H1 & H2 & H3). split; [done|]. split; [lia|]. intros ->. by apply H3.
Qed.

(** A run of digits with the decimal point after the first [dot]. *)
Definition placed (dot : Z) (int : string) : string :=
  if dot <=? 0 then "0." +:+ zeros (- dot) +:+ int
  else if PyStr.len int <=? dot then int +:+ zeros (dot - PyStr.len int)
  else String.substring 0 (Z.to_nat dot) int +:+ "." +:+
       String.substring (Z.to_nat dot) (Z.to_nat (PyStr.len int - dot)) int.

(** The digits and the exponent of [str(d)], without the sign. *)
Definition unsigned_text (c e : Z) : string :=
  let int := pretty (Z.abs c) in
  let left := e + PyStr.len int in
  let dot := if (e <=? 0) && (-6 <? left) then left else 1 in
  placed dot int +:+ exponent_part (left - dot).

Lemma dec_str_parts c e :
  dec_str (DFin c e) = (if sign_of c then "-" else "") +:+ unsigned_text c e.
Proof.
  unfold dec_str, unsigned_text, placed. do 2 f_equal. fold (zeros).
  unfold exponent_part. set (dot := if (e <=? 0) && _ then _ else _).
  set (left := e + _). replace (left - dot =? 0) with (left =? dot).
  2:{ destruct (Z.eqb_spec left dot), (Z.eqb_spec (left - dot) 0); lia. }
  replace (left - dot <? 0) with (left <? dot); [done|].
  destruct (Z.ltb_spec left dot), (Z.ltb_spec (left - dot) 0); lia.
Qed.

Lemma str_app_assoc (a b c : string) : (a +:+ b) +:+ c = a +:+ b +:+ c.
Proof.
  induction a as [|x a IH]; [done|].
  change (String x ((a +:+ b) +:+ c) = String x (a +:+ b +:+ c)). by rewrite IH.
Qed.

Lemma placed_value negative dot int x :
  all_chars is_dec_digit int = true → 1 ≤ PyStr.len int → dot ≤ PyStr.len int →
  number_text negative (placed dot int +:+ exponent_part x) =
  inr (DFin (if negative then - digits_value int 0 else digits_value int 0) (x + dot - PyStr.len int)).
Proof.
  intros Hd Hl Hle. unfold placed. set (len := PyStr.len int) in *.
  destruct (Z.leb_spec dot 0) as [H0|H0]; [|destruct (Z.leb_spec len dot) as [H1|H1]].
  - destruct (zeros_digits (- dot) 0) as (Z1 & Z2 & Z3).
    rewrite !str_app_assoc.
    change ("0." +:+ zeros (- dot) +:+ int +:+ exponent_part x)
      with ("0" +:+ "." +:+ zeros (- dot) +:+ int +:+ exponent_part x).
    rewrite <- (str_app_assoc (zeros (- dot))), number_point;
      [|done|by rewrite all_chars_app, Z1, Hd|done].
    rewrite (digits_value_app "0"), digits_value_app. cbn [digits_value].
    change (10 * 0 + default 0 (dec_value "0")) with 0. rewrite Z3 by done. do 2 f_equal.
    unfold PyStr.len in *. rewrite str_length_app. unfold len in *. lia.
  - assert (Hz : zeros (dot - len) = "") by (unfold zeros; by replace (Z.to_nat (dot - len)) with 0%nat by lia).
    rewrite Hz, str_app_nil, number_plain by done. do 2 f_equal. lia.
  - rewrite !str_app_assoc.
    destruct (substring_split (Z.to_nat dot) int) as (S1 & S2 & S3);
      [unfold len, PyStr.len in H1; lia|].
    replace (Z.to_nat (len - dot)) with (String.length int - Z.to_nat dot)%nat
      by (unfold len, PyStr.len; lia).
    assert (Hdd : all_chars is_dec_digit (String.substring 0 (Z.to_nat dot) int) = true ∧
      all_chars is_dec_digit (String.substring (Z.to_nat dot) (String.length int - Z.to_nat dot) int)
      = true) by (rewrite <- S1, all_chars_app in Hd; by apply andb_true_iff in Hd).
    destruct Hdd as [Hd1 Hd2]. rewrite number_point; [|done|done|unfold PyStr.len; lia].
    rewrite S1. do 2 f_equal. unfold PyStr.len. rewrite S3. unfold len, PyStr.len in *. lia.
Qed.

Lemma unsigned_value negative c e :
  number_text negative (unsigned_text c e) = inr (DFin (if negative then - Z.abs c else Z.abs c) e).
Proof.
  destruct (pretty_digits (Z.abs c) ltac:(lia)) as (Hd & Hv & Hl). unfold unsigned_text.
  set (left := e + _). set (dot := if (e <=? 0) && _ then _ else _).
  assert (Hdot : dot = left ∧ e ≤ 0 ∨ dot = 1).
  { unfold dot. destruct (Z.leb_spec e 0), (-6 <? left); simpl; auto. }
  rewrite placed_value by (done || lia). rewrite Hv. do 2 f_equal. lia.
Qed.

Definition is_number_char (c : ascii) : bool :=
  is_dec_digit c || existsb (Ascii.eqb c) ["-"; "+"; "."; "E"]%char.

Lemma number_chars_digits s :
  all_chars is_dec_digit s = true → all_chars is_number_char s = true.
Proof. apply all_chars_impl. intros c Hc. unfold is_number_char. by rewrite Hc. Qed.

Lemma exponent_part_chars x : all_chars is_number_char (exponent_part x) = true.
Proof.
  unfold exponent_part. destruct (x =? 0); [done|].
  destruct (pretty_digits (Z.abs x) ltac:(lia)) as (Hd & _). rewrite !all_chars_app.
  rewrite (number_chars_digits _ Hd). by destruct (x <? 0).
Qed.

(** A text of a number: its characters, and a digit first. *)
Definition starts_number (s : string) : Prop :=
  all_chars is_number_char s = true ∧ ∃ d t, s = String d t ∧ is_dec_digit d = true.

Lemma placed_starts dot int rest : all_chars is_dec_digit int = true → 1 ≤ PyStr.len int →
  all_chars is_number_char rest = true → starts_number (placed dot int +:+ rest).
Proof.
  intros Hd Hl Hrest. unfold placed, starts_number.
  assert (Hhead : ∀ a tail, all_chars is_dec_digit a = true → 1 ≤ PyStr.len a →
    ∃ d s, a +:+ tail = String d s ∧ is_dec_digit d = true).
  { intros [|d a] tail Ha Hla; [done|]. cbn [all_chars] in Ha. apply andb_true_iff in Ha as [Hda _].
    by exists d, (a +:+ tail). }
  rewrite all_chars_app, Hrest, andb_true_r.
  destruct (Z.leb_spec dot 0) as [H0|H0]; [|destruct (Z.leb_spec (PyStr.len int) dot) as [H1|H1]].
  - rewrite !all_chars_app, (number_chars_digits _ Hd).
    destruct (zeros_digits (- dot) 0) as (Z1 & _). rewrite (number_chars_digits _ Z1).
    split; [done|]. eexists "0"%char, _. by split.
  - destruct (zeros_digits (dot - PyStr.len int) 0) as (Z1 & _).
    rewrite all_chars_app, (number_chars_digits _ Hd), (number_chars_digits _ Z1). split; [done|].
    rewrite str_app_assoc. by apply Hhead.
  - destruct (substring_split (Z.to_nat dot) int) as (S1 & S2 & S3); [unfold PyStr.len in H1; lia|].
    replace (Z.to_nat (PyStr.len int - dot)) with (String.length int - Z.to_nat dot)%nat
      by (unfold PyStr.len; lia).
    rewrite <- S1, all_chars_app in Hd. apply andb_true_iff in Hd as [Hd1 Hd2].
    rewrite !all_chars_app, (number_chars_digits _ Hd1), (number_chars_digits _ Hd2).
    split; [done|]. rewrite str_app_assoc. apply Hhead; [done|]. unfold PyStr.len. lia.
Qed.

Lemma unsigned_text_chars c e : starts_number (unsigned_text c e).
Proof.
  destruct (pretty_digits (Z.abs c) ltac:(lia)) as (Hd & _ & Hl). unfold unsigned_text.
  apply placed_starts; [done|done|apply exponent_part_chars].
Qed.

(** A sign and a number are read as such. *)
Lemma signed_number negative s : starts_number s →
  dec_of_str ((if negative : bool then "-" else "") +:+ s) = number_text negative s.
Proof.
  intros [Hch (d & t & Hs & Hd)].
  assert (Hall : all_chars is_number_char ((if negative then "-" else "") +:+ s) = true)
    by (rewrite all_chars_app, Hch; by destruct negative).
  unfold dec_of_str. rewrite strip_none.
  2:{ eapply all_chars_impl; [|exact Hall]. intros x. each_char x. }
  rewrite (str_remove_absent "_" "").
  2:{ eapply all_chars_impl; [|exact Hall]. intros x. each_char x. }
  assert (Hsign : signed_text ((if negative then "-" else "") +:+ s) = (negative, s)).
  { rewrite Hs. destruct negative; [done|]. change ("" +:+ String d t) with (String d t).
    clear -Hd. by destruct d as [[] [] [] [] [] [] [] []]. }
  rewrite Hsign, Hs. cbn [lower].
  assert (Hlow : lower_ascii d = d) by (revert Hd; each_char d). rewrite Hlow.
  rewrite !bool_decide_false by (intros [= -> _]; done). cbn [orb String.prefix].
  destruct (ascii_dec "n" d) as [<-|]; [done|]. by destruct (ascii_dec "s" d) as [<-|].
Qed.

(** Reading a printed decimal gives it back. *)
Lemma decimal_roundtrip c e : dec_of_str (dec_str (DFin c e)) = inr (DFin c e).
Proof.
  rewrite dec_str_parts, signed_number by apply unsigned_text_chars. rewrite unsigned_value.
  do 2 f_equal. unfold sign_of. destruct (Z.ltb_spec c 0); lia.
Qed.

