(* ===== verification/Projections.v ===== *)
(** * Projections

    Models [projections/__init__.py] and [PostgresProjectionRepository] of
    [event_store/postgres.py]: read models that replay a tenant's history page
    by page behind a checkpoint.  The six [_apply_*] methods are given by the
    row they touch and what becomes of it ([Change]); [_apply_event] performs
    it as the SQL statement does. *)

From stdpp Require Import base gmap sets list strings.
From Stdlib Require Import ZArith Lia.
From S2P Require Import Prelude PyLib Amounts Json Events Identity Work Database EventStore.
From S2P Require Import Parsing.

Local Open Scope Z_scope.

(** ** Payload fields *)

Definition _domain_event_type (value : string) : option DomainEventType :=
  match sc_new value with inr t => Some t | inl _ => None end.

Definition _required_string (payload : pydict) (field : string) : result string :=
  let bad := PermanentStorageError ("projection event requires string " +:+ field) in
  match dict_get field payload with
  | Some (PStr s) => raise! bad when! PyStr.is_empty s ;; inr s
  | _ => inl bad
  end.

Definition _required_int (payload : pydict) (field : string) : result Z :=
  let bad := PermanentStorageError ("projection event requires non-negative " +:+ field) in
  match dict_get field payload with
  | Some (PInt z) => raise! bad when! z <? 0 ;; inr z
  | _ => inl bad
  end.

Definition _required_uuid (payload : pydict) (field : string) : result uuid :=
  let? value := _required_string payload field in
  match uuid_of_str value with
  | inr u => inr u
  | inl _ => inl (PermanentStorageError ("projection event requires uuid " +:+ field))
  end.

Definition _required_decimal (payload : pydict) (field : string) : result decimal :=
  let? value := _required_string payload field in
  let bad := PermanentStorageError
               ("projection event requires finite non-negative " +:+ field) in
  match dec_of_str value with
  | inl _ => inl bad
  | inr d =>
      raise! bad when! negb (is_finite d) ;;
      let? negative := dec_lt d (DFin 0 0) in
      raise! bad when! negative ;;
      inr d
  end.

(** ** Changes of rows *)

(** The row a statement touches (of the event's tenant), the row it leaves,
    and whether the rows an inserted one refers to exist. *)
Record Change (K Row : Type) : Type := mkChange {
  ch_key : K;
  ch_update : option Row → result (option Row);
  ch_references : Tables → bool;
}.
Arguments mkChange {K Row}.
Arguments ch_key {K Row}.
Arguments ch_update {K Row}.
Arguments ch_references {K Row}.

Definition tenant_exists (event : EventEnvelope) (t : Tables) : bool :=
  bool_decide (ev_tenant_id event ∈ t_tenants t).

Definition event_exists (event : EventEnvelope) (t : Tables) : bool :=
  tenant_exists event t
  && existsb (λ r, bool_decide (er_tenant_id r = ev_tenant_id event)
                   && bool_decide (er_event_id r = event_id event)) (t_events t).

(** [NOT NULL] *)
Definition not_null {A} (o : option A) : result A :=
  match o with Some a => inr a | None => inl violates end.

(** The [global_position bigint NOT NULL CHECK (... > 0)] of an event. *)
Definition position_column (event : EventEnvelope) : result Z :=
  let? p := not_null (global_position event) in
  raise! violates when! p <=? 0 ;;
  inr p.

(** [ON CONFLICT ... DO NOTHING] *)
Definition insert_or_keep {Row} (row : Row) (old : option Row) : result (option Row) :=
  inr (match old with Some r => Some r | None => Some row end).

Definition run_status_of (event : EventEnvelope) : result (option string) :=
  match _domain_event_type (event_type event) with
  | Some RUN_STATUS_CHANGED => let? s := _required_string (payload event) "status" in inr (Some s)
  | Some RUN_STARTED => inr (Some "running"%string)
  | Some RUN_COMPLETED => inr (Some "completed"%string)
  | Some RUN_FAILED => inr (Some "failed"%string)
  | _ => inr None
  end.

Definition _apply_run_status (event : EventEnvelope)
    : result (option (Change string RunStatusRow)) :=
  let? status := run_status_of event in
  match status with
  | None => inr None
  | Some status =>
      let? updated := not_null (recorded_at event) in
      let? position := position_column event in
      raise! violates when! PyStr.is_empty (aggregate_id event)
                            || (aggregate_sequence event <=? 0) ;;
      let row := mkRunStatusRow status (aggregate_sequence event) position (Dt.us updated) in
      inr (Some (mkChange (aggregate_id event) (λ old,
        inr (match old with
             | Some r => if rs_aggregate_sequence r <? aggregate_sequence event
                         then Some row else Some r
             | None => Some row
             end)) (tenant_exists event)))
  end.

Definition _apply_artifact (event : EventEnvelope) : result (option (Change uuid ArtifactRow)) :=
  match _domain_event_type (event_type event) with
  | Some ARTIFACT_RECORDED =>
      let? artifact := _required_uuid (payload event) "artifact_id" in
      let? kind := _required_string (payload event) "artifact_kind" in
      let? source := _required_string (payload event) "source_reference" in
      let? summary := _required_string (payload event) "summary" in
      let? position := position_column event in
      raise! violates when! PyStr.is_empty (aggregate_id event) ;;
      let row := mkArtifactRow (aggregate_id event) kind source summary (event_id event) position in
      inr (Some (mkChange artifact (insert_or_keep row) (event_exists event)))
  | _ => inr None
  end.

Definition _apply_approval (event : EventEnvelope)
    : result (option (Change uuid PendingApprovalRow)) :=
  match _domain_event_type (event_type event) with
  | Some APPROVAL_REQUESTED =>
      let? approval := _required_uuid (payload event) "approval_id" in
      let? proposal := _required_string (payload event) "proposal_reference" in
      let? position := position_column event in
      raise! violates when! PyStr.is_empty (aggregate_id event) ;;
      let row := mkPendingApprovalRow (aggregate_id event) proposal
                   (Dt.us (occurred_at event)) (event_id event) position in
      inr (Some (mkChange approval (insert_or_keep row) (event_exists event)))
  | Some APPROVAL_DECIDED =>
      let? approval := _required_uuid (payload event) "approval_id" in
      inr (Some (mkChange approval (λ _, inr None) (λ _, true)))
  | _ => inr None
  end.

(** Texts that are not UUIDs or numbers raise [ValueError] or
    [InvalidOperation] here, which [apply] turns into one error. *)
Definition _apply_model_usage (event : EventEnvelope)
    : result (option (Change uuid ModelUsageRow)) :=
  match _domain_event_type (event_type event) with
  | Some MODEL_USAGE_RECORDED =>
      let recorded := default (occurred_at event) (recorded_at event) in
      let? input := _required_int (payload event) "input_tokens" in
      let? output := _required_int (payload event) "output_tokens" in
      let? cache_read := _required_int (payload event) "cache_read_tokens" in
      let? cache_write := _required_int (payload event) "cache_write_tokens" in
      let? reasoning := _required_int (payload event) "reasoning_tokens" in
      let? request_text := _required_string (payload event) "request_id" in
      let? request := uuid_of_str request_text in
      let? run_text := _required_string (payload event) "run_id" in
      let? run := uuid_of_str run_text in
      let? provider := _required_string (payload event) "provider" in
      let? model := _required_string (payload event) "model" in
      let? version := _required_string (payload event) "price_version" in
      let? cost_text := _required_string (payload event) "cost_usd" in
      let? cost := dec_of_str cost_text in
      let? column := to_numeric 20 10 cost in
      raise! violates when! negb (numeric_nonneg column) ;;
      let row := mkModelUsageRow run provider model version input output cache_read cache_write
                   reasoning (input + output + cache_read + cache_write + reasoning) column
                   (Dt.us recorded) in
      inr (Some (mkChange request (λ _, inr (Some row)) (tenant_exists event)))
  | _ => inr None
  end.

Definition _apply_usage (event : EventEnvelope) : result (option (Change string UsageQuotaRow)) :=
  match _domain_event_type (event_type event) with
  | Some USAGE_RECORDED =>
      let? period := _required_string (payload event) "period" in
      let? tokens := _required_int (payload event) "tokens" in
      let? cost := _required_decimal (payload event) "cost_usd" in
      let? column := to_numeric 20 6 cost in
      let? position := position_column event in
      inr (Some (mkChange period (λ old,
        match old with
        | None => inr (Some (mkUsageQuotaRow tokens column position))
        | Some r =>
            if uq_last_global_position r <? position then
              let? total := to_numeric 20 6 (of_numeric 6 (numeric_add (uq_cost_usd r) column)) in
              inr (Some (mkUsageQuotaRow (uq_tokens_used r + tokens) total position))
            else inr (Some r)
        end) (tenant_exists event)))
  | _ => inr None
  end.

Definition _apply_tenant (event : EventEnvelope)
    : result (option (Change unit TenantListingRow)) :=
  match _domain_event_type (event_type event) with
  | Some TENANT_REGISTERED =>
      let? display_name := _required_string (payload event) "display_name" in
      let? enabled := match dict_get "enabled" (payload event) with
                      | None => inr true
                      | Some (PBool b) => inr b
                      | Some _ => inl (PermanentStorageError
                                    "tenant projection event requires boolean enabled")
                      end in
      let? position := position_column event in
      let row := mkTenantListingRow display_name enabled position in
      inr (Some (mkChange tt (λ old,
        inr (match old with
             | Some r => if tl_last_global_position r <? position then Some row else Some r
             | None => Some row
             end)) (tenant_exists event)))
  | _ => inr None
  end.

(** ** The projection tables *)

(** One entry of [_TABLES] with its [_apply_*] method. *)
Record Projection : Type := mkProjection {
  pj_key : Type;
  pj_row : Type;
  pj_eq_dec : EqDecision pj_key;
  pj_countable : Countable pj_key;
  pj_get : Views → gmap (string * pj_key) pj_row;
  pj_put : gmap (string * pj_key) pj_row → Views → Views;
  pj_change : EventEnvelope → result (option (Change pj_key pj_row));
}.
#[export] Existing Instances pj_eq_dec pj_countable.

Definition run_status_projection : Projection :=
  mkProjection string RunStatusRow _ _ v_run_status
    (λ m v, mkViews (v_checkpoints v) m (v_artifacts v) (v_pending v) (v_model_usage v)
              (v_usage_quota v) (v_tenant_listing v)) _apply_run_status.
Definition artifact_index_projection : Projection :=
  mkProjection uuid ArtifactRow _ _ v_artifacts
    (λ m v, mkViews (v_checkpoints v) (v_run_status v) m (v_pending v) (v_model_usage v)
              (v_usage_quota v) (v_tenant_listing v)) _apply_artifact.
Definition pending_approvals_projection : Projection :=
  mkProjection uuid PendingApprovalRow _ _ v_pending
    (λ m v, mkViews (v_checkpoints v) (v_run_status v) (v_artifacts v) m (v_model_usage v)
              (v_usage_quota v) (v_tenant_listing v)) _apply_approval.
Definition model_usage_projection : Projection :=
  mkProjection uuid ModelUsageRow _ _ v_model_usage
    (λ m v, mkViews (v_checkpoints v) (v_run_status v) (v_artifacts v) (v_pending v) m
              (v_usage_quota v) (v_tenant_listing v)) _apply_model_usage.
Definition usage_quota_projection : Projection :=
  mkProjection string UsageQuotaRow _ _ v_usage_quota
    (λ m v, mkViews (v_checkpoints v) (v_run_status v) (v_artifacts v) (v_pending v)
              (v_model_usage v) m (v_tenant_listing v)) _apply_usage.
Definition tenant_listing_projection : Projection :=
  mkProjection unit TenantListingRow _ _ v_tenant_listing
    (λ m v, mkViews (v_checkpoints v) (v_run_status v) (v_artifacts v) (v_pending v)
              (v_model_usage v) (v_usage_quota v) m) _apply_tenant.

Definition _TABLES : list (string * Projection) :=
  [("run-status", run_status_projection); ("artifact-index", artifact_index_projection);
   ("model-usage", model_usage_projection); ("pending-approvals", pending_approvals_projection);
   ("tenant-listing", tenant_listing_projection); ("usage-quota", usage_quota_projection)]%string.

Definition _projection_table (name : string) : result Projection :=
  match find (λ p, bool_decide (p.1 = name)) _TABLES with
  | Some p => inr p.2
  | None => inl (ValueError ("unknown projection: " +:+ name))
  end.

Definition set_checkpoints (g : gmap (string * string) Z → gmap (string * string) Z) (v : Views)
    : Views :=
  mkViews (g (v_checkpoints v)) (v_run_status v) (v_artifacts v) (v_pending v)
    (v_model_usage v) (v_usage_quota v) (v_tenant_listing v).

(** ** The repository *)

Definition checkpoint_of (tenant name : string) (t : Tables) : Z :=
  default 0 (v_checkpoints (t_views t) !! (tenant, name)).

Definition checkpoint (context : TenantContext) (name : string) : Db Z :=
  do! lift (_projection_table name) ;;
  storage_guard (transaction (query (checkpoint_of (ctx_str context) name))).

(** The statement of an [_apply_*] method. *)
Definition _apply_event (p : Projection) (event : EventEnvelope) : Db unit :=
  let! change := lift (pj_change p event) in
  match change with
  | None => ret tt
  | Some c =>
      let key := (ev_tenant_id event, ch_key c) in
      let! t := query id in
      let old := pj_get p (t_views t) !! key in
      let! new := lift (ch_update c old) in
      do! raise_if (bool_decide (old = None) && negb (bool_decide (new = None))
                    && negb (ch_references c t)) violates ;;
      execute (upd_views (λ v, pj_put p (partial_alter (λ _, new) key (pj_get p v)) v))
  end.

Definition has_position (event : EventEnvelope) : bool := is_some (global_position event).

(** [int(positions[-1] or 0)] *)
Definition final_position (events : list EventEnvelope) : Z :=
  default 0 (last events ≫= global_position).

(** The [except InvalidOperation] and [except ValueError] clauses of [apply]. *)
Definition payload_guard {A} (m : Db A) : Db A :=
  catch m (λ e, match e with
                | InvalidOperation | ValueError _ =>
                    raise (PermanentStorageError "projection event payload is invalid")
                | _ => raise e
                end).

Definition apply (context : TenantContext) (name : string) (events : list EventEnvelope)
    (expected_checkpoint : Z) : Db Z :=
  let! p := lift (_projection_table name) in
  if bool_decide (events = []) then ret expected_checkpoint else
  do! raise_if (negb (forallb has_position events))
        (ReplayCorruptionError "projection events require global positions") ;;
  let tenant := ctx_str context in
  let final := final_position events in
  storage_guard (payload_guard (transaction (
    let! t := query id in
    do! raise_if (bool_decide (v_checkpoints (t_views t) !! (tenant, name) = None)
                  && negb (bool_decide (tenant ∈ t_tenants t))) violates ;;
    do! execute (upd_views (set_checkpoints (λ m,
          match m !! (tenant, name) with Some _ => m | None => <[(tenant, name) := 0]> m end))) ;;
    let! actual := query (checkpoint_of tenant name) in
    if final <=? actual then ret actual else
    do! raise_if (negb (actual =? expected_checkpoint))
          (ConcurrencyError expected_checkpoint actual) ;;
    do! for_each events (λ event,
          do! raise_if (negb (bool_decide (ev_tenant_id event = tenant)))
                (PermanentStorageError "projection event tenant does not match context") ;;
          _apply_event p event) ;;
    do! execute (upd_views (set_checkpoints <[(tenant, name) := final]>)) ;;
    ret final))).

Definition reset (context : TenantContext) (name : string) : Db unit :=
  let! p := lift (_projection_table name) in
  let tenant := ctx_str context in
  storage_guard (transaction (
    do! execute (upd_views (λ v,
          pj_put p (filter (λ kv, kv.1.1 ≠ tenant) (pj_get p v)) v)) ;;
    execute (upd_views (set_checkpoints (delete (tenant, name)))))).

(** The advisory lock of a rebuild; it belongs to the session and is not
    undone by a rollback.  [begin_rebuild] returns once it is held. *)
Definition set_maintenance (f : gset (string * string) → gset (string * string)) : Db unit := λ w,
  (inr tt,
   {| w_db := w_db w; w_position := w_position w; w_clock := w_clock w; w_tick := w_tick w;
      w_uuids := w_uuids w; w_draw := w_draw w; w_txn_start := w_txn_start w;
      w_cell := w_cell w; w_maintenance := f (w_maintenance w) |}).

Definition begin_rebuild (context : TenantContext) (name : string) : Db unit :=
  set_maintenance ({[(name, ctx_str context)]} ∪.).

Definition end_rebuild (context : TenantContext) (name : string) : Db unit :=
  set_maintenance (.∖ {[(name, ctx_str context)]}).

(** ** The engine *)

(** [numeric_positions != sorted(set(numeric_positions))] is its negation. *)
Fixpoint strictly_monotonic (positions : list Z) : bool :=
  match positions with
  | a :: (b :: _) as rest => (a <? b) && strictly_monotonic rest
  | _ => true
  end.

(** The loop over the events of a page, with the versions seen so far. *)
Fixpoint check_sequences (versions : gmap string Z) (events : list EventEnvelope)
    : result (gmap string Z) :=
  match events with
  | [] => inr versions
  | e :: rest =>
      let previous := match versions !! aggregate_id e with
                      | Some v => Some v
                      | None => previous_aggregate_sequence e
                      end in
      raise! ReplayCorruptionError "aggregate sequence gap detected during replay"
        when! match previous with
              | Some p => negb (aggregate_sequence e =? p + 1)
              | None => false
              end ;;
      check_sequences (<[aggregate_id e := aggregate_sequence e]> versions) rest
  end.

Definition _validate_page (events : list EventEnvelope) (cursor : Z) (versions : gmap string Z)
    : result (gmap string Z) :=
  raise! ReplayCorruptionError "projection replay requires global positions"
    when! negb (forallb has_position events) ;;
  let positions := omap global_position events in
  raise! ReplayCorruptionError "global event positions are not strictly monotonic"
    when! negb (strictly_monotonic positions) ;;
  raise! ReplayCorruptionError "projection page overlaps its checkpoint"
    when! match positions with first :: _ => first <=? cursor | [] => false end ;;
  check_sequences versions events.

Definition valid_page_size (page_size : Z) : result unit :=
  reject_if (negb ((1 <=? page_size) && (page_size <=? 1000)))
    (ValueError "projection page_size must be between 1 and 1000").

(** The [while True] loop; [None] when the fuel does not suffice. *)
Fixpoint catch_up_loop (fuel : nat) (context : TenantContext) (name : string) (page_size cursor : Z)
    (versions : gmap string Z) : Db (option Z) :=
  match fuel with
  | O => ret None
  | S fuel =>
      let! page := read_all context cursor page_size in
      if bool_decide (pg_events page = []) then ret (Some cursor) else
      let! versions' := lift (_validate_page (pg_events page) cursor versions) in
      let! next := apply context name (pg_events page) cursor in
      match pg_next_cursor page with
      | None => ret (Some next)
      | Some _ => catch_up_loop fuel context name page_size next versions'
      end
  end.

Definition catch_up (fuel : nat) (page_size : Z) (context : TenantContext) (name : string)
    : Db (option Z) :=
  let! cursor := checkpoint context name in
  catch_up_loop fuel context name page_size cursor ∅.

Definition _BUDGET_PROJECTIONS : list string := ["model-usage"%string].

Definition rebuild (fuel : nat) (page_size : Z) (context : TenantContext) (name : string)
    : Db (option Z) :=
  let budget := bool_decide (name ∈ _BUDGET_PROJECTIONS) in
  do! (if budget then begin_rebuild context name else ret tt) ;;
  try_finally
    (do! reset context name ;; catch_up fuel page_size context name)
    (if budget then end_rebuild context name else ret tt).

(** ** Listing *)

(** [ORDER BY last_global_position DESC LIMIT limit] of the tenant's rows;
    positions are distinct.  Times are left as instants. *)
Definition run_status (context : TenantContext) (limit : Z)
    : Db (list (string * RunStatusRow)) :=
  do! raise_if (negb ((1 <=? limit) && (limit <=? 1000)))
        (ValueError "projection query limit must be between 1 and 1000") ;;
  storage_guard (transaction (query (λ t,
    take (Z.to_nat limit)
      (py_sorted (λ a b, rs_last_global_position b.2 <=? rs_last_global_position a.2)
         (omap (λ kv, if bool_decide (kv.1.1 = ctx_str context) then Some (kv.1.2, kv.2) else None)
            (map_to_list (v_run_status (t_views t)))))))).
