(* ===== verification/ProjectionTheorems.v ===== *)
(** * Theorems about projections

    A projection is the replay of its tenant's history: [replay] folds the
    rows of a read model over a list of events, with no database.  Catching
    up and rebuilding leave exactly the replay of the events up to the
    checkpoint, whatever the page size and whether or not an event stops
    them. *)

From stdpp Require Import base gmap sets list strings sorting.
From Stdlib Require Import ZArith Lia Sorted.
From S2P Require Import Prelude PyLib Amounts Json Events Identity Work Database EventStore.
From S2P Require Import Ledger LedgerReads LedgerTheorems Parsing Projections.

Local Open Scope Z_scope.

(** ** The abstract read model *)

Definition replay_event (p : Projection) (e : EventEnvelope) (m : gmap (pj_key p) (pj_row p))
    : result (gmap (pj_key p) (pj_row p)) :=
  let? change := pj_change p e in
  match change with
  | None => inr m
  | Some c =>
      let? new := ch_update c (m !! ch_key c) in
      inr (partial_alter (λ _, new) (ch_key c) m)
  end.

Fixpoint replay (p : Projection) (events : list EventEnvelope) (m : gmap (pj_key p) (pj_row p))
    : result (gmap (pj_key p) (pj_row p)) :=
  match events with
  | [] => inr m
  | e :: rest => let? m' := replay_event p e m in replay p rest m'
  end.

Lemma view_replay_app p es es' m :
  replay p (es ++ es') m = rbind (replay p es m) (replay p es').
Proof.
  revert m. induction es as [|e es IH]; intros m; [done|]. simpl.
  destruct (replay_event p e m); [done|apply IH].
Qed.

(** What the tables of a projection keep apart, and that the rows it refers
    to exist for an event of the ledger. *)
Class ProjectionOk (p : Projection) : Prop := {
  pj_get_put m v : pj_get p (pj_put p m v) = m;
  pj_put_checkpoints m v : v_checkpoints (pj_put p m v) = v_checkpoints v;
  pj_get_checkpoints g v : pj_get p (set_checkpoints g v) = pj_get p v;
  pj_put_same v : pj_put p (pj_get p v) v = v;
  pj_put_put m m' v : pj_put p m (pj_put p m' v) = pj_put p m v;
  pj_set_checkpoints m g v : pj_put p m (set_checkpoints g v) = set_checkpoints g (pj_put p m v);
  pj_refers e c t : pj_change p e = inr (Some c) → event_exists e t = true →
    ch_references c t = true;
}.

Lemma event_exists_tenant e t : event_exists e t = true → tenant_exists e t = true.
Proof. unfold event_exists. by intros [? _]%andb_true_iff. Qed.

Ltac refers_solve :=
  repeat first [ progress py_inv | case_match | progress simplify_eq/= ];
  eauto using event_exists_tenant.

#[export] Instance run_status_ok : ProjectionOk run_status_projection.
Proof.
  split; try done; [by intros []|]. intros e c t. simpl. unfold _apply_run_status.
  intros Hc He. refers_solve.
Qed.
#[export] Instance artifact_index_ok : ProjectionOk artifact_index_projection.
Proof.
  split; try done; [by intros []|]. intros e c t. simpl. unfold _apply_artifact.
  intros Hc He. refers_solve.
Qed.
#[export] Instance pending_approvals_ok : ProjectionOk pending_approvals_projection.
Proof.
  split; try done; [by intros []|]. intros e c t. simpl. unfold _apply_approval.
  intros Hc He. refers_solve.
Qed.
#[export] Instance model_usage_ok : ProjectionOk model_usage_projection.
Proof.
  split; try done; [by intros []|]. intros e c t. simpl. unfold _apply_model_usage.
  intros Hc He. refers_solve.
Qed.
#[export] Instance usage_quota_ok : ProjectionOk usage_quota_projection.
Proof.
  split; try done; [by intros []|]. intros e c t. simpl. unfold _apply_usage.
  intros Hc He. refers_solve.
Qed.
#[export] Instance tenant_listing_ok : ProjectionOk tenant_listing_projection.
Proof.
  split; try done; [by intros []|]. intros e c t. simpl. unfold _apply_tenant.
  intros Hc He. refers_solve.
Qed.

Lemma projection_table_ok name p : _projection_table name = inr p → ProjectionOk p.
Proof.
  unfold _projection_table. destruct (find _ _TABLES) as [[n q]|] eqn:Hf; [|done].
  intros [= <-]. apply find_some in Hf as [Hin _]. simpl in Hin.
  repeat destruct Hin as [[= <- <-]|Hin]; try apply _; done.
Qed.

(** ** Pages of a consistent ledger pass the checks *)

(** The events of a tenant up to a position, as the reader returns them. *)
Definition applied_events (tenant : string) (upto : Z) (l : list EventEnvelope)
    : list EventEnvelope :=
  List.filter (λ e, bool_decide (ev_tenant_id e = tenant) && (position e <=? upto)) l.

Definition history (tenant : string) (w : World) : list EventEnvelope :=
  List.filter (λ e, bool_decide (ev_tenant_id e = tenant)) (log w).

Lemma history_split w tenant cursor :
  ledger_ok w →
  history tenant w = applied_events tenant cursor (log w) ++ tenant_events tenant cursor (log w).
Proof.
  intros Hok. pose proof (log_sorted _ Hok) as Hs. unfold history, applied_events, tenant_events.
  induction Hs as [|e l _ IH Hall]; [done|]. simpl.
  destruct (bool_decide (ev_tenant_id e = tenant)); [|done]. simpl.
  destruct (Z.leb_spec (position e) cursor), (Z.ltb_spec cursor (position e)); try lia.
  - simpl. by rewrite IH.
  - rewrite IH.
    assert (Hnone : List.filter (λ x, bool_decide (ev_tenant_id x = tenant)
        && (position x <=? cursor)) l = []).
    { rewrite Forall_forall in Hall. clear -Hall H. induction l as [|x l IHl]; [done|]. simpl.
      pose proof (Hall x (list_elem_of_here _ _)). simpl in *.
      destruct (Z.leb_spec (position x) cursor); [lia|]. rewrite andb_false_r. apply IHl.
      intros y Hy. apply Hall. by right. }
    by rewrite Hnone.
Qed.

Definition same_aggregate (a : string) (e : EventEnvelope) : bool :=
  bool_decide (aggregate_id e = a).

Lemma filter_lookup {A} (f : A → bool) l i x :
  l !! i = Some x → f x = true →
  List.filter f l !! length (List.filter f (take i l)) = Some x.
Proof.
  revert i. induction l as [|y l IH]; intros [|i] Hi Hf; simpl in *; try done.
  - injection Hi as ->. by rewrite Hf.
  - destruct (f y); simpl; by apply IH.
Qed.

(** The sequence of an event counts its aggregate's earlier events. *)
Lemma history_sequences w tenant i e :
  ledger_ok w → history tenant w !! i = Some e →
  aggregate_sequence e =
  1 + Z.of_nat (length (List.filter (same_aggregate (aggregate_id e)) (take i (history tenant w)))).
Proof.
  intros Hok Hi. pose proof (filter_lookup (same_aggregate (aggregate_id e)) _ _ _ Hi
    ltac:(unfold same_aggregate; by apply bool_decide_true)) as Hl.
  set (n := length _) in *.
  assert (Hst : List.filter (same_aggregate (aggregate_id e)) (history tenant w)
                = stream_events tenant (aggregate_id e) (log w)).
  { unfold history, stream_events. rewrite filter_filter_andb. done. }
  rewrite Hst, stream_events_log in Hl by done.
  destruct (lo_streams _ Hok tenant (aggregate_id e)) as (k & Hk & _).
  assert (Hall : Forall good_row (stream_rows tenant (aggregate_id e) (t_events (w_db w))))
    by (by apply good_rows_filter, ledger_good_rows).
  revert Hall Hk Hl. generalize (stream_rows tenant (aggregate_id e) (t_events (w_db w))).
  intros rows Hall Hk Hl. clearbody n.
  assert (Hmap : map aggregate_sequence (omap decode rows) = sequences k).
  { rewrite <- Hk. clear -Hall. induction Hall as [|r rows Hr _ IH]; [done|].
    destruct (good_row_decode _ Hr) as (x & Hx & _ & Hseq & _).
    rewrite (omap_decode_cons r x _ Hx). simpl. by rewrite Hseq, IH. }
  apply (f_equal (fmap aggregate_sequence)) in Hl. rewrite <- list_lookup_fmap in Hl.
  change (map aggregate_sequence (omap decode rows) !! n = Some (aggregate_sequence e)) in Hl.
  rewrite Hmap in Hl. unfold sequences in Hl. rewrite list_lookup_fmap in Hl.
  destruct (seq 1 k !! n) as [j|] eqn:Hj; [|done]. apply lookup_seq in Hj as [-> _].
  injection Hl as <-. lia.
Qed.

(** The versions the engine has noted, against the events it has passed. *)
Definition noted (versions : gmap string Z) (passed : list EventEnvelope) : Prop :=
  ∀ a s, versions !! a = Some s → s = Z.of_nat (length (List.filter (same_aggregate a) passed)).

Lemma check_sequences_ok w tenant n i versions :
  ledger_ok w → noted versions (take i (history tenant w)) →
  ∃ versions', check_sequences versions
      (map with_predecessor (take n (drop i (history tenant w)))) = inr versions' ∧
    noted versions' (take (i + n) (history tenant w)).
Proof.
  intros Hok. revert i versions. induction n as [|n IH]; intros i versions Hv.
  { exists versions. rewrite Nat.add_0_r. done. }
  destruct (drop i (history tenant w)) as [|e rest] eqn:Hd.
  { exists versions. split; [done|]. rewrite take_ge.
    - rewrite take_ge in Hv; [done|]. apply (f_equal length) in Hd. rewrite length_drop in Hd.
      simpl in Hd. lia.
    - apply (f_equal length) in Hd. rewrite length_drop in Hd. simpl in Hd. lia. }
  assert (Hi : history tenant w !! i = Some e).
  { rewrite <- (Nat.add_0_r i), <- lookup_drop, Hd. done. }
  assert (Hrest : rest = drop (S i) (history tenant w)).
  { replace (S i) with (i + 1)%nat by lia. by rewrite <- drop_drop, Hd. }
  pose proof (history_sequences _ _ _ _ Hok Hi) as Hseq. simpl.
  assert (Hck : match match versions !! aggregate_id e with
                      | Some v => Some v
                      | None => predecessor (aggregate_sequence e)
                      end with
                | Some q => negb (aggregate_sequence e =? q + 1)
                | None => false
                end = false).
  { destruct (versions !! aggregate_id e) as [s|] eqn:Hs.
    - apply Hv in Hs. apply negb_false_iff, Z.eqb_eq. lia.
    - unfold predecessor. destruct (Z.eqb_spec (aggregate_sequence e) 1); [done|].
      apply negb_false_iff, Z.eqb_eq. lia. }
  rewrite Hck. simpl. rewrite Hrest. replace (i + S n)%nat with (S i + n)%nat by lia.
  apply IH. intros a s Ha. rewrite (take_S_r _ _ _ Hi), List.filter_app, length_app. simpl.
  unfold same_aggregate at 2. apply lookup_insert_Some in Ha as [[<- <-]|[Hne Ha]].
  - rewrite bool_decide_true by done. simpl. lia.
  - rewrite bool_decide_false by done. simpl. apply Hv in Ha. lia.
Qed.

Lemma log_positions w e : ledger_ok w → e ∈ log w → global_position e = Some (position e) ∧
  0 < position e.
Proof.
  intros Hok He. unfold log in He. apply list_elem_of_omap in He as (r & Hr & Hd).
  pose proof (ledger_good_rows _ Hok) as Hg. rewrite Forall_forall in Hg.
  specialize (Hg r Hr). destruct (good_row_decode r Hg) as (x & Hx & _ & _ & Hp & _).
  assert (x = e) as -> by congruence. unfold position. rewrite Hp. split; [done|].
  simpl. by destruct Hg as (_ & ? & _).
Qed.

Lemma positions_monotonic l :
  StronglySorted (λ a b, position a < position b) l →
  (∀ e, e ∈ l → global_position e = Some (position e)) →
  forallb has_position (map with_predecessor l) = true ∧
  omap global_position (map with_predecessor l) = map position l ∧
  strictly_monotonic (map position l) = true.
Proof.
  intros Hs Hp. induction Hs as [|e l _ IH Hall]; [done|].
  destruct IH as (IH1 & IH2 & IH3); [intros x Hx; apply Hp; by right|].
  assert (He : global_position e = Some (position e)) by (apply Hp; left). split; [|split].
  - simpl. unfold has_position. simpl. by rewrite He.
  - csimpl. by rewrite He, IH2.
  - destruct l as [|x l]; [done|]. simpl in *. apply Forall_cons in Hall as [? _].
    rewrite IH3, andb_true_r. by apply Z.ltb_lt.
Qed.

(** The checks of the engine accept every page of a consistent ledger. *)
Lemma validate_page_ok w tenant cursor n versions :
  ledger_ok w → noted versions (applied_events tenant cursor (log w)) →
  ∃ versions', _validate_page
      (map with_predecessor (take n (tenant_events tenant cursor (log w)))) cursor versions
    = inr versions' ∧
    noted versions' (applied_events tenant cursor (log w)
                     ++ take n (tenant_events tenant cursor (log w))).
Proof.
  intros Hok Hv. set (rest := tenant_events tenant cursor (log w)).
  set (i := length (applied_events tenant cursor (log w))).
  pose proof (history_split w tenant cursor Hok) as Hsp. fold rest in Hsp.
  assert (Hdrop : drop i (history tenant w) = rest) by (rewrite Hsp; by apply drop_app_length).
  assert (Htake : take i (history tenant w) = applied_events tenant cursor (log w))
    by (rewrite Hsp; by apply take_app_length).
  destruct (check_sequences_ok w tenant n i versions Hok) as (v' & Hc & Hv').
  { by rewrite Htake. }
  rewrite Hdrop in Hc. exists v'. split.
  2:{ rewrite Hsp in Hv'. rewrite take_app_ge in Hv' by (unfold i; lia).
      by replace (i + n - length (applied_events tenant cursor (log w)))%nat with n in Hv'
        by (unfold i; lia). }
  assert (Hsort : StronglySorted (λ a b, position a < position b) rest)
    by (by apply StronglySorted_filter, log_sorted).
  assert (Hin : ∀ e, e ∈ rest → global_position e = Some (position e) ∧ cursor < position e).
  { intros e He. apply elem_of_filterb in He as [He Hb]. bool_props.
    split; [by apply (log_positions w)|done]. }
  destruct (positions_monotonic (take n rest)) as (P1 & P2 & P3).
  { rewrite <- (take_drop n rest) in Hsort. by apply StronglySorted_app_1_l in Hsort. }
  { intros e He. by apply Hin, (subseteq_take n). }
  unfold _validate_page. rewrite P1, P2, P3. simpl.
  assert (Hfirst : match map position (take n rest) with
                   | first :: _ => first <=? cursor | [] => false end = false).
  { destruct (take n rest) as [|e l] eqn:Ht; [done|]. simpl. apply Z.leb_gt, Hin.
    apply (subseteq_take n). rewrite Ht. left. }
  rewrite Hfirst. simpl. exact Hc.
Qed.

(** ** The repository performs the replay *)

Lemma read_all_maintenance context after limit w r w' :
  read_all context after limit w = (r, w') → w_maintenance w' = w_maintenance w.
Proof.
  unfold read_all, bind, lift, ret. destruct (_validate_page_arguments _ _) as [x|u];
    [by intros [= _ <-]|].
  unfold storage_guard, catch, transaction, bind, query, gets. simpl.
  intros Hrun. repeat case_match; by simplify_eq/=.
Qed.

Section Repository.
Context (context : TenantContext) (name : string) (p : Projection).
Context (Hp : _projection_table name = inr p).
#[local] Instance table_ok : ProjectionOk p := projection_table_ok name p Hp.
Abbreviation tenant := (ctx_str context).

(** The tenant's rows are [m]. *)
Definition shows (w : World) (m : gmap (pj_key p) (pj_row p)) : Prop :=
  ∀ k, pj_get p (t_views (w_db w)) !! (tenant, k) = m !! k.

(** The views apart from this projection and the checkpoints. *)
Definition other_views (v : Views) : Views := set_checkpoints (λ _, ∅) (pj_put p ∅ v).

Lemma other_views_put m v : other_views (pj_put p m v) = other_views v.
Proof. unfold other_views. by rewrite pj_put_put. Qed.

Lemma other_views_checkpoints g v : other_views (set_checkpoints g v) = other_views v.
Proof. unfold other_views. by rewrite pj_set_checkpoints. Qed.

(** Nothing but the tenant's rows and checkpoint of this projection differs. *)
Record kept (w w' : World) : Prop := {
  kp_db : w_db w' = upd_views (λ _, t_views (w_db w')) (w_db w);
  kp_position : w_position w' = w_position w;
  kp_maintenance : w_maintenance w' = w_maintenance w;
  kp_others : other_views (t_views (w_db w')) = other_views (t_views (w_db w));
  kp_rows t k : t ≠ tenant →
    pj_get p (t_views (w_db w')) !! (t, k) = pj_get p (t_views (w_db w)) !! (t, k);
  kp_checkpoints t n : (t, n) ≠ (tenant, name) →
    checkpoint_of t n (w_db w') = checkpoint_of t n (w_db w);
}.

Lemma kept_tables w w' : kept w w' →
  t_events (w_db w') = t_events (w_db w) ∧ t_heads (w_db w') = t_heads (w_db w) ∧
  t_tenants (w_db w') = t_tenants (w_db w).
Proof. intros [-> _ _ _ _ _]. done. Qed.

#[local] Instance kept_preorder : PreOrder kept.
Proof.
  split.
  - intros w. split; try done. by destruct (w_db w).
  - intros w1 w2 w3 K1 K2. destruct K1 as [D1 P1 M1 O1 R1 C1], K2 as [D2 P2 M2 O2 R2 C2]. split.
    + rewrite D2 at 1. rewrite D1 at 1. done.
    + congruence.
    + congruence.
    + congruence.
    + intros t k Ht. rewrite R2, R1 by done. done.
    + intros t n Ht. rewrite C2, C1 by done. done.
Qed.

Lemma kept_ledger w w' : kept w w' → ledger_ok w → ledger_ok w' ∧ log w' = log w.
Proof.
  intros K Hok. destruct (kept_tables _ _ K) as (He & Hh & _). split.
  - eapply ledger_ok_ext; [done|done| |done]. rewrite (kp_position _ _ K). lia.
  - unfold log. by rewrite He.
Qed.

(** Same tables: readings of the clock aside. *)
Lemma kept_same w w' : w_db w' = w_db w → w_position w' = w_position w →
  w_maintenance w' = w_maintenance w → kept w w'.
Proof. intros Hd Hpos Hm. split; rewrite ?Hd; try done. by destruct (w_db w). Qed.

Lemma apply_event_spec e w m :
  shows w m → ev_tenant_id e = tenant → event_exists e (w_db w) = true →
  match replay_event p e m with
  | inr m' => ∃ w', _apply_event p e w = (inr tt, w') ∧ shows w' m' ∧ kept w w' ∧
                    v_checkpoints (t_views (w_db w')) = v_checkpoints (t_views (w_db w))
  | inl x => _apply_event p e w = (inl x, w)
  end.
Proof.
  intros Hm Ht He. unfold replay_event, _apply_event, bind, lift, query, gets.
  destruct (pj_change p e) as [x|[c|]] eqn:Hc; simpl; [done| |].
  2:{ exists w. split; [done|]. split; [done|]. by split. }
  rewrite Ht. unfold id. rewrite (Hm (ch_key c)).
  destruct (ch_update c (m !! ch_key c)) as [x|new] eqn:Hu; simpl; [done|].
  rewrite (pj_refers _ _ _ Hc He), andb_false_r. simpl. eexists. split; [reflexivity|].
  split; [|split; [split|]]; simpl; try done.
  - intros k. simpl. rewrite pj_get_put. destruct (decide (k = ch_key c)) as [->|Hk].
    + by rewrite !lookup_partial_alter_eq.
    + rewrite !lookup_partial_alter_ne by congruence. apply Hm.
  - apply other_views_put.
  - intros t k Htk. rewrite pj_get_put, lookup_partial_alter_ne by congruence. done.
  - intros t n _. unfold checkpoint_of. simpl. by rewrite pj_put_checkpoints.
  - apply pj_put_checkpoints.
Qed.

Definition apply_body (event : EventEnvelope) : Db unit :=
  do! raise_if (negb (bool_decide (ev_tenant_id event = tenant)))
        (PermanentStorageError "projection event tenant does not match context") ;;
  _apply_event p event.

Lemma apply_events_spec events w m :
  shows w m → Forall (λ e, ev_tenant_id e = tenant) events →
  Forall (λ e, event_exists e (w_db w) = true) events →
  match replay p events m with
  | inr m' => ∃ w', for_each events apply_body w = (inr tt, w') ∧ shows w' m' ∧ kept w w' ∧
                    v_checkpoints (t_views (w_db w')) = v_checkpoints (t_views (w_db w))
  | inl x => ∃ w', for_each events apply_body w = (inl x, w') ∧ kept w w'
  end.
Proof.
  revert w m. induction events as [|e events IH]; intros w m Hm Ht He; cbn [replay].
  { exists w. split; [done|]. split; [done|]. by split. }
  apply Forall_cons in Ht as [Ht Hts]. apply Forall_cons in He as [He Hes].
  pose proof (apply_event_spec e w m Hm Ht He) as Hstep.
  assert (Hfe : for_each (e :: events) apply_body w =
    match _apply_event p e w with
    | (inr _, w1) => for_each events apply_body w1
    | (inl x, w1) => (inl x, w1)
    end).
  { simpl. unfold bind at 1, apply_body at 1, bind at 1. by rewrite bool_decide_true. }
  destruct (replay_event p e m) as [x|m1]; cbn [rbind].
  { exists w. by rewrite Hfe, Hstep. }
  destruct Hstep as (w1 & Hw1 & Hm1 & K1 & C1). rewrite Hw1 in Hfe.
  specialize (IH w1 m1 Hm1 Hts). destruct (kept_tables _ _ K1) as (E1 & _ & T1).
  unfold event_exists, tenant_exists in *. rewrite E1, T1 in IH. specialize (IH Hes).
  destruct (replay p events m1) as [x|m2].
  - destruct IH as (w2 & H2 & K2). exists w2. rewrite Hfe. split; [done|]. by etransitivity.
  - destruct IH as (w2 & H2 & Hm2 & K2 & C2). exists w2. rewrite Hfe.
    split; [done|]. split; [done|]. split; [by etransitivity|congruence].
Qed.

(** A transaction of the repository: it commits, or restores the tables. *)
Lemma guarded_ok {A} (body : Db A) w a w1 w' :
  begin w = (inr tt, w1) → body w1 = (inr a, w') →
  storage_guard (payload_guard (transaction body)) w = (inr a, w').
Proof.
  intros Hb Hrun. unfold storage_guard, payload_guard, catch, transaction.
  by rewrite (bind_run _ _ _ _ _ Hb), Hrun.
Qed.

Lemma guarded_err {A} (body : Db A) w x w1 w' :
  begin w = (inr tt, w1) → body w1 = (inl x, w') →
  ∃ x' w2, storage_guard (payload_guard (transaction body)) w = (inl x', w2) ∧
    w_db w2 = w_db w ∧ w_position w2 = w_position w' ∧ w_maintenance w2 = w_maintenance w'.
Proof.
  intros Hb Hrun. unfold storage_guard, payload_guard, catch, transaction.
  rewrite (bind_run _ _ _ _ _ Hb), Hrun. destruct x; eexists _, _; split; by try reflexivity.
Qed.

Lemma begin_kept w : ∃ w1, begin w = (inr tt, w1) ∧ w_db w1 = w_db w ∧ kept w w1.
Proof. eexists. split; [reflexivity|]. split; [done|]. by apply kept_same. Qed.

(** The first statement of [apply]: the checkpoint row exists from then on. *)
Definition with_checkpoint (w : World) : World :=
  set_db (upd_views (set_checkpoints (λ m,
    match m !! (tenant, name) with Some _ => m | None => <[(tenant, name) := 0]> m end))) w.

Lemma with_checkpoint_kept w :
  kept w (with_checkpoint w) ∧
  checkpoint_of tenant name (w_db (with_checkpoint w)) = checkpoint_of tenant name (w_db w) ∧
  pj_get p (t_views (w_db (with_checkpoint w))) = pj_get p (t_views (w_db w)).
Proof.
  split; [split|split]; simpl; try done.
  - apply other_views_checkpoints.
  - intros t k _. by rewrite pj_get_checkpoints.
  - intros t n Hn. unfold checkpoint_of. simpl. case_match; [done|].
    by rewrite lookup_insert_ne.
  - unfold checkpoint_of. simpl.
    destruct (v_checkpoints (t_views (w_db w)) !! (tenant, name)) eqn:Hc; [by rewrite Hc|].
    by rewrite lookup_insert_eq.
  - apply pj_get_checkpoints.
Qed.

Lemma set_final_kept w final :
  let w' := set_db (upd_views (set_checkpoints <[(tenant, name) := final]>)) w in
  kept w w' ∧ checkpoint_of tenant name (w_db w') = final ∧
  pj_get p (t_views (w_db w')) = pj_get p (t_views (w_db w)).
Proof.
  split; [split|split]; simpl; try done.
  - apply other_views_checkpoints.
  - intros t k _. by rewrite pj_get_checkpoints.
  - intros t n Hn. unfold checkpoint_of. simpl. by rewrite lookup_insert_ne.
  - unfold checkpoint_of. simpl. by rewrite lookup_insert_eq.
  - apply pj_get_checkpoints.
Qed.

(** The statements of [apply] inside its transaction. *)
Definition apply_statements (events : list EventEnvelope) (expected : Z) : Db Z :=
  let! t := query id in
  do! raise_if (bool_decide (v_checkpoints (t_views t) !! (tenant, name) = None)
                && negb (bool_decide (tenant ∈ t_tenants t))) violates ;;
  do! execute (upd_views (set_checkpoints (λ m,
        match m !! (tenant, name) with Some _ => m | None => <[(tenant, name) := 0]> m end))) ;;
  let! actual := query (checkpoint_of tenant name) in
  if final_position events <=? actual then ret actual else
  do! raise_if (negb (actual =? expected)) (ConcurrencyError expected actual) ;;
  do! for_each events apply_body ;;
  do! execute (upd_views (set_checkpoints <[(tenant, name) := final_position events]>)) ;;
  ret (final_position events).

Lemma apply_unfold events expected w :
  events ≠ [] → forallb has_position events = true →
  apply context name events expected w =
  storage_guard (payload_guard (transaction (apply_statements events expected))) w.
Proof.
  intros Hne Hpos. unfold apply, bind at 1, lift at 1. rewrite Hp.
  rewrite bool_decide_false by done. unfold bind at 1. by rewrite Hpos.
Qed.

Lemma apply_statements_run events w :
  tenant ∈ t_tenants (w_db w) →
  checkpoint_of tenant name (w_db w) < final_position events →
  apply_statements events (checkpoint_of tenant name (w_db w)) w =
  match for_each events apply_body (with_checkpoint w) with
  | (inl x, w') => (inl x, w')
  | (inr _, w') => (inr (final_position events),
                    set_db (upd_views (set_checkpoints <[(tenant, name) :=
                              final_position events]>)) w')
  end.
Proof.
  intros Hten Hlt. unfold apply_statements. erewrite bind_run by reflexivity. unfold id.
  rewrite (bool_decide_true (tenant ∈ _)) by done. rewrite andb_false_r. simpl.
  erewrite bind_run by reflexivity. erewrite bind_run by reflexivity.
  fold (with_checkpoint w). erewrite bind_run by reflexivity.
  destruct (with_checkpoint_kept w) as (_ & -> & _).
  rewrite (proj2 (Z.leb_gt _ _)) by done. rewrite Z.eqb_refl.
  erewrite bind_run by reflexivity. unfold bind at 1.
  by destruct (for_each events apply_body (with_checkpoint w)) as [[x|u] w'].
Qed.

Lemma apply_spec events w m :
  shows w m → events ≠ [] → forallb has_position events = true →
  Forall (λ e, ev_tenant_id e = tenant) events →
  Forall (λ e, event_exists e (w_db w) = true) events →
  checkpoint_of tenant name (w_db w) < final_position events →
  match replay p events m with
  | inr m' => ∃ w', apply context name events (checkpoint_of tenant name (w_db w)) w
                    = (inr (final_position events), w') ∧
                    shows w' m' ∧ kept w w' ∧
                    checkpoint_of tenant name (w_db w') = final_position events
  | inl _ => ∃ x w', apply context name events (checkpoint_of tenant name (w_db w)) w
                     = (inl x, w') ∧ w_db w' = w_db w ∧ kept w w'
  end.
Proof.
  intros Hm Hne Hpos Ht He Hlt. rewrite !apply_unfold by done.
  destruct (begin_kept w) as (w1 & Hb & Hdb1 & K1).
  assert (Hten : tenant ∈ t_tenants (w_db w)).
  { destruct events as [|e events]; [done|]. apply Forall_cons in He as [He _].
    apply Forall_cons in Ht as [Ht _]. apply event_exists_tenant in He.
    unfold tenant_exists in He. bool_props. by rewrite <- Ht. }
  rewrite <- Hdb1 in Hten, He, Hlt |- *.
  pose proof (apply_statements_run events w1 Hten Hlt) as Hbody.
  destruct (with_checkpoint_kept w1) as (K2 & _ & G2).
  pose proof (apply_events_spec events (with_checkpoint w1) m) as Hall.
  specialize (Hall ltac:(intros k; rewrite G2, Hdb1; apply Hm) Ht He).
  destruct (replay p events m) as [x|m'].
  - destruct Hall as (w2 & Hrun & K3). rewrite Hrun in Hbody.
    destruct (guarded_err _ w x w1 w2 Hb Hbody) as (x' & w3 & Hr & Hd & Hp3 & Hm3).
    exists x', w3. split; [done|]. split; [by rewrite Hdb1|]. apply kept_same; [done|..].
    + rewrite Hp3, (kp_position _ _ K3), (kp_position _ _ K2). apply (kp_position _ _ K1).
    + rewrite Hm3, (kp_maintenance _ _ K3), (kp_maintenance _ _ K2).
      apply (kp_maintenance _ _ K1).
  - destruct Hall as (w2 & Hrun & Hm' & K3 & _). rewrite Hrun in Hbody.
    destruct (set_final_kept w2 (final_position events)) as (K4 & C4 & G4).
    eexists. split; [exact (guarded_ok _ w _ w1 _ Hb Hbody)|]. split; [|split; [|done]].
    + intros k. rewrite G4. apply Hm'.
    + etransitivity; [exact K1|]. etransitivity; [exact K2|]. by etransitivity.
Qed.

(** ** Catching up *)

Abbreviation cursor w := (checkpoint_of tenant name (w_db w)).
Abbreviation remaining w := (tenant_events tenant (cursor w) (log w)).

(** The rows are the replay of the events up to the checkpoint. *)
Definition projected (w : World) : Prop :=
  0 ≤ cursor w ∧
  ∃ m, replay p (map with_predecessor (applied_events tenant (cursor w) (log w))) ∅ = inr m ∧
       shows w m.

Lemma log_event_exists w e :
  ledger_ok w → e ∈ log w → ev_tenant_id e ∈ t_tenants (w_db w) →
  event_exists (with_predecessor e) (w_db w) = true.
Proof.
  intros Hok He Ht. unfold event_exists, tenant_exists. simpl.
  rewrite bool_decide_true by done. simpl. apply existsb_exists.
  unfold log in He. apply list_elem_of_omap in He as (r & Hr & Hd).
  exists r. split; [by apply list_elem_of_In|].
  pose proof (ledger_good_rows _ Hok) as Hg. rewrite Forall_forall in Hg.
  specialize (Hg r Hr). pose proof Hg as ((e0 & Hv & Hrow) & Hpos & Hseq).
  unfold decode in Hd. rewrite Hrow in Hd at 1. rewrite event_row_roundtrip in Hd by done.
  injection Hd as <-. rewrite Hrow. simpl. by rewrite !bool_decide_true.
Qed.

(** The page that [read_all] returns next, and where it leaves the cursor. *)
Lemma page_cut w n :
  ledger_ok w → take n (remaining w) ≠ [] →
  let final := final_position (map with_predecessor (take n (remaining w))) in
  cursor w < final ∧
  tenant_events tenant final (log w) = drop n (remaining w) ∧
  applied_events tenant final (log w)
  = applied_events tenant (cursor w) (log w) ++ take n (remaining w).
Proof.
  intros Hok Hne. cbv zeta. destruct (last (take n (remaining w))) as [e|] eqn:Hlast.
  2:{ by apply last_None in Hlast. }
  assert (Hfinal : final_position (map with_predecessor (take n (remaining w))) = position e).
  { unfold final_position. rewrite fmap_last, Hlast. simpl.
    apply last_Some_elem_of, (subseteq_take n), elem_of_filterb in Hlast as [Hin _].
    by rewrite (proj1 (log_positions _ _ Hok Hin)). }
  rewrite Hfinal. rewrite last_lookup in Hlast. set (k := pred (length _)) in Hlast.
  assert (Hk : (k < n)%nat ∧ (k < length (remaining w))%nat).
  { apply lookup_lt_Some in Hlast. rewrite length_take in Hlast. lia. }
  rewrite lookup_take_lt in Hlast by lia.
  destruct (tenant_events_cut tenant (cursor w) (log w) k e) as [Hlt Hcut];
    [by apply log_sorted|done|].
  assert (Hdrop : tenant_events tenant (position e) (log w) = drop n (remaining w)).
  { rewrite Hcut. unfold k in *. rewrite length_take in *.
    destruct (Nat.le_ge_cases n (length (remaining w))).
    - f_equal. lia.
    - rewrite !drop_ge by lia. done. }
  split; [done|]. split; [done|].
  pose proof (history_split w tenant (cursor w) Hok) as H1.
  pose proof (history_split w tenant (position e) Hok) as H2.
  rewrite Hdrop in H2. rewrite H1 in H2. rewrite <- (take_drop n (remaining w)) in H2 at 1.
  rewrite app_assoc in H2. by apply app_inv_tail in H2.
Qed.

(** What [apply] asks of a page holds of the pages of the ledger. *)
Lemma page_ready w n :
  ledger_ok w → tenant ∈ t_tenants (w_db w) →
  let page := map with_predecessor (take n (remaining w)) in
  forallb has_position page = true ∧ Forall (λ e, ev_tenant_id e = tenant) page ∧
  Forall (λ e, event_exists e (w_db w) = true) page.
Proof.
  intros Hok Hten page.
  assert (Hin : ∀ y, y ∈ page → ∃ e, y = with_predecessor e ∧ e ∈ log w ∧ ev_tenant_id e = tenant).
  { intros y Hy. apply list_elem_of_fmap in Hy as (e & -> & He). exists e.
    apply (subseteq_take n), elem_of_filterb in He as [He Hb]. by bool_props. }
  split; [|split].
  - apply forallb_forall. intros y Hy. apply list_elem_of_In, Hin in Hy as (e & -> & He & _).
    unfold has_position. simpl. by rewrite (proj1 (log_positions _ _ Hok He)).
  - apply Forall_forall. intros y Hy. by apply Hin in Hy as (e & -> & _ & Ht).
  - apply Forall_forall. intros y Hy. apply Hin in Hy as (e & -> & He & Ht).
    apply log_event_exists; [done..|]. by rewrite Ht.
Qed.

(** One page: the next events are replayed, or the history cannot be. *)
Lemma page_applied w n :
  ledger_ok w → tenant ∈ t_tenants (w_db w) → projected w → take n (remaining w) ≠ [] →
  let page := map with_predecessor (take n (remaining w)) in
  (∃ w', apply context name page (cursor w) w = (inr (final_position page), w') ∧
     kept w w' ∧ projected w' ∧ cursor w' = final_position page ∧
     remaining w' = drop n (remaining w)) ∨
  (∃ x w', apply context name page (cursor w) w = (inl x, w') ∧ kept w w' ∧ projected w' ∧
     ∀ m, replay p (map with_predecessor (history tenant w)) ∅ ≠ inr m).
Proof.
  intros Hok Hten (Hcp & m & Hm & Hsh) Hne page.
  destruct (page_cut w n Hok Hne) as (Hlt & Hrest & Happ). fold page in Hlt, Hrest, Happ.
  assert (Hsp : applied_events tenant (final_position page) (log w)
                ++ drop n (remaining w) = history tenant w).
  { rewrite (history_split w tenant (final_position page)) by done. by rewrite Hrest. }
  pose proof (apply_spec page w m Hsh) as Hspec.
  destruct (page_ready w n Hok Hten) as (P1 & P2 & P3). fold page in P1, P2, P3.
  specialize (Hspec ltac:(unfold page; by destruct (take n (remaining w))) P1 P2 P3 Hlt).
  destruct (replay p page m) as [x|m'] eqn:Hrep.
  - right. destruct Hspec as (x' & w' & Hrun & Hd & K). exists x', w'.
    split; [done|]. split; [done|]. split.
    + unfold projected. destruct (kept_ledger _ _ K Hok) as [_ Hlog]. rewrite Hd, Hlog.
      split; [done|]. exists m. split; [done|]. intros k. rewrite Hd. apply Hsh.
    + intros m2 Hall. rewrite <- Hsp, Happ, !map_app, !view_replay_app, Hm in Hall. simpl in Hall.
      fold page in Hall. by rewrite Hrep in Hall.
  - left. destruct Hspec as (w' & Hrun & Hsh' & K & Hc). exists w'.
    destruct (kept_ledger _ _ K Hok) as [_ Hlog].
    split; [done|]. split; [done|]. rewrite Hc, Hlog. split; [|by split].
    unfold projected. rewrite Hc, Hlog. split; [lia|]. exists m'. split; [|done].
    rewrite Happ, map_app, view_replay_app, Hm. exact Hrep.
Qed.

Lemma projected_same w w' : w_db w' = w_db w → projected w → projected w'.
Proof.
  unfold projected, shows, log. intros Hd. by rewrite Hd.
Qed.

(** How catching up ends: with every event applied, or at an event that no
    replay of the history gets past. *)
Definition caught_up (w : World) (r : result (option Z)) (w' : World) : Prop :=
  kept w w' ∧ projected w' ∧
  match r with
  | inr (Some c) => cursor w' = c ∧ remaining w' = []
  | inr None => False
  | inl _ => ∀ m, replay p (map with_predecessor (history tenant w)) ∅ ≠ inr m
  end.

Lemma caught_up_trans w w1 r w' :
  ledger_ok w → kept w w1 → caught_up w1 r w' → caught_up w r w'.
Proof.
  intros Hok K (K' & P & Hr). destruct (kept_ledger _ _ K Hok) as [_ Hlog].
  split; [by etransitivity|]. split; [done|]. destruct r as [x|[c|]]; [|done|done].
  unfold history in *. by rewrite <- Hlog.
Qed.

Lemma catch_up_loop_spec fuel page_size w versions :
  ledger_ok w → tenant ∈ t_tenants (w_db w) → 1 ≤ page_size ≤ 1000 → projected w →
  noted versions (applied_events tenant (cursor w) (log w)) →
  (length (remaining w) < fuel)%nat →
  ∃ r w', catch_up_loop fuel context name page_size (cursor w) versions w = (r, w') ∧
    caught_up w r w'.
Proof.
  revert w versions. induction fuel as [|fuel IH]; intros w versions Hok Hten Hsize Hproj Hnoted Hf;
    [lia|].
  destruct (read_all_run w context (cursor w) page_size Hok (proj1 Hproj) Hsize)
    as (w1 & Hread & Hdb & Hpos).
  assert (Hm1 : w_maintenance w1 = w_maintenance w) by (by eapply read_all_maintenance).
  pose proof (kept_same w w1 Hdb Hpos Hm1) as K1.
  destruct (kept_ledger _ _ K1 Hok) as [Hok1 Hlog1].
  set (n := Z.to_nat page_size).
  cbn [catch_up_loop]. unfold bind at 1. rewrite Hread. cbn [pg_events abstract_page].
  fold n.
  assert (Hcur : cursor w1 = cursor w) by (by rewrite Hdb).
  assert (Hrem : remaining w1 = remaining w) by (by rewrite Hcur, Hlog1).
  assert (Hproj1 : projected w1) by (by apply (projected_same w)).
  destruct (decide (take n (remaining w) = [])) as [Hnil|Hne].
  { rewrite Hnil. exists (inr (Some (cursor w))), w1. split; [done|].
    split; [done|]. split; [done|]. split; [done|]. rewrite Hrem.
    destruct (remaining w); [done|]. unfold n in Hnil. by destruct (Z.to_nat page_size) eqn:?; [lia|]. }
  rewrite bool_decide_false by (by destruct (take n (remaining w))).
  destruct (validate_page_ok w tenant (cursor w) n versions Hok Hnoted) as (v' & Hval & Hv').
  unfold bind at 1, lift at 1. rewrite Hval. unfold bind at 1.
  pose proof (page_applied w1 n Hok1 ltac:(by rewrite Hdb) Hproj1) as Hpage.
  rewrite Hrem, Hcur in Hpage. specialize (Hpage Hne). cbv zeta in Hpage.
  destruct Hpage as [(w2 & Hrun & K2 & P2 & Hc2 & Hr2)|(x & w2 & Hrun & K2 & P2 & Hbad)];
    rewrite Hrun.
  2:{ exists (inl x), w2. split; [done|]. apply (caught_up_trans w w1); [done|done|]. by split. }
  pose proof (abstract_page_cursor w tenant (cursor w) page_size Hok ltac:(lia)) as Hnext.
  cbv zeta in Hnext. unfold abstract_page in Hnext. cbn [pg_next_cursor] in Hnext. fold n in Hnext.
  destruct (kept_ledger _ _ K2 Hok1) as [Hok2 Hlog2].
  cbn [pg_next_cursor abstract_page]. fold n.
  match type of Hnext with match ?x with Some _ => _ | None => _ end => destruct x as [next|] end.
  - destruct (IH w2 v') as (r & w3 & Hloop & Hcaught).
    + done.
    + destruct (kept_tables _ _ K2) as (_ & _ & ->). by rewrite Hdb.
    + done.
    + done.
    + rewrite Hc2, Hlog2, Hlog1. destruct (page_cut w n Hok Hne) as (_ & _ & ->). done.
    + rewrite Hr2, length_drop. unfold n. destruct (remaining w); [by rewrite take_nil in Hne|].
      simpl in Hf |- *. lia.
    + rewrite Hc2 in Hloop. exists r, w3. split; [done|].
      apply (caught_up_trans w w1); [done|done|]. by apply (caught_up_trans w1 w2).
  - exists (inr (Some (final_position (map with_predecessor (take n (remaining w)))))), w2.
    split; [done|]. apply (caught_up_trans w w1); [done|done|]. split; [done|]. split; [done|].
    split; [done|]. rewrite Hr2. apply drop_ge. unfold n. lia.
Qed.

Lemma checkpoint_run w :
  ∃ w1, checkpoint context name w = (inr (cursor w), w1) ∧ w_db w1 = w_db w ∧ kept w w1.
Proof.
  unfold checkpoint, bind, lift. rewrite Hp. eexists. split; [reflexivity|].
  split; [done|]. by apply kept_same.
Qed.

(** Where the replay of the whole history ends, catching up ends. *)
Definition replays (w : World) (run : result (option Z) * World) : Prop :=
  match replay p (map with_predecessor (history tenant w)) ∅ with
  | inr m => ∃ c w', run = (inr (Some c), w') ∧ shows w' m ∧ cursor w' = c ∧ kept w w'
  | inl _ => ∃ x w', run = (inl x, w') ∧ projected w' ∧ kept w w'
  end.

Lemma caught_up_replays w r w' : ledger_ok w → caught_up w r w' → replays w (r, w').
Proof.
  intros Hok (K & P & Hr). unfold replays. destruct (kept_ledger _ _ K Hok) as [Hok' Hlog].
  destruct r as [x|[c|]]; [| |done].
  - destruct (replay p _ ∅) as [y|m]; [by exists x, w'|]. by destruct (Hr m).
  - destruct Hr as [Hc Hrem], P as (_ & m & Hm & Hsh).
    assert (Hh : history tenant w = applied_events tenant (cursor w') (log w')).
    { unfold history. rewrite <- Hlog. fold (history tenant w').
      by rewrite (history_split w' tenant (cursor w') Hok'), Hrem, app_nil_r. }
    rewrite Hh, Hm. by exists c, w'.
Qed.

Lemma catch_up_spec fuel page_size w :
  ledger_ok w → tenant ∈ t_tenants (w_db w) → 1 ≤ page_size ≤ 1000 → projected w →
  (length (remaining w) < fuel)%nat →
  ∃ r w', catch_up fuel page_size context name w = (r, w') ∧ caught_up w r w'.
Proof.
  intros Hok Hten Hsize Hproj Hf. destruct (checkpoint_run w) as (w1 & Hrun & Hdb & K).
  destruct (kept_ledger _ _ K Hok) as [Hok1 Hlog].
  unfold catch_up. rewrite (bind_run _ _ _ _ _ Hrun).
  destruct (catch_up_loop_spec fuel page_size w1 ∅) as (r & w' & Hloop & Hc).
  - done.
  - by rewrite Hdb.
  - done.
  - by apply (projected_same w).
  - by intros a s.
  - by rewrite Hlog, Hdb.
  - rewrite Hdb in Hloop. exists r, w'. split; [done|]. by apply (caught_up_trans w w1).
Qed.

(** *** Rebuilding *)

(** [reset] empties the view and forgets the checkpoint. *)
Lemma reset_run w :
  ∃ w1, reset context name w = (inr tt, w1) ∧ kept w w1 ∧ shows w1 ∅ ∧ cursor w1 = 0.
Proof.
  unfold reset, bind at 1, lift. rewrite Hp. eexists. split; [reflexivity|].
  split; [split|split]; simpl; try done.
  - by rewrite other_views_checkpoints, other_views_put.
  - intros t k Ht. rewrite pj_get_checkpoints, pj_get_put.
    destruct (pj_get p (t_views (w_db w)) !! (t, k)) as [r|] eqn:Hr.
    + by apply map_lookup_filter_Some.
    + apply map_lookup_filter_None. by left.
  - intros t n Hn. unfold checkpoint_of. simpl. rewrite lookup_delete_ne by congruence.
    by rewrite pj_put_checkpoints.
  - intros k. simpl. rewrite pj_get_checkpoints, pj_get_put, lookup_empty.
    apply map_lookup_filter_None. right. intros r _. simpl. tauto.
  - unfold checkpoint_of. simpl. by rewrite lookup_delete_eq.
Qed.

(** Positions are positive: nothing is applied before the first. *)
Lemma nothing_applied w :
  ledger_ok w → applied_events tenant 0 (log w) = [] ∧ tenant_events tenant 0 (log w) = history tenant w.
Proof.
  intros Hok. assert (Hn : applied_events tenant 0 (log w) = []).
  { unfold applied_events. assert (Hpos : ∀ e, e ∈ log w → 0 < position e)
      by (intros e He; by apply (log_positions w)).
    induction (log w) as [|e l IH]; [done|]. simpl.
    pose proof (Hpos e ltac:(left)). destruct (Z.leb_spec (position e) 0); [lia|].
    rewrite andb_false_r. apply IH. intros x Hx. apply Hpos. by right. }
  split; [done|]. by rewrite (history_split w tenant 0 Hok), Hn.
Qed.

(** Resetting and catching up replays everything, from any view. *)
Lemma reset_catch_up fuel page_size w :
  ledger_ok w → tenant ∈ t_tenants (w_db w) → 1 ≤ page_size ≤ 1000 →
  (length (history tenant w) < fuel)%nat →
  ∃ r w', (do! reset context name ;; catch_up fuel page_size context name) w = (r, w') ∧
    caught_up w r w'.
Proof.
  intros Hok Hten Hsize Hf. destruct (reset_run w) as (w1 & Hrun & K & Hsh & Hc).
  destruct (kept_ledger _ _ K Hok) as [Hok1 Hlog], (nothing_applied w1 Hok1) as [Hn Hr].
  rewrite (bind_run _ _ _ _ _ Hrun).
  destruct (catch_up_spec fuel page_size w1) as (r & w' & Hcu & Hcaught).
  - done.
  - by destruct (kept_tables _ _ K) as (_ & _ & ->).
  - done.
  - unfold projected. rewrite Hc, Hn. split; [lia|]. by exists ∅.
  - rewrite Hc, Hr. unfold history. by rewrite Hlog.
  - exists r, w'. split; [done|]. by apply (caught_up_trans w w1).
Qed.
Lemma set_maintenance_caught_up g h w r w' w1 :
  snd (set_maintenance g w) = w1 → h (g (w_maintenance w)) = w_maintenance w →
  caught_up w1 r w' → caught_up w r (snd (set_maintenance h w')).
Proof.
  intros <- Hh (K & P & Hr). split; [|split; [exact (projected_same w' _ eq_refl P)|done]].
  destruct K as [D Q M O R C]. split; try done. simpl in *. by rewrite M.
Qed.

Lemma rebuild_spec fuel page_size w :
  ledger_ok w → tenant ∈ t_tenants (w_db w) → 1 ≤ page_size ≤ 1000 →
  (name, tenant) ∉ w_maintenance w → (length (history tenant w) < fuel)%nat →
  ∃ r w', rebuild fuel page_size context name w = (r, w') ∧ caught_up w r w'.
Proof.
  intros Hok Hten Hsize Hfree Hf. unfold rebuild, bind at 1.
  destruct (bool_decide (name ∈ _BUDGET_PROJECTIONS)).
  - set (w1 := snd (begin_rebuild context name w)).
    assert (Hok1 : ledger_ok w1) by (eapply ledger_ok_ext; [..|exact Hok]; done).
    destruct (reset_catch_up fuel page_size w1) as (r & w' & Hrun & Hc); [done..|].
    change (begin_rebuild context name w) with (inr tt : result unit, w1).
    eexists r, _. unfold try_finally. rewrite Hrun. split; [reflexivity|].
    apply (set_maintenance_caught_up ({[(name, tenant)]} ∪.) _ w r w' w1); [done|set_solver|done].
  - destruct (reset_catch_up fuel page_size w) as (r & w' & Hrun & Hc); [done..|].
    exists r, w'. unfold try_finally. simpl. by rewrite Hrun.
Qed.
End Repository.

(** ** The claims *)

(** C18. Catching a projection up terminates and replays the tenant's history:
    whatever the page size, from a view that is the replay of the events up to
    its checkpoint, the engine ends with the rows of the replay of the whole
    history (or, when the history has no replay, at an error that leaves the
    replay up to the checkpoint reached), and no other tenant, projection,
    checkpoint or table differs.  Fuel beyond the number of events left is
    enough. *)
Theorem catch_up_replays_history context name p fuel page_size w :
  _projection_table name = inr p →
  ledger_ok w → ctx_str context ∈ t_tenants (w_db w) → 1 ≤ page_size ≤ 1000 →
  projected context name p w →
  (length (tenant_events (ctx_str context)
             (checkpoint_of (ctx_str context) name (w_db w)) (log w)) < fuel)%nat →
  replays context name p w (catch_up fuel page_size context name w).
Proof.
  intros Hp Hok Hten Hsize Hproj Hf.
  destruct (catch_up_spec context name p Hp fuel page_size w) as (r & w' & -> & Hc); [done..|].
  by apply caught_up_replays.
Qed.

(** Rebuilding a projection recreates it from the ledger alone: whatever
    the view and its checkpoint held before, the rows afterwards are the replay
    of the tenant's whole history (or of its longest prefix of pages, at an
    error), everything else is kept, and the maintenance lock is free again on
    either outcome. *)
Theorem rebuild_recreates_view context name p fuel page_size w :
  _projection_table name = inr p →
  ledger_ok w → ctx_str context ∈ t_tenants (w_db w) → 1 ≤ page_size ≤ 1000 →
  (name, ctx_str context) ∉ w_maintenance w →
  (length (history (ctx_str context) w) < fuel)%nat →
  replays context name p w (rebuild fuel page_size context name w).
Proof.
  intros Hp Hok Hten Hsize Hfree Hf.
  destruct (rebuild_spec context name p Hp fuel page_size w) as (r & w' & -> & Hc); [done..|].
  by apply caught_up_replays.
Qed.


(** ** Witnesses *)

Definition usage_event (id : uuid) (tokens : Z) (cost : string) : EventEnvelope :=
  {| event_id := id; ev_tenant_id := "acme"; aggregate_id := "usage";
     event_type := "usage.recorded.v1"; schema_version := 1; occurred_at := Dt.Aware 5;
     payload := [(KStr "period", PStr "2025-01"); (KStr "tokens", PInt tokens);
                 (KStr "cost_usd", PStr cost)];
     correlation_id := None; causation_id := None; aggregate_sequence := 0;
     global_position := None; recorded_at := None; actor := None; identity_reference := None;
     policy_reference := None; audit_reference := None; idempotency_key := None;
     trace_context := None; previous_aggregate_sequence := None; metadata := [] |}.

Definition usage_events : list EventEnvelope :=
  [usage_event 1 100 "0.25"; usage_event 2 40 "1.5"].

(** A ledger with two usage events and no projection of them yet. *)
Definition after_usage : World := (append acme usage_events 0 [] start).2.

Lemma after_usage_ok : ledger_ok after_usage.
Proof.
  apply reachable_ok. exists {["acme"; "globex"]}%string, (λ n, 1000000 * Z.of_nat n), N.of_nat.
  apply rtc_once. eapply (step_append acme usage_events 0 [] start);
    [repeat constructor; done|apply surjective_pairing].
Qed.

(** Both events in pages of one. *)
Lemma catch_up_replays_history_witness :
  replays acme "usage-quota" usage_quota_projection after_usage
    (catch_up 3 1 acme "usage-quota" after_usage) ∧
  v_usage_quota (t_views (w_db (catch_up 3 1 acme "usage-quota" after_usage).2))
    !! ("acme", "2025-01")%string = Some (mkUsageQuotaRow 140 (Some 1750000) 2).
Proof.
  split; [|vm_compute; reflexivity].
  apply (catch_up_replays_history acme "usage-quota" usage_quota_projection 3 1 after_usage).
  - reflexivity.
  - apply after_usage_ok.
  - apply (bool_decide_unpack _). vm_compute. exact I.
  - lia.
  - split; [apply (bool_decide_unpack _); vm_compute; exact I|].
    exists ∅. split; [vm_compute; reflexivity|]. by intros k.
  - vm_compute. lia.
Defined.

(** From a view that an earlier run had already filled. *)
Lemma rebuild_recreates_view_witness :
  let w := (catch_up 3 1 acme "usage-quota" after_usage).2 in
  replays acme "usage-quota" usage_quota_projection w (rebuild 3 1 acme "usage-quota" w) ∧
  v_usage_quota (t_views (w_db (rebuild 3 1 acme "usage-quota" w).2))
    !! ("acme", "2025-01")%string = Some (mkUsageQuotaRow 140 (Some 1750000) 2).
Proof.
  split; [|vm_compute; reflexivity].
  apply (rebuild_recreates_view acme "usage-quota" usage_quota_projection 3 1
           (catch_up 3 1 acme "usage-quota" after_usage).2).
  - reflexivity.
  - eapply ledger_ok_ext; [..|apply after_usage_ok]; vm_compute; [reflexivity..|discriminate].
  - apply (bool_decide_unpack _). vm_compute. exact I.
  - lia.
  - apply (bool_decide_unpack _). vm_compute. exact I.
  - vm_compute. lia.
Defined.
