(* ===== verification/Outbox.v ===== *)
(** * The outbox lease protocol

    Claiming and settling of outbox messages, and that no operation of the
    store touches a row of another tenant. *)

From stdpp Require Import base gmap sets list strings pretty.
From Stdlib Require Import ZArith Lia Sorted.
From S2P Require Import Prelude PyLib Json Events Identity Work Database EventStore.
From S2P Require Import Ledger LedgerReads LedgerAppend LedgerTheorems.

Local Open Scope Z_scope.

(** The outbox after a claim of [candidates]. *)
Definition leased_outbox (owner : string) (expires : Z)
    (candidates : list ((string * uuid) * OutboxRow)) (o : gmap (string * uuid) OutboxRow)
    : gmap (string * uuid) OutboxRow :=
  foldr (λ kv acc, <[kv.1 := lease_row owner expires kv.2]> acc) o candidates.

Lemma leased_outbox_in owner expires cs o k r :
  NoDup cs.*1 → (k, r) ∈ cs →
  leased_outbox owner expires cs o !! k = Some (lease_row owner expires r).
Proof.
  induction cs as [|[k' r'] cs IH]; intros Hnd Hin; [by apply not_elem_of_nil in Hin|].
  apply NoDup_cons in Hnd as [Hk Hnd]. simpl.
  apply elem_of_cons in Hin as [[= -> ->]|Hin]; [by rewrite lookup_insert_eq|].
  rewrite lookup_insert_ne; [by apply IH|]. intros ->. apply Hk.
  apply list_elem_of_fmap. by exists (k, r).
Qed.

Lemma leased_outbox_out owner expires cs o k :
  k ∉ cs.*1 → leased_outbox owner expires cs o !! k = o !! k.
Proof.
  induction cs as [|[k' r'] cs IH]; intros Hk; [done|]. simpl.
  rewrite fmap_cons, not_elem_of_cons in Hk. destruct Hk as [Hne Hk].
  rewrite lookup_insert_ne by done. by apply IH.
Qed.

Lemma NoDup_fst_sublist {A B} (l l' : list (A * B)) :
  sublist l l' → NoDup l'.*1 → NoDup l.*1.
Proof. intros Hs Hnd. eapply sublist_NoDup; [done|by apply fmap_sublist]. Qed.

Section Candidates.
Context (tenant : string) (destination : option string) (now limit : Z) (t : Tables).
Let cs := claim_candidates tenant destination now limit t.

Lemma claim_candidates_in k r :
  (k, r) ∈ cs → t_outbox t !! k = Some r ∧ claimable tenant destination now k r = true.
Proof.
  intros H. apply elem_of_take in H as (i & H & _). apply list_elem_of_lookup_2 in H.
  apply py_sorted_elem, elem_of_filterb in H as [H Hc].
  by apply elem_of_map_to_list in H.
Qed.

Lemma claim_candidates_nodup : NoDup cs.*1.
Proof.
  apply (NoDup_fst_sublist _ _ (sublist_take _ _)).
  rewrite py_sorted_perm.
  eapply NoDup_fst_sublist; [|exact (NoDup_fst_map_to_list (t_outbox t))].
  induction (map_to_list (t_outbox t)) as [|x l IH]; simpl; [constructor|].
  destruct (claimable _ _ _ _ _); by constructor.
Qed.

Lemma claim_candidates_length : (length cs ≤ Z.to_nat limit)%nat.
Proof. unfold cs, claim_candidates. rewrite length_take. lia. Qed.
End Candidates.

(** What a successful claim did: the reading of the clock, the expiry, the
    candidates it leased. *)
Lemma claim_outbox_inv context owner until now limit destination w msgs w' :
  claim_outbox context owner until now limit destination w = (inr msgs, w') →
  ∃ dur, Dt.sub until now = inr dur ∧ Dt.second ≤ dur ≤ 3600 * Dt.second ∧
    1 ≤ limit ≤ 100 ∧
    let at_ := w_clock w (S (w_tick w)) in
    let cs := claim_candidates (ctx_str context) destination at_ limit (w_db w) in
    msgs = map (claimed_message owner (at_ + dur)) cs ∧
    w_db w' = upd_outbox (leased_outbox owner (at_ + dur) cs) (w_db w).
Proof.
  unfold claim_outbox. intros Hrun. apply bind_ok in Hrun as (dur & w0 & H0 & Hrun).
  apply lift_run in H0 as [H0 ->].
  apply bind_ok in Hrun as (u1 & w1 & H1 & Hrun). apply raise_if_ok in H1 as (H1 & -> & _).
  apply bind_ok in Hrun as (u2 & w2 & H2 & Hrun). apply raise_if_ok in H2 as (H2 & -> & _).
  bool_props. exists dur. do 3 (split; [done|]).
  match type of Hrun with storage_guard (transaction ?b) _ = _ =>
    destruct (b (started w)) as [[e|a] w3] eqn:Hb end;
    [by rewrite (transaction_raise _ _ _ _ Hb) in Hrun|].
  rewrite (transaction_run _ _ _ _ Hb) in Hrun. injection Hrun as <- <-.
  cbn [started begin snd] in Hb. db_inv. done.
Qed.

Definition claimed_id (c : ClaimedOutboxMessage) : uuid := om_message_id (co_message c).

Lemma claimed_ids_nodup tenant owner expires (cs : list ((string * uuid) * OutboxRow)) :
  NoDup cs.*1 → (∀ k r, (k, r) ∈ cs → k.1 = tenant) →
  NoDup (claimed_id <$> map (claimed_message owner expires) cs).
Proof.
  intros Hnd Hten. induction cs as [|[[t id] r] cs IH]; [constructor|].
  apply NoDup_cons in Hnd as [Hk Hnd]. simpl. constructor.
  - intros Hmem. apply list_elem_of_fmap in Hmem as (c & Hc & Hmem).
    apply list_elem_of_In, in_map_iff in Hmem as ([[t' id'] r'] & <- & Hmem).
    apply list_elem_of_In in Hmem. cbn in Hc. subst id'. apply Hk.
    apply list_elem_of_fmap. exists ((t', id), r'). split; [|done]. simpl. f_equal.
    transitivity tenant; [by apply (Hten (t, id) r), list_elem_of_here|].
    symmetry. apply (Hten (t', id) r'). by right.
  - apply IH; [done|]. intros k r' H. apply (Hten k r'). by right.
Qed.

(** C9. A claim hands out at most [limit] messages, each once, each of which
    was available (pending, or leased with an expired lease); it leaves each
    leased to the claimer with its attempt counted, and every other row as it
    was; and as long as the row is not written again, no other claim by the
    server's clock before the lease expires hands the message out again. *)
Theorem outbox_claim_exclusive context owner until now limit destination w msgs w1 :
  claim_outbox context owner until now limit destination w = (inr msgs, w1) →
  Z.of_nat (length msgs) ≤ limit ∧ NoDup (claimed_id <$> msgs) ∧
  (∀ k, (k.1 ≠ ctx_str context ∨ k.2 ∉ claimed_id <$> msgs) →
        t_outbox (w_db w1) !! k = t_outbox (w_db w) !! k) ∧
  ∀ c, c ∈ msgs →
    let key := (ctx_str context, claimed_id c) in
    (∃ r, t_outbox (w_db w) !! key = Some r ∧
          claimable (ctx_str context) destination (w_clock w (S (w_tick w))) key r = true ∧
          t_outbox (w_db w1) !! key = Some (lease_row owner (co_lease_expires_at c) r)) ∧
    ∀ context' owner' until' now' limit' destination' w2 msgs' w3,
      t_outbox (w_db w2) !! key = t_outbox (w_db w1) !! key →
      w_clock w2 (S (w_tick w2)) < co_lease_expires_at c →
      claim_outbox context' owner' until' now' limit' destination' w2 = (inr msgs', w3) →
      ctx_str context' = ctx_str context →
      claimed_id c ∉ claimed_id <$> msgs'.
Proof.
  intros Hrun. apply claim_outbox_inv in Hrun as (dur & Hdur & Hd & Hl & -> & Hdb).
  set (at_ := w_clock w (S (w_tick w))) in *.
  set (cs := claim_candidates _ _ _ _ _) in *.
  pose proof (claim_candidates_nodup (ctx_str context) destination at_ limit (w_db w)) as Hnd.
  fold cs in Hnd.
  assert (Hin : ∀ k r, (k, r) ∈ cs → t_outbox (w_db w) !! k = Some r ∧
    claimable (ctx_str context) destination at_ k r = true ∧ k.1 = ctx_str context).
  { intros k r H. destruct (claim_candidates_in _ _ _ _ _ _ _ H) as [H1 H2].
    split; [done|]. split; [done|]. unfold claimable in H2. by bool_props. }
  split; [|split; [|split]].
  - rewrite length_map.
    pose proof (claim_candidates_length (ctx_str context) destination at_ limit (w_db w)).
    fold cs in H. lia.
  - apply claimed_ids_nodup with (ctx_str context); [done|]. intros k r H.
    by destruct (Hin k r H) as (_ & _ & ?).
  - intros k Hk. rewrite Hdb. simpl. apply leased_outbox_out. intros Hmem.
    apply list_elem_of_fmap in Hmem as ([k' r] & -> & Hmem). simpl in Hk.
    destruct (Hin k' r Hmem) as (_ & _ & Hten). destruct Hk as [Hk|Hk]; [done|].
    apply Hk. apply list_elem_of_fmap.
    exists (claimed_message owner (at_ + dur) (k', r)). split; [done|].
    by apply list_elem_of_In, in_map, list_elem_of_In.
  - intros c Hc. apply list_elem_of_In, in_map_iff in Hc as ([[ten id] r] & <- & Hc).
    apply list_elem_of_In in Hc. destruct (Hin _ _ Hc) as (Hrow & Hcl & Hten).
    simpl in Hten. subst ten. cbn [claimed_id co_message om_message_id claimed_message fst snd
      co_lease_expires_at]. split.
    + exists r. do 2 (split; [done|]). rewrite Hdb. simpl. by apply leased_outbox_in.
    + intros context' owner' until' now' limit' destination' w2 msgs' w3 Hsame Hclock Hrun Hctx.
      apply claim_outbox_inv in Hrun as (dur' & _ & _ & _ & -> & _).
      intros Hmem. apply list_elem_of_fmap in Hmem as (c' & Hid & Hc').
      apply list_elem_of_In, in_map_iff in Hc' as ([[ten' id'] r'] & <- & Hc').
      apply list_elem_of_In in Hc'.
      destruct (claim_candidates_in _ _ _ _ _ _ _ Hc') as [Hrow' Hcl'].
      cbn in Hid. subst id'. unfold claimable in Hcl'. bool_props. simpl in *. subst ten'.
      rewrite Hctx, Hsame, Hdb in Hrow'. simpl in Hrow'.
      rewrite (leased_outbox_in _ _ _ _ _ r) in Hrow' by done.
      injection Hrow' as <-. simpl in *. bool_props. lia.
Qed.

(** The message of the sample append, claimed by a publisher. *)
Definition claimed_world : World :=
  (claim_outbox acme "p1" (Dt.Aware 61000000) (Dt.Aware 1000000) 10 None after_append).2.

Lemma outbox_claim_exclusive_witness :
  ∃ c, (claim_outbox acme "p1" (Dt.Aware 61000000) (Dt.Aware 1000000) 10 None
          after_append).1 = inr [c] ∧ claimed_id c = 9%N ∧
    ∀ msgs' w3,
      claim_outbox acme "p2" (Dt.Aware 61000000) (Dt.Aware 1000000) 10 None claimed_world
      = (inr msgs', w3) → 9%N ∉ claimed_id <$> msgs'.
Proof.
  eexists. split; [vm_compute; reflexivity|]. split; [reflexivity|]. intros msgs' w3 Hrun.
  assert (H1 : ∃ c, claim_outbox acme "p1" (Dt.Aware 61000000) (Dt.Aware 1000000) 10 None
    after_append = (inr [c], claimed_world) ∧ claimed_id c = 9%N ∧
    w_clock claimed_world (S (w_tick claimed_world)) < co_lease_expires_at c).
  { eexists. split.
    - unfold claimed_world.
      rewrite (surjective_pairing (claim_outbox _ _ _ _ _ _ after_append)) at 1. f_equal.
    - split; vm_compute; reflexivity. }
  destruct H1 as (c & H1 & <- & Hclock).
  destruct (outbox_claim_exclusive _ _ _ _ _ _ _ _ _ H1) as (_ & _ & _ & Hex).
  destruct (Hex c) as [_ Hexc]; [left|]. by eapply Hexc; [| |exact Hrun|].
Defined.

(** ** Settling *)

(** Whether the caller's outbox lease is the current one. *)
Definition holds_message (w : World) (context : TenantContext) (mid : uuid)
    (owner : string) (expires : Z) : Prop :=
  ∃ r, t_outbox (w_db w) !! (ctx_str context, mid) = Some r ∧
       ob_status r = OB_LEASED ∧ ob_lease_owner r = Some owner ∧
       ob_lease_expires_at r = Some expires.

Lemma settle_run context mid owner expires f w :
  let '(r, w') := _update_outbox_state context mid owner expires f w in
  (holds_message w context mid owner expires ∧ r = inr tt ∧
   ∃ row, t_outbox (w_db w) !! (ctx_str context, mid) = Some row ∧
     w_db w' = upd_outbox <[(ctx_str context, mid) := f row]> (w_db w)) ∨
  (¬ holds_message w context mid owner expires ∧ r = inl (ConcurrencyError 1 0) ∧
   w_db w' = w_db w).
Proof.
  destruct (_update_outbox_state context mid owner expires f w) as [r w'] eqn:Hrun.
  unfold _update_outbox_state in Hrun.
  match type of Hrun with storage_guard (transaction ?b) _ = _ => set (body := b) in Hrun end.
  destruct (t_outbox (w_db w) !! (ctx_str context, mid)) as [row|] eqn:Hrow.
  - destruct (holds_outbox_lease owner expires row) eqn:Hh.
    + left. rewrite (transaction_run body w tt
        (set_db (upd_outbox <[(ctx_str context, mid) := f row]>) (started w))) in Hrun.
      2:{ unfold body. py_go. simpl. rewrite Hrow, Hh. done. }
      injection Hrun as <- <-. unfold holds_outbox_lease in Hh. bool_props.
      split; [by exists row|]. split; [done|]. by exists row.
    + right. rewrite (transaction_raise body w (ConcurrencyError 1 0) (started w)) in Hrun.
      2:{ unfold body. py_go. simpl. rewrite Hrow, Hh. done. }
      injection Hrun as <- <-. split; [|done]. intros (r0 & Hr0 & H1 & H2 & H3).
      assert (r0 = row) as -> by congruence. unfold holds_outbox_lease in Hh.
      rewrite !bool_decide_true in Hh by done. done.
  - right. rewrite (transaction_raise body w (ConcurrencyError 1 0) (started w)) in Hrun.
    2:{ unfold body. py_go. simpl. rewrite Hrow. done. }
    injection Hrun as <- <-. split; [|done]. intros (r0 & Hr0 & _). congruence.
Qed.

(** Settled rows carry no lease. *)
Definition unleased (r : OutboxRow) : Prop :=
  ob_lease_owner r = None ∧ ob_lease_expires_at r = None.

(** Only the current lease holder settles a message, and at most once:
    publishing succeeds exactly while the message is leased to the caller
    with the caller's expiry and marks it published for good; failing it
    makes it pending again, or dead-letters it once its attempts are used
    up; every settlement drops the lease, so that a second settlement under
    the same lease, like one under a lost lease, raises [ConcurrencyError]
    and changes nothing. *)
Theorem outbox_settlement_fenced context mid owner expires at_ code w :
  let key := (ctx_str context, mid) in
  bounded_code code = true →
  ∀ op, op ∈ [mark_outbox_published context mid owner expires at_;
              mark_outbox_failed context mid owner expires at_ code;
              mark_outbox_dead_lettered context mid owner expires code] →
  (¬ holds_message w context mid owner expires →
     ∃ w', op w = (inl (ConcurrencyError 1 0), w') ∧ w_db w' = w_db w) ∧
  (holds_message w context mid owner expires →
     ∃ w' r r', op w = (inr tt, w') ∧ t_outbox (w_db w) !! key = Some r ∧
       w_db w' = upd_outbox <[key := r']> (w_db w) ∧ unleased r' ∧
       ob_attempt_count r' = ob_attempt_count r ∧
       (ob_status r' = OB_PUBLISHED ∨ ob_status r' = OB_DEAD_LETTER ∨
        ob_status r' = OB_PENDING ∧ ob_attempt_count r < ob_max_attempts r) ∧
       ¬ holds_message w' context mid owner expires).
Proof.
  intros key Hcode op Hop.
  assert (Hop' : ∃ f, op w = _update_outbox_state context mid owner expires f w ∧
    ∀ r, unleased (f r) ∧ ob_attempt_count (f r) = ob_attempt_count r ∧
      (ob_status (f r) = OB_PUBLISHED ∨ ob_status (f r) = OB_DEAD_LETTER ∨
       ob_status (f r) = OB_PENDING ∧ ob_attempt_count r < ob_max_attempts r)).
  { repeat apply elem_of_cons in Hop as [->|Hop]; [..|by apply not_elem_of_nil in Hop];
      unfold mark_outbox_published, mark_outbox_failed, mark_outbox_dead_lettered;
      rewrite ?Hcode; eexists; (split; [reflexivity|]); intros r;
      (split; [done|]); (split; [done|]); simpl; auto.
    destruct (Z.leb_spec (ob_max_attempts r) (ob_attempt_count r)); auto. }
  destruct Hop' as (f & -> & Hf). pose proof (settle_run context mid owner expires f w) as Hrun.
  destruct (_update_outbox_state context mid owner expires f w) as [res w'].
  destruct Hrun as [(Hh & -> & row & Hrow & Hdb)|(Hh & -> & Hdb)]; split; intros H; try done.
  - exists w', row, (f row). destruct (Hf row) as (Hu & Ha & Hs).
    do 6 (split; [done|]). intros (r0 & Hr0 & _ & Ho & _). rewrite Hdb in Hr0. simpl in Hr0.
    rewrite lookup_insert_eq in Hr0. injection Hr0 as <-. destruct Hu. congruence.
  - by exists w'.
Qed.

Lemma outbox_settlement_fenced_witness :
  holds_message claimed_world acme 9 "p1" 62000000 ∧
  (∃ w' r r', mark_outbox_published acme 9 "p1" 62000000 (Dt.Aware 3) claimed_world
              = (inr tt, w') ∧ t_outbox (w_db claimed_world) !! ("acme"%string, 9%N) = Some r ∧
     w_db w' = upd_outbox <[("acme"%string, 9%N) := r']> (w_db claimed_world) ∧ unleased r' ∧
     ob_attempt_count r' = ob_attempt_count r ∧
     (ob_status r' = OB_PUBLISHED ∨ ob_status r' = OB_DEAD_LETTER ∨
      ob_status r' = OB_PENDING ∧ ob_attempt_count r < ob_max_attempts r) ∧
     ¬ holds_message w' acme 9 "p1" 62000000).
Proof.
  assert (H : holds_message claimed_world acme 9 "p1" 62000000).
  { eexists. split; [vm_compute; reflexivity|]. done. }
  split; [exact H|].
  apply (outbox_settlement_fenced acme 9 "p1" 62000000 (Dt.Aware 3) "e" claimed_world
    eq_refl); [left|exact H].
Defined.

(** ** The rows of other tenants *)

(** Two tables agree on the keys in [P]. *)
Definition agree {K V} `{Countable K} (P : K → Prop) (m m' : gmap K V) : Prop :=
  ∀ k, P k → m' !! k = m !! k.

Section Agree.
Context {K V : Type} `{Countable K} (P : K → Prop).
Implicit Types m : gmap K V.

Lemma agree_refl m : agree P m m.
Proof. done. Qed.
Lemma agree_trans m1 m2 m3 : agree P m1 m2 → agree P m2 m3 → agree P m1 m3.
Proof. intros H1 H2 k Hk. rewrite H2 by done. by apply H1. Qed.
Lemma agree_insert k x m : ¬ P k → agree P m (<[k := x]> m).
Proof. intros Hk k' Hk'. apply lookup_insert_ne. by intros ->. Qed.
Lemma agree_alter f k m : ¬ P k → agree P m (alter f k m).
Proof. intros Hk k' Hk'. apply lookup_alter_ne. by intros ->. Qed.
Lemma agree_partial_alter f k m : ¬ P k → agree P m (partial_alter f k m).
Proof. intros Hk k' Hk'. apply lookup_partial_alter_ne. by intros ->. Qed.
Lemma agree_delete k m : ¬ P k → agree P m (delete k m).
Proof. intros Hk k' Hk'. apply lookup_delete_ne. by intros ->. Qed.
End Agree.

(** No row of the tenant, in any table, differs. *)
Record same_view (tenant : string) (t t' : Tables) : Prop := {
  sv_tenants : tenant ∈ t_tenants t' ↔ tenant ∈ t_tenants t;
  sv_commit_locks : tenant ∈ t_commit_locks t' ↔ tenant ∈ t_commit_locks t;
  sv_events : List.filter (λ r, bool_decide (er_tenant_id r = tenant)) (t_events t') =
              List.filter (λ r, bool_decide (er_tenant_id r = tenant)) (t_events t);
  sv_heads : agree (λ k, k.1 = tenant) (t_heads t) (t_heads t');
  sv_inbox : agree (λ k, k.1.1 = tenant) (t_inbox t) (t_inbox t');
  sv_outbox : agree (λ k, k.1 = tenant) (t_outbox t) (t_outbox t');
  sv_items : agree (λ k, k.1 = tenant) (t_work_items t) (t_work_items t');
  sv_leases : agree (λ k, k.1 = tenant) (t_work_leases t) (t_work_leases t');
  sv_dead_letters : agree (λ k, k.1 = tenant) (t_dead_letters t) (t_dead_letters t');
  sv_approvals : agree (λ k, k.1 = tenant) (t_approvals t) (t_approvals t');
  sv_checkpoints : agree (λ k, k.1 = tenant) (v_checkpoints (t_views t)) (v_checkpoints (t_views t'));
  sv_run_status : agree (λ k, k.1 = tenant) (v_run_status (t_views t)) (v_run_status (t_views t'));
  sv_artifacts : agree (λ k, k.1 = tenant) (v_artifacts (t_views t)) (v_artifacts (t_views t'));
  sv_pending : agree (λ k, k.1 = tenant) (v_pending (t_views t)) (v_pending (t_views t'));
  sv_model_usage : agree (λ k, k.1 = tenant) (v_model_usage (t_views t)) (v_model_usage (t_views t'));
  sv_usage_quota : agree (λ k, k.1 = tenant) (v_usage_quota (t_views t)) (v_usage_quota (t_views t'));
  sv_listing : agree (λ k, k.1 = tenant) (v_tenant_listing (t_views t)) (v_tenant_listing (t_views t'));
  sv_budget_locks : tenant ∈ bt_locks (t_budgets t') ↔ tenant ∈ bt_locks (t_budgets t);
  sv_reservations : agree (λ k, k.1 = tenant) (bt_reservations (t_budgets t)) (bt_reservations (t_budgets t'));
  sv_quotas : agree (λ k, k = tenant) (bt_quotas (t_budgets t)) (bt_quotas (t_budgets t'));
}.

#[export] Instance same_view_preorder tenant : PreOrder (same_view tenant).
Proof.
  split; [by constructor|]. intros t1 t2 t3 H1 H2.
  constructor; first [ eapply agree_trans; [apply H1|apply H2]
                     | etrans; [apply H2|apply H1] ].
Qed.

(** Nothing of another tenant differs. *)
Definition others_same (context : TenantContext) (t t' : Tables) : Prop :=
  ∀ tenant, tenant ≠ ctx_str context → same_view tenant t t'.

#[export] Instance others_same_preorder context : PreOrder (others_same context).
Proof.
  split; [by intros t tenant _|]. intros t1 t2 t3 H1 H2 tenant Hne.
  etrans; [by apply H1|by apply H2].
Qed.

(** One table updated at keys of the tenant of the context. *)
Ltac same_rows :=
  intros ? ?; constructor; simpl;
  first [ done
        | set_solver
        | apply agree_insert; simpl; congruence
        | apply agree_alter; simpl; congruence
        | apply agree_delete; simpl; congruence
        | apply agree_partial_alter; simpl; congruence ].

(** A computation that relates the tables before and after it by [R],
    whatever its outcome. *)
Definition within {A} (R : relation Tables) (m : Db A) : Prop :=
  ∀ w r w', m w = (r, w') → R (w_db w) (w_db w').

(** It touches no row of another tenant. *)
Abbreviation isolated context := (within (others_same context)).

Section Within.
Context (R : relation Tables) {R_preorder : PreOrder R}.

Lemma within_ret {A} (a : A) : within R (ret a).
Proof. by intros w r w' [= <- <-]. Qed.
Lemma within_raise {A} e : within R (raise (A := A) e).
Proof. by intros w r w' [= <- <-]. Qed.
Lemma within_lift {A} (x : result A) : within R (lift x).
Proof. by intros w r w' [= <- <-]. Qed.
Lemma within_query {A} (f : Tables → A) : within R (query f).
Proof. by intros w r w' [= <- <-]. Qed.
Lemma within_gets {A} (f : World → A) : within R (gets f).
Proof. by intros w r w' [= <- <-]. Qed.
Lemma within_clock : within R clock_timestamp.
Proof. by intros w r w' [= <- <-]. Qed.
Lemma within_nextval : within R nextval.
Proof. by intros w r w' [= <- <-]. Qed.
Lemma within_uuid : within R uuid_factory.
Proof. by intros w r w' [= <- <-]. Qed.
Lemma within_cell f : within R (set_cell f).
Proof. by intros w r w' [= <- <-]. Qed.
Lemma within_raise_if b e : within R (raise_if b e).
Proof. destruct b; [apply within_raise|apply within_ret]. Qed.
Lemma within_execute f : (∀ t, R t (f t)) → within R (execute f).
Proof. intros Hf w r w' [= <- <-]. apply Hf. Qed.

Lemma within_bind {A B} (m : Db A) (k : A → Db B) :
  within R m → (∀ a, within R (k a)) → within R (bind m k).
Proof.
  intros Hm Hk w r w'. unfold bind. destruct (m w) as [[e|a] w1] eqn:H1.
  - intros [= <- <-]. by eapply Hm.
  - intros H2. etrans; [by eapply Hm|by eapply Hk].
Qed.

Lemma within_catch {A} (m : Db A) (h : exn → Db A) :
  within R m → (∀ e, within R (h e)) → within R (catch m h).
Proof.
  intros Hm Hh w r w'. unfold catch. destruct (m w) as [[e|a] w1] eqn:H1.
  - intros H2. etrans; [by eapply Hm|by eapply Hh].
  - intros [= <- <-]. by eapply Hm.
Qed.

Lemma within_for_each {A} (l : list A) f : (∀ x, within R (f x)) → within R (for_each l f).
Proof. intros Hf. induction l; simpl; [apply within_ret|]. by apply within_bind. Qed.

Lemma within_guard {A} (m : Db A) : within R m → within R (storage_guard m).
Proof. intros Hm. apply within_catch; [done|]. intros []; apply within_raise. Qed.

Lemma within_transaction {A} (body : Db A) : within R body → within R (transaction body).
Proof.
  intros Hbody w r w'. unfold transaction, bind, begin. destruct (body _) as [[e|a] w1] eqn:Hb.
  - intros [= <- <-]. simpl. done.
  - intros [= <- <-]. by apply Hbody in Hb.
Qed.

(** A computation behind a check only has to be within [R] where it passes. *)
Lemma within_lifted {A} (r : result unit) (k : Db A) :
  (r = inr tt → within R k) → within R (do! lift r ;; k).
Proof.
  intros Hk. destruct r as [e|[]]; [by intros w r' w' [= <- <-]|].
  apply within_bind; [apply within_lift|]. intros _. by apply Hk.
Qed.

(** A failure inside a transaction is rolled back, so only its commits
    matter. *)
Definition commits {A} (m : Db A) : Prop :=
  ∀ w a w', m w = (inr a, w') → R (w_db w) (w_db w').

Lemma commits_within {A} (m : Db A) : within R m → commits m.
Proof. intros Hm w a w'. apply Hm. Qed.

Lemma commits_bind {A B} (m : Db A) (k : A → Db B) :
  commits m → (∀ a, commits (k a)) → commits (bind m k).
Proof.
  intros Hm Hk w b w' Hrun. apply bind_ok in Hrun as (a & w1 & H1 & H2).
  etrans; [by eapply Hm|by eapply Hk].
Qed.

Lemma transaction_commits {A} (body : Db A) : commits body → within R (storage_guard (transaction body)).
Proof.
  intros Hbody w r w' Hrun. destruct (body (started w)) as [[e|a] w1] eqn:Hb.
  - rewrite (transaction_raise _ _ _ _ Hb) in Hrun. by injection Hrun as <- <-.
  - rewrite (transaction_run _ _ _ _ Hb) in Hrun. injection Hrun as <- <-.
    by apply Hbody in Hb.
Qed.
End Within.

(** Applying a rule, with the preorder of its relation. *)
Tactic Notation "rule" uconstr(lem) := apply lem; [apply _|..].

Create HintDb tenant.
#[export] Hint Extern 0 (PreOrder _) => apply _ : tenant.
#[export] Hint Resolve within_ret within_raise within_lift within_query within_gets within_clock
  within_nextval within_uuid within_cell within_raise_if within_bind within_catch within_for_each
  within_guard within_transaction : tenant.
#[export] Hint Extern 1 (within (others_same _) (execute _)) =>
  (apply within_execute; intros ?; same_rows) : tenant.
#[export] Hint Extern 2 (within _ (if ?b then _ else _)) => destruct b : tenant.
#[export] Hint Extern 2 (within _ (match ?x with _ => _ end)) => destruct x : tenant.

Lemma outbox_after_other tenant tenant' msgs o id :
  tenant' ≠ tenant → outbox_after tenant msgs o !! (tenant', id) = o !! (tenant', id).
Proof.
  intros Hne. unfold outbox_after. revert o. induction msgs as [|m msgs IH]; intros o; [done|].
  simpl. rewrite IH, lookup_insert_ne by congruence. done.
Qed.

Lemma new_rows_other tenant events v p r :
  Forall (λ e, ev_tenant_id e ≠ tenant) events →
  List.filter (λ r, bool_decide (er_tenant_id r = tenant)) (new_rows events v p r) = [].
Proof.
  intros Hall. revert v p. induction Hall as [|e es He _ IH]; intros v p; [done|].
  simpl. rewrite bool_decide_false by done. apply IH.
Qed.

(** Rows appended to a stream of the tenant. *)
Lemma appended_rows context agg events v p now outbox n t :
  Forall (λ e, ev_tenant_id e = ctx_str context) events →
  others_same context t (append_tables t (ctx_str context, agg) n (new_rows events v p now) outbox).
Proof.
  intros Htgt tenant Hne. constructor; simpl; try done; try set_solver.
  - rewrite List.filter_app, new_rows_other; [by rewrite app_nil_r|].
    eapply Forall_impl; [exact Htgt|]. intros e ->. congruence.
  - apply agree_insert. simpl. congruence.
  - intros [k id] Hk. simpl in Hk. subst k. by apply outbox_after_other.
Qed.

Lemma appends_commit context events expected outbox :
  _validate_append context events expected = inr tt →
  commits (others_same context) (_append_in_transaction events expected outbox).
Proof.
  intros Hval w v w' Hrun. destruct (validate_targets _ _ _ Hval) as (agg & [_ Htgt] & _).
  apply append_in_transaction_ok in Hrun as (first & rest & Heq & _ & _ & _ & -> & _ & _).
  assert (ev_tenant_id first = ctx_str context) as Hft
    by (rewrite Heq in Htgt; by apply Forall_cons in Htgt as [[? _] _]).
  rewrite Hft. apply appended_rows. eapply Forall_impl; [exact Htgt|]. by intros e [? _].
Qed.

(** The tenant of events that pass [_validate_append]. *)
Definition of_tenant (context : TenantContext) (events : list EventEnvelope) : Prop :=
  Forall (λ e, ev_tenant_id e = ctx_str context) events.

Lemma validated_tenant context events expected :
  _validate_append context events expected = inr tt → of_tenant context events.
Proof.
  intros Hval. destruct (validate_targets _ _ _ Hval) as (agg & [_ Htgt] & _).
  eapply Forall_impl; [exact Htgt|]. by intros e [? _].
Qed.

Lemma append_isolated context events expected outbox :
  isolated context (append context events expected outbox).
Proof. rule within_lifted. intros Hval. rule transaction_commits. by apply appends_commit. Qed.

Lemma append_atomic_isolated context events expected m outbox :
  (of_tenant context events → isolated context m) →
  isolated context (append_atomic context events expected m outbox).
Proof.
  intros Hm. rule within_lifted. intros Hval. rule transaction_commits.
  rule commits_bind; [by apply appends_commit|]. intros v.
  apply commits_within. rule within_bind; [by eapply Hm, validated_tenant|]. auto with tenant.
Qed.

Lemma append_fenced_isolated context events expected work token gen at_ outbox m :
  (of_tenant context events → ∀ m', m = Some m' → isolated context m') →
  isolated context (append_fenced context events expected work token gen at_ outbox m).
Proof.
  intros Hm. rule within_lifted. intros Hval. do 3 (rule within_bind; [auto with tenant|intros _]).
  rule transaction_commits. do 3 (rule commits_bind; [apply commits_within; auto with tenant|intros ?]).
  rule commits_bind; [by apply appends_commit|]. intros v. apply commits_within. rule within_bind.
  - destruct m as [m|]; [|auto with tenant]. eapply Hm; [by eapply validated_tenant|done].
  - auto with tenant.
Qed.

Lemma append_from_inbox_isolated context source mid events expected outbox m :
  (of_tenant context events → ∀ m', m = Some m' → isolated context m') →
  isolated context (append_from_inbox context source mid events expected outbox m).
Proof.
  intros Hm. rule within_bind; [auto with tenant|intros _]. rule within_lifted. intros Hval.
  rule transaction_commits. do 2 (rule commits_bind; [apply commits_within; auto with tenant|intros ?]).
  case_match; [apply commits_within; case_match; auto with tenant|].
  do 2 (rule commits_bind; [apply commits_within; auto with tenant|intros ?]).
  rule commits_bind; [by apply appends_commit|]. intros v. apply commits_within.
  rule within_bind; [auto with tenant|intros _]. rule within_bind; [|auto with tenant].
  destruct m as [m|]; [|auto with tenant]. eapply Hm; [by eapply validated_tenant|done].
Qed.

Lemma leased_outbox_other owner expires cs o k :
  (∀ kv, kv ∈ cs → kv.1.1 ≠ k.1) → leased_outbox owner expires cs o !! k = o !! k.
Proof.
  intros H. apply leased_outbox_out. intros Hmem. apply list_elem_of_fmap in Hmem as (kv & -> & Hkv).
  by apply (H kv).
Qed.

Lemma claim_outbox_isolated context owner until now limit destination :
  isolated context (claim_outbox context owner until now limit destination).
Proof.
  intros w r w' Hrun. destruct r as [e|msgs].
  - revert Hrun. unfold claim_outbox, bind at 1, lift.
    destruct (Dt.sub until now) as [e'|dur]; [by intros [= <- <-]|].
    unfold bind at 1, raise_if at 1. destruct (_ || _); [by intros [= <- <-]|].
    unfold ret. unfold bind at 1, raise_if at 1. destruct (negb _); [by intros [= <- <-]|].
    intros Hrun. apply storage_guard_inv in Hrun as ([e'|a] & Hrun & Hiff & _).
    + by rewrite (transaction_err _ _ _ _ Hrun).
    + destruct (Hiff a) as [_ Hbad]. by specialize (Hbad eq_refl).
  - apply claim_outbox_inv in Hrun as (dur & _ & _ & _ & _ & Hdb). rewrite Hdb.
    intros tenant Hne. constructor; try done. intros k Hk. simpl. apply leased_outbox_other.
    intros [k' row] Hkv. destruct (claim_candidates_in _ _ _ _ _ _ _ Hkv) as [_ Hc].
    unfold claimable in Hc. bool_props. simpl in *. congruence.
Qed.

Lemma settle_isolated context mid owner until f :
  isolated context (_update_outbox_state context mid owner until f).
Proof.
  intros w r w' Hrun. pose proof (settle_run context mid owner until f w) as Hs.
  rewrite Hrun in Hs. destruct Hs as [(_ & _ & row & _ & ->)|(_ & _ & ->)]; [|done]. same_rows.
Qed.

Lemma read_stream_isolated context aggregate after limit :
  isolated context (read_stream context aggregate after limit).
Proof. unfold read_stream. auto 8 with tenant. Qed.

Lemma read_all_isolated context after limit : isolated context (read_all context after limit).
Proof. unfold read_all. auto 8 with tenant. Qed.

Lemma current_version_isolated context aggregate : isolated context (current_version context aggregate).
Proof. unfold current_version. auto with tenant. Qed.
