(* ===== verification/Wire.v ===== *)
(** * Transport envelopes

    Models the contracts of [queueing/__init__.py] ([MessageEnvelope],
    [QueueDelivery]), the size limit of [queueing/redis_streams.py], and the
    text forms the payloads travel in: [datetime.isoformat] and its inverse,
    [int(...)] of a text, [json.dumps], and Python's [==] on payloads. *)

From stdpp Require Import base gmap sets list strings pretty.
From Stdlib Require Import ZArith Lia SpecFloat Ascii.
From S2P Require Import Prelude PyLib Json Events Identity Work Database EventStore.

Local Open Scope Z_scope.

(** [repr] of a float or of a container, the only texts the development
    leaves to the interpreter. *)
Class PyRepr : Type := repr_other : pyval → string.

(** ** Equality *)

(** Python's [==] on payload values: numbers by value, mappings without
    regard to order, proxies like the mapping they wrap. *)
Fixpoint py_eqb (a b : pyval) : bool :=
  let dict_eqb (d1 d2 : pydict) : bool :=
    (length d1 =? length d2)%nat &&
    (fix go (l : pydict) : bool :=
       match l with
       | [] => true
       | (k, v) :: l' =>
           match find (λ kv, bool_decide (kv.1 = k)) d2 with
           | Some kv => py_eqb v kv.2
           | None => false
           end && go l'
       end) d1 in
  let list_eqb :=
    (fix go (l1 l2 : list pyval) : bool :=
       match l1, l2 with
       | [], [] => true
       | x :: l1', y :: l2' => py_eqb x y && go l1' l2'
       | _, _ => false
       end) in
  let int_eqb (z : Z) (v : pyval) : bool := equals_int (Some v) z in
  match a, b with
  | PNone, PNone => true
  | PBool x, v => int_eqb (if x then 1 else 0) v
  | PInt z, v => int_eqb z v
  | PFloat f, PFloat g => SFeqb f g
  | PFloat f, PInt z => float_equals_int f z
  | PFloat f, PBool x => float_equals_int f (if x then 1 else 0)
  | PStr s, PStr t => bool_decide (s = t)
  | PList l, PList m | PTuple l, PTuple m => list_eqb l m
  | (PDict d | PProxy d), (PDict e | PProxy e) => dict_eqb d e
  | PBytes s, PBytes t => bool_decide (s = t)
  | PObject m, PObject n => m =? n
  | _, _ => false
  end.

(** ** Texts *)

(** [k] decimal digits of [n], most significant first. *)
Fixpoint digits (k : nat) (n : Z) (acc : string) : string :=
  match k with
  | O => acc
  | S k' => digits k' (n / 10) (String (ascii_of_N (48 + Z.to_N (n mod 10))) acc)
  end.

Definition pad (k : nat) (n : Z) : string := digits k n EmptyString.

(** [d.isoformat()]; an aware value is rendered in UTC. *)
Definition isoformat (d : Dt.datetime) : string :=
  let us := Dt.us d in
  let '(y, m, dd) := Dt.civil_from_days (us / Dt.day) in
  let t := us mod Dt.day in
  let s := t / Dt.second in
  let frac := t mod Dt.second in
  (pad 4 y +:+ "-" +:+ pad 2 m +:+ "-" +:+ pad 2 dd +:+ "T" +:+
   pad 2 (s / 3600) +:+ ":" +:+ pad 2 (s / 60 mod 60) +:+ ":" +:+ pad 2 (s mod 60) +:+
   (if (frac =? 0)%Z then "" else "." +:+ pad 6 frac) +:+
   match d with Dt.Aware _ => "+00:00" | Dt.Naive _ => "" end)%string.

Definition digit_value (c : ascii) : option Z :=
  let n := Z.of_N (N_of_ascii c) in
  if (48 <=? n) && (n <=? 57) then Some (n - 48) else None.

Fixpoint parse_digits (k : nat) (s : string) (acc : Z) : option (Z * string) :=
  match k, s with
  | O, _ => Some (acc, s)
  | S k', String c s' =>
      match digit_value c with
      | Some d => parse_digits k' s' (10 * acc + d)
      | None => None
      end
  | S _, EmptyString => None
  end.

Definition expect (c : ascii) (s : string) : option string :=
  match s with
  | String c' s' => if Ascii.eqb c c' then Some s' else None
  | EmptyString => None
  end.

Definition days_in_month (y m : Z) : Z :=
  Dt.days_from_civil (if m =? 12 then y + 1 else y) (if m =? 12 then 1 else m + 1) 1
  - Dt.days_from_civil y m 1.

(** The UTC offset in seconds at the end of the text, if there is one. *)
Definition parse_offset (s : string) : option (option Z) :=
  match s with
  | EmptyString => Some None
  | String "Z" EmptyString => Some (Some 0)
  | String sign rest =>
      match (if Ascii.eqb sign "+" then Some 1 else if Ascii.eqb sign "-" then Some (-1) else None),
            parse_digits 2 rest 0 with
      | Some k, Some (hh, rest) =>
          match expect ":" rest ≫= (λ r, parse_digits 2 r 0) with
          | Some (mm, EmptyString) =>
              if (hh <? 24) && (mm <? 60) then Some (Some (k * (3600 * hh + 60 * mm))) else None
          | _ => None
          end
      | _, _ => None
      end
  end.

(** [datetime.fromisoformat] on the extended format [isoformat] emits, with
    an optional UTC offset; any other text raises [ValueError]. *)
Definition parse_iso (s : string) : option Dt.datetime :=
  '(y, s) ← parse_digits 4 s 0; s ← expect "-" s;
  '(m, s) ← parse_digits 2 s 0; s ← expect "-" s;
  '(d, s) ← parse_digits 2 s 0;
  s ← match s with String _ s' => Some s' | EmptyString => None end;
  '(hh, s) ← parse_digits 2 s 0; s ← expect ":" s;
  '(mm, s) ← parse_digits 2 s 0; s ← expect ":" s;
  '(ss, s) ← parse_digits 2 s 0;
  '(frac, s) ← match expect "." s with
               | Some s' => parse_digits 6 s' 0
               | None => Some (0, s)
               end;
  off ← parse_offset s;
  if (1 <=? y) && (1 <=? m) && (m <=? 12) && (1 <=? d) && (d <=? days_in_month y m)
     && (hh <? 24) && (mm <? 60) && (ss <? 60)
  then
    let local := Dt.days_from_civil y m d * Dt.day
                 + (3600 * hh + 60 * mm + ss) * Dt.second + frac in
    Some (match off with
          | None => Dt.Naive local
          | Some o => Dt.Aware (local - o * Dt.second)
          end)
  else None.

Definition fromisoformat (s : string) : result Dt.datetime :=
  match parse_iso s with
  | Some d => inr d
  | None => inl (ValueError "Invalid isoformat string")
  end.

(** [int(s)] of a text: digits with single underscores between them, an
    optional sign, surrounding white space. *)
Fixpoint parse_nat_text (s : string) (acc : Z) (after_digit : bool) : option Z :=
  match s with
  | EmptyString => if after_digit then Some acc else None
  | String c s' =>
      match digit_value c with
      | Some d => parse_nat_text s' (10 * acc + d) true
      | None => if Ascii.eqb c "_" && after_digit then parse_nat_text s' acc false else None
      end
  end.

Definition int_of_text (s : string) : result Z :=
  let bad := inl (ValueError "invalid literal for int() with base 10") in
  match PyStr.strip s with
  | String "-" s' => match parse_nat_text s' 0 false with Some z => inr (- z) | None => bad end
  | String "+" s' | s' =>
      match parse_nat_text s' 0 false with Some z => inr z | None => bad end
  end.

Section Texts.
Context `{PyRepr}.

(** [str(v)] *)
Definition py_str (v : pyval) : string :=
  match v with
  | PNone => "None"
  | PBool b => if b then "True" else "False"
  | PInt z => pretty z
  | PStr s => s
  | _ => repr_other v
  end.

(** [int(str(v))] *)
Definition int_of_value (v : pyval) : result Z := int_of_text (py_str v).

(** The escapes of [json.dumps] with its default [ensure_ascii]. *)
Definition json_char (c : ascii) : string :=
  let n := N_of_ascii c in
  let escape (s : string) := String (ascii_of_N 92) s in
  if (n =? 34)%N || (n =? 92)%N then escape (String c "")
  else if (n =? 10)%N then escape "n"
  else if (n =? 13)%N then escape "r"
  else if (n =? 9)%N then escape "t"
  else if (n =? 8)%N then escape "b"
  else if (n =? 12)%N then escape "f"
  else if (n <? 32)%N || (126 <? n)%N then
    escape ("u00" +:+ String (Uuid.hex_digit (n / 16)) (String (Uuid.hex_digit (n mod 16)) ""))
  else String c "".

Fixpoint json_escape (s : string) : string :=
  match s with
  | EmptyString => ""
  | String c s' => json_char c +:+ json_escape s'
  end.

Definition json_string (s : string) : string :=
  String (ascii_of_N 34) (json_escape s +:+ String (ascii_of_N 34) "").

Definition key_text (k : pykey) : string :=
  match k with KStr s => s | KOther n => pretty n end.

Definition join (sep : string) (l : list string) : string := String.concat sep l.

(** The members of an object in the order of their keys, or as they were
    inserted. *)
Definition key_leb {V} (a b : string * V) : bool := PyStr.str_leb a.1 b.1.

Definition key_order {V} (sort_keys : bool) (l : list (string * V)) : list (string * V) :=
  if sort_keys then py_sorted key_leb l else l.
Arguments key_order : simpl never.

(** [json.dumps(v, separators=(",", ":"), sort_keys=sort_keys)] *)
Fixpoint dumps (sort_keys : bool) (v : pyval) : string :=
  match v with
  | PNone => "null"
  | PBool b => if b then "true" else "false"
  | PInt z => pretty z
  | PStr s => json_string s
  | PList l | PTuple l => "[" +:+ join "," (map (dumps sort_keys) l) +:+ "]"
  | PDict d | PProxy d =>
      "{" +:+ join ","
        (map (λ kv, json_string kv.1 +:+ ":" +:+ kv.2)
           (key_order sort_keys (map (λ kv, (key_text kv.1, dumps sort_keys kv.2)) d))) +:+ "}"
  | _ => repr_other v
  end%string.
End Texts.

Abbreviation json_dumps := (dumps true).

(** ** Envelopes and deliveries *)

Record MessageEnvelope : Type := mkMessageEnvelope {
  me_message_id : uuid;
  me_tenant_id : string;
  me_work_id : uuid;
  me_event_id : option uuid;
  me_destination : string;
  me_correlation_id : uuid;
  me_causation_id : option uuid;
  me_occurred_at : Dt.datetime;
  me_payload : pydict;
  me_headers : pydict;
  me_schema_version : Z;
}.

Definition MessageEnvelope_post_init (m : MessageEnvelope) : result MessageEnvelope :=
  raise! ValueError "message tenant and destination are required"
    when! PyStr.is_empty (me_tenant_id m) || PyStr.is_empty (me_destination m) ;;
  raise! ValueError "message occurred_at must be timezone-aware"
    when! Dt.naive (me_occurred_at m) ;;
  raise! ValueError "unsupported message schema version"
    when! negb (me_schema_version m =? 1) ;;
  let? p := freeze_json_mapping (me_payload m) in
  let? h := freeze_json_mapping (me_headers m) in
  inr {| me_message_id := me_message_id m; me_tenant_id := me_tenant_id m;
         me_work_id := me_work_id m; me_event_id := me_event_id m;
         me_destination := me_destination m; me_correlation_id := me_correlation_id m;
         me_causation_id := me_causation_id m; me_occurred_at := me_occurred_at m;
         me_payload := p; me_headers := h; me_schema_version := me_schema_version m |}.

(** The claim of the older queue protocol. *)
Record Lease : Type := mkLease {
  ls_lease_id : uuid;
  ls_tenant_id : string;
  ls_work_id : uuid;
  ls_expires_at : Dt.datetime;
  ls_attempt : Z;
  ls_fence : Z;
}.

Definition Lease_post_init (l : Lease) : result Lease :=
  raise! ValueError "tenant_id is required" when! PyStr.is_empty (PyStr.strip (ls_tenant_id l)) ;;
  let? _ := require_aware_datetime (ls_expires_at l) in
  raise! ValueError "attempt and fence must be positive"
    when! (ls_attempt l <? 1) || (ls_fence l <? 1) ;;
  inr l.

Record QueueDelivery : Type := mkQueueDelivery {
  qd_stream_entry_id : string;
  qd_envelope : MessageEnvelope;
  qd_delivery_count : Z;
  qd_idle_milliseconds : Z;
}.

Definition QueueDelivery_post_init (d : QueueDelivery) : result QueueDelivery :=
  raise! ValueError "stream entry id is required"
    when! PyStr.is_empty (qd_stream_entry_id d) ;;
  raise! ValueError "invalid delivery metadata"
    when! (qd_delivery_count d <? 1) || (qd_idle_milliseconds d <? 0) ;;
  inr d.

Definition optional_uuid_text (u : option uuid) : pyval :=
  match u with Some u => PStr (Uuid.to_str u) | None => PNone end.

Definition _envelope_body (m : MessageEnvelope) : pyval :=
  PDict (dict_of
    [("schema_version", PInt (me_schema_version m));
     ("message_id", PStr (Uuid.to_str (me_message_id m)));
     ("tenant_id", PStr (me_tenant_id m));
     ("work_id", PStr (Uuid.to_str (me_work_id m)));
     ("event_id", optional_uuid_text (me_event_id m));
     ("destination", PStr (me_destination m));
     ("correlation_id", PStr (Uuid.to_str (me_correlation_id m)));
     ("causation_id", optional_uuid_text (me_causation_id m));
     ("occurred_at", PStr (isoformat (me_occurred_at m)));
     ("payload", thaw_json (PProxy (me_payload m)));
     ("headers", thaw_json (PProxy (me_headers m)))]%string).

Definition _MAX_ENVELOPE_BYTES : Z := 256 * 1024.

Section Transport.
Context `{PyRepr}.

Definition validate_transport_size (m : MessageEnvelope) : result unit :=
  reject_if (_MAX_ENVELOPE_BYTES <? PyStr.len (json_dumps (_envelope_body m)))
    (PermanentQueueError "message envelope exceeds 256 KiB").

Definition _request_payload (r : WorkRequest) : pydict :=
  dict_of
    [("work_id", PStr (Uuid.to_str (wr_work_id r)));
     ("work_kind", PStr (wr_work_kind r));
     ("correlation_id", PStr (Uuid.to_str (wr_correlation_id r)));
     ("causation_id", optional_uuid_text (wr_causation_id r));
     ("requested_at", PStr (isoformat (wr_requested_at r)));
     ("max_attempts", PInt (wr_max_attempts r));
     ("timeout_seconds", PInt (wr_timeout_seconds r));
     ("request_payload", PProxy (wr_payload r));
     ("idempotency_key", PStr (wr_idempotency_key r))]%string.

Definition subscript (key : string) (d : pydict) : result pyval :=
  match dict_get key d with Some v => inr v | None => inl (KeyError key) end.

Definition _request_from_delivery (delivery : QueueDelivery) : result WorkRequest :=
  let payload := me_payload (qd_envelope delivery) in
  let request_payload := default (PDict []) (dict_get "request_payload" payload) in
  match request_payload with
  | PDict d | PProxy d =>
      let build :=
        let? kind := subscript "work_kind" payload in
        let? key := subscript "idempotency_key" payload in
        let? requested := subscript "requested_at" payload in
        let? requested_at := fromisoformat (py_str requested) in
        let? attempts := subscript "max_attempts" payload in
        let? max_attempts := int_of_value attempts in
        let? timeout := subscript "timeout_seconds" payload in
        let? timeout_seconds := int_of_value timeout in
        WorkRequest_post_init
          {| wr_work_id := me_work_id (qd_envelope delivery);
             wr_tenant_id := me_tenant_id (qd_envelope delivery);
             wr_work_kind := py_str kind;
             wr_idempotency_key := py_str key;
             wr_correlation_id := me_correlation_id (qd_envelope delivery);
             wr_requested_at := requested_at;
             wr_payload := d;
             wr_causation_id := me_causation_id (qd_envelope delivery);
             wr_max_attempts := max_attempts;
             wr_timeout_seconds := timeout_seconds;
             wr_schema_version := 1 |} in
      match build with
      | inl (KeyError _ | TypeError _ | ValueError _) =>
          inl (ValueError "delivery has invalid work routing metadata")
      | r => r
      end
  | _ => inl (ValueError "request_payload must be a mapping")
  end.

(** [==] of two [WorkRequest]s. *)
Definition request_eqb (a b : WorkRequest) : bool :=
  bool_decide (wr_work_id a = wr_work_id b) && bool_decide (wr_tenant_id a = wr_tenant_id b)
  && bool_decide (wr_work_kind a = wr_work_kind b)
  && bool_decide (wr_idempotency_key a = wr_idempotency_key b)
  && bool_decide (wr_correlation_id a = wr_correlation_id b)
  && bool_decide (wr_requested_at a = wr_requested_at b)
  && py_eqb (PProxy (wr_payload a)) (PProxy (wr_payload b))
  && bool_decide (wr_causation_id a = wr_causation_id b)
  && (wr_max_attempts a =? wr_max_attempts b)
  && (wr_timeout_seconds a =? wr_timeout_seconds b)
  && (wr_schema_version a =? wr_schema_version b).
End Transport.
