(* ===== verification/PyEquality.v ===== *)
(** * Python's equality on payloads

    When a payload equals itself: numbers are finite and every mapping has
    each key once. *)

From stdpp Require Import base gmap sets list strings.
From Stdlib Require Import ZArith Lia SpecFloat.
From S2P Require Import Prelude PyLib Json Wire.

Local Open Scope Z_scope.

(** Every mapping has each key once, as a Python [dict] does. *)
Fixpoint tidy (v : pyval) : bool :=
  match v with
  | PDict d | PProxy d =>
      bool_decide (NoDup (map fst d)) && forallb (λ kv, tidy kv.2) d
  | PList l | PTuple l => forallb tidy l
  | _ => true
  end.

Lemma finite_eqb f : float_isfinite f = true → SFeqb f f = true.
Proof.
  destruct f as [s| | |s m e]; try done. intros _. unfold SFeqb, SFcompare.
  destruct s; rewrite Z.compare_refl; unfold Pos.compare_cont; by rewrite Pos.compare_refl.
Qed.

Lemma find_key (d : pydict) k v :
  NoDup (map fst d) → (k, v) ∈ d → find (λ kv, bool_decide (kv.1 = k)) d = Some (k, v).
Proof.
  induction d as [|[k' v'] d IH]; intros Hnd Hin; [by apply not_elem_of_nil in Hin|].
  simpl in *. apply NoDup_cons in Hnd as [Hk Hnd].
  apply elem_of_cons in Hin as [[= -> ->]|Hin]; [by rewrite bool_decide_true|].
  rewrite bool_decide_false; [by apply IH|]. intros ->. apply Hk.
  apply list_elem_of_In, in_map_iff. exists (k, v). split; [done|]. by apply list_elem_of_In.
Qed.

Definition self_equal (v : pyval) : Prop :=
  json_value v = true → tidy v = true → py_eqb v v = true.

Lemma items_self_equal l :
  Forall self_equal l → forallb json_value l = true → forallb tidy l = true →
  (fix go (l1 l2 : list pyval) : bool :=
     match l1, l2 with
     | [], [] => true
     | x :: l1', y :: l2' => py_eqb x y && go l1' l2'
     | _, _ => false
     end) l l = true.
Proof.
  induction 1 as [|x l Hx _ IH]; [done|]. cbn [forallb]. intros Hj Ht. bool_props.
  rewrite Hx, IH by done. done.
Qed.

(** One direction of the comparison of mappings: the entries [l] are in [d]. *)
Lemma entries_self_equal (l d : pydict) :
  Forall (λ kv, self_equal kv.2) l → Forall (λ kv, json_value kv.2 = true) l →
  forallb (λ kv, tidy kv.2) l = true → NoDup (map fst d) → (∀ kv, kv ∈ l → kv ∈ d) →
  (fix go (l : pydict) : bool :=
     match l with
     | [] => true
     | (k, v) :: l' =>
         match find (λ kv, bool_decide (kv.1 = k)) d with
         | Some kv => py_eqb v kv.2
         | None => false
         end && go l'
     end) l = true.
Proof.
  intros Hse. induction Hse as [|[k v] l Hv _ IH]; intros Hj Ht Hnd Hin; [done|].
  cbn [forallb] in Ht. apply Forall_cons in Hj as [Hj Hjs]. bool_props.
  rewrite (find_key d k v); [|done|apply Hin, list_elem_of_here].
  cbn [snd] in *. rewrite (Hv Hj) by done. apply IH; try done. intros kv Hkv. apply Hin. by right.
Qed.

Lemma json_entries d : json_value (PDict d) = true → Forall (λ kv, json_value kv.2 = true) d.
Proof.
  simpl. induction d as [|[[k|n] v] d IH]; simpl; intros H; [constructor| |done].
  bool_props. constructor; [done|]. by apply IH.
Qed.

Lemma dict_self_equal d :
  Forall (λ kv, self_equal kv.2) d → json_value (PDict d) = true → tidy (PDict d) = true →
  py_eqb (PDict d) (PDict d) = true.
Proof.
  intros IH Hj Ht. simpl in Ht. bool_props. cbn [py_eqb]. rewrite Nat.eqb_refl. cbn [andb].
  apply entries_self_equal; try done. by apply json_entries.
Qed.

Lemma py_eqb_refl v : self_equal v.
Proof.
  induction v as [|b|z|f|s|l IH|l IH|d IH|d IH| |] using pyval_deep_ind; intros Hj Ht; try done.
  - by destruct b.
  - apply Z.eqb_refl.
  - by apply finite_eqb.
  - by apply bool_decide_eq_true.
  - by apply items_self_equal.
  - by apply items_self_equal.
  - by apply dict_self_equal.
  - by apply dict_self_equal.
Qed.

Lemma thaw_value v : json_value (thaw_json v) = json_value v ∧ tidy (thaw_json v) = tidy v.
Proof.
  assert (Hl : ∀ l, Forall (λ x, json_value (thaw_json x) = json_value x ∧ tidy (thaw_json x) = tidy x) l →
    forallb json_value (map thaw_json l) = forallb json_value l ∧
    forallb tidy (map thaw_json l) = forallb tidy l).
  { induction 1 as [|x l [Hj Ht] _ [IHj IHt]]; [done|]. simpl. by rewrite Hj, Ht, IHj, IHt. }
  assert (Hd : ∀ d : pydict,
    Forall (λ kv, json_value (thaw_json kv.2) = json_value kv.2 ∧ tidy (thaw_json kv.2) = tidy kv.2) d →
    json_value (thaw_json (PDict d)) = json_value (PDict d) ∧ tidy (thaw_json (PDict d)) = tidy (PDict d)).
  { intros d IH. simpl. rewrite map_map. simpl.
    assert (Hk : map (λ x, (let '(k, item) := x in (k, thaw_json item)).1) d = map fst d)
      by (apply map_ext; by intros []).
    rewrite Hk. clear Hk. split; [|f_equal];
      induction IH as [|[[k|n] w] d [Hj Ht] _ IHd]; simpl in *; try done.
    - by rewrite Hj, IHd.
    - by rewrite Ht, IHd.
    - by rewrite Ht, IHd. }
  induction v as [| | | | |l IH|l IH|d IH|d IH| |] using pyval_deep_ind; try done.
  - exact (Hl l IH).
  - exact (Hl l IH).
  - exact (Hd d IH).
  - exact (Hd d IH).
Qed.
