(* ===== verification/WorkRepository.v ===== *)
(** * The work repository

    Models [PostgresWorkRepository] of [runtime/postgres.py]: registration,
    publication, claims, leases, heartbeats, completion, failure, release,
    cancellation, reconciliation and the approved requeue of dead letters.
    Every operation is its sequence of transactions, with the mutation each
    one hands to the event store. *)

From stdpp Require Import base gmap sets list strings pretty.
From Stdlib Require Import ZArith Lia.
From S2P Require Import Prelude PyLib Json Events Identity Work Database EventStore Wire.

Local Open Scope Z_scope.

(** ** Statements *)

(** [UPDATE work_items ... WHERE key AND guard], exactly one row expected. *)
Definition update_item (key : string * uuid) (guard : WorkItemRow → bool)
    (f : WorkItemRow → WorkItemRow) (miss : exn) : Db unit :=
  let! row := query (λ t, t_work_items t !! key) in
  match row with
  | Some r => if guard r then execute (upd_work_items <[key := f r]>) else raise miss
  | None => raise miss
  end.

(** The same without a look at the row count. *)
Definition touch_item (key : string * uuid) (f : WorkItemRow → WorkItemRow) : Db unit :=
  execute (upd_work_items (alter f key)).

Definition update_lease (key : string * uuid) (guard : LeaseRow → bool)
    (f : LeaseRow → LeaseRow) (miss : exn) : Db unit :=
  let! row := query (λ t, t_work_leases t !! key) in
  match row with
  | Some r => if guard r then execute (upd_work_leases <[key := f r]>) else raise miss
  | None => raise miss
  end.

(** The columns of [work_items] that transitions write. *)
Definition item_set (r : WorkItemRow) (status : WorkStatus) (available attempts : Z)
    (cancel completed : option Z) (error : option string) : WorkItemRow :=
  {| wi_work_kind := wi_work_kind r; wi_idempotency_key := wi_idempotency_key r;
     wi_status := status; wi_requested_at := wi_requested_at r;
     wi_available_at := available; wi_attempt_count := attempts;
     wi_max_attempts := wi_max_attempts r; wi_timeout_seconds := wi_timeout_seconds r;
     wi_request_event_id := wi_request_event_id r;
     wi_correlation_id := wi_correlation_id r; wi_causation_id := wi_causation_id r;
     wi_request_payload := wi_request_payload r;
     wi_cancel_requested_at := cancel; wi_completed_at := completed;
     wi_last_error_code := error |}.

Definition set_item_status (status : WorkStatus) (r : WorkItemRow) : WorkItemRow :=
  item_set r status (wi_available_at r) (wi_attempt_count r) (wi_cancel_requested_at r)
    (wi_completed_at r) (wi_last_error_code r).

Definition status_in (statuses : list WorkStatus) (r : WorkItemRow) : bool :=
  bool_decide (wi_status r ∈ statuses).

Definition not_cancelling (r : WorkItemRow) : bool :=
  bool_decide (wi_cancel_requested_at r = None).

(** [lease_token = %s AND generation = %s AND released_at IS NULL] *)
Definition lease_held (lease : WorkLease) (row : LeaseRow) : bool :=
  bool_decide (le_lease_token row = wl_token lease)
  && (le_generation row =? wl_generation lease)
  && bool_decide (le_released_at row = None).

Definition released (at_ : Dt.datetime) (reason : string) (r : LeaseRow) : LeaseRow :=
  {| le_lease_token := le_lease_token r; le_generation := le_generation r;
     le_owner := le_owner r; le_acquired_at := le_acquired_at r;
     le_heartbeat_at := le_heartbeat_at r; le_expires_at := le_expires_at r;
     le_released_at := Some (Dt.us at_); le_release_reason := Some reason |}.

Definition lease_key (lease : WorkLease) : string * uuid :=
  (wl_tenant_id lease, wl_work_id lease).

Definition fenced_off (lease : WorkLease) : exn := FencingError (wl_generation lease) 0.

(** ** Mutations run inside an append transaction *)

Definition _complete_in_transaction (lease : WorkLease) (at_ : Dt.datetime)
    (status : WorkStatus) (reason : string) : Db unit :=
  do! update_lease (lease_key lease) (lease_held lease) (released at_ reason)
        (fenced_off lease) ;;
  update_item (lease_key lease)
    (λ r, status_in [CLAIMED; RUNNING] r && not_cancelling r)
    (λ r, item_set r status (wi_available_at r) (wi_attempt_count r)
            (wi_cancel_requested_at r) (Some (Dt.us at_)) (wi_last_error_code r))
    (fenced_off lease).

Definition _release_in_transaction (lease : WorkLease) (at_ : Dt.datetime)
    (reason : string) (retry_at : Dt.datetime) (running_only : bool) : Db unit :=
  do! update_lease (lease_key lease) (lease_held lease) (released at_ reason)
        (fenced_off lease) ;;
  update_item (lease_key lease)
    (λ r, status_in (if running_only then [RUNNING] else [CLAIMED; RUNNING]) r
          && not_cancelling r)
    (λ r, item_set r RETRY_WAIT (Dt.us retry_at) (wi_attempt_count r)
            (wi_cancel_requested_at r) (wi_completed_at r) (wi_last_error_code r))
    (fenced_off lease).

Definition _cancel_in_transaction (lease : WorkLease) (at_ : Dt.datetime) : Db unit :=
  do! update_lease (lease_key lease) (lease_held lease) (released at_ "cancelled")
        (fenced_off lease) ;;
  update_item (lease_key lease)
    (λ r, status_in [CLAIMED; RUNNING] r && negb (not_cancelling r))
    (λ r, item_set r CANCELLED (wi_available_at r) (wi_attempt_count r)
            (wi_cancel_requested_at r) (Some (Dt.us at_)) (wi_last_error_code r))
    (fenced_off lease).

(** [INSERT INTO work_dead_letters ... ON CONFLICT DO UPDATE] *)
Definition record_dead_letter (lease : WorkLease) (at_ : Dt.datetime) (reason : string)
    : Db unit :=
  do! raise_if (PyStr.is_empty reason || (128 <? PyStr.len reason)
                || (wl_attempt lease <? 1)) violates ;;
  execute (upd_dead_letters (λ d,
    let '(count, last) := match d !! lease_key lease with
                          | Some r => (dl_requeue_count r, dl_last_requeued_at r)
                          | None => (0, None)
                          end in
    <[lease_key lease :=
        {| dl_dead_lettered_at := Dt.us at_; dl_reason_code := reason;
           dl_attempts := wl_attempt lease; dl_requeue_count := count;
           dl_last_requeued_at := last |}]> d)).

Definition _dead_letter_in_transaction (lease : WorkLease) (at_ : Dt.datetime)
    (reason : string) : Db unit :=
  do! _complete_in_transaction lease at_ DEAD_LETTER "dead_letter" ;;
  do! touch_item (lease_key lease) (λ r,
        item_set r (wi_status r) (wi_available_at r) (wi_attempt_count r)
          (wi_cancel_requested_at r) (wi_completed_at r) (Some reason)) ;;
  record_dead_letter lease at_ reason.

Definition _dead_letter_expired_in_transaction (lease : WorkLease) (at_ : Dt.datetime)
    (reason : string) : Db unit :=
  let! now := clock_timestamp in
  do! update_lease (lease_key lease)
        (λ r, lease_held lease r && (le_expires_at r <=? now))
        (released at_ "dead_letter") (fenced_off lease) ;;
  do! update_item (lease_key lease) (status_in [CLAIMED; RUNNING])
        (λ r, item_set r DEAD_LETTER (wi_available_at r) (wi_attempt_count r)
                (wi_cancel_requested_at r) (Some (Dt.us at_)) (Some reason))
        (fenced_off lease) ;;
  record_dead_letter lease at_ reason.

(** [insert_work] of [register] *)
Definition insert_work (request : WorkRequest) (requested_event_id : uuid) : Db unit :=
  let key := (wr_tenant_id request, wr_work_id request) in
  let! items := query t_work_items in
  let! events := query t_events in
  let! tenants := query t_tenants in
  do! raise_if
        (bool_decide (wr_tenant_id request ∉ tenants)
         || bool_decide (items !! key ≠ None)
         || existsb (λ kv, bool_decide (kv.1.1 = wr_tenant_id request)
                           && bool_decide (wi_idempotency_key kv.2
                                           = wr_idempotency_key request))
                    (map_to_list items)
         || PyStr.is_empty (wr_work_kind request)
         || PyStr.is_empty (wr_idempotency_key request)
         || negb ((1 <=? wr_max_attempts request) && (wr_max_attempts request <=? 100))
         || negb ((1 <=? wr_timeout_seconds request)
                  && (wr_timeout_seconds request <=? 86400))
         || negb (existsb (λ r, bool_decide (er_tenant_id r = wr_tenant_id request)
                                && bool_decide (er_event_id r = requested_event_id)) events))
        violates ;;
  execute (upd_work_items <[key :=
    {| wi_work_kind := wr_work_kind request;
       wi_idempotency_key := wr_idempotency_key request;
       wi_status := REQUESTED;
       wi_requested_at := Dt.us (wr_requested_at request);
       wi_available_at := Dt.us (wr_requested_at request);
       wi_attempt_count := 0;
       wi_max_attempts := wr_max_attempts request;
       wi_timeout_seconds := wr_timeout_seconds request;
       wi_request_event_id := requested_event_id;
       wi_correlation_id := wr_correlation_id request;
       wi_causation_id := wr_causation_id request;
       wi_request_payload := thaw_json (PProxy (wr_payload request));
       wi_cancel_requested_at := None;
       wi_completed_at := None;
       wi_last_error_code := None |}]>).

(** [mark_projection] of [mark_published] *)
Definition mark_projection (request : WorkRequest) : Db unit :=
  update_item (wr_tenant_id request, wr_work_id request)
    (status_in [REQUESTED; RETRY_WAIT]) (set_item_status PUBLISHED) (ConcurrencyError 1 0).

(** [SELECT count( * ) ... status IN ('claimed', 'running')] *)
Definition active_count (tenant : string) (t : Tables) : Z :=
  Z.of_nat (length (List.filter
    (λ kv, bool_decide (kv.1.1 = tenant) && status_in [CLAIMED; RUNNING] kv.2)
    (map_to_list (t_work_items t)))).

(** The upsert of [work_leases] in [claim_projection]: it replaces only the
    previous generation. *)
Definition upsert_lease (tenant : string) (work token : uuid) (generation : Z)
    (owner : string) (acquired expires : Z) : Db unit :=
  let! leases := query t_work_leases in
  do! raise_if
        (existsb (λ kv, bool_decide (kv.1.1 = tenant) && negb (bool_decide (kv.1.2 = work))
                        && bool_decide (le_lease_token kv.2 = token)) (map_to_list leases)
         || (generation <? 1) || PyStr.is_empty owner || (expires <=? acquired))
        violates ;;
  do! raise_if (match leases !! (tenant, work) with
                | Some row => negb (le_generation row =? generation - 1)
                | None => false
                end) ClaimUnavailableError ;;
  execute (upd_work_leases <[(tenant, work) :=
    {| le_lease_token := token; le_generation := generation; le_owner := owner;
       le_acquired_at := acquired; le_heartbeat_at := acquired; le_expires_at := expires;
       le_released_at := None; le_release_reason := None |}]>).

Definition claim_projection (request : WorkRequest) (token : uuid)
    (generation attempt : Z) (owner : string) (lease_duration limit : Z) : Db unit :=
  let tenant := wr_tenant_id request in
  let! tenants := query t_tenants in
  do! raise_if (bool_decide (tenant ∉ tenants)) violates ;;
  do! execute (upd_commit_locks (λ l, {[tenant]} ∪ l)) ;;
  let! active := query (active_count tenant) in
  do! raise_if (limit <=? active) ClaimUnavailableError ;;
  let! acquired_at := clock_timestamp in
  let database_expiry := acquired_at + lease_duration in
  do! set_cell (λ times, times ++ [(acquired_at, database_expiry)]) ;;
  let! now := clock_timestamp in
  do! update_item (tenant, wr_work_id request)
        (λ r, (wi_attempt_count r =? attempt - 1) && status_in [PUBLISHED; RETRY_WAIT] r
              && (wi_available_at r <=? now) && not_cancelling r)
        (λ r, item_set r CLAIMED (wi_available_at r) attempt (wi_cancel_requested_at r)
                (wi_completed_at r) (wi_last_error_code r))
        ClaimUnavailableError ;;
  upsert_lease tenant (wr_work_id request) token generation owner acquired_at
    database_expiry.

(** [mark_started] of [start] *)
Definition mark_started (request : WorkRequest) (lease : WorkLease) : Db unit :=
  update_item (wr_tenant_id request, wr_work_id request) (status_in [CLAIMED])
    (set_item_status RUNNING) (fenced_off lease).

(** [renew_lease] of [heartbeat] *)
Definition renew_lease (lease : WorkLease) (extension : Z) : Db unit :=
  let! now := clock_timestamp in
  do! update_lease (lease_key lease)
        (λ r, lease_held lease r && bool_decide (le_owner r = wl_owner lease)
              && (now <? le_expires_at r))
        (λ r, {| le_lease_token := le_lease_token r; le_generation := le_generation r;
                 le_owner := le_owner r; le_acquired_at := le_acquired_at r;
                 le_heartbeat_at := now; le_expires_at := now + extension;
                 le_released_at := le_released_at r;
                 le_release_reason := le_release_reason r |})
        (fenced_off lease) ;;
  set_cell (λ times, times ++ [(now, now + extension)]).

(** [cancel_projection] of [request_cancel] *)
Definition cancel_projection (request : WorkRequest) (status : WorkStatus)
    (queued : bool) (at_ : Dt.datetime) : Db unit :=
  update_item (wr_tenant_id request, wr_work_id request) (status_in [status])
    (λ r, item_set r (if queued then CANCELLED else wi_status r) (wi_available_at r)
            (wi_attempt_count r)
            (match wi_cancel_requested_at r with
             | Some c => Some c
             | None => Some (Dt.us at_)
             end)
            (if queued then Some (Dt.us at_) else wi_completed_at r)
            (wi_last_error_code r))
    (ConcurrencyError 1 0).

Definition minute : Z := 60 * Dt.second.

(** [payload->>'work_id' = work_id::text] *)
Definition message_of_work (work : uuid) (r : OutboxRow) : bool :=
  equals_str (dict_get "work_id" (as_mapping (ob_payload r))) (Uuid.to_str work).

Definition published_before (limit : Z) (r : OutboxRow) : bool :=
  match ob_published_at r with Some p => p <=? limit | None => false end.

Definition unreleased_lease (t : Tables) (key : string * uuid) : bool :=
  match t_work_leases t !! key with
  | Some l => bool_decide (le_released_at l = None)
  | None => false
  end.

(** [(published_at, message_id)] of a newer published message of the work *)
Definition newer_published (tenant : string) (work : uuid) (key : string * uuid)
    (r : OutboxRow) (kv : (string * uuid) * OutboxRow) : bool :=
  bool_decide (kv.1.1 = tenant) && message_of_work work kv.2
  && bool_decide (ob_status kv.2 = OB_PUBLISHED)
  && match ob_published_at kv.2, ob_published_at r with
     | Some p, Some q => (q <? p) || ((p =? q) && (key.2 <? kv.1.2)%N)
     | _, _ => false
     end.

(** [redrive_projection] of [reconcile_expired] *)
Definition redrive_projection (context : TenantContext) (message_id work_id : uuid)
    : Db unit :=
  let tenant := ctx_str context in
  let key := (tenant, message_id) in
  let! now := clock_timestamp in
  let! t := query (λ t, t) in
  match t_outbox t !! key, t_work_items t !! (tenant, work_id) with
  | Some o, Some w =>
      if bool_decide (ob_status o = OB_PUBLISHED)
         && published_before (now - 5 * minute) o
         && status_in [REQUESTED; PUBLISHED; RETRY_WAIT] w
         && negb (existsb (newer_published tenant work_id key o) (map_to_list (t_outbox t)))
         && negb (unreleased_lease t (tenant, work_id))
      then execute (upd_outbox <[key :=
             {| ob_event_id := ob_event_id o; ob_destination := ob_destination o;
                ob_payload := ob_payload o; ob_headers := ob_headers o;
                ob_status := OB_PENDING; ob_available_at := now;
                ob_attempt_count := 0; ob_max_attempts := ob_max_attempts o;
                ob_lease_owner := None; ob_lease_expires_at := None;
                ob_published_at := None; ob_last_error_code := None |}]>)
      else raise (ConcurrencyError 1 0)
  | _, _ => raise (ConcurrencyError 1 0)
  end.

(** [expire_projection] of [reconcile_expired] *)
Definition expire_projection (lease : WorkLease) (now : Dt.datetime)
    (cancelled exhausted : bool) (expected_cancel : option Z) : Db unit :=
  let! row := query (λ t, t_work_items t !! lease_key lease) in
  do! raise_if (match row with
                | Some r => negb (bool_decide (wi_cancel_requested_at r = expected_cancel))
                | None => true
                end) (ConcurrencyError 1 0) ;;
  if exhausted && negb cancelled then
    _dead_letter_expired_in_transaction lease now "lease_expired_after_max_attempts"
  else
    let! clock := clock_timestamp in
    do! update_lease (lease_key lease)
          (λ r, lease_held lease r && (le_expires_at r <=? clock))
          (released now "lease_expired") (fenced_off lease) ;;
    update_item (lease_key lease) (status_in [CLAIMED; RUNNING])
      (λ r, item_set r (if cancelled then CANCELLED else RETRY_WAIT) (Dt.us now)
              (wi_attempt_count r) (wi_cancel_requested_at r)
              (if cancelled then Some (Dt.us now) else None) (wi_last_error_code r))
      (fenced_off lease).

Record RequeueApproval : Type := mkRequeueApproval {
  ra_approval_id : uuid;
  ra_approved_by : string;
  ra_approved_at : Dt.datetime;
  ra_scope : string;
}.

Definition RequeueApproval_post_init (a : RequeueApproval) : result RequeueApproval :=
  raise! ValueError "approval actor and time are required"
    when! PyStr.is_empty (ra_approved_by a) || Dt.naive (ra_approved_at a) ;;
  raise! ValueError "approval scope must be dlq:requeue"
    when! negb (bool_decide (ra_scope a = "dlq:requeue"%string)) ;;
  inr a.

(** [requeue_projection] of [requeue_dead_letter] *)
Definition requeue_projection (tenant : string) (work_id : uuid) (at_ : Dt.datetime)
    (approval : RequeueApproval) (actor_id : string) : Db unit :=
  let akey := (tenant, ra_approval_id approval) in
  let! now := clock_timestamp in
  let! row := query (λ t, t_approvals t !! akey) in
  do! raise_if
        (match row with
         | Some a => negb (bool_decide (ap_work_id a = work_id)
                           && bool_decide (ap_approved_by a = ra_approved_by approval)
                           && (ap_approved_at a =? Dt.us (ra_approved_at approval))
                           && bool_decide (ap_consumed_at a = None)
                           && (now <? ap_expires_at a)
                           && negb (bool_decide (ap_approved_by a = actor_id)))
         | None => true
         end) (ConcurrencyError 1 0) ;;
  do! update_item (tenant, work_id) (status_in [DEAD_LETTER])
        (λ r, item_set r RETRY_WAIT (Dt.us at_) 0 None None None) (ConcurrencyError 1 0) ;;
  let! consumed := clock_timestamp in
  do! execute (upd_approvals (alter (λ a,
        {| ap_work_id := ap_work_id a; ap_approved_by := ap_approved_by a;
           ap_approved_at := ap_approved_at a; ap_expires_at := ap_expires_at a;
           ap_consumed_at := Some consumed; ap_consumed_by := Some actor_id |}) akey)) ;;
  execute (upd_dead_letters (alter (λ d,
    {| dl_dead_lettered_at := dl_dead_lettered_at d; dl_reason_code := dl_reason_code d;
       dl_attempts := dl_attempts d; dl_requeue_count := dl_requeue_count d + 1;
       dl_last_requeued_at := Some (Dt.us at_) |}) (tenant, work_id))).

(** ** Operations *)

Definition _validate_request_context (context : TenantContext) (request : WorkRequest)
    : result unit :=
  reject_if (negb (bool_decide (ctx_str context = wr_tenant_id request)))
    (ValueError "work request tenant does not match trusted context").

Definition _current_version (context : TenantContext) (work_id : uuid) : Db Z :=
  storage_guard (transaction (
    query (λ t, default 0 (t_heads t !! (ctx_str context, Uuid.to_str work_id))))).

(** The [WorkRequest] a row of [work_items] stands for. *)
Definition request_of_row (tenant : string) (work_id : uuid) (r : WorkItemRow)
    : result WorkRequest :=
  WorkRequest_post_init
    {| wr_work_id := work_id; wr_tenant_id := tenant;
       wr_work_kind := wi_work_kind r; wr_idempotency_key := wi_idempotency_key r;
       wr_correlation_id := wi_correlation_id r;
       wr_requested_at := Dt.Aware (wi_requested_at r);
       wr_payload := as_mapping (wi_request_payload r);
       wr_causation_id := wi_causation_id r;
       wr_max_attempts := wi_max_attempts r;
       wr_timeout_seconds := wi_timeout_seconds r;
       wr_schema_version := 1 |}.

Definition _load_request (context : TenantContext) (work_id : uuid) : Db WorkRequest :=
  let! row := storage_guard (transaction (
    query (λ t, t_work_items t !! (ctx_str context, work_id)))) in
  match row with
  | None => raise (ValueError "work request not found or lacks correlation metadata")
  | Some r => lift (request_of_row (ctx_str context) work_id r)
  end.

(** [WorkTransition(...)] with the source's defaults. *)
Definition transition (event_type : DomainEventType) (at_ : Dt.datetime)
    (details : list (string * pyval)) (lease : option WorkLease) : WorkTransition :=
  {| wt_event_type := event_type; wt_occurred_at := at_; wt_details := dict_of details;
     wt_lease := lease |}.

(** [WorkTransition(...).to_event(request, event_id=self._uuid_factory(), ...)] *)
Definition new_event (t : WorkTransition) (request : WorkRequest) (causation : option uuid)
    : Db EventEnvelope :=
  let! t' := lift (WorkTransition_post_init t) in
  let! id := uuid_factory in
  lift (to_event t' request id causation).

Definition _append_fenced (context : TenantContext) (request : WorkRequest)
    (t : WorkTransition) (lease : WorkLease) (mutation : Db unit) : Db unit :=
  let! t' := lift (WorkTransition_post_init t) in
  let! version := _current_version context (wr_work_id request) in
  let! id := uuid_factory in
  let! event := lift (to_event t' request id None) in
  do! append_fenced context [event] version (wl_work_id lease) (wl_token lease)
        (wl_generation lease) (wt_occurred_at t') [] (Some mutation) ;;
  ret tt.

(** [try: ... except ConcurrencyError: ...] around an append *)
Definition attempt {A} (handled : exn → bool) (m : Db A) : Db (option A) :=
  catch (let! a := m in ret (Some a)) (λ e, if handled e then ret None else raise e).

(** The delivery's row in the join of [_verify_delivery]. *)
Definition delivery_row (tenant : string) (m : MessageEnvelope) (t : Tables)
    : option (WorkItemRow * OutboxRow) :=
  match t_work_items t !! (tenant, me_work_id m), t_outbox t !! (tenant, me_message_id m) with
  | Some w, Some o =>
      if bool_decide (ob_status o ∈ [OB_LEASED; OB_PUBLISHED])
         && message_of_work (me_work_id m) o
      then Some (w, o) else None
  | _, _ => None
  end.

Section Operations.
Context `{PyRepr}.

Definition _verify_delivery (context : TenantContext) (delivery : QueueDelivery)
    : Db WorkRequest :=
  let m := qd_envelope delivery in
  let! supplied := lift (_request_from_delivery delivery) in
  do! lift (_validate_request_context context supplied) ;;
  let! row := storage_guard (transaction (query (delivery_row (ctx_str context) m))) in
  match row with
  | None => raise (ValueError "delivery has no authoritative published outbox row")
  | Some (w, o) =>
      let! authoritative := lift (request_of_row (ctx_str context) (me_work_id m) w) in
      do! raise_if
            (negb (request_eqb supplied authoritative
                   && bool_decide (ob_destination o = me_destination m)
                   && bool_decide (ob_event_id o = me_event_id m)
                   && py_eqb (ob_payload o) (thaw_json (PProxy (me_payload m)))
                   && py_eqb (ob_headers o) (thaw_json (PProxy (me_headers m)))))
            (ValueError "delivery does not match authoritative work") ;;
      ret authoritative
  end.

Definition register (context : TenantContext) (request : WorkRequest)
    (requested_event_id outbox_message_id : uuid) : Db Z :=
  do! lift (_validate_request_context context request) ;;
  let headers := dict_of [("tenant_id", PStr (wr_tenant_id request));
                          ("schema_version", PInt 1)]%string in
  let! envelope := lift (MessageEnvelope_post_init
    {| me_message_id := outbox_message_id; me_tenant_id := wr_tenant_id request;
       me_work_id := wr_work_id request; me_event_id := Some requested_event_id;
       me_destination := "aegis.work"; me_correlation_id := wr_correlation_id request;
       me_causation_id := wr_causation_id request;
       me_occurred_at := wr_requested_at request;
       me_payload := _request_payload request; me_headers := headers;
       me_schema_version := 1 |}) in
  do! lift (validate_transport_size envelope) ;;
  let! event := lift (transition_event
    (transition WORK_REQUESTED (wr_requested_at request)
       [("max_attempts", PInt (wr_max_attempts request));
        ("timeout_seconds", PInt (wr_timeout_seconds request));
        ("idempotency_key", PStr (wr_idempotency_key request));
        ("request_payload", PProxy (wr_payload request))]%string None)
    request requested_event_id (wr_causation_id request)) in
  let! outbox := lift (OutboxMessage_post_init
    (mkOutboxMessage outbox_message_id "aegis.work" (_request_payload request) headers
       (wr_requested_at request) (wr_max_attempts request) (Some requested_event_id))) in
  append_atomic context [event] 0 (insert_work request requested_event_id) [outbox].

Definition mark_published (context : TenantContext) (delivery : QueueDelivery)
    (at_ : Dt.datetime) : Db unit :=
  let! request := _verify_delivery context delivery in
  let! version := _current_version context (wr_work_id request) in
  let! event := new_event (transition WORK_PUBLISHED at_ [] None) request
                  (me_event_id (qd_envelope delivery)) in
  do! append_from_inbox context "redis-stream:aegis:work:v1"
        (Uuid.to_str (me_message_id (qd_envelope delivery))) [event] version []
        (Some (mark_projection request)) ;;
  ret tt.

(** What the read transaction of [claim] finds: the next attempt and the next
  generation, if the work can be claimed. *)
Definition claim_terms (tenant : string) (work_id : uuid) (t : Tables)
    : option (Z * Z) :=
  match t_work_items t !! (tenant, work_id) with
  | Some r =>
      if status_in [PUBLISHED; RETRY_WAIT] r && not_cancelling r
         && (wi_attempt_count r <? wi_max_attempts r)
      then Some (wi_attempt_count r + 1,
                 match t_work_leases t !! (tenant, work_id) with
                 | Some l => le_generation l + 1
                 | None => 1
                 end)
      else None
  | None => None
  end.

Definition claim (context : TenantContext) (delivery : QueueDelivery) (owner : string)
    (now expires_at : Dt.datetime) (tenant_concurrency_limit : Z)
    : Db (option WorkLease) :=
  do! raise_if (PyStr.is_empty owner || Dt.naive now) (ValueError "invalid work claim") ;;
  let! past := lift (Dt.le expires_at now) in
  do! raise_if (past || (tenant_concurrency_limit <? 0)) (ValueError "invalid work claim") ;;
  let! lease_duration := lift (Dt.sub expires_at now) in
  do! raise_if (negb ((5 * Dt.second <=? lease_duration)
                      && (lease_duration <=? 3600 * Dt.second)))
        (ValueError "lease duration must be between 5 and 3600 seconds") ;;
  let! request := _verify_delivery context delivery in
  do! lift (_validate_request_context context request) ;;
  if tenant_concurrency_limit =? 0 then ret None else
  let! token := uuid_factory in
  let! terms := storage_guard (transaction (
    query (claim_terms (wr_tenant_id request) (wr_work_id request)))) in
  match terms with
  | None => ret None
  | Some (attempt_no, generation) =>
      let! lease := lift (WorkLease_post_init
        {| wl_work_id := wr_work_id request; wl_tenant_id := wr_tenant_id request;
           wl_token := token; wl_generation := generation; wl_owner := owner;
           wl_attempt := attempt_no; wl_acquired_at := now; wl_heartbeat_at := now;
           wl_expires_at := expires_at |}) in
      do! set_cell (λ _, []) ;;
      let! version := _current_version context (wr_work_id request) in
      let! event := new_event (transition WORK_CLAIMED now [] (Some lease)) request None in
      let! done := attempt (λ e, bool_decide (e = ClaimUnavailableError)
                                 || except_ConcurrencyError e)
        (append_atomic context [event] version
           (claim_projection request token generation attempt_no owner lease_duration
              tenant_concurrency_limit) []) in
      match done with
      | None => ret None
      | Some _ =>
          let! times := gets w_cell in
          match times with
          | (acquired_at, database_expiry) :: _ =>
              let! granted := lift (WorkLease_post_init
                {| wl_work_id := wl_work_id lease; wl_tenant_id := wl_tenant_id lease;
                   wl_token := wl_token lease; wl_generation := wl_generation lease;
                   wl_owner := wl_owner lease; wl_attempt := wl_attempt lease;
                   wl_acquired_at := Dt.Aware acquired_at;
                   wl_heartbeat_at := Dt.Aware acquired_at;
                   wl_expires_at := Dt.Aware database_expiry |}) in
              ret (Some granted)
          | [] => raise (KeyError "authoritative_times[0]")
          end
      end
  end.

Definition start (context : TenantContext) (delivery : QueueDelivery) (lease : WorkLease)
    (at_ : Dt.datetime) : Db unit :=
  let! request := lift (_request_from_delivery delivery) in
  _append_fenced context request (transition WORK_STARTED at_ [] (Some lease)) lease
    (mark_started request lease).

Definition heartbeat (context : TenantContext) (delivery : QueueDelivery)
    (lease : WorkLease) (at_ expires_at : Dt.datetime) : Db WorkLease :=
  let! past := lift (Dt.le expires_at at_) in
  do! raise_if past (ValueError "heartbeat expiry must be in the future") ;;
  let! extension := lift (Dt.sub expires_at at_) in
  do! raise_if (negb ((5 * Dt.second <=? extension) && (extension <=? 3600 * Dt.second)))
        (ValueError "heartbeat extension must be between 5 and 3600 seconds") ;;
  do! set_cell (λ _, []) ;;
  let! renewed := lift (WorkLease_post_init
    {| wl_work_id := wl_work_id lease; wl_tenant_id := wl_tenant_id lease;
       wl_token := wl_token lease; wl_generation := wl_generation lease;
       wl_owner := wl_owner lease; wl_attempt := wl_attempt lease;
       wl_acquired_at := wl_acquired_at lease; wl_heartbeat_at := at_;
       wl_expires_at := expires_at |}) in
  let! request := lift (_request_from_delivery delivery) in
  do! _append_fenced context request (transition WORK_HEARTBEAT at_ [] (Some renewed))
        renewed (renew_lease lease extension) ;;
  let! times := gets w_cell in
  match times with
  | (heartbeat_at, database_expiry) :: _ =>
      lift (WorkLease_post_init
        {| wl_work_id := wl_work_id renewed; wl_tenant_id := wl_tenant_id renewed;
           wl_token := wl_token renewed; wl_generation := wl_generation renewed;
           wl_owner := wl_owner renewed; wl_attempt := wl_attempt renewed;
           wl_acquired_at := wl_acquired_at renewed;
           wl_heartbeat_at := Dt.Aware heartbeat_at;
           wl_expires_at := Dt.Aware database_expiry |})
  | [] => raise (KeyError "heartbeat_times[0]")
  end.

Definition cancellation_requested (context : TenantContext) (work_id : uuid) : Db bool :=
  storage_guard (transaction (query (λ t,
    match t_work_items t !! (ctx_str context, work_id) with
    | Some r => bool_decide (wi_cancel_requested_at r ≠ None)
    | None => false
    end))).

Definition delivery_complete (context : TenantContext) (work_id : uuid) : Db bool :=
  storage_guard (transaction (query (λ t,
    match t_work_items t !! (ctx_str context, work_id) with
    | Some r => is_terminal (wi_status r)
    | None => false
    end))).

Definition request_cancel (context : TenantContext) (request : WorkRequest)
    (at_ : Dt.datetime) (actor_id : option string) : Db unit :=
  let! row := storage_guard (transaction (
    query (λ t, t_work_items t !! (wr_tenant_id request, wr_work_id request)))) in
  match row with
  | None => raise (ValueError "work request not found")
  | Some r =>
      let status := wi_status r in
      do! raise_if (is_terminal status) (ConcurrencyError 1 0) ;;
      let queued := bool_decide (status ∈ [REQUESTED; PUBLISHED; RETRY_WAIT]) in
      let! requested := new_event
        (transition WORK_CANCEL_REQUESTED at_
           (match actor_id with
            | Some a => [("requested_by"%string, PStr a)]
            | None => []
            end) None) request None in
      let! events :=
        if queued then
          let! cancelled := new_event (transition WORK_CANCELLED at_ [] None) request
                              (Some (event_id requested)) in
          ret [requested; cancelled]
        else ret [requested] in
      let! version := _current_version context (wr_work_id request) in
      do! append_atomic context events version
            (cancel_projection request status queued at_) [] ;;
      ret tt
  end.

Definition succeed (context : TenantContext) (delivery : QueueDelivery)
    (lease : WorkLease) (at_ : Dt.datetime) (result_reference : string) : Db unit :=
  let! request := lift (_request_from_delivery delivery) in
  _append_fenced context request
    (transition WORK_SUCCEEDED at_ [("result_reference"%string, PStr result_reference)]
       (Some lease)) lease
    (_complete_in_transaction lease at_ SUCCEEDED "succeeded").

Definition cancel (context : TenantContext) (delivery : QueueDelivery)
    (lease : WorkLease) (at_ : Dt.datetime) : Db unit :=
  let! request := lift (_request_from_delivery delivery) in
  _append_fenced context request (transition WORK_CANCELLED at_ [] (Some lease)) lease
    (_cancel_in_transaction lease at_).

(** [terminal] of [fail] *)
Definition fail_terminal (lease : WorkLease) (request : WorkRequest)
    (failure_class : FailureClass) (retry_at : option Dt.datetime) : bool :=
  negb (bool_decide (failure_class ∈ [RETRYABLE; TIMEOUT]))
  || bool_decide (retry_at = None)
  || (wr_max_attempts request <=? wl_attempt lease).

(** [update_projection] of [fail] *)
Definition fail_projection (lease : WorkLease) (at_ : Dt.datetime) (error_code : string)
    (retry_at : option Dt.datetime) (terminal : bool) : Db unit :=
  if terminal then _dead_letter_in_transaction lease at_ error_code
  else match retry_at with
       | Some retry_at =>
           _release_in_transaction lease at_ "retry_scheduled" retry_at true
       | None => raise AssertionError
       end.

Definition fail (context : TenantContext) (delivery : QueueDelivery) (lease : WorkLease)
    (at_ : Dt.datetime) (failure_class : FailureClass) (error_code : string)
    (retry_at : option Dt.datetime) : Db bool :=
  do! raise_if (negb (bounded_code error_code))
        (ValueError "bounded error_code is required") ;;
  let! request := lift (_request_from_delivery delivery) in
  let terminal := fail_terminal lease request failure_class retry_at in
  let! failed := new_event
    (transition WORK_FAILED at_
       [("failure_class", PStr (sc_value failure_class));
        ("error_code", PStr error_code)]%string (Some lease)) request None in
  let! second := new_event
    (transition (if terminal then WORK_DEAD_LETTERED else WORK_RETRY_SCHEDULED) at_
       (if terminal then [("reason_code"%string, PStr error_code)]
        else [("retry_at"%string,
               PStr (isoformat (default (Dt.Aware 0) retry_at)))]) (Some lease))
    request (Some (event_id failed)) in
  let! outbox :=
    if terminal then ret [] else
    match retry_at with
    | None => raise AssertionError
    | Some retry_at =>
        let! mid := uuid_factory in
        let! m := lift (OutboxMessage_post_init
          (mkOutboxMessage mid "aegis.work" (_request_payload request)
             (dict_of [("tenant_id"%string, PStr (wr_tenant_id request))])
             retry_at (wr_max_attempts request) (Some (event_id second)))) in
        ret [m]
    end in
  let! version := _current_version context (wr_work_id request) in
  do! append_fenced context [failed; second] version (wl_work_id lease) (wl_token lease)
        (wl_generation lease) at_ outbox
        (Some (fail_projection lease at_ error_code retry_at terminal)) ;;
  ret terminal.

Definition release (context : TenantContext) (lease : WorkLease) (at_ : Dt.datetime)
    (reason : string) (retry_at : Dt.datetime) : Db unit :=
  do! raise_if (negb (bounded_code reason))
        (ValueError "bounded release reason is required") ;;
  let! request := _load_request context (wl_work_id lease) in
  _append_fenced context request
    (transition WORK_RETRY_SCHEDULED at_
       [("retry_at", PStr (isoformat retry_at)); ("reason_code", PStr reason)]%string
       (Some lease)) lease
    (_release_in_transaction lease at_ reason retry_at false).

(** The [LATERAL] subquery of [reconcile_expired]: the work's latest published
  message. *)
Definition latest_published (tenant : string) (work : uuid) (t : Tables)
    : option (uuid * Z) :=
  foldr (λ kv acc,
    if bool_decide (kv.1.1 = tenant) && message_of_work work kv.2
       && bool_decide (ob_status kv.2 = OB_PUBLISHED) then
      match ob_published_at kv.2, acc with
      | Some p, Some (id, q) =>
          if (q <? p) || ((p =? q) && (id <? kv.1.2)%N) then Some (kv.1.2, p) else acc
      | Some p, None => Some (kv.1.2, p)
      | None, _ => acc
      end
    else acc) None (map_to_list (t_outbox t)).

Definition redrive_leb (a b : uuid * (uuid * Z)) : bool :=
  (a.2.2 <? b.2.2) || ((a.2.2 =? b.2.2) && (a.2.1 <=? b.2.1)%N).

Definition redrive_rows (tenant : string) (now limit : Z) (t : Tables)
    : list (uuid * (uuid * Z)) :=
  take (Z.to_nat limit) (py_sorted redrive_leb (omap (λ kv,
    if bool_decide (kv.1.1 = tenant) && status_in [REQUESTED; PUBLISHED; RETRY_WAIT] kv.2
       && negb (unreleased_lease t kv.1) then
      match latest_published tenant kv.1.2 t with
      | Some (mid, p) => if p <=? now - 5 * minute then Some (kv.1.2, (mid, p)) else None
      | None => None
      end
    else None) (map_to_list (t_work_items t)))).

Definition expired_leb (a b : (uuid * LeaseRow) * WorkItemRow) : bool :=
  (le_expires_at a.1.2 <? le_expires_at b.1.2)
  || ((le_expires_at a.1.2 =? le_expires_at b.1.2) && (a.1.1 <=? b.1.1)%N).

Definition expired_rows (tenant : string) (now limit : Z) (t : Tables)
    : list ((uuid * LeaseRow) * WorkItemRow) :=
  take (Z.to_nat limit) (py_sorted expired_leb (omap (λ kv,
    if bool_decide (kv.1.1 = tenant) && bool_decide (le_released_at kv.2 = None)
       && (le_expires_at kv.2 <=? now) then
      match t_work_items t !! kv.1 with
      | Some w => Some ((kv.1.2, kv.2), w)
      | None => None
      end
    else None) (map_to_list (t_work_leases t)))).

(** One round of the redrive loop; [true] when the work was redriven. *)
Definition redrive_one (context : TenantContext) (now : Dt.datetime)
    (work_id message_id : uuid) : Db bool :=
  let! request := _load_request context work_id in
  let! event := new_event
    (transition WORK_RECONCILED now
       [("outcome"%string, PStr "published_transport_redrive")] None) request None in
  let! version := _current_version context work_id in
  let! done := attempt except_ConcurrencyError
    (append_atomic context [event] version
       (redrive_projection context message_id work_id) []) in
  ret (is_some done).

Definition expired_outcome (cancelled exhausted : bool) : DomainEventType :=
  if cancelled then WORK_CANCELLED
  else if exhausted then WORK_DEAD_LETTERED else WORK_RECONCILED.

Definition outcome_details (cancelled exhausted : bool) : list (string * pyval) :=
  if cancelled then [("outcome", PStr "cancelled")]%string
  else if exhausted then [("outcome", PStr "dead_letter");
                          ("reason_code", PStr "lease_expired_after_max_attempts")]%string
  else [("outcome", PStr "retry_wait")]%string.

(** One round of the expiry loop. *)
Definition expire_one (context : TenantContext) (now : Dt.datetime) (work_id : uuid)
    (l : LeaseRow) (w : WorkItemRow) : Db bool :=
  let! lease := lift (WorkLease_post_init
    {| wl_work_id := work_id; wl_tenant_id := ctx_str context;
       wl_token := le_lease_token l; wl_generation := le_generation l;
       wl_owner := le_owner l; wl_attempt := wi_attempt_count w;
       wl_acquired_at := Dt.Aware (le_acquired_at l);
       wl_heartbeat_at := Dt.Aware (le_heartbeat_at l);
       wl_expires_at := Dt.Aware (le_expires_at l) |}) in
  let cancelled := bool_decide (wi_cancel_requested_at w ≠ None) in
  let exhausted := wi_max_attempts w <=? wi_attempt_count w in
  let! request := _load_request context work_id in
  let! expired := new_event
    (transition WORK_LEASE_EXPIRED now [("reason_code"%string, PStr "heartbeat_timeout")]
       (Some lease)) request None in
  let! outcome := new_event
    (transition (expired_outcome cancelled exhausted) now
       (outcome_details cancelled exhausted) (Some lease)) request
    (Some (event_id expired)) in
  let! version := _current_version context work_id in
  let! done := attempt except_ConcurrencyError
    (append_atomic context [expired; outcome] version
       (expire_projection lease now cancelled exhausted (wi_cancel_requested_at w)) []) in
  ret (is_some done).

(** [for row in rows: ... reconciled.append(work_id)] *)
Fixpoint collect {A} (rows : list A) (key : A → uuid) (round : A → Db bool)
    : Db (list uuid) :=
  match rows with
  | [] => ret []
  | row :: rest =>
      let! hit := round row in
      let! more := collect rest key round in
      ret (if hit then key row :: more else more)
  end.

Definition reconcile_expired (context : TenantContext) (now : Dt.datetime) (limit : Z)
    : Db (list uuid) :=
  do! raise_if (negb ((1 <=? limit) && (limit <=? 1000)))
        (ValueError "reconciliation limit must be between 1 and 1000") ;;
  let! rows := storage_guard (transaction (
    let! clock := clock_timestamp in
    let! redrives := query (redrive_rows (ctx_str context) clock limit) in
    let remaining := Z.max (limit - Z.of_nat (length redrives)) 0 in
    let! expired :=
      if 0 <? remaining
      then query (expired_rows (ctx_str context) (Dt.us now) remaining) else ret [] in
    ret (redrives, expired))) in
  let '(redrives, expired) := rows in
  let! first := collect redrives fst
    (λ row, redrive_one context now row.1 row.2.1) in
  let! second := collect expired (λ row, row.1.1)
    (λ row, expire_one context now row.1.1 row.1.2 row.2) in
  ret (first ++ second).

Definition cancel_by_id (context : TenantContext) (work_id : uuid) (at_ : Dt.datetime)
    (actor_id : string) : Db unit :=
  do! raise_if (PyStr.is_empty actor_id) (ValueError "actor_id is required") ;;
  let! request := _load_request context work_id in
  request_cancel context request at_ (Some actor_id).

Definition requeue_dead_letter (context : TenantContext) (work_id : uuid)
    (at_ : Dt.datetime) (approval : RequeueApproval) (actor_id : string) : Db unit :=
  let! request := _load_request context work_id in
  let! reconciled := new_event
    (transition WORK_RETRY_SCHEDULED at_
       [("retry_at", PStr (isoformat at_));
        ("reason_code", PStr "approved_dlq_requeue");
        ("approval_id", PStr (Uuid.to_str (ra_approval_id approval)))]%string None)
    request None in
  let! mid := uuid_factory in
  let! outbox := lift (OutboxMessage_post_init
    (mkOutboxMessage mid "aegis.work" (_request_payload request)
       (dict_of [("tenant_id", PStr (wr_tenant_id request));
                 ("schema_version", PInt 1)]%string)
       at_ (wr_max_attempts request) (Some (event_id reconciled)))) in
  let! version := _current_version context work_id in
  do! append_atomic context [reconciled] version
        (requeue_projection (wr_tenant_id request) work_id at_ approval actor_id)
        [outbox] ;;
  ret tt.

Definition approve_dead_letter_requeue (context : TenantContext) (work_id : uuid)
    (approval : RequeueApproval) (expires_at : Dt.datetime) : Db unit :=
  let! past := lift (Dt.le expires_at (ra_approved_at approval)) in
  do! raise_if past (ValueError "approval expiry must be after approval time") ;;
  let tenant := ctx_str context in
  let akey := (tenant, ra_approval_id approval) in
  storage_guard (transaction (
    let! t := query (λ t, t) in
    let eligible :=
      match t_dead_letters t !! (tenant, work_id), t_work_items t !! (tenant, work_id) with
      | Some _, Some w => status_in [DEAD_LETTER] w
      | _, _ => false
      end in
    do! raise_if (eligible && PyStr.is_empty (ra_approved_by approval)) violates ;;
    do! raise_if (negb (eligible && bool_decide (t_approvals t !! akey = None)))
          (ConcurrencyError 1 0) ;;
    execute (upd_approvals <[akey :=
      {| ap_work_id := work_id; ap_approved_by := ra_approved_by approval;
         ap_approved_at := Dt.us (ra_approved_at approval);
         ap_expires_at := Dt.us expires_at; ap_consumed_at := None;
         ap_consumed_by := None |}]>))).
End Operations.
