(* ===== verification/WorkLedger.v ===== *)
(** * The work projection refines the ledger

    The status column of [work_items] is a projection of the work's event
    stream.  This file states the refinement and the lease invariant (a work
    item is claimed or running exactly while its lease is unreleased), and
    shows that every transaction of the repository keeps both, from any
    state: so they hold under every interleaving of the transactions of
    concurrent workers, publishers, reconcilers and operators.

    The refinement has two parts, because the repository accepts two reports
    [next_status] has no edge for: success and terminal failure of an item
    that is claimed but not started.  [recorded] is [next_status] with these
    two edges, and replaying a stream with it always gives the stored status;
    [next_status] itself gives it for every stream without such a report.
    The events of the model gateway, on the same streams, are not events of
    the work's life cycle and are left out of the replay. *)

From stdpp Require Import base gmap sets list strings pretty.
From Stdlib Require Import ZArith Lia Sorted.
From S2P Require Import Prelude PyLib Json Events Identity Work Database EventStore.
From S2P Require Import Ledger.
From S2P Require Import LedgerReads LedgerAppend LedgerTheorems Wire WorkRepository.

Local Open Scope Z_scope.

(** ** The invariant *)

Definition row_kind (r : EventRow) : option DomainEventType :=
  match sc_new (er_event_type r) with inr t => Some t | inl _ => None end.

(** The events of a work item's life cycle; the others on its stream are the
    model gateway's. *)
Definition lifecycle (ty : DomainEventType) : bool :=
  PyStr.starts_with "work." (event_type_value ty).

Definition lifecycle_of (types : list DomainEventType) : list DomainEventType :=
  List.filter lifecycle types.

(** The life cycle on a work item's stream; [None] when an event of the
    stream is of an unknown type. *)
Definition history (t : Tables) (tenant : string) (work : uuid)
    : option (list DomainEventType) :=
  lifecycle_of <$> mapM row_kind (stream_rows tenant (Uuid.to_str work) (t_events t)).

(** ** What the repository records

    The early reports: of an item that is claimed and not started. *)
Definition early_edge (current : option WorkStatus) (ty : DomainEventType) : option WorkStatus :=
  match current, ty with
  | Some CLAIMED, WORK_SUCCEEDED => Some SUCCEEDED
  | Some CLAIMED, WORK_FAILED => Some FAILED
  | _, _ => None
  end.

Definition recorded (current : option WorkStatus) (ty : DomainEventType) : result WorkStatus :=
  match early_edge current ty with Some s => inr s | None => next_status current ty end.

Definition record (current : option WorkStatus) (h : list DomainEventType)
    : result (option WorkStatus) :=
  foldl (λ acc ev, let? c := acc in let? s := recorded c ev in inr (Some s)) (inr current) h.

(** A stream with an early report: the machine is at [CLAIMED] when it comes. *)
Definition early_report (h : list DomainEventType) : Prop :=
  ∃ h1 ev h2, h = h1 ++ ev :: h2 ∧ replay None h1 = inr (Some CLAIMED) ∧
    (ev = WORK_SUCCEEDED ∨ ev = WORK_FAILED).

Lemma record_snoc c h ev :
  record c (h ++ [ev]) = let? o := record c h in let? s := recorded o ev in inr (Some s).
Proof. unfold record. by rewrite foldl_app. Qed.

Lemma record_app c h1 h2 : record c (h1 ++ h2) = let? o := record c h1 in record o h2.
Proof.
  induction h2 as [|ev h2 IH] using rev_ind.
  - rewrite app_nil_r. by destruct (record c h1).
  - rewrite app_assoc, record_snoc, IH.
    destruct (record c h1) as [e|o]; [done|]. simpl. by rewrite record_snoc.
Qed.

Lemma early_edge_refused c ev s : early_edge c ev = Some s →
  c = Some CLAIMED ∧ (ev = WORK_SUCCEEDED ∨ ev = WORK_FAILED) ∧ next_status c ev = inl invalid_edge.
Proof. destruct c as [[]|], ev; intros [=]; vm_compute; auto. Qed.

(** The recorded edges contain those of the state machine. *)
Lemma recorded_of_next c ev s : next_status c ev = inr s → recorded c ev = inr s.
Proof.
  intros H. unfold recorded. destruct (early_edge c ev) eqn:He; [|done].
  apply early_edge_refused in He as (_ & _ & He). congruence.
Qed.

Lemma record_of_replay c h o : replay c h = inr o → record c h = inr o.
Proof.
  revert o. induction h as [|ev h IH] using rev_ind; intros o; [done|].
  rewrite replay_snoc, record_snoc. intros Hr. py_inv. rewrite (IH _ Hr0). simpl.
  by rewrite (recorded_of_next _ _ _ Hr1).
Qed.

(** A replay that is recorded is one of the state machine, or meets an early
    report. *)
Lemma record_early h o : record None h = inr o → replay None h = inr o ∨ early_report h.
Proof.
  revert o. induction h as [|ev h IH] using rev_ind; intros o; [by left|].
  rewrite record_snoc, replay_snoc. intros Hr. py_inv.
  destruct (IH _ Hr0) as [Hrep|(h1 & ev' & h2 & -> & H1 & H2)].
  - rewrite Hrep. simpl. unfold recorded in Hr1. destruct (early_edge a ev) as [s|] eqn:He.
    + right. apply early_edge_refused in He as (-> & Hev & _). by exists h, ev, [].
    + left. by rewrite Hr1.
  - right. exists h1, ev', (h2 ++ [ev]). by rewrite <- app_assoc.
Qed.

Lemma next_lifecycle c ev s : next_status c ev = inr s → lifecycle ev = true.
Proof. intros H%next_status_step. by destruct H. Qed.

Lemma record_lifecycle c h o : record c h = inr o → lifecycle_of h = h.
Proof.
  revert o. induction h as [|ev h IH] using rev_ind; intros o; [done|].
  rewrite record_snoc. intros Hr. py_inv. unfold lifecycle_of in *. rewrite List.filter_app, (IH _ Hr0).
  simpl. assert (lifecycle ev = true) as ->; [|done]. unfold recorded in Hr1.
  destruct (early_edge a ev) eqn:He; [|by eapply next_lifecycle].
  by apply early_edge_refused in He as (_ & [-> | ->] & _).
Qed.

Lemma recorded_absorbing s ev : s ∈ [SUCCEEDED; CANCELLED] → recorded (Some s) ev = inl invalid_edge.
Proof.
  intros Hs. unfold recorded. destruct (early_edge (Some s) ev) eqn:He; [|by apply absorbing_status].
  apply early_edge_refused in He as ([= ->] & _). by elem_cases.
Qed.

Lemma record_absorbing s h o :
  s ∈ [SUCCEEDED; CANCELLED] → record (Some s) h = inr o → h = [] ∧ o = Some s.
Proof.
  intros Hs. destruct h as [|ev h]; intros H; [by injection H as <-|].
  change (ev :: h) with ([ev] ++ h) in H. rewrite record_app in H. exfalso.
  unfold record at 1 in H. simpl in H. by rewrite recorded_absorbing in H.
Qed.

Definition status_of (t : Tables) (key : string * uuid) : option WorkStatus :=
  wi_status <$> t_work_items t !! key.

(** An unreleased lease. *)
Definition lease_active (t : Tables) (key : string * uuid) : Prop :=
  ∃ l, t_work_leases t !! key = Some l ∧ le_released_at l = None.

Definition executing (s : option WorkStatus) : Prop := s = Some CLAIMED ∨ s = Some RUNNING.

Definition refines (t : Tables) (key : string * uuid) : Prop :=
  ∃ h, history t key.1 key.2 = Some h ∧ record None h = inr (status_of t key).

Definition lease_consistent (t : Tables) (key : string * uuid) : Prop :=
  lease_active t key ↔ executing (status_of t key).

Record work_ok (t : Tables) : Prop := {
  wk_refines : ∀ key, Uuid.valid key.2 → refines t key;
  wk_leases : ∀ key, lease_consistent t key;
  wk_ids : ∀ key, is_Some (t_work_items t !! key) → Uuid.valid key.2;
}.

(** ** One transaction on one work item *)

(** Items and leases other than [key]'s are untouched. *)
Definition only_at (key : string * uuid) (t t' : Tables) : Prop :=
  ∀ k, k ≠ key →
    t_work_items t' !! k = t_work_items t !! k ∧ t_work_leases t' !! k = t_work_leases t !! k.

(** What a mutation committed with events of these types must do. *)
Definition moves (key : string * uuid) (types : list DomainEventType) (m : Db unit) : Prop :=
  ∀ w w', m w = (inr tt, w') → lease_consistent (w_db w) key →
    t_events (w_db w') = t_events (w_db w) ∧ only_at key (w_db w) (w_db w') ∧
    record (status_of (w_db w) key) types = inr (status_of (w_db w') key) ∧
    lease_consistent (w_db w') key.

(** Events of these types on the stream of [key]. *)
Definition events_for (key : string * uuid) (types : list DomainEventType)
    (events : list EventEnvelope) : Prop :=
  events ≠ [] ∧
  Forall2 (λ ty e, event_type e = event_type_value ty ∧ ev_tenant_id e = key.1 ∧
                   aggregate_id e = Uuid.to_str key.2) types events.

Lemma mapM_app {A B} (f : A → option B) l k l' k' :
  mapM f l = Some l' → mapM f k = Some k' → mapM f (l ++ k) = Some (l' ++ k').
Proof.
  intros Hl Hk. revert l' Hl. induction l as [|x l IH]; intros l' Hl; simpl in *.
  - by injection Hl as <-.
  - destruct (f x); simpl in *; [|done]. destruct (mapM f l); simpl in *; [|done].
    injection Hl as <-. by rewrite (IH _ eq_refl).
Qed.

Lemma new_rows_kinds key types events v p r :
  Forall2 (λ ty e, event_type e = event_type_value ty ∧ ev_tenant_id e = key.1 ∧
                   aggregate_id e = Uuid.to_str key.2) types events →
  mapM row_kind (new_rows events v p r) = Some types.
Proof.
  intros Hall. revert v p. induction Hall as [|ty e types events (Hty & _) _ IH];
    intros v p; [done|].
  assert (Hk : row_kind (_event_insert_values e (v + 1) (p + 1) r) = Some ty).
  { unfold row_kind. cbn [er_event_type _event_insert_values]. rewrite Hty.
    change (event_type_value ty) with (sc_value ty). by rewrite sc_new_value. }
  cbn [new_rows mapM]. rewrite Hk, IH. done.
Qed.

Lemma events_for_targets key types events :
  events_for key types events → targets key.1 (Uuid.to_str key.2) events.
Proof.
  intros [Hne Hall]. split; [done|]. clear Hne.
  induction Hall as [|ty e ? ? (_ & ? & ?) _ IH]; by constructor.
Qed.

Lemma record_split c h types s :
  record None h = inr c → record c types = inr s → record None (h ++ types) = inr s.
Proof. intros H1 H2. by rewrite record_app, H1. Qed.

Lemma history_append t t' key types events v p r key' :
  events_for key types events → Uuid.valid key.2 → Uuid.valid key'.2 →
  t_events t' = t_events t ++ new_rows events v p r →
  stream_rows key'.1 (Uuid.to_str key'.2) (t_events t') =
  stream_rows key'.1 (Uuid.to_str key'.2) (t_events t) ++
    (if bool_decide (key' = key) then new_rows events v p r else []).
Proof.
  intros Hev Hv Hv' ->. unfold stream_rows. rewrite List.filter_app. f_equal.
  fold (stream_rows key'.1 (Uuid.to_str key'.2) (new_rows events v p r)).
  apply events_for_targets in Hev as [_ Htgt].
  rewrite (stream_rows_new key.1 (Uuid.to_str key.2)) by done.
  destruct (decide (key' = key)) as [->|Hne]; [by rewrite !bool_decide_true|].
  rewrite !bool_decide_false; [done|done|]. intros Heq.
  apply pair_equal_spec in Heq as [Ht Hid]. apply Hne.
  destruct key as [t1 i1], key' as [t2 i2]. cbn [fst snd] in *. subst t2. f_equal.
  by apply Uuid.to_str_inj.
Qed.

Lemma refines_moved t t' key types events v p r :
  events_for key types events → Uuid.valid key.2 → work_ok t →
  t_events t' = t_events t ++ new_rows events v p r →
  only_at key t t' → record (status_of t key) types = inr (status_of t' key) →
  lease_consistent t' key → work_ok t'.
Proof.
  intros Hev Hv [Hr Hl Hi] Hevents Hother Hstatus Hlease.
  assert (Hsame : ∀ k, k ≠ key → status_of t' k = status_of t k)
    by (intros k Hk; unfold status_of; by rewrite (proj1 (Hother k Hk))).
  split.
  - intros k Hk. unfold refines, history.
    rewrite (history_append t t' key types events v p r k) by done.
    destruct (Hr k Hk) as (h & Hh & Hrep). unfold history in Hh.
    destruct (mapM row_kind (stream_rows _ _ _)) as [kinds|] eqn:Hkinds in Hh; [|done].
    injection Hh as <-. destruct (decide (k = key)) as [->|Hne].
    + rewrite bool_decide_true by done. exists (lifecycle_of kinds ++ types). split.
      * rewrite (mapM_app _ _ _ kinds types Hkinds); [|by apply (new_rows_kinds key), Hev].
        simpl. unfold lifecycle_of at 1. rewrite List.filter_app. fold (lifecycle_of types).
        by rewrite (record_lifecycle _ _ _ Hstatus).
      * by eapply record_split.
    + rewrite bool_decide_false by done. rewrite app_nil_r, Hsame by done.
      exists (lifecycle_of kinds). by rewrite Hkinds.
  - intros k. destruct (decide (k = key)) as [->|Hne]; [done|].
    unfold lease_consistent, lease_active. rewrite Hsame by done.
    destruct (Hother k Hne) as [_ ->]. apply Hl.
  - intros k Hk. destruct (decide (k = key)) as [->|Hne]; [done|].
    rewrite (proj1 (Hother k Hne)) in Hk. auto.
Qed.

(** Statuses only move along the state machine. *)
Definition evolves (t t' : Tables) : Prop :=
  ∀ key, ∃ types, record (status_of t key) types = inr (status_of t' key).

#[export] Instance evolves_preorder : PreOrder evolves.
Proof.
  split; [by intros t key; exists []|]. intros t1 t2 t3 H12 H23 key.
  destruct (H12 key) as [h1 H1], (H23 key) as [h2 H2]. exists (h1 ++ h2).
  by rewrite record_app, H1.
Qed.

Definition step_ok (t t' : Tables) : Prop := work_ok t → work_ok t' ∧ evolves t t'.

(** Nothing of a work item changed. *)
Definition quiet (t t' : Tables) : Prop :=
  t_events t' = t_events t ∧ t_work_items t' = t_work_items t ∧
  t_work_leases t' = t_work_leases t.

Lemma quiet_evolves t t' : quiet t t' → evolves t t'.
Proof. intros (_ & Hi & _) key. exists []. unfold status_of. by rewrite Hi. Qed.

Lemma quiet_work_ok t t' : quiet t t' → work_ok t → work_ok t'.
Proof.
  intros (He & Hi & Hl) [Hr Hc Hv].
  split; unfold refines, history, lease_consistent, lease_active, status_of in *;
    intros; rewrite ?He, ?Hi, ?Hl in *; auto.
Qed.

Lemma quiet_step_ok t t' : quiet t t' → step_ok t t'.
Proof. intros Hq Hok. split; [by eapply quiet_work_ok|by apply quiet_evolves]. Qed.

Lemma moved_evolves t t' key types :
  only_at key t t' → record (status_of t key) types = inr (status_of t' key) → evolves t t'.
Proof.
  intros Hother Hrep k. destruct (decide (k = key)) as [->|Hne]; [by exists types|].
  exists []. unfold status_of. by rewrite (proj1 (Hother k Hne)).
Qed.

#[export] Instance quiet_preorder : PreOrder quiet.
Proof.
  split; [by intros t|]. intros t1 t2 t3 (? & ? & ?) (? & ? & ?). split; [congruence|].
  split; congruence.
Qed.

(** ** Events that are not of the life cycle *)

Definition other_event (e : EventEnvelope) : Prop :=
  ∃ ty, event_type e = event_type_value ty ∧ lifecycle ty = false.

Lemma other_kinds f events v p r : Forall other_event events →
  ∃ kinds, mapM row_kind (List.filter f (new_rows events v p r)) = Some kinds ∧ lifecycle_of kinds = [].
Proof.
  intros Hall. revert v p. induction Hall as [|e events (ty & Hty & Hl) _ IH]; intros v p; [by exists []|].
  destruct (IH (v + 1) (p + 1)) as (kinds & Hk & Hnil). cbn [new_rows List.filter].
  destruct (f _); [|by exists kinds]. exists (ty :: kinds). split; [|unfold lifecycle_of; simpl; by rewrite Hl].
  assert (He : row_kind (_event_insert_values e (v + 1) (p + 1) r) = Some ty).
  { unfold row_kind. cbn [er_event_type _event_insert_values]. rewrite Hty.
    change (event_type_value ty) with (sc_value ty). by rewrite sc_new_value. }
  cbn [mapM]. by rewrite He, Hk.
Qed.

Lemma others_work_ok t t' events v p r :
  Forall other_event events → t_events t' = t_events t ++ new_rows events v p r →
  t_work_items t' = t_work_items t → t_work_leases t' = t_work_leases t → work_ok t → work_ok t'.
Proof.
  intros Hall He Hi Hl [Hr Hc Hv]. split.
  - intros key Hkey. destruct (Hr key Hkey) as (h & Hh & Hrep). exists h.
    unfold history in *. destruct (mapM row_kind (stream_rows _ _ _)) as [kinds|] eqn:Hk in Hh; [|done].
    injection Hh as <-. unfold status_of in *. rewrite Hi. split; [|done].
    unfold stream_rows in *. rewrite He, List.filter_app.
    match goal with |- context [List.filter ?f (new_rows _ _ _ _)] =>
      destruct (other_kinds f events v p r Hall) as (new & Hn & Hnil) end.
    rewrite (mapM_app _ _ _ kinds new Hk Hn). simpl. f_equal.
    unfold lifecycle_of in *. by rewrite List.filter_app, Hnil, app_nil_r.
  - intros key. unfold lease_consistent, lease_active, status_of in *. rewrite Hi, Hl. apply Hc.
  - intros key. rewrite Hi. apply Hv.
Qed.

(** Appending and then moving the projection, inside one transaction. *)
Lemma append_then_moves {A} key types events expected outbox m (k : Z → Db A) w r w' :
  events_for key types events → Uuid.valid key.2 → moves key types m →
  (∀ v w1 a w2, k v w1 = (inr a, w2) → quiet (w_db w1) (w_db w2)) →
  (let! v := _append_in_transaction events expected outbox in do! m ;; k v) w = (inr r, w') →
  step_ok (w_db w) (w_db w').
Proof.
  intros Hev Hv Hm Hk Hrun Hok.
  apply bind_ok in Hrun as (v & w1 & Happ & Hrun).
  apply bind_ok in Hrun as ([] & w2 & Hmut & Hrun).
  apply append_in_transaction_ok in Happ as (first & rest & Heq & _ & _ & _ & -> & _).
  apply Hk in Hrun.
  assert (Hl : lease_consistent (w_db w) key) by apply Hok.
  destruct (Hm _ _ Hmut Hl) as (He & Honly & Hrep & Hlease). split.
  - eapply quiet_work_ok; [exact Hrun|].
    eapply (refines_moved (w_db w)); [exact Hev|exact Hv|exact Hok| | | |exact Hlease].
    + rewrite He. reflexivity.
    + exact Honly.
    + exact Hrep.
  - transitivity (w_db w2); [by eapply moved_evolves|by apply quiet_evolves].
Qed.

(** A transaction that fails leaves the tables as they were. *)
Lemma transaction_work {A} (body : Db A) w r w' :
  (∀ w1 a w2, w_db w1 = w_db w → body w1 = (inr a, w2) →
     step_ok (w_db w1) (w_db w2)) →
  storage_guard (transaction body) w = (r, w') → step_ok (w_db w) (w_db w').
Proof.
  intros Hbody Hrun. destruct (body (started w)) as [[e|a] w1] eqn:Hb.
  - rewrite (transaction_raise _ _ _ _ Hb) in Hrun. injection Hrun as <- <-.
    by apply quiet_step_ok.
  - rewrite (transaction_run _ _ _ _ Hb) in Hrun. injection Hrun as <- <-.
    exact (Hbody (started w) _ _ eq_refl Hb).
Qed.

Lemma guard_work {A} (r : result unit) (k : Db A) w x w' :
  (k w = (x, w') → step_ok (w_db w) (w_db w')) →
  (do! lift r ;; k) w = (x, w') → step_ok (w_db w) (w_db w').
Proof.
  intros Hk. unfold bind, lift. destruct r; [|done].
  by intros [= <- <-]; apply quiet_step_ok.
Qed.

Lemma raise_guard_work {A} b e (k : Db A) w x w' :
  (k w = (x, w') → step_ok (w_db w) (w_db w')) →
  (do! raise_if b e ;; k) w = (x, w') → step_ok (w_db w) (w_db w').
Proof.
  intros Hk. unfold bind, raise_if. destruct b; [|done].
  by intros [= <- <-]; apply quiet_step_ok.
Qed.

Lemma ret_quiet {A} (f : Z → A) v w1 a w2 :
  ret (E := exn) (S := World) (f v) w1 = (inr a, w2) → quiet (w_db w1) (w_db w2).
Proof. by intros [= _ <-]. Qed.

Lemma append_atomic_moves context key types events expected m outbox w r w' :
  events_for key types events → Uuid.valid key.2 → moves key types m →
  append_atomic context events expected m outbox w = (r, w') →
  step_ok (w_db w) (w_db w').
Proof.
  intros Hev Hv Hm. apply guard_work, transaction_work. intros ? ? ? Hdb Hrun.
  eapply append_then_moves; [exact Hev|exact Hv|exact Hm| |exact Hrun].
  intros. by eapply (ret_quiet (λ v, v)).
Qed.

Lemma append_fenced_moves context key types events expected work token gen at_ outbox m
    w r w' :
  events_for key types events → Uuid.valid key.2 → moves key types m →
  append_fenced context events expected work token gen at_ outbox (Some m) w = (r, w') →
  step_ok (w_db w) (w_db w').
Proof.
  intros Hev Hv Hm. apply guard_work. do 3 apply raise_guard_work.
  apply transaction_work. intros w1 a w2 Hdb Hrun Hok.
  apply bind_ok in Hrun as (now & w3 & Hc & Hrun). unfold clock_timestamp in Hc.
  injection Hc as <- <-.
  apply bind_ok in Hrun as (l & w4 & Hq & Hrun). unfold query, gets in Hq.
  injection Hq as <- <-.
  apply bind_ok in Hrun as (u & w5 & Hf & Hrun). apply raise_if_ok in Hf as (_ & -> & _).
  eapply append_then_moves in Hrun;
    [exact (Hrun Hok)|exact Hev|exact Hv|exact Hm|].
  intros. by eapply (ret_quiet (λ v, v)).
Qed.

(** A fenced append of other events, with statements that leave the ledger,
    items and leases alone. *)
Lemma append_fenced_others context events expected work token gen at_ outbox m w r w' :
  Forall other_event events →
  (∀ m', m = Some m' → ∀ w u w', m' w = (inr u, w') → quiet (w_db w) (w_db w')) →
  append_fenced context events expected work token gen at_ outbox m w = (r, w') →
  step_ok (w_db w) (w_db w').
Proof.
  intros Hall Hm. apply guard_work. do 3 apply raise_guard_work.
  apply transaction_work. intros w1 a w2 Hdb Hrun Hok. db_inv.
  match goal with Ha : _append_in_transaction _ _ _ ?wa = (inr _, ?wb), Hmut : match m with _ => _ end ?wb = (inr _, ?wc) |- _ =>
    assert (Hq : quiet (w_db wb) (w_db wc))
      by (destruct m as [m|]; [by eapply Hm|unfold ret in Hmut; by injection Hmut as _ <-]);
    apply append_in_transaction_ok in Ha as (first & rest & _ & _ & _ & _ & -> & _);
    destruct Hq as (He & Hi & Hl); split;
    [eapply (others_work_ok (w_db w1)); [exact Hall|by rewrite He|by rewrite Hi|by rewrite Hl|exact Hok]
    |intros key; exists []; unfold status_of; by rewrite Hi] end.
Qed.

Lemma append_from_inbox_moves context key types source mid events expected outbox m w r w' :
  events_for key types events → Uuid.valid key.2 → moves key types m →
  append_from_inbox context source mid events expected outbox (Some m) w = (r, w') →
  step_ok (w_db w) (w_db w').
Proof.
  intros Hev Hv Hm. apply raise_guard_work, guard_work, transaction_work.
  intros w1 a w2 Hdb Hrun Hok. db_inv.
  destruct (t_inbox (w_db w1) !! _) as [[v|]|]; db_inv; [by apply quiet_step_ok|].
  match goal with Ha : _append_in_transaction _ _ _ ?wa = (inr ?v, _),
    Hmut : m _ = (inr ?u, ?wd) |- _ => destruct u;
    apply (append_then_moves key types events expected outbox
      (do! execute (upd_inbox <[(ctx_str context, source, mid) := Some v]>) ;; m)
      (λ v, ret v) wa v wd); [done|done| | |..] end.
  - intros x x' Hx Hl. db_inv. exact (Hm _ _ Hx Hl).
  - intros. by eapply (ret_quiet (λ v, v)).
  - erewrite bind_run by eassumption. erewrite bind_run; [reflexivity|].
    erewrite bind_run by reflexivity. eassumption.
  - by apply (quiet_work_ok (w_db w1)).
Qed.

(** ** The mutations *)

(** A table with one entry replaced. *)
Lemma only_at_items key f t : only_at key t (upd_work_items <[key := f]> t).
Proof. intros k Hk. simpl. by rewrite lookup_insert_ne. Qed.

Lemma only_at_leases key f t : only_at key t (upd_work_leases <[key := f]> t).
Proof. intros k Hk. simpl. by rewrite lookup_insert_ne. Qed.

Lemma only_at_trans key t1 t2 t3 : only_at key t1 t2 → only_at key t2 t3 → only_at key t1 t3.
Proof.
  intros H1 H2 k Hk. destruct (H1 k Hk) as [<- <-]. by apply H2.
Qed.

Lemma update_item_ok key guard f miss w u w' :
  update_item key guard f miss w = (inr u, w') →
  ∃ r, t_work_items (w_db w) !! key = Some r ∧ guard r = true ∧
       w' = set_db (upd_work_items <[key := f r]>) w.
Proof.
  unfold update_item. intros H. db_inv.
  destruct (t_work_items (w_db w) !! key) as [r|]; [|by db_inv].
  destruct (guard r) eqn:Hg; [|by db_inv]. db_inv. eauto.
Qed.

Lemma update_lease_ok key guard f miss w u w' :
  update_lease key guard f miss w = (inr u, w') →
  ∃ r, t_work_leases (w_db w) !! key = Some r ∧ guard r = true ∧
       w' = set_db (upd_work_leases <[key := f r]>) w.
Proof.
  unfold update_lease. intros H. db_inv.
  destruct (t_work_leases (w_db w) !! key) as [r|]; [|by db_inv].
  destruct (guard r) eqn:Hg; [|by db_inv]. db_inv. eauto.
Qed.

Lemma status_in_spec l r : status_in l r = true ↔ wi_status r ∈ l.
Proof. unfold status_in. apply bool_decide_eq_true. Qed.

(** The history and the lease of a key after an update of its item only,
    between statuses that need a lease alike. *)
Lemma item_moves key types guard f miss :
  (∀ r, guard r = true →
     record (Some (wi_status r)) types = inr (Some (wi_status (f r))) ∧
     (executing (Some (wi_status (f r))) ↔ executing (Some (wi_status r)))) →
  moves key types (update_item key guard f miss).
Proof.
  intros Hf w w' Hrun Hlc. apply update_item_ok in Hrun as (r & Hr & Hg & ->).
  destruct (Hf r Hg) as [Hrep Hex]. simpl.
  split; [done|]. split; [apply only_at_items|].
  unfold lease_consistent, lease_active, status_of in *. simpl. rewrite lookup_insert_eq.
  rewrite Hr in *. simpl in *. split; [done|]. by rewrite Hex.
Qed.

(** Releasing the lease and leaving the executing statuses. *)
Lemma release_moves lease types lguard lf guard f miss :
  (∀ l, le_released_at (lf l) ≠ None) →
  (∀ r, guard r = true →
     record (Some (wi_status r)) types = inr (Some (wi_status (f r))) ∧
     ¬ executing (Some (wi_status (f r)))) →
  moves (lease_key lease) types (
    do! update_lease (lease_key lease) lguard lf miss ;;
    update_item (lease_key lease) guard f miss).
Proof.
  intros Hlf Hf w w' Hrun Hlc. apply bind_ok in Hrun as ([] & w1 & H1 & H2).
  apply update_lease_ok in H1 as (l & Hl & Hlg & ->).
  apply update_item_ok in H2 as (r & Hr & Hg & ->). simpl in Hr.
  destruct (Hf r Hg) as [Hrep Hex].
  split; [done|]. split.
  { eapply only_at_trans; [apply only_at_leases|apply only_at_items]. }
  unfold lease_consistent, lease_active, status_of. simpl.
  rewrite !lookup_insert_eq, Hr. simpl. split; [done|].
  split; [intros (l' & [= <-] & Hn); by destruct (Hlf l)|done].
Qed.

Ltac not_executing := intros [[=]|[=]].

Lemma status_cases_moves (statuses : list WorkStatus) types s :
  Forall (λ c, record (Some c) types = inr (Some s)) statuses →
  ∀ r, status_in statuses r = true → record (Some (wi_status r)) types = inr (Some s).
Proof.
  intros Hall r Hr. apply status_in_spec in Hr. by eapply Forall_forall in Hall.
Qed.

(** A projection step that leaves the claimed and running statuses. *)
Ltac leave_executing :=
  apply release_moves; [done|]; intros r Hg; bool_props;
  split; [eapply status_cases_moves; [|eassumption]; repeat constructor; reflexivity
         |not_executing].

Lemma release_in_transaction_moves lease at_ reason retry_at :
  moves (lease_key lease) [WORK_RETRY_SCHEDULED]
    (_release_in_transaction lease at_ reason retry_at false).
Proof. leave_executing. Qed.

Lemma fail_retry_moves lease at_ reason retry_at :
  moves (lease_key lease) [WORK_FAILED; WORK_RETRY_SCHEDULED]
    (_release_in_transaction lease at_ reason retry_at true).
Proof. leave_executing. Qed.

Lemma cancel_in_transaction_moves lease at_ :
  moves (lease_key lease) [WORK_CANCELLED] (_cancel_in_transaction lease at_).
Proof. leave_executing. Qed.

(** Completion is recorded from any executing status. *)
Lemma complete_in_transaction_moves lease at_ status reason types :
  record (Some CLAIMED) types = inr (Some status) → record (Some RUNNING) types = inr (Some status) →
  ¬ executing (Some status) →
  moves (lease_key lease) types (_complete_in_transaction lease at_ status reason).
Proof.
  intros Hc Hr Hex. apply release_moves; [done|]. intros r Hg. bool_props.
  apply status_in_spec in H. elem_cases; match goal with Hs : wi_status r = _ |- _ => rewrite Hs end; done.
Qed.

(** Statements after a move that leave items, leases and events alone. *)
Lemma moves_then key types (m k : Db unit) :
  moves key types m →
  (∀ w u w', k w = (inr u, w') → quiet (w_db w) (w_db w')) →
  moves key types (do! m ;; k).
Proof.
  intros Hm Hk w w' Hrun Hl. apply bind_ok in Hrun as ([] & w1 & H1 & H2).
  destruct (Hm _ _ H1 Hl) as (He & Ho & Hr & Hlc). apply Hk in H2 as (He' & Hi' & Hl').
  unfold only_at, lease_consistent, lease_active, status_of in *.
  rewrite He', Hi', Hl'. done.
Qed.

Lemma record_dead_letter_quiet lease at_ reason w u w' :
  record_dead_letter lease at_ reason w = (inr u, w') → quiet (w_db w) (w_db w').
Proof. unfold record_dead_letter. intros H. by db_inv. Qed.

(** An update of columns other than the status. *)
Lemma moves_then_touch key types (m k : Db unit) f :
  (∀ r, wi_status (f r) = wi_status r) →
  moves key types (do! m ;; k) →
  (∀ g w, k (set_db (upd_work_items g) w) =
     (let '(r, w') := k w in (r, set_db (upd_work_items g) w'))) →
  (∀ w u w', k w = (inr u, w') → quiet (w_db w) (w_db w')) →
  moves key types (do! m ;; do! touch_item key f ;; k).
Proof.
  intros Hf Hm Hcomm Hk w w' Hrun Hl.
  apply bind_ok in Hrun as ([] & w1 & H1 & H2). unfold touch_item in H2.
  apply bind_ok in H2 as ([] & w2 & H2 & H3). unfold execute, modify in H2.
  injection H2 as <-. rewrite Hcomm in H3. destruct (k w1) as [[e|u] w3] eqn:H4; [done|].
  injection H3 as -> <-.
  destruct (Hm w w3) as (He & Ho & Hr & Hlc); [by erewrite bind_run|done|].
  unfold only_at, lease_consistent, lease_active, status_of in *. simpl.
  rewrite lookup_alter_eq. split; [done|]. split.
  - intros k' Hk'. rewrite lookup_alter_ne by done. by apply Ho.
  - destruct (t_work_items (w_db w3) !! key); simpl in *; by rewrite ?Hf.
Qed.

Lemma dead_letter_moves lease at_ reason :
  moves (lease_key lease) [WORK_FAILED; WORK_DEAD_LETTERED]
    (_dead_letter_in_transaction lease at_ reason).
Proof.
  apply moves_then_touch; [done| | |apply record_dead_letter_quiet].
  - apply moves_then; [|apply record_dead_letter_quiet].
    apply complete_in_transaction_moves; [done|done|not_executing].
  - intros g w. unfold record_dead_letter, bind, raise_if, execute, modify.
    by destruct (_ || _).
Qed.

Lemma fail_projection_moves lease at_ code retry_at (terminal : bool) :
  moves (lease_key lease)
    [WORK_FAILED; if terminal then WORK_DEAD_LETTERED else WORK_RETRY_SCHEDULED]
    (fail_projection lease at_ code retry_at terminal).
Proof.
  unfold fail_projection. destruct terminal.
  - apply dead_letter_moves.
  - destruct retry_at as [retry_at|]; [|by intros w w' Hrun; db_inv].
    apply fail_retry_moves.
Qed.

(** An item that does not exist has no active lease. *)
Lemma insert_work_moves request id :
  moves (wr_tenant_id request, wr_work_id request) [WORK_REQUESTED] (insert_work request id).
Proof.
  intros w w' Hrun Hl. unfold insert_work in Hrun. db_inv. bool_props.
  assert (Hnone : t_work_items (w_db w) !! (wr_tenant_id request, wr_work_id request) = None)
    by by apply dec_stable.
  unfold lease_consistent, lease_active, status_of in *. simpl in *.
  rewrite lookup_insert_eq. rewrite Hnone in *. simpl in *.
  split; [done|]. split; [apply only_at_items|]. split; [done|].
  split; [|by not_executing]. intros Hact. apply Hl in Hact as [[=]|[=]].
Qed.

Ltac status_by_cases :=
  intros r Hg; bool_props;
  match goal with H : status_in _ r = true |- _ => apply status_in_spec in H end;
  elem_cases; match goal with H : wi_status r = _ |- _ => rewrite H end;
  (split; [reflexivity|unfold executing; naive_solver]).

Lemma mark_projection_moves request :
  moves (wr_tenant_id request, wr_work_id request) [WORK_PUBLISHED]
    (mark_projection request).
Proof. apply item_moves. status_by_cases. Qed.

Lemma mark_started_moves request lease :
  moves (wr_tenant_id request, wr_work_id request) [WORK_STARTED]
    (mark_started request lease).
Proof. apply item_moves. status_by_cases. Qed.

Definition queued_status (s : WorkStatus) : bool :=
  bool_decide (s ∈ [REQUESTED; PUBLISHED; RETRY_WAIT]).

Lemma cancel_projection_moves request status at_ :
  is_terminal status = false →
  moves (wr_tenant_id request, wr_work_id request)
    (WORK_CANCEL_REQUESTED :: if queued_status status then [WORK_CANCELLED] else [])
    (cancel_projection request status (queued_status status) at_).
Proof.
  intros Hterm. apply item_moves. intros r Hg. apply status_in_spec in Hg.
  elem_cases. revert Hterm. unfold queued_status. cbn [wi_status item_set].
  destruct (wi_status r); intros Hterm; vm_compute in Hterm; try discriminate Hterm;
    (split; [reflexivity|unfold executing; simpl; naive_solver]).
Qed.

Lemma upsert_lease_ok tenant work token gen owner acquired expires w u w' :
  upsert_lease tenant work token gen owner acquired expires w = (inr u, w') →
  ∃ l, le_lease_token l = token ∧ le_generation l = gen ∧ le_owner l = owner ∧
    le_acquired_at l = acquired ∧ le_expires_at l = expires ∧ le_released_at l = None ∧
    (∀ old, t_work_leases (w_db w) !! (tenant, work) = Some old →
       le_generation old = gen - 1) ∧
    w' = set_db (upd_work_leases <[(tenant, work) := l]>) w.
Proof.
  unfold upsert_lease. intros H. db_inv.
  exists (mkLeaseRow token gen owner acquired acquired expires None None).
  do 6 (split; [reflexivity|]).
  split; [|reflexivity]. intros old Hold. rewrite Hold in *. by bool_props.
Qed.

Lemma claim_projection_ok request token gen att owner dur limit w u w' :
  claim_projection request token gen att owner dur limit w = (inr u, w') →
  let key := (wr_tenant_id request, wr_work_id request) in
  active_count (wr_tenant_id request) (w_db w) < limit ∧
  ∃ r l, t_work_items (w_db w) !! key = Some r ∧
    wi_attempt_count r = att - 1 ∧ wi_status r ∈ [PUBLISHED; RETRY_WAIT] ∧
    wi_cancel_requested_at r = None ∧
    le_lease_token l = token ∧ le_generation l = gen ∧ le_owner l = owner ∧
    le_released_at l = None ∧
    (∀ old, t_work_leases (w_db w) !! key = Some old → le_generation old = gen - 1) ∧
    w_cell w' = w_cell w ++ [(le_acquired_at l, le_acquired_at l + dur)] ∧
    le_expires_at l = le_acquired_at l + dur ∧
    w_db w' = upd_work_leases <[key := l]> (upd_work_items
      <[key := item_set r CLAIMED (wi_available_at r) att (wi_cancel_requested_at r)
                 (wi_completed_at r) (wi_last_error_code r)]>
      (upd_commit_locks (λ l, {[wr_tenant_id request]} ∪ l) (w_db w))).
Proof.
  unfold claim_projection. intros H. cbv zeta. db_inv. bool_props. split; [done|].
  match goal with Hu : update_item _ _ _ _ _ = _ |- _ =>
    apply update_item_ok in Hu as (r & Hr & Hg' & ->) end.
  match goal with Hu : upsert_lease _ _ _ _ _ _ _ _ = _ |- _ =>
    apply upsert_lease_ok in Hu as (l & ? & ? & ? & Hacq & Hexp & ? & Hold & ->) end.
  bool_props. simpl in *. exists r, l. rewrite Hexp, Hacq.
  unfold not_cancelling in *. bool_props.
  repeat match goal with |- _ ∧ _ => split end; try done.
  by apply status_in_spec.
Qed.

Lemma claim_projection_moves request token gen att owner dur limit :
  moves (wr_tenant_id request, wr_work_id request) [WORK_CLAIMED]
    (claim_projection request token gen att owner dur limit).
Proof.
  intros w w' Hrun Hl.
  apply claim_projection_ok in Hrun
    as (_ & r & l & Hr & _ & Hs & _ & _ & _ & _ & Hrel & _ & _ & _ & Hdb).
  rewrite Hdb. split; [done|]. split.
  { intros k Hk. simpl. by rewrite !lookup_insert_ne by done. }
  unfold lease_consistent, lease_active, status_of, executing. simpl.
  rewrite !lookup_insert_eq, Hr. simpl. split.
  - elem_cases; match goal with H : wi_status r = _ |- _ => rewrite H end; reflexivity.
  - split; [by left|]. intros _. by exists l.
Qed.

(** A heartbeat is legal because an active lease means an executing item. *)
Lemma renew_lease_moves lease ext :
  moves (lease_key lease) [WORK_HEARTBEAT] (renew_lease lease ext).
Proof.
  intros w w' Hrun Hl. unfold renew_lease in Hrun. db_inv.
  match goal with Hu : update_lease _ _ _ _ _ = _ |- _ =>
    apply update_lease_ok in Hu as (l & Hrow & Hg & ->) end.
  unfold lease_held in Hg. bool_props. simpl in *.
  split; [done|]. split; [apply only_at_leases|].
  unfold lease_consistent, lease_active, status_of in *. simpl in *.
  rewrite lookup_insert_eq, Hrow in *.
  assert (Hex : executing (wi_status <$> t_work_items (w_db w) !! lease_key lease))
    by (apply Hl; by exists l).
  split; [by destruct Hex as [-> | ->]|]. split; [done|]. intros _. by eexists.
Qed.

Lemma redrive_projection_moves context mid work :
  moves (ctx_str context, work) [WORK_RECONCILED] (redrive_projection context mid work).
Proof.
  intros w w' Hrun Hl. unfold redrive_projection in Hrun. db_inv.
  destruct (t_outbox (w_db w) !! _) as [o|]; [|by db_inv].
  destruct (t_work_items (w_db w) !! _) as [r|] eqn:Hr; [|by db_inv].
  destruct (_ && _) eqn:Hg in Hrun; db_inv. bool_props.
  split; [done|]. split; [done|]. split; [|done].
  unfold status_of. simpl. rewrite Hr. simpl.
  match goal with H : status_in _ r = true |- _ => apply status_in_spec in H end.
  elem_cases; match goal with H : wi_status r = _ |- _ => rewrite H end; reflexivity.
Qed.

Lemma moves_after_query {A} key types (f : Tables → A) (k : A → Db unit) :
  (∀ a, moves key types (k a)) → moves key types (bind (query f) k).
Proof. intros Hk w w' Hrun. db_inv. by apply Hk in Hrun. Qed.

Lemma moves_after_clock key types (k : Z → Db unit) :
  (∀ a, moves key types (k a)) → moves key types (bind clock_timestamp k).
Proof. intros Hk w w' Hrun. db_inv. by apply Hk in Hrun. Qed.

Lemma moves_after_check key types b e (k : Db unit) :
  moves key types k → moves key types (do! raise_if b e ;; k).
Proof. intros Hk w w' Hrun. db_inv. by apply Hk in Hrun. Qed.

Lemma bind_assoc_run {A B C} (m : Db A) (f : A → Db B) (g : B → Db C) w :
  bind (bind m f) g w = bind m (λ a, bind (f a) g) w.
Proof. unfold bind. by destruct (m w) as [[e|a] w1]. Qed.

Lemma moves_ext key types (m m' : Db unit) :
  (∀ w, m w = m' w) → moves key types m → moves key types m'.
Proof. intros Heq Hm w w' Hrun. rewrite <- Heq in Hrun. by apply Hm. Qed.

Lemma dead_letter_expired_moves lease at_ reason :
  moves (lease_key lease) [WORK_LEASE_EXPIRED; WORK_DEAD_LETTERED]
    (_dead_letter_expired_in_transaction lease at_ reason).
Proof.
  apply moves_after_clock. intros now.
  eapply moves_ext; [intros w; apply bind_assoc_run|].
  apply moves_then; [leave_executing|apply record_dead_letter_quiet].
Qed.

Lemma expire_projection_moves lease now cancelled exhausted expected :
  moves (lease_key lease) [WORK_LEASE_EXPIRED; expired_outcome cancelled exhausted]
    (expire_projection lease now cancelled exhausted expected).
Proof.
  apply moves_after_query. intros row. apply moves_after_check. unfold expired_outcome.
  destruct cancelled, exhausted; cbn [negb andb];
    first [apply dead_letter_expired_moves
          |apply moves_after_clock; intros clock; leave_executing].
Qed.

Lemma requeue_projection_moves tenant work at_ approval actor :
  moves (tenant, work) [WORK_RETRY_SCHEDULED]
    (requeue_projection tenant work at_ approval actor).
Proof.
  apply moves_after_clock. intros now. apply moves_after_query. intros row.
  apply moves_after_check. apply moves_then.
  - apply item_moves. status_by_cases.
  - intros w u w' H. db_inv. done.
Qed.
