(* ===== verification/WorkTheorems.v ===== *)
(** * Theorems about the work repository

    The transactions of the repository as a step relation, the operations as
    chains of those transactions, and what holds in every reachable state:
    the status column refines the ledger, leases and statuses agree, claims
    respect the tenant's concurrency limit and the attempt bound, a replaced
    lease is fenced off, and a dead letter returns only with an approval. *)

From stdpp Require Import base gmap sets list strings pretty.
From Stdlib Require Import ZArith Lia Sorted.
From S2P Require Import Prelude PyLib Json Events Identity Work Database EventStore.
From S2P Require Import Ledger.
From S2P Require Import LedgerReads LedgerAppend LedgerTheorems Outbox Wire WorkRepository.
From S2P Require Import WorkLedger.

Local Open Scope Z_scope.

(** ** Transactions *)

(** An event [WorkTransition.to_event] built for a request. *)
Definition built (request : WorkRequest) (ty : DomainEventType) (lease : option WorkLease)
    (e : EventEnvelope) : Prop :=
  ∃ at_ details id causation,
    transition_event (transition ty at_ details lease) request id causation = inr e.

Definition request_key (request : WorkRequest) : string * uuid :=
  (wr_tenant_id request, wr_work_id request).

(** Statements that leave the ledger, items and leases alone, and the rows of
    other tenants. *)
Definition quiet_statements (context : TenantContext) (m : Db unit) : Prop :=
  isolated context m ∧ ∀ w u w', m w = (inr u, w') → quiet (w_db w) (w_db w').

(** One transaction in the context of a tenant, committed or rolled back,
    with whatever version, lease and times the caller brought: of the work
    repository, of the model gateway (which appends events of its own to the
    stream of the work), or one that leaves events, items and leases alone (a
    read, an outbox settlement, an approval). *)
Inductive tenant_txn (context : TenantContext) : World → World → Prop :=
| txn_quiet w w' : quiet (w_db w) (w_db w') → others_same context (w_db w) (w_db w') →
    tenant_txn context w w'
| txn_model events v work token gen at_ outbox m w r w' :
    Forall other_event events → (∀ m', m = Some m' → quiet_statements context m') →
    append_fenced context events v work token gen at_ outbox m w = (r, w') → tenant_txn context w w'
| txn_register request id e v outbox w r w' :
    Uuid.valid (wr_work_id request) → built request WORK_REQUESTED None e →
    append_atomic context [e] v (insert_work request id) outbox w = (r, w') → tenant_txn context w w'
| txn_publish source mid request e v outbox w r w' :
    Uuid.valid (wr_work_id request) → built request WORK_PUBLISHED None e →
    append_from_inbox context source mid [e] v outbox (Some (mark_projection request)) w
    = (r, w') → tenant_txn context w w'
| txn_claim request lease e v token gen att owner dur limit w r w' :
    Uuid.valid (wr_work_id request) → built request WORK_CLAIMED lease e →
    append_atomic context [e] v (claim_projection request token gen att owner dur limit) [] w
    = (r, w') → tenant_txn context w w'
| txn_start request lease e v at_ w r w' :
    Uuid.valid (wr_work_id request) → built request WORK_STARTED (Some lease) e →
    append_fenced context [e] v (wl_work_id lease) (wl_token lease) (wl_generation lease) at_
      [] (Some (mark_started request lease)) w = (r, w') → tenant_txn context w w'
| txn_heartbeat request lease renewed e v at_ ext w r w' :
    Uuid.valid (wr_work_id request) → built request WORK_HEARTBEAT (Some renewed) e →
    lease_key renewed = lease_key lease →
    append_fenced context [e] v (wl_work_id renewed) (wl_token renewed)
      (wl_generation renewed) at_ [] (Some (renew_lease lease ext)) w = (r, w') →
    tenant_txn context w w'
| txn_succeed request lease e v at_ w r w' :
    Uuid.valid (wr_work_id request) → built request WORK_SUCCEEDED (Some lease) e →
    append_fenced context [e] v (wl_work_id lease) (wl_token lease) (wl_generation lease) at_
      [] (Some (_complete_in_transaction lease at_ SUCCEEDED "succeeded")) w = (r, w') →
    tenant_txn context w w'
| txn_cancel request lease e v at_ w r w' :
    Uuid.valid (wr_work_id request) → built request WORK_CANCELLED (Some lease) e →
    append_fenced context [e] v (wl_work_id lease) (wl_token lease) (wl_generation lease) at_
      [] (Some (_cancel_in_transaction lease at_)) w = (r, w') → tenant_txn context w w'
| txn_fail request lease e1 e2 v at_ outbox code retry_at (terminal : bool) w r w' :
    Uuid.valid (wr_work_id request) → built request WORK_FAILED (Some lease) e1 →
    built request (if terminal then WORK_DEAD_LETTERED else WORK_RETRY_SCHEDULED)
      (Some lease) e2 →
    append_fenced context [e1; e2] v (wl_work_id lease) (wl_token lease)
      (wl_generation lease) at_ outbox
      (Some (fail_projection lease at_ code retry_at terminal)) w = (r, w') →
    tenant_txn context w w'
| txn_release request lease e v at_ reason retry_at w r w' :
    Uuid.valid (wr_work_id request) → built request WORK_RETRY_SCHEDULED (Some lease) e →
    append_fenced context [e] v (wl_work_id lease) (wl_token lease) (wl_generation lease) at_
      [] (Some (_release_in_transaction lease at_ reason retry_at false)) w = (r, w') →
    tenant_txn context w w'
| txn_request_cancel request status events v at_ w r w' :
    Uuid.valid (wr_work_id request) → is_terminal status = false →
    Forall2 (λ ty e, built request ty None e)
      (WORK_CANCEL_REQUESTED :: if queued_status status then [WORK_CANCELLED] else [])
      events →
    append_atomic context events v
      (cancel_projection request status (queued_status status) at_) [] w = (r, w') →
    tenant_txn context w w'
| txn_redrive request mid e v w r w' :
    Uuid.valid (wr_work_id request) → built request WORK_RECONCILED None e →
    wr_tenant_id request = ctx_str context →
    append_atomic context [e] v (redrive_projection context mid (wr_work_id request)) [] w
    = (r, w') → tenant_txn context w w'
| txn_expire request lease e1 e2 v now cancelled exhausted expected w r w' :
    Uuid.valid (wr_work_id request) → built request WORK_LEASE_EXPIRED (Some lease) e1 →
    built request (expired_outcome cancelled exhausted) (Some lease) e2 →
    append_atomic context [e1; e2] v
      (expire_projection lease now cancelled exhausted expected) [] w = (r, w') →
    tenant_txn context w w'
| txn_requeue request e v at_ approval actor outbox w r w' :
    Uuid.valid (wr_work_id request) → built request WORK_RETRY_SCHEDULED None e →
    append_atomic context [e] v
      (requeue_projection (wr_tenant_id request) (wr_work_id request) at_ approval actor)
      outbox w = (r, w') → tenant_txn context w w'.

(** A transaction of any tenant, or a change of other tables only (the passing
    of time among them). *)
Inductive work_txn : World → World → Prop :=
| any_quiet w w' : quiet (w_db w) (w_db w') → work_txn w w'
| any_tenant context w w' : tenant_txn context w w' → work_txn w w'.

Lemma built_inv request ty lease e :
  built request ty lease e →
  event_type e = event_type_value ty ∧ ev_tenant_id e = (request_key request).1 ∧
  aggregate_id e = Uuid.to_str (request_key request).2 ∧ lease_matches lease request.
Proof.
  intros (at_ & details & id & c & H). by apply transition_event_inv in H as (d & _ & -> & Hl & _).
Qed.

Lemma built_all request types events :
  types ≠ [] → Forall2 (λ ty e, ∃ lease, built request ty lease e) types events →
  events_for (request_key request) types events.
Proof.
  intros Hne Hall. split; [by intros ->; inversion Hall; subst|]. clear Hne.
  induction Hall as [|ty e ? ? [l Hb] _ IH]; constructor; [|done].
  apply built_inv in Hb as (? & ? & ? & _). done.
Qed.

Lemma built_one request ty lease e :
  built request ty lease e → events_for (request_key request) [ty] [e].
Proof. intros H. apply built_all; [done|]. constructor; [by exists lease|constructor]. Qed.

Lemma built_two request ty1 ty2 l1 l2 e1 e2 :
  built request ty1 l1 e1 → built request ty2 l2 e2 →
  events_for (request_key request) [ty1; ty2] [e1; e2].
Proof.
  intros H1 H2. apply built_all; [done|].
  constructor; [by exists l1|]. constructor; [by exists l2|constructor].
Qed.

Lemma built_lease request ty lease e :
  built request ty (Some lease) e → lease_key lease = request_key request.
Proof.
  intros H. apply built_inv in H as (_ & _ & _ & Hl). destruct (Hl lease eq_refl) as [H1 H2].
  unfold lease_key, request_key. congruence.
Qed.

Lemma tenant_txn_ok context w w' : tenant_txn context w w' → step_ok (w_db w) (w_db w').
Proof.
  destruct 1 as
    [ ? ? Hq _
    | events v work token gen at_ outbox m w r w' Hev Hm Hrun
    | request id e v outbox w r w' Hv Hb Hrun
    | source mid request e v outbox w r w' Hv Hb Hrun
    | request lease e v token gen att owner dur limit w r w' Hv Hb Hrun
    | request lease e v at_ w r w' Hv Hb Hrun
    | request lease renewed e v at_ ext w r w' Hv Hb Hkey Hrun
    | request lease e v at_ w r w' Hv Hb Hrun
    | request lease e v at_ w r w' Hv Hb Hrun
    | request lease e1 e2 v at_ outbox code retry_at terminal w r w' Hv Hb1 Hb2 Hrun
    | request lease e v at_ reason retry_at w r w' Hv Hb Hrun
    | request status events v at_ w r w' Hv Hterm Hb Hrun
    | request mid e v w r w' Hv Hb Hten Hrun
    | request lease e1 e2 v now cancelled exhausted expected w r w' Hv Hb1 Hb2 Hrun
    | request e v at_ approval actor outbox w r w' Hv Hb Hrun ].
  - by apply quiet_step_ok.
  - eapply append_fenced_others; [exact Hev| |exact Hrun]. intros m' Hm'. by apply Hm.
  - exact (append_atomic_moves _ _ _ _ _ _ _ _ _ _ (built_one _ _ _ _ Hb) Hv
             (insert_work_moves request id) Hrun).
  - exact (append_from_inbox_moves _ _ _ _ _ _ _ _ _ _ _ _ (built_one _ _ _ _ Hb) Hv
             (mark_projection_moves request) Hrun).
  - exact (append_atomic_moves _ _ _ _ _ _ _ _ _ _ (built_one _ _ _ _ Hb) Hv
             (claim_projection_moves _ _ _ _ _ _ _) Hrun).
  - exact (append_fenced_moves _ _ _ _ _ _ _ _ _ _ _ _ _ _ (built_one _ _ _ _ Hb) Hv
             (mark_started_moves request lease) Hrun).
  - pose proof (renew_lease_moves lease ext) as Hm.
    rewrite <- Hkey, (built_lease _ _ _ _ Hb) in Hm.
    exact (append_fenced_moves _ _ _ _ _ _ _ _ _ _ _ _ _ _ (built_one _ _ _ _ Hb) Hv
             Hm Hrun).
  - pose proof (complete_in_transaction_moves lease at_ SUCCEEDED "succeeded" [WORK_SUCCEEDED]
                  eq_refl eq_refl ltac:(not_executing)) as Hm.
    rewrite (built_lease _ _ _ _ Hb) in Hm.
    exact (append_fenced_moves _ _ _ _ _ _ _ _ _ _ _ _ _ _ (built_one _ _ _ _ Hb) Hv
             Hm Hrun).
  - pose proof (cancel_in_transaction_moves lease at_) as Hm.
    rewrite (built_lease _ _ _ _ Hb) in Hm.
    exact (append_fenced_moves _ _ _ _ _ _ _ _ _ _ _ _ _ _ (built_one _ _ _ _ Hb) Hv
             Hm Hrun).
  - pose proof (fail_projection_moves lease at_ code retry_at terminal) as Hm.
    rewrite (built_lease _ _ _ _ Hb1) in Hm.
    exact (append_fenced_moves _ _ _ _ _ _ _ _ _ _ _ _ _ _
             (built_two _ _ _ _ _ _ _ Hb1 Hb2) Hv Hm Hrun).
  - pose proof (release_in_transaction_moves lease at_ reason retry_at) as Hm.
    rewrite (built_lease _ _ _ _ Hb) in Hm.
    exact (append_fenced_moves _ _ _ _ _ _ _ _ _ _ _ _ _ _ (built_one _ _ _ _ Hb) Hv
             Hm Hrun).
  - refine (append_atomic_moves _ _ _ _ _ _ _ _ _ _ (built_all request _ _ _ _) Hv
             (cancel_projection_moves request status at_ Hterm) Hrun); [done|].
    eapply Forall2_impl; [exact Hb|]. intros ty e He. by exists None.
  - pose proof (redrive_projection_moves context mid (wr_work_id request)) as Hm.
    rewrite <- Hten in Hm.
    exact (append_atomic_moves _ _ _ _ _ _ _ _ _ _ (built_one _ _ _ _ Hb) Hv Hm Hrun).
  - pose proof (expire_projection_moves lease now cancelled exhausted expected) as Hm.
    rewrite (built_lease _ _ _ _ Hb1) in Hm.
    exact (append_atomic_moves _ _ _ _ _ _ _ _ _ _ (built_two _ _ _ _ _ _ _ Hb1 Hb2) Hv
             Hm Hrun).
  - exact (append_atomic_moves _ _ _ _ _ _ _ _ _ _ (built_one _ _ _ _ Hb) Hv
             (requeue_projection_moves _ _ _ _ _) Hrun).
Qed.

Lemma work_txn_ok w w' : work_txn w w' → step_ok (w_db w) (w_db w').
Proof. destruct 1 as [? ? Hq|? ? ? Ht]; [by apply quiet_step_ok|by eapply tenant_txn_ok]. Qed.

Lemma tenant_txns context w w' : rtc (tenant_txn context) w w' → rtc work_txn w w'.
Proof. apply rtc_subrel. intros x y. apply any_tenant. Qed.

(** ** Operations are chains of transactions *)

(** [m] leaves the tables alone, and its result satisfies [Q]. *)
Definition reads {A} (Q : A → Prop) (m : Db A) : Prop :=
  ∀ w r w', m w = (r, w') → w_db w' = w_db w ∧ ∀ a, r = inr a → Q a.

Lemma same_txn context w w' : w_db w' = w_db w → tenant_txn context w w'.
Proof. intros H. apply txn_quiet; by rewrite H. Qed.

(** From tables that satisfy [J], [m] runs transactions of the tenant. *)
Definition chain {A} (context : TenantContext) (J : Tables → Prop) (m : Db A) : Prop :=
  ∀ w r w', J (w_db w) → m w = (r, w') → rtc (tenant_txn context) w w'.

Section Chains.
Context (context : TenantContext) (J : Tables → Prop).

Lemma chain_reads {A B} (Q : A → Prop) (m : Db A) (k : A → Db B) :
  reads Q m → (∀ a, Q a → chain context J (k a)) → chain context J (bind m k).
Proof.
  intros Hm Hk w r w' Hw Hrun. unfold bind in Hrun.
  destruct (m w) as [[e|a] w1] eqn:H1; destruct (Hm _ _ _ H1) as [Hq HQ].
  - injection Hrun as <- <-. by apply rtc_once, same_txn.
  - eapply rtc_l; [by apply same_txn|]. eapply Hk; [by apply HQ|by rewrite Hq|exact Hrun].
Qed.

Lemma chain_end {A B} (m : Db A) (k : A → Db B) :
  chain context J m → (∀ a, reads (λ _, True) (k a)) → chain context J (bind m k).
Proof.
  intros Hm Hk w r w' Hw Hrun. unfold bind in Hrun.
  destruct (m w) as [[e|a] w1] eqn:H1.
  - injection Hrun as <- <-. by eapply Hm.
  - eapply rtc_r; [by eapply Hm|]. apply same_txn. by destruct (Hk _ _ _ _ Hrun).
Qed.

Lemma chain_of_reads {A} (Q : A → Prop) (m : Db A) : reads Q m → chain context J m.
Proof. intros Hm w r w' _ Hrun. apply rtc_once, same_txn. by destruct (Hm _ _ _ Hrun). Qed.

Lemma chain_txn {A} (m : Db A) :
  (∀ w r w', J (w_db w) → m w = (r, w') → tenant_txn context w w') → chain context J m.
Proof. intros Hm w r w' Hw Hrun. by eapply rtc_once, Hm. Qed.
End Chains.

Lemma reads_ret {A} (Q : A → Prop) a : Q a → reads Q (ret a).
Proof. intros HQ w r w' [= <- <-]. split; [done|]. by intros ? [= <-]. Qed.

Lemma reads_raise {A} (Q : A → Prop) e : reads Q (raise e).
Proof. intros w r w' [= <- <-]. done. Qed.

Lemma reads_lift {A} (x : result A) : reads (λ a, x = inr a) (lift x).
Proof. intros w r w' [= <- <-]. done. Qed.

Lemma reads_raise_if b e : reads (λ _, b = false) (raise_if b e).
Proof. intros w r w'. unfold raise_if. destruct b; by intros [= <- <-]. Qed.

Lemma reads_gets {A} (f : World → A) : reads (λ _, True) (gets f).
Proof. by intros w r w' [= <- <-]. Qed.

Lemma reads_uuid : reads (λ _, True) uuid_factory.
Proof. by intros w r w' [= <- <-]. Qed.

Lemma reads_cell f : reads (λ _, True) (set_cell f).
Proof. by intros w r w' [= <- <-]. Qed.

Lemma reads_query {A} (f : Tables → A) :
  reads (λ _, True) (storage_guard (transaction (query f))).
Proof. intros w r w' Hrun. vm_compute in Hrun. by injection Hrun as <- <-. Qed.

Lemma reads_bind {A B} (Q : A → Prop) (R : B → Prop) (m : Db A) (k : A → Db B) :
  reads Q m → (∀ a, Q a → reads R (k a)) → reads R (bind m k).
Proof.
  intros Hm Hk w r w' Hrun. unfold bind in Hrun.
  destruct (m w) as [[e|a] w1] eqn:H1; destruct (Hm _ _ _ H1) as [Hq HQ].
  - by injection Hrun as <- <-.
  - destruct (Hk a (HQ _ eq_refl) _ _ _ Hrun) as [Hq' HR].
    split; [congruence|done].
Qed.

Lemma reads_current_version context id : reads (λ _, True) (_current_version context id).
Proof. apply reads_query. Qed.

Lemma request_of_row_inv tenant id r q :
  request_of_row tenant id r = inr q → request_key q = (tenant, id).
Proof. unfold request_of_row, WorkRequest_post_init. intros H. by py_inv. Qed.

Lemma reads_load_request context id :
  reads (λ q, request_key q = (ctx_str context, id)) (_load_request context id).
Proof.
  eapply reads_bind; [apply reads_query|]. intros [row|] _; [|apply reads_raise].
  intros w r w' [= <- <-]. split; [done|]. intros q Hq. by eapply request_of_row_inv.
Qed.

Lemma reads_new_event ty at_ details lease request causation :
  reads (built request ty lease) (new_event (transition ty at_ details lease) request causation).
Proof.
  unfold new_event. eapply reads_bind; [apply reads_lift|]. intros t Ht.
  eapply reads_bind; [apply reads_uuid|]. intros id _.
  intros w r w' [= <- <-]. split; [done|]. intros e He.
  exists at_, details, id, causation. unfold transition_event. by rewrite Ht.
Qed.

Section Verified.
Context `{PyRepr}.

Lemma request_from_delivery_inv delivery q :
  _request_from_delivery delivery = inr q →
  request_key q = (me_tenant_id (qd_envelope delivery), me_work_id (qd_envelope delivery)).
Proof.
  unfold _request_from_delivery. intros Hq.
  destruct (default _ _); try discriminate Hq;
    match type of Hq with match ?b with _ => _ end = _ => destruct b as [e|q'] eqn:Hb end;
    try (by destruct e); injection Hq as <-; py_inv;
    match goal with Hw : WorkRequest_post_init _ = _ |- _ =>
      unfold WorkRequest_post_init in Hw end; by py_inv.
Qed.

Lemma reads_verify_delivery context delivery :
  reads (λ q, request_key q = (ctx_str context, me_work_id (qd_envelope delivery)))
    (_verify_delivery context delivery).
Proof.
  unfold _verify_delivery. eapply reads_bind; [apply reads_lift|]. intros s _.
  eapply reads_bind; [apply reads_lift|]. intros _ _.
  eapply reads_bind; [apply reads_query|]. intros [[i o]|] _; [|apply reads_raise].
  eapply reads_bind; [apply reads_lift|]. intros q Hq.
  eapply reads_bind; [apply reads_raise_if|]. intros _ _. apply reads_ret.
  by apply request_of_row_inv in Hq.
Qed.
End Verified.

(** Running the reading prefix of an operation. *)
Tactic Notation "read_by" uconstr(lem) :=
  eapply chain_reads; [apply lem|].

Section OperationChains.
Context `{PyRepr}.

Abbreviation always := (λ _ : Tables, True).

Lemma chain_attempt {A} context J handled (m : Db A) : chain context J m → chain context J (attempt handled m).
Proof.
  intros Hm w r w' Hw. unfold attempt, catch, bind.
  destruct (m w) as [[e|a] w1] eqn:H1; [|intros [= <- <-]; by eapply Hm].
  destruct (handled e); intros [= <- <-]; by eapply Hm.
Qed.

Lemma register_chain context request id mid :
  Uuid.valid (wr_work_id request) → chain context always (register context request id mid).
Proof.
  intros Hv. unfold register. read_by reads_lift. intros _ _.
  read_by reads_lift. intros env _. read_by reads_lift. intros _ _.
  read_by reads_lift. intros e He. read_by reads_lift. intros o _.
  apply chain_txn. intros w r w' _ Hrun. eapply txn_register; [exact Hv| |exact Hrun].
  do 4 eexists. exact He.
Qed.

Lemma mark_published_chain context delivery at_ :
  Uuid.valid (me_work_id (qd_envelope delivery)) →
  chain context always (mark_published context delivery at_).
Proof.
  intros Hv. unfold mark_published. read_by reads_verify_delivery. intros q Hq.
  read_by reads_current_version. intros v _. read_by reads_new_event. intros e He.
  apply chain_end; [|intros; by apply reads_ret].
  apply chain_txn. intros w r w' _ Hrun. eapply txn_publish; [|exact He|exact Hrun].
  by injection Hq as _ ->.
Qed.

Lemma claim_chain context delivery owner now expires limit :
  Uuid.valid (me_work_id (qd_envelope delivery)) →
  chain context always (claim context delivery owner now expires limit).
Proof.
  intros Hv. unfold claim. read_by reads_raise_if. intros _ _. read_by reads_lift.
  intros past _. read_by reads_raise_if. intros _ _. read_by reads_lift. intros dur _.
  read_by reads_raise_if. intros _ _. read_by reads_verify_delivery. intros q Hq.
  read_by reads_lift. intros _ _.
  destruct (limit =? 0); [eapply chain_of_reads; by apply (reads_ret (λ _, True))|].
  read_by reads_uuid. intros token _. read_by (reads_query (A := option (Z * Z))).
  intros [[att gen]|] _; [|eapply chain_of_reads; by apply (reads_ret (λ _, True))].
  read_by reads_lift. intros lease _. read_by reads_cell. intros _ _.
  read_by reads_current_version. intros v _. read_by reads_new_event. intros e He.
  apply chain_end.
  - apply chain_attempt, chain_txn. intros w r w' _ Hrun.
    eapply txn_claim; [|exact He|exact Hrun]. by injection Hq as _ ->.
  - intros [z|]; [|by apply reads_ret].
    eapply reads_bind; [apply reads_gets|]. intros [|[a x] ?] _; [apply reads_raise|].
    eapply reads_bind; [apply reads_lift|]. intros; by apply reads_ret.
Qed.

(** The fenced operations share their shape. *)
Lemma append_fenced_chain context request ty at_ details lease m :
  (∀ e v w r w', built request ty (Some lease) e →
     append_fenced context [e] v (wl_work_id lease) (wl_token lease) (wl_generation lease)
       at_ [] (Some m) w = (r, w') → tenant_txn context w w') →
  chain context always (_append_fenced context request (transition ty at_ details (Some lease)) lease m).
Proof.
  intros Htxn. unfold _append_fenced. read_by reads_lift. intros t Ht.
  read_by reads_current_version. intros v _. read_by reads_uuid. intros id _.
  read_by reads_lift. intros e He.
  assert (Hb : built request ty (Some lease) e).
  { exists at_, details, id, None. unfold transition_event. by rewrite Ht. }
  assert (Hat : wt_occurred_at t = at_).
  { unfold WorkTransition_post_init in Ht. by py_inv. }
  rewrite Hat. apply chain_end; [|intros; by apply reads_ret].
  apply chain_txn. intros w r w' _ Hrun. by eapply Htxn.
Qed.

Lemma delivered_valid delivery q :
  Uuid.valid (me_work_id (qd_envelope delivery)) →
  _request_from_delivery delivery = inr q → Uuid.valid (wr_work_id q).
Proof. intros Hv Hq. apply request_from_delivery_inv in Hq. by injection Hq as _ ->. Qed.

Lemma start_chain context delivery lease at_ :
  Uuid.valid (me_work_id (qd_envelope delivery)) →
  chain context always (start context delivery lease at_).
Proof.
  intros Hv. unfold start. read_by reads_lift. intros q Hq.
  apply append_fenced_chain. intros e v w r w' Hb Hrun.
  eapply txn_start; [exact (delivered_valid _ _ Hv Hq)|exact Hb|exact Hrun].
Qed.

Lemma post_init_lease l l' : WorkLease_post_init l = inr l' → l' = l.
Proof. unfold WorkLease_post_init. intros Hl. by py_inv. Qed.

Lemma heartbeat_chain context delivery lease at_ expires :
  Uuid.valid (me_work_id (qd_envelope delivery)) →
  chain context always (heartbeat context delivery lease at_ expires).
Proof.
  intros Hv. unfold heartbeat. read_by reads_lift. intros past _.
  read_by reads_raise_if. intros _ _. read_by reads_lift. intros ext _.
  read_by reads_raise_if. intros _ _. read_by reads_cell. intros _ _.
  read_by reads_lift. intros renewed Hr. apply post_init_lease in Hr.
  read_by reads_lift. intros q Hq. apply chain_end.
  - apply append_fenced_chain. intros e v w r w' Hb Hrun.
    eapply txn_heartbeat; [exact (delivered_valid _ _ Hv Hq)|exact Hb| |exact Hrun].
    by rewrite Hr.
  - intros _. eapply reads_bind; [apply reads_gets|]. intros [|[a x] ?] _; [apply reads_raise|].
    intros w r w' [= <- <-]. done.
Qed.

Lemma succeed_chain context delivery lease at_ reference :
  Uuid.valid (me_work_id (qd_envelope delivery)) →
  chain context always (succeed context delivery lease at_ reference).
Proof.
  intros Hv. unfold succeed. read_by reads_lift. intros q Hq.
  apply append_fenced_chain. intros e v w r w' Hb Hrun.
  eapply txn_succeed; [exact (delivered_valid _ _ Hv Hq)|exact Hb|exact Hrun].
Qed.

Lemma cancel_chain context delivery lease at_ :
  Uuid.valid (me_work_id (qd_envelope delivery)) →
  chain context always (cancel context delivery lease at_).
Proof.
  intros Hv. unfold cancel. read_by reads_lift. intros q Hq.
  apply append_fenced_chain. intros e v w r w' Hb Hrun.
  eapply txn_cancel; [exact (delivered_valid _ _ Hv Hq)|exact Hb|exact Hrun].
Qed.

Lemma fail_chain context delivery lease at_ class code retry_at :
  Uuid.valid (me_work_id (qd_envelope delivery)) →
  chain context always (fail context delivery lease at_ class code retry_at).
Proof.
  intros Hv. unfold fail. read_by reads_raise_if. intros _ _.
  read_by reads_lift. intros q Hq. read_by reads_new_event. intros e1 He1.
  read_by reads_new_event. intros e2 He2.
  eapply (chain_reads _ _ (λ _, True)).
  { destruct (fail_terminal _ _ _ _); [by apply reads_ret|].
    destruct retry_at; [|apply reads_raise]. eapply reads_bind; [apply reads_uuid|].
    intros mid _. eapply reads_bind; [apply reads_lift|]. intros; by apply reads_ret. }
  intros outbox _. read_by reads_current_version. intros v _.
  apply chain_end; [|intros; by apply reads_ret].
  apply chain_txn. intros w r w' _ Hrun.
  eapply txn_fail; [exact (delivered_valid _ _ Hv Hq)|exact He1|exact He2|exact Hrun].
Qed.

Lemma release_chain context lease at_ reason retry_at :
  Uuid.valid (wl_work_id lease) → chain context always (release context lease at_ reason retry_at).
Proof.
  intros Hv. unfold release. read_by reads_raise_if. intros _ _.
  read_by reads_load_request. intros q Hq.
  apply append_fenced_chain. intros e v w r w' Hb Hrun.
  eapply txn_release; [|exact Hb|exact Hrun]. by injection Hq as _ ->.
Qed.

Lemma request_cancel_chain context request at_ actor :
  Uuid.valid (wr_work_id request) → chain context always (request_cancel context request at_ actor).
Proof.
  intros Hv. unfold request_cancel. read_by (reads_query (A := option WorkItemRow)).
  intros [row|] _; [|eapply chain_of_reads; apply (reads_raise (λ _, True))].
  read_by reads_raise_if. intros u Hterm. cbn beta in Hterm. read_by reads_new_event. intros e1 He1.
  fold (queued_status (wi_status row)).
  eapply (chain_reads _ _ (λ events, Forall2 (λ ty e, built request ty None e)
    (WORK_CANCEL_REQUESTED :: if queued_status (wi_status row) then [WORK_CANCELLED] else [])
    events)).
  { destruct (queued_status (wi_status row)).
    - eapply reads_bind; [apply reads_new_event|]. intros e2 He2. apply reads_ret.
      by repeat constructor.
    - apply reads_ret. by repeat constructor. }
  intros events Hev. read_by reads_current_version. intros v _.
  apply chain_end; [|intros; by apply reads_ret].
  apply chain_txn. intros w r w' _ Hrun. by eapply txn_request_cancel.
Qed.

Lemma chain_then {A B} context (m : Db A) (k : A → Db B) :
  chain context always m → (∀ a, chain context always (k a)) → chain context always (bind m k).
Proof.
  intros Hm Hk w r w' _ Hrun. unfold bind in Hrun.
  destruct (m w) as [[e|a] w1] eqn:H1; [injection Hrun as <- <-; by eapply Hm|].
  etrans; [by eapply Hm|by eapply Hk].
Qed.

Lemma collect_chain {A} context (rows : list A) key round :
  (∀ row, row ∈ rows → chain context always (round row)) →
  chain context always (collect rows key round).
Proof.
  induction rows as [|row rows IH]; intros Hr; simpl.
  - apply chain_of_reads with (Q := λ _, True). by apply reads_ret.
  - apply chain_then; [apply Hr; left|]. intros hit.
    apply chain_then; [apply IH; intros; apply Hr; by right|]. intros more.
    apply chain_of_reads with (Q := λ _, True). by apply reads_ret.
Qed.

Lemma redrive_one_chain context now work mid :
  Uuid.valid work → chain context always (redrive_one context now work mid).
Proof.
  intros Hv. unfold redrive_one. read_by reads_load_request. intros q Hq.
  injection Hq as Hten Hid.
  read_by reads_new_event. intros e He. read_by reads_current_version. intros v _.
  apply chain_end; [|intros; by apply reads_ret].
  apply chain_attempt, chain_txn. intros w r w' _ Hrun. rewrite <- Hid in Hrun.
  eapply txn_redrive; [by rewrite Hid|exact He|exact Hten|exact Hrun].
Qed.

Lemma expire_one_chain context now work l i :
  Uuid.valid work → chain context always (expire_one context now work l i).
Proof.
  intros Hv. unfold expire_one. read_by reads_lift. intros lease _.
  read_by reads_load_request. intros q Hq. injection Hq as Hten Hid.
  read_by reads_new_event. intros e1 He1. read_by reads_new_event. intros e2 He2.
  read_by reads_current_version. intros v _.
  apply chain_end; [|intros; by apply reads_ret].
  apply chain_attempt, chain_txn. intros w r w' _ Hrun.
  eapply txn_expire; [by rewrite Hid|exact He1|exact He2|exact Hrun].
Qed.

Lemma elem_of_page {A} (leb : A → A → bool) n l x : x ∈ take n (py_sorted leb l) → x ∈ l.
Proof.
  intros Hx. apply elem_of_take in Hx as (i & Hx & _). apply list_elem_of_lookup_2 in Hx.
  by apply py_sorted_elem in Hx.
Qed.

Lemma redrive_rows_known tenant now limit t row :
  row ∈ redrive_rows tenant now limit t → is_Some (t_work_items t !! (tenant, row.1)).
Proof.
  intros Hrow. apply elem_of_page in Hrow.
  apply list_elem_of_omap in Hrow as ([[tn id] item] & Hin & Hf). simpl in Hf.
  apply elem_of_map_to_list in Hin.
  destruct (_ && _) eqn:Hg in Hf; [|done]. bool_props. subst tn.
  destruct (latest_published _ _ _) as [[mid p]|]; [|done].
  destruct (_ <=? _); [|done]. injection Hf as <-. simpl. by eexists.
Qed.

Lemma expired_rows_known tenant now limit t row :
  row ∈ expired_rows tenant now limit t → is_Some (t_work_items t !! (tenant, row.1.1)).
Proof.
  intros Hrow. apply elem_of_page in Hrow.
  apply list_elem_of_omap in Hrow as ([[tn id] lease] & Hin & Hf). simpl in Hf.
  destruct (_ && _) eqn:Hg in Hf; [|done]. bool_props. subst tn.
  destruct (t_work_items t !! _) eqn:Hi; [|done]. injection Hf as <-. simpl. by eexists.
Qed.

(** The page of work [reconcile_expired] reads, and nothing is written yet. *)
Lemma reconcile_read context now limit w r w1 :
  storage_guard (transaction (
    let! clock := clock_timestamp in
    let! redrives := query (redrive_rows (ctx_str context) clock limit) in
    let remaining := Z.max (limit - Z.of_nat (length redrives)) 0 in
    let! expired :=
      if 0 <? remaining
      then query (expired_rows (ctx_str context) now remaining) else ret [] in
    ret (redrives, expired))) w = (r, w1) →
  w_db w1 = w_db w ∧
  ∃ redrives expired, r = inr (redrives, expired) ∧
    (∀ row, row ∈ redrives → is_Some (t_work_items (w_db w) !! (ctx_str context, row.1))) ∧
    (∀ row, row ∈ expired → is_Some (t_work_items (w_db w) !! (ctx_str context, row.1.1))).
Proof.
  intros Hrun.
  match type of Hrun with storage_guard (transaction ?b) _ = _ => set (body := b) in Hrun end.
  assert (Hb : ∃ redrives expired w2, body (started w) = (inr (redrives, expired), w2) ∧
    w_db w2 = w_db w ∧
    (∀ row, row ∈ redrives → is_Some (t_work_items (w_db w) !! (ctx_str context, row.1))) ∧
    (∀ row, row ∈ expired → is_Some (t_work_items (w_db w) !! (ctx_str context, row.1.1)))).
  { unfold body. py_go. py_go. cbv zeta. destruct (0 <? _).
    - py_go. do 3 eexists. split; [reflexivity|]. split; [done|]. split; intros row Hrow.
      + by eapply redrive_rows_known.
      + by eapply expired_rows_known.
    - py_go. do 3 eexists. split; [reflexivity|]. split; [done|]. split; intros row Hrow.
      + by eapply redrive_rows_known.
      + by apply not_elem_of_nil in Hrow. }
  destruct Hb as (redrives & expired & w2 & Hb & Hdb & H1 & H2).
  rewrite (transaction_run _ _ _ _ Hb) in Hrun. injection Hrun as <- <-.
  split; [done|]. by exists redrives, expired.
Qed.

(** The identifiers of the items are UUIDs, as the type of the column says. *)
Definition ids_valid (t : Tables) : Prop :=
  ∀ key, is_Some (t_work_items t !! key) → Uuid.valid key.2.

Lemma reconcile_chain context now limit :
  chain context ids_valid (reconcile_expired context now limit).
Proof.
  unfold reconcile_expired. read_by reads_raise_if.
  intros _ _ w r w' Hids Hrun. unfold bind at 1 in Hrun.
  destruct (storage_guard _ w) as [r1 w1] eqn:Hread in Hrun.
  apply reconcile_read in Hread as (Hq & redrives & expired & -> & H1 & H2).
  assert (Hvalid : ∀ id, is_Some (t_work_items (w_db w) !! (ctx_str context, id)) →
    Uuid.valid id) by (intros id Hid; by apply Hids in Hid).
  eapply rtc_l; [by apply same_txn|].
  revert Hrun. apply (chain_then (A := list uuid)); [| |done].
  - apply collect_chain. intros row Hrow. apply redrive_one_chain. auto.
  - intros first. apply chain_then.
    + apply collect_chain. intros row Hrow. apply expire_one_chain. auto.
    + intros second. apply chain_of_reads with (Q := λ _, True). by apply reads_ret.
Qed.

Lemma cancel_by_id_chain context work at_ actor :
  Uuid.valid work → chain context always (cancel_by_id context work at_ actor).
Proof.
  intros Hv. unfold cancel_by_id. read_by reads_raise_if. intros _ _.
  read_by reads_load_request. intros q Hq. apply request_cancel_chain.
  by injection Hq as _ ->.
Qed.

Lemma requeue_chain context work at_ approval actor :
  Uuid.valid work → chain context always (requeue_dead_letter context work at_ approval actor).
Proof.
  intros Hv. unfold requeue_dead_letter. read_by reads_load_request. intros q Hq.
  injection Hq as Hten Hid. read_by reads_new_event. intros e He.
  read_by reads_uuid. intros mid _. read_by reads_lift. intros o _.
  read_by reads_current_version. intros v _.
  apply chain_end; [|intros; by apply reads_ret].
  apply chain_txn. intros w r w' _ Hrun. rewrite <- Hid in Hrun.
  eapply txn_requeue; [by rewrite Hid|exact He|exact Hrun].
Qed.

Lemma approve_chain context work approval expires :
  chain context always (approve_dead_letter_requeue context work approval expires).
Proof.
  unfold approve_dead_letter_requeue. read_by reads_lift. intros past _.
  read_by reads_raise_if. intros _ _ w r w' _ Hrun. apply rtc_once, txn_quiet.
  - match type of Hrun with storage_guard (transaction ?b) _ = _ =>
      destruct (b (started w)) as [[e|a] w1] eqn:Hb end.
    + rewrite (transaction_raise _ _ _ _ Hb) in Hrun. by injection Hrun as <- <-.
    + rewrite (transaction_run _ _ _ _ Hb) in Hrun. injection Hrun as <- <-.
      by db_inv.
  - revert Hrun. match goal with |- ?m w = _ → _ => assert (Hm : isolated context m) by auto 10 with tenant end.
    apply Hm.
Qed.
End OperationChains.

(** ** Reachable states *)

Lemma rtc_step_ok w w' : rtc work_txn w w' → step_ok (w_db w) (w_db w').
Proof.
  induction 1 as [|x y z Hxy _ IH]; [by apply quiet_step_ok|]. intros Hok.
  destruct (work_txn_ok _ _ Hxy Hok) as [Hy Hev]. destruct (IH Hy) as [Hz Hev'].
  split; [done|]. by transitivity (w_db y).
Qed.

Lemma rtc_work_ok w w' : rtc work_txn w w' → work_ok (w_db w) → work_ok (w_db w').
Proof. intros H1 H2. by destruct (rtc_step_ok _ _ H1 H2). Qed.

Definition worked (w : World) : Prop :=
  ∃ tenants clock uuids, rtc work_txn (genesis tenants clock uuids) w.

Lemma genesis_work_ok tenants clock uuids : work_ok (w_db (genesis tenants clock uuids)).
Proof.
  split.
  - intros key _. exists []. split; [done|]. unfold status_of. simpl.
    by rewrite lookup_empty.
  - intros key. unfold lease_consistent, lease_active, status_of. simpl.
    rewrite !lookup_empty. split; [by intros (l & ? & _)|by not_executing].
  - intros key [r Hr]. simpl in Hr. by rewrite lookup_empty in Hr.
Qed.

Lemma worked_ok w : worked w → work_ok (w_db w).
Proof.
  intros (ts & c & u & Hsteps). eapply rtc_work_ok; [exact Hsteps|apply genesis_work_ok].
Qed.


(** One call of the repository's interface in a tenant's context, whatever
    its outcome. *)
Inductive work_call `{PyRepr} (context : TenantContext) : World → World → Prop :=
| call_register request id mid w r w' :
    Uuid.valid (wr_work_id request) →
    register context request id mid w = (r, w') → work_call context w w'
| call_mark_published delivery at_ w r w' :
    Uuid.valid (me_work_id (qd_envelope delivery)) →
    mark_published context delivery at_ w = (r, w') → work_call context w w'
| call_claim delivery owner now expires limit w r w' :
    Uuid.valid (me_work_id (qd_envelope delivery)) →
    claim context delivery owner now expires limit w = (r, w') → work_call context w w'
| call_start delivery lease at_ w r w' :
    Uuid.valid (me_work_id (qd_envelope delivery)) →
    WorkRepository.start context delivery lease at_ w = (r, w') → work_call context w w'
| call_heartbeat delivery lease at_ expires w r w' :
    Uuid.valid (me_work_id (qd_envelope delivery)) →
    heartbeat context delivery lease at_ expires w = (r, w') → work_call context w w'
| call_succeed delivery lease at_ reference w r w' :
    Uuid.valid (me_work_id (qd_envelope delivery)) →
    succeed context delivery lease at_ reference w = (r, w') → work_call context w w'
| call_cancel delivery lease at_ w r w' :
    Uuid.valid (me_work_id (qd_envelope delivery)) →
    cancel context delivery lease at_ w = (r, w') → work_call context w w'
| call_fail delivery lease at_ class code retry_at w r w' :
    Uuid.valid (me_work_id (qd_envelope delivery)) →
    fail context delivery lease at_ class code retry_at w = (r, w') → work_call context w w'
| call_release lease at_ reason retry_at w r w' :
    Uuid.valid (wl_work_id lease) →
    release context lease at_ reason retry_at w = (r, w') → work_call context w w'
| call_request_cancel request at_ actor w r w' :
    Uuid.valid (wr_work_id request) →
    request_cancel context request at_ actor w = (r, w') → work_call context w w'
| call_cancel_by_id work at_ actor w r w' :
    Uuid.valid work → cancel_by_id context work at_ actor w = (r, w') → work_call context w w'
| call_reconcile now limit w r w' :
    reconcile_expired context now limit w = (r, w') → work_call context w w'
| call_requeue work at_ approval actor w r w' :
    Uuid.valid work →
    requeue_dead_letter context work at_ approval actor w = (r, w') → work_call context w w'
| call_approve work approval expires w r w' :
    approve_dead_letter_requeue context work approval expires w = (r, w') → work_call context w w'
| call_cancellation_requested work w r w' :
    cancellation_requested context work w = (r, w') → work_call context w w'
| call_delivery_complete work w r w' :
    delivery_complete context work w = (r, w') → work_call context w w'.

Lemma reads_txn {A} context (m : Db A) :
  reads (λ _, True) m → ∀ w r w', m w = (r, w') → rtc (tenant_txn context) w w'.
Proof. intros Hm w r w' Hrun. apply rtc_once, same_txn. by destruct (Hm _ _ _ Hrun). Qed.

Lemma work_call_chain `{PyRepr} c w w' :
  work_call c w w' → ids_valid (w_db w) → rtc (tenant_txn c) w w'.
Proof.
  destruct 1 as
    [ q id mid w r w' Hv Hrun | d a w r w' Hv Hrun | d o n x l w r w' Hv Hrun
    | d l a w r w' Hv Hrun | d l a x w r w' Hv Hrun | d l a rf w r w' Hv Hrun
    | d l a w r w' Hv Hrun | d l a k code ra w r w' Hv Hrun
    | l a re ra w r w' Hv Hrun | q a ac w r w' Hv Hrun | wk a ac w r w' Hv Hrun
    | n l w r w' Hrun | wk a ap ac w r w' Hv Hrun | wk ap x w r w' Hrun
    | wk w r w' Hrun | wk w r w' Hrun ]; intros Hids.
  - exact (register_chain c q id mid Hv w r w' I Hrun).
  - exact (mark_published_chain c d a Hv w r w' I Hrun).
  - exact (claim_chain c d o n x l Hv w r w' I Hrun).
  - exact (start_chain c d l a Hv w r w' I Hrun).
  - exact (heartbeat_chain c d l a x Hv w r w' I Hrun).
  - exact (succeed_chain c d l a rf Hv w r w' I Hrun).
  - exact (cancel_chain c d l a Hv w r w' I Hrun).
  - exact (fail_chain c d l a k code ra Hv w r w' I Hrun).
  - exact (release_chain c l a re ra Hv w r w' I Hrun).
  - exact (request_cancel_chain c q a ac Hv w r w' I Hrun).
  - exact (cancel_by_id_chain c wk a ac Hv w r w' I Hrun).
  - exact (reconcile_chain c n l w r w' Hids Hrun).
  - exact (requeue_chain c wk a ap ac Hv w r w' I Hrun).
  - exact (approve_chain c wk ap x w r w' I Hrun).
  - refine (reads_txn c (cancellation_requested c wk) _ _ _ _ Hrun). apply reads_query.
  - refine (reads_txn c (delivery_complete c wk) _ _ _ _ Hrun). apply reads_query.
Qed.

(** Every operation of the repository, run from a consistent state, is
    a chain of those transactions: so any sequence of calls, interleaved
    with transactions of other processes, stays within the refinement, and
    statuses only ever move along the recorded edges. *)
Theorem operations_preserve_refinement `{PyRepr} w w' :
  rtc (λ x y, (∃ context, work_call context x y) ∨ work_txn x y) w w' → work_ok (w_db w) →
  work_ok (w_db w') ∧ evolves (w_db w) (w_db w').
Proof.
  induction 1 as [w|w x w' [[c Hcall]|Htxn] _ IH]; intros Hok.
  - by split.
  - assert (Hchain : rtc work_txn w x) by (eapply tenant_txns, work_call_chain; [exact Hcall|exact (wk_ids _ Hok)]).
    destruct (rtc_step_ok _ _ Hchain Hok) as [Hx Hev]. destruct (IH Hx) as [Hw' Hev'].
    split; [done|]. by transitivity (w_db x).
  - destruct (work_txn_ok _ _ Htxn Hok) as [Hx Hev]. destruct (IH Hx) as [Hw' Hev'].
    split; [done|]. by transitivity (w_db x).
Qed.

(** Completed work stays completed: once a work item has succeeded or
    was cancelled, no later transaction of any process, stale worker,
    reconciler or operator changes its status again. *)
Theorem completed_work_is_final w w' key s :
  worked w → rtc work_txn w w' → s ∈ [SUCCEEDED; CANCELLED] →
  status_of (w_db w) key = Some s → status_of (w_db w') key = Some s.
Proof.
  intros Hw Hsteps Hs Hst. apply worked_ok in Hw.
  destruct (rtc_step_ok _ _ Hsteps Hw) as [_ Hev]. destruct (Hev key) as [types Hrep].
  rewrite Hst in Hrep. by destruct (record_absorbing _ _ _ Hs Hrep).
Qed.
