(* ===== verification/WorkSafety.v ===== *)
(** * Safety of the work repository

    A sample work item taken from registration to success, and what no
    worker, reconciler or operator can do: exceed the tenant's concurrency
    limit or the item's attempts, act with a lease that was replaced,
    complete a delivery that does not match the stored work, or requeue a
    dead letter without an unused approval of someone else. *)

From stdpp Require Import base gmap sets list strings pretty.
From Stdlib Require Import ZArith Lia Sorted.
From S2P Require Import Prelude PyLib Json Events Identity Work Database EventStore.
From S2P Require Import Ledger.
From S2P Require Import LedgerReads LedgerAppend LedgerTheorems Wire WorkRepository.
From S2P Require Import WorkLedger WorkTheorems.

Local Open Scope Z_scope.

(** ** A sample run *)

#[local] Instance sample_repr : PyRepr := λ _, ""%string.

Definition sample_request : WorkRequest :=
  {| wr_work_id := 100%N; wr_tenant_id := "acme"; wr_work_kind := "index";
     wr_idempotency_key := "key-1"; wr_correlation_id := 7%N;
     wr_requested_at := Dt.Aware 5000000; wr_payload := [(KStr "doc", PInt 4)];
     wr_causation_id := None; wr_max_attempts := 3; wr_timeout_seconds := 60;
     wr_schema_version := 1 |}.

Definition sample_delivery : QueueDelivery :=
  {| qd_stream_entry_id := "1-0"; qd_delivery_count := 1; qd_idle_milliseconds := 0;
     qd_envelope :=
       {| me_message_id := 1002%N; me_tenant_id := "acme"; me_work_id := 100%N;
          me_event_id := Some 1001%N; me_destination := "aegis.work";
          me_correlation_id := 7%N; me_causation_id := None;
          me_occurred_at := Dt.Aware 5000000;
          me_payload := _request_payload sample_request;
          me_headers := dict_of [("tenant_id", PStr "acme"); ("schema_version", PInt 1)]%string;
          me_schema_version := 1 |} |}.

Definition run {A} (m : Db A) (w : World) : World := (m w).2.

Definition work_start : World := 
  genesis {["acme"; "globex"]}%string (λ n, 10000000 + 1000000 * Z.of_nat n) (λ n, 2000 + N.of_nat n)%N.

Definition registered : World := run (register acme sample_request 1001 1002) work_start.
Definition outbox_leased : World :=
  run (claim_outbox acme "publisher" (Dt.Aware 60000000) (Dt.Aware 12000000) 10 None) registered.
Definition published : World :=
  run (mark_published acme sample_delivery (Dt.Aware 13000000)) outbox_leased.
Definition sample_claim : Db (option WorkLease) :=
  claim acme sample_delivery "worker-1" (Dt.Aware 14000000) (Dt.Aware 44000000) 2.
Definition claimed : World := run sample_claim published.
Definition sample_lease : WorkLease :=
  {| wl_work_id := 100%N; wl_tenant_id := "acme"; wl_token := 2001%N; wl_generation := 1;
     wl_owner := "worker-1"; wl_attempt := 1; wl_acquired_at := Dt.Aware 20000000;
     wl_heartbeat_at := Dt.Aware 20000000; wl_expires_at := Dt.Aware 50000000 |}.
Definition running : World :=
  run (WorkRepository.start acme sample_delivery sample_lease (Dt.Aware 21000000)) claimed.
Definition succeeded : World :=
  run (succeed acme sample_delivery sample_lease (Dt.Aware 22000000) "blob-1") running.

(** The worker of [sample_lease] gives the work back, and another one claims it. *)
Definition handed_back : World :=
  run (release acme sample_lease (Dt.Aware 22000000) "draining" (Dt.Aware 22000000)) running.
Definition second_claim : Db (option WorkLease) :=
  claim acme sample_delivery "worker-2" (Dt.Aware 24000000) (Dt.Aware 54000000) 2.
Definition reclaimed : World := run second_claim handed_back.

Definition work_key : string * uuid := ("acme"%string, 100%N).

Lemma chain_run {A} context (m : Db A) w : chain context (λ _, True) m → rtc work_txn w (run m w).
Proof. intros Hm. by eapply tenant_txns, (Hm w (m w).1), surjective_pairing. Qed.

Lemma worked_run {A} context (m : Db A) w : chain context (λ _, True) m → worked w → worked (run m w).
Proof.
  intros Hm (ts & c & u & Hw). exists ts, c, u. transitivity w; [done|]. by eapply chain_run.
Qed.

Lemma outbox_leased_quiet : quiet (w_db registered) (w_db outbox_leased).
Proof. split; [|split]; vm_compute; reflexivity. Qed.

Lemma published_worked : worked published.
Proof.
  apply (worked_run acme); [by apply mark_published_chain|].
  destruct (worked_run acme (register acme sample_request 1001 1002) work_start)
    as (ts & c & u & Hw); [by apply register_chain|do 3 eexists; apply rtc_refl|].
  exists ts, c, u. eapply rtc_r; [exact Hw|]. apply any_quiet, outbox_leased_quiet.
Qed.

Lemma claimed_worked : worked claimed.
Proof. apply (worked_run acme); [by apply claim_chain|]. apply published_worked. Qed.

Lemma running_worked : worked running.
Proof. apply (worked_run acme); [by apply start_chain|]. apply claimed_worked. Qed.

(** ** Refusals *)

(** The operation fails and the tables are as they were. *)
Definition refused {A} (m : Db A) (w : World) : Prop :=
  ∃ e w', m w = (inl e, w') ∧ w_db w' = w_db w.

Lemma refused_reads {A B} (Q : A → Prop) (m : Db A) (k : A → Db B) w :
  reads Q m → (∀ a w1, Q a → w_db w1 = w_db w → refused (k a) w1) → refused (bind m k) w.
Proof.
  intros Hm Hk. destruct (m w) as [[e|a] w1] eqn:Hrun; destruct (Hm _ _ _ Hrun) as [Hdb HQ].
  - exists e, w1. split; [by apply bind_fail|done].
  - destruct (Hk a w1 (HQ _ eq_refl) Hdb) as (e & w2 & H2 & Hdb2).
    exists e, w2. split; [by rewrite (bind_run _ _ _ _ _ Hrun)|congruence].
Qed.

Lemma refused_first {A B} (m : Db A) (k : A → Db B) w : refused m w → refused (bind m k) w.
Proof. intros (e & w' & Hm & Hdb). exists e, w'. split; [by apply bind_fail|done]. Qed.

Tactic Notation "pass" uconstr(lem) := eapply refused_reads; [apply lem|].

(** ** Claims *)

(** Inverting the successful run of an operation, one statement at a time. *)
Lemma reads_ok {A B} (Q : A → Prop) (m : Db A) (k : A → Db B) w b w' :
  reads Q m → bind m k w = (inr b, w') →
  ∃ a w1, Q a ∧ w_db w1 = w_db w ∧ k a w1 = (inr b, w').
Proof.
  intros Hm Hrun. apply bind_ok in Hrun as (a & w1 & H1 & H2).
  destruct (Hm _ _ _ H1) as [Hdb HQ]. exists a, w1. auto.
Qed.

(** A statement that writes neither the tables nor the closure's list. *)
Definition still {A} (Q : World → A → Prop) (m : Db A) : Prop :=
  ∀ w a w', m w = (inr a, w') → w_db w' = w_db w ∧ w_cell w' = w_cell w ∧ Q w a.

Lemma still_ok {A B} (Q : World → A → Prop) (m : Db A) (k : A → Db B) w b w' :
  still Q m → bind m k w = (inr b, w') →
  ∃ a w1, Q w a ∧ w_db w1 = w_db w ∧ w_cell w1 = w_cell w ∧ k a w1 = (inr b, w').
Proof.
  intros Hm Hrun. apply bind_ok in Hrun as (a & w1 & H1 & H2).
  destruct (Hm _ _ _ H1) as (Hdb & Hc & HQ). exists a, w1. auto.
Qed.

Lemma still_query {A} (f : Tables → A) :
  still (λ w a, a = f (w_db w)) (storage_guard (transaction (query f))).
Proof. intros w r w' Hrun. vm_compute in Hrun. by injection Hrun as <- <-. Qed.

Lemma still_new_event t request causation :
  still (λ _ _, True) (new_event t request causation).
Proof. intros w e w' Hrun. unfold new_event in Hrun. by db_inv. Qed.

Lemma still_lift {A} (x : result A) : still (λ _ a, x = inr a) (lift x).
Proof. by intros w a w' [= -> <-]. Qed.

Tactic Notation "read" uconstr(lem) "in" hyp(H) "as" ident(a) ident(w1) simple_intropattern(p)
    ident(Hd) :=
  eapply reads_ok in H as (a & w1 & p & Hd & H); [|apply lem].
Tactic Notation "stay" uconstr(lem) "in" hyp(H) "as" ident(a) ident(w1) simple_intropattern(p)
    ident(Hd) ident(Hc) :=
  eapply still_ok in H as (a & w1 & p & Hd & Hc & H); [|apply lem].

(** A committed append with its projection. *)
Lemma append_atomic_ok context events v m outbox w n w' :
  append_atomic context events v m outbox w = (inr n, w') →
  ∃ w1 w2, m w1 = (inr tt, w2) ∧ w_db w' = w_db w2 ∧ w_cell w' = w_cell w2 ∧
    w_cell w1 = w_cell w ∧ t_work_items (w_db w1) = t_work_items (w_db w) ∧
    t_work_leases (w_db w1) = t_work_leases (w_db w) ∧
    t_approvals (w_db w1) = t_approvals (w_db w) ∧
    t_dead_letters (w_db w1) = t_dead_letters (w_db w).
Proof.
  unfold append_atomic. intros Hrun. stay still_lift in Hrun as u w0 _ Hd Hc.
  match type of Hrun with storage_guard (transaction ?b) _ = _ =>
    destruct (b (started w0)) as [[e|a] w3] eqn:Hb end.
  { by rewrite (transaction_raise _ _ _ _ Hb) in Hrun. }
  rewrite (transaction_run _ _ _ _ Hb) in Hrun. injection Hrun as -> <-.
  apply bind_ok in Hb as (v' & w1 & Happ & Hb). apply bind_ok in Hb as ([] & w2 & Hm & [= _ <-]).
  exists w1, w2. split; [done|].
  apply append_in_transaction_ok in Happ as (? & ? & _ & _ & _ & _ & -> & _).
  simpl. by rewrite Hd, Hc.
Qed.

Lemma append_atomic_failed context events v m outbox w e w' :
  append_atomic context events v m outbox w = (inl e, w') → w_db w' = w_db w.
Proof.
  unfold append_atomic, bind at 1, lift. destruct (_validate_append _ _ _); [by intros [= _ <-]|].
  intros Hrun. match type of Hrun with storage_guard (transaction ?b) _ = _ =>
    destruct (b (started w)) as [[e1|a] w1] eqn:Hb end.
  - rewrite (transaction_raise _ _ _ _ Hb) in Hrun. by injection Hrun as _ <-.
  - by rewrite (transaction_run _ _ _ _ Hb) in Hrun.
Qed.

Definition active_items (tenant : string) (items : gmap (string * uuid) WorkItemRow) : nat :=
  length (List.filter
    (λ kv, bool_decide (kv.1.1 = tenant) && status_in [CLAIMED; RUNNING] kv.2)
    (map_to_list items)).

Lemma filter_length_perm {A} (f : A → bool) l l' :
  l ≡ₚ l' → length (List.filter f l) = length (List.filter f l').
Proof. induction 1; simpl; repeat case_match; simpl; congruence. Qed.

(** Claiming an item adds one to the tenant's active items. *)
Lemma active_items_insert tenant id r r' items :
  items !! (tenant, id) = Some r → status_in [CLAIMED; RUNNING] r = false →
  (active_items tenant (<[(tenant, id) := r']> items)
   ≤ S (active_items tenant items))%nat.
Proof.
  intros Hr Hs. unfold active_items. set (f := λ kv : (string * uuid) * WorkItemRow, _ && _).
  assert (H1 : map_to_list items ≡ₚ ((tenant, id), r) :: map_to_list (delete (tenant, id) items))
    by (by rewrite <- map_to_list_insert, insert_delete_id by (done || apply lookup_delete_eq)).
  assert (H2 : map_to_list (<[(tenant, id) := r']> items)
    ≡ₚ ((tenant, id), r') :: map_to_list (delete (tenant, id) items))
    by (by rewrite <- map_to_list_insert, insert_delete_eq by apply lookup_delete_eq).
  rewrite (filter_length_perm f _ _ H1), (filter_length_perm f _ _ H2). subst f. simpl.
  rewrite Hs, andb_false_r. destruct (_ && _); simpl; lia.
Qed.

Lemma active_count_items tenant t :
  active_count tenant t = Z.of_nat (active_items tenant (t_work_items t)).
Proof. done. Qed.

(** The lease a row of [work_leases] records. *)
Definition lease_row_of (lease : WorkLease) (l : LeaseRow) : Prop :=
  le_lease_token l = wl_token lease ∧ le_generation l = wl_generation lease ∧
  le_owner l = wl_owner lease ∧ Dt.Aware (le_acquired_at l) = wl_acquired_at lease ∧
  Dt.Aware (le_expires_at l) = wl_expires_at lease ∧ le_released_at l = None.

Section Claims.
Context `{PyRepr}.

(** The claim transaction behind a granted lease. *)
Lemma claim_inv context delivery owner now expires limit w lease w' :
  claim context delivery owner now expires limit w = (inr (Some lease), w') →
  ∃ request dur e v w1 n w2,
    request_key request = lease_key lease ∧
    lease_key lease = (ctx_str context, me_work_id (qd_envelope delivery)) ∧
    wl_owner lease = owner ∧
    w_db w1 = w_db w ∧ w_cell w1 = [] ∧ w_db w' = w_db w2 ∧
    claim_terms (ctx_str context) (me_work_id (qd_envelope delivery)) (w_db w)
    = Some (wl_attempt lease, wl_generation lease) ∧
    append_atomic context [e] v
      (claim_projection request (wl_token lease) (wl_generation lease) (wl_attempt lease)
         owner dur limit) [] w1 = (inr n, w2) ∧
    ∃ a x rest, w_cell w2 = (a, x) :: rest ∧ wl_acquired_at lease = Dt.Aware a ∧
      wl_expires_at lease = Dt.Aware x.
Proof.
  intros Hrun. unfold claim in Hrun.
  read reads_raise_if in Hrun as u1 w1 _ H1. read reads_lift in Hrun as past w2 _ H2.
  read reads_raise_if in Hrun as u3 w3 _ H3. read reads_lift in Hrun as dur w4 _ H4.
  read reads_raise_if in Hrun as u5 w5 _ H5.
  read reads_verify_delivery in Hrun as q w6 Hq H6. read reads_lift in Hrun as u7 w7 _ H7.
  destruct (limit =? 0); [by injection Hrun|].
  read reads_uuid in Hrun as token w8 _ H8.
  stay still_query in Hrun as terms w9 Hterms H9 C9.
  destruct terms as [[att gen]|]; [|by injection Hrun].
  read reads_lift in Hrun as l w10 Hl H10.
  apply bind_ok in Hrun as (u & w11 & [= _ Hcell] & Hrun).
  assert (C11 : w_cell w11 = []) by (by rewrite <- Hcell).
  assert (H11 : w_db w11 = w_db w10) by (by rewrite <- Hcell). clear Hcell.
  stay still_query in Hrun as v w12 _ H12 C12.
  stay still_new_event in Hrun as e w13 _ H13 C13.
  apply bind_ok in Hrun as (res & w14 & Hatt & Hrun).
  destruct res as [n|]; [|by injection Hrun].
  assert (Happ : append_atomic context [e] v
    (claim_projection q token gen att owner dur limit) [] w13 = (inr n, w14)).
  { unfold attempt, catch, bind at 1 in Hatt.
    destruct (append_atomic _ _ _ _ _ _) as [[ex|n'] wx]; [by destruct (_ || _)|].
    by injection Hatt as -> ->. }
  apply bind_ok in Hrun as (times & w15 & [= Ht <-] & Hrun).
  destruct times as [|[a x] rest]; [done|].
  read reads_lift in Hrun as granted w16 Hg H16. injection Hrun as <- <-.
  unfold WorkLease_post_init in Hl, Hg. py_inv. simpl in *.
  injection Hq as Hqt Hqw. exists q, dur, e, v, w13, n, w14.
  unfold request_key, lease_key. simpl. rewrite <- Hqt, <- Hqw.
  repeat (split; [first [done|congruence]|]). by exists a, x, rest.
Qed.

(** C5. A granted claim: the tenant's claimed and running items stay within
  the limit the caller gave, the attempt is one more than before and within
  the item's maximum, the item was published or waiting for a retry and
  nobody asked to cancel it; the lease returned to the worker is the row
  stored, and its generation is one more than that of any lease the work
  had, so that lease is superseded. *)
Theorem claim_within_limits context delivery owner now expires limit w lease w' :
  claim context delivery owner now expires limit w = (inr (Some lease), w') →
  active_count (ctx_str context) (w_db w') ≤ limit ∧
  ∃ r r' l,
    lease_key lease = (ctx_str context, me_work_id (qd_envelope delivery)) ∧
    t_work_items (w_db w) !! lease_key lease = Some r ∧
    t_work_items (w_db w') !! lease_key lease = Some r' ∧
    wi_status r ∈ [PUBLISHED; RETRY_WAIT] ∧ wi_cancel_requested_at r = None ∧
    wi_status r' = CLAIMED ∧ wi_attempt_count r' = wl_attempt lease ∧
    wl_attempt lease = wi_attempt_count r + 1 ∧ wl_attempt lease ≤ wi_max_attempts r ∧
    t_work_leases (w_db w') !! lease_key lease = Some l ∧ lease_row_of lease l ∧
    ∀ old, t_work_leases (w_db w) !! lease_key lease = Some old →
      wl_generation lease = le_generation old + 1.
Proof.
  intros Hrun.
  apply claim_inv in Hrun as (q & dur & e & v & w1 & n & w2 & Hkey & Hctx & Hown & Hdb & Hcell
    & Hdb' & Hterms & Happ & a & x & rest & Hcell2 & Hacq & Hexp).
  apply append_atomic_ok in Happ as (w3 & w4 & Hm & Hd4 & Hc4 & Hc3 & Hi & Hl & _).
  apply claim_projection_ok in Hm as (Hact & r & l & Hr & Hatt & Hst & Hcan & Htok & Hgen & Hlown
    & Hrel & Hold & Hcells & Hle & Hd).
  fold (request_key q) in *. rewrite Hkey in *.
  assert (Hq : wr_tenant_id q = ctx_str context) by (rewrite Hctx in Hkey; by injection Hkey).
  rewrite Hi, Hdb in Hr. rewrite Hl, Hdb in Hold.
  unfold claim_terms in Hterms. rewrite <- Hctx, Hr in Hterms.
  destruct (_ && _) eqn:Hg in Hterms; [|done]. bool_props.
  injection Hterms as Hatt' Hgen'. rewrite Hdb', Hd4, Hd. simpl. split.
  - rewrite active_count_items in *. simpl. rewrite Hi, Hdb in *. rewrite Hq in *.
    unshelve epose proof (active_items_insert (ctx_str context)
      (me_work_id (qd_envelope delivery)) r _ (t_work_items (w_db w)) _ _) as Hle';
      [..|rewrite Hctx; etransitivity; [apply inj_le, Hle'|lia]].
    + by rewrite <- Hctx.
    + apply bool_decide_eq_false. intros Hin. elem_cases; congruence.
  - exists r, (item_set r CLAIMED (wi_available_at r) (wl_attempt lease)
      (wi_cancel_requested_at r) (wi_completed_at r) (wi_last_error_code r)), l.
    rewrite !lookup_insert_eq. rewrite Hc4, Hcells, Hc3, Hcell in Hcell2.
    injection Hcell2 as <- <- <-.
    repeat (split; [first [done|lia]|]). split.
    + unfold lease_row_of. rewrite Hacq, Hexp, Hle, Hown. done.
    + intros old Ho. specialize (Hold old Ho). lia.
Qed.
End Claims.

(** ** Dead letters *)

Definition consumed (a : ApprovalRow) : Prop := ap_consumed_at a ≠ None.

Lemma requeue_projection_ok tenant work at_ approval actor w u w' :
  requeue_projection tenant work at_ approval actor w = (inr u, w') →
  ∃ a r c,
    t_approvals (w_db w) !! (tenant, ra_approval_id approval) = Some a ∧
    ap_work_id a = work ∧ ap_approved_by a = ra_approved_by approval ∧
    ap_approved_by a ≠ actor ∧ ap_consumed_at a = None ∧ c < ap_expires_at a ∧
    t_work_items (w_db w) !! (tenant, work) = Some r ∧ wi_status r = DEAD_LETTER ∧
    t_work_items (w_db w') !! (tenant, work)
    = Some (item_set r RETRY_WAIT (Dt.us at_) 0 None None None) ∧
    ∃ a', t_approvals (w_db w') !! (tenant, ra_approval_id approval) = Some a' ∧
      consumed a' ∧ ap_consumed_by a' = Some actor.
Proof.
  unfold requeue_projection. intros H. db_inv.
  match goal with Hu : update_item _ _ _ _ _ = _ |- _ =>
    apply update_item_ok in Hu as (r & Hr & Hdead & ->) end.
  apply status_in_spec in Hdead.
  destruct (t_approvals _ !! _) as [a|] eqn:Ha; [|done]. bool_props. simpl in *.
  eexists a, r, _. repeat (split; [first [done|eassumption]|]).
  split; [by elem_cases|]. split; [by rewrite lookup_insert_eq|].
  rewrite lookup_alter_eq, Ha. eexists. split; [reflexivity|done].
Qed.

Lemma requeue_refused context work at_ approval actor a w :
  t_approvals (w_db w) !! (ctx_str context, ra_approval_id approval) = Some a → consumed a →
  refused (requeue_dead_letter context work at_ approval actor) w.
Proof.
  intros Ha Hc. unfold requeue_dead_letter. pass reads_load_request. intros q w1 Hq H1.
  injection Hq as Hten _. pass reads_new_event. intros e w2 _ H2. pass reads_uuid.
  intros mid w3 _ H3. pass reads_lift. intros o w4 _ H4. pass reads_current_version.
  intros v w5 _ H5. apply refused_first. unfold refused.
  destruct (append_atomic _ _ _ _ _ w5) as [[ex|n] w6] eqn:Happ.
  - exists ex, w6. split; [done|]. by eapply append_atomic_failed.
  - exfalso. apply append_atomic_ok in Happ as (w7 & w8 & Hm & _ & _ & _ & _ & _ & Hap & _).
    apply requeue_projection_ok in Hm as (a' & _ & _ & Ha' & _ & _ & _ & Hnone & _).
    rewrite Hap, Hten, H5, H4, H3, H2, H1, Ha in Ha'. by simplify_eq.
Qed.

(** A committed requeue ran its projection on the approvals and items it
    found. *)
Lemma requeue_run context work at_ approval actor w u w' :
  requeue_dead_letter context work at_ approval actor w = (inr u, w') →
  ∃ w7 w8, requeue_projection (ctx_str context) work at_ approval actor w7 = (inr tt, w8) ∧
    w_db w' = w_db w8 ∧ t_work_items (w_db w7) = t_work_items (w_db w) ∧
    t_approvals (w_db w7) = t_approvals (w_db w).
Proof.
  intros Hrun. unfold requeue_dead_letter in Hrun.
  read reads_load_request in Hrun as q w1 Hq H1. injection Hq as Hten Hid.
  read reads_new_event in Hrun as e w2 _ H2. read reads_uuid in Hrun as mid w3 _ H3.
  read reads_lift in Hrun as o w4 _ H4. read reads_current_version in Hrun as v w5 _ H5.
  apply bind_ok in Hrun as (n & w6 & Happ & [= _ <-]).
  apply append_atomic_ok in Happ as (w7 & w8 & Hm & Hd & _ & _ & Hi & _ & Hap & _).
  rewrite Hten in Hm. exists w7, w8.
  by rewrite Hi, Hap, H5, H4, H3, H2, H1.
Qed.

(** C13. Requeue of a dead letter: it commits only with an approval recorded
    for this work, granted by someone other than the actor, not consumed; the
    item then waits for a retry with no attempts counted, the approval is
    consumed by the actor, and no requeue in the resulting state can use it
    again. *)
Theorem requeue_needs_approval context work at_ approval actor w u w' :
  requeue_dead_letter context work at_ approval actor w = (inr u, w') →
  (∃ a r r',
     t_approvals (w_db w) !! (ctx_str context, ra_approval_id approval) = Some a ∧
     ap_work_id a = work ∧ ap_approved_by a = ra_approved_by approval ∧
     ap_approved_by a ≠ actor ∧ ap_consumed_at a = None ∧
     t_work_items (w_db w) !! (ctx_str context, work) = Some r ∧
     wi_status r = DEAD_LETTER ∧
     t_work_items (w_db w') !! (ctx_str context, work) = Some r' ∧
     wi_status r' = RETRY_WAIT ∧ wi_attempt_count r' = 0) ∧
  ∀ work2 at2 approval2 actor2 w2,
    w_db w2 = w_db w' → ra_approval_id approval2 = ra_approval_id approval →
    refused (requeue_dead_letter context work2 at2 approval2 actor2) w2.
Proof.
  intros Hrun. apply requeue_run in Hrun as (w7 & w8 & Hm & Hd & Hi & Hap).
  apply requeue_projection_ok in Hm
    as (a & r & c & Ha & Hw & Hby & Hne & Hnone & _ & Hr & Hst & Hr' & a' & Ha' & Hc & _).
  rewrite Hap in Ha. rewrite Hi in Hr.
  split.
  - exists a, r, (item_set r RETRY_WAIT (Dt.us at_) 0 None None None). by rewrite Hd.
  - intros work2 at2 ap2 actor2 wx Hx Hid2. eapply requeue_refused; [|exact Hc].
    by rewrite Hx, Hd, Hid2.
Qed.

(** ** More sample states *)

Definition dead : World :=
  run (fail acme sample_delivery sample_lease (Dt.Aware 22000000) PERMANENT "boom" None) running.
Definition sample_approval : RequeueApproval :=
  mkRequeueApproval 77%N "alice" (Dt.Aware 23000000) "dlq:requeue".
Definition approved : World :=
  run (approve_dead_letter_requeue acme 100%N sample_approval (Dt.Aware 900000000)) dead.
Definition sample_requeue : Db unit :=
  requeue_dead_letter acme 100%N (Dt.Aware 24000000) sample_approval "bob".
Definition failed_early : World :=
  run (fail acme sample_delivery sample_lease (Dt.Aware 22000000) PERMANENT "boom" None) claimed.


(** ** Witnesses *)


(** Registration, in an empty database. *)
Lemma operations_preserve_refinement_witness :
  work_ok (w_db registered) ∧ evolves (w_db work_start) (w_db registered) ∧
  status_of (w_db registered) work_key = Some REQUESTED.
Proof.
  assert (H : work_ok (w_db registered) ∧ evolves (w_db work_start) (w_db registered)).
  { apply (operations_preserve_refinement work_start registered); [|apply genesis_work_ok].
    apply rtc_once. left. exists acme.
    apply (call_register acme sample_request 1001 1002 work_start
      (register acme sample_request 1001 1002 work_start).1); [done|].
    apply surjective_pairing. }
  split; [apply H|]. split; [apply H|]. vm_compute. reflexivity.
Defined.

Lemma succeeded_worked : worked succeeded.
Proof.
  apply (worked_run acme); [by apply succeed_chain|apply running_worked].
Qed.

(** A late release by the same worker, after success. *)
Lemma completed_work_is_final_witness :
  status_of (w_db (run (release acme sample_lease (Dt.Aware 23000000) "late"
                          (Dt.Aware 23000000)) succeeded)) work_key = Some SUCCEEDED.
Proof.
  apply (completed_work_is_final succeeded _ work_key SUCCEEDED succeeded_worked).
  - by apply (chain_run acme), release_chain.
  - left.
  - vm_compute. reflexivity.
Defined.

Lemma claim_within_limits_witness :
  sample_claim published = (inr (Some sample_lease), claimed) ∧
  active_count "acme" (w_db claimed) ≤ 2.
Proof.
  assert (Hrun : sample_claim published = (inr (Some sample_lease), claimed)).
  { rewrite (surjective_pairing (sample_claim published)). f_equal. }
  split; [done|]. unfold sample_claim in Hrun.
  apply (claim_within_limits acme sample_delivery "worker-1" (Dt.Aware 14000000)
    (Dt.Aware 44000000) 2 published sample_lease claimed Hrun).
Defined.

(** Alice's approval, used by Bob, cannot be used again. *)
Lemma requeue_needs_approval_witness :
  status_of (w_db (run sample_requeue approved)) work_key = Some RETRY_WAIT ∧
  refused sample_requeue (run sample_requeue approved).
Proof.
  assert (Hrun : sample_requeue approved = (inr tt, run sample_requeue approved)).
  { rewrite (surjective_pairing (sample_requeue approved)) at 1. f_equal. }
  split; [vm_compute; reflexivity|].
  unfold sample_requeue in Hrun at 1.
  destruct (requeue_needs_approval acme 100%N (Dt.Aware 24000000) sample_approval "bob"
    approved tt (run sample_requeue approved) Hrun) as [_ Hagain].
  apply Hagain; reflexivity.
Defined.

(** A worker that reports failure on an item it has claimed but not
    started is accepted: the transaction commits and the item is a dead
    letter, although no status follows from its event stream, [next_status]
    having no edge for a failure of claimed work.  Every prefix of that run
    is a run of the repository's own operations. *)
Theorem early_failure_leaves_the_state_machine :
  worked claimed ∧
  (fail acme sample_delivery sample_lease (Dt.Aware 22000000) PERMANENT "boom" None claimed).1
  = inr true ∧
  status_of (w_db failed_early) work_key = Some DEAD_LETTER ∧
  ∃ h e, history (w_db failed_early) "acme" 100%N = Some h ∧ replay None h = inl e.
Proof.
  split; [apply claimed_worked|]. split; [vm_compute; reflexivity|].
  split; [vm_compute; reflexivity|]. do 2 eexists. split; vm_compute; reflexivity.
Qed.
