(* ===== verification/Fencing.v ===== *)
(** * Fencing of stale workers

    Along any run of the repository a lease row only moves forward: its
    generation never decreases, and within one generation its token stays and
    a release is never undone.  A worker whose lease was replaced or released
    is therefore refused for good, by every operation it can call. *)

From stdpp Require Import base gmap sets list strings pretty.
From Stdlib Require Import ZArith Lia.
From S2P Require Import Prelude PyLib Json Events Identity Work Database EventStore.
From S2P Require Import Ledger.
From S2P Require Import LedgerReads LedgerAppend LedgerTheorems Wire WorkRepository.
From S2P Require Import WorkLedger WorkTheorems WorkSafety.

Local Open Scope Z_scope.

(** ** Lease rows move forward *)

Definition lease_succ (l l' : LeaseRow) : Prop :=
  le_generation l < le_generation l' ∨
  (le_generation l' = le_generation l ∧ le_lease_token l' = le_lease_token l ∧
   (le_released_at l ≠ None → le_released_at l' ≠ None)).

Definition advances (t t' : Tables) : Prop :=
  ∀ key l, t_work_leases t !! key = Some l →
    ∃ l', t_work_leases t' !! key = Some l' ∧ lease_succ l l'.

Lemma advances_same t t' : t_work_leases t' = t_work_leases t → advances t t'.
Proof. intros H key l Hl. exists l. rewrite H. split; [done|]. by right. Qed.

#[global] Instance advances_preorder : PreOrder advances.
Proof.
  split; [by intros t; apply advances_same|]. intros t1 t2 t3 H12 H23 key l Hl.
  destruct (H12 _ _ Hl) as (l2 & Hl2 & Hs). destruct (H23 _ _ Hl2) as (l3 & Hl3 & Hs').
  exists l3. split; [done|]. unfold lease_succ in *. destruct Hs as [?|(? & ? & ?)];
    destruct Hs' as [?|(? & ? & ?)]; [left; lia..|right]. split; [congruence|].
  split; [congruence|auto].
Qed.

Lemma advances_insert key f l t :
  t_work_leases t !! key = Some l → lease_succ l f →
  advances t (upd_work_leases <[key := f]> t).
Proof.
  intros Hl Hs k l0 Hl0. simpl. destruct (decide (k = key)) as [->|Hne].
  - rewrite lookup_insert_eq. exists f. by simplify_eq.
  - rewrite lookup_insert_ne by done. exists l0. split; [done|]. by right.
Qed.

(** A computation that, when it succeeds, moves lease rows forward. *)
Definition moves_on {A} (m : Db A) : Prop :=
  ∀ w a w', m w = (inr a, w') → advances (w_db w) (w_db w').

Lemma moves_on_bind {A B} (m : Db A) (k : A → Db B) :
  moves_on m → (∀ a, moves_on (k a)) → moves_on (bind m k).
Proof.
  intros Hm Hk w b w' Hrun. apply bind_ok in Hrun as (a & w1 & H1 & H2).
  transitivity (w_db w1); [by eapply Hm|by eapply Hk].
Qed.

Lemma moves_on_ret {A} (a : A) : moves_on (ret a).
Proof. by intros w b w' [= _ <-]. Qed.

Lemma moves_on_raise {A} e : moves_on (A := A) (raise e).
Proof. by intros w b w' [=]. Qed.

Lemma moves_on_raise_if b e : moves_on (raise_if b e).
Proof. intros w a w'. unfold raise_if. destruct b; by intros [= _ <-]. Qed.

Lemma moves_on_query {A} (f : Tables → A) : moves_on (query f).
Proof. by intros w b w' [= _ <-]. Qed.

Lemma moves_on_clock : moves_on clock_timestamp.
Proof. by intros w b w' [= _ <-]. Qed.

Lemma moves_on_cell f : moves_on (set_cell f).
Proof. by intros w b w' [= _ <-]. Qed.

Lemma moves_on_execute f :
  (∀ t, t_work_leases (f t) = t_work_leases t) → moves_on (execute f).
Proof. intros Hf w b w' [= _ <-]. apply advances_same, Hf. Qed.

Lemma moves_on_item key guard f miss : moves_on (update_item key guard f miss).
Proof.
  intros w [] w' Hrun. apply update_item_ok in Hrun as (r & _ & _ & ->).
  by apply advances_same.
Qed.

Lemma moves_on_lease key guard f miss :
  (∀ l, lease_succ l (f l)) → moves_on (update_lease key guard f miss).
Proof.
  intros Hf w [] w' Hrun. apply update_lease_ok in Hrun as (l & Hl & _ & ->).
  by eapply advances_insert.
Qed.

Lemma moves_on_released key guard at_ reason miss :
  moves_on (update_lease key guard (released at_ reason) miss).
Proof. apply moves_on_lease. intros l. by right. Qed.

Lemma moves_on_append events expected outbox :
  moves_on (_append_in_transaction events expected outbox).
Proof.
  intros w v w' Hrun. apply append_in_transaction_ok in Hrun as (? & ? & _ & _ & _ & _ & -> & _).
  by apply advances_same.
Qed.

Lemma moves_on_upsert tenant work token gen owner acquired expires :
  moves_on (upsert_lease tenant work token gen owner acquired expires).
Proof.
  intros w [] w' Hrun.
  apply upsert_lease_ok in Hrun as (l & _ & Hgen & _ & _ & _ & _ & Hold & ->). simpl.
  destruct (t_work_leases (w_db w) !! (tenant, work)) as [old|] eqn:Hrow.
  - eapply advances_insert; [exact Hrow|]. left. rewrite (Hold _ eq_refl), Hgen. lia.
  - intros key l0 Hl0. simpl. rewrite lookup_insert_ne by congruence.
    exists l0. split; [done|]. by right.
Qed.

Create HintDb leases.
#[export] Hint Resolve moves_on_bind moves_on_ret moves_on_raise moves_on_raise_if : leases.
#[export] Hint Resolve moves_on_query moves_on_clock moves_on_cell moves_on_item : leases.
#[export] Hint Resolve moves_on_released moves_on_append moves_on_upsert : leases.
#[export] Hint Extern 1 (moves_on (execute _)) =>
  (apply moves_on_execute; reflexivity) : leases.
#[export] Hint Extern 2 (moves_on (if ?b then _ else _)) => destruct b : leases.
#[export] Hint Extern 2 (moves_on (match ?x with _ => _ end)) => destruct x : leases.

(** [unfold] the mutation, then go through its statements. *)
Ltac lease_moves := cbv zeta; eauto 20 with leases.

Lemma complete_on lease at_ s reason : moves_on (_complete_in_transaction lease at_ s reason).
Proof. unfold _complete_in_transaction. lease_moves. Qed.

Lemma release_on lease at_ reason ra ro :
  moves_on (_release_in_transaction lease at_ reason ra ro).
Proof. unfold _release_in_transaction. lease_moves. Qed.

Lemma cancel_on lease at_ : moves_on (_cancel_in_transaction lease at_).
Proof. unfold _cancel_in_transaction. lease_moves. Qed.

Lemma record_dead_letter_on lease at_ reason : moves_on (record_dead_letter lease at_ reason).
Proof. unfold record_dead_letter. lease_moves. Qed.
#[export] Hint Resolve complete_on release_on cancel_on record_dead_letter_on : leases.

Lemma dead_letter_on lease at_ reason : moves_on (_dead_letter_in_transaction lease at_ reason).
Proof. unfold _dead_letter_in_transaction, touch_item. lease_moves. Qed.

Lemma dead_letter_expired_on lease at_ reason :
  moves_on (_dead_letter_expired_in_transaction lease at_ reason).
Proof. unfold _dead_letter_expired_in_transaction. lease_moves. Qed.
#[export] Hint Resolve dead_letter_on dead_letter_expired_on : leases.

Lemma fail_on lease at_ code ra terminal : moves_on (fail_projection lease at_ code ra terminal).
Proof. unfold fail_projection. lease_moves. Qed.

Lemma insert_work_on request id : moves_on (insert_work request id).
Proof. unfold insert_work. lease_moves. Qed.

Lemma claim_on request token gen att owner dur limit :
  moves_on (claim_projection request token gen att owner dur limit).
Proof. unfold claim_projection. lease_moves. Qed.

Lemma renew_on lease ext : moves_on (renew_lease lease ext).
Proof.
  unfold renew_lease. apply moves_on_bind; [lease_moves|]. intros now.
  apply moves_on_bind; [|lease_moves]. apply moves_on_lease. intros l. by right.
Qed.

Lemma redrive_on context mid work : moves_on (redrive_projection context mid work).
Proof. unfold redrive_projection. lease_moves. Qed.

Lemma expire_on lease now c x e : moves_on (expire_projection lease now c x e).
Proof. unfold expire_projection. lease_moves. Qed.

Lemma requeue_on tenant work at_ approval actor :
  moves_on (requeue_projection tenant work at_ approval actor).
Proof. unfold requeue_projection. lease_moves. Qed.
#[export] Hint Resolve fail_on insert_work_on claim_on renew_on redrive_on expire_on : leases.
#[export] Hint Resolve requeue_on : leases.

(** ** Every transaction moves forward *)

(** Whatever the outcome: a refused transaction leaves the tables alone. *)
Definition on_any {A} (m : Db A) : Prop :=
  ∀ w r w', m w = (r, w') → advances (w_db w) (w_db w').

Lemma on_any_transaction {A} (body : Db A) :
  moves_on body → on_any (storage_guard (transaction body)).
Proof.
  intros Hb w r w' Hrun. destruct (body (started w)) as [[e|a] w1] eqn:Hrun1.
  - rewrite (transaction_raise _ _ _ _ Hrun1) in Hrun. by injection Hrun as <- <-.
  - rewrite (transaction_run _ _ _ _ Hrun1) in Hrun. injection Hrun as <- <-.
    exact (Hb _ _ _ Hrun1).
Qed.

Lemma on_any_lift {A} (x : result unit) (k : Db A) : on_any k → on_any (do! lift x ;; k).
Proof.
  intros Hk w r w'. unfold bind, lift. destruct x; [|apply Hk]. by intros [= <- <-].
Qed.

Lemma on_any_raise_if {A} b e (k : Db A) : on_any k → on_any (do! raise_if b e ;; k).
Proof.
  intros Hk w r w'. unfold bind, raise_if. destruct b; [|apply Hk]. by intros [= <- <-].
Qed.

Lemma append_atomic_on context events v m outbox :
  moves_on m → on_any (append_atomic context events v m outbox).
Proof. intros Hm. apply on_any_lift, on_any_transaction. lease_moves. Qed.

Lemma append_fenced_on context events v work token gen at_ outbox m :
  (∀ m', m = Some m' → moves_on m') →
  on_any (append_fenced context events v work token gen at_ outbox m).
Proof.
  intros Hm. apply on_any_lift. do 3 apply on_any_raise_if. apply on_any_transaction.
  destruct m as [m|]; [specialize (Hm m eq_refl)|]; lease_moves.
Qed.

Lemma append_from_inbox_on context source mid events v outbox m :
  moves_on m → on_any (append_from_inbox context source mid events v outbox (Some m)).
Proof.
  intros Hm. apply on_any_raise_if, on_any_lift, on_any_transaction. lease_moves.
Qed.

Lemma quiet_on (m : Db unit) :
  (∀ w u w', m w = (inr u, w') → quiet (w_db w) (w_db w')) → moves_on m.
Proof. intros Hm w u w' Hrun. apply Hm in Hrun as (_ & _ & Hl). by apply advances_same. Qed.

Lemma tenant_txn_advances context w w' : tenant_txn context w w' → advances (w_db w) (w_db w').
Proof.
  destruct 1 as [ ? ? (_ & _ & Hl) _|???????????? Hm Hrun| | | | | | | | | | | | | ];
    [by apply advances_same| |..];
    match goal with
    | H : append_atomic _ _ _ _ _ _ = _ |- _ => refine (append_atomic_on _ _ _ _ _ _ _ _ _ H)
    | H : append_fenced _ _ _ _ _ _ _ _ _ _ = _ |- _ =>
        refine (append_fenced_on _ _ _ _ _ _ _ _ _ _ _ _ _ H); intros m' Hm'
    | H : append_from_inbox _ _ _ _ _ _ _ _ = _ |- _ =>
        refine (append_from_inbox_on _ _ _ _ _ _ _ _ _ _ _ H)
    end; [apply quiet_on; by apply Hm|..];
    try injection Hm' as <-; unfold mark_projection, mark_started, cancel_projection; lease_moves.
Qed.

Lemma work_txn_advances w w' : work_txn w w' → advances (w_db w) (w_db w').
Proof.
  destruct 1 as [? ? (_ & _ & Hl)|? ? ? Ht]; [by apply advances_same|by eapply tenant_txn_advances].
Qed.

Lemma rtc_advances w w' : rtc work_txn w w' → advances (w_db w) (w_db w').
Proof.
  induction 1 as [|x y z Hxy _ IH]; [done|]. transitivity (w_db y); [|done].
  by apply work_txn_advances.
Qed.

(** ** Stale leases *)

(** The lease was replaced by a later generation, or released. *)
Definition superseded (t : Tables) (lease : WorkLease) : Prop :=
  ∃ l, t_work_leases t !! lease_key lease = Some l ∧
    (wl_generation lease < le_generation l ∨
     (le_generation l = wl_generation lease ∧ le_released_at l ≠ None)).

Lemma superseded_forever t t' lease : advances t t' → superseded t lease → superseded t' lease.
Proof.
  intros Hadv (l & Hl & Hs). destruct (Hadv _ _ Hl) as (l' & Hl' & Hsucc).
  exists l'. split; [done|].
  destruct Hsucc as [?|(Hg & _ & Hrel)]; [left; destruct Hs as [|[? _]]; lia|].
  destruct Hs as [?|[? ?]]; [left; lia|right]. split; [lia|auto].
Qed.

Lemma append_fenced_refused context events v lease at_ outbox m w :
  Forall (λ e, ev_tenant_id e = wl_tenant_id lease) events → events ≠ [] →
  superseded (w_db w) lease →
  refused (append_fenced context events v (wl_work_id lease) (wl_token lease)
             (wl_generation lease) at_ outbox m) w.
Proof.
  intros Hten Hne (l & Hl & Hs). unfold refused.
  destruct (fence_arguments_spec context events v (wl_work_id lease) (wl_token lease)
    (wl_generation lease) at_ outbox m w) as [[(Hval & _) ->]|[_ [e ->]]];
    [|by exists e, w].
  assert (Hctx : ctx_str context = wl_tenant_id lease).
  { apply validate_targets in Hval as (agg & (_ & Hall) & _). destruct events as [|e es]; [done|].
    apply Forall_cons in Hall as [[He _] _]. apply Forall_cons in Hten as [He' _]. congruence. }
  eexists _, _. split.
  - apply transaction_raise. unfold fenced_body. py_go. py_go. apply bind_fail.
    unfold lease_key in Hl. rewrite Hctx. simpl. rewrite Hl.
    assert (lease_current l (wl_token lease) (wl_generation lease)
      (w_clock w (S (w_tick w))) = false) as ->; [|reflexivity].
    unfold lease_current. destruct Hs as [Hlt|[_ Hrel]].
    + by rewrite (proj2 (Z.eqb_neq _ _)), andb_false_r by lia.
    + by rewrite (bool_decide_false (le_released_at l = None)), andb_false_r by done.
  - done.
Qed.

Section Workers.
Context `{PyRepr}.

(** What a worker can call with its lease. *)
Inductive worker_call (lease : WorkLease) : ∀ A, Db A → Prop :=
| worker_start context delivery at_ :
  worker_call lease unit (WorkRepository.start context delivery lease at_)
| worker_heartbeat context delivery at_ expires :
  worker_call lease WorkLease (heartbeat context delivery lease at_ expires)
| worker_succeed context delivery at_ reference :
  worker_call lease unit (succeed context delivery lease at_ reference)
| worker_cancel context delivery at_ :
  worker_call lease unit (cancel context delivery lease at_)
| worker_fail context delivery at_ class code retry_at :
  worker_call lease bool (fail context delivery lease at_ class code retry_at)
| worker_release context at_ reason retry_at :
  worker_call lease unit (release context lease at_ reason retry_at).

Lemma built_tenant request ty lease e :
  built request ty (Some lease) e → ev_tenant_id e = wl_tenant_id lease.
Proof.
  intros Hb. pose proof (built_lease _ _ _ _ Hb) as Hk.
  apply built_inv in Hb as (_ & -> & _). rewrite <- Hk. done.
Qed.

Lemma append_fenced_op_refused context request ty at_ details lease m w :
  superseded (w_db w) lease →
  refused (_append_fenced context request (transition ty at_ details (Some lease)) lease m) w.
Proof.
  intros Hs. unfold _append_fenced. pass reads_lift. intros t w1 Ht H1.
  pass reads_current_version. intros v w2 _ H2. pass reads_uuid. intros id w3 _ H3.
  pass reads_lift. intros e w4 He H4. apply refused_first, append_fenced_refused; [|done|congruence].
  constructor; [|constructor]. eapply (built_tenant request ty).
  exists at_, details, id, None. unfold transition_event. by rewrite Ht.
Qed.

Lemma renewed_superseded t lease renewed :
  lease_key renewed = lease_key lease → wl_generation renewed = wl_generation lease →
  superseded t lease → superseded t renewed.
Proof. intros Hk Hg. unfold superseded. by rewrite Hk, Hg. Qed.

Lemma worker_refused lease A (m : Db A) w :
  worker_call lease A m → superseded (w_db w) lease → refused m w.
Proof.
  intros Hcall Hs. destruct Hcall as [c d a|c d a x|c d a rf|c d a|c d a k code ra|c a rs ra].
  - pass reads_lift. intros q w1 _ H1. apply append_fenced_op_refused. congruence.
  - unfold heartbeat. pass reads_lift. intros past w1 _ H1. pass reads_raise_if.
    intros _ w2 _ H2. pass reads_lift. intros ext w3 _ H3. pass reads_raise_if.
    intros _ w4 _ H4. pass reads_cell. intros _ w5 _ H5. pass reads_lift.
    intros renewed w6 Hren H6. pass reads_lift. intros q w7 _ H7.
    apply refused_first, append_fenced_op_refused. rewrite H7, H6, H5, H4, H3, H2, H1.
    unfold WorkLease_post_init in Hren. py_inv. by eapply renewed_superseded.
  - pass reads_lift. intros q w1 _ H1. apply append_fenced_op_refused. congruence.
  - pass reads_lift. intros q w1 _ H1. apply append_fenced_op_refused. congruence.
  - unfold fail. pass reads_raise_if. intros _ w1 _ H1. pass reads_lift. intros q w2 _ H2.
    cbv zeta. pass reads_new_event. intros e1 w3 He1 H3. pass reads_new_event.
    intros e2 w4 He2 H4. eapply (refused_reads (λ _, True)).
    { destruct (fail_terminal _ _ _ _); [by apply reads_ret|].
      destruct ra; [|apply reads_raise]. eapply reads_bind; [apply reads_uuid|].
      intros mid _. eapply reads_bind; [apply reads_lift|]. intros. by apply reads_ret. }
    intros outbox w5 _ H5. pass reads_current_version. intros v w6 _ H6.
    apply refused_first, append_fenced_refused; [|done|congruence].
    constructor; [by eapply built_tenant|]. constructor; [by eapply built_tenant|constructor].
  - unfold release. pass reads_raise_if. intros _ w1 _ H1. pass reads_load_request.
    intros q w2 _ H2. apply append_fenced_op_refused. congruence.
Qed.

(** C2. Fencing of stale workers: from the moment a lease is replaced by a
  later generation or released, whatever transactions follow, every
  operation its holder calls (start, heartbeat, succeed, cancel, fail,
  release) raises and leaves every table as it was. *)
Theorem stale_lease_is_fenced w w' lease A (m : Db A) :
  superseded (w_db w) lease → rtc work_txn w w' → worker_call lease A m → refused m w'.
Proof.
  intros Hs Hrun Hcall. eapply worker_refused; [done|].
  eapply superseded_forever; [by apply rtc_advances|done].
Qed.
End Workers.

#[local] Existing Instance sample_repr.

(** The first worker's late report after the work was handed on. *)
Lemma stale_lease_is_fenced_witness :
  refused (succeed acme sample_delivery sample_lease (Dt.Aware 30000000) "late") reclaimed.
Proof.
  apply (stale_lease_is_fenced handed_back reclaimed sample_lease).
  - eexists. split; [vm_compute; reflexivity|]. right. split; [reflexivity|discriminate].
  - by apply (chain_run acme), claim_chain.
  - apply worker_succeed.
Defined.
