(* ===== verification/Floats.v ===== *)
(** * Floats and durations

    Python floats as the binary64 values of the standard library's
    [SpecFloat], and the conversions between [timedelta] (whole
    microseconds) and seconds that the retry delays use. *)

From stdpp Require Import base.
From Stdlib Require Import ZArith SpecFloat.
From S2P Require Import Prelude PyLib Amounts.

Local Open Scope Z_scope.

Definition sf_of_Z (z : Z) : spec_float := binary_normalize 53 1024 z 0 false.

Definition f64_sub : spec_float → spec_float → spec_float := SFsub 53 1024.
Definition f64_add : spec_float → spec_float → spec_float := SFadd 53 1024.
Definition f64_mul : spec_float → spec_float → spec_float := SFmul 53 1024.
Definition f64_div : spec_float → spec_float → spec_float := SFdiv 53 1024.
Definition f64_zero : spec_float := S754_zero false.

(** [max(a, b)] and [min(a, b)]: the first argument unless the second is
    strictly larger, or smaller. *)
Definition f64_max (a b : spec_float) : spec_float := if SFltb a b then b else a.
Definition f64_min (a b : spec_float) : spec_float := if SFltb b a then b else a.

Definition signed (s : bool) (z : Z) : Z := if s then - z else z.

(** [math.modf]: the integral part and the fraction, both exact. *)
Definition f64_modf (x : spec_float) : Z * spec_float :=
  match x with
  | S754_finite s m e =>
      if 0 <=? e then (signed s (Z.pos m * 2 ^ e), S754_zero s)
      else (signed s (Z.pos m / 2 ^ (- e)),
            binary_normalize 53 1024 (signed s (Z.pos m mod 2 ^ (- e))) e s)
  | _ => (0, x)
  end.

(** The nearest integer, to even when two are as near. *)
Definition f64_round (x : spec_float) : Z :=
  match x with
  | S754_finite s m e =>
      if 0 <=? e then signed s (Z.pos m * 2 ^ e)
      else
        let d := 2 ^ (- e) in
        let q := Z.pos m / d in
        let twice := 2 * (Z.pos m mod d) in
        signed s (if (d <? twice) || ((twice =? d) && Z.odd q) then q + 1 else q)
  | _ => 0
  end.

(** [delta.total_seconds()], exact as in Python for less than 2^53
    microseconds. *)
Definition total_seconds (delta : Z) : spec_float := f64_div (sf_of_Z delta) (sf_of_Z 1000000).

(** [timedelta(seconds=x)] of a finite float. *)
Definition timedelta_seconds (x : spec_float) : Z :=
  let '(whole, fraction) := f64_modf x in
  whole * 1000000 + f64_round (f64_mul fraction (sf_of_Z 1000000)).

(** The binary64 nearest to [m * 10 ^ e]. *)
Definition float_of_decimal (negative : bool) (m e : Z) : spec_float :=
  match m with
  | Z.pos p =>
      if 0 <=? e then binary_normalize 53 1024 (signed negative (m * 10 ^ e)) 0 negative
      else
        match 10 ^ (- e) with
        | Z.pos q =>
            let '(mz, ez, loc) := SFdiv_core_binary 53 1024 (Z.pos p) 0 (Z.pos q) 0 in
            binary_round_aux 53 1024 negative mz ez loc
        | _ => S754_nan
        end
  | _ => S754_zero negative
  end.

(** [float(d)] *)
Definition float_of_dec (d : decimal) : spec_float :=
  match d with
  | DFin c e => float_of_decimal (c <? 0) (Z.abs c) e
  | DInf negative => S754_infinity negative
  | DNaN => S754_nan
  end.
