(* ===== verification/Backoff.v ===== *)
(** * Retry delays

    Models [runtime/backoff.py]: exponential delays between a base and a
    maximum, with a jitter function of the caller's. *)

From stdpp Require Import base list strings.
From Stdlib Require Import ZArith Lia SpecFloat.
From S2P Require Import Prelude PyLib Floats.

Local Open Scope Z_scope.

Record ExponentialBackoff : Type := mkBackoff {
  bo_base : Z;
  bo_maximum : Z;
  bo_jitter : Z → spec_float → spec_float;
}.

Definition ExponentialBackoff_post_init (b : ExponentialBackoff) : result ExponentialBackoff :=
  raise! ValueError "backoff bounds are invalid"
    when! (bo_base b <=? 0) || (bo_maximum b <? bo_base b) ;;
  inr b.

Definition delay (b : ExponentialBackoff) (attempt : Z) : result Z :=
  raise! ValueError "attempt must be positive" when! attempt <? 1 ;;
  let unjittered :=
    f64_min (total_seconds (bo_maximum b))
      (f64_mul (total_seconds (bo_base b)) (sf_of_Z (2 ^ Z.min (attempt - 1) 30))) in
  let seconds := bo_jitter b attempt unjittered in
  raise! ValueError "jitter returned an out-of-bounds delay"
    when! negb (SFleb f64_zero seconds && SFleb seconds (total_seconds (bo_maximum b))) ;;
  inr (timedelta_seconds seconds).

(** The default arguments: one second, five minutes, no jitter. *)
Definition default_backoff : ExponentialBackoff :=
  mkBackoff (1 * Dt.second) (300 * Dt.second) (λ _ seconds, seconds).

(** The delays the defaults give, for the exponents that can occur. *)
Lemma default_delays :
  Forall (λ k, delay default_backoff (Z.of_nat k + 1)
               = inr (Z.min 300 (2 ^ Z.of_nat k) * Dt.second)) (seq 0 31).
Proof. repeat (apply List.Forall_cons; [vm_compute; reflexivity|]). apply List.Forall_nil. Qed.

Lemma default_delay_late attempt : 31 <= attempt →
  delay default_backoff attempt = delay default_backoff 31.
Proof.
  intros Ha. unfold delay. rewrite (proj2 (Z.ltb_ge attempt 1)) by lia.
  by rewrite Z.min_r by lia.
Qed.

(** Retry delays are exact: without jitter and with the default bounds the
    delay doubles from one second and stays at five minutes. *)
Lemma default_backoff_exact attempt : 1 <= attempt →
  delay default_backoff attempt = inr (Z.min 300 (2 ^ (attempt - 1)) * Dt.second).
Proof.
  intros Ha. pose proof default_delays as Hall. rewrite Forall_forall in Hall.
  destruct (Z.le_gt_cases 31 attempt) as [Hlate|Hearly].
  - rewrite default_delay_late by done.
    specialize (Hall 30%nat ltac:(apply elem_of_seq; lia)). cbv beta in Hall.
    replace (Z.of_nat 30 + 1) with 31 in Hall by reflexivity. rewrite Hall.
    rewrite (Z.min_l 300 (2 ^ (attempt - 1))); [reflexivity|].
    apply Z.le_trans with (2 ^ 30); [vm_compute; discriminate|]. apply Z.pow_le_mono_r; lia.
  - specialize (Hall (Z.to_nat (attempt - 1)) ltac:(apply elem_of_seq; lia)). cbv beta in Hall.
    rewrite Z2Nat.id in Hall by lia. by replace (attempt - 1 + 1) with attempt in Hall by lia.
Qed.
