(* ===== verification/Scheduler.v ===== *)
(** * The fair tenant scheduler

    Models [FairTenantScheduler] of [runtime/__init__.py]: a queue of
    deliveries per tenant and the tenants in the order of their turns.  What
    it serves is compared with the round-robin order of the tenants' queues,
    written without a state. *)

From stdpp Require Import base gmap list strings.
From Stdlib Require Import ZArith Lia.
From S2P Require Import Prelude PyLib Json Events Identity Work Database EventStore Wire.

(** ** Operations *)

(** [_queues] and [_round_robin] *)
Record FairTenantScheduler : Type := mkScheduler {
  fs_queues : gmap string (list QueueDelivery);
  fs_round_robin : list string;
}.

Definition FairTenantScheduler_new : FairTenantScheduler := mkScheduler ∅ [].

Definition tenant_of (d : QueueDelivery) : string := me_tenant_id (qd_envelope d).

(** The body of the loop of [add]. *)
Definition add_delivery (s : FairTenantScheduler) (d : QueueDelivery) : FairTenantScheduler :=
  let queue := default [] (fs_queues s !! tenant_of d) in
  mkScheduler (<[tenant_of d := queue ++ [d]]> (fs_queues s))
    (match queue with [] => fs_round_robin s ++ [tenant_of d] | _ => fs_round_robin s end).

Definition add (s : FairTenantScheduler) (deliveries : list QueueDelivery) : FairTenantScheduler :=
  foldl add_delivery s deliveries.

Definition pop (s : FairTenantScheduler) : result (option QueueDelivery * FairTenantScheduler) :=
  match fs_round_robin s with
  | [] => inr (None, s)
  | tenant :: turns =>
      match fs_queues s !! tenant with
      | None => inl (KeyError tenant)
      | Some [] => inl IndexError
      | Some (d :: []) => inr (Some d, mkScheduler (delete tenant (fs_queues s)) turns)
      | Some (d :: queue) =>
          inr (Some d, mkScheduler (<[tenant := queue]> (fs_queues s)) (turns ++ [tenant]))
      end
  end.

(** [bool(scheduler)] *)
Definition scheduler_bool (s : FairTenantScheduler) : bool :=
  match fs_round_robin s with [] => false | _ => true end.

(** What [n] calls of [pop] serve. *)
Fixpoint serve (n : nat) (s : FairTenantScheduler) : result (list QueueDelivery) :=
  match n with
  | O => inr []
  | S n =>
      let? p := pop s in
      let '(served, s) := (p : option QueueDelivery * FairTenantScheduler) in
      match served with
      | None => inr []
      | Some d => let? rest := serve n s in inr (d :: rest)
      end
  end.

(** ** The reference *)

(** The tenants by their first delivery. *)
Definition tenants (ds : list QueueDelivery) : list string :=
  foldl (λ ts d, if bool_decide (tenant_of d ∈ ts) then ts else ts ++ [tenant_of d]) [] ds.

Definition queue_of (t : string) (ds : list QueueDelivery) : list QueueDelivery :=
  filter (λ d, tenant_of d = t) ds.

(** The queues of the tenants. *)
Definition queues (ds : list QueueDelivery) : list (list QueueDelivery) :=
  map (λ t, queue_of t ds) (tenants ds).

(** The [k]-th round: the [k]-th element of every queue that has one. *)
Definition round {A} (k : nat) (qs : list (list A)) : list A := omap (λ q, q !! k) qs.

Definition round_robin {A} (qs : list (list A)) : list A :=
  seq 0 (max_list_with length qs) ≫= λ k, round k qs.

(** ** Round robin, round by round *)

(** What a queue has left after its turn. *)
Definition after_turn {A} (q : list A) : option (list A) :=
  match q with _ :: (_ :: _) as q' => Some q' | _ => None end.

Lemma omap_cons_eq {A B} (f : A → option B) x l :
  omap f (x :: l) = match f x with Some y => y :: omap f l | None => omap f l end.
Proof. reflexivity. Qed.

Section Rounds.
Context {A : Type}.
Implicit Types qs : list (list A).

Lemma round_after_turn k qs : round k (omap after_turn qs) = round (S k) qs.
Proof.
  unfold round. induction qs as [|[|x [|y q]] qs IH]; [done| | |];
    rewrite !omap_cons_eq; simpl; [exact IH|exact IH|].
  change (list_omap _ _) with (omap (M := list) (A := list A) (B := A)). by rewrite IH.
Qed.

Lemma height_after_turn qs :
  max_list_with length (omap after_turn qs) = pred (max_list_with length qs).
Proof.
  induction qs as [|[|x [|y q]] qs IH]; [done| | |];
    rewrite !omap_cons_eq; simpl; rewrite IH; lia.
Qed.

Lemma bind_S (f : nat → list A) l : (S <$> l) ≫= f = l ≫= λ k, f (S k).
Proof. induction l as [|k l IH]; csimpl; [done|by rewrite IH]. Qed.

Lemma round_robin_step qs : qs ≠ [] → Forall (λ q, q ≠ []) qs →
  round_robin qs = round 0 qs ++ round_robin (omap after_turn qs).
Proof.
  intros Hne Hall. unfold round_robin. rewrite height_after_turn.
  destruct (max_list_with length qs) as [|n] eqn:Hmax.
  { destruct qs as [|q qs]; [done|]. apply Forall_cons in Hall as [Hq _].
    destruct q; [done|]. simpl in Hmax. lia. }
  rewrite <- cons_seq, <- fmap_S_seq, bind_cons, bind_S. f_equal. simpl pred.
  apply list_bind_ext; [|done]. intros k. by rewrite round_after_turn.
Qed.
End Rounds.

(** ** The queues a scheduler holds *)

Abbreviation pending := (list (string * list QueueDelivery)).

(** The scheduler holds the pending queues, none empty, in the order of their
    turns. *)
Record holds (s : FairTenantScheduler) (p : pending) : Prop := {
  ho_queues : fs_queues s = list_to_map p;
  ho_turns : fs_round_robin s = p.*1;
  ho_distinct : NoDup p.*1;
  ho_nonempty : Forall (λ tq, tq.2 ≠ []) p;
}.

Definition next_pending (p : pending) : pending :=
  match p with
  | (t, _ :: (_ :: _) as q) :: p => p ++ [(t, q)]
  | _ :: p => p
  | [] => []
  end.

Lemma pop_holds s t d q p : holds s ((t, d :: q) :: p) →
  ∃ s', pop s = inr (Some d, s') ∧ holds s' (next_pending ((t, d :: q) :: p)).
Proof.
  intros [Hq Ht Hnd Hne]. unfold pop. rewrite Ht, Hq. simpl. rewrite lookup_insert_eq.
  simpl in Hnd. apply NoDup_cons in Hnd as [Hin Hnd]. apply Forall_cons in Hne as [_ Hne].
  assert (Hnone : (list_to_map p : gmap string (list QueueDelivery)) !! t = None)
    by by apply not_elem_of_list_to_map_1.
  destruct q as [|d' q]; eexists; (split; [reflexivity|]); split; simpl.
  - by rewrite delete_insert_id.
  - done.
  - done.
  - done.
  - rewrite insert_insert_eq, list_to_map_snoc by done. done.
  - by rewrite fmap_app.
  - rewrite fmap_app. apply NoDup_app. split; [done|]. split; [|apply NoDup_singleton].
    intros x Hx Hs. apply list_elem_of_singleton in Hs as ->. by apply Hin.
  - apply Forall_app. split; [done|]. by apply Forall_singleton.
Qed.

(** A turn of each of the queues [p] serves their heads and leaves the rest
    after the queues [done]. *)
Definition left_over (p : pending) : pending :=
  omap (λ tq, (λ q, (tq.1, q)) <$> after_turn tq.2) p.

Lemma left_over_queues p : (left_over p).*2 = omap after_turn p.*2.
Proof.
  induction p as [|[t [|d [|d' q]]] p IH]; [done| | |]; unfold left_over in *;
    rewrite !omap_cons_eq; csimpl; by rewrite IH.
Qed.

Fixpoint takes (n : nat) (p : pending) : list QueueDelivery :=
  match n, p with
  | S n, (_, d :: _) :: _ => d :: takes n (next_pending p)
  | _, _ => []
  end.

Lemma serve_holds n s p : holds s p → serve n s = inr (takes n p).
Proof.
  revert s p. induction n as [|n IH]; intros s p Hs; [by destruct p|].
  destruct p as [|[t [|d q]] p].
  - simpl. unfold pop. by rewrite (ho_turns _ _ Hs).
  - by destruct Hs as [_ _ _ [? _]%Forall_cons].
  - simpl. destruct (pop_holds _ _ _ _ _ Hs) as (s' & -> & Hs').
    change (rbind (inr _) _) with (let? rest := serve n s' in inr (d :: rest)).
    by rewrite (IH _ _ Hs').
Qed.

Lemma takes_turn n p done : Forall (λ tq, tq.2 ≠ []) p →
  takes (length p + n) (p ++ done) = round 0 p.*2 ++ takes n (done ++ left_over p).
Proof.
  revert done. induction p as [|[t [|d q]] p IH]; intros done Hne.
  - by rewrite app_nil_r.
  - by apply Forall_cons in Hne as [? _].
  - apply Forall_cons in Hne as [_ Hne].
    cbn [length Nat.add app takes]. unfold round. csimpl. f_equal.
    destruct q as [|d' q]; cbn [next_pending].
    + rewrite IH by done. done.
    + rewrite <- app_assoc, IH by done. f_equal. by rewrite <- app_assoc.
Qed.

Lemma takes_more n m p : takes n p = take n (takes (n + m) p).
Proof.
  revert p. induction n as [|n IH]; intros p; [done|].
  destruct p as [|[t [|d q]] p]; [done|done|]. cbn [takes Nat.add]. by rewrite firstn_cons, <- IH.
Qed.

Lemma left_over_nonempty p : Forall (λ tq, tq.2 ≠ []) (left_over p).
Proof.
  apply Forall_forall. intros [t q] Hin. apply list_elem_of_omap in Hin as ([t' q'] & _ & Heq).
  destruct q' as [|x [|y q']]; simplify_eq/=. done.
Qed.

Lemma takes_round_robin n p : Forall (λ tq, tq.2 ≠ []) p → takes n p = take n (round_robin p.*2).
Proof.
  remember (max_list_with length p.*2) as h eqn:Hh. revert n p Hh.
  induction h as [|h IH]; intros n p Hh Hne.
  - destruct p as [|[t q] p]; [by destruct n|]. apply Forall_cons in Hne as [Hq _].
    destruct q; [done|]. simpl in Hh. lia.
  - destruct p as [|tq p']; [done|]. set (p := tq :: p') in *.
    rewrite (takes_more n (length p)), (Nat.add_comm n).
    rewrite <- (app_nil_r p) at 2. rewrite takes_turn by done.
    change ([] ++ left_over p) with (left_over p).
    rewrite IH; [|by rewrite left_over_queues, height_after_turn, <- Hh|apply left_over_nonempty].
    rewrite left_over_queues.
    rewrite (round_robin_step p.*2) by (try done; by apply Forall_fmap).
    rewrite !take_app, take_take. do 2 f_equal. lia.
Qed.

(** ** What [add] builds *)

Definition pending_of (ds : list QueueDelivery) : pending :=
  map (λ t, (t, queue_of t ds)) (tenants ds).

Lemma tenants_snoc ds d : tenants (ds ++ [d]) =
  if bool_decide (tenant_of d ∈ tenants ds) then tenants ds else tenants ds ++ [tenant_of d].
Proof. unfold tenants. by rewrite foldl_app. Qed.

Lemma tenants_spec ds : NoDup (tenants ds) ∧ ∀ t, t ∈ tenants ds ↔ queue_of t ds ≠ [].
Proof.
  induction ds as [|d ds [Hnd Hin]] using rev_ind.
  { split; [constructor|]. intros t. split; [by intros ?%not_elem_of_nil|done]. }
  assert (Hq : ∀ t, queue_of t (ds ++ [d]) ≠ [] ↔ t ∈ tenants ds ∨ t = tenant_of d).
  { intros t. unfold queue_of. rewrite filter_app, Hin. unfold queue_of.
    destruct (decide (tenant_of d = t)) as [<-|Hne].
    - rewrite (filter_cons_True _ d) by done. split; [by right|]. intros _ Hnil.
      by apply app_eq_nil in Hnil as [_ ?].
    - rewrite (filter_cons_False _ d), filter_nil, app_nil_r by done. naive_solver. }
  setoid_rewrite Hq. rewrite tenants_snoc. case_bool_decide as Hd.
  - split; [done|]. naive_solver.
  - split; [|intros t; by rewrite elem_of_app, list_elem_of_singleton].
    apply NoDup_app. split; [done|]. split; [|apply NoDup_singleton].
    intros t Ht Hs. apply list_elem_of_singleton in Hs as ->. done.
Qed.

Lemma queue_of_snoc t ds d : queue_of t (ds ++ [d]) =
  if bool_decide (tenant_of d = t) then queue_of t ds ++ [d] else queue_of t ds.
Proof.
  unfold queue_of. rewrite filter_app. case_bool_decide.
  - by rewrite (filter_cons_True _ d).
  - by rewrite (filter_cons_False _ d), filter_nil, app_nil_r.
Qed.

Lemma pending_keys ds : (pending_of ds).*1 = tenants ds.
Proof. unfold pending_of. rewrite <- list_fmap_compose. apply list_fmap_id. Qed.

Lemma pending_lookup ds t :
  (list_to_map (pending_of ds) : gmap string (list QueueDelivery)) !! t =
  match queue_of t ds with [] => None | q => Some q end.
Proof.
  destruct (tenants_spec ds) as [Hnd Hin].
  destruct (decide (t ∈ tenants ds)) as [Ht|Ht].
  - rewrite (elem_of_list_to_map_1 _ t (queue_of t ds)); [|by rewrite pending_keys|].
    + apply Hin in Ht. by destruct (queue_of t ds).
    + unfold pending_of. apply list_elem_of_In, in_map_iff. exists t. by rewrite <- list_elem_of_In.
  - rewrite not_elem_of_list_to_map_1 by by rewrite pending_keys.
    destruct (queue_of t ds) eqn:Hq; [done|]. destruct Ht. apply Hin. by rewrite Hq.
Qed.

Lemma add_snoc s ds d : add s (ds ++ [d]) = add_delivery (add s ds) d.
Proof. unfold add. by rewrite foldl_app. Qed.

Lemma add_holds ds : holds (add FairTenantScheduler_new ds) (pending_of ds).
Proof.
  assert (Hrest : NoDup (pending_of ds).*1 ∧ Forall (λ tq, tq.2 ≠ []) (pending_of ds)).
  { destruct (tenants_spec ds) as [Hnd Hin]. rewrite pending_keys. split; [done|].
    apply Forall_fmap, Forall_forall. intros t Ht. by apply Hin. }
  destruct Hrest as [Hnd Hne]. cut (fs_queues (add FairTenantScheduler_new ds) = list_to_map (pending_of ds)
    ∧ fs_round_robin (add FairTenantScheduler_new ds) = tenants ds).
  { intros [??]. split; [done|by rewrite pending_keys|done|done]. }
  clear Hnd Hne. induction ds as [|d ds [Hq Ht]] using rev_ind; [done|].
  rewrite add_snoc. unfold add_delivery. rewrite Hq, Ht, pending_lookup. cbn [fs_queues fs_round_robin].
  split.
  - apply map_eq. intros t. rewrite pending_lookup, queue_of_snoc.
    case_bool_decide as Hd.
    + subst t. rewrite lookup_insert_eq. by destruct (queue_of (tenant_of d) ds).
    + by rewrite lookup_insert_ne, pending_lookup.
  - rewrite tenants_snoc. destruct (tenants_spec ds) as [_ Hin]. specialize (Hin (tenant_of d)).
    case_bool_decide; destruct (queue_of (tenant_of d) ds); naive_solver.
Qed.

(** ** What the scheduler guarantees *)

Lemma serve_round_robin n ds :
  serve n (add FairTenantScheduler_new ds) = inr (take n (round_robin (queues ds))).
Proof.
  rewrite (serve_holds _ _ _ (add_holds ds)), takes_round_robin by apply add_holds.
  unfold pending_of, queues. by rewrite <- list_fmap_compose.
Qed.

Lemma round_robin_perm {A} (qs : list (list A)) : Forall (λ q, q ≠ []) qs → round_robin qs ≡ₚ concat qs.
Proof.
  remember (max_list_with length qs) as h eqn:Hh. revert qs Hh. induction h as [|h IH]; intros qs Hh Hne.
  - destruct qs as [|q qs]; [done|]. apply Forall_cons in Hne as [Hq _]. destruct q; [done|]. simpl in Hh. lia.
  - destruct (decide (qs = [])) as [->|Hqs]; [done|]. rewrite round_robin_step by done.
    rewrite IH; [|by rewrite height_after_turn, <- Hh|].
    + clear. unfold round. induction qs as [|[|x q] qs IH]; [done|exact IH|].
      rewrite !omap_cons_eq. change ((x :: q) !! 0) with (Some x). cbn [app concat].
      constructor. destruct q as [|y q]; [exact IH|]. cbn [after_turn concat].
      rewrite <- IH. by rewrite !(Permutation_app_comm (y :: q)), app_assoc.
    + apply Forall_forall. intros q Hq. apply list_elem_of_omap in Hq as ([|x [|y q']] & _ & Heq); by simplify_eq/=.
Qed.

Lemma queues_nonempty ds : Forall (λ q, q ≠ []) (queues ds).
Proof. apply Forall_fmap, Forall_forall. intros t Ht. by apply (tenants_spec ds). Qed.

Lemma queue_of_other t t' ds : t ≠ t' → queue_of t' (filter (λ d, tenant_of d ≠ t) ds) = queue_of t' ds.
Proof.
  intros Hne. unfold queue_of. rewrite list_filter_filter. apply list_filter_iff. naive_solver.
Qed.

Lemma queues_concat ts ds : NoDup ts → Forall (λ d, tenant_of d ∈ ts) ds →
  concat (map (λ t, queue_of t ds) ts) ≡ₚ ds.
Proof.
  intros Hnd. revert ds. induction Hnd as [|t ts Hin Hnd IH]; intros ds Hds.
  - destruct ds as [|d ds]; [done|]. apply Forall_cons in Hds as [[]%not_elem_of_nil _].
  - cbn [map concat]. transitivity (filter (λ d, tenant_of d = t) ds ++ filter (λ d, tenant_of d ≠ t) ds);
      [|apply filter_app_complement]. apply Permutation_app_head. rewrite <- (IH (filter (λ d, tenant_of d ≠ t) ds)).
    + erewrite map_ext_in; [done|]. intros t' Ht'. symmetry. apply queue_of_other.
      intros ->. apply Hin. by apply list_elem_of_In.
    + apply Forall_forall. intros d [Hne Hd]%list_elem_of_filter.
      rewrite Forall_forall in Hds. apply Hds in Hd. by apply elem_of_cons in Hd as [?|?].
Qed.

Lemma tenants_all ds : Forall (λ d, tenant_of d ∈ tenants ds) ds.
Proof.
  apply Forall_forall. intros d Hd. apply (tenants_spec ds). intros Hnil.
  assert (d ∈ queue_of (tenant_of d) ds) as Hin by (by apply list_elem_of_filter).
  rewrite Hnil in Hin. by apply not_elem_of_nil in Hin.
Qed.

Lemma queue_of_round t k ds ts : NoDup ts →
  queue_of t (round k (map (λ t, queue_of t ds) ts)) =
  if bool_decide (t ∈ ts) then option_list (queue_of t ds !! k) else [].
Proof.
  induction 1 as [|t' ts Hin Hnd IH]; [done|].
  unfold round. cbn [map]. rewrite omap_cons_eq. fold (round k (map (λ t, queue_of t ds) ts)).
  assert (Hq : ∀ d, queue_of t' ds !! k = Some d → tenant_of d = t').
  { intros d Hd. apply list_elem_of_lookup_2 in Hd. by apply list_elem_of_filter in Hd as [? _]. }
  destruct (decide (t = t')) as [->|Hne].
  - rewrite (bool_decide_true (t' ∈ t' :: ts)) by apply list_elem_of_here.
    rewrite bool_decide_false in IH by done.
    destruct (queue_of t' ds !! k) as [d|]; [|exact IH].
    unfold queue_of in *. rewrite filter_cons_True by by apply Hq. by rewrite IH.
  - rewrite (bool_decide_ext (t ∈ t' :: ts) (t ∈ ts)) by (rewrite elem_of_cons; naive_solver).
    destruct (queue_of t' ds !! k) as [d|]; [|exact IH].
    unfold queue_of in *. rewrite filter_cons_False; [exact IH|].
    rewrite (Hq d eq_refl). congruence.
Qed.

Lemma lookup_all {A} (l : list A) n : (length l ≤ n)%nat →
  seq 0 n ≫= (λ k, option_list (l !! k)) = l.
Proof.
  revert n. induction l as [|x l IH]; intros n Hn.
  - induction (seq 0 n) as [|k ks IH']; [done|]. by csimpl.
  - destruct n as [|n]; [simpl in Hn; lia|]. rewrite <- cons_seq, <- fmap_S_seq, bind_cons, bind_S.
    simpl in *. f_equal. apply IH. lia.
Qed.

Lemma queue_of_bind t (l : list nat) f :
  queue_of t (l ≫= f) = l ≫= λ k, queue_of t (f k).
Proof.
  induction l as [|k l IH]; [done|]. rewrite !bind_cons. unfold queue_of in *.
  by rewrite filter_app, IH.
Qed.

Lemma height_ge {A} (q : list A) qs : q ∈ qs → (length q ≤ max_list_with length qs)%nat.
Proof. induction 1 as [q qs|q q' qs _ IH]; simpl; lia. Qed.

(** The order of a tenant's deliveries is kept. *)
Lemma round_robin_fifo t ds : queue_of t (round_robin (queues ds)) = queue_of t ds.
Proof.
  destruct (tenants_spec ds) as [Hnd Hin]. unfold round_robin. rewrite queue_of_bind.
  erewrite list_bind_ext; [|intros k; by apply queue_of_round|reflexivity].
  case_bool_decide as Ht.
  - apply lookup_all, height_ge. by apply list_elem_of_fmap_2 with (f := λ t, queue_of t ds).
  - rewrite Hin in Ht. apply dec_stable in Ht. rewrite Ht.
    induction (seq 0 _) as [|k ks IH]; [done|]. by csimpl.
Qed.

(** C19. The scheduler serves the deliveries it was given in round-robin order:
    first the oldest delivery of every tenant, then the second of every tenant
    that has one, and so on.  No call of [pop] fails, every delivery is served
    once, and the order within a tenant is kept. *)
Theorem scheduler_serves_round_robin n ds :
  serve n (add FairTenantScheduler_new ds) = inr (take n (round_robin (queues ds))) ∧
  round_robin (queues ds) ≡ₚ ds ∧
  ∀ t, queue_of t (round_robin (queues ds)) = queue_of t ds.
Proof.
  split; [apply serve_round_robin|]. split; [|intros t; apply round_robin_fifo].
  rewrite round_robin_perm by apply queues_nonempty.
  apply queues_concat; [apply tenants_spec|apply tenants_all].
Qed.

Lemma round_length {A} k (qs : list (list A)) : (length (round k qs) ≤ length qs)%nat.
Proof.
  induction qs as [|q qs IH]; [done|]. unfold round in *. rewrite omap_cons_eq.
  destruct (q !! k); simpl; lia.
Qed.

Lemma round_robin_split {A} k (qs : list (list A)) : (k < max_list_with length qs)%nat →
  ∃ before after, round_robin qs = before ++ round k qs ++ after ∧ (length before ≤ k * length qs)%nat.
Proof.
  intros Hk. exists (seq 0 k ≫= λ k, round k qs), (seq (S k) (max_list_with length qs - S k) ≫= λ k, round k qs).
  split.
  - unfold round_robin. rewrite app_assoc.
    replace (max_list_with length qs) with (k + S (max_list_with length qs - S k))%nat at 1 by lia.
    rewrite seq_app, bind_app, Nat.add_0_l, <- app_assoc. by rewrite <- cons_seq, bind_cons.
  - clear Hk. generalize 0%nat. induction k as [|k IH]; intros j; [simpl; lia|].
    rewrite <- cons_seq, bind_cons, length_app. pose proof (round_length j qs).
    specialize (IH (S j)). lia.
Qed.

(** C20. No tenant starves: with [k] tenants waiting, the delivery at position
    [i] of its tenant's queue is served by the first [(i + 1) * k] calls of
    [pop], whatever the other tenants have queued. *)
Theorem waiting_is_bounded ds t i d :
  queue_of t ds !! i = Some d →
  ∃ n before, (n < (i + 1) * length (tenants ds))%nat ∧
    serve (S n) (add FairTenantScheduler_new ds) = inr (before ++ [d]).
Proof.
  intros Hd.
  assert (Ht : t ∈ tenants ds) by (apply (tenants_spec ds); intros Hnil; by rewrite Hnil in Hd).
  assert (Hq : queue_of t ds ∈ queues ds) by by apply list_elem_of_fmap_2 with (f := λ t, queue_of t ds).
  destruct (round_robin_split i (queues ds)) as (pre & post & Hrr & Hlen).
  { apply lookup_lt_Some in Hd. pose proof (height_ge _ _ Hq). lia. }
  assert (Hround : d ∈ round i (queues ds)) by (apply list_elem_of_omap; eauto).
  apply list_elem_of_split in Hround as (l1 & l2 & Hround).
  pose proof (round_length i (queues ds)) as Hl. rewrite Hround in Hl. unfold queues in Hl, Hlen.
  rewrite length_map in Hl, Hlen. rewrite length_app in Hl. simpl in Hl.
  exists (length (pre ++ l1)), (pre ++ l1). split; [rewrite length_app; lia|].
  rewrite serve_round_robin, Hrr, Hround. f_equal.
  rewrite <- (app_assoc l1), app_assoc, <- app_comm_cons, (cons_middle d), app_assoc.
  rewrite take_app_length' by (rewrite !length_app; simpl; lia). done.
Qed.

(** ** A sample *)

Definition sample_delivery_of (tenant : string) (n : N) : QueueDelivery :=
  {| qd_stream_entry_id := "1-0"; qd_delivery_count := 1; qd_idle_milliseconds := 0;
     qd_envelope :=
       {| me_message_id := n; me_tenant_id := tenant; me_work_id := n; me_event_id := None;
          me_destination := "aegis.work"; me_correlation_id := 7%N; me_causation_id := None;
          me_occurred_at := Dt.Aware 5; me_payload := []; me_headers := [];
          me_schema_version := 1 |} |}.

Definition sample_deliveries : list QueueDelivery :=
  [sample_delivery_of "acme" 1; sample_delivery_of "acme" 2; sample_delivery_of "acme" 3;
   sample_delivery_of "globex" 4; sample_delivery_of "acme" 5; sample_delivery_of "initech" 6].

Example sample_order :
  map (λ d, me_message_id (qd_envelope d)) (round_robin (queues sample_deliveries))
  = [1; 4; 6; 2; 3; 5]%N.
Proof. reflexivity. Qed.

Lemma waiting_is_bounded_witness :
  ∃ n before, (n < 3)%nat ∧
    serve (S n) (add FairTenantScheduler_new sample_deliveries)
    = inr (before ++ [sample_delivery_of "initech" 6]).
Proof. exact (waiting_is_bounded sample_deliveries "initech" 0 _ eq_refl). Defined.
