(* ===== verification/WorkerRuntime.v ===== *)
(** * The worker supervisor

    Models [WorkerSupervisor] of [runtime/__init__.py]: a delivery is claimed,
    handed to the handler under a heartbeat, settled and acknowledged; a batch
    of deliveries runs in fair order on a bounded number of tasks.  The store
    is used through the class [WorkerStateStore], the protocol of the source.

    Tasks of the supervisor, of other workers and of operators may change the
    store at every await ([wo_others]).  Clocks, the queue, the handler, which
    task ends next and the cancellation of a task are oracles, read at
    increasing ticks.  A task of a batch runs where its end is observed; what
    the others did meanwhile is part of its surroundings.  Metrics and spans
    are left out; a trace records what the supervisor did. *)

From stdpp Require Import base gmap list strings.
From Stdlib Require Import ZArith Lia.
From S2P Require Import Prelude PyLib Json Events Identity Work Database EventStore Wire.
From S2P Require Import Floats Backoff Scheduler.

Local Open Scope Z_scope.

(** ** Contracts *)

Record WorkResult : Type := mkWorkResult { wr_result_reference : string }.

Definition WorkResult_post_init (r : WorkResult) : result WorkResult :=
  raise! ValueError "result_reference is required"
    when! PyStr.is_empty (wr_result_reference r) ;;
  inr r.

(** What a handler is given; [we_cancellation] is the state of the event. *)
Record WorkExecution : Type := mkWorkExecution {
  we_tenant : TenantContext;
  we_delivery : QueueDelivery;
  we_lease : WorkLease;
  we_cancellation : bool;
}.

Definition WorkExecution_payload (e : WorkExecution) : pydict :=
  match dict_get "request_payload" (me_payload (qd_envelope (we_delivery e))) with
  | Some (PDict d) | Some (PProxy d) => d
  | _ => []
  end.

(** The constructor of [WorkerExecutionError]. *)
Definition WorkerExecutionError_init (failure_class : FailureClass) (error_code : string)
    : result exn :=
  raise! ValueError "bounded error_code is required"
    when! PyStr.is_empty error_code || (128 <? PyStr.len error_code) ;;
  inr (WorkerExecutionError failure_class error_code).

Definition _timeout_seconds (delivery : QueueDelivery) : result Z :=
  match default (PInt 300) (dict_get "timeout_seconds" (me_payload (qd_envelope delivery))) with
  | PInt value =>
      if (1 <=? value) && (value <=? 86400) then inr value
      else inl (WorkerExecutionError PERMANENT "invalid_task_timeout")
  | _ => inl (WorkerExecutionError PERMANENT "invalid_task_timeout")
  end.

(** [WorkerStateStore] *)
Class WorkerStateStore (R : Type) : Type := {
  st_mark_published : TenantContext → QueueDelivery → Dt.datetime → M exn R unit;
  st_claim : TenantContext → QueueDelivery → string → Dt.datetime → Dt.datetime → Z →
    M exn R (option WorkLease);
  st_start : TenantContext → QueueDelivery → WorkLease → Dt.datetime → M exn R unit;
  st_heartbeat : TenantContext → QueueDelivery → WorkLease → Dt.datetime → Dt.datetime →
    M exn R WorkLease;
  st_cancellation_requested : TenantContext → uuid → M exn R bool;
  st_delivery_complete : TenantContext → uuid → M exn R bool;
  st_succeed : TenantContext → QueueDelivery → WorkLease → Dt.datetime → string → M exn R unit;
  st_cancel : TenantContext → QueueDelivery → WorkLease → Dt.datetime → M exn R unit;
  st_fail : TenantContext → QueueDelivery → WorkLease → Dt.datetime → FailureClass → string →
    option Dt.datetime → M exn R bool;
}.

(** ** State *)

(** How a supervisor tries to settle a leased work. *)
Inductive outcome : Type :=
| Succeeded (reference : string)
| Cancelled
| Failed (failure_class : FailureClass) (error_code : string) (retry_at : option Dt.datetime).

Inductive action : Type :=
| Started (d : QueueDelivery)
| Finished (d : QueueDelivery)
| Leased (d : QueueDelivery) (lease : WorkLease)
| Settling (d : QueueDelivery) (lease : WorkLease) (o : outcome)
| Acknowledged (d : QueueDelivery)
| Quarantined (d : QueueDelivery) (reason_code : string).

(** How the wait for handler and heartbeat ends, unless the heartbeat fails
    before. *)
Inductive wait_end : Type := HandlerDone | TimedOut | WaitCancelled.

Record WorkerOracles (R : Type) : Type := {
  wo_clock : nat → Dt.datetime;
  wo_others : nat → R → R;
  (** the task is cancelled in an await: has the operation run? *)
  wo_cancelled : nat → option bool;
  wo_queue : nat → result unit;
  (** the deliveries of a read of at most so many *)
  wo_deliveries : nat → Z → result (list QueueDelivery);
  wo_handler : nat → WorkExecution → result WorkResult;
  (** awaits of the heartbeat that pass before the wait ends, and its end *)
  wo_wait : nat → nat * wait_end;
  (** which of the active tasks end *)
  wo_done : nat → nat * list nat;
  wo_drain : nat → bool;
  (** whether all active tasks end within the timeout of [drain] *)
  wo_in_time : nat → bool;
}.
Arguments wo_clock {R}.
Arguments wo_others {R}.
Arguments wo_cancelled {R}.
Arguments wo_queue {R}.
Arguments wo_deliveries {R}.
Arguments wo_handler {R}.
Arguments wo_wait {R}.
Arguments wo_done {R}.
Arguments wo_drain {R}.
Arguments wo_in_time {R}.

(** The store, the [cancellation] event of the running delivery, the fields
    [_active] and [_draining], the tick and the trace. *)
Record Worker (R : Type) : Type := mkWorker {
  wk_store : R;
  wk_cancellation : bool;
  wk_active : list QueueDelivery;
  wk_draining : bool;
  wk_tick : nat;
  wk_trace : list action;
}.
Arguments mkWorker {R}.
Arguments wk_store {R}.
Arguments wk_cancellation {R}.
Arguments wk_active {R}.
Arguments wk_draining {R}.
Arguments wk_tick {R}.
Arguments wk_trace {R}.

(** What [WorkerSupervisor.__init__] stores, less its collaborators. *)
Record WorkerSupervisor : Type := mkSupervisor {
  ws_worker_id : string;
  ws_max_concurrency : Z;
  ws_lease_duration : Z;
  ws_heartbeat_interval : Z;
  ws_backoff : ExponentialBackoff;
}.

Definition WorkerSupervisor_init (worker_id : string)
    (max_concurrency lease_duration heartbeat_interval : Z) (backoff : option ExponentialBackoff)
    : result WorkerSupervisor :=
  raise! ValueError "worker_id is required" when! PyStr.is_empty worker_id ;;
  raise! ValueError "max_concurrency must be between 1 and 1000"
    when! negb ((1 <=? max_concurrency) && (max_concurrency <=? 1000)) ;;
  raise! ValueError "lease must exceed a positive heartbeat interval"
    when! (heartbeat_interval <=? 0) || (lease_duration <=? heartbeat_interval) ;;
  inr (mkSupervisor worker_id max_concurrency lease_duration heartbeat_interval
         (default default_backoff backoff)).

(** [from_settings], from the three settings it reads. *)
Definition from_settings
    (worker_max_concurrency worker_lease_seconds worker_heartbeat_seconds : Z)
    (worker_id : string) (backoff : option ExponentialBackoff) : result WorkerSupervisor :=
  WorkerSupervisor_init worker_id worker_max_concurrency (worker_lease_seconds * Dt.second)
    (worker_heartbeat_seconds * Dt.second) backoff.

(** ** Operations *)

Section Supervisor.
Context {R : Type} {Store : WorkerStateStore R} (o : WorkerOracles R) (supervisor : WorkerSupervisor)
  (quota : TenantContext → result Z).

Abbreviation Wk := (M exn (Worker R)).

Definition set_store (store : R) (s : Worker R) : Worker R :=
  mkWorker store (wk_cancellation s) (wk_active s) (wk_draining s) (wk_tick s) (wk_trace s).
Definition set_cancellation (c : bool) (s : Worker R) : Worker R :=
  mkWorker (wk_store s) c (wk_active s) (wk_draining s) (wk_tick s) (wk_trace s).
Definition set_active (f : list QueueDelivery → list QueueDelivery) (s : Worker R) : Worker R :=
  mkWorker (wk_store s) (wk_cancellation s) (f (wk_active s)) (wk_draining s) (wk_tick s)
    (wk_trace s).
Definition set_draining (f : bool → bool) (s : Worker R) : Worker R :=
  mkWorker (wk_store s) (wk_cancellation s) (wk_active s) (f (wk_draining s)) (wk_tick s)
    (wk_trace s).
Definition tick (s : Worker R) : Worker R :=
  mkWorker (wk_store s) (wk_cancellation s) (wk_active s) (wk_draining s) (S (wk_tick s))
    (wk_trace s).
Definition record (a : action) (s : Worker R) : Worker R :=
  mkWorker (wk_store s) (wk_cancellation s) (wk_active s) (wk_draining s) (wk_tick s)
    (wk_trace s ++ [a]).

Definition ask {A} (f : nat → A) : Wk A := λ s, (inr (f (wk_tick s)), tick s).

(** [self._clock()] *)
Definition clock : Wk Dt.datetime := ask (wo_clock o).

Definition on_store {A} (m : M exn R A) : Wk A := λ s,
  let '(r, store) := m (wk_store s) in (r, set_store store s).

(** What the others do while a task waits. *)
Definition others : Wk unit := λ s, (inr tt, tick (set_store (wo_others o (wk_tick s) (wk_store s)) s)).

(** [await self._state.op(...)]: the operation is atomic once it runs; the
  task may be cancelled before it runs or before its result arrives. *)
Definition await_store {A} (m : M exn R A) : Wk A :=
  do! others ;;
  let! cancelled := ask (wo_cancelled o) in
  match cancelled with
  | None => on_store m
  | Some false => raise CancelledError
  | Some true => λ s, let '(_, s') := on_store m s in (inl CancelledError, s')
  end.

(** The same in the heartbeat task, which is cancelled only by its owner. *)
Definition heartbeat_store {A} (m : M exn R A) : Wk A := do! others ;; on_store m.

(** [await self._queue.op(...)]: the reply includes a cancellation. *)
Definition await_queue (a : action) : Wk unit :=
  do! modify (record a) ;;
  do! others ;;
  let! reply := ask (wo_queue o) in
  lift reply.

Section Delivery.
Context (tenant : TenantContext) (delivery : QueueDelivery) (lease : WorkLease).

Definition except_Exception (e : exn) : bool :=
  match e with CancelledError => false | _ => true end.

(** How the heartbeat task stands: still running, or done. *)
Inductive heartbeat_status : Type := Beating | Stopped (r : result unit).

(** [heartbeat]: the loop until [awaits] of its awaits have passed.  It is
cut short between the awaits of a round as well. *)
Fixpoint heartbeat_task (awaits : nat) (current : WorkLease) : Wk heartbeat_status :=
  match awaits with
  | O => ret Beating
  | S awaits =>
  let! at_ := clock in
  match awaits with
  | O => ret Beating
  | S awaits =>
      let! checked := catch
        (let! requested := heartbeat_store
           (st_cancellation_requested tenant (wl_work_id lease)) in
         do! (if requested : bool then modify (set_cancellation true) else ret tt) ;;
         ret None)
        (λ e, ret (Some e)) in
      match checked with
      | Some e => ret (Stopped (inl e))
      | None =>
          match awaits with
          | O => ret Beating
          | S awaits =>
              let! renewed := catch
                (let! renewed := heartbeat_store
                   (st_heartbeat tenant delivery current at_
                      (Dt.add at_ (ws_lease_duration supervisor))) in
                 ret (inr renewed))
                (λ e, ret (inl (if except_Exception e
                                then WorkerExecutionError RETRYABLE "heartbeat_failed"
                                else e))) in
              match renewed with
              | inl e => ret (Stopped (inl e))
              | inr current => heartbeat_task awaits current
              end
          end
      end
  end
  end.

(** The [try] block of [_execute_handler]: a heartbeat that is done decides
before the handler does. *)
Definition await_handler : Wk WorkResult :=
  let! _ := lift (_timeout_seconds delivery) in
  let! waited := ask (wo_wait o) in
  let '(awaits, ended) := (waited : nat * wait_end) in
  let! status := heartbeat_task awaits lease in
  do! others ;;
  match status, ended with
  | _, WaitCancelled => raise CancelledError
  | Beating, TimedOut => raise TimeoutError
  | Stopped (inl e), _ => raise e
  | Stopped (inr _), TimedOut => raise (WorkerExecutionError RETRYABLE "heartbeat_stopped")
  | _, HandlerDone =>
  let! cancellation := gets wk_cancellation in
  let! reply := ask (wo_handler o) in
  lift (reply (mkWorkExecution tenant delivery lease cancellation))
  end.

(** [_execute_handler]: its [finally] block waits for both tasks, which may
be cancelled. *)
Definition _execute_handler : Wk WorkResult :=
  try_finally await_handler (await_store (ret tt)).

Definition settle (out : outcome) : Wk unit := modify (record (Settling delivery lease out)).

Definition _record_failure (failure_class : FailureClass) (error_code : string) : Wk bool :=
    let! retry_at :=
  if bool_decide (failure_class ∈ [RETRYABLE; TIMEOUT]) then
    let! now := clock in
    let! wait := lift (delay (ws_backoff supervisor) (wl_attempt lease)) in
    ret (Some (Dt.add now wait))
  else ret None in
    catch
  (let! at_ := clock in
   do! settle (Failed failure_class error_code retry_at) ;;
   let! _ := await_store (st_fail tenant delivery lease at_ failure_class error_code retry_at) in
   ret true)
  (λ e, if except_FencingError e then ret false else raise e).

Definition cancel_work : Wk unit :=
  let! at_ := clock in
  do! settle Cancelled ;;
  await_store (st_cancel tenant delivery lease at_).

(** The [try] block after the claim. *)
Definition run_leased (started_at : Dt.datetime) : Wk unit :=
    let! at_ := clock in
    do! await_store (st_start tenant delivery lease at_) ;;
    let! done := _execute_handler in
    let! requested := await_store (st_cancellation_requested tenant (wl_work_id lease)) in
    if requested : bool then
  do! modify (set_cancellation true) ;; cancel_work
    else
  let! at_ := clock in
  do! settle (Succeeded (wr_result_reference done)) ;;
  do! await_store (st_succeed tenant delivery lease at_ (wr_result_reference done)) ;;
  let! now := clock in
  let! _ := lift (Dt.sub now started_at) in
  ret tt.

(** Its [except] blocks: whether the delivery is acknowledged after them. *)
Definition contain (e : exn) : Wk bool :=
  match e with
  | TimeoutError => _record_failure TIMEOUT "task_timeout"
  | WorkerExecutionError FC_CANCELLED _ =>
  let! requested := await_store (st_cancellation_requested tenant (wl_work_id lease)) in
  if negb requested then ret false else do! cancel_work ;; ret true
  | WorkerExecutionError failure_class error_code => _record_failure failure_class error_code
  | FencingError _ _ =>
  let! requested := await_store (st_cancellation_requested tenant (wl_work_id lease)) in
  if negb requested then ret false
  else catch (do! cancel_work ;; ret true)
             (λ e, if except_FencingError e then ret false else raise e)
  | CancelledError => raise e
  | _ => _record_failure WORKER_BUG "unhandled_worker_exception"
  end.
End Delivery.

Definition acknowledge (delivery : QueueDelivery) : Wk unit := await_queue (Acknowledged delivery).

(** [if await self._state.delivery_complete(...): await acknowledge] *)
Definition acknowledge_complete (tenant : TenantContext) (delivery : QueueDelivery) : Wk bool :=
  let! complete := await_store (st_delivery_complete tenant (me_work_id (qd_envelope delivery))) in
  if complete : bool then do! acknowledge delivery ;; ret true else ret false.

(** The [try] block with the claim and its [except] blocks: the lease, if the
  work goes on, which it does not without one. *)
Definition claim_work (tenant : TenantContext) (delivery : QueueDelivery) (started_at : Dt.datetime)
    : Wk (option WorkLease) :=
  let! lease := catch
    (do! await_store (st_mark_published tenant delivery started_at) ;;
     let! limit := lift (quota tenant) in
     let! lease := await_store
       (st_claim tenant delivery (ws_worker_id supervisor) started_at
          (Dt.add started_at (ws_lease_duration supervisor)) limit) in
     ret (inr lease))
    (λ e, if except_ValueError e then
            do! await_queue (Quarantined delivery "authoritative_delivery_rejected") ;;
            ret (inl tt)
          else if except_ConcurrencyError e then
            let! _ := acknowledge_complete tenant delivery in ret (inl tt)
          else raise e) in
  match lease with
  | inl _ => ret None
  | inr None => let! _ := acknowledge_complete tenant delivery in ret None
  | inr (Some lease) => do! modify (record (Leased delivery lease)) ;; ret (Some lease)
  end.

Definition _process (delivery : QueueDelivery) : Wk unit :=
  match TenantId_new (me_tenant_id (qd_envelope delivery)) with
  | inl e =>
      if except_ValueError e then await_queue (Quarantined delivery "invalid_tenant_envelope")
      else raise e
  | inr id =>
      let tenant := mkTenantContext id in
      let! started_at := clock in
      let! acknowledged := acknowledge_complete tenant delivery in
      if acknowledged : bool then ret tt else
      let! claimed := claim_work tenant delivery started_at in
      match claimed with
      | None => ret tt
      | Some lease =>
          do! modify (set_cancellation false) ;;
          let! settled := catch (do! run_leased tenant delivery lease started_at ;; ret true)
                            (contain tenant delivery lease) in
          if settled : bool then acknowledge delivery else ret tt
      end
  end.

(** ** Batches *)

(** The tasks among [active] that end, in the order in which they are seen. *)
Fixpoint finishing (picks : list nat) (active : list QueueDelivery)
    : list QueueDelivery * list QueueDelivery :=
  match picks with
  | [] => ([], active)
  | k :: picks =>
      let k := (k mod length active)%nat in
      match active !! k with
      | None => ([], active)
      | Some d => let '(done, rest) := finishing picks (delete k active) in (d :: done, rest)
      end
  end.

(** The result of a task that has ended. *)
Definition task_result (m : Wk unit) : Wk (result unit) := λ s, let '(r, s') := m s in (inr r, s').

(** The results of the tasks that have ended. *)
Fixpoint run_tasks (done : list QueueDelivery) : Wk (list (result unit)) :=
  match done with
  | [] => ret []
  | d :: done =>
      let! r := task_result (_process d) in
      do! modify (record (Finished d)) ;;
      let! rs := run_tasks done in
      ret (r :: rs)
  end.

(** [asyncio.wait(...)] ends when a task has; while it waits, the draining of
  the supervisor may be requested. *)
Definition _wait_one : Wk unit :=
  let! active := gets wk_active in
  match active with
  | [] => raise (ValueError "Set of Tasks/Futures is empty.")
  | _ =>
      let! picks := ask (wo_done o) in
      let! drain := ask (wo_drain o) in
      do! modify (set_draining (λ d, d || drain)) ;;
      let '(done, rest) := finishing (picks.1 :: picks.2) active in
      let! results := run_tasks done in
      do! modify (set_active (λ _, rest)) ;;
      for_each results lift
  end.

(** [while len(self._active) >= self._max_concurrency], a round per active
  task: whether the loop ended. *)
Fixpoint wait_for_room (rounds : nat) : Wk bool :=
  let! active := gets wk_active in
  if Z.of_nat (length active) <? ws_max_concurrency supervisor then ret true else
  match rounds with
  | O => ret false
  | S rounds => do! _wait_one ;; wait_for_room rounds
  end.

Fixpoint wait_for_all (rounds : nat) : Wk bool :=
  let! active := gets wk_active in
  match active, rounds with
  | [], _ => ret true
  | _, O => ret false
  | _, S rounds => do! _wait_one ;; wait_for_all rounds
  end.

(** [while scheduler] *)
Fixpoint dispatch (rounds : nat) (scheduler : FairTenantScheduler) : Wk bool :=
  if negb (scheduler_bool scheduler) then ret true else
  match rounds with
  | O => ret false
  | S rounds =>
      let! active := gets wk_active in
      let! room := wait_for_room (length active) in
      if negb room then ret false else
      let! draining := gets wk_draining in
      if draining : bool then ret true else
      let! popped := lift (pop scheduler) in
      match popped with
      | (None, _) => ret true
      | (Some d, scheduler) =>
          do! modify (record (Started d)) ;;
          do! modify (set_active (λ active, active ++ [d])) ;;
          dispatch rounds scheduler
      end
  end.

(** [run_batch]: whether its loops ended within the rounds given them, which
  they always do ([run_batch_bounded_and_complete]). *)
Definition run_batch (deliveries : list QueueDelivery) : Wk bool :=
  let! dispatched := dispatch (length deliveries) (add FairTenantScheduler_new deliveries) in
  if negb dispatched then ret false else
  let! active := gets wk_active in
  wait_for_all (length active).

(** A read of the queue, during which draining may be requested. *)
Definition receive (count : Z) : Wk (list QueueDelivery) :=
  do! others ;;
  let! drain := ask (wo_drain o) in
  do! modify (set_draining (λ d, d || drain)) ;;
  let! reply := ask (wo_deliveries o) in
  lift (reply (Z.min count (ws_max_concurrency supervisor * 4))).

(** [poll_once] and [recover_once] differ in the queue operation only; the
  number of deliveries is returned with the end of the batch. *)
Definition poll_once (count : Z) : Wk (bool * Z) :=
  let! draining := gets wk_draining in
  if draining : bool then ret (true, 0) else
  let! deliveries := receive count in
  let! draining := gets wk_draining in
  if draining : bool then ret (true, 0) else
  let! ended := run_batch deliveries in
  ret (ended, Z.of_nat (length deliveries)).

(** [recover_once] differs in the queue operation only. *)
Definition recover_once (count : Z) : Wk (bool * Z) := poll_once count.

(** [drain]: the tasks are awaited, not removed. *)
Definition drain (timeout : Z) : Wk bool :=
  do! raise_if (timeout <=? 0) (ValueError "drain timeout must be positive") ;;
  do! modify (set_draining (λ _, true)) ;;
  let! active := gets wk_active in
  match active with
  | [] => ret true
  | _ => ask (wo_in_time o)
  end.
End Supervisor.
