(* ===== verification/WorkerTheorems.v ===== *)
(** * Theorems about the worker supervisor

    Proved against the protocol of the store: [WorkerStoreLaws] is what a
    store promises.  A delivery is acknowledged only after its outcome is
    durable, the failures of handlers stay inside the supervisor, and a batch
    runs in fair order within the concurrency bound. *)

From stdpp Require Import base gmap list strings.
From Stdlib Require Import ZArith Lia.
From S2P Require Import Prelude PyLib Json Events Identity Work Database EventStore Wire.
From S2P Require Import Floats Backoff Scheduler WorkerRuntime Raises.

Local Open Scope Z_scope.

(** ** What a store promises *)

(** [st_step] is a preorder that every operation follows; an outcome recorded
    under a lease stays recorded along it. *)
Class WorkerStoreLaws (R : Type) `{WorkerStateStore R} : Type := {
  st_step : R → R → Prop;
  st_outcome : TenantContext → WorkLease → R → Prop;
  st_step_preorder :: PreOrder st_step;
  outcome_stays tenant lease r r' : st_step r r' → st_outcome tenant lease r →
    st_outcome tenant lease r';
  step_mark_published tenant d at_ r x r' : st_mark_published tenant d at_ r = (x, r') → st_step r r';
  step_claim tenant d owner now expires limit r x r' :
    st_claim tenant d owner now expires limit r = (x, r') → st_step r r';
  step_start tenant d lease at_ r x r' : st_start tenant d lease at_ r = (x, r') → st_step r r';
  step_heartbeat tenant d lease at_ expires r x r' :
    st_heartbeat tenant d lease at_ expires r = (x, r') → st_step r r';
  step_cancellation tenant id r x r' : st_cancellation_requested tenant id r = (x, r') → st_step r r';
  step_complete tenant id r x r' : st_delivery_complete tenant id r = (x, r') → st_step r r';
  step_succeed tenant d lease at_ reference r x r' :
    st_succeed tenant d lease at_ reference r = (x, r') → st_step r r';
  step_cancel tenant d lease at_ r x r' : st_cancel tenant d lease at_ r = (x, r') → st_step r r';
  step_fail tenant d lease at_ class code retry_at r x r' :
    st_fail tenant d lease at_ class code retry_at r = (x, r') → st_step r r';
  succeed_outcome tenant d lease at_ reference r u r' :
    st_succeed tenant d lease at_ reference r = (inr u, r') → st_outcome tenant lease r';
  cancel_outcome tenant d lease at_ r u r' :
    st_cancel tenant d lease at_ r = (inr u, r') → st_outcome tenant lease r';
  fail_outcome tenant d lease at_ class code retry_at r b r' :
    st_fail tenant d lease at_ class code retry_at r = (inr b, r') → st_outcome tenant lease r';
}.

#[export] Hint Resolve step_mark_published step_claim step_start step_heartbeat step_cancellation
  step_complete step_succeed step_cancel step_fail : steps.

Create HintDb framed.

Section Theorems.
Context {R : Type} {Store : WorkerStateStore R} {Laws : WorkerStoreLaws R} (o : WorkerOracles R) (supervisor : WorkerSupervisor)
  (quota : TenantContext → result Z).
Hypothesis others_step : ∀ n r, st_step r (wo_others o n r).

Abbreviation Wk := (M exn (Worker R)).

(** ** Frames

  What a computation inside a task leaves: the active tasks, the draining,
  and a trace that grows by actions in [Q]. *)

Record frame (Q : action → Prop) (s s' : Worker R) : Prop := {
  fr_step : st_step (wk_store s) (wk_store s');
  fr_active : wk_active s' = wk_active s;
  fr_draining : wk_draining s' = wk_draining s;
  fr_trace : ∃ new, wk_trace s' = wk_trace s ++ new ∧ Forall Q new;
}.

#[local] Instance frame_preorder Q : PreOrder (frame Q).
Proof.
  split.
  - intros s. split; [reflexivity|done|done|]. exists []. by rewrite app_nil_r.
  - intros s1 s2 s3 [St1 Ac1 Dr1 (n1 & Tr1 & Q1)] [St2 Ac2 Dr2 (n2 & Tr2 & Q2)].
    split; [by etransitivity|congruence|congruence|]. exists (n1 ++ n2).
    rewrite Tr2, Tr1, app_assoc. split; [done|by apply Forall_app].
Qed.

Definition framed {A} (Q : action → Prop) (m : Wk A) : Prop :=
  ∀ s r s', m s = (r, s') → frame Q s s'.

Lemma frame_weaken (Q Q' : action → Prop) s s' : (∀ a, Q a → Q' a) → frame Q s s' → frame Q' s s'.
Proof.
  intros HQ [St Ac Dr (new & Tr & Hall)]. split; try done. exists new. split; [done|].
  by eapply Forall_impl.
Qed.

Lemma framed_ret {A} Q (a : A) : framed Q (ret a).
Proof. intros s r s' [= _ <-]. reflexivity. Qed.
Lemma framed_raise {A} Q e : framed (A := A) Q (raise e).
Proof. intros s r s' [= _ <-]. reflexivity. Qed.
Lemma framed_lift {A} Q (x : result A) : framed Q (lift x).
Proof. intros s r s' [= _ <-]. reflexivity. Qed.
Lemma framed_gets {A} Q (f : Worker R → A) : framed Q (gets f).
Proof. intros s r s' [= _ <-]. reflexivity. Qed.
Lemma framed_bind {A B} Q (m : Wk A) (k : A → Wk B) :
  framed Q m → (∀ a, framed Q (k a)) → framed Q (bind m k).
Proof.
  intros Hm Hk s r s'. unfold bind. destruct (m s) as [[e|a] s1] eqn:H1.
  - intros [= _ <-]. by eapply Hm.
  - intros Hrun. transitivity s1; [by eapply Hm|by eapply Hk].
Qed.
Lemma framed_catch {A} Q (m : Wk A) (h : exn → Wk A) :
  framed Q m → (∀ e, framed Q (h e)) → framed Q (catch m h).
Proof.
  intros Hm Hh s r s'. unfold catch. destruct (m s) as [[e|a] s1] eqn:H1.
  - intros Hrun. transitivity s1; [by eapply Hm|by eapply Hh].
  - intros [= _ <-]. by eapply Hm.
Qed.
Lemma framed_finally {A} Q (m : Wk A) (f : Wk unit) : framed Q m → framed Q f → framed Q (try_finally m f).
Proof.
  intros Hm Hf s r s'. unfold try_finally. destruct (m s) as [x s1] eqn:H1.
  destruct (f s1) as [y s2] eqn:H2. intros Hr. transitivity s1; [by eapply Hm|].
  destruct y; injection Hr as _ <-; by eapply Hf.
Qed.
Lemma framed_cancellation Q c : framed Q (modify (set_cancellation c)).
Proof. intros s r s' [= _ <-]. split; try done. exists []. by rewrite app_nil_r. Qed.
Lemma framed_ask {A} Q (f : nat → A) : framed Q (ask f).
Proof. intros s r s' [= _ <-]. split; try done. exists []. by rewrite app_nil_r. Qed.
Lemma framed_clock Q : framed Q (clock o).
Proof. apply framed_ask. Qed.
Lemma framed_others Q : framed Q (others o).
Proof. intros s r s' [= _ <-]. split; try done; [apply others_step|]. exists []. by rewrite app_nil_r. Qed.
Lemma framed_record (Q : action → Prop) a : Q a → framed Q (modify (record a)).
Proof. intros Ha s r s' [= _ <-]. split; try done. exists [a]. split; [done|by constructor]. Qed.
Lemma framed_store {A} Q (m : M exn R A) : (∀ r x r', m r = (x, r') → st_step r r') → framed Q (on_store m).
Proof.
  intros Hm s r s'. unfold on_store. destruct (m (wk_store s)) as [x store] eqn:H1.
  intros [= _ <-]. split; try done; [by eapply Hm|]. exists []. by rewrite app_nil_r.
Qed.
#[local] Hint Resolve framed_ret framed_raise framed_lift framed_gets framed_bind framed_catch
  framed_finally framed_cancellation framed_ask framed_clock framed_others framed_store : framed.

Lemma framed_await {A} Q (m : M exn R A) : (∀ r x r', m r = (x, r') → st_step r r') →
  framed Q (await_store o m).
Proof.
  intros Hm. unfold await_store. apply framed_bind; [auto with framed|intros _].
  apply framed_bind; [auto with framed|]. intros [[]|]; auto with framed.
  intros s r s'. destruct (on_store m s) as [x s1] eqn:H1. intros [= _ <-].
  by eapply framed_store.
Qed.
Lemma framed_heartbeat_store {A} Q (m : M exn R A) : (∀ r x r', m r = (x, r') → st_step r r') →
  framed Q (heartbeat_store o m).
Proof. intros Hm. unfold heartbeat_store. auto with framed. Qed.
Lemma framed_queue (Q : action → Prop) a : Q a → framed Q (await_queue o a).
Proof. intros Ha. unfold await_queue. apply framed_bind; [by apply framed_record|]. auto with framed. Qed.
Lemma step_ret (r r' : R) (x : exn + unit) : ret tt r = (x, r') → st_step r r'.
Proof. by intros [= _ <-]. Qed.
#[local] Hint Resolve framed_await framed_heartbeat_store framed_queue framed_record step_ret : framed.
#[local] Hint Extern 5 (st_step _ _) => eauto with steps : framed.

(** Along the structure of the code. *)
Ltac framed_solve :=
  cbv zeta;
  repeat first [ solve [eauto 5 with framed steps]
               | apply framed_bind; [|intros ?]
               | apply framed_catch; [|intros ?]
               | case_match ];
  eauto 6 with framed steps.

(** What a task does for its delivery, but for the acknowledgement. *)
Definition task_action (d : QueueDelivery) (a : action) : Prop :=
  match a with Leased d' _ | Settling d' _ _ | Quarantined d' _ => d' = d | _ => False end.

Section Task.
Context (tenant : TenantContext) (d : QueueDelivery) (lease : WorkLease).

Lemma framed_heartbeat n current :
  framed (task_action d) (heartbeat_task o supervisor tenant d lease n current).
Proof.
  revert n current. fix IH 1. intros [|[|[|n]]] current; cbn [heartbeat_task]; framed_solve.
Qed.

Lemma framed_execute : framed (task_action d) (_execute_handler o supervisor tenant d lease).
Proof.
  pose proof framed_heartbeat. unfold _execute_handler, await_handler. apply framed_finally; framed_solve.
Qed.

Lemma framed_settle out : framed (task_action d) (settle d lease out).
Proof. by apply framed_record. Qed.
#[local] Hint Resolve framed_execute framed_settle : framed.

Lemma framed_failure class code :
  framed (task_action d) (_record_failure o supervisor tenant d lease class code).
Proof. unfold _record_failure. framed_solve. Qed.

Lemma framed_cancel : framed (task_action d) (cancel_work o tenant d lease).
Proof. unfold cancel_work. framed_solve. Qed.
#[local] Hint Resolve framed_failure framed_cancel : framed.

Lemma framed_run started_at : framed (task_action d) (run_leased o supervisor tenant d lease started_at).
Proof. unfold run_leased. framed_solve. Qed.

Lemma framed_contain e : framed (task_action d) (contain o supervisor tenant d lease e).
Proof. unfold contain. framed_solve. Qed.
End Task.

#[local] Hint Resolve framed_run framed_contain : framed.

(** ** Acknowledgements *)

(** The store reported the delivery complete, or the lease taken for it has
  an outcome. *)
Definition justified (d : QueueDelivery) (s : Worker R) : Prop :=
  ∃ id, TenantId_new (me_tenant_id (qd_envelope d)) = inr id ∧
    let tenant := mkTenantContext id in
    ((∃ r r', st_delivery_complete tenant (me_work_id (qd_envelope d)) r = (inr true, r') ∧
              st_step r' (wk_store s)) ∨
     (∃ lease, Leased d lease ∈ wk_trace s ∧ st_outcome tenant lease (wk_store s))).

Definition acks_ok (s : Worker R) : Prop := ∀ d, Acknowledged d ∈ wk_trace s → justified d s.

Lemma justified_later d s s' new : st_step (wk_store s) (wk_store s') →
  wk_trace s' = wk_trace s ++ new → justified d s → justified d s'.
Proof.
  intros St Tr (id & Hid & Hcase). exists id. split; [done|].
  destruct Hcase as [(r & r' & Hr & Hstep)|(lease & Hin & Hout)]; [left|right].
  - exists r, r'. split; [done|]. by etransitivity.
  - exists lease. rewrite Tr. split; [by apply elem_of_app; left|]. by eapply outcome_stays.
Qed.

Lemma justified_frame Q d s s' : frame Q s s' → justified d s → justified d s'.
Proof. intros [St _ _ (new & Tr & _)]. by eapply justified_later. Qed.

Lemma acks_frame (Q : action → Prop) s s' :
  (∀ d, Q (Acknowledged d) → justified d s) → frame Q s s' → acks_ok s → acks_ok s'.
Proof.
  intros HQ Hf Hok d Hin. eapply justified_frame; [exact Hf|].
  destruct Hf as [_ _ _ (new & Tr & Hnew)]. rewrite Tr in Hin.
  apply elem_of_app in Hin as [?|Hin]; [by apply Hok|]. rewrite Forall_forall in Hnew. by apply HQ, Hnew.
Qed.

Lemma acks_task d s s' : frame (task_action d) s s' → acks_ok s → acks_ok s'.
Proof. by apply acks_frame. Qed.

Lemma await_ok {A} (m : M exn R A) s a s' :
  await_store o m s = (inr a, s') → ∃ r, m r = (inr a, wk_store s').
Proof.
  unfold await_store. intros Hrun. apply bind_ok in Hrun as (u & s1 & _ & Hrun).
  apply bind_ok in Hrun as (c & s2 & _ & Hrun). destruct c as [[]|]; try done.
  - by destruct (on_store m s2).
  - unfold on_store in Hrun. exists (wk_store s2). destruct (m (wk_store s2)). by injection Hrun as -> <-.
Qed.

Lemma framed_acknowledge d : framed (λ a, a = Acknowledged d) (acknowledge o d).
Proof. by apply framed_queue. Qed.

Lemma acknowledge_ok d s r s' : acknowledge o d s = (r, s') → justified d s → acks_ok s → acks_ok s'.
Proof.
  intros Hrun Hj. eapply acks_frame; [|by eapply framed_acknowledge].
  by intros d' [= ->].
Qed.

Lemma acknowledge_complete_ok id d s r s' :
  TenantId_new (me_tenant_id (qd_envelope d)) = inr id →
  acknowledge_complete o (mkTenantContext id) d s = (r, s') → acks_ok s → acks_ok s'.
Proof.
  intros Hid Hrun Hok. unfold acknowledge_complete in Hrun. unfold bind at 1 in Hrun.
  destruct (await_store o _ s) as [[e|complete] s1] eqn:H1.
  - injection Hrun as _ <-. eapply (acks_task d); [|done]. eapply framed_await; [|exact H1]. eauto with steps.
  - assert (Hok1 : acks_ok s1).
    { eapply (acks_task d); [|done]. eapply framed_await; [|exact H1]. eauto with steps. }
    destruct complete; [|by injection Hrun as _ <-].
    unfold bind in Hrun. destruct (acknowledge o d s1) as [r2 s2] eqn:H2.
    enough (acks_ok s2) by (by destruct r2; injection Hrun as _ <-).
    eapply acknowledge_ok; [exact H2| |done]. exists id. split; [done|]. left.
    apply await_ok in H1 as (r0 & Hr0). by exists r0, (wk_store s1).
Qed.

Lemma acks_bind {A B} (m : Wk A) (k : A → Wk B) s r s' :
  bind m k s = (r, s') → acks_ok s →
  (∀ x s1, m s = (x, s1) → acks_ok s1) →
  (∀ a s1, m s = (inr a, s1) → acks_ok s1 → k a s1 = (r, s') → acks_ok s') → acks_ok s'.
Proof.
  intros Hrun Hok Hm Hk. unfold bind in Hrun. destruct (m s) as [[e|a] s1] eqn:H1.
  - injection Hrun as _ <-. by eapply Hm.
  - by eapply Hk; [|eapply Hm|].
Qed.

Lemma acks_framed {A} d (m : Wk A) s r s' :
  framed (task_action d) m → m s = (r, s') → acks_ok s → acks_ok s'.
Proof. intros Hf Hrun. eapply acks_task. by eapply Hf. Qed.

(** The claim acknowledges only what the store reports complete. *)
Lemma claim_work_ok id d started_at s r s' :
  TenantId_new (me_tenant_id (qd_envelope d)) = inr id →
  claim_work o supervisor quota (mkTenantContext id) d started_at s = (r, s') → acks_ok s → acks_ok s'.
Proof.
  intros Hid Hrun Hok. unfold claim_work in Hrun. eapply acks_bind; [exact Hrun|exact Hok| |].
  - intros x s1. unfold catch. match goal with |- context [match ?b s with _ => _ end] =>
      destruct (b s) as [[e|a] s0] eqn:H0 end.
    + assert (acks_ok s0) by (eapply (acks_framed d); [|exact H0|done]; framed_solve).
      destruct (except_ValueError e).
      * intros H1. eapply (acks_framed d); [|exact H1|done]. apply framed_bind; [by apply framed_queue|auto with framed].
      * destruct (except_ConcurrencyError e); [|by intros [= _ <-]].
        intros H1. unfold bind in H1. destruct (acknowledge_complete _ _ _ _) as [y s2] eqn:H2.
        enough (acks_ok s2) by (by destruct y; injection H1 as _ <-). by eapply acknowledge_complete_ok.
    + intros [= _ <-]. eapply (acks_framed d); [|exact H0|done]. framed_solve.
  - intros [u|[lease|]] s1 _ Hok1 H2.
    + by injection H2 as _ <-.
    + eapply (acks_framed d); [|exact H2|done]. apply framed_bind; [by apply framed_record|auto with framed].
    + unfold bind in H2. destruct (acknowledge_complete _ _ _ _) as [y s2] eqn:H3.
      enough (acks_ok s2) by (by destruct y; injection H2 as _ <-). by eapply acknowledge_complete_ok.
Qed.

Lemma claim_work_leased id d started_at s lease s' :
  claim_work o supervisor quota (mkTenantContext id) d started_at s = (inr (Some lease), s') →
  Leased d lease ∈ wk_trace s'.
Proof.
  unfold claim_work. intros Hrun. apply bind_ok in Hrun as ([u|[l|]] & s1 & _ & Hrun).
  - done.
  - apply bind_ok in Hrun as (u & s2 & Hm & Hr). injection Hm as _ <-. injection Hr as <- <-.
    apply elem_of_app. right. by apply list_elem_of_singleton.
  - by apply bind_ok in Hrun as (? & ? & _ & ?).
Qed.

(** ** Settlements *)

Section Settled.
Context (tenant : TenantContext) (d : QueueDelivery) (lease : WorkLease).

Lemma cancel_work_outcome s u s' :
  cancel_work o tenant d lease s = (inr u, s') → st_outcome tenant lease (wk_store s').
Proof.
  unfold cancel_work. intros Hrun. apply bind_ok in Hrun as (at_ & s1 & _ & Hrun).
  apply bind_ok in Hrun as (? & s2 & _ & Hrun). apply await_ok in Hrun as (r & Hr).
  by eapply cancel_outcome.
Qed.

Lemma record_failure_outcome class code s s' :
  _record_failure o supervisor tenant d lease class code s = (inr true, s') →
  st_outcome tenant lease (wk_store s').
Proof.
    unfold _record_failure. intros Hrun. apply bind_ok in Hrun as (retry & s1 & _ & Hrun).
    unfold catch in Hrun. match type of Hrun with context [match ?b with _ => _ end] =>
  destruct b as [[e|b0] s2] eqn:Hb end.
    - by destruct (except_FencingError e).
    - injection Hrun as _ <-. apply bind_ok in Hb as (at_ & s3 & _ & Hb).
  apply bind_ok in Hb as (? & s4 & _ & Hb). apply bind_ok in Hb as (terminal & s5 & Hb & Hr).
  injection Hr as _ <-. apply await_ok in Hb as (r & Hr). by eapply fail_outcome.
Qed.

Lemma run_leased_outcome started_at s u s' :
  run_leased o supervisor tenant d lease started_at s = (inr u, s') →
  st_outcome tenant lease (wk_store s').
Proof.
    unfold run_leased. intros Hrun. do 4 apply bind_ok in Hrun as (? & ? & _ & Hrun).
    match type of Hrun with (if ?b then _ else _) _ = _ => destruct b end.
    - apply bind_ok in Hrun as (? & ? & _ & Hrun). by eapply cancel_work_outcome.
    - do 2 apply bind_ok in Hrun as (? & ? & _ & Hrun).
  apply bind_ok in Hrun as (? & s1 & Hs & Hrun). apply await_ok in Hs as (r & Hr).
  apply succeed_outcome in Hr. apply bind_ok in Hrun as (? & s2 & Hc & Hrun).
  injection Hc as _ <-. apply bind_ok in Hrun as (? & s3 & Hl & Hrun).
  injection Hl as _ <-. by injection Hrun as _ <-.
Qed.

Lemma contain_outcome e s s' :
  contain o supervisor tenant d lease e s = (inr true, s') → st_outcome tenant lease (wk_store s').
Proof.
    assert (Hcancel : ∀ s s', bind (cancel_work o tenant d lease) (λ _, ret true) s = (inr true, s') →
  st_outcome tenant lease (wk_store s')).
    { intros s1 s1' Hrun. apply bind_ok in Hrun as (? & ? & Hc & Hrun). injection Hrun as <-.
  by eapply cancel_work_outcome. }
    unfold contain. destruct e; try (by apply record_failure_outcome); try done.
    - intros Hrun. apply bind_ok in Hrun as (b & s1 & _ & Hrun). destruct (negb b); [done|].
  unfold catch in Hrun. destruct (bind _ _ s1) as [[e|b0] s2] eqn:Hb; [by destruct (except_FencingError e)|].
  injection Hrun as -> <-. by eapply Hcancel.
    - destruct failure_class; try (by apply record_failure_outcome).
  intros Hrun. apply bind_ok in Hrun as (b & s1 & _ & Hrun). destruct (negb b); [done|].
  by eapply Hcancel.
Qed.
End Settled.

(** One delivery: acknowledged only with cause. *)
Lemma process_acks d s r s' :
  _process o supervisor quota d s = (r, s') → acks_ok s → acks_ok s'.
Proof.
  unfold _process. intros Hrun Hok.
  destruct (TenantId_new (me_tenant_id (qd_envelope d))) as [e|id] eqn:Hid.
  { destruct (except_ValueError e); [|by injection Hrun as _ <-].
    eapply (acks_framed d); [|exact Hrun|done]. by apply framed_queue. }
  eapply acks_bind; [exact Hrun|done| |].
  { intros x s1 H1. eapply (acks_framed d); [|exact H1|done]. auto with framed. }
  intros started s1 _ Hok1 H1. eapply acks_bind; [exact H1|done| |].
  { intros x s2 H2. by eapply acknowledge_complete_ok. }
  intros [] s2 _ Hok2 H2; [by injection H2 as _ <-|]. eapply acks_bind; [exact H2|done| |].
  { intros x s3 H3. by eapply claim_work_ok. }
  intros [lease|] s3 Hlease Hok3 H3; [|by injection H3 as _ <-].
  apply claim_work_leased in Hlease. eapply acks_bind; [exact H3|done| |].
  { intros x s4 H4. eapply (acks_framed d); [|exact H4|done]. auto with framed. }
  intros u s4 H4 Hok4 H5.
  assert (Hl4 : Leased d lease ∈ wk_trace s4) by by injection H4 as _ <-.
  assert (Hbody : framed (task_action d) (catch
    (bind (run_leased o supervisor (mkTenantContext id) d lease started) (λ _, ret true))
    (contain o supervisor (mkTenantContext id) d lease))) by framed_solve.
  eapply acks_bind; [exact H5|done| |].
  { intros x s5 Hs5. by eapply acks_framed. }
  intros [] s5 Hs5 Hok5 H6; [|by injection H6 as _ <-].
  eapply acknowledge_ok; [exact H6| |done]. exists id. split; [done|]. right. exists lease. split.
  - apply Hbody in Hs5 as [_ _ _ (new & -> & _)]. by apply elem_of_app; left.
  - unfold catch in Hs5. destruct (bind _ _ s4) as [[e|b] s6] eqn:Hb; [by eapply contain_outcome|].
    injection Hs5 as -> <-. apply bind_ok in Hb as (? & s7 & Hb & Hr). injection Hr as <-.
    by eapply run_leased_outcome.
Qed.

(** ** Failures of handlers *)

(** All that the surroundings of the supervisor raise is in [P]: the store,
  the queue, the quota and the jitter of the delays. *)
Record surroundings_raise (P : exn → Prop) : Prop := {
  sr_mark tenant d at_ : raises P (st_mark_published tenant d at_);
  sr_claim tenant d owner now expires limit : raises P (st_claim tenant d owner now expires limit);
  sr_cancellation tenant id : raises P (st_cancellation_requested tenant id);
  sr_complete tenant id : raises P (st_delivery_complete tenant id);
  sr_cancel tenant d lease at_ : raises P (st_cancel tenant d lease at_);
  sr_fail tenant d lease at_ class code retry_at :
    raises P (st_fail tenant d lease at_ class code retry_at);
  sr_queue n e : wo_queue o n = inl e → P e;
  sr_quota tenant e : quota tenant = inl e → P e;
  sr_delay attempt e : delay (ws_backoff supervisor) attempt = inl e → P e;
}.

Section Contained.
Context (P : exn → Prop) (Hsur : surroundings_raise P).

Definition or_cancelled (e : exn) : Prop := P e ∨ e = CancelledError.

Lemma raises_ask {A} Q (f : nat → A) : raises Q (ask (R := R) f).
Proof. by intros s e s' [=]. Qed.
Lemma raises_others Q : raises Q (others o).
Proof. by intros s e s' [=]. Qed.
Lemma raises_on_store {A} (m : M exn R A) : raises P m → raises or_cancelled (on_store m).
Proof.
  intros Hm s e s'. unfold on_store. destruct (m (wk_store s)) as [x r] eqn:H1.
  intros [= -> _]. left. by eapply Hm.
Qed.
#[local] Hint Resolve raises_ask raises_others raises_on_store : raises.
Lemma raises_delay attempt : raises or_cancelled (S := Worker R) (lift (delay (ws_backoff supervisor) attempt)).
Proof. apply raises_lift. intros e He. left. by eapply sr_delay. Qed.
Lemma raises_quota tenant : raises or_cancelled (S := Worker R) (lift (quota tenant)).
Proof. apply raises_lift. intros e He. left. by eapply sr_quota. Qed.
#[local] Hint Resolve raises_delay raises_quota : raises.
#[local] Hint Extern 3 (or_cancelled CancelledError) => by right : raises.

Lemma raises_await {A} (m : M exn R A) : raises P m → raises or_cancelled (await_store o m).
Proof.
  intros Hm. unfold await_store. apply raises_bind; [auto with raises|intros _].
  apply raises_bind; [auto with raises|]. intros [[]|]; auto with raises.
  intros s e s'. destruct (on_store m s). intros [= <- _]. by right.
Qed.
Lemma raises_queue a : raises or_cancelled (await_queue o a).
Proof.
  unfold await_queue. repeat (apply raises_bind; [auto with raises|intros _]).
  intros s e s'. unfold bind, ask, lift. intros [= He _]. left. by eapply sr_queue.
Qed.
#[local] Hint Resolve raises_await raises_queue sr_mark sr_claim sr_cancellation sr_complete
  sr_cancel sr_fail : raises.

Lemma raises_failure tenant d lease class code :
  raises or_cancelled (_record_failure o supervisor tenant d lease class code).
Proof. unfold _record_failure, clock, settle. raises_solve. Qed.

Lemma raises_cancel_work tenant d lease : raises or_cancelled (cancel_work o tenant d lease).
Proof. unfold cancel_work, clock, settle. raises_solve. Qed.
#[local] Hint Resolve raises_failure raises_cancel_work : raises.

Lemma raises_contain tenant d lease e : raises or_cancelled (contain o supervisor tenant d lease e).
Proof. unfold contain. raises_solve. Qed.

Lemma raises_acknowledge_complete tenant d : raises or_cancelled (acknowledge_complete o tenant d).
Proof. unfold acknowledge_complete, acknowledge. raises_solve. Qed.
#[local] Hint Resolve raises_contain raises_acknowledge_complete : raises.

Lemma raises_claim_work tenant d at_ : raises or_cancelled (claim_work o supervisor quota tenant d at_).
Proof. unfold claim_work. raises_solve. Qed.
#[local] Hint Resolve raises_claim_work : raises.
End Contained.

(** Failures are contained: whatever the handler returns or raises, and
  however its heartbeat fails, processing a delivery raises only what the
  store's claim, cancellation and failure records, the queue, the quota or the retry delay
  raise, or the cancellation of the task. *)
Theorem handler_failures_contained P d s e s' :
  surroundings_raise P →
  _process o supervisor quota d s = (inl e, s') → P e ∨ e = CancelledError.
Proof.
  intros Hsur. revert s e s'. change (raises (or_cancelled P) (_process o supervisor quota d)).
  unfold _process. destruct (TenantId_new _) as [e|id] eqn:Hid.
  { rewrite (TenantId_new_raises _ _ Hid). by apply raises_queue. }
  apply raises_bind; [apply raises_ask|intros started].
  apply raises_bind; [by apply raises_acknowledge_complete|intros []; [apply raises_ret|]].
  apply raises_bind; [by apply raises_claim_work|intros [lease|]; [|apply raises_ret]].
  apply raises_bind; [apply raises_modify|intros _].
  apply raises_bind; [|intros []; [by apply raises_queue|apply raises_ret]].
  apply raises_catch. intros e. by apply raises_contain.
Qed.

(** ** Batches *)

Definition started_of (trace : list action) : list QueueDelivery :=
  omap (λ a, match a with Started d => Some d | _ => None end) trace.
Definition finished_of (trace : list action) : list QueueDelivery :=
  omap (λ a, match a with Finished d => Some d | _ => None end) trace.

(** At every moment at most so many tasks have started and not finished. *)
Definition within_concurrency (trace : list action) : Prop :=
  ∀ before after, trace = before ++ after →
    Z.of_nat (length (started_of before))
    ≤ Z.of_nat (length (finished_of before)) + ws_max_concurrency supervisor.

Record batch_ok (s : Worker R) : Prop := {
  bo_running : started_of (wk_trace s) ≡ₚ finished_of (wk_trace s) ++ wk_active s;
  bo_bound : within_concurrency (wk_trace s);
}.

Definition starts (a : action) : Prop := match a with Started _ => True | _ => False end.
Definition process_action (d : QueueDelivery) (a : action) : Prop := task_action d a ∨ a = Acknowledged d.

Definition finishes (a : action) : Prop := match a with Finished _ => True | _ => False end.

Lemma started_app t1 t2 : started_of (t1 ++ t2) = started_of t1 ++ started_of t2.
Proof. apply omap_app. Qed.
Lemma finished_app t1 t2 : finished_of (t1 ++ t2) = finished_of t1 ++ finished_of t2.
Proof. apply omap_app. Qed.
Lemma no_started trace : Forall (λ a, ¬ starts a) trace → started_of trace = [].
Proof. induction 1 as [|a k Ha _ IH]; [done|]. destruct a; try exact IH. by destruct Ha. Qed.
Lemma no_finished trace : Forall (λ a, ¬ finishes a) trace → finished_of trace = [].
Proof. induction 1 as [|a k Ha _ IH]; [done|]. destruct a; try exact IH. by destruct Ha. Qed.

Lemma within_app trace new :
  Forall (λ a, ¬ starts a) new → within_concurrency trace → within_concurrency (trace ++ new).
Proof.
  intros Hnew Hb before after Heq.
  destruct (app_eq_inv _ _ _ _ Heq) as [(k & -> & ->)|(k & -> & ->)].
  - by eapply Hb.
  - apply Forall_app in Hnew as [Hk _]. specialize (Hb trace [] (eq_sym (app_nil_r _))).
    rewrite started_app, finished_app, (no_started k), app_nil_r, length_app by done. lia.
Qed.

Lemma within_started trace d :
  Z.of_nat (length (started_of trace)) < Z.of_nat (length (finished_of trace)) + ws_max_concurrency supervisor →
  within_concurrency trace → within_concurrency (trace ++ [Started d]).
Proof.
  intros Hroom Hb before after Heq.
  destruct (app_eq_inv _ _ _ _ Heq) as [(k & -> & ->)|(k & -> & Hk)].
  - by eapply Hb.
  - destruct k as [|a k]; [by rewrite app_nil_r; apply (Hb trace []); rewrite app_nil_r|].
    injection Hk as <- Hk. symmetry in Hk. apply app_eq_nil in Hk as [-> ->].
    rewrite started_app, finished_app, length_app, (no_finished [_]), app_nil_r; [simpl; lia|].
    by constructor; [intros []|].
Qed.

Lemma framed_process d : framed (process_action d) (_process o supervisor quota d).
Proof.
  assert (Htask : ∀ A (m : Wk A), framed (task_action d) m → framed (process_action d) m).
  { intros A m Hm s r s' Hrun. eapply frame_weaken; [|by eapply Hm]. by left. }
  assert (Hack : framed (process_action d) (acknowledge o d)) by (apply framed_queue; by right).
  assert (Hquar : ∀ reason, framed (process_action d) (await_queue o (Quarantined d reason)))
    by (intros reason; apply framed_queue; by left).
  assert (Hlease : ∀ lease, framed (process_action d) (modify (record (Leased d lease))))
    by (intros lease; apply framed_record; by left).
  assert (Hcomplete : ∀ tenant, framed (process_action d) (acknowledge_complete o tenant d))
    by (intros tenant; unfold acknowledge_complete; framed_solve).
  assert (Hrun : ∀ tenant lease at_, framed (process_action d) (run_leased o supervisor tenant d lease at_))
    by eauto with framed.
  assert (Hcontain : ∀ tenant lease e, framed (process_action d) (contain o supervisor tenant d lease e))
    by eauto with framed.
  unfold _process. destruct (TenantId_new _) as [e|id]; [framed_solve|].
  assert (Hclaim : ∀ at_, framed (process_action d) (claim_work o supervisor quota (mkTenantContext id) d at_))
    by (intros at_; unfold claim_work; framed_solve).
  framed_solve.
Qed.

Lemma run_tasks_spec done s r s' :
  run_tasks o supervisor quota done s = (r, s') →
  (∃ rs, r = inr rs) ∧ st_step (wk_store s) (wk_store s') ∧
  wk_active s' = wk_active s ∧ wk_draining s' = wk_draining s ∧
  (∃ new, wk_trace s' = wk_trace s ++ new ∧ Forall (λ a, ¬ starts a) new ∧ finished_of new = done) ∧
  (acks_ok s → acks_ok s').
Proof.
  revert s r s'. induction done as [|d done IH]; intros s r s' Hrun; simpl in Hrun.
  { injection Hrun as <- <-. split; [by eexists|]. do 3 (split; [done|]). split; [|done].
    exists []. by rewrite app_nil_r. }
  unfold bind at 1, task_result in Hrun.
  destruct (_process o supervisor quota d s) as [x s1] eqn:H1.
  pose proof (process_acks _ _ _ _ H1) as Hacks.
  apply framed_process in H1 as [St Ac Dr (n1 & Tr & Hn1)].
  unfold bind in Hrun. simpl in Hrun.
  destruct (run_tasks _ _ _ done _) as [y s2] eqn:H2.
  apply IH in H2 as ((rs & ->) & St2 & Ac2 & Dr2 & (n2 & Tr2 & Hn2 & Hfin) & Hacks2).
  injection Hrun as <- <-. split; [by eexists|]. split; [etransitivity; [exact St|exact St2]|].
  split; [by rewrite Ac2|]. split; [by rewrite Dr2|]. split.
  - exists (n1 ++ Finished d :: n2). split; [|split].
    + rewrite Tr2. simpl. by rewrite Tr, <- !app_assoc.
    + apply Forall_app. split; [|constructor; [by intros []|done]]. eapply Forall_impl; [exact Hn1|].
      intros a [Ha| ->] Hs; [|exact Hs]. destruct a; [exact Ha|exact Hs..].
    + rewrite finished_app. change (finished_of (Finished d :: n2)) with (d :: finished_of n2).
      rewrite Hfin, no_finished; [done|]. eapply Forall_impl; [exact Hn1|].
      intros a [Ha| ->] Hf; [|exact Hf]. destruct a; [exact Hf|exact Ha|exact Hf..].
  - intros Hok. apply Hacks2. intros d' Hin. apply elem_of_app in Hin as [Hin|Hin].
    + eapply justified_frame; [by eapply (framed_record (λ _, True) (Finished d))|by apply Hacks].
    + by apply list_elem_of_singleton in Hin.
Qed.

Lemma finishing_spec picks active done rest :
  finishing picks active = (done, rest) → done ++ rest ≡ₚ active.
Proof.
  revert active done rest. induction picks as [|k picks IH]; intros active done rest Hf; simpl in Hf.
  { by injection Hf as <- <-. }
  destruct (active !! _) as [d|] eqn:Hd; [|by injection Hf as <- <-].
  destruct (finishing picks _) as [done' rest'] eqn:Hf'. injection Hf as <- <-.
  apply IH in Hf'. simpl. rewrite Hf'. symmetry. by apply delete_Permutation.
Qed.

(** Of the active tasks one at least ends. *)
Lemma finishing_some k picks active done rest :
  active ≠ [] → finishing (k :: picks) active = (done, rest) → (length rest < length active)%nat.
Proof.
  intros Hne Hf. pose proof (finishing_spec _ _ _ _ Hf) as Hperm. simpl in Hf.
  destruct (active !! _) as [d|] eqn:Hd.
  - destruct (finishing picks _) as [done' rest'] eqn:Hf'. injection Hf as <- <-.
    apply Permutation_length in Hperm. rewrite length_app in Hperm. simpl in Hperm. lia.
  - apply lookup_ge_None in Hd. destruct active as [|x active]; [done|].
    pose proof (Nat.mod_upper_bound k (length (x :: active)) ltac:(done)). lia.
Qed.

(** A step of a batch: settled deliveries, fewer active tasks, nothing new
  started. *)
Record batch_step (s s' : Worker R) : Prop := {
  bs_batch : batch_ok s → batch_ok s';
  bs_acks : acks_ok s → acks_ok s';
  bs_started : started_of (wk_trace s') = started_of (wk_trace s);
  bs_draining : wk_draining s = true → wk_draining s' = true;
}.

#[local] Instance batch_step_preorder : PreOrder batch_step.
Proof.
  split; [by split|]. intros s1 s2 s3 [B1 A1 T1 D1] [B2 A2 T2 D2].
  split; [auto|auto|congruence|auto].
Qed.

Lemma for_each_lift (results : list (result unit)) s r s' :
  for_each results (lift (S := Worker R)) s = (r, s') → s' = s.
Proof.
  revert s. induction results as [|[e|[]] results IH]; intros s Hrun; simpl in Hrun.
  - by injection Hrun as _ <-.
  - by injection Hrun as _ <-.
  - by apply IH.
Qed.

Lemma wait_one_spec s r s' : _wait_one o supervisor quota s = (r, s') →
  batch_step s s' ∧
  (wk_active s ≠ [] → (length (wk_active s') < length (wk_active s))%nat).
Proof.
  unfold _wait_one. intros Hrun. unfold bind at 1, gets in Hrun.
  destruct (wk_active s) as [|x active] eqn:Hact; [injection Hrun as _ <-; by split|].
  unfold bind at 1 2 3, ask, modify in Hrun. cbn -[finishing run_tasks] in Hrun.
  destruct (wo_done o (wk_tick s)) as [k picks]. cbn -[finishing run_tasks] in Hrun.
  destruct (finishing (k :: picks) (x :: active)) as [done rest] eqn:Hf.
  unfold bind at 1 in Hrun. destruct (run_tasks o supervisor quota done _) as [rs s1] eqn:H1.
  apply run_tasks_spec in H1 as ((rs' & ->) & St & Ac & Dr & (new & Tr & Hnew & Hfin) & Hacks).
  unfold bind in Hrun. simpl in Hrun. apply for_each_lift in Hrun as ->.
  pose proof (finishing_spec _ _ _ _ Hf) as Hperm.
  apply finishing_some in Hf; [|done]. split; [|intros _; exact Hf]. simpl in *. split; simpl.
  - intros [Hr Hb]. simpl in *. split; simpl; rewrite Tr.
    + rewrite started_app, finished_app, (no_started new), app_nil_r, Hfin, Hr, Hact, <- Hperm by done.
      by rewrite app_assoc.
    + by apply within_app.
  - intros Hok. intros d Hin. destruct (Hacks Hok d Hin) as (id & Hid & Hcase). by exists id.
  - by rewrite Tr, started_app, (no_started new), app_nil_r.
  - intros Hd. by rewrite Dr, Hd.
Qed.

Lemma wait_for_room_spec rounds s r s' : wait_for_room o supervisor quota rounds s = (r, s') →
  batch_step s s' ∧
  (∀ b, r = inr b → (length (wk_active s) ≤ rounds)%nat → 1 ≤ ws_max_concurrency supervisor →
     b = true ∧ Z.of_nat (length (wk_active s')) < ws_max_concurrency supervisor).
Proof.
  revert s. induction rounds as [|rounds IH]; intros s Hrun; simpl in Hrun;
    unfold bind at 1, gets in Hrun;
    destruct (Z.of_nat (length (wk_active s)) <? ws_max_concurrency supervisor) eqn:Hroom;
    try (injection Hrun as <- <-; split; [reflexivity|intros b [= <-] Hlen Hmax];
         apply Z.ltb_lt in Hroom; done).
  - injection Hrun as <- <-. split; [reflexivity|]. intros b _ Hlen Hmax. apply Z.ltb_ge in Hroom. lia.
  - unfold bind in Hrun. destruct (_wait_one _ _ _ s) as [[e|u] s1] eqn:H1;
      apply wait_one_spec in H1 as [Hstep Hless].
    + injection Hrun as <- <-. by split.
    + apply IH in Hrun as [Hstep' Hb]. split; [by transitivity s1|]. intros b -> Hlen Hmax.
      apply Hb; [done| |done]. apply Z.ltb_ge in Hroom.
      assert (wk_active s ≠ []) by (intros Hnil; rewrite Hnil in Hroom; simpl in Hroom; lia).
      specialize (Hless ltac:(done)). lia.
Qed.

Lemma wait_for_all_spec rounds s r s' : wait_for_all o supervisor quota rounds s = (r, s') →
  batch_step s s' ∧
  (∀ b, r = inr b → (length (wk_active s) ≤ rounds)%nat → b = true ∧ wk_active s' = []).
Proof.
  revert s. induction rounds as [|rounds IH]; intros s Hrun; simpl in Hrun;
    unfold bind at 1, gets in Hrun; destruct (wk_active s) as [|x active] eqn:Hact;
    try (injection Hrun as <- <-; split; [reflexivity|]; intros b [= <-] Hlen; simpl in Hlen; first [lia|done]).
  unfold bind in Hrun. destruct (_wait_one _ _ _ s) as [[e|u] s1] eqn:H1;
    apply wait_one_spec in H1 as [Hstep Hless].
  - injection Hrun as <- <-. by split.
  - apply IH in Hrun as [Hstep' Hb]. split; [by transitivity s1|]. intros b -> Hlen.
    apply Hb; [done|]. rewrite Hact in Hless. specialize (Hless ltac:(done)). simpl in *. lia.
Qed.

Definition waiting (p : list (string * list QueueDelivery)) : nat := length (concat p.*2).

Lemma waiting_next t d q p : waiting ((t, d :: q) :: p) = S (waiting (next_pending ((t, d :: q) :: p))).
Proof.
  unfold waiting. destruct q as [|d' q]; cbn [next_pending]; [done|].
  rewrite fmap_app, concat_app, length_app. csimpl. rewrite app_nil_r, length_app. simpl. lia.
Qed.

Lemma start_spec d s : batch_ok s → Z.of_nat (length (wk_active s)) < ws_max_concurrency supervisor →
  batch_ok (set_active (λ active, active ++ [d]) (record (Started d) s)).
Proof.
  intros [Hr Hb] Hroom. split; simpl.
  - rewrite started_app, finished_app, (no_finished [_]), app_nil_r, Hr by (by constructor; [intros []|]).
    by rewrite <- app_assoc.
  - apply within_started; [|done]. rewrite Hr, length_app. lia.
Qed.

Lemma dispatch_spec rounds sched p s r s' :
  1 ≤ ws_max_concurrency supervisor → holds sched p → (waiting p ≤ rounds)%nat →
  dispatch o supervisor quota rounds sched s = (r, s') → batch_ok s → acks_ok s →
  batch_ok s' ∧ acks_ok s' ∧ ∃ k,
    started_of (wk_trace s') = started_of (wk_trace s) ++ takes k p ∧
    ∀ b, r = inr b → b = true ∧ (wk_draining s' = false → k = waiting p).
Proof.
  intros Hmax. revert sched p s. induction rounds as [|rounds IH]; intros sched p s Hholds Hsize Hrun Hok Hacks;
    simpl in Hrun; unfold scheduler_bool in Hrun; rewrite (ho_turns _ _ Hholds) in Hrun;
    destruct p as [|[t q] p];
    try (injection Hrun as <- <-; split; [done|]; split; [done|]; exists 0%nat;
         simpl; rewrite app_nil_r; split; [done|]; by intros b [= <-]).
  { apply ho_nonempty in Hholds as [Hq _]%Forall_cons. destruct q; [done|].
    rewrite waiting_next in Hsize. lia. }
  destruct q as [|d q]; [by apply ho_nonempty in Hholds as [? _]%Forall_cons|].
  cbn [fmap list_fmap negb] in Hrun. unfold bind at 1, gets in Hrun. unfold bind at 1 in Hrun.
  destruct (wait_for_room _ _ _ _ s) as [x s1] eqn:H1. apply wait_for_room_spec in H1 as [[Hb1 Ha1 Hs1 _] Hroom].
  specialize (Hb1 Hok). specialize (Ha1 Hacks).
  assert (Hstop : ∀ r', (∀ b, r' = inr b → b = true ∧ wk_draining s1 = true) → (r', s1) = (r, s') →
    batch_ok s' ∧ acks_ok s' ∧ ∃ k,
      started_of (wk_trace s') = started_of (wk_trace s) ++ takes k ((t, d :: q) :: p) ∧
      ∀ b, r = inr b → b = true ∧ (wk_draining s' = false → k = waiting ((t, d :: q) :: p))).
  { intros r' Hr' [= <- <-]. split; [done|]. split; [done|]. exists 0%nat. simpl. rewrite app_nil_r.
    split; [done|]. intros b Hb. apply Hr' in Hb as [-> ->]. done. }
  destruct x as [e|room]; [by eapply Hstop; [|exact Hrun]|].
  destruct (Hroom _ eq_refl (le_n _) Hmax) as [-> Hlt]. cbn [negb] in Hrun.
  unfold bind at 1 in Hrun. destruct (wk_draining s1) eqn:Hdr.
  { eapply Hstop; [|exact Hrun]. by intros b [= <-]. }
  destruct (pop_holds _ _ _ _ _ Hholds) as (sched' & Hpop & Hholds').
  unfold bind at 1, lift in Hrun. rewrite Hpop in Hrun.
  unfold bind in Hrun. simpl in Hrun.
  apply (IH _ _ _ Hholds') in Hrun as (Hb & Ha & k & Htr & Hk).
  - split; [done|]. split; [done|]. exists (S k). split.
    + rewrite Htr. simpl. by rewrite started_app, Hs1, <- app_assoc.
    + intros b Hr. destruct (Hk b Hr) as [-> Hall]. split; [done|]. intros Hd.
      by rewrite waiting_next, <- Hall.
  - rewrite waiting_next in Hsize. lia.
  - by apply start_spec.
  - intros d' Hin. simpl in Hin. apply elem_of_app in Hin as [Hin|Hin%list_elem_of_singleton]; [|done].
    by eapply (justified_later _ s1 _ [Started d]); [|done|apply Ha1].
Qed.

Lemma waiting_of ds : waiting (pending_of ds) = length ds.
Proof.
  destruct (scheduler_serves_round_robin 0 ds) as (_ & Hperm & _).
  rewrite round_robin_perm in Hperm by apply queues_nonempty.
  apply Permutation_length in Hperm. rewrite <- Hperm. unfold waiting, pending_of, queues.
  by rewrite <- list_fmap_compose.
Qed.

Lemma takes_of n ds : takes n (pending_of ds) = take n (round_robin (queues ds)).
Proof.
  pose proof (serve_round_robin n ds) as Hs.
  rewrite (serve_holds _ _ _ (add_holds ds)) in Hs. by injection Hs.
Qed.

Lemma run_batch_spec ds s r s' :
  1 ≤ ws_max_concurrency supervisor →
  run_batch o supervisor quota ds s = (r, s') → batch_ok s → acks_ok s →
  batch_ok s' ∧ acks_ok s' ∧ ∃ k,
    started_of (wk_trace s') = started_of (wk_trace s) ++ take k (round_robin (queues ds)) ∧
    ∀ b, r = inr b → b = true ∧ wk_active s' = [] ∧ (k = length ds ∨ wk_draining s' = true).
Proof.
  intros Hmax Hrun Hok Hacks. unfold run_batch in Hrun. unfold bind at 1 in Hrun.
  destruct (dispatch _ _ _ _ _ s) as [x s1] eqn:H1.
  apply (dispatch_spec _ _ _ _ _ _ Hmax (add_holds ds)) in H1
    as (Hb1 & Ha1 & k & Htr & Hk); [|by rewrite waiting_of|done|done].
  rewrite takes_of in Htr. destruct x as [e|b]; [injection Hrun as <- <-; by repeat (split; [done|]); exists k|].
  destruct (Hk _ eq_refl) as [-> Hall]. cbn [negb] in Hrun. unfold bind, gets in Hrun.
  apply wait_for_all_spec in Hrun as [[Hb2 Ha2 Hs2 Hd2] Hdone].
  split; [auto|]. split; [auto|]. exists k. split; [by rewrite Hs2|].
  intros b' Hr. destruct (Hdone _ Hr (le_n _)) as [-> Hnil]. split; [done|]. split; [done|].
  destruct (wk_draining s1) eqn:Hd1; [by right; apply Hd2|]. left. rewrite Hall by done. apply waiting_of.
Qed.

(** C21. Nothing is acknowledged before it is settled: for a delivery that a
  batch acknowledges, the store had reported the work complete, or the lease
  the supervisor took for it has its outcome (success, cancellation or
  failure) recorded.  This holds however handlers, heartbeats, the queue and the
  other users of the store behave, and wherever the tasks are cancelled. *)
Theorem acknowledged_after_outcome ds d s r s' :
  1 ≤ ws_max_concurrency supervisor → wk_active s = [] → wk_trace s = [] →
  run_batch o supervisor quota ds s = (r, s') →
  Acknowledged d ∈ wk_trace s' →
  ∃ id, TenantId_new (me_tenant_id (qd_envelope d)) = inr id ∧
    ((∃ store store', st_delivery_complete (mkTenantContext id) (me_work_id (qd_envelope d)) store
                      = (inr true, store') ∧ st_step store' (wk_store s')) ∨
     (∃ lease, Leased d lease ∈ wk_trace s' ∧
               st_outcome (mkTenantContext id) lease (wk_store s'))).
Proof.
  intros Hmax Hact Htr Hrun. apply run_batch_spec in Hrun as (_ & Hacks & _); [|done| |].
  - apply Hacks.
  - split; rewrite Htr; [by rewrite Hact|]. intros before after Heq.
    symmetry in Heq. apply app_eq_nil in Heq as [-> _]. simpl. lia.
  - intros d'. rewrite Htr. by intros ?%not_elem_of_nil.
Qed.

(** C22. A batch is bounded, fair and complete: its loops end, at no moment are
  more tasks running than the concurrency limit, and tasks start in the
  scheduler's round-robin order.  When the batch returns, every task has
  finished, and unless the supervisor was asked to drain every delivery has
  run exactly once. *)
Theorem run_batch_bounded_and_complete ds s r s' :
  1 ≤ ws_max_concurrency supervisor → wk_active s = [] → wk_trace s = [] →
  run_batch o supervisor quota ds s = (r, s') →
  within_concurrency (wk_trace s') ∧
  (∃ k, started_of (wk_trace s') = take k (round_robin (queues ds))) ∧
  ∀ b, r = inr b →
    b = true ∧ wk_active s' = [] ∧ finished_of (wk_trace s') ≡ₚ started_of (wk_trace s') ∧
    (wk_draining s' = false →
     started_of (wk_trace s') = round_robin (queues ds) ∧ finished_of (wk_trace s') ≡ₚ ds).
Proof.
  intros Hmax Hact Htr Hrun. apply run_batch_spec in Hrun as ([Hr Hb] & _ & k & Hs & Hk); [|done| |].
  - rewrite Htr in Hs. split; [done|]. split; [by exists k|].
    intros b ->. destruct (Hk _ eq_refl) as (-> & Hnil & Hall). rewrite Hnil, app_nil_r in Hr.
    split; [done|]. split; [done|]. split; [done|]. intros Hd.
    destruct Hall as [->|Hall]; [|congruence].
    destruct (scheduler_serves_round_robin 0 ds) as (_ & Hperm & _).
    rewrite <- (Permutation_length Hperm), take_ge in Hs by done. simpl in Hs.
    split; [done|]. by rewrite <- Hr, Hs.
  - split; rewrite Htr; [by rewrite Hact|]. intros before after Heq.
    symmetry in Heq. apply app_eq_nil in Heq as [-> _]. simpl. lia.
  - intros d'. rewrite Htr. by intros ?%not_elem_of_nil.
Qed.
End Theorems.
