(* ===== verification/WorkerWiring.v ===== *)
(** * The worker on the work repository

    The repository of [runtime/postgres.py] implements the store protocol of
    the supervisor and keeps its laws: events are only ever added, and every
    settlement adds an event that carries the token and generation of the
    lease.  A sample delivery is run through both. *)

From stdpp Require Import base gmap sets list strings pretty.
From Stdlib Require Import ZArith Lia.
From S2P Require Import Prelude PyLib Json Events Identity Work Database EventStore.
From S2P Require Import Ledger Raises LedgerReads LedgerAppend LedgerTheorems Wire.
From S2P Require Import WorkRepository.
From S2P Require Import WorkLedger WorkTheorems WorkSafety.
From S2P Require Import Floats Backoff Scheduler WorkerRuntime WorkerTheorems.

Local Open Scope Z_scope.

(** ** Events are only added *)

Definition grown (t t' : Tables) : Prop := ∃ new, t_events t' = t_events t ++ new.

#[global] Instance grown_preorder : PreOrder grown.
Proof.
  split; [intros t; exists []; by rewrite app_nil_r|].
  intros t1 t2 t3 (n1 & H1) (n2 & H2). exists (n1 ++ n2). by rewrite H2, H1, app_assoc.
Qed.

Definition grows {A} (m : Db A) : Prop := ∀ w r w', m w = (r, w') → grown (w_db w) (w_db w').

Create HintDb grows.

Section Grows.
Lemma grows_same {A} (m : Db A) : (∀ w, t_events (w_db (m w).2) = t_events (w_db w)) → grows m.
Proof. intros Hm w r w' Hrun. exists []. rewrite app_nil_r, <- (Hm w). by rewrite Hrun. Qed.
Lemma grows_neutral {A} (m : Db A) : ledger_neutral m → grows m.
Proof.
  intros Hm w r w' Hrun. destruct (Hm _ _ _ Hrun) as [(He & _) _]. exists []. by rewrite He, app_nil_r.
Qed.
Lemma grows_bind {A B} (m : Db A) (k : A → Db B) : grows m → (∀ a, grows (k a)) → grows (bind m k).
Proof.
  intros Hm Hk w r w'. unfold bind. destruct (m w) as [[e|a] w1] eqn:H1.
  - intros [= _ <-]. by eapply Hm.
  - intros Hrun. transitivity (w_db w1); [by eapply Hm|by eapply Hk].
Qed.
Lemma grows_catch {A} (m : Db A) (h : exn → Db A) : grows m → (∀ e, grows (h e)) → grows (catch m h).
Proof.
  intros Hm Hh w r w'. unfold catch. destruct (m w) as [[e|a] w1] eqn:H1.
  - intros Hrun. transitivity (w_db w1); [by eapply Hm|by eapply Hh].
  - intros [= _ <-]. by eapply Hm.
Qed.
Lemma grows_for_each {A} (l : list A) (f : A → Db unit) : (∀ x, grows (f x)) → grows (for_each l f).
Proof.
  intros Hf. induction l as [|x l IH]; simpl; [by apply grows_neutral, neutral_ret|]. by apply grows_bind.
Qed.
Lemma grows_transaction {A} (body : Db A) : grows body → grows (storage_guard (transaction body)).
Proof.
  intros Hb w r w' Hrun. destruct (body (started w)) as [[e|a] w1] eqn:Hrun1.
  - rewrite (transaction_raise _ _ _ _ Hrun1) in Hrun. injection Hrun as _ <-. reflexivity.
  - rewrite (transaction_run _ _ _ _ Hrun1) in Hrun. injection Hrun as _ <-.
    exact (Hb _ _ _ Hrun1).
Qed.
Lemma grows_insert_event e v : grows (insert_event e v).
Proof.
  unfold insert_event. repeat (apply grows_bind; [by apply grows_same|intros ?]).
  apply grows_bind; [apply grows_neutral, neutral_raise_if|intros _].
  intros w r w' [= _ <-]. by eexists.
Qed.
End Grows.

#[export] Hint Extern 1 (grows (execute _)) => (apply grows_same; reflexivity) : grows.
#[export] Hint Resolve grows_neutral grows_bind grows_catch grows_for_each grows_transaction
  grows_insert_event : grows.

(** Along the structure of the code; what is neutral for the ledger grows. *)
Ltac grows_solve :=
  cbv zeta;
  repeat first [ solve [eauto 3 with grows aegis]
               | apply grows_transaction
               | apply grows_bind; [|intros ?]
               | apply grows_catch; [|intros ?]
               | apply grows_for_each; intros ?
               | case_match ];
  eauto with grows aegis.

Lemma grows_insert_events events v : grows (insert_events events v).
Proof. revert v. induction events as [|e events IH]; intros v; simpl; grows_solve. Qed.

Lemma grows_append events v outbox : grows (_append_in_transaction events v outbox).
Proof.
  pose proof grows_insert_events. unfold _append_in_transaction, insert_outbox. grows_solve.
Qed.
#[export] Hint Resolve grows_append : grows.

Lemma grows_append_atomic context events v m outbox :
  grows m → grows (append_atomic context events v m outbox).
Proof. intros Hm. unfold append_atomic. grows_solve. Qed.

Lemma grows_append_fenced context events v work token gen at_ outbox m :
  grows m → grows (append_fenced context events v work token gen at_ outbox (Some m)).
Proof. intros Hm. unfold append_fenced. grows_solve. Qed.

Lemma grows_append_from_inbox context source mid events v outbox m :
  grows m → grows (append_from_inbox context source mid events v outbox (Some m)).
Proof. intros Hm. unfold append_from_inbox. grows_solve. Qed.
#[export] Hint Resolve grows_append_atomic grows_append_fenced grows_append_from_inbox : grows.

Lemma grows_update_item key guard f miss : grows (update_item key guard f miss).
Proof. unfold update_item. grows_solve. Qed.
Lemma grows_update_lease key guard f miss : grows (update_lease key guard f miss).
Proof. unfold update_lease. grows_solve. Qed.
Lemma grows_record_dead_letter lease at_ reason : grows (record_dead_letter lease at_ reason).
Proof. unfold record_dead_letter. grows_solve. Qed.
#[export] Hint Resolve grows_update_item grows_update_lease grows_record_dead_letter : grows.

Lemma grows_fail_projection lease at_ code retry_at terminal :
  grows (fail_projection lease at_ code retry_at terminal).
Proof.
  unfold fail_projection, _dead_letter_in_transaction, _complete_in_transaction, touch_item,
    _release_in_transaction. grows_solve.
Qed.
Lemma grows_claim_projection request token gen n owner dur limit :
  grows (claim_projection request token gen n owner dur limit).
Proof. unfold claim_projection, upsert_lease. grows_solve. Qed.
Lemma grows_new_event t request causation : grows (new_event t request causation).
Proof. unfold new_event. grows_solve. Qed.
Lemma grows_current_version context id : grows (_current_version context id).
Proof. unfold _current_version, current_version. grows_solve. Qed.
#[export] Hint Resolve grows_fail_projection grows_claim_projection grows_new_event
  grows_current_version : grows.

(** ** The laws *)

Section Laws.
Context {Repr : PyRepr}.

#[export] Instance repository_store : WorkerStateStore World := {
  st_mark_published := mark_published;
  st_claim := claim;
  st_start := WorkRepository.start;
  st_heartbeat := heartbeat;
  st_cancellation_requested := cancellation_requested;
  st_delivery_complete := delivery_complete;
  st_succeed := succeed;
  st_cancel := cancel;
  st_fail := fail;
}.

Lemma grows_verify context d : grows (_verify_delivery context d).
Proof. unfold _verify_delivery. grows_solve. Qed.
#[local] Hint Resolve grows_verify : grows.

Lemma grows_fenced context request t lease m : grows m → grows (_append_fenced context request t lease m).
Proof. intros Hm. unfold _append_fenced. grows_solve. Qed.
#[local] Hint Resolve grows_fenced : grows.

Lemma grows_mark_published context d at_ : grows (mark_published context d at_).
Proof. unfold mark_published, mark_projection. grows_solve. Qed.

Lemma grows_claim context d owner now expires limit : grows (claim context d owner now expires limit).
Proof. unfold claim, attempt. grows_solve. Qed.

Lemma grows_start context d lease at_ : grows (WorkRepository.start context d lease at_).
Proof. unfold WorkRepository.start, mark_started. grows_solve. Qed.

Lemma grows_heartbeat context d lease at_ expires : grows (heartbeat context d lease at_ expires).
Proof. unfold heartbeat, renew_lease. grows_solve. Qed.

Lemma grows_succeed context d lease at_ reference : grows (succeed context d lease at_ reference).
Proof. unfold succeed, _complete_in_transaction. grows_solve. Qed.

Lemma grows_cancel context d lease at_ : grows (cancel context d lease at_).
Proof. unfold cancel, _cancel_in_transaction. grows_solve. Qed.

Lemma grows_fail context d lease at_ class code retry_at : grows (fail context d lease at_ class code retry_at).
Proof. unfold fail. grows_solve. Qed.

Lemma grows_status (f : Tables → bool) : grows (storage_guard (transaction (query f))).
Proof. grows_solve. Qed.

(** An event of one of these types, carrying the token and generation of the
  lease, on the stream of the leased work. *)
Definition outcome_types : list DomainEventType := [WORK_SUCCEEDED; WORK_CANCELLED; WORK_FAILED].

Definition outcome_event (tenant : TenantContext) (lease : WorkLease) (row : EventRow) : Prop :=
  er_tenant_id row = ctx_str tenant ∧ er_aggregate_id row = Uuid.to_str (wl_work_id lease) ∧
  (∃ ty, ty ∈ outcome_types ∧ er_event_type row = event_type_value ty) ∧
  ∃ p, er_payload row = thaw_json (PProxy p) ∧
       equals_str (dict_get "lease_token" p) (Uuid.to_str (wl_token lease)) = true ∧
       equals_int (dict_get "lease_generation" p) (wl_generation lease) = true.

Definition outcome_recorded (tenant : TenantContext) (lease : WorkLease) (w : World) : Prop :=
  ∃ row, row ∈ t_events (w_db w) ∧ outcome_event tenant lease row.

Lemma new_rows_in events v p r e : e ∈ events →
  ∃ row sequence position, row ∈ new_rows events v p r ∧
    row = _event_insert_values e sequence position r.
Proof.
  revert v p. induction events as [|e' events IH]; intros v p Hin; [by apply not_elem_of_nil in Hin|].
  simpl. apply elem_of_cons in Hin as [->|Hin].
  - do 3 eexists. split; [apply list_elem_of_here|done].
  - destruct (IH (v + 1) (p + 1) Hin) as (row & sq & ps & Hrow & ->).
    do 3 eexists. split; [apply list_elem_of_further, Hrow|done].
Qed.

(** The first event of a fenced append is recorded. *)
Lemma fenced_outcome context e rest v lease at_ outbox m w x w' ty :
  grows m → ty ∈ outcome_types → event_type e = event_type_value ty →
  append_fenced context (e :: rest) v (wl_work_id lease) (wl_token lease) (wl_generation lease)
    at_ outbox (Some m) w = (inr x, w') →
  outcome_recorded context lease w'.
Proof.
  intros Hm Hty He Hrun.
  destruct (fence_arguments_spec context (e :: rest) v (wl_work_id lease) (wl_token lease)
    (wl_generation lease) at_ outbox (Some m) w) as [[Hargs Heq]|[_ [e0 Heq]]];
    rewrite Heq in Hrun; [|done].
  destruct (fenced_body context (e :: rest) v (wl_work_id lease) (wl_token lease)
    (wl_generation lease) outbox (Some m) (started w)) as [[e1|a] w1] eqn:Hb;
    [by rewrite (transaction_raise _ _ _ _ Hb) in Hrun|].
  rewrite (transaction_run _ _ _ _ Hb) in Hrun. injection Hrun as _ <-.
  destruct Hargs as (Hval & _ & _ & Hall). apply validate_append_ok in Hval as (_ & _ & agg & Ht).
  apply Forall_cons in Hall as [(Hagg & Htok & Hgen) _]. apply Forall_cons in Ht as [(Hten & _) _].
  unfold fenced_body in Hb. apply bind_ok in Hb as (now & wa & _ & Hb).
  apply bind_ok in Hb as (row & wb & _ & Hb). apply bind_ok in Hb as (? & wc & _ & Hb).
  apply bind_ok in Hb as (v1 & wd & Happ & Hb). apply bind_ok in Hb as (? & we & Hmut & Hb).
  injection Hb as _ <-. apply Hm in Hmut as (more & Hmore).
  apply append_in_transaction_ok in Happ as (first & rest' & _ & _ & _ & _ & -> & _).
  destruct (new_rows_in (e :: rest) v (w_position wc) (w_txn_start wc) e) as (r & sq & ps & Hin & ->);
    [apply list_elem_of_here|].
  eexists. split.
  - rewrite Hmore. apply elem_of_app. left. simpl. apply elem_of_app. right. exact Hin.
  - split; [done|]. split; [done|]. split; [by exists ty|]. by exists (payload e).
Qed.

Lemma append_fenced_outcome context request ty at_ details lease m w u w' :
  grows m → ty ∈ outcome_types →
  _append_fenced context request (transition ty at_ details (Some lease)) lease m w = (inr u, w') →
  outcome_recorded context lease w'.
Proof.
  intros Hm Hty Hrun. unfold _append_fenced in Hrun.
  apply bind_ok in Hrun as (t & w1 & Ht & Hrun). injection Ht as Ht <-.
  apply bind_ok in Hrun as (v & w2 & _ & Hrun). apply bind_ok in Hrun as (id & w3 & _ & Hrun).
  apply bind_ok in Hrun as (e & w4 & He & Hrun). injection He as He <-.
  apply bind_ok in Hrun as (? & w5 & Hrun & Hret). injection Hret as _ <-.
  assert (Hb : built request ty (Some lease) e).
  { exists at_, details, id, None. unfold transition_event. by rewrite Ht. }
  apply built_inv in Hb as (Hety & _). by eapply fenced_outcome.
Qed.

Lemma succeed_recorded tenant d lease at_ reference w u w' :
  succeed tenant d lease at_ reference w = (inr u, w') → outcome_recorded tenant lease w'.
Proof.
  unfold succeed. intros Hrun. apply bind_ok in Hrun as (request & w1 & _ & Hrun).
  eapply append_fenced_outcome; [| |exact Hrun]; [unfold _complete_in_transaction; grows_solve|set_solver].
Qed.

Lemma cancel_recorded tenant d lease at_ w u w' :
  cancel tenant d lease at_ w = (inr u, w') → outcome_recorded tenant lease w'.
Proof.
  unfold cancel. intros Hrun. apply bind_ok in Hrun as (request & w1 & _ & Hrun).
  eapply append_fenced_outcome; [| |exact Hrun]; [unfold _cancel_in_transaction; grows_solve|set_solver].
Qed.

Lemma fail_recorded tenant d lease at_ class code retry_at w b w' :
  fail tenant d lease at_ class code retry_at w = (inr b, w') → outcome_recorded tenant lease w'.
Proof.
  unfold fail. intros Hrun. apply bind_ok in Hrun as (? & w1 & _ & Hrun).
  apply bind_ok in Hrun as (request & w2 & _ & Hrun). apply bind_ok in Hrun as (e & w3 & He & Hrun).
  apply reads_new_event in He as [_ He]. specialize (He _ eq_refl). apply built_inv in He as (Hety & _).
  do 3 apply bind_ok in Hrun as (? & ? & _ & Hrun). apply bind_ok in Hrun as (? & w4 & Hrun & Hret).
  injection Hret as _ <-. eapply fenced_outcome; [| |exact Hety|exact Hrun]; [auto with grows|set_solver].
Qed.

Definition ledger_grown (w w' : World) : Prop := grown (w_db w) (w_db w').

#[export] Instance ledger_grown_preorder : PreOrder ledger_grown.
Proof.
  split; [intros w; unfold ledger_grown; reflexivity|].
  unfold ledger_grown. intros w1 w2 w3 H12 H23. by transitivity (w_db w2).
Qed.

Lemma outcome_kept tenant lease w w' :
  ledger_grown w w' → outcome_recorded tenant lease w → outcome_recorded tenant lease w'.
Proof.
  intros (new & Hnew) (row & Hin & Hrow). exists row. split; [|done].
  rewrite Hnew. by apply elem_of_app; left.
Qed.

#[export] Instance repository_laws : WorkerStoreLaws World := {
  st_step := ledger_grown;
  st_outcome := outcome_recorded;
  outcome_stays := outcome_kept;
  step_mark_published := grows_mark_published;
  step_claim := grows_claim;
  step_start := grows_start;
  step_heartbeat := grows_heartbeat;
  step_cancellation tenant id := grows_status _;
  step_complete tenant id := grows_status _;
  step_succeed := grows_succeed;
  step_cancel := grows_cancel;
  step_fail := grows_fail;
  succeed_outcome := succeed_recorded;
  cancel_outcome := cancel_recorded;
  fail_outcome := fail_recorded;
}.
End Laws.

(** ** The errors of the repository *)

Section Errors.
Context {Repr : PyRepr}.

Lemma raises_lease l : raises_result ordinary (WorkLease_post_init l).
Proof. unfold WorkLease_post_init. raises_solve. Qed.
Lemma raises_request r : raises_result ordinary (WorkRequest_post_init r).
Proof. unfold WorkRequest_post_init. raises_solve. Qed.
Lemma raises_outbox m : raises_result ordinary (OutboxMessage_post_init m).
Proof. unfold OutboxMessage_post_init. raises_solve. Qed.
Lemma raises_transition t : raises_result ordinary (WorkTransition_post_init t).
Proof. unfold WorkTransition_post_init. raises_solve. Qed.
Lemma raises_to_event t request id c : raises_result ordinary (to_event t request id c).
Proof. unfold to_event. raises_solve. Qed.
Lemma raises_subscript key d : raises_result ordinary (subscript key d).
Proof. unfold subscript. raises_solve. Qed.
Lemma raises_int_of_value v : raises_result ordinary (int_of_value v).
Proof. unfold int_of_value, int_of_text. raises_solve. Qed.
Lemma raises_fromisoformat v : raises_result ordinary (fromisoformat v).
Proof. unfold fromisoformat. raises_solve. Qed.
#[local] Hint Resolve raises_lease raises_request raises_outbox raises_transition raises_to_event
  raises_subscript raises_int_of_value raises_fromisoformat : raises.

Lemma raises_request_from_delivery d : raises_result ordinary (_request_from_delivery d).
Proof.
  unfold _request_from_delivery. cbv zeta.
  assert (Hmatch : ∀ r : result WorkRequest, raises_result ordinary r → raises_result ordinary
    (match r with
     | inl (KeyError _ | TypeError _ | ValueError _) =>
         inl (ValueError "delivery has invalid work routing metadata")
     | r => r
     end)).
  { intros [e|a] Hr; [|apply raises_inr]. specialize (Hr e eq_refl). destruct e; apply raises_inl; done. }
  case_match; try (apply raises_inl; exact I); apply Hmatch; raises_solve.
Qed.
Lemma raises_new_event t request c : raises ordinary (new_event t request c).
Proof. unfold new_event. raises_solve. Qed.
Lemma raises_version context id : raises ordinary (_current_version context id).
Proof. unfold _current_version. raises_solve. Qed.
Lemma raises_request_of_row tenant id r : raises_result ordinary (request_of_row tenant id r).
Proof. unfold request_of_row. raises_solve. Qed.
Lemma raises_validate_context context request : raises_result ordinary (_validate_request_context context request).
Proof. unfold _validate_request_context. raises_solve. Qed.
#[local] Hint Resolve raises_request_from_delivery raises_new_event raises_version
  raises_request_of_row raises_validate_context : raises.

Lemma raises_verify context d : raises ordinary (_verify_delivery context d).
Proof. unfold _verify_delivery. raises_solve. Qed.
Lemma raises_update_item key guard f miss : ordinary miss → raises ordinary (update_item key guard f miss).
Proof. intros Hmiss. unfold update_item. raises_solve. Qed.
Lemma raises_update_lease key guard f miss : ordinary miss → raises ordinary (update_lease key guard f miss).
Proof. intros Hmiss. unfold update_lease. raises_solve. Qed.
#[local] Hint Resolve raises_verify raises_update_item raises_update_lease : raises.

Lemma raises_fail_projection lease at_ code retry_at terminal :
  raises ordinary (fail_projection lease at_ code retry_at terminal).
Proof.
  unfold fail_projection, _dead_letter_in_transaction, _complete_in_transaction, touch_item,
    _release_in_transaction, record_dead_letter, violates. raises_solve.
Qed.
Lemma raises_claim_projection request token gen n owner dur limit :
  raises ordinary (claim_projection request token gen n owner dur limit).
Proof. unfold claim_projection, upsert_lease, violates. raises_solve. Qed.
Lemma raises_fenced context request t lease m : raises ordinary m →
  raises ordinary (_append_fenced context request t lease m).
Proof. intros Hm. unfold _append_fenced. raises_solve. Qed.
#[local] Hint Resolve raises_fail_projection raises_claim_projection raises_fenced : raises.

Lemma repository_mark_published context d at_ : raises ordinary (mark_published context d at_).
Proof. unfold mark_published, mark_projection. raises_solve. Qed.
Lemma repository_claim context d owner now expires limit :
  raises ordinary (claim context d owner now expires limit).
Proof. unfold claim, attempt. raises_solve. Qed.
Lemma repository_cancel context d lease at_ : raises ordinary (cancel context d lease at_).
Proof. unfold cancel, _cancel_in_transaction. raises_solve. Qed.
Lemma repository_fail context d lease at_ class code retry_at :
  raises ordinary (fail context d lease at_ class code retry_at).
Proof. unfold fail. raises_solve. Qed.
Lemma repository_status (f : Tables → bool) : raises ordinary (storage_guard (transaction (query f))).
Proof. raises_solve. Qed.

(** With a queue and a quota that raise ordinary errors, so do the surroundings
  of a supervisor on the repository. *)
Lemma repository_surroundings (o : WorkerOracles World) supervisor quota :
  (∀ n e, wo_queue o n = inl e → ordinary e) → (∀ tenant e, quota tenant = inl e → ordinary e) →
  surroundings_raise o supervisor quota ordinary.
Proof.
  intros Hqueue Hquota. split; simpl; eauto using repository_mark_published, repository_claim,
    repository_cancel, repository_fail, repository_status.
  intros attempt e. revert e. change (raises_result ordinary (delay (ws_backoff supervisor) attempt)).
  unfold delay. raises_solve.
Qed.
End Errors.

(** ** A sample batch *)

#[local] Instance sample_repr : PyRepr := λ _, ""%string.

Definition sample_supervisor : WorkerSupervisor :=
  mkSupervisor "worker-1" 2 30000000 10000000 default_backoff.

Definition sample_oracles (handler : result WorkResult) : WorkerOracles World := {|
  wo_clock n := Dt.Aware (20000000 + 1000000 * Z.of_nat n);
  wo_others _ w := w;
  wo_cancelled _ := None;
  wo_queue _ := inr tt;
  wo_deliveries _ _ := inr [];
  wo_handler _ _ := handler;
  wo_wait _ := (3%nat, HandlerDone);
  wo_done _ := (0%nat, []);
  wo_drain _ := false;
  wo_in_time _ := true;
|}.

Definition sample_worker (w : World) : Worker World := mkWorker w false [] false 0 [].

Definition sample_batch (handler : result WorkResult) : result bool * Worker World :=
  run_batch (sample_oracles handler) sample_supervisor (λ _, inr 2) [sample_delivery]
    (sample_worker outbox_leased).

Lemma others_idle handler n w : ledger_grown w (wo_others (sample_oracles handler) n w).
Proof. simpl. reflexivity. Qed.

Lemma sample_max : 1 ≤ ws_max_concurrency sample_supervisor.
Proof. simpl. lia. Qed.

Lemma sample_batch_runs : (sample_batch (inr (mkWorkResult "blob-1"))).1 = inr true.
Proof. vm_compute. reflexivity. Qed.

Lemma sample_batch_acknowledges :
  existsb (λ a, match a with Acknowledged _ => true | _ => false end)
    (wk_trace (sample_batch (inr (mkWorkResult "blob-1"))).2) = true ∧
  started_of (wk_trace (sample_batch (inr (mkWorkResult "blob-1"))).2) = [sample_delivery].
Proof. split; vm_compute; reflexivity. Qed.

Lemma acknowledged_after_outcome_witness :
  ∃ d s', sample_batch (inr (mkWorkResult "blob-1")) = (inr true, s') ∧
    Acknowledged d ∈ wk_trace s' ∧
    ∃ id, TenantId_new (me_tenant_id (qd_envelope d)) = inr id ∧
      ((∃ store store', delivery_complete (mkTenantContext id) (me_work_id (qd_envelope d)) store
                        = (inr true, store') ∧ ledger_grown store' (wk_store s')) ∨
       (∃ lease, Leased d lease ∈ wk_trace s' ∧
                 outcome_recorded (mkTenantContext id) lease (wk_store s'))).
Proof.
  pose proof sample_batch_runs as Hr. destruct sample_batch_acknowledges as [Ha _].
  destruct (sample_batch (inr (mkWorkResult "blob-1"))) as [r s'] eqn:Hrun. simpl in Hr, Ha. subst r.
  apply existsb_exists in Ha as (a & Ha & Hack). apply list_elem_of_In in Ha.
  destruct a as [| | | |d|]; try discriminate Hack. exists d, s'. split; [done|]. split; [done|].
  exact (acknowledged_after_outcome (Laws := repository_laws) (sample_oracles _) sample_supervisor (λ _, inr 2) (others_idle _) [sample_delivery] d
           (sample_worker outbox_leased) (inr true) s' sample_max eq_refl eq_refl ltac:(unfold sample_batch in Hrun; exact Hrun) Ha).
Defined.

Lemma run_batch_bounded_and_complete_witness :
  ∃ s', sample_batch (inr (mkWorkResult "blob-1")) = (inr true, s') ∧
    within_concurrency sample_supervisor (wk_trace s') ∧ wk_active s' = [].
Proof.
  pose proof sample_batch_runs as Hr.
  destruct (sample_batch (inr (mkWorkResult "blob-1"))) as [r s'] eqn:Hrun. simpl in Hr. subst r.
  exists s'. split; [done|].
  destruct (run_batch_bounded_and_complete (Laws := repository_laws) (sample_oracles _) sample_supervisor (λ _, inr 2) (others_idle _) [sample_delivery]
    (sample_worker outbox_leased) (inr true) s' sample_max eq_refl eq_refl ltac:(unfold sample_batch in Hrun; exact Hrun))
    as (Hb & _ & Hall).
  split; [exact Hb|]. by destruct (Hall true eq_refl) as (_ & Hnil & _).
Defined.

(** A worker whose handler reports a cancellation after its lease was taken
    over. *)
Definition late (w : World) : World :=
  {| w_db := w_db w; w_position := w_position w; w_clock := w_clock w;
     w_tick := 60; w_uuids := w_uuids w; w_draw := w_draw w; w_txn_start := w_txn_start w;
     w_cell := w_cell w; w_maintenance := w_maintenance w |}.
Definition taken_over (w : World) : World :=
  run (reconcile_expired acme (Dt.Aware 71000000) 10)
    (late (run (request_cancel acme sample_request (Dt.Aware 30000000) None) w)).
Definition overtaken_oracles : WorkerOracles World := {|
  wo_clock n := Dt.Aware (20000000 + 1000000 * Z.of_nat n);
  wo_others n w := if (n =? 15)%nat then taken_over w else w;
  wo_cancelled _ := None;
  wo_queue _ := inr tt;
  wo_deliveries _ _ := inr [];
  wo_handler _ _ := inl (WorkerExecutionError FC_CANCELLED "stopped");
  wo_wait _ := (0%nat, HandlerDone);
  wo_done _ := (0%nat, []);
  wo_drain _ := false;
  wo_in_time _ := true;
|}.

(** The [FencingError] of the cancellation that [_process] attempts after a
    [WorkerExecutionError] escapes it, where the same error is contained in
    the block after it, and ends the batch. *)
Lemma cancelled_handler_fence_escapes :
  (run_batch overtaken_oracles sample_supervisor (λ _, inr 2) [sample_delivery]
     (sample_worker outbox_leased)).1 = inl (FencingError 1 0).
Proof. vm_compute. reflexivity. Qed.

(** The queue is down when the handled delivery is to be acknowledged. *)
Definition queue_down : WorkerOracles World := {|
  wo_clock n := Dt.Aware (20000000 + 1000000 * Z.of_nat n);
  wo_others _ w := w;
  wo_cancelled _ := None;
  wo_queue _ := inl (RetryableQueueError "redis transport unavailable");
  wo_deliveries _ _ := inr [];
  wo_handler _ _ := inl IndexError;
  wo_wait _ := (3%nat, HandlerDone);
  wo_done _ := (0%nat, []);
  wo_drain _ := false;
  wo_in_time _ := true;
|}.

Abbreviation stopped := (_process queue_down sample_supervisor (λ _, inr 2) sample_delivery
  (sample_worker outbox_leased)).

Lemma stopped_runs : stopped.1 = inl (RetryableQueueError "redis transport unavailable").
Proof. vm_compute. reflexivity. Qed.

Lemma handler_failures_contained_witness :
  ∃ e s', stopped = (inl e, s') ∧ (ordinary e ∨ e = CancelledError).
Proof.
  pose proof stopped_runs as Hr. destruct stopped as [r s'] eqn:Hrun. simpl in Hr. subst r.
  do 2 eexists. split; [reflexivity|].
  refine (handler_failures_contained (Store := repository_store) _ _ _ ordinary _ _ _ _ _ Hrun).
  apply repository_surroundings; [by intros n e [= <-]|by intros tenant e [=]].
Defined.
