(* ===== verification/Publisher.v ===== *)
(** * The outbox publisher

    Models [queueing/publisher.py]: a batch of outbox messages is leased, sent
    to the queue one by one and settled.  The repository is used through the
    class [OutboxRepo], the protocol of [queueing/__init__.py]; the queue, the
    cancellation event and the other users of the repository are oracles, read
    at increasing ticks.  Metrics, spans and log lines are left out; a trace
    records what was sent and settled.  The trace of a batch is characterised
    completely, whatever the queue, the repository and their other users do:
    the claims are handled in order, each is settled at most once, and nothing
    is marked published that the queue did not accept. *)

From stdpp Require Import base gmap list strings.
From Stdlib Require Import ZArith Lia.
From S2P Require Import Prelude PyLib Json Events Identity Work Database EventStore.
From S2P Require Import Ledger Raises LedgerReads LedgerAppend LedgerTheorems Outbox.
From S2P Require Import Parsing Wire WorkRepository WorkLedger WorkTheorems WorkSafety.

Local Open Scope Z_scope.

(** [OutboxRepository] *)
Class OutboxRepo (R : Type) : Type := {
  ob_claim : TenantContext → string → Dt.datetime → Dt.datetime → Z → option string →
    M exn R (list ClaimedOutboxMessage);
  ob_mark_published : TenantContext → uuid → string → Z → Dt.datetime → M exn R unit;
  ob_mark_failed : TenantContext → uuid → string → Z → Dt.datetime → string → M exn R unit;
  ob_mark_dead_lettered : TenantContext → uuid → string → Z → string → M exn R unit;
}.

(** [PostgresEventStore] has these operations. *)
#[export] Instance outbox_repo : OutboxRepo World := {
  ob_claim := claim_outbox;
  ob_mark_published := mark_outbox_published;
  ob_mark_failed := mark_outbox_failed;
  ob_mark_dead_lettered := mark_outbox_dead_lettered;
}.

(** ** State *)

Inductive publication : Type :=
| Sent (c : ClaimedOutboxMessage) (envelope : MessageEnvelope)
| MarkedPublished (c : ClaimedOutboxMessage)
| MarkedFailed (c : ClaimedOutboxMessage) (retry_at : Dt.datetime)
| MarkedDead (c : ClaimedOutboxMessage)
| Skipped (c : ClaimedOutboxMessage).

Record PublisherOracles (R : Type) : Type := {
  po_others : nat → R → R;
  po_queue : nat → MessageEnvelope → result string;
  po_cancelled : nat → bool;
}.
Arguments po_others {R}.
Arguments po_queue {R}.
Arguments po_cancelled {R}.

Record Publishing (R : Type) : Type := mkPublishing {
  pb_store : R;
  pb_tick : nat;
  pb_trace : list publication;
}.
Arguments mkPublishing {R}.
Arguments pb_store {R}.
Arguments pb_tick {R}.
Arguments pb_trace {R}.

Record PublishBatchResult : Type := mkBatchResult {
  pr_claimed : Z;
  pr_published : Z;
  pr_failed : Z;
}.

Definition _default_retry_delay (attempt : Z) : Z := Z.min 300 (2 ^ Z.min attempt 8) * Dt.second.

Record OutboxPublisher : Type := mkPublisher {
  op_publisher_id : string;
  op_batch_size : Z;
  op_lease_duration : Z;
  op_retry_delay : Z → Z;
}.

Definition OutboxPublisher_init (publisher_id : string) (batch_size lease_duration : Z)
    (retry_delay : option (Z → Z)) : result OutboxPublisher :=
  raise! ValueError "publisher_id is required" when! PyStr.is_empty publisher_id ;;
  raise! ValueError "batch_size must be between 1 and 100"
    when! negb ((1 <=? batch_size) && (batch_size <=? 100)) ;;
  raise! ValueError "lease_duration must be positive" when! lease_duration <=? 0 ;;
  inr (mkPublisher publisher_id batch_size lease_duration
         (default _default_retry_delay retry_delay)).

(** ** Operations *)

Section Envelope.
Context {Repr : PyRepr}.

(** [UUID(str(payload[key]))] *)
Definition payload_uuid (key : string) (payload : pydict) : result uuid :=
  let? v := subscript key payload in uuid_of_str (py_str v).

(** The [try] block of [_envelope]. *)
Definition routing_metadata (payload : pydict) : result (uuid * uuid * option uuid) :=
  let? work_id := payload_uuid "work_id" payload in
  let? correlation_id := payload_uuid "correlation_id" payload in
  let? causation_id :=
    match dict_get "causation_id" payload with
    | None | Some PNone => inr None
    | Some _ => let? u := payload_uuid "causation_id" payload in inr (Some u)
    end in
  inr (work_id, correlation_id, causation_id).

Definition _envelope (context : TenantContext) (claim : ClaimedOutboxMessage) (now : Dt.datetime)
    : result MessageEnvelope :=
  let payload := om_payload (co_message claim) in
  let? ids := match routing_metadata payload with
              | inl (KeyError _ | ValueError _) =>
                  inl (PermanentQueueError "outbox payload lacks work routing metadata")
              | r => r
              end in
  let '(work_id, correlation_id, causation_id) := (ids : uuid * uuid * option uuid) in
  raise! PermanentQueueError "outbox tenant header mismatch"
    when! match dict_get "tenant_id" (om_headers (co_message claim)) with
          | None | Some PNone => false
          | Some v => negb (bool_decide (py_str v = ctx_str context))
          end ;;
  MessageEnvelope_post_init
    {| me_message_id := om_message_id (co_message claim);
       me_tenant_id := ctx_str context;
       me_work_id := work_id;
       me_event_id := om_event_id (co_message claim);
       me_destination := om_destination (co_message claim);
       me_correlation_id := correlation_id;
       me_causation_id := causation_id;
       me_occurred_at := now;
       me_payload := payload;
       me_headers := om_headers (co_message claim);
       me_schema_version := 1 |}.
End Envelope.

Section Publisher.
Context {Repr : PyRepr} {R : Type} {Repo : OutboxRepo R} (o : PublisherOracles R)
  (publisher : OutboxPublisher).

Abbreviation Pub := (M exn (Publishing R)).

Definition pb_oracle {A} (f : nat → A) : Pub A := λ s,
  (inr (f (pb_tick s)), mkPublishing (pb_store s) (S (pb_tick s)) (pb_trace s)).

Definition note (p : publication) : Pub unit :=
  modify (λ s, mkPublishing (pb_store s) (pb_tick s) (pb_trace s ++ [p])).

(** What the others do while the publisher waits. *)
Definition pb_others : Pub unit := λ s,
  (inr tt, mkPublishing (po_others o (pb_tick s) (pb_store s)) (S (pb_tick s)) (pb_trace s)).

(** [await self._repository.op(...)] *)
Definition on_outbox {A} (m : M exn R A) : Pub A :=
  bind pb_others (λ _ s,
    let '(r, store) := m (pb_store s) in (r, mkPublishing store (pb_tick s) (pb_trace s))).

(** [await self._queue.publish(envelope)] *)
Definition send (c : ClaimedOutboxMessage) (envelope : MessageEnvelope) : Pub unit :=
  do! pb_others ;;
  let! reply := pb_oracle (po_queue o) in
  let! _ := lift (reply envelope) in
  note (Sent c envelope).

Section Batch.
Context (context : TenantContext) (now : Dt.datetime).

Definition _mark_failed (c : ClaimedOutboxMessage) (error_code : string) : Pub unit :=
  let retry_at := Dt.add now (op_retry_delay publisher (co_attempt_count c)) in
  do! on_outbox (ob_mark_failed context (om_message_id (co_message c)) (co_lease_owner c)
                   (co_lease_expires_at c) retry_at error_code) ;;
  note (MarkedFailed c retry_at).

(** The body of the loop: whether the message counts as published or as
    failed; [continue] counts it as neither. *)
Definition publish_claim (c : ClaimedOutboxMessage) : Pub (option bool) :=
  let! _ := lift (Dt.sub now (om_available_at (co_message c))) in
  catch
    (let! envelope := lift (_envelope context c now) in
     catch
       (do! send c envelope ;;
        do! on_outbox (ob_mark_published context (om_message_id (co_message c))
                         (co_lease_owner c) (co_lease_expires_at c) now) ;;
        do! note (MarkedPublished c) ;;
        ret (Some true))
       (λ e, if except_ConcurrencyError e then do! note (Skipped c) ;; ret None else raise e))
    (λ e, if except_RetryableQueueError e then
            do! _mark_failed c "redis_unavailable" ;; ret (Some false)
          else if except_PermanentQueueError e then
            do! on_outbox (ob_mark_dead_lettered context (om_message_id (co_message c))
                             (co_lease_owner c) (co_lease_expires_at c) "invalid_envelope") ;;
            do! note (MarkedDead c) ;; ret (Some false)
          else raise e).

(** The loop over the claims; [cancellable] is whether an event was passed. *)
Fixpoint publish_claims (cancellable : bool) (claims : list ClaimedOutboxMessage)
    (published failed : Z) : Pub (Z * Z) :=
  match claims with
  | [] => ret (published, failed)
  | c :: claims =>
      let! cancelled := if cancellable then pb_oracle (po_cancelled o) else ret false in
      if cancelled : bool then ret (published, failed) else
      let! outcome := publish_claim c in
      match outcome with
      | None => publish_claims cancellable claims published failed
      | Some true => publish_claims cancellable claims (published + 1) failed
      | Some false => publish_claims cancellable claims published (failed + 1)
      end
  end.

Definition publish_batch (cancellable : bool) : Pub PublishBatchResult :=
  do! raise_if (Dt.naive now) (ValueError "now must be timezone-aware") ;;
  let! claims := on_outbox (ob_claim context (op_publisher_id publisher)
                              (Dt.add now (op_lease_duration publisher)) now
                              (op_batch_size publisher) (Some "aegis.work"%string)) in
  let! counts := publish_claims cancellable claims 0 0 in
  ret (mkBatchResult (Z.of_nat (length claims)) counts.1 counts.2).
End Batch.
End Publisher.

(** ** The trace of a batch *)

Section Theorems.
Context {Repr : PyRepr} {R : Type} {Repo : OutboxRepo R} (o : PublisherOracles R)
  (publisher : OutboxPublisher) (context : TenantContext) (now : Dt.datetime).

Abbreviation Pub := (M exn (Publishing R)).

(** The queue has accepted the envelope of the claim, or not yet. *)
Inductive sent_part (c : ClaimedOutboxMessage) : list publication → Prop :=
| not_sent : sent_part c []
| sent envelope : _envelope context c now = inr envelope → sent_part c [Sent c envelope].

(** What is done for one claim, and whether it counts as published or as
    failed. *)
Inductive segment (c : ClaimedOutboxMessage) : list publication → option bool → Prop :=
| seg_published envelope : _envelope context c now = inr envelope →
    segment c [Sent c envelope; MarkedPublished c] (Some true)
| seg_skipped before : sent_part c before → segment c (before ++ [Skipped c]) None
| seg_failed before : sent_part c before →
    segment c (before ++ [MarkedFailed c (Dt.add now (op_retry_delay publisher (co_attempt_count c)))])
      (Some false)
| seg_dead before : sent_part c before → segment c (before ++ [MarkedDead c]) (Some false).

Lemma on_outbox_trace {A} (m : M exn R A) s r s' : on_outbox o m s = (r, s') → pb_trace s' = pb_trace s.
Proof.
  unfold on_outbox, bind, pb_others. simpl. destruct (m _) as [x store]. by intros [= _ <-].
Qed.

Lemma send_trace c envelope s r s' : send o c envelope s = (r, s') →
  match r with
  | inr _ => pb_trace s' = pb_trace s ++ [Sent c envelope]
  | inl _ => pb_trace s' = pb_trace s
  end.
Proof.
  unfold send, bind, pb_others, pb_oracle, lift, note. simpl.
  destruct (po_queue o _ envelope); simpl; by intros [= <- <-].
Qed.

(** A claim is settled, or an exception leaves it as far as it was sent. *)
Lemma publish_claim_spec c s r s' : publish_claim o publisher context now c s = (r, s') →
  ∃ part, pb_trace s' = pb_trace s ++ part ∧
    match r with inr outcome => segment c part outcome | inl _ => sent_part c part end.
Proof.
  unfold publish_claim. intros Hrun. unfold bind at 1, lift at 1 in Hrun.
  destruct (Dt.sub now _) as [e|lag]; [injection Hrun as <- <-; exists []; rewrite app_nil_r; by split; [|constructor]|].
  unfold catch at 1 in Hrun.
  match type of Hrun with context [match ?b s with _ => _ end] => destruct (b s) as [x s1] eqn:Hbody end.
  assert (Hpart : ∃ part, pb_trace s1 = pb_trace s ++ part ∧
    match x with inr outcome => segment c part outcome | inl _ => sent_part c part end).
  { clear Hrun. unfold bind at 1, lift at 1 in Hbody.
    destruct (_envelope context c now) as [e|envelope] eqn:Henv.
    { injection Hbody as <- <-. exists []. rewrite app_nil_r. by split; [|constructor]. }
    unfold catch at 1 in Hbody. unfold bind at 1 in Hbody.
    destruct (send o c envelope s) as [[e|u] s2] eqn:Hsend; apply send_trace in Hsend.
    { destruct (except_ConcurrencyError e).
      - injection Hbody as <- <-. exists [Skipped c]. simpl. rewrite Hsend. split; [done|].
        apply (seg_skipped c []). constructor.
      - injection Hbody as <- <-. exists []. rewrite app_nil_r. by split; [|constructor]. }
    unfold bind at 1 in Hbody.
    destruct (on_outbox o _ s2) as [[e|u2] s3] eqn:Hmark; apply on_outbox_trace in Hmark.
    - destruct (except_ConcurrencyError e); injection Hbody as <- <-.
      + exists [Sent c envelope; Skipped c]. simpl. rewrite Hmark, Hsend, <- app_assoc. split; [done|].
        apply (seg_skipped c [Sent c envelope]). by constructor.
      + exists [Sent c envelope]. rewrite Hmark, Hsend. split; [done|]. by constructor.
    - injection Hbody as <- <-. exists [Sent c envelope; MarkedPublished c]. simpl.
      rewrite Hmark, Hsend, <- app_assoc. split; [done|]. by constructor. }
  destruct Hpart as (part & Htr & Hpart). destruct x as [e|outcome].
  - destruct (except_RetryableQueueError e); [|destruct (except_PermanentQueueError e)].
    + unfold _mark_failed in Hrun. unfold bind at 1 2 in Hrun.
      destruct (on_outbox o _ s1) as [[e'|u] s2] eqn:Hmark; apply on_outbox_trace in Hmark;
        injection Hrun as <- <-; simpl; rewrite Hmark, Htr.
      * by exists part.
      * rewrite <- app_assoc. eexists. split; [done|]. by constructor.
    + unfold bind at 1 in Hrun.
      destruct (on_outbox o _ s1) as [[e'|u] s2] eqn:Hmark; apply on_outbox_trace in Hmark;
        injection Hrun as <- <-; simpl; rewrite Hmark, Htr.
      * by exists part.
      * rewrite <- app_assoc. eexists. split; [done|]. by constructor.
    + injection Hrun as <- <-. by exists part.
  - injection Hrun as <- <-. by exists part.
Qed.

Definition counts (b : bool) (outcome : option bool) : Z :=
  match outcome with Some b' => if Bool.eqb b b' then 1 else 0 | None => 0 end.

Definition count_outcome (b : bool) (outcomes : list (option bool)) : Z :=
  foldr (λ outcome n, counts b outcome + n) 0 outcomes.

(** How far a batch has come: the claims settled, what they left in the
    trace, their outcomes, and the part of the next claim. *)
Record progress (claims : list ClaimedOutboxMessage) (cancellable : bool)
    (new : list publication) (r : result (list (option bool))) : Prop := {
  pg_progress : ∃ done rest parts outcomes part,
    claims = done ++ rest ∧ Forall3 segment done parts outcomes ∧ new = concat parts ++ part ∧
    match r with
    | inr outcomes' => part = [] ∧ outcomes' = outcomes ∧ (cancellable = false → rest = [])
    | inl _ => ∃ c rest', rest = c :: rest' ∧ sent_part c part
    end;
}.

Lemma publish_claims_spec cancellable claims p f s r s' :
  publish_claims o publisher context now cancellable claims p f s = (r, s') →
  ∃ new x, pb_trace s' = pb_trace s ++ new ∧ progress claims cancellable new x ∧
    match x, r with
    | inr outcomes, inr counts =>
        counts = (p + count_outcome true outcomes, f + count_outcome false outcomes)
    | inl e, inl e' => e' = e
    | _, _ => False
    end.
Proof.
  revert p f s. induction claims as [|c claims IH]; intros p f s Hrun; simpl in Hrun.
  { injection Hrun as <- <-. exists [], (inr []). rewrite app_nil_r. split; [done|]. split.
    - constructor. exists [], [], [], [], []. by repeat split; [constructor|..].
    - simpl. f_equal; lia. }
  unfold bind at 1 in Hrun.
  assert (Hflag : ∃ b s0, (if cancellable then pb_oracle (po_cancelled o) else ret false) s = (inr b, s0) ∧
    pb_trace s0 = pb_trace s ∧ (cancellable = false → b = false)).
  { destruct cancellable; by do 2 eexists. }
  destruct Hflag as (b & s0 & Hb & Htr0 & Hnot). rewrite Hb in Hrun. destruct b.
  { injection Hrun as <- <-. exists [], (inr []). rewrite app_nil_r. split; [done|]. split.
    - constructor. exists [], (c :: claims), [], [], []. split_and!; [done|constructor|done|done|done|].
      intros H. by specialize (Hnot H).
    - simpl. f_equal; lia. }
  unfold bind in Hrun. destruct (publish_claim _ _ _ _ c s0) as [[e|outcome] s1] eqn:H1;
    apply publish_claim_spec in H1 as (part & Htr1 & Hpart).
  { injection Hrun as <- <-. exists part, (inl e). rewrite Htr1, Htr0. split; [done|]. split; [|done].
    constructor. exists [], (c :: claims), [], [], part. split_and!; [done|constructor|done|].
    by exists c, claims. }
  assert (Hrest : ∃ p' f', publish_claims o publisher context now cancellable claims p' f' s1 = (r, s') ∧
    p' = p + counts true outcome ∧ f' = f + counts false outcome).
  { destruct outcome as [[]|]; do 2 eexists; (split; [exact Hrun|]); simpl; lia. }
  destruct Hrest as (p' & f' & H2 & Hp & Hf). apply IH in H2 as (new & x & Htr & [Hpg] & Hx).
  destruct Hpg as (done & rest & parts & outcomes & last & Hcl & Hsegs & Hnew & Hend).
  exists (part ++ new), (match x with inr os => inr (outcome :: os) | inl e => inl e end).
  split; [by rewrite Htr, Htr1, Htr0, app_assoc|]. split.
  - constructor. exists (c :: done), rest, (part :: parts), (outcome :: outcomes), last.
    split_and!; [by rewrite Hcl|by constructor|by rewrite Hnew, app_assoc|].
    destruct x as [e|os]; [exact Hend|]. destruct Hend as (-> & -> & Hall). done.
  - destruct x as [e|os], r as [e'|counts]; try done.
    rewrite Hx, Hp, Hf. simpl. f_equal; lia.
Qed.

(** C23. A batch settles its claims one after the other, each at most once.  A
    claim is published (sent, then marked), skipped because its lease was
    lost, put back for a retry after its delay, or dead-lettered; it is marked
    published only right after the queue accepted its envelope.  Without a
    cancellation a batch that returns has settled all its claims, and it
    reports their number and outcomes; an exception leaves one claim at most
    sent and not settled. *)
Theorem publish_batch_settles_claims cancellable s r s' :
  publish_batch o publisher context now cancellable s = (r, s') →
  ∃ new, pb_trace s' = pb_trace s ++ new ∧
    ((new = [] ∧ ∃ e, r = inl e) ∨
     ∃ claims store x,
       ob_claim context (op_publisher_id publisher) (Dt.add now (op_lease_duration publisher)) now
         (op_batch_size publisher) (Some "aegis.work"%string) (po_others o (pb_tick s) (pb_store s))
       = (inr claims, store) ∧
       progress claims cancellable new x ∧
       match x, r with
       | inr outcomes, inr reported =>
           reported = mkBatchResult (Z.of_nat (length claims)) (count_outcome true outcomes)
                        (count_outcome false outcomes)
       | inl e, inl e' => e' = e
       | _, _ => False
       end).
Proof.
  unfold publish_batch. intros Hrun. unfold bind at 1 in Hrun. destruct (Dt.naive now).
  { injection Hrun as <- <-. exists []. rewrite app_nil_r. split; [done|]. left. by split; [|eexists]. }
  simpl in Hrun. unfold bind at 1 in Hrun.
  unfold on_outbox, bind at 1, pb_others in Hrun. simpl in Hrun.
  destruct (ob_claim _ _ _ _ _ _ _) as [[e|claims] store] eqn:Hclaim.
  { injection Hrun as <- <-. exists []. rewrite app_nil_r. split; [done|]. left. by split; [|eexists]. }
  unfold bind in Hrun. destruct (publish_claims _ _ _ _ _ _ _ _ _) as [x s2] eqn:H2.
  apply publish_claims_spec in H2 as (new & y & Htr & Hpg & Hy). simpl in Htr.
  exists new. destruct x as [e|counts]; injection Hrun as <- <-; (split; [done|]); right;
    exists claims, store, y; (split; [done|]); (split; [done|]); destruct y as [e'|os]; try done.
  by rewrite Hy, !Z.add_0_l.
Qed.
End Theorems.

(** ** A batch on the sample work *)

#[local] Instance witness_repr : PyRepr := λ _, ""%string.

Definition sample_publisher : OutboxPublisher :=
  mkPublisher "publisher" 10 (30 * Dt.second) _default_retry_delay.

(** A queue that accepts everything, and no other user of the store. *)
Definition calm_oracles : PublisherOracles World :=
  {| po_others := λ _ w, w; po_queue := λ _ _, inr "1-0"%string; po_cancelled := λ _, false |}.

Definition publish_sample : result PublishBatchResult * Publishing World :=
  publish_batch calm_oracles sample_publisher acme (Dt.Aware 12000000) false
    (mkPublishing registered 0 []).

Lemma publish_batch_settles_claims_witness :
  publish_sample.1 = inr (mkBatchResult 1 1 0) ∧
  ∃ new, pb_trace publish_sample.2 = [] ++ new ∧ (new ≠ [] ∨ ∃ e, publish_sample.1 = inl e).
Proof.
  split; [vm_compute; reflexivity|]. destruct publish_sample as [r s'] eqn:Hrun.
  destruct (publish_batch_settles_claims calm_oracles sample_publisher acme (Dt.Aware 12000000) false
    (mkPublishing registered 0 []) r s' ltac:(unfold publish_sample in Hrun; exact Hrun)) as (new & Htr & _).
  exists new. split; [exact Htr|]. left. intros ->.
  assert (Hlen : length (pb_trace publish_sample.2) = 2%nat) by (vm_compute; reflexivity).
  rewrite Hrun in Hlen. cbn [snd] in Hlen. rewrite Htr in Hlen. discriminate Hlen.
Defined.
