(* ===== verification/Calendar.v ===== *)
(** * Reading back what [isoformat] and [str] write

    The round trip of [datetime.isoformat] and [datetime.fromisoformat] on
    every value of Python's [datetime], by way of the proleptic Gregorian
    calendar, whose two conversions are inverse, and of [str] and [int] on
    numbers. *)

From stdpp Require Import base list strings pretty.
From Stdlib Require Import ZArith Lia Ascii.
From S2P Require Import Prelude PyLib Json Events Identity Work Database EventStore Wire.
From S2P Require Import Amounts Parsing ParsingTheorems.

Local Open Scope Z_scope.

(** ** Digits *)

Lemma parse_digits_add k j s a :
  parse_digits (k + j) s a = '(a', s') ← parse_digits k s a; parse_digits j s' a'.
Proof.
  revert s a. induction k as [|k IH]; intros s a; [done|]. simpl.
  destruct s as [|c s]; [done|]. destruct (digit_value c); [apply IH|done].
Qed.

Lemma digit_value_of n : 0 <= n < 10 → digit_value (ascii_of_N (48 + Z.to_N n)) = Some n.
Proof.
  intros Hn. assert (n = 0 ∨ n = 1 ∨ n = 2 ∨ n = 3 ∨ n = 4 ∨ n = 5 ∨ n = 6 ∨ n = 7 ∨ n = 8 ∨ n = 9)
    as Hcase by lia.
  by repeat destruct Hcase as [->|Hcase]; [..|subst n].
Qed.

Lemma parse_digits_digits k n acc a : 0 <= n < 10 ^ Z.of_nat k →
  parse_digits k (digits k n acc) a = Some (a * 10 ^ Z.of_nat k + n, acc).
Proof.
  revert n acc a. induction k as [|k IH]; intros n acc a Hn.
  - simpl in *. f_equal. f_equal. lia.
  - cbn [digits]. replace (S k) with (k + 1)%nat by lia. rewrite parse_digits_add.
    replace (Z.of_nat (k + 1)) with (Z.of_nat k + 1) by lia.
    rewrite Nat2Z.inj_succ, <- Z.add_1_r, Z.pow_add_r in Hn by lia.
    rewrite Z.pow_add_r by lia. simpl (10 ^ 1) in *.
    rewrite IH by (split; [apply Z.div_pos; lia|apply Z.div_lt_upper_bound; lia]). simpl.
    rewrite digit_value_of by (apply Z.mod_pos_bound; lia). do 2 f_equal.
    pose proof (Z.div_mod n 10). lia.
Qed.

Lemma digits_app k n acc : digits k n acc = digits k n "" +:+ acc.
Proof.
  revert n acc. induction k as [|k IH]; intros n acc; [done|]. cbn [digits].
  rewrite (IH _ (String _ acc)), (IH _ (String _ "")). by rewrite str_app_assoc.
Qed.

Lemma parse_pad k n rest : 0 <= n < 10 ^ Z.of_nat k →
  parse_digits k (pad k n +:+ rest) 0 = Some (n, rest).
Proof. intros Hn. unfold pad. rewrite <- digits_app. by rewrite parse_digits_digits by done. Qed.

(** ** The calendar *)

(** Euclidean division for [lia], in this file only. *)
Local Ltac Zify.zify_post_hook ::= Z.to_euclidean_division_equations.

Lemma civil_inverse z y m d : Dt.civil_from_days z = (y, m, d) →
  Dt.days_from_civil y m d = z ∧ 1 <= m <= 12 ∧ 1 <= d <= 31 ∧ d <= days_in_month y m.
Proof.
  unfold Dt.civil_from_days, days_in_month, Dt.days_from_civil. cbv zeta. intros [= Hy Hm Hd].
  set (era := (z + 719468) / 146097) in *. set (doe := (z + 719468) mod 146097) in *.
  assert (Hdoe : 0 <= doe < 146097) by (unfold doe; lia).
  assert (Hz : z = era * 146097 + doe - 719468) by (unfold doe, era; lia). clearbody doe era.
  set (yoe := (doe - doe / 1460 + doe / 36524 - doe / 146096) / 365) in *.
  assert (Hyoe : 0 <= yoe < 400) by (unfold yoe; lia).
  set (doy := doe - (365 * yoe + yoe / 4 - yoe / 100)) in *.
  assert (Hdoy : 0 <= doy <= 365) by (unfold doy, yoe; lia).
  assert (Hdoe2 : doe = yoe * 365 + yoe / 4 - yoe / 100 + doy) by (unfold doy; lia).
  assert (Hnext : doe < (yoe + 1) * 365 + (yoe + 1) / 4 - (yoe + 1) / 100 + (yoe + 1) / 400).
  { unfold yoe. lia. }
  clearbody yoe doy.
  set (mp := (5 * doy + 2) / 153) in *.
  assert (Hnd : 153 * mp <= 5 * doy + 2 < 153 * (mp + 1)) by (unfold mp; clear; lia).
  assert (Hmp : 0 <= mp <= 11) by (unfold mp; lia).
  assert (Hmd : d = doy - (153 * mp + 2) / 5 + 1) by lia.
  assert (H1d : 1 <= d <= 31) by (clear - Hmd Hnd; lia).
  clearbody mp.
  destruct (mp <? 10) eqn:Hlt; [apply Z.ltb_lt in Hlt|apply Z.ltb_ge in Hlt].
  - subst m. assert ((mp + 3 <=? 2) = false) as Hm2 by (apply Z.leb_gt; lia). rewrite Hm2 in *.
    assert ((2 <? mp + 3) = true) as -> by (apply Z.ltb_lt; lia).
    subst y. rewrite Z.add_0_r. rewrite Z.div_add, Z.mod_add by lia.
    rewrite Z.div_small, Z.mod_small by lia. split; [lia|]. split; [lia|]. split; [lia|].
    destruct (Z.eqb_spec (mp + 3) 12).
    + replace mp with 9 in * by lia. cbn -[Z.div Z.modulo Z.mul]. lia.
    + assert ((mp + 3 + 1 <=? 2) = false) as -> by (apply Z.leb_gt; lia).
      assert ((2 <? mp + 3 + 1) = true) as -> by (apply Z.ltb_lt; lia).
      lia.
  - subst m. assert ((mp - 9 <=? 2) = true) as Hm2 by (apply Z.leb_le; lia). rewrite Hm2 in *.
    assert ((2 <? mp - 9) = false) as -> by (apply Z.ltb_ge; lia).
    subst y. replace (yoe + era * 400 + 1 - 1) with (yoe + era * 400) by lia.
    rewrite Z.div_add, Z.mod_add by lia.
    rewrite Z.div_small, Z.mod_small by lia. split; [lia|]. split; [lia|]. split; [lia|].
    destruct (Z.eqb_spec (mp - 9) 12); [lia|].
    destruct (Z.eqb_spec mp 10) as [->|Hmp'].
    + change (10 - 9 + 1 <=? 2) with true. change (2 <? 10 - 9 + 1) with false. cbv iota.
      replace (yoe + era * 400 + 1 - 1) with (yoe + era * 400) by lia.
      rewrite Z.div_add, Z.mod_add by lia. rewrite Z.div_small, Z.mod_small by lia.
      clear - Hmd Hnd. lia.
    + replace mp with 11 in * by lia.
      change (11 - 9 + 1 <=? 2) with false. change (2 <? 11 - 9 + 1) with true. cbv iota.
      destruct (Z.eqb_spec yoe 399) as [->|Hlast].
      * replace (399 + era * 400 + 1) with (0 + (era + 1) * 400) by lia.
        rewrite Z.div_add, Z.mod_add by lia. change (0 / 400) with 0. change (0 mod 400) with 0.
        clear - Hmd Hnext Hdoe2. lia.
      * replace (yoe + era * 400 + 1) with (yoe + 1 + era * 400) by lia.
        rewrite Z.div_add, Z.mod_add by lia. rewrite (Z.div_small (yoe + 1)), (Z.mod_small (yoe + 1)) by lia.
        clear - Hmd Hnext Hdoe2 Hyoe Hlast. lia.
Qed.

(** ** Datetimes *)

(** The microseconds from 0001-01-01 to 9999-12-31, the range of [datetime]. *)
Definition in_range (d : Dt.datetime) : Prop :=
  -719162 * Dt.day <= Dt.us d < 2932897 * Dt.day.

Lemma civil_year z y m d : Dt.civil_from_days z = (y, m, d) → -719162 <= z < 2932897 → 1 <= y <= 9999.
Proof.
  intros Hciv Hz. apply civil_inverse in Hciv as (Hinv & Hm & Hd & _). unfold Dt.days_from_civil in Hinv. cbv zeta in Hinv.
  destruct (Z.leb_spec m 2), (Z.ltb_spec 2 m); try lia.
Qed.

Lemma expect_literal c rest : expect c (String c "" +:+ rest) = Some rest.
Proof. cbv [String.append expect]. by rewrite Ascii.eqb_refl. Qed.

(** The optional fraction of a second, before an offset. *)
Lemma read_fraction frac rest : 0 <= frac < 1000000 → expect "." rest = None →
  match expect "." ((if (frac =? 0)%Z then "" else "." +:+ pad 6 frac) +:+ rest)%string with
  | Some s' => parse_digits 6 s' 0
  | None => Some (0, ((if (frac =? 0)%Z then "" else "." +:+ pad 6 frac) +:+ rest)%string)
  end = Some (frac, rest).
Proof.
  intros Hfrac Hrest. destruct (Z.eqb_spec frac 0) as [->|_].
  - change ("" +:+ rest)%string with rest. by rewrite Hrest.
  - rewrite str_app_assoc, expect_literal. by apply parse_pad.
Qed.

(** One field and the literal after it are read. *)
Local Ltac read_field :=
  rewrite parse_pad by (simpl; lia); cbn [mbind option_bind];
  try (rewrite expect_literal; cbn [mbind option_bind]).

(** [datetime.fromisoformat] reads back every datetime [isoformat]
    writes, to the microsecond and with its awareness. *)
Theorem isoformat_roundtrip d : in_range d → parse_iso (isoformat d) = Some d.
Proof.
  unfold in_range, isoformat, parse_iso. intros Hd.
  set (u := Dt.us d) in *. set (t := u mod Dt.day).
  assert (Ht : 0 <= t < Dt.day) by (apply Z.mod_pos_bound; done).
  assert (Hu : u = u / Dt.day * Dt.day + t) by (unfold t; rewrite Z.mul_comm; by apply Z.div_mod).
  assert (Hz : -719162 <= u / Dt.day < 2932897) by (clearbody t; unfold Dt.day, Dt.second in *; lia).
  destruct (Dt.civil_from_days (u / Dt.day)) as [[y m] dd] eqn:Hciv.
  pose proof (civil_year _ _ _ _ Hciv Hz) as Hy.
  apply civil_inverse in Hciv as (Hinv & Hm & Hdd & Hlen).
  set (s := t / Dt.second). set (frac := t mod Dt.second).
  assert (Hs : t = s * Dt.second + frac)
    by (unfold s, frac; rewrite Z.mul_comm; by apply Z.div_mod).
  assert (Hfrac : 0 <= frac < 1000000) by (apply Z.mod_pos_bound; done).
  assert (Hs0 : 0 <= s < 86400) by (clearbody s frac; unfold Dt.day, Dt.second in *; lia).
  assert (Hh : 0 <= s / 3600 < 24 ∧ 0 <= s / 60 mod 60 < 60 ∧ 0 <= s mod 60 < 60) by (clearbody s; lia).
  assert (Hparts : 3600 * (s / 3600) + 60 * (s / 60 mod 60) + s mod 60 = s) by (clearbody s; lia).
  clearbody s frac t.
  do 3 read_field. 
  change ("T" +:+ ?s) with (String "T" s).
  cbn [mbind option_bind]. do 3 read_field.
  rewrite read_fraction by (first [done|by destruct d]). cbn [mbind option_bind].
  assert (parse_offset (match d with Dt.Aware _ => "+00:00" | Dt.Naive _ => "" end)
    = Some (match d with Dt.Aware _ => Some 0 | Dt.Naive _ => None end)) as -> by (by destruct d).
  cbn [mbind option_bind].
  repeat (rewrite (proj2 (Z.leb_le _ _)) by lia). repeat (rewrite (proj2 (Z.ltb_lt _ _)) by lia).
  cbn [andb]. rewrite Hinv, Hparts, <- Z.add_assoc, <- Hs, <- Hu.
  destruct d as [u0|u0]; [|done]. do 2 f_equal. change (Dt.us (Dt.Aware u0)) with u0 in *. lia.
Qed.

(** ** Decimal texts *)

Lemma parse_nat_digits s acc b : all_chars is_dec_digit s = true → (b = true ∨ s ≠ ""%string) →
  parse_nat_text s acc b = Some (digits_value s acc).
Proof.
  revert acc b. induction s as [|c s IH]; intros acc b Hs Hb.
  - simpl. by destruct Hb as [->|].
  - cbn [all_chars] in Hs. apply andb_prop in Hs as [Hc Hs]. cbn [parse_nat_text digits_value].
    unfold is_dec_digit in Hc. change (dec_value c) with (digit_value c) in *.
    destruct (digit_value c); [|done]. apply IH; auto.
Qed.

Lemma int_of_pretty z : 0 ≤ z → int_of_text (pretty z) = inr z.
Proof.
  intros Hz. destruct (pretty_digits z Hz) as (Hd & Hv & Hl). unfold int_of_text.
  rewrite strip_none.
  2:{ eapply all_chars_impl; [|exact Hd]. intros c. each_char c. }
  destruct (pretty z) as [|c s] eqn:Hp; [by unfold PyStr.len in Hl; simpl in Hl|].
  pose proof (parse_nat_digits (String c s) 0 false Hd ltac:(by right)) as Hparse.
  rewrite Hv in Hparse. cbn [all_chars] in Hd. apply andb_prop in Hd as [Hc _].
  assert (c ≠ "-"%char ∧ c ≠ "+"%char) as [Hm Hp'] by (split; intros ->; done).
  clear - Hm Hp' Hparse.
  destruct c as [[] [] [] [] [] [] [] []]; first [by destruct Hm|by destruct Hp'|by rewrite Hparse].
Qed.
