(* ===== verification/EventDecoding.v ===== *)
(** * Reading serialized envelopes

    Models [EventEnvelope.from_mapping] of [domain/events.py], the decoder of
    current and of older serialized envelopes, with its helpers.  Whatever
    spells an envelope, in the form of any release, is read as that envelope;
    whatever is read is a well-formed envelope of what the mapping says; all
    other mappings are refused with [KeyError] or [ValueError]. *)

From stdpp Require Import base gmap sets list strings pretty.
From Stdlib Require Import ZArith Lia SpecFloat.
From S2P Require Import Prelude PyLib Json Events Identity Work Amounts Database EventStore Raises.
From S2P Require Import Parsing ParsingTheorems Wire Calendar.

Local Open Scope Z_scope.

Section Decoding.
Context {Repr : PyRepr}.

Definition _optional_uuid (value : option pyval) : result (option uuid) :=
  match value with
  | None | Some PNone => inr None
  | Some v => let? u := uuid_of_str (py_str v) in inr (Some u)
  end.

Definition _optional_string (value : option pyval) : option string :=
  match value with None | Some PNone => None | Some v => Some (py_str v) end.

Definition _require_nonempty_string (value : pyval) : result string :=
  match value with
  | PStr s => if blank s then inl (ValueError "must be a non-empty string") else inr s
  | _ => inl (ValueError "must be a non-empty string")
  end.

(** [int(str(value[key])) if value.get(key) is not None else None] *)
Definition optional_integer (value : option pyval) : result (option Z) :=
  match value with
  | None | Some PNone => inr None
  | Some v => let? n := int_of_value v in inr (Some n)
  end.

(** [datetime.fromisoformat(str(recorded_at)) if recorded_at is not None else None] *)
Definition optional_datetime (value : option pyval) : result (option Dt.datetime) :=
  match value with
  | None | Some PNone => inr None
  | Some v => let? d := fromisoformat (py_str v) in inr (Some d)
  end.

(** [isinstance(value, Mapping)] *)
Definition mapping_value (value : option pyval) : option pydict :=
  match value with Some (PDict d) | Some (PProxy d) => Some d | _ => None end.

Definition actor_of_mapping (d : pydict) : result ActorReference :=
  let? id := subscript "actor_id" d in
  let? kind := subscript "kind" d in
  let? kind := sc_new (py_str kind) in
  ActorReference_post_init {| actor_id := py_str id; actor_kind := kind |}.

Definition trace_of_mapping (d : pydict) : result TraceContext :=
  let? parent := subscript "traceparent" d in
  TraceContext_post_init
    {| traceparent := py_str parent; tracestate := _optional_string (dict_get "tracestate" d) |}.

(** [f(value) if isinstance(value, Mapping) else None] *)
Definition optional_mapping {A} (f : pydict → result A) (value : option pyval) : result (option A) :=
  match mapping_value value with
  | Some d => let? a := f d in inr (Some a)
  | None => inr None
  end.

Definition required_string (key : string) (value : pydict) : result string :=
  let? v := subscript key value in _require_nonempty_string v.

Definition from_mapping (value : pydict) : result EventEnvelope :=
  let? actor := optional_mapping actor_of_mapping (dict_get "actor" value) in
  let? trace_context := optional_mapping trace_of_mapping (dict_get "trace_context" value) in
  match mapping_value (dict_get "payload" value),
        mapping_value (Some (default (PDict []) (dict_get "metadata" value))) with
  | Some payload, Some metadata =>
      let? id := subscript "event_id" value in
      let? event_id := uuid_of_str (py_str id) in
      let? tenant_id := required_string "tenant_id" value in
      let? aggregate_id := required_string "aggregate_id" value in
      let? event_type := required_string "event_type" value in
      let? version := subscript "schema_version" value in
      let? schema_version := int_of_value version in
      let? occurred := subscript "occurred_at" value in
      let? occurred_at := fromisoformat (py_str occurred) in
      let? correlation_id := _optional_uuid (dict_get "correlation_id" value) in
      let? causation_id := _optional_uuid (dict_get "causation_id" value) in
      let? aggregate_sequence :=
        int_of_value (default (PInt 0) (dict_get "aggregate_sequence" value)) in
      let? global_position := optional_integer (dict_get "global_position" value) in
      let? recorded_at := optional_datetime (dict_get "recorded_at" value) in
      let? audit_reference := _optional_uuid (dict_get "audit_reference" value) in
      let? previous := optional_integer (dict_get "previous_aggregate_sequence" value) in
      EventEnvelope_post_init
        {| event_id := event_id; ev_tenant_id := tenant_id; aggregate_id := aggregate_id;
           event_type := event_type; schema_version := schema_version; occurred_at := occurred_at;
           payload := payload; correlation_id := correlation_id; causation_id := causation_id;
           aggregate_sequence := aggregate_sequence; global_position := global_position;
           recorded_at := recorded_at; actor := actor;
           identity_reference := _optional_string (dict_get "identity_reference" value);
           policy_reference := _optional_string (dict_get "policy_reference" value);
           audit_reference := audit_reference;
           idempotency_key := _optional_string (dict_get "idempotency_key" value);
           trace_context := trace_context; previous_aggregate_sequence := previous;
           metadata := metadata |}
  | _, _ => inl (ValueError "event payload and metadata must be mappings")
  end.
End Decoding.

(** ** Snapshots of thawed values *)

(** Freezing what [thaw_json] serializes gives the frozen value back. *)
Lemma freeze_thawed v : deeply_frozen v = true → freeze_json (thaw_json v) = inr v.
Proof.
  induction v as [| | | | |l IH|l IH|d IH|d IH| |] using pyval_deep_ind; intros Hf; try done.
  - cbn [thaw_json]. by apply freeze_json_frozen.
  - cbn [thaw_json]. rewrite (proj1 (freeze_json_seq _)). cbn [deeply_frozen] in Hf.
    assert (freeze_json_items (map thaw_json l) = inr l) as ->; [|done].
    induction IH as [|x l Hx _ IHl]; [done|]. cbn [forallb] in Hf. bool_props.
    cbn [map freeze_json_items]. rewrite Hx by done. cbn [rbind]. by rewrite IHl.
  - cbn [thaw_json]. rewrite (proj1 (freeze_json_dict _)). cbn [deeply_frozen] in Hf.
    set (d' := map _ d). assert (freeze_json_mapping d' = inr d) as ->; [subst d'|done].
    induction IH as [|[[k|n] x] d Hx _ IHd]; [done| |done]. cbn [forallb snd] in *. bool_props.
    cbn [map freeze_json_mapping]. rewrite Hx by done. cbn [rbind]. by rewrite IHd.
Qed.

Definition thawed (d : pydict) : pydict := map (λ '(k, v), (k, thaw_json v)) d.

Lemma freeze_thawed_mapping d : frozen_dict d = true → freeze_json_mapping (thawed d) = inr d.
Proof.
  intros Hd. pose proof (freeze_thawed (PProxy d) Hd) as Hf.
  change (thaw_json (PProxy d)) with (PDict (thawed d)) in Hf.
  rewrite (proj1 (freeze_json_dict _)) in Hf.
  destruct (freeze_json_mapping (thawed d)); [done|]. by injection Hf as ->.
Qed.

(** ** What a mapping spells *)

Section Theorems.
Context {Repr : PyRepr}.

(** A key with this value; an optional one may be absent or null instead. *)
Definition has (key : string) (v : pyval) (d : pydict) : Prop := dict_get key d = Some v.
Definition may_have (key : string) (o : option pyval) (d : pydict) : Prop :=
  match o with Some v => has key v d | None => dict_get key d = None ∨ has key PNone d end.

Definition uuid_text (u : uuid) : pyval := PStr (Uuid.to_str u).
Definition time_text (t : Dt.datetime) : pyval := PStr (isoformat t).

Definition spells_mapping (key : string) (frozen d : pydict) : Prop :=
  ∃ p, mapping_value (dict_get key d) = Some p ∧ freeze_json_mapping p = inr frozen.

Definition spells_actor (a : option ActorReference) (d : pydict) : Prop :=
  match a with
  | Some a => ∃ p, mapping_value (dict_get "actor" d) = Some p ∧
      has "actor_id" (PStr (actor_id a)) p ∧ has "kind" (PStr (sc_value (actor_kind a))) p
  | None => mapping_value (dict_get "actor" d) = None
  end.

Definition spells_trace (t : option TraceContext) (d : pydict) : Prop :=
  match t with
  | Some t => ∃ p, mapping_value (dict_get "trace_context" d) = Some p ∧
      has "traceparent" (PStr (traceparent t)) p ∧ may_have "tracestate" (PStr <$> tracestate t) p
  | None => mapping_value (dict_get "trace_context" d) = None
  end.

(** The mapping [d] serializes the envelope [e]: keys of other releases may
    stand beside, fields at their default may be left out. *)
Record spells (d : pydict) (e : EventEnvelope) : Prop := {
  sp_event_id : has "event_id" (uuid_text (event_id e)) d;
  sp_tenant : has "tenant_id" (PStr (ev_tenant_id e)) d;
  sp_aggregate : has "aggregate_id" (PStr (aggregate_id e)) d;
  sp_event_type : has "event_type" (PStr (event_type e)) d;
  sp_version : has "schema_version" (PInt (schema_version e)) d;
  sp_occurred : has "occurred_at" (time_text (occurred_at e)) d;
  sp_payload : spells_mapping "payload" (payload e) d;
  sp_correlation : may_have "correlation_id" (uuid_text <$> correlation_id e) d;
  sp_causation : may_have "causation_id" (uuid_text <$> causation_id e) d;
  sp_sequence : has "aggregate_sequence" (PInt (aggregate_sequence e)) d ∨
    dict_get "aggregate_sequence" d = None ∧ aggregate_sequence e = 0;
  sp_position : may_have "global_position" (PInt <$> global_position e) d;
  sp_recorded : may_have "recorded_at" (time_text <$> recorded_at e) d;
  sp_actor : spells_actor (actor e) d;
  sp_identity : may_have "identity_reference" (PStr <$> identity_reference e) d;
  sp_policy : may_have "policy_reference" (PStr <$> policy_reference e) d;
  sp_audit : may_have "audit_reference" (uuid_text <$> audit_reference e) d;
  sp_key : may_have "idempotency_key" (PStr <$> idempotency_key e) d;
  sp_trace : spells_trace (trace_context e) d;
  sp_previous : may_have "previous_aggregate_sequence" (PInt <$> previous_aggregate_sequence e) d;
  sp_metadata : spells_mapping "metadata" (metadata e) d ∨
    dict_get "metadata" d = None ∧ metadata e = [];
}.

(** An envelope of the code: its parts passed their constructors, its
    identifiers are UUIDs and its times [datetime]s. *)
Record sound_event (e : EventEnvelope) : Prop := {
  so_wf : envelope_wf e;
  so_actor : ∀ a, actor e = Some a → ActorReference_post_init a = inr a;
  so_trace : ∀ t, trace_context e = Some t → TraceContext_post_init t = inr t;
  so_event_id : Uuid.valid (event_id e);
  so_correlation : ∀ u, correlation_id e = Some u → Uuid.valid u;
  so_causation : ∀ u, causation_id e = Some u → Uuid.valid u;
  so_audit : ∀ u, audit_reference e = Some u → Uuid.valid u;
  so_occurred : in_range (occurred_at e);
  so_recorded : ∀ t, recorded_at e = Some t → in_range t;
}.

(** The mapping of the current release. *)
Definition mapping_of (e : EventEnvelope) : pydict :=
  let optional {A} (f : A → pyval) (o : option A) := default PNone (f <$> o) in
  dict_of
    [("event_id", uuid_text (event_id e)); ("tenant_id", PStr (ev_tenant_id e));
     ("aggregate_id", PStr (aggregate_id e)); ("event_type", PStr (event_type e));
     ("schema_version", PInt (schema_version e)); ("occurred_at", time_text (occurred_at e));
     ("payload", PDict (thawed (payload e)));
     ("correlation_id", optional uuid_text (correlation_id e));
     ("causation_id", optional uuid_text (causation_id e));
     ("aggregate_sequence", PInt (aggregate_sequence e));
     ("global_position", optional PInt (global_position e));
     ("recorded_at", optional time_text (recorded_at e));
     ("actor", optional (λ a, PDict (dict_of [("actor_id", PStr (actor_id a));
                                              ("kind", PStr (sc_value (actor_kind a)))])) (actor e));
     ("identity_reference", optional PStr (identity_reference e));
     ("policy_reference", optional PStr (policy_reference e));
     ("audit_reference", optional uuid_text (audit_reference e));
     ("idempotency_key", optional PStr (idempotency_key e));
     ("trace_context", optional (λ t, PDict (dict_of [("traceparent", PStr (traceparent t));
        ("tracestate", optional PStr (tracestate t))])) (trace_context e));
     ("previous_aggregate_sequence", optional PInt (previous_aggregate_sequence e));
     ("metadata", PDict (thawed (metadata e)))]%string.

(** ** Reading what is spelled *)

Lemma optional_uuid_spelled key u d : may_have key (uuid_text <$> u) d →
  (∀ x, u = Some x → Uuid.valid x) → _optional_uuid (dict_get key d) = inr u.
Proof.
  unfold may_have, has. destruct u as [u|]; cbn [fmap option_fmap option_map].
  - intros -> Hv. cbn [_optional_uuid uuid_text py_str]. by rewrite uuid_roundtrip by by apply Hv.
  - by intros [->| ->].
Qed.

Lemma optional_string_spelled key s d : may_have key (PStr <$> s) d → _optional_string (dict_get key d) = s.
Proof. unfold may_have, has. destruct s; cbn [fmap option_fmap option_map]; [by intros ->|by intros [->| ->]]. Qed.

Lemma optional_integer_spelled key n d : may_have key (PInt <$> n) d →
  (∀ x, n = Some x → 0 ≤ x) → optional_integer (dict_get key d) = inr n.
Proof.
  unfold may_have, has. destruct n as [n|]; cbn [fmap option_fmap option_map].
  - intros -> Hn. cbn [optional_integer]. unfold int_of_value. cbn [py_str]. by rewrite int_of_pretty by by apply Hn.
  - by intros [->| ->].
Qed.

Lemma time_spelled t : in_range t → fromisoformat (isoformat t) = inr t.
Proof. intros Ht. unfold fromisoformat. by rewrite isoformat_roundtrip. Qed.

Lemma optional_time_spelled key t d : may_have key (time_text <$> t) d →
  (∀ x, t = Some x → in_range x) → optional_datetime (dict_get key d) = inr t.
Proof.
  unfold may_have, has. destruct t as [t|]; cbn [fmap option_fmap option_map].
  - intros -> Ht. cbn [optional_datetime time_text py_str]. by rewrite time_spelled by by apply Ht.
  - by intros [->| ->].
Qed.

Lemma required_spelled key s d : has key (PStr s) d → blank s = false → required_string key d = inr s.
Proof. unfold has, required_string, subscript. intros -> Hs. cbn [rbind _require_nonempty_string]. by rewrite Hs. Qed.

Lemma actor_spelled a d : spells_actor a d → (∀ x, a = Some x → ActorReference_post_init x = inr x) →
  optional_mapping actor_of_mapping (dict_get "actor" d) = inr a.
Proof.
  unfold spells_actor, optional_mapping, has. destruct a as [[id kind]|]; [|by intros ->].
  intros (p & -> & Hid & Hkind) Ha. unfold actor_of_mapping, subscript. cbn [actor_id actor_kind] in *.
  rewrite Hid, Hkind. cbn [rbind py_str]. rewrite sc_new_value. cbn [rbind]. by rewrite Ha.
Qed.

Lemma trace_spelled t d : spells_trace t d → (∀ x, t = Some x → TraceContext_post_init x = inr x) →
  optional_mapping trace_of_mapping (dict_get "trace_context" d) = inr t.
Proof.
  unfold spells_trace, optional_mapping. destruct t as [[parent state]|]; [|by intros ->].
  intros (p & -> & Hparent & Hstate) Ht. unfold trace_of_mapping, subscript. cbn [traceparent tracestate] in *.
  unfold has in Hparent. rewrite Hparent, (optional_string_spelled _ _ _ Hstate). cbn [rbind py_str]. by rewrite Ht.
Qed.

Lemma sequence_spelled d e : spells d e → 0 ≤ aggregate_sequence e →
  int_of_value (default (PInt 0) (dict_get "aggregate_sequence" d)) = inr (aggregate_sequence e).
Proof.
  intros Hd Hn. destruct (sp_sequence d e Hd) as [Hs|[Hs H0]].
  - unfold has in Hs. rewrite Hs. unfold int_of_value. cbn [default py_str]. by apply int_of_pretty.
  - rewrite Hs, H0. by apply (int_of_pretty 0).
Qed.

Lemma metadata_spelled d e : spells d e →
  ∃ m, mapping_value (Some (default (PDict []) (dict_get "metadata" d))) = Some m ∧
       freeze_json_mapping m = inr (metadata e).
Proof.
  intros Hd. destruct (sp_metadata d e Hd) as [(m & Hm & Hf)|[Hm Hf]].
  - exists m. split; [|done]. by destruct (dict_get "metadata" d).
  - exists []. by rewrite Hm, Hf.
Qed.

(** The constructor takes what froze to an envelope to that envelope. *)
Lemma constructed p m e : envelope_wf e → freeze_json_mapping p = inr (payload e) →
  freeze_json_mapping m = inr (metadata e) →
  EventEnvelope_post_init (set_payload_metadata e p m) = inr e.
Proof.
  intros Hwf Hp Hm. apply post_init_idem in Hwf as Hi. revert Hi. unfold EventEnvelope_post_init.
  cbn -[freeze_json_mapping]. rewrite Hp, Hm.
  rewrite !freeze_mapping_id by (apply Hwf). by destruct e.
Qed.

Lemma spelled_is_read d e : sound_event e → spells d e → from_mapping d = inr e.
Proof.
  intros [Hwf Ha Ht Hid Hcorr Hcause Haudit Hocc Hrec] Hd. unfold from_mapping, subscript.
  rewrite (actor_spelled _ _ (sp_actor d e Hd) Ha), (trace_spelled _ _ (sp_trace d e Hd) Ht). cbn [rbind].
  destruct (sp_payload d e Hd) as (p & -> & Hp). destruct (metadata_spelled d e Hd) as (m & -> & Hm).
  rewrite (sp_event_id d e Hd). cbn [rbind uuid_text py_str].
  rewrite uuid_roundtrip by done. cbn [rbind].
  rewrite (required_spelled _ _ _ (sp_tenant d e Hd)) by apply Hwf.
  rewrite (required_spelled _ _ _ (sp_aggregate d e Hd)) by apply Hwf.
  rewrite (required_spelled _ _ _ (sp_event_type d e Hd)) by apply Hwf. cbn [rbind].
  rewrite (sp_version d e Hd). cbn [rbind]. unfold int_of_value at 1. cbn [py_str].
  rewrite int_of_pretty by (pose proof (wf_schema e Hwf); lia). cbn [rbind].
  rewrite (sp_occurred d e Hd). cbn [rbind time_text py_str]. rewrite time_spelled by done. cbn [rbind].
  rewrite (optional_uuid_spelled _ _ _ (sp_correlation d e Hd) Hcorr), (optional_uuid_spelled _ _ _ (sp_causation d e Hd) Hcause).
  rewrite (sequence_spelled d e Hd) by apply Hwf. cbn [rbind].
  rewrite (optional_integer_spelled _ _ _ (sp_position d e Hd))
    by (intros x Hx; pose proof (wf_position e Hwf x Hx); lia).
  rewrite (optional_time_spelled _ _ _ (sp_recorded d e Hd) Hrec), (optional_uuid_spelled _ _ _ (sp_audit d e Hd) Haudit).
  rewrite (optional_integer_spelled _ _ _ (sp_previous d e Hd)) by (intros x; apply (wf_previous e Hwf)). cbn [rbind].
  rewrite (optional_string_spelled _ _ _ (sp_identity d e Hd)), (optional_string_spelled _ _ _ (sp_policy d e Hd)),
    (optional_string_spelled _ _ _ (sp_key d e Hd)).
  exact (constructed p m e Hwf Hp Hm).
Qed.

Lemma mapping_spells e : envelope_wf e → spells (mapping_of e) e.
Proof.
  intros Hwf. pose proof (wf_payload e Hwf) as Hp. pose proof (wf_metadata e Hwf) as Hm.
  unfold mapping_of. constructor; unfold has; try done.
  - exists (thawed (payload e)). split; [done|]. by apply freeze_thawed_mapping.
  - destruct (correlation_id e); [done|by right].
  - destruct (causation_id e); [done|by right].
  - by left.
  - destruct (global_position e); [done|by right].
  - destruct (recorded_at e); [done|by right].
  - destruct (actor e); [|done]. eexists. split; [reflexivity|]. done.
  - destruct (identity_reference e); [done|by right].
  - destruct (policy_reference e); [done|by right].
  - destruct (audit_reference e); [done|by right].
  - destruct (idempotency_key e); [done|by right].
  - destruct (trace_context e) as [[parent state]|]; [|done]. eexists. split; [reflexivity|]. split; [done|].
    destruct state; [done|by right].
  - destruct (previous_aggregate_sequence e); [done|by right].
  - left. exists (thawed (metadata e)). split; [done|]. by apply freeze_thawed_mapping.
Qed.

(** C38. An envelope is read back from every mapping that spells it, and from
    the mapping of the current release: keys may be missing where the field
    has its default, as in events of older releases, may be null where it has
    none, and unknown keys are ignored. *)
Theorem serialized_history_readable e : sound_event e →
  from_mapping (mapping_of e) = inr e ∧ ∀ d, spells d e → from_mapping d = inr e.
Proof.
  intros He. split; [|intros d; by apply spelled_is_read].
  apply spelled_is_read; [done|]. by apply mapping_spells, so_wf.
Qed.

(** ** What is read *)

(** The exceptions of a refused mapping. *)
Definition refusal (x : exn) : Prop := match x with KeyError _ | ValueError _ => True | _ => False end.

Lemma refusal_value_error {A} (r : result A) :
  (∀ x, r = inl x → except_ValueError x = true) → raises_result refusal r.
Proof. intros Hr x Hx. specialize (Hr x Hx). by destruct x. Qed.

#[local] Hint Extern 2 (refusal _) => exact I : raises.

Lemma refusal_subscript key d : raises_result refusal (subscript key d).
Proof. unfold subscript. auto with raises. Qed.
Lemma refusal_uuid s : raises_result refusal (uuid_of_str s).
Proof. unfold uuid_of_str. repeat (case_match; auto with raises). Qed.
Lemma refusal_time s : raises_result refusal (fromisoformat s).
Proof. unfold fromisoformat. auto with raises. Qed.
Lemma refusal_int s : raises_result refusal (int_of_text s).
Proof.
  unfold int_of_text. destruct (PyStr.strip s) as [|c t]; [auto with raises|].
  destruct c as [[] [] [] [] [] [] [] []]; case_match; auto with raises.
Qed.
Lemma refusal_envelope e : raises_result refusal (EventEnvelope_post_init e).
Proof. apply refusal_value_error. intros x. by apply (envelope_constructor e). Qed.
Lemma refusal_member {T} `{StringConstant T} s : raises_result refusal (sc_new s).
Proof. unfold sc_new. auto with raises. Qed.
#[local] Hint Resolve refusal_subscript refusal_uuid refusal_time refusal_int refusal_envelope
  refusal_member : raises.

Ltac refusal_solve :=
  repeat first [ solve [eauto 5 with raises] | apply raises_rbind; [|intros ?] | case_match ].

Lemma refusal_from_mapping d : raises_result refusal (from_mapping d).
Proof.
  assert (Hopt : ∀ v, raises_result refusal (_optional_uuid v)) by (intros v; unfold _optional_uuid; refusal_solve).
  assert (Hint : ∀ v, raises_result refusal (optional_integer v))
    by (intros v; unfold optional_integer, int_of_value; refusal_solve).
  assert (Htime : ∀ v, raises_result refusal (optional_datetime v)) by (intros v; unfold optional_datetime; refusal_solve).
  assert (Hreq : ∀ k v, raises_result refusal (required_string k v))
    by (intros k v; unfold required_string, _require_nonempty_string; refusal_solve).
  assert (Hactor : ∀ d, raises_result refusal (actor_of_mapping d))
    by (intros v; unfold actor_of_mapping, ActorReference_post_init; refusal_solve).
  assert (Htrace : ∀ d, raises_result refusal (trace_of_mapping d))
    by (intros v; unfold trace_of_mapping, TraceContext_post_init; refusal_solve).
  unfold from_mapping, optional_mapping, int_of_value. refusal_solve.
Qed.

(** What an envelope that was read keeps of the mapping. *)
Record reads (d : pydict) (e : EventEnvelope) : Prop := {
  rd_wf : envelope_wf e;
  rd_tenant : has "tenant_id" (PStr (ev_tenant_id e)) d;
  rd_aggregate : has "aggregate_id" (PStr (aggregate_id e)) d;
  rd_event_type : has "event_type" (PStr (event_type e)) d;
  rd_event_id : ∃ v, has "event_id" v d ∧ uuid_of_str (py_str v) = inr (event_id e);
  rd_version : ∃ v, has "schema_version" v d ∧ int_of_value v = inr (schema_version e);
  rd_occurred : ∃ v, has "occurred_at" v d ∧ fromisoformat (py_str v) = inr (occurred_at e);
  rd_payload : spells_mapping "payload" (payload e) d;
  rd_metadata : spells_mapping "metadata" (metadata e) d ∨
    dict_get "metadata" d = None ∧ metadata e = [];
  rd_key : idempotency_key e = _optional_string (dict_get "idempotency_key" d);
}.

Lemma required_inv key d s : required_string key d = inr s → has key (PStr s) d.
Proof.
  unfold required_string, subscript, has. destruct (dict_get key d) as [v|]; [|done].
  cbn [rbind]. destruct v; try done. cbn [_require_nonempty_string]. destruct (blank s0); [done|]. by intros [= ->].
Qed.

Lemma subscript_inv key d v : subscript key d = inr v → has key v d.
Proof. unfold subscript, has. destruct (dict_get key d); [|done]. by intros [= ->]. Qed.

Lemma metadata_inv d m frozen : mapping_value (Some (default (PDict []) (dict_get "metadata" d))) = Some m →
  freeze_json_mapping m = inr frozen →
  spells_mapping "metadata" frozen d ∨ dict_get "metadata" d = None ∧ frozen = [].
Proof.
  unfold spells_mapping. destruct (dict_get "metadata" d) as [v|]; cbn [default from_option id]; [by left; exists m|].
  intros [= <-] [= <-]. by right.
Qed.

(** One step of [from_mapping]. *)
Local Ltac next_step H := apply rbind_ok in H as (? & ? & H).

Lemma from_mapping_reads d e : from_mapping d = inr e → reads d e.
Proof.
  unfold from_mapping. intros H. next_step H. next_step H.
  destruct (mapping_value (dict_get "payload" d)) as [p|] eqn:Hp; [|done].
  destruct (mapping_value (Some (default (PDict []) (dict_get "metadata" d)))) as [m|] eqn:Hm; [|done].
  do 16 next_step H. apply post_init_wf in H as Hwf. apply post_init_inv in H as (p' & m' & Hp' & Hm' & ->).
  cbn [payload metadata] in Hp', Hm'.
  constructor; cbn [set_payload_metadata event_id ev_tenant_id aggregate_id event_type schema_version
    occurred_at payload metadata idempotency_key]; eauto using required_inv, subscript_inv.
  - by exists p.
  - by eapply metadata_inv.
Qed.

(** C39. A mapping is read or refused: what is read is a well-formed envelope
    whose tenant, aggregate and type are strings of the mapping, unchanged,
    whose identifier, version and time are read from its texts and whose
    payload and metadata are deep snapshots of its; every other mapping raises
    [KeyError] or [ValueError]. *)
Theorem decoded_history_sound d :
  match from_mapping d with inr e => reads d e | inl x => refusal x end.
Proof.
  destruct (from_mapping d) as [x|e] eqn:H; [by apply (refusal_from_mapping d)|]. by apply from_mapping_reads.
Qed.
End Theorems.

(** ** The fixtures of the tests *)

Section Fixtures.
Local Instance fixture_repr : PyRepr := λ _, "".

Definition fixture_id : uuid := 42.
Definition fixture_time : Dt.datetime := Dt.Aware 1735689600000000.

(** An event of the first release. *)
Definition legacy_mapping : pydict :=
  dict_of [("event_id", PStr (Uuid.to_str fixture_id)); ("tenant_id", PStr "tenant-1");
           ("aggregate_id", PStr "run-legacy"); ("event_type", PStr "RunRequested");
           ("schema_version", PInt 1); ("occurred_at", PStr "2025-01-01T00:00:00+00:00");
           ("payload", PDict [(KStr "legacy", PBool true)]);
           ("correlation_id", PNone); ("causation_id", PNone)]%string.

Definition legacy_event : EventEnvelope :=
  {| event_id := fixture_id; ev_tenant_id := "tenant-1"; aggregate_id := "run-legacy";
     event_type := "RunRequested"; schema_version := 1; occurred_at := fixture_time;
     payload := [(KStr "legacy", PBool true)]; correlation_id := None; causation_id := None;
     aggregate_sequence := 0; global_position := None; recorded_at := None; actor := None;
     identity_reference := None; policy_reference := None; audit_reference := None;
     idempotency_key := None; trace_context := None; previous_aggregate_sequence := None;
     metadata := [] |}.

Lemma legacy_sound : sound_event legacy_event.
Proof. constructor; done. Qed.

Lemma legacy_spelled : spells legacy_mapping legacy_event.
Proof.
  constructor; try done; try (by left); try (by right).
  by eexists.
Qed.

Lemma serialized_history_readable_witness :
  from_mapping (mapping_of legacy_event) = inr legacy_event ∧
  from_mapping legacy_mapping = inr legacy_event.
Proof.
  destruct (serialized_history_readable legacy_event legacy_sound) as [Hm Hd].
  split; [exact Hm|]. exact (Hd legacy_mapping legacy_spelled).
Defined.

(** A null in the place of the tenant is refused, where [str] would make the
    tenant ["None"] of it; a null count of the aggregate is refused too. *)
Example null_tenant_refused :
  from_mapping (dict_set "tenant_id" PNone legacy_mapping) = inl (ValueError "must be a non-empty string").
Proof. by vm_compute. Qed.
Example null_sequence_refused :
  from_mapping (dict_set "aggregate_sequence" PNone legacy_mapping)
  = inl (ValueError "invalid literal for int() with base 10").
Proof. by vm_compute. Qed.
Example missing_type_refused :
  from_mapping (filter (λ kv, kv.1 ≠ KStr "event_type") legacy_mapping) = inl (KeyError "event_type").
Proof. by vm_compute. Qed.
End Fixtures.
