(* ===== verification/Delivery.v ===== *)
(** * From registration to the worker

    A work item travels as text: [register] stores its payload in the outbox,
    [claim_outbox] and [_envelope] send it, [_request_from_delivery] reads it
    back and [_verify_delivery] compares it with the stored work.  The trip
    loses nothing: every delivery of the envelope is accepted as the request
    that was registered. *)

From stdpp Require Import base gmap sets list strings pretty.
From Stdlib Require Import ZArith Lia SpecFloat Ascii.
From S2P Require Import Prelude PyLib Json Events Identity Work Amounts Database.
From S2P Require Import EventStore.
From S2P Require Import Ledger LedgerReads LedgerAppend LedgerTheorems Parsing.
From S2P Require Import ParsingTheorems Outbox.
From S2P Require Import Wire PyEquality Calendar WorkRepository WorkLedger WorkTheorems WorkSafety.
From S2P Require Import Publisher.

Local Open Scope Z_scope.

(** ** The request in transit *)

(** A request as the service constructs it. *)
Record sound_request (q : WorkRequest) : Prop := {
  sr_built : WorkRequest_post_init q = inr q;
  sr_frozen : frozen_dict (wr_payload q) = true;
  sr_tidy : tidy (PProxy (wr_payload q)) = true;
  sr_version : wr_schema_version q = 1;
  sr_requested : in_range (wr_requested_at q);
  sr_work_id : Uuid.valid (wr_work_id q);
  sr_correlation : Uuid.valid (wr_correlation_id q);
  sr_causation : ∀ u, wr_causation_id q = Some u → Uuid.valid u;
}.

(** The headers [register] writes. *)
Definition routing_headers (tenant : string) : pydict :=
  dict_of [("tenant_id", PStr tenant); ("schema_version", PInt 1)]%string.

(** What [register] and [claim_outbox] leave of a message, as a claim. *)
Definition in_transit `{PyRepr} (q : WorkRequest) (c : ClaimedOutboxMessage) : Prop :=
  om_payload (co_message c) = as_mapping (thaw_json (PProxy (_request_payload q))) ∧
  om_headers (co_message c) = as_mapping (thaw_json (PProxy (routing_headers (wr_tenant_id q)))) ∧
  om_destination (co_message c) = "aegis.work"%string.

Section Transit.
Context {Repr : PyRepr} (q : WorkRequest) (Hq : sound_request q).

(** The envelope of such a claim. *)
Definition work_envelope (mid : uuid) (eid : option uuid) (now : Dt.datetime) : MessageEnvelope :=
  {| me_message_id := mid; me_tenant_id := wr_tenant_id q; me_work_id := wr_work_id q;
     me_event_id := eid; me_destination := "aegis.work"; me_correlation_id := wr_correlation_id q;
     me_causation_id := wr_causation_id q; me_occurred_at := now;
     me_payload := _request_payload q; me_headers := routing_headers (wr_tenant_id q);
     me_schema_version := 1 |}.

Lemma request_payload_frozen : frozen_dict (_request_payload q) = true.
Proof.
  unfold frozen_dict. pose proof (sr_frozen q Hq) as Hf. unfold frozen_dict in Hf.
  simpl in *. rewrite Hf. unfold optional_uuid_text. by destruct (wr_causation_id q).
Qed.

Lemma refreeze d : frozen_dict d = true → freeze_json_mapping (as_mapping (thaw_json (PProxy d))) = inr d.
Proof. apply freeze_thaw_mapping. Qed.

Lemma routing_of_request :
  routing_metadata (as_mapping (thaw_json (PProxy (_request_payload q)))) =
  inr (wr_work_id q, wr_correlation_id q, wr_causation_id q).
Proof.
  set (d := as_mapping _).
  assert (Hw : dict_get "work_id" d = Some (PStr (Uuid.to_str (wr_work_id q)))) by done.
  assert (Hc : dict_get "correlation_id" d = Some (PStr (Uuid.to_str (wr_correlation_id q)))) by done.
  assert (Hx : dict_get "causation_id" d = Some (thaw_json (optional_uuid_text (wr_causation_id q)))) by done.
  unfold routing_metadata, payload_uuid, subscript. rewrite Hw, Hc, Hx. cbn [rbind py_str].
  rewrite (uuid_roundtrip _ (sr_work_id q Hq)), (uuid_roundtrip _ (sr_correlation q Hq)). cbn [rbind].
  pose proof (sr_causation q Hq) as Hval. destruct (wr_causation_id q) as [u|]; [|done].
  cbn [optional_uuid_text thaw_json rbind py_str]. by rewrite (uuid_roundtrip u) by by apply Hval.
Qed.

Lemma envelope_of_claim context c now :
  ctx_str context = wr_tenant_id q → in_transit q c → Dt.naive now = false →
  _envelope context c now = inr (work_envelope (om_message_id (co_message c)) (om_event_id (co_message c)) now).
Proof.
  intros Hctx (Hp & Hh & Hd) Hnow. unfold _envelope. rewrite Hp, Hh, Hd, Hctx, routing_of_request.
  cbn [rbind].
  assert (Hten : dict_get "tenant_id" (as_mapping (thaw_json (PProxy (routing_headers (wr_tenant_id q))))) =
    Some (PStr (wr_tenant_id q))) by done.
  rewrite Hten. cbn [py_str]. rewrite bool_decide_true by done. cbn [negb rbind reject_if].
  unfold MessageEnvelope_post_init.
  cbn [me_payload me_headers me_tenant_id me_destination me_occurred_at me_schema_version].
  rewrite !refreeze by done || apply request_payload_frozen.
  rewrite Hnow. pose proof (sr_built q Hq) as Hbuilt. unfold WorkRequest_post_init in Hbuilt.
  destruct (PyStr.is_empty (wr_tenant_id q)); [done|]. done.
Qed.

Lemma request_of_envelope d mid eid now :
  qd_envelope d = work_envelope mid eid now → _request_from_delivery d = inr q.
Proof.
  intros Hd. unfold _request_from_delivery. rewrite Hd. unfold work_envelope.
  cbn [me_payload me_work_id me_tenant_id me_correlation_id me_causation_id].
  set (p := _request_payload q). unfold subscript, int_of_value.
  assert (Hr : dict_get "request_payload" p = Some (PProxy (wr_payload q))) by done.
  assert (Hk : dict_get "work_kind" p = Some (PStr (wr_work_kind q))) by done.
  assert (Hi : dict_get "idempotency_key" p = Some (PStr (wr_idempotency_key q))) by done.
  assert (Ht : dict_get "requested_at" p = Some (PStr (isoformat (wr_requested_at q)))) by done.
  assert (Hm : dict_get "max_attempts" p = Some (PInt (wr_max_attempts q))) by done.
  assert (Hs : dict_get "timeout_seconds" p = Some (PInt (wr_timeout_seconds q))) by done.
  rewrite Hr, Hk, Hi, Ht, Hm, Hs. cbn [default rbind py_str]. unfold fromisoformat.
  rewrite isoformat_roundtrip by exact (sr_requested q Hq). cbn [rbind].
  pose proof (sr_built q Hq) as Hbuilt. pose proof Hbuilt as Hinv.
  unfold WorkRequest_post_init in Hinv. py_inv. bool_props.
  rewrite !int_of_pretty by lia. cbn [rbind].
  pose proof (sr_version q Hq) as Hv. destruct q; simpl in *; subst. by rewrite Hbuilt.
Qed.
End Transit.

(** ** The rows behind it *)

Definition outbox_of_request (q : WorkRequest) (eid : uuid) (o : OutboxRow) : Prop :=
  ob_payload o = thaw_json (PProxy (_request_payload q)) ∧
  ob_headers o = thaw_json (PProxy (routing_headers (wr_tenant_id q))) ∧
  ob_destination o = "aegis.work"%string ∧ ob_event_id o = Some eid.

(** The work item and its message are in the tables. *)
Record stored (q : WorkRequest) (mid eid : uuid) (t : Tables) : Prop := {
  st_item : ∃ r, t_work_items t !! (wr_tenant_id q, wr_work_id q) = Some r ∧
    request_of_row (wr_tenant_id q) (wr_work_id q) r = inr q;
  st_message : ∃ o, t_outbox t !! (wr_tenant_id q, mid) = Some o ∧ outbox_of_request q eid o;
}.

Section Stored.
Context {Repr : PyRepr} (q : WorkRequest) (Hq : sound_request q).

Lemma aware_requested : Dt.Aware (Dt.us (wr_requested_at q)) = wr_requested_at q.
Proof.
  pose proof (sr_built q Hq) as Hbuilt. unfold WorkRequest_post_init in Hbuilt. py_inv.
  by destruct (wr_requested_at q).
Qed.

Lemma inserted_item eid w w' :
  insert_work q eid w = (inr tt, w') →
  t_outbox (w_db w') = t_outbox (w_db w) ∧
  ∃ r, t_work_items (w_db w') !! (wr_tenant_id q, wr_work_id q) = Some r ∧
    request_of_row (wr_tenant_id q) (wr_work_id q) r = inr q.
Proof.
  intros Hrun. unfold insert_work in Hrun. db_inv. split; [done|]. eexists.
  split; [apply lookup_insert_eq|]. unfold request_of_row. cbn [wi_work_kind wi_idempotency_key
    wi_correlation_id wi_requested_at wi_request_payload wi_causation_id wi_max_attempts wi_timeout_seconds].
  rewrite aware_requested. transitivity (WorkRequest_post_init q); [|apply (sr_built q Hq)].
  pose proof (sr_version q Hq) as Hv. pose proof (sr_frozen q Hq) as Hf.
  destruct q; unfold WorkRequest_post_init; simpl in *; subst.
  by rewrite freeze_thaw_mapping, (freeze_mapping_id _ Hf) by done.
Qed.

Lemma register_stores context eid mid w v w' :
  register context q eid mid w = (inr v, w') → stored q mid eid (w_db w').
Proof.
  intros Hrun. unfold register in Hrun.
  apply bind_ok in Hrun as (u1 & w1 & H1 & Hrun). apply lift_run in H1 as [H1 ->].
  apply bind_ok in Hrun as (env & w2 & H2 & Hrun). apply lift_run in H2 as [_ ->].
  apply bind_ok in Hrun as (u3 & w3 & H3 & Hrun). apply lift_run in H3 as [_ ->].
  apply bind_ok in Hrun as (e & w4 & H4 & Hrun). apply lift_run in H4 as [He ->].
  apply bind_ok in Hrun as (o & w5 & H5 & Hrun). apply lift_run in H5 as [Ho ->].
  unfold append_atomic in Hrun. apply bind_ok in Hrun as (u6 & w6 & H6 & Hrun).
  apply lift_run in H6 as [Hval ->]. symmetry in Hval.
  apply validate_append_ok in Hval as (_ & _ & agg & Hall).
  apply Forall_cons in Hall as [(Hten & _) _].
  match type of Hrun with storage_guard (transaction ?b) _ = _ =>
    destruct (b (started w)) as [[x|a] w7] eqn:Hb end;
    [by rewrite (transaction_raise _ _ _ _ Hb) in Hrun|].
  rewrite (transaction_run _ _ _ _ Hb) in Hrun. injection Hrun as <- <-.
  apply bind_ok in Hb as (n & w8 & Happ & Hb). apply bind_ok in Hb as ([] & w9 & Hins & Hb).
  injection Hb as <- <-.
  apply append_in_transaction_ok in Happ as (first & rest & [= <- <-] & _ & _ & _ & -> & _).
  apply inserted_item in Hins as [Hout Hitem].
  unfold _validate_request_context, reject_if in H1. case_bool_decide as Hctx; [|done]. clear H1.
  split; [done|]. symmetry in Ho. unfold OutboxMessage_post_init in Ho. py_inv.
  eexists. rewrite Hout, Hten, Hctx. split; [apply lookup_insert_eq|]. done.
Qed.

Lemma register_context context eid mid w v w' :
  register context q eid mid w = (inr v, w') → ctx_str context = wr_tenant_id q.
Proof.
  intros Hrun. unfold register in Hrun. apply bind_ok in Hrun as (u & w1 & H1 & _).
  unfold lift, _validate_request_context, reject_if in H1. by case_bool_decide.
Qed.

(** A claim of the message carries the request, and leaves it stored under a
  lease. *)
Lemma claim_in_transit mid eid context owner until now limit destination w claims w' c :
  ctx_str context = wr_tenant_id q → stored q mid eid (w_db w) →
  claim_outbox context owner until now limit destination w = (inr claims, w') →
  c ∈ claims → om_message_id (co_message c) = mid →
  in_transit q c ∧ om_event_id (co_message c) = Some eid ∧
  stored q mid eid (w_db w') ∧
  ∃ o, t_outbox (w_db w') !! (wr_tenant_id q, mid) = Some o ∧ ob_status o = OB_LEASED.
Proof.
  intros Hctx [(r & Hr & Hitem) (o & Ho & Hp & Hh & Hd & He)] Hrun Hc Hmid.
  apply claim_outbox_inv in Hrun as (dur & _ & _ & _ & -> & Hdb).
  apply list_elem_of_In, in_map_iff in Hc as ([[tenant id] o'] & <- & Hin).
  apply list_elem_of_In in Hin. pose proof (claim_candidates_in _ _ _ _ _ _ _ Hin) as [Hrow Hcl].
  unfold claimable in Hcl. bool_props. simpl in *. subst tenant id.
  rewrite Hctx, Ho in Hrow. injection Hrow as ->.
  assert (Hleased : t_outbox (w_db w') !! (wr_tenant_id q, mid) =
    Some (lease_row owner (w_clock w (S (w_tick w)) + dur) o')).
  { rewrite Hdb. simpl. rewrite <- Hctx. apply leased_outbox_in; [|done]. apply claim_candidates_nodup. }
  split; [by unfold in_transit; simpl; rewrite Hp, Hh, Hd|]. split; [done|]. split.
  - split; [rewrite Hdb; simpl; by exists r|]. eexists. split; [exact Hleased|]. done.
  - eexists. split; [exact Hleased|]. done.
Qed.

Lemma frozen_value v : deeply_frozen v = true → json_value v = true.
Proof. intros H. by apply freeze_json_frozen, freeze_json_sound in H. Qed.

Lemma thawed_self_equal d : frozen_dict d = true → tidy (PProxy d) = true →
  py_eqb (thaw_json (PProxy d)) (thaw_json (PProxy d)) = true.
Proof.
  intros Hf Ht. destruct (thaw_value (PProxy d)) as [Hj Ht']. apply py_eqb_refl; [|by rewrite Ht'].
  rewrite Hj. by apply frozen_value.
Qed.

Lemma tidy_payload : tidy (PProxy (_request_payload q)) = true.
Proof.
  pose proof (sr_tidy q Hq) as Ht. set (p := _request_payload q).
  assert (Hkeys : map fst p = map KStr ["work_id"; "work_kind"; "correlation_id"; "causation_id";
    "requested_at"; "max_attempts"; "timeout_seconds"; "request_payload"; "idempotency_key"]%string) by done.
  change (bool_decide (NoDup (map fst p)) && forallb (λ kv, tidy kv.2) p = true). rewrite Hkeys.
  rewrite bool_decide_true by (by apply (bool_decide_unpack _); vm_compute).
  change (forallb (λ kv, tidy kv.2) p) with
    (tidy (optional_uuid_text (wr_causation_id q)) && (tidy (PProxy (wr_payload q)) && true)).
  rewrite Ht. by destruct (wr_causation_id q).
Qed.

Lemma request_eqb_refl : request_eqb q q = true.
Proof.
  unfold request_eqb. rewrite !bool_decide_true by done. rewrite !Z.eqb_refl.
  rewrite py_eqb_refl; [done| |apply (sr_tidy q Hq)]. apply frozen_value, (sr_frozen q Hq).
Qed.

(** The check of the worker on a stored item whose message is leased or
  published: it accepts whatever agrees with the rows. *)
Lemma verify_matching mid eid context d w supplied :
  ctx_str context = wr_tenant_id q → stored q mid eid (w_db w) →
  (∃ o, t_outbox (w_db w) !! (wr_tenant_id q, mid) = Some o ∧ ob_status o ∈ [OB_LEASED; OB_PUBLISHED]) →
  me_work_id (qd_envelope d) = wr_work_id q → me_message_id (qd_envelope d) = mid →
  me_event_id (qd_envelope d) = Some eid → me_destination (qd_envelope d) = "aegis.work"%string →
  _request_from_delivery d = inr supplied → wr_tenant_id supplied = wr_tenant_id q →
  request_eqb supplied q = true →
  py_eqb (thaw_json (PProxy (_request_payload q))) (thaw_json (PProxy (me_payload (qd_envelope d)))) = true →
  py_eqb (thaw_json (PProxy (routing_headers (wr_tenant_id q))))
    (thaw_json (PProxy (me_headers (qd_envelope d)))) = true →
  ∃ w', _verify_delivery context d w = (inr q, w') ∧ w_db w' = w_db w.
Proof.
  intros Hctx [(r & Hr & Hitem) (o & Ho & Hp & Hh & Hd & He)] (o' & Ho' & Hst) Hwork Hmid Heid Hdest Hreq
    Hten Heq Hpay Hhead. rewrite Ho in Ho'. injection Ho' as <-.
  unfold _verify_delivery. erewrite bind_run; [|unfold lift; by rewrite Hreq].
  erewrite bind_run; [|unfold lift, _validate_request_context, reject_if;
    rewrite Hctx, Hten, bool_decide_true by done; reflexivity].
  erewrite bind_run.
  2:{ apply transaction_run. unfold query, gets. reflexivity. }
  change (w_db (started w)) with (w_db w).
  assert (Hrow : delivery_row (ctx_str context) (qd_envelope d) (w_db w) = Some (r, o)).
  { unfold delivery_row. rewrite Hwork, Hmid, Hctx, Hr, Ho.
    unfold message_of_work. rewrite Hp. rewrite bool_decide_true by done.
    assert (Hw : dict_get "work_id" (as_mapping (thaw_json (PProxy (_request_payload q))))
      = Some (PStr (Uuid.to_str (wr_work_id q)))) by done.
    rewrite Hw. cbn [equals_str]. by rewrite bool_decide_true. }
  rewrite Hrow, Hwork, Hctx. erewrite bind_run; [|unfold lift; by rewrite Hitem].
  rewrite Heq, Hd, He, Hp, Hh, Hdest, Heid, Hpay, Hhead. rewrite !bool_decide_true by done. by eexists.
Qed.

Lemma verify_stored mid eid context now d w :
  ctx_str context = wr_tenant_id q → stored q mid eid (w_db w) →
  (∃ o, t_outbox (w_db w) !! (wr_tenant_id q, mid) = Some o ∧ ob_status o ∈ [OB_LEASED; OB_PUBLISHED]) →
  qd_envelope d = work_envelope q mid (Some eid) now →
  ∃ w', _verify_delivery context d w = (inr q, w') ∧ w_db w' = w_db w.
Proof.
  intros Hctx Hst Ho Henv. apply (verify_matching mid eid context d w q); rewrite ?Henv; try done.
  - by eapply request_of_envelope.
  - apply request_eqb_refl.
  - apply thawed_self_equal; [by apply request_payload_frozen|apply tidy_payload].
  - by apply thawed_self_equal.
Qed.
End Stored.

(** A registered request reaches its worker unchanged: when [register]
    committed and a later claim of the outbox handed the message out, the
    publisher can build its envelope at any time, and every delivery of that
    envelope is decoded and, while the message is leased, verified against
    the tables as exactly the request that was registered. *)
Theorem registered_work_is_delivered {Repr : PyRepr} q context eid mid w v w1
    owner until at_ limit destination claims w2 c now :
  sound_request q →
  register context q eid mid w = (inr v, w1) →
  claim_outbox context owner until at_ limit destination w1 = (inr claims, w2) →
  c ∈ claims → om_message_id (co_message c) = mid → Dt.naive now = false →
  ∃ envelope, _envelope context c now = inr envelope ∧
    ∀ d, qd_envelope d = envelope →
      _request_from_delivery d = inr q ∧
      ∃ w3, _verify_delivery context d w2 = (inr q, w3) ∧ w_db w3 = w_db w2.
Proof.
  intros Hq Hreg Hclaim Hc Hmid Hnow. pose proof (register_context _ _ _ _ _ _ _ Hreg) as Hctx.
  apply (register_stores q Hq) in Hreg.
  destruct (claim_in_transit q mid eid context owner until at_ limit destination w1 claims w2 c)
    as (Htransit & Heid & Hstored & o & Ho & Hst); [done..|].
  exists (work_envelope q mid (Some eid) now). split.
  { rewrite <- Hmid, <- Heid. by apply envelope_of_claim. }
  intros d Hd. split; [by eapply request_of_envelope|].
  apply (verify_stored q Hq mid eid context now); [done..| |done].
  exists o. split; [done|]. rewrite Hst. apply list_elem_of_here.
Qed.

#[local] Existing Instance sample_repr.

(** The sample work, claimed by the publisher. *)
Lemma sample_request_sound : sound_request sample_request.
Proof. by split; try done; vm_compute. Qed.
