(* ===== verification/JsonText.v ===== *)
(** * Reading JSON text

    [json.loads] of the Python library as [queueing/redis_streams.py] uses it
    on transport messages, and its round trip with [json_dumps].  The limit on
    nesting is the interpreter's recursion limit; texts with code points above
    U+00FF are outside the strings of the development and are not read. *)

From stdpp Require Import base list strings pretty.
From Stdlib Require Import ZArith Lia SpecFloat Ascii Sorted.
From S2P Require Import Prelude PyLib Json Events Identity Work Amounts Database Floats.
From S2P Require Import EventStore.
From S2P Require Import Parsing ParsingTheorems Wire PyEquality.

Local Open Scope Z_scope.

(** ** Lexical elements *)

Definition quote : ascii := ascii_of_N 34.
Definition backslash : ascii := ascii_of_N 92.

(** [json.JSONDecodeError] is a [ValueError]. *)
Definition decode_error : exn := ValueError "JSONDecodeError".
Definition beyond_latin1 : exn := ValueError "code point above U+00FF".

Definition json_space (c : ascii) : bool :=
  let n := N_of_ascii c in (n =? 32)%N || (n =? 9)%N || (n =? 10)%N || (n =? 13)%N.

Fixpoint skip_space (s : string) : string :=
  match s with
  | String c s' => if json_space c then skip_space s' else s
  | EmptyString => EmptyString
  end.

(** The character after a backslash, [u] apart. *)
Definition unescape (c : ascii) : option ascii :=
  let n := N_of_ascii c in
  if (n =? 34)%N || (n =? 92)%N || (n =? 47)%N then Some c
  else if (n =? 110)%N then Some (ascii_of_N 10)
  else if (n =? 114)%N then Some (ascii_of_N 13)
  else if (n =? 116)%N then Some (ascii_of_N 9)
  else if (n =? 98)%N then Some (ascii_of_N 8)
  else if (n =? 102)%N then Some (ascii_of_N 12)
  else None.

Definition hex4 (a b c d : ascii) : option N :=
  match hex_value a, hex_value b, hex_value c, hex_value d with
  | Some a, Some b, Some c, Some d => Some (((a * 16 + b) * 16 + c) * 16 + d)%N
  | _, _, _, _ => None
  end.

(** The rest of a string literal after its opening quote. *)
Fixpoint scan_string (s : string) : result (string * string) :=
  match s with
  | EmptyString => inl decode_error
  | String c s' =>
      if Ascii.eqb c quote then inr (EmptyString, s')
      else if Ascii.eqb c backslash then
        match s' with
        | String e s1 =>
            match unescape e with
            | Some x => let? r := scan_string s1 in inr (String x r.1, r.2)
            | None =>
                match s1 with
                | String h1 (String h2 (String h3 (String h4 s2))) =>
                    if Ascii.eqb e "u" then
                      match hex4 h1 h2 h3 h4 with
                      | Some n =>
                          raise! beyond_latin1 when! (255 <? n)%N ;;
                          let? r := scan_string s2 in inr (String (ascii_of_N n) r.1, r.2)
                      | None => inl decode_error
                      end
                    else inl decode_error
                | _ => inl decode_error
                end
            end
        | EmptyString => inl decode_error
        end
      else if (N_of_ascii c <? 32)%N then inl decode_error
      else let? r := scan_string s' in inr (String c r.1, r.2)
  end.

(** The digits of the fraction and of the exponent of a number, if they are
    there. *)
Definition scan_fraction (s : string) (m : Z) : option (Z * Z * string) :=
  match s with
  | String "." s' =>
      let '(m', k, rest) := take_digits s' m 0 in if 0 <? k then Some (m', k, rest) else None
  | _ => None
  end.

Definition scan_exponent (s : string) : option (Z * string) :=
  match s with
  | String c s' =>
      if Ascii.eqb c "e" || Ascii.eqb c "E" then
        let '(negative, s'') := signed_text s' in
        let '(x, k, rest) := take_digits s'' 0 0 in
        if 0 <? k then Some (if negative : bool then - x else x, rest) else None
      else None
  | EmptyString => None
  end.

(** [int(text)] refuses more digits than this. *)
Definition int_max_str_digits : Z := 4300.

(** The integer part: its value, its number of digits, the rest. *)
Definition leading (s1 : string) : option (Z * Z * string) :=
  match s1 with
  | String "0" s2 => Some (0, 1, s2)
  | _ => let '(m, n, rest) := take_digits s1 0 0 in if 0 <? n then Some (m, n, rest) else None
  end.

(** The number after its sign. *)
Definition unsigned_number (negative : bool) (s1 : string) : result (pyval * string) :=
  match leading s1 with
  | None => inl decode_error
  | Some (m, n, rest) =>
      match scan_fraction rest m, scan_exponent rest with
      | None, None =>
          raise! ValueError "Exceeds the limit for integer string conversion"
            when! int_max_str_digits <? n ;;
          inr (PInt (if negative : bool then - m else m), rest)
      | None, Some (x, rest') => inr (PFloat (float_of_decimal negative m x), rest')
      | Some (m', k, rest'), _ =>
          match scan_exponent rest' with
          | Some (x, rest'') => inr (PFloat (float_of_decimal negative m' (x - k)), rest'')
          | None => inr (PFloat (float_of_decimal negative m' (- k)), rest')
          end
      end
  end.

Definition scan_number (s : string) : result (pyval * string) :=
  match s with
  | String "-" s' => unsigned_number true s'
  | _ => unsigned_number false s
  end.

(** The constants, of which the last three are extensions of JSON. *)
Definition constants : list (string * pyval) :=
  [("null", PNone); ("true", PBool true); ("false", PBool false); ("NaN", PFloat S754_nan);
   ("Infinity", PFloat (S754_infinity false)); ("-Infinity", PFloat (S754_infinity true))]%string.

Definition drop_prefix (p s : string) : option string :=
  if String.prefix p s
  then Some (String.substring (String.length p) (String.length s - String.length p) s) else None.

Fixpoint scan_constant (table : list (string * pyval)) (s : string) : option (pyval * string) :=
  match table with
  | [] => None
  | (name, v) :: table' =>
      match drop_prefix name s with
      | Some rest => Some (v, rest)
      | None => scan_constant table' s
      end
  end.

(** ** Values *)

Section Containers.
Context (scan : string → result (pyval * string)).

(** The members of an object, from the quote of the first key. *)
Fixpoint scan_members (fuel : nat) (s : string) : result (list (string * pyval) * string) :=
  match fuel, s with
  | S fuel, String c s1 =>
      if Ascii.eqb c quote then
        let? key := scan_string s1 in
        match expect ":" (skip_space key.2) with
        | Some s2 =>
            let? v := scan (skip_space s2) in
            match expect "," (skip_space v.2), expect "}" (skip_space v.2) with
            | Some s3, _ =>
                let? r := scan_members fuel (skip_space s3) in
                inr ((key.1, v.1) :: r.1, r.2)
            | None, Some s3 => inr ([(key.1, v.1)], s3)
            | None, None => inl decode_error
            end
        | None => inl decode_error
        end
      else inl decode_error
  | _, _ => inl decode_error
  end.

(** The elements of an array, from the first one. *)
Fixpoint scan_elements (fuel : nat) (s : string) : result (list pyval * string) :=
  match fuel with
  | O => inl decode_error
  | S fuel =>
      let? v := scan s in
      match expect "," (skip_space v.2), expect "]" (skip_space v.2) with
      | Some s1, _ => let? r := scan_elements fuel (skip_space s1) in inr (v.1 :: r.1, r.2)
      | None, Some s1 => inr ([v.1], s1)
      | None, None => inl decode_error
      end
  end.
End Containers.

(** [scan_once]: containers may be nested [depth] deep.  Every member and
    element takes at least one character, so the length of the text is fuel
    enough. *)
Fixpoint scan_value (depth : nat) (s : string) : result (pyval * string) :=
  match s with
  | EmptyString => inl decode_error
  | String c s1 =>
      if Ascii.eqb c quote then let? r := scan_string s1 in inr (PStr r.1, r.2)
      else if Ascii.eqb c "{" then
        match depth with
        | O => inl RecursionError
        | S depth =>
            let s2 := skip_space s1 in
            match expect "}" s2 with
            | Some rest => inr (PDict [], rest)
            | None =>
                let? r := scan_members (scan_value depth) (String.length s2) s2 in
                inr (PDict (dict_of r.1), r.2)
            end
        end
      else if Ascii.eqb c "[" then
        match depth with
        | O => inl RecursionError
        | S depth =>
            let s2 := skip_space s1 in
            match expect "]" s2 with
            | Some rest => inr (PList [], rest)
            | None =>
                let? r := scan_elements (scan_value depth) (String.length s2) s2 in
                inr (PList r.1, r.2)
            end
        end
      else match scan_constant constants s with
           | Some r => inr r
           | None => scan_number s
           end
  end.

(** The interpreter's limit on nested containers. *)
Class RecursionLimit : Type := recursion_limit : nat.

Definition json_loads {Limit : RecursionLimit} (s : string) : result pyval :=
  let? r := scan_value recursion_limit (skip_space s) in
  raise! decode_error when! negb (PyStr.is_empty (skip_space r.2)) ;;
  inr r.1.

(** ** What [json.dumps] refuses *)

(** The first exception, if any, of [json.dumps] of a value whose containers
    are dicts and lists, its members written in their order. *)
Fixpoint json_check (v : pyval) : result unit :=
  match v with
  | PNone | PBool _ | PFloat _ | PStr _ => inr tt
  | PInt z =>
      reject_if (int_max_str_digits <? PyStr.len (pretty (Z.abs z)))
        (ValueError "Exceeds the limit for integer string conversion")
  | PList l | PTuple l =>
      (fix go (l : list pyval) : result unit :=
         match l with [] => inr tt | x :: l => let? _ := json_check x in go l end) l
  | PDict d =>
      (fix go (d : pydict) : result unit :=
         match d with
         | [] => inr tt
         | (KStr _, x) :: d => let? _ := json_check x in go d
         | (KOther _, _) :: _ => inl (TypeError "keys must be str, int, float, bool or None")
         end) d
  | PProxy _ | PBytes _ | PObject _ => inl (TypeError "Object is not JSON serializable")
  end.

(** ** What the text of a value reads back as *)

(** The value with the members of its objects in the order of the text. *)
Fixpoint arrange (sort_keys : bool) (v : pyval) : pyval :=
  match v with
  | PDict d | PProxy d =>
      PDict (map (λ kv, (KStr kv.1, kv.2))
               (key_order sort_keys (map (λ kv, (key_text kv.1, arrange sort_keys kv.2)) d)))
  | PList l | PTuple l => PList (map (arrange sort_keys) l)
  | _ => v
  end.

Abbreviation sort_json := (arrange true).

(** Without floats, whose text is left to the interpreter, and with integers
    the interpreter converts. *)
Fixpoint textual (v : pyval) : bool :=
  match v with
  | PNone | PBool _ | PStr _ => true
  | PInt z => PyStr.len (pretty (Z.abs z)) <=? int_max_str_digits
  | PList l | PTuple l => forallb textual l
  | PDict d | PProxy d => forallb (λ kv, textual kv.2) d
  | _ => false
  end.

(** With integers the interpreter converts. *)
Fixpoint short_integers (v : pyval) : bool :=
  match v with
  | PInt z => PyStr.len (pretty (Z.abs z)) <=? int_max_str_digits
  | PList l | PTuple l => forallb short_integers l
  | PDict d | PProxy d => forallb (λ kv, short_integers kv.2) d
  | _ => true
  end.

(** Containers nested at most [depth] deep. *)
Fixpoint nests (v : pyval) (depth : nat) : bool :=
  match v, depth with
  | (PList l | PTuple l), S depth => forallb (λ x, nests x depth) l
  | (PDict d | PProxy d), S depth => forallb (λ kv, nests kv.2 depth) d
  | (PList _ | PTuple _ | PDict _ | PProxy _), O => false
  | _, _ => true
  end.

(** A character that may follow a value in the text of [json_dumps]. *)
Definition delimits (s : string) : Prop :=
  match s with
  | EmptyString => True
  | String c _ => c = ","%char ∨ c = "]"%char ∨ c = "}"%char
  end.

Section RoundTrip.
Context {Repr : PyRepr} {sort_keys : bool}.

Local Abbreviation json_dumps := (dumps sort_keys).
Local Abbreviation sort_json := (arrange sort_keys).

(** *** Strings *)

Lemma scan_char c s :
  scan_string (json_char c +:+ s) = rbind (scan_string s) (λ r, inr (String c r.1, r.2)).
Proof. destruct c as [[] [] [] [] [] [] [] []]; reflexivity. Qed.

Lemma scan_escaped s rest : scan_string (json_escape s +:+ String quote rest) = inr (s, rest).
Proof.
  induction s as [|c s IH]; [done|]. cbn [json_escape]. by rewrite str_app_assoc, scan_char, IH.
Qed.

Lemma json_string_app s rest :
  json_string s +:+ rest = String quote (json_escape s +:+ String quote rest).
Proof.
  unfold json_string. change (String ?c ?a +:+ rest) with (String c (a +:+ rest)).
  by rewrite str_app_assoc.
Qed.

(** *** Numbers *)

Lemma pretty_head x s : (0 < x)%N → ∃ c t, pretty_N_go x s = String c t ∧ c ≠ "0"%char.
Proof.
  revert s. induction (N.lt_wf_0 x) as [x _ IH]; intros s Hx. rewrite pretty_N_go_step by lia.
  destruct (decide (x / 10 = 0)%N) as [Hz|Hz].
  - rewrite Hz, pretty_N_go_0. do 2 eexists. split; [done|].
    apply N.div_small_iff in Hz; [|done]. rewrite N.mod_small by done.
    assert (x = 1 ∨ x = 2 ∨ x = 3 ∨ x = 4 ∨ x = 5 ∨ x = 6 ∨ x = 7 ∨ x = 8 ∨ x = 9)%N as Hcase by lia.
    by repeat destruct Hcase as [->|Hcase]; [..|subst x].
  - apply IH; [by apply N.div_lt; lia|by apply N.neq_0_lt_0].
Qed.

Lemma scan_fraction_none s m : delimits s → scan_fraction s m = None.
Proof. destruct s as [|c s]; [done|]. by intros [->|[->| ->]]. Qed.

Lemma scan_exponent_none s : delimits s → scan_exponent s = None.
Proof. destruct s as [|c s]; [done|]. by intros [->|[->| ->]]. Qed.

Lemma delimits_digits s : delimits s → ends_digits s.
Proof. destruct s as [|c s]; [done|]. by intros [->|[->| ->]]. Qed.

Lemma leading_pretty z rest : 0 ≤ z → delimits rest →
  ∃ n, leading (pretty z +:+ rest) = Some (z, n, rest) ∧ n <= PyStr.len (pretty z).
Proof.
  intros Hz Hrest. destruct (decide (z = 0)) as [->|Hne]; [by exists 1|].
  destruct (pretty_digits z Hz) as (Hd & Hv & Hl).
  assert (Hhead : ∃ c t, pretty z = String c t ∧ c ≠ "0"%char).
  { replace (pretty z) with (pretty (Z.to_N z)) by (by destruct z).
    unfold pretty, pretty_N. rewrite decide_False by lia. apply pretty_head. lia. }
  pose proof (take_all (pretty z) rest 0 0 Hd (delimits_digits _ Hrest)) as Htake. rewrite Hv in Htake.
  exists (PyStr.len (pretty z)). split; [|lia].
  destruct Hhead as (c & t & Hp & Hc). unfold leading. rewrite Hp in *.
  change (String c t +:+ rest) with (String c (t +:+ rest)) in *.
  replace (0 + PyStr.len (String c t)) with (PyStr.len (String c t)) in Htake by lia.
  transitivity (let '(m, n, rest) := take_digits (String c (t +:+ rest)) 0 0 in
    if 0 <? n then Some (m, n, rest) else None).
  { clear - Hc. destruct c as [[] [] [] [] [] [] [] []]; first [done|by destruct Hc]. }
  rewrite Htake. by rewrite (proj2 (Z.ltb_lt _ _)) by lia.
Qed.
Lemma unsigned_pretty negative z rest : 0 ≤ z → delimits rest →
  PyStr.len (pretty z) <= int_max_str_digits →
  unsigned_number negative (pretty z +:+ rest) = inr (PInt (if negative then - z else z), rest).
Proof.
  intros Hz Hrest Hlen. destruct (leading_pretty z rest Hz Hrest) as (n & Hlead & Hn).
  unfold unsigned_number. rewrite Hlead, scan_fraction_none, scan_exponent_none by done.
  unfold reject_if. by rewrite (proj2 (Z.ltb_ge _ _)) by lia.
Qed.

Lemma first_digit z rest : 0 ≤ z → ∃ c t, pretty z +:+ rest = String c t ∧ is_dec_digit c = true.
Proof.
  intros Hz. destruct (pretty_digits z Hz) as (Hd & _ & Hl).
  destruct (pretty z) as [|c t]; [by unfold PyStr.len in Hl; simpl in Hl|].
  exists c, (t +:+ rest). split; [done|]. cbn [all_chars] in Hd. by apply andb_prop in Hd as [? _].
Qed.

(** The first character of a number tells it from every other value. *)
Lemma number_start depth c s : is_dec_digit c = true → scan_value depth (String c s) = scan_number (String c s)
  ∧ scan_number (String c s) = unsigned_number false (String c s).
Proof.
  intros Hc. destruct c as [[] [] [] [] [] [] [] []]; try (by vm_compute in Hc);
    (split; [by destruct depth|reflexivity]).
Qed.

Lemma minus_start depth c s : is_dec_digit c = true →
  scan_value depth (String "-" (String c s)) = scan_number (String "-" (String c s)).
Proof.
  intros Hc. destruct c as [[] [] [] [] [] [] [] []]; try (by vm_compute in Hc); by destruct depth.
Qed.

Lemma scan_int depth z rest : delimits rest → PyStr.len (pretty (Z.abs z)) <= int_max_str_digits →
  scan_value depth (pretty z +:+ rest) = inr (PInt z, rest).
Proof.
  intros Hrest Hlen. destruct (Z.leb_spec 0 z) as [Hz|Hz].
  - destruct (first_digit z rest Hz) as (c & t & Hp & Hc). rewrite Hp.
    destruct (number_start depth c t Hc) as [-> ->]. rewrite <- Hp.
    rewrite unsigned_pretty by (try done; by rewrite Z.abs_eq in Hlen). done.
  - destruct (first_digit (Z.abs z) rest ltac:(lia)) as (c & t & Hp & Hc).
    assert (Hneg : pretty z = String "-" (pretty (Z.abs z))) by (by destruct z).
    rewrite Hneg. change (String ?a ?b +:+ rest) with (String a (b +:+ rest)). rewrite Hp.
    rewrite minus_start by done.
    change (scan_number (String "-" (String c t))) with (unsigned_number true (String c t)).
    rewrite <- Hp, unsigned_pretty by (done || lia). do 3 f_equal. lia.
Qed.
(** *** Where a value starts *)

Definition starts_value (s : string) : Prop :=
  match s with
  | String c _ => json_space c = false ∧ c ≠ "]"%char
  | EmptyString => False
  end.

Lemma dumps_starts v rest : json_value v = true → textual v = true → starts_value (json_dumps v +:+ rest).
Proof.
  intros Hj Ht. destruct v as [|b|z|f|s| | | | | |]; try done; [by destruct b|].
  cbn [dumps]. destruct (Z.leb_spec 0 z) as [Hz|Hz].
  - destruct (first_digit z rest Hz) as (c & t & -> & Hc). cbn [starts_value]. revert Hc.
    clear. destruct c as [[] [] [] [] [] [] [] []]; done.
  - assert (Hneg : pretty z = String "-" (pretty (Z.abs z))) by (by destruct z). by rewrite Hneg.
Qed.

Lemma skip_start s : starts_value s → skip_space s = s.
Proof. destruct s as [|c s]; [done|]. intros [Hc _]. cbn [skip_space]. by rewrite Hc. Qed.

Lemma drop_prefix_app p rest : drop_prefix p (p +:+ rest) = Some rest.
Proof.
  unfold drop_prefix.
  assert (Hp : String.prefix p (p +:+ rest) = true).
  { induction p as [|c p IH]; [by destruct rest|].
    change (String c p +:+ rest) with (String c (p +:+ rest)). cbn [String.prefix].
    by destruct (Ascii.ascii_dec c c). }
  rewrite Hp. f_equal. rewrite str_length_app.
  replace (String.length p + String.length rest - String.length p)%nat with (String.length rest) by lia.
  clear Hp. induction p as [|c p IH]; [apply substring_all|]. exact IH.
Qed.

Lemma scan_constant_null rest : scan_constant constants ("null" +:+ rest) = Some (PNone, rest).
Proof. cbn [scan_constant constants]. by rewrite drop_prefix_app. Qed.

Lemma scan_constant_bool (b : bool) rest :
  scan_constant constants ((if b then "true" else "false") +:+ rest) = Some (PBool b, rest).
Proof.
  destruct b; cbn [scan_constant constants].
  - assert (drop_prefix "null" ("true" +:+ rest) = None) as -> by done. by rewrite drop_prefix_app.
  - assert (drop_prefix "null" ("false" +:+ rest) = None) as -> by done.
    assert (drop_prefix "true" ("false" +:+ rest) = None) as -> by done. by rewrite drop_prefix_app.
Qed.

(** *** Arrays *)

Definition reads_back (v : pyval) : Prop :=
  ∀ depth rest, json_value v = true → tidy v = true → textual v = true → nests v depth = true →
    delimits rest → scan_value depth (json_dumps v +:+ rest) = inr (sort_json v, rest).

Lemma scan_dumped_elements depth l rest fuel :
  Forall reads_back l → forallb json_value l = true → forallb tidy l = true →
  forallb textual l = true → forallb (λ x, nests x depth) l = true →
  l ≠ [] → (length l <= fuel)%nat →
  scan_elements (scan_value depth) fuel (join "," (map json_dumps l) +:+ String "]" rest)
  = inr (map sort_json l, rest).
Proof.
  intros Hl. revert fuel. induction Hl as [|v l Hv Hl IH]; intros fuel Hj Ht Hx Hn Hne Hfuel; [done|].
  destruct fuel as [|fuel]; [simpl in Hfuel; lia|]. cbn [forallb] in *. bool_props.
  destruct l as [|v' l].
  - cbn [map join String.concat scan_elements]. rewrite Hv by (done || by right; left).
    done.
  - change (join "," (map json_dumps (v :: v' :: l))) with
      (json_dumps v +:+ "," +:+ join "," (map json_dumps (v' :: l))).
    cbn [scan_elements]. rewrite !str_app_assoc.
    change ("," +:+ ?a) with (String "," a). rewrite Hv by (done || by left).
    cbn [rbind fst snd].
    change (expect "," (skip_space (String "," ?a))) with (Some a). cbn iota.
    rewrite skip_start.
    + rewrite IH by (done || simpl in *; lia). done.
    + cbn [forallb] in *. bool_props.
      destruct l; cbn [map join String.concat]; rewrite ?str_app_assoc; by apply dumps_starts.
Qed.

Lemma join_length (l : list string) : (length l <= S (String.length (join "," l)))%nat.
Proof.
  induction l as [|a [|b l] IH]; [simpl; lia..|].
  change (join "," (a :: b :: l)) with (a +:+ "," +:+ join "," (b :: l)).
  rewrite !str_length_app. cbn [length] in *. change (String.length ",") with 1%nat. lia.
Qed.

(** *** Objects *)

Definition member_text (kv : string * pyval) : string := json_string kv.1 +:+ ":" +:+ json_dumps kv.2.

Lemma scan_dumped_members depth (d : list (string * pyval)) rest fuel :
  Forall (λ kv, reads_back kv.2) d →
  forallb (λ kv, json_value kv.2) d = true → forallb (λ kv, tidy kv.2) d = true →
  forallb (λ kv, textual kv.2) d = true → forallb (λ kv, nests kv.2 depth) d = true →
  d ≠ [] → (length d <= fuel)%nat →
  scan_members (scan_value depth) fuel (join "," (map member_text d) +:+ String "}" rest)
  = inr (map (λ kv, (kv.1, sort_json kv.2)) d, rest).
Proof.
  intros Hl. revert fuel. induction Hl as [|[k v] d Hv Hl IH]; intros fuel Hj Ht Hx Hn Hne Hfuel; [done|].
  destruct fuel as [|fuel]; [simpl in Hfuel; lia|]. cbn [forallb snd] in *. bool_props.
  assert (Hone : ∀ tail, delimits tail →
    scan_members (scan_value depth) (S fuel) (member_text (k, v) +:+ tail) =
    match expect "," (skip_space tail), expect "}" (skip_space tail) with
    | Some s3, _ =>
        let? r := scan_members (scan_value depth) fuel (skip_space s3) in
        inr ((k, sort_json v) :: r.1, r.2)
    | None, Some s3 => inr ([(k, sort_json v)], s3)
    | None, None => inl decode_error
    end).
  { intros tail Htail. unfold member_text. cbn [fst snd]. rewrite !str_app_assoc, json_string_app.
    cbn [scan_members]. rewrite Ascii.eqb_refl, scan_escaped. cbn [rbind fst snd].
    change (expect ":" (skip_space (":" +:+ ?a))) with (Some a).
    cbn iota. rewrite skip_start by by apply dumps_starts. by rewrite Hv. }
  destruct d as [|[k' v'] d].
  - change (join "," (map member_text [(k, v)])) with (member_text (k, v)).
    rewrite Hone by (by right; right). done.
  - change (join "," (map member_text ((k, v) :: (k', v') :: d))) with
      (member_text (k, v) +:+ "," +:+ join "," (map member_text ((k', v') :: d))).
    rewrite !str_app_assoc. change ("," +:+ ?a) with (String "," a). rewrite Hone by by left.
    change (expect "," (skip_space (String "," ?a))) with (Some a). cbn iota.
    assert (Hskip : ∀ s, skip_space (join "," (map member_text ((k', v') :: d)) +:+ s) =
      join "," (map member_text ((k', v') :: d)) +:+ s).
    { intros s. unfold member_text at 1 2. cbn [map]. destruct d; cbn [join String.concat fst snd map];
        unfold join; cbn [String.concat]; by rewrite ?str_app_assoc, json_string_app. }
    rewrite Hskip, IH by (done || simpl in *; lia). done.
Qed.
Lemma forallb_perm {A} (f : A → bool) l l' : l ≡ₚ l' → forallb f l = forallb f l'.
Proof.
  induction 1 as [|x l l' _ IH|x y l|l l' l'' _ IH1 _ IH2]; simpl; [done|by rewrite IH| |congruence].
  by rewrite !andb_assoc, (andb_comm (f y)).
Qed.

Lemma insert_sorted_map {V W} (f : V → W) x l :
  insert_sorted key_leb (x.1, f x.2) (map (λ kv, (kv.1, f kv.2)) l) =
  map (λ kv, (kv.1, f kv.2)) (insert_sorted key_leb x l).
Proof.
  induction l as [|y l IH]; [done|]. simpl. unfold key_leb at 1 3. simpl.
  destruct (PyStr.str_leb x.1 y.1); [done|]. simpl. by rewrite IH.
Qed.

Lemma py_sorted_map {V W} (f : V → W) (l : list (string * V)) :
  py_sorted key_leb (map (λ kv, (kv.1, f kv.2)) l) = map (λ kv, (kv.1, f kv.2)) (py_sorted key_leb l).
Proof. induction l as [|x l IH]; [done|]. simpl. by rewrite IH, <- insert_sorted_map. Qed.

Lemma key_order_map {V W} (f : V → W) (l : list (string * V)) :
  key_order sort_keys (map (λ kv, (kv.1, f kv.2)) l) = map (λ kv, (kv.1, f kv.2)) (key_order sort_keys l).
Proof. unfold key_order. destruct sort_keys; [apply py_sorted_map|done]. Qed.

Lemma key_order_perm {V} (l : list (string * V)) : key_order sort_keys l ≡ₚ l.
Proof. unfold key_order. destruct sort_keys; [apply py_sorted_perm|done]. Qed.

(** The members of an object in the order of its text. *)
Definition members (d : pydict) : list (string * pyval) :=
  key_order sort_keys (map (λ kv, (key_text kv.1, kv.2)) d).

Lemma members_map {W} (f : pyval → W) (d : pydict) :
  key_order sort_keys (map (λ kv, (key_text kv.1, f kv.2)) d) = map (λ kv, (kv.1, f kv.2)) (members d).
Proof. unfold members. by rewrite <- key_order_map, map_map. Qed.

Lemma dumps_dict d :
  json_dumps (PDict d) = "{" +:+ join "," (map member_text (members d)) +:+ "}" ∧
  json_dumps (PProxy d) = json_dumps (PDict d).
Proof.
  split; [|done]. cbn [dumps].
  by rewrite members_map, map_map.
Qed.

Lemma sort_dict d :
  sort_json (PDict d) = PDict (map (λ kv, (KStr kv.1, sort_json kv.2)) (members d)).
Proof. cbn [arrange]. by rewrite members_map, map_map. Qed.

Lemma dict_set_new k v (d : pydict) : KStr k ∉ map fst d → dict_set k v d = d ++ [(KStr k, v)].
Proof.
  induction d as [|[k' w] d IH]; intros Hk; [done|]. simpl in *. apply not_elem_of_cons in Hk as [Hne Hk].
  rewrite bool_decide_false by done. by rewrite IH.
Qed.

Lemma dict_of_distinct (l : list (string * pyval)) : NoDup (map fst l) →
  dict_of l = map (λ kv, (KStr kv.1, kv.2)) l.
Proof.
  intros Hnd. unfold dict_of, dict_update.
  assert (H : ∀ acc : pydict, (∀ k, k ∈ map fst l → KStr k ∉ map fst acc) →
    foldl (λ acc kv, dict_set kv.1 kv.2 acc) acc l = acc ++ map (λ kv, (KStr kv.1, kv.2)) l).
  { induction l as [|[k v] l IH]; intros acc Hacc; [by rewrite app_nil_r|].
    simpl in *. apply NoDup_cons in Hnd as [Hk Hnd].
    rewrite dict_set_new by (apply Hacc, list_elem_of_here).
    rewrite IH; [by rewrite <- app_assoc|done|].
    intros k' Hk'. rewrite map_app, elem_of_app. intros [H|H]; [by eapply Hacc; [right|]|].
    apply list_elem_of_singleton in H as [= ->]. done. }
  apply (H []). intros k _. apply not_elem_of_nil.
Qed.

Lemma text_keys (d : pydict) : json_value (PDict d) = true →
  map (λ kv, KStr (key_text kv.1)) d = map fst d.
Proof.
  simpl. induction d as [|[[k|n] v] d IH]; [done| |done]. simpl. intros H. bool_props. by rewrite IH.
Qed.

Lemma members_perm d : members d ≡ₚ map (λ kv, (key_text kv.1, kv.2)) d.
Proof. apply key_order_perm. Qed.

Lemma members_distinct d : json_value (PDict d) = true → tidy (PDict d) = true → NoDup (map fst (members d)).
Proof.
  intros Hj Ht. cbn [tidy] in Ht. bool_props. rewrite members_perm, map_map. simpl.
  apply (NoDup_fmap_1 KStr). rewrite <- list_fmap_compose.
  change (NoDup (map (λ kv : pykey * pyval, KStr (key_text kv.1)) d)). by rewrite text_keys.
Qed.

Lemma members_forallb (f : pyval → bool) d :
  forallb (λ kv, f kv.2) (members d) = forallb (λ kv, f kv.2) d.
Proof.
  rewrite (forallb_perm _ _ _ (members_perm d)). induction d as [|kv d IH]; [done|]. simpl. by rewrite IH.
Qed.

Lemma dict_values d : json_value (PDict d) = true → forallb (λ kv, json_value kv.2) d = true.
Proof.
  intros Hj. apply json_entries in Hj. induction Hj as [|kv d Hv _ IH]; [done|]. simpl. by rewrite Hv, IH.
Qed.

Lemma members_text_start (e : list (string * pyval)) : e ≠ [] →
  ∃ t, join "," (map member_text e) = String quote t.
Proof.
  destruct e as [|kv [|kv' e]]; intros Hne; [done|eexists; apply json_string_app|].
  change (join "," (map member_text (kv :: kv' :: e))) with
    (member_text kv +:+ "," +:+ join "," (map member_text (kv' :: e))).
  unfold member_text at 1. rewrite str_app_assoc. eexists. apply json_string_app.
Qed.

Lemma dict_reads_back d :
  Forall (λ kv, reads_back kv.2) d → reads_back (PDict d).
Proof.
  intros Hd depth rest Hj Ht Hx Hn Hrest. destruct depth as [|depth]; [done|].
  rewrite (proj1 (dumps_dict d)), sort_dict, !str_app_assoc.
  change ("{" +:+ ?a) with (String "{" a). change ("}" +:+ rest) with (String "}" rest).
  assert (Hall : Forall (λ kv, reads_back kv.2) (members d)).
  { rewrite members_perm. clear - Hd. induction Hd; simpl; by constructor. }
  cbn [scan_value]. change (Ascii.eqb "{" quote) with false. change (Ascii.eqb "{" "{") with true. cbn iota.
  destruct (members d) as [|[k v] e] eqn:He; [done|]. rewrite <- He.
  destruct (members_text_start (members d)) as (t & Htext); [by rewrite He|]. rewrite Htext.
  change (String quote t +:+ String "}" rest) with (String quote (t +:+ String "}" rest)).
  change (skip_space (String quote ?a)) with (String quote a).
  set (tail := t +:+ String "}" rest).
  change (expect "}" (String quote tail)) with (@None string). cbn iota.
  change (String quote tail) with (String quote t +:+ String "}" rest). rewrite <- Htext. cbn [tidy textual nests] in *. bool_props.
  rewrite scan_dumped_members; try done.
  - cbn [rbind fst snd]. rewrite dict_of_distinct; rewrite map_map; [done|].
    apply members_distinct; [done|]. cbn [tidy]. by rewrite bool_decide_true.
  - by rewrite He.
  - by rewrite (members_forallb json_value), dict_values.
  - by rewrite (members_forallb tidy).
  - by rewrite (members_forallb textual).
  - by rewrite (members_forallb (λ v, nests v depth)).
  - by rewrite He.
  - rewrite str_length_app. pose proof (join_length (map member_text (members d))) as Hlen.
    rewrite length_map in Hlen. cbn [String.length]. lia.
Qed.

Lemma scan_value_constant depth c s r :
  c ≠ quote → c ≠ "{"%char → c ≠ "["%char → scan_constant constants (String c s) = Some r →
  scan_value depth (String c s) = inr r.
Proof.
  intros Hq Ho Ha Hr. assert (Heq : ∀ a, c ≠ a → Ascii.eqb c a = false) by (intros a; apply Ascii.eqb_neq).
  destruct depth; cbn [scan_value]; by rewrite !Heq, Hr.
Qed.

Lemma scan_value_string depth s : scan_value depth (String quote s) =
  rbind (scan_string s) (λ r, inr (PStr r.1, r.2)).
Proof. by destruct depth. Qed.

Lemma list_reads_back l depth rest :
  Forall reads_back l → forallb json_value l = true → forallb tidy l = true → forallb textual l = true →
  forallb (λ x, nests x depth) l = true → delimits rest →
  scan_value (S depth) (json_dumps (PList l) +:+ rest) = inr (PList (map sort_json l), rest).
Proof.
  intros IH Hj Ht Hx Hn Hrest. cbn [dumps]. rewrite !str_app_assoc.
  change ("[" +:+ ?a) with (String "[" a). change ("]" +:+ rest) with (String "]" rest).
  cbn [scan_value]. change (Ascii.eqb "[" quote) with false. change (Ascii.eqb "[" "{") with false.
  change (Ascii.eqb "[" "[") with true. cbn iota.
  destruct l as [|v l]; [done|].
  assert (Hstart : starts_value (join "," (map json_dumps (v :: l)) +:+ String "]" rest)).
  { cbn [forallb] in *. bool_props. destruct l; cbn [map join String.concat]; unfold join; cbn [String.concat];
      rewrite ?str_app_assoc; by apply dumps_starts. }
  rewrite (skip_start _ Hstart).
  assert (Hnot : expect "]" (join "," (map json_dumps (v :: l)) +:+ String "]" rest) = None).
  { destruct (join _ _ +:+ _) as [|c t]; [done|]. destruct Hstart as [_ Hc]. cbn [expect].
    by rewrite (proj2 (Ascii.eqb_neq _ _)) by done. }
  rewrite Hnot, scan_dumped_elements; try done.
  rewrite str_length_app. pose proof (join_length (map json_dumps (v :: l))) as Hlen.
  rewrite length_map in Hlen. cbn [String.length]. lia.
Qed.

(** The text of a value, whatever follows it, is read back as the value with
  its members sorted. *)
Lemma scan_dumps v : reads_back v.
Proof.
  induction v as [|b|z|f|s|l IH|l IH|d IH|d IH| |] using pyval_deep_ind; intros depth rest Hj Ht Hx Hn Hrest;
    try done.
  - by apply scan_value_constant, (scan_constant_null rest).
  - destruct b; [by apply scan_value_constant, (scan_constant_bool true rest)|
                 by apply scan_value_constant, (scan_constant_bool false rest)].
  - cbn [textual] in Hx. bool_props. by apply scan_int.
  - cbn [dumps arrange]. by rewrite json_string_app, scan_value_string, scan_escaped.
  - destruct depth as [|depth]; [done|]. by apply list_reads_back.
  - destruct depth as [|depth]; [done|]. by apply (list_reads_back l).
  - by apply dict_reads_back.
  - rewrite (proj2 (dumps_dict d)). by apply dict_reads_back.
Qed.

Lemma loads_dumps {Limit : RecursionLimit} v :
  json_value v = true → tidy v = true → textual v = true → nests v recursion_limit = true →
  json_loads (json_dumps v) = inr (sort_json v).
Proof.
  intros Hj Ht Hx Hn. unfold json_loads. rewrite <- (str_app_nil (json_dumps v)).
  rewrite skip_start by by apply dumps_starts. rewrite scan_dumps by done. done.
Qed.

(** JSON with short integers is written. *)
Lemma json_check_arranged v : json_value v = true → short_integers v = true →
  json_check (arrange sort_keys v) = inr tt.
Proof.
  assert (Hl : ∀ l, Forall (λ v, json_value v = true → short_integers v = true → json_check (arrange sort_keys v) = inr tt) l →
    forallb json_value l = true → forallb short_integers l = true → json_check (PList (map (arrange sort_keys) l)) = inr tt).
  { induction 1 as [|x l Hx _ IH]; [done|]. cbn [forallb map json_check]. intros. bool_props. rewrite Hx by done. by apply IH. }
  assert (Hd : ∀ d : pydict,
    Forall (λ kv, json_value kv.2 = true → short_integers kv.2 = true → json_check (arrange sort_keys kv.2) = inr tt) d →
    json_value (PDict d) = true → short_integers (PDict d) = true → json_check (arrange sort_keys (PDict d)) = inr tt).
  { intros d IH Hj Hs. cbn [arrange]. cbn [json_value short_integers] in Hj, Hs.
    assert (Hall : Forall (λ kv, json_check kv.2 = inr tt)
      (key_order sort_keys (map (λ kv, (key_text kv.1, arrange sort_keys kv.2)) d))).
    { rewrite key_order_perm, Forall_map. induction IH as [|[[k|n] x] d Hx _ IHd]; [done| |done].
      cbn [forallb fst snd] in *. bool_props. constructor; [by apply Hx|by apply IHd]. }
    induction Hall as [|[k x] members Hx _ IHm]; [done|]. cbn [map fst snd json_check] in *. by rewrite Hx. }
  induction v as [| |z| | |l IH|l IH|d IH|d IH| |] using pyval_deep_ind; intros Hj Hs; try done.
  - cbn [arrange json_check short_integers] in *. unfold reject_if. by rewrite (proj2 (Z.ltb_ge _ _)) by (by apply Z.leb_le).
  - by apply Hl.
  - by apply (Hl l).
  - by apply Hd.
  - by apply (Hd d).
Qed.

End RoundTrip.

Arguments members {sort_keys} d : simpl never.
Abbreviation sorted_members := (@members true).

(** ** Equality up to the order of members *)

Lemma map_deep {A B} (f g : A → B) l : Forall (λ x, f x = g x) l → map f l = map g l.
Proof. induction 1 as [|x l H _ IH]; [done|]. simpl. by rewrite H, IH. Qed.

Lemma sort_thaw v : sort_json (thaw_json v) = sort_json v.
Proof.
  assert (Hd : ∀ d : pydict, Forall (λ kv, sort_json (thaw_json kv.2) = sort_json kv.2) d →
    map (λ kv, (key_text kv.1, sort_json kv.2)) (map (λ '(k, item), (k, thaw_json item)) d) =
    map (λ kv, (key_text kv.1, sort_json kv.2)) d).
  { intros d Hd. rewrite map_map. apply map_deep.
    induction Hd as [|[k x] d Hx _ IH]; constructor; [simpl in *; by rewrite Hx|done]. }
  induction v as [| | | | |l IH|l IH|d IH|d IH| |] using pyval_deep_ind; try done; cbn [thaw_json arrange].
  - f_equal. rewrite map_map. by apply map_deep.
  - f_equal. rewrite map_map. by apply map_deep.
  - by rewrite Hd.
  - by rewrite Hd.
Qed.

Lemma members_sorted (d : pydict) : StronglySorted (λ a b, key_leb a b = true) (sorted_members d).
Proof.
  apply py_sorted_sorted.
  - intros a b. apply PyStr.str_leb_total.
  - intros a b c. apply PyStr.str_leb_trans.
Qed.

(** All sequences of the value are tuples, or all are lists. *)
Fixpoint uniform (tuples : bool) (v : pyval) : bool :=
  match v with
  | PTuple l => tuples && forallb (uniform tuples) l
  | PList l => negb tuples && forallb (uniform tuples) l
  | PDict d | PProxy d => forallb (λ kv, uniform tuples kv.2) d
  | _ => true
  end.

Lemma frozen_uniform v : deeply_frozen v = true → uniform true v = true.
Proof.
  induction v as [| | | | |l IH|l IH|d IH|d IH| |] using pyval_deep_ind; intros Hf; try done;
    cbn [deeply_frozen uniform] in *.
  - induction IH as [|x l Hx _ IH]; [done|]. cbn [forallb] in *. bool_props. rewrite Hx by done. simpl in IH.
    by apply IH.
  - induction IH as [|[[k|n] x] d Hx _ IH]; [done| |done]. cbn [forallb] in *. bool_props.
    cbn [snd] in *. rewrite Hx by done. by apply IH.
Qed.

Lemma thawed_uniform v : uniform false (thaw_json v) = true.
Proof.
  induction v as [| | | | |l IH|l IH|d IH|d IH| |] using pyval_deep_ind; try done; cbn [thaw_json uniform].
  - induction IH as [|x l Hx _ IH]; [done|]. simpl in *. by rewrite Hx.
  - induction IH as [|x l Hx _ IH]; [done|]. simpl in *. by rewrite Hx.
  - induction IH as [|[k x] d Hx _ IH]; [done|]. simpl in *. by rewrite Hx.
  - induction IH as [|[k x] d Hx _ IH]; [done|]. simpl in *. by rewrite Hx.
Qed.

Definition equal_when_sorted (v : pyval) : Prop :=
  ∀ t w, json_value v = true → tidy v = true → uniform t v = true →
    json_value w = true → tidy w = true → uniform t w = true →
    sort_json v = sort_json w → py_eqb v w = true.

Lemma items_equal t l m :
  Forall equal_when_sorted l →
  forallb json_value l = true → forallb tidy l = true → forallb (uniform t) l = true →
  forallb json_value m = true → forallb tidy m = true → forallb (uniform t) m = true →
  map sort_json l = map sort_json m →
  (fix go (l1 l2 : list pyval) : bool :=
     match l1, l2 with
     | [], [] => true
     | x :: l1', y :: l2' => py_eqb x y && go l1' l2'
     | _, _ => false
     end) l m = true.
Proof.
  intros Hl. revert m. induction Hl as [|x l Hx _ IH]; intros [|y m]; try done. cbn [forallb map].
  intros. bool_props. match goal with H : _ :: _ = _ :: _ |- _ => injection H as Hxy Hlm end.
  rewrite (Hx t y) by done. by apply IH.
Qed.

(** The sorted members determine the entries. *)
Lemma members_in (d : pydict) k v : json_value (PDict d) = true →
  (KStr k, v) ∈ d ↔ (k, v) ∈ sorted_members d.
Proof.
  intros Hj. rewrite members_perm. rewrite !list_elem_of_In, in_map_iff. split.
  - intros Hin. by exists (KStr k, v).
  - intros ([k' v'] & [= <- <-] & Hin). simpl in Hj. rewrite forallb_forall in Hj.
    specialize (Hj _ Hin). by destruct k'.
Qed.

Lemma entries_equal t (l d e : pydict) :
  Forall (λ kv, equal_when_sorted kv.2) l → (∀ kv, kv ∈ l → kv ∈ d) →
  json_value (PDict d) = true → tidy (PDict d) = true → uniform t (PDict d) = true →
  json_value (PDict e) = true → tidy (PDict e) = true → uniform t (PDict e) = true →
  sort_json (PDict d) = sort_json (PDict e) →
  (fix go (l : pydict) : bool :=
     match l with
     | [] => true
     | (k, v) :: l' =>
         match find (λ kv, bool_decide (kv.1 = k)) e with
         | Some kv => py_eqb v kv.2
         | None => false
         end && go l'
     end) l = true.
Proof.
  intros Hl Hin Hjd Htd Hud Hje Hte Hue Hsort.
  induction Hl as [|[k v] l Hv _ IH]; [done|]. rewrite IH by (intros; apply Hin; by right).
  assert (Hkv : (k, v) ∈ d) by apply Hin, list_elem_of_here. clear IH Hin.
  pose proof Hjd as Hall. simpl in Hall. rewrite forallb_forall in Hall.
  pose proof (Hall (k, v) (proj1 (list_elem_of_In _ _) Hkv)) as Hjv. destruct k as [k|n]; [|done].
  rewrite !sort_dict in Hsort. injection Hsort as Hsort.
  apply (members_in d k v Hjd) in Hkv as Hm.
  assert (Him : (KStr k, sort_json v) ∈ map (λ kv, (KStr kv.1, sort_json kv.2)) (sorted_members e)).
  { rewrite <- Hsort. apply list_elem_of_In, in_map_iff. exists (k, v). split; [done|]. by apply list_elem_of_In. }
  apply list_elem_of_In, in_map_iff in Him as ([k' w] & [= -> Hw] & Hm').
  apply list_elem_of_In in Hm'. apply (members_in e k w Hje) in Hm'.
  cbn [tidy uniform] in *. bool_props.
  rewrite (find_key e (KStr k) w) by done. cbn [snd] in *. rewrite andb_true_r.
  assert (Hpick : ∀ (f : pyval → bool) (c : pydict) (key : pykey) x, forallb (λ kv, f kv.2) c = true →
    (key, x) ∈ c → f x = true).
  { intros f c key x Hf Hx. rewrite forallb_forall in Hf. apply list_elem_of_In in Hx. by apply (Hf _ Hx). }
  assert (Hje' : forallb (λ kv, json_value kv.2) e = true) by by apply dict_values.
  apply (Hv t w); try done.
  - by eapply (Hpick tidy d).
  - by eapply (Hpick (uniform t) d).
  - by eapply (Hpick json_value e).
  - by eapply (Hpick tidy e).
  - by eapply (Hpick (uniform t) e).
Qed.

Lemma dict_equal t d e :
  Forall (λ kv, equal_when_sorted kv.2) d →
  json_value (PDict d) = true → tidy (PDict d) = true → uniform t (PDict d) = true →
  json_value (PDict e) = true → tidy (PDict e) = true → uniform t (PDict e) = true →
  sort_json (PDict d) = sort_json (PDict e) → py_eqb (PDict d) (PDict e) = true.
Proof.
  intros Hall Hjd Htd Hud Hje Hte Hue Hsort. cbn [py_eqb].
  assert (Hlen : length d = length e).
  { rewrite !sort_dict in Hsort. injection Hsort as Hsort. apply (f_equal length) in Hsort.
    rewrite !length_map, !(Permutation_length (members_perm _)), !length_map in Hsort. done. }
  rewrite Hlen, Nat.eqb_refl. cbn [andb]. by apply (entries_equal t d d e).
Qed.

Lemma py_eqb_sorted v : equal_when_sorted v.
Proof.
  induction v as [|b|z|f|s|l IH|l IH|d IH|d IH| |] using pyval_deep_ind;
    intros t w Hjv Htv Huv Hjw Htw Huw Hsort; try done;
    destruct w as [|b'|z'|f'|s'|m|m|e|e| |]; try done; cbn [arrange] in Hsort; injection Hsort as Hsort; subst.
  - by destruct b'.
  - apply Z.eqb_refl.
  - by apply finite_eqb.
  - by apply bool_decide_eq_true.
  - cbn [uniform] in *. bool_props. by apply (items_equal t).
  - cbn [uniform] in *. bool_props. by destruct t.
  - cbn [uniform] in *. bool_props. by destruct t.
  - cbn [uniform] in *. bool_props. by apply (items_equal t).
  - apply (dict_equal t); try done. exact (f_equal PDict Hsort).
  - apply (dict_equal t); try done. exact (f_equal PDict Hsort).
  - apply (dict_equal t); try done. exact (f_equal PDict Hsort).
  - apply (dict_equal t); try done. exact (f_equal PDict Hsort).
Qed.

(** Sorting keeps JSON values and is idempotent. *)
Lemma sort_json_value v : json_value v = true → json_value (sort_json v) = true.
Proof.
  assert (Hl : ∀ l, Forall (λ v, json_value v = true → json_value (sort_json v) = true) l →
    forallb json_value l = true → forallb json_value (map sort_json l) = true).
  { induction 1 as [|x l Hx _ IH]; [done|]. cbn [forallb map]. intros Hj. bool_props. by rewrite Hx, IH. }
  assert (Hd : ∀ d, Forall (λ kv, json_value kv.2 = true → json_value (sort_json kv.2) = true) d →
    json_value (PDict d) = true → json_value (sort_json (PDict d)) = true).
  { intros d IH Hj. apply dict_values in Hj. rewrite sort_dict. cbn [json_value].
    assert (Hm : forallb (λ kv, json_value (sort_json kv.2)) (sorted_members d) = true).
    { rewrite (members_forallb (λ v, json_value (sort_json v))).
      induction IH as [|kv d Hx _ IHd]; [done|]. cbn [forallb] in *. bool_props. by rewrite Hx, IHd. }
    induction (sorted_members d) as [|kv e IHe]; [done|]. cbn [forallb map] in *. bool_props. simpl in *.
    by rewrite H, IHe. }
  induction v as [| | | | |l IH|l IH|d IH|d IH| |] using pyval_deep_ind; intros Hj; try done.
  - by apply Hl.
  - by apply (Hl l).
  - by apply Hd.
  - by apply (Hd d).
Qed.

Lemma members_of_sorted d (f : pyval → pyval) : json_value (PDict d) = true →
  sorted_members (map (λ kv, (KStr kv.1, f kv.2)) (sorted_members d)) = map (λ kv, (kv.1, f kv.2)) (sorted_members d).
Proof.
  intros Hj. unfold members at 1, key_order at 1. rewrite map_map. simpl.
  rewrite py_sorted_map. f_equal. apply py_sorted_id, members_sorted.
Qed.

Lemma sort_idempotent v : json_value v = true → tidy v = true → sort_json (sort_json v) = sort_json v.
Proof.
  assert (Hl : ∀ l, Forall (λ v, json_value v = true → tidy v = true → sort_json (sort_json v) = sort_json v) l →
    forallb json_value l = true → forallb tidy l = true →
    map sort_json (map sort_json l) = map sort_json l).
  { induction 1 as [|x l Hx _ IH]; [done|]. cbn [forallb map]. intros Hj Ht. bool_props. by rewrite Hx, IH. }
  assert (Hd : ∀ d, Forall (λ kv, json_value kv.2 = true → tidy kv.2 = true →
      sort_json (sort_json kv.2) = sort_json kv.2) d →
    json_value (PDict d) = true → tidy (PDict d) = true →
    sort_json (sort_json (PDict d)) = sort_json (PDict d)).
  { intros d IH Hj Ht. rewrite sort_dict, sort_dict. f_equal.
    rewrite (members_of_sorted d sort_json) by done. rewrite map_map. cbn [fst snd].
    cbn [tidy] in Ht. bool_props. apply dict_values in Hj as Hjs.
    apply map_deep. rewrite members_perm. 
    clear Hj. induction IH as [|kv d Hx _ IHd]; [constructor|]. cbn [forallb map] in *. bool_props.
    constructor; [cbn [fst snd]; by rewrite Hx|]. apply IHd; try done. by apply NoDup_cons in H as [_ ?]. }
  induction v as [| | | | |l IH|l IH|d IH|d IH| |] using pyval_deep_ind; intros Hj Ht; try done.
  - cbn [arrange]. f_equal. by apply Hl.
  - cbn [arrange]. f_equal. by apply Hl.
  - by apply Hd.
  - by apply (Hd d).
Qed.

Lemma sort_tidy v : json_value v = true → tidy v = true → tidy (sort_json v) = true.
Proof.
  assert (Hl : ∀ l, Forall (λ v, json_value v = true → tidy v = true → tidy (sort_json v) = true) l →
    forallb json_value l = true → forallb tidy l = true → forallb tidy (map sort_json l) = true).
  { induction 1 as [|x l Hx _ IH]; [done|]. cbn [forallb map]. intros Hj Ht. bool_props. by rewrite Hx, IH. }
  assert (Hd : ∀ d, Forall (λ kv, json_value kv.2 = true → tidy kv.2 = true → tidy (sort_json kv.2) = true) d →
    json_value (PDict d) = true → tidy (PDict d) = true → tidy (sort_json (PDict d)) = true).
  { intros d IH Hj Ht. rewrite sort_dict. cbn [tidy]. rewrite map_map. cbn [fst].
    apply (members_distinct (sort_keys:=true) d Hj) in Ht as Hnd. cbn [tidy] in Ht. bool_props. apply dict_values in Hj.
    apply andb_true_intro. split.
    - apply bool_decide_eq_true. rewrite <- (map_map fst KStr). assert (Inj (=) (=) KStr) by (by intros ? ? [=]). by apply (NoDup_fmap_2 KStr).
    - assert (Hm : forallb (λ kv, tidy (sort_json kv.2)) (sorted_members d) = true).
      { rewrite (members_forallb (λ v, tidy (sort_json v))). clear Hnd H.
        induction IH as [|kv d Hx _ IHd]; [done|]. cbn [forallb] in *. bool_props. by rewrite Hx, IHd. }
      clear - Hm. induction (sorted_members d) as [|kv e IHe]; [done|]. cbn [forallb map] in *. bool_props.
      cbn [snd]. rewrite H. by apply IHe. }
  induction v as [| | | | |l IH|l IH|d IH|d IH| |] using pyval_deep_ind; intros Hj Ht; try done.
  - by apply Hl.
  - by apply (Hl l).
  - by apply Hd.
  - by apply (Hd d).
Qed.
