(* ===== verification/RedisStreams.v ===== *)
(** * The Redis stream transport

    Models [queueing/redis_streams.py]: the wire form of an envelope and
    [RedisStreamQueue].  The Redis client is the class [RedisClient], an
    argument of the operations; its commands may fail with a [RedisError].
    [create_redis_client] only passes settings to the client library. *)

From stdpp Require Import base gmap list strings.
From Stdlib Require Import ZArith Lia SpecFloat Ascii.
From S2P Require Import Prelude PyLib Json Events Identity Work Amounts Database EventStore.
From S2P Require Import Parsing Wire PyEquality JsonText Floats Publisher.

Local Open Scope Z_scope.

(** ** Text and bytes *)

(** [s.encode()] of a Latin-1 string, in UTF-8. *)
Fixpoint utf8_encode (s : string) : string :=
  match s with
  | EmptyString => EmptyString
  | String c s' =>
      let n := N_of_ascii c in
      if (n <? 128)%N then String c (utf8_encode s')
      else String (ascii_of_N (192 + n / 64)) (String (ascii_of_N (128 + n mod 64)) (utf8_encode s'))
  end.

(** [b.decode()]; [UnicodeDecodeError] is a [ValueError]. *)
Fixpoint utf8_decode (s : string) : result string :=
  match s with
  | EmptyString => inr EmptyString
  | String c s' =>
      let n := N_of_ascii c in
      if (n <? 128)%N then let? t := utf8_decode s' in inr (String c t)
      else
        match s' with
        | String d s'' =>
            let m := N_of_ascii d in
            if ((n =? 194)%N || (n =? 195)%N) && (128 <=? m)%N && (m <? 192)%N
            then let? t := utf8_decode s'' in inr (String (ascii_of_N ((n - 192) * 64 + (m - 128))) t)
            else inl (ValueError "UnicodeDecodeError")
        | EmptyString => inl (ValueError "UnicodeDecodeError")
        end
  end.

(** [int(v)] *)
Definition int_of_json (v : pyval) : result Z :=
  match v with
  | PInt z => inr z
  | PBool b => inr (if b then 1 else 0)
  | PStr s => int_of_text s
  | PFloat (S754_infinity _) => inl OverflowError
  | PFloat S754_nan => inl (ValueError "cannot convert float NaN to integer")
  | PFloat f => inr (f64_modf f).1
  | _ => inl (TypeError "int() argument must be a string or a real number")
  end.

(** The fields of a stream entry, by [bytes] or [str] name. *)
Abbreviation redis_fields := (list (pyval * pyval)).

Fixpoint field_get (key : pyval) (fields : redis_fields) : option pyval :=
  match fields with
  | [] => None
  | (k, v) :: fields' => if py_eqb k key then Some v else field_get key fields'
  end.

Definition _ENVELOPE_FIELD : pyval := PBytes "envelope".

Section Wire.
Context {Repr : PyRepr}.

Definition _text (v : pyval) : result string :=
  match v with PBytes b => utf8_decode b | _ => inr (py_str v) end.

Definition _encode_envelope (m : MessageEnvelope) : result string :=
  let? _ := validate_transport_size m in
  inr (utf8_encode (json_dumps (_envelope_body m))).

(** [UUID(str(value[key])) if value.get(key) is not None else None] *)
Definition optional_uuid (key : string) (value : pydict) : result (option uuid) :=
  match dict_get key value with
  | None | Some PNone => inr None
  | Some _ => let? u := payload_uuid key value in inr (Some u)
  end.

Definition str_of (key : string) (value : pydict) : result string :=
  let? v := subscript key value in inr (py_str v).

Context {Limit : RecursionLimit}.

(** The [try] block of [_decode_fields]. *)
Definition decode_body (raw : string) : result MessageEnvelope :=
  let? text := utf8_decode raw in
  let? value := json_loads text in
  match value with
  | PDict value =>
      let? payload := subscript "payload" value in
      let? headers := subscript "headers" value in
      match payload, headers with
      | PDict payload, PDict headers =>
          let? message_id := payload_uuid "message_id" value in
          let? tenant_id := str_of "tenant_id" value in
          let? work_id := payload_uuid "work_id" value in
          let? event_id := optional_uuid "event_id" value in
          let? destination := str_of "destination" value in
          let? correlation_id := payload_uuid "correlation_id" value in
          let? causation_id := optional_uuid "causation_id" value in
          let? occurred := str_of "occurred_at" value in
          let? occurred_at := fromisoformat occurred in
          let? version := subscript "schema_version" value in
          let? schema_version := int_of_json version in
          MessageEnvelope_post_init
            {| me_message_id := message_id; me_tenant_id := tenant_id; me_work_id := work_id;
               me_event_id := event_id; me_destination := destination;
               me_correlation_id := correlation_id; me_causation_id := causation_id;
               me_occurred_at := occurred_at; me_payload := payload; me_headers := headers;
               me_schema_version := schema_version |}
      | _, _ => inl (TypeError "")
      end
  | _ => inl (TypeError "")
  end.

(** The exceptions the [except] clause of [_decode_fields] names. *)
Definition except_decoding (e : exn) : bool :=
  match e with KeyError _ | RecursionError | TypeError _ | ValueError _ => true | _ => false end.

Definition _decode_fields (fields : redis_fields) : result MessageEnvelope :=
  let encoded := match field_get _ENVELOPE_FIELD fields with
                 | Some v => v
                 | None => default PNone (field_get (PStr "envelope") fields)
                 end in
  let? raw := match encoded with
              | PBytes b => inr b
              | PStr s => inr (utf8_encode s)
              | _ => inl (PoisonMessageError "stream entry has no envelope")
              end in
  raise! PoisonMessageError "message envelope exceeds 256 KiB"
    when! _MAX_ENVELOPE_BYTES <? PyStr.len raw ;;
  match decode_body raw with
  | inl e => if except_decoding e then inl (PoisonMessageError "invalid message envelope") else inl e
  | inr envelope => inr envelope
  end.
End Wire.

(** ** The client *)

Inductive redis_command : Type :=
| XACK (stream group : string) (id : string)
| XDEL (stream : string) (id : string)
| XADD (stream : string) (fields : redis_fields) (maxlen : Z).

Abbreviation stream_entry := (pyval * redis_fields)%type.

(** The commands the adapter uses.  [rc_pipeline] runs a MULTI/EXEC block. *)
Class RedisClient (R : Type) : Type := {
  rc_xgroup_create : string → string → string → M exn R unit;
  rc_xadd : string → redis_fields → M exn R pyval;
  rc_xreadgroup : string → string → string → Z → option Z → M exn R (list (pyval * list stream_entry));
  rc_pipeline : list redis_command → M exn R (list pyval);
  rc_xpending_range : string → string → string → string → Z → option Z → M exn R (list pydict);
  rc_xautoclaim : string → string → string → Z → string → Z → M exn R (pyval * list stream_entry);
  rc_ping : M exn R bool;
  rc_socket_timeout : option spec_float;
}.

Record PendingEntry : Type := mkPendingEntry {
  pe_stream_entry_id : string;
  pe_consumer : string;
  pe_idle_milliseconds : Z;
  pe_delivery_count : Z;
}.

(** ** The queue *)

Record RedisStreamQueue : Type := mkRedisStreamQueue {
  rq_stream : string;
  rq_group : string;
  rq_poison_stream : string;
}.

Definition RedisStreamQueue_init (stream group : string) : result RedisStreamQueue :=
  raise! ValueError "stream and group are required"
    when! PyStr.is_empty stream || PyStr.is_empty group ;;
  inr (mkRedisStreamQueue stream group (stream +:+ ":poison")).

(** The client and the adapter's own fields. *)
Record QueueState (R : Type) : Type := mkQueueState {
  qs_client : R;
  qs_group_ready : bool;
  qs_reclaim_cursor_by_consumer : gmap string string;
}.
Arguments mkQueueState {R}.
Arguments qs_client {R}.
Arguments qs_group_ready {R}.
Arguments qs_reclaim_cursor_by_consumer {R}.

Definition _classify_redis_error (e : exn) : exn :=
  match e with
  | RedisError (RedisConnection | RedisTimeout) _ => RetryableQueueError "redis transport unavailable"
  | RedisError RedisResponse text =>
      if contains "NOGROUP" text then RetryableQueueError "redis consumer group missing"
      else PermanentQueueError "redis operation rejected"
  | RedisError _ _ => PermanentQueueError "redis operation rejected"
  | e => e
  end.

Definition _validate_consumer_read (consumer : string) (count block_milliseconds : Z) : result unit :=
  raise! ValueError "consumer is required" when! PyStr.is_empty consumer ;;
  raise! ValueError "read count must be between 1 and 100"
    when! negb ((1 <=? count) && (count <=? 100)) ;;
  reject_if (negb ((0 <=? block_milliseconds) && (block_milliseconds <=? 60000)))
    (ValueError "block_milliseconds must be between 0 and 60000").

Definition _stream_entries (rows : list (pyval * list stream_entry)) : list stream_entry :=
  concat (map snd rows).

Section Queue.
Context {Repr : PyRepr} {Limit : RecursionLimit} {R : Type} {Client : RedisClient R}
  (queue : RedisStreamQueue).

Abbreviation Rq := (M exn (QueueState R)).

(** [await self._client.op(...)] *)
Definition on_client {A} (m : M exn R A) : Rq A := λ s,
  let '(r, client) := m (qs_client s) in
  (r, mkQueueState client (qs_group_ready s) (qs_reclaim_cursor_by_consumer s)).

Definition set_ready (b : bool) : Rq unit :=
  modify (λ s, mkQueueState (qs_client s) b (qs_reclaim_cursor_by_consumer s)).

Definition set_cursors (f : gmap string string → gmap string string) : Rq unit :=
  modify (λ s, mkQueueState (qs_client s) (qs_group_ready s) (f (qs_reclaim_cursor_by_consumer s))).

Definition _handle_nogroup (e : exn) : Rq unit :=
  match e with
  | RedisError RedisResponse text =>
      if contains "NOGROUP" text then do! set_ready false ;; set_cursors (λ _, ∅) else ret tt
  | _ => ret tt
  end.

(** [except RedisError as error: ...] around a command *)
Definition redis_guard {A} (m : Rq A) : Rq A :=
  catch m (λ e, match e with
                | RedisError _ _ => do! _handle_nogroup e ;; raise (_classify_redis_error e)
                | _ => raise e
                end).

Definition ensure_group : Rq unit :=
  let! ready := gets qs_group_ready in
  if ready : bool then ret tt else
  do! catch (on_client (rc_xgroup_create (rq_stream queue) (rq_group queue) "0-0"))
        (λ e, match e with
              | RedisError _ text =>
                  if contains "BUSYGROUP" text then ret tt else raise (_classify_redis_error e)
              | _ => raise e
              end) ;;
  set_ready true.

Definition publish (envelope : MessageEnvelope) : Rq string :=
  do! ensure_group ;;
  let! encoded := lift (_encode_envelope envelope) in
  let! result := redis_guard (on_client (rc_xadd (rq_stream queue) [(_ENVELOPE_FIELD, PBytes encoded)])) in
  lift (_text result).

Definition _quarantine_poison (stream_entry_id reason_code : string) : Rq unit :=
  redis_guard (
    do! on_client (rc_pipeline
          [XADD (rq_poison_stream queue)
             [(PBytes "source_entry_id", PBytes (utf8_encode stream_entry_id));
              (PBytes "reason_code", PBytes (utf8_encode reason_code))] 10000;
           XACK (rq_stream queue) (rq_group queue) stream_entry_id;
           XDEL (rq_stream queue) stream_entry_id]) ;;
    ret tt).

Fixpoint _decode_entries (entries : list stream_entry) (delivery_count idle_milliseconds : Z)
    : Rq (list QueueDelivery) :=
  match entries with
  | [] => ret []
  | (entry_id, fields) :: rest =>
      let! text_id := lift (_text entry_id) in
      match _decode_fields fields with
      | inl (PoisonMessageError _) =>
          do! _quarantine_poison text_id "invalid_envelope" ;;
          _decode_entries rest delivery_count idle_milliseconds
      | inl e => raise e
      | inr envelope =>
          let! delivery := lift (QueueDelivery_post_init
                (mkQueueDelivery text_id envelope delivery_count idle_milliseconds)) in
          let! deliveries := _decode_entries rest delivery_count idle_milliseconds in
          ret (delivery :: deliveries)
      end
  end.

(** The check of the blocking interval against the socket's timeout. *)
Definition check_socket_timeout (block_milliseconds : Z) : result unit :=
  match rc_socket_timeout with
  | Some timeout =>
      reject_if ((0 <? block_milliseconds)
                 && SFleb (f64_mul timeout (sf_of_Z 1000)) (sf_of_Z block_milliseconds))
        (ValueError "block_milliseconds must be less than the Redis socket timeout")
  | None => inr tt
  end.

Definition read (consumer : string) (count block_milliseconds : Z) : Rq (list QueueDelivery) :=
  do! ensure_group ;;
  do! lift (_validate_consumer_read consumer count block_milliseconds) ;;
  do! lift (check_socket_timeout block_milliseconds) ;;
  let! rows := redis_guard (on_client (rc_xreadgroup (rq_group queue) consumer (rq_stream queue) count
                 (if 0 <? block_milliseconds then Some block_milliseconds else None))) in
  _decode_entries (_stream_entries rows) 1 0.

Definition acknowledge (delivery : QueueDelivery) : Rq unit :=
  do! ensure_group ;;
  let! result := redis_guard (on_client (rc_pipeline
        [XACK (rq_stream queue) (rq_group queue) (qd_stream_entry_id delivery);
         XDEL (rq_stream queue) (qd_stream_entry_id delivery)])) in
  match result with
  | [] => raise IndexError
  | acknowledged :: _ =>
      let! n := lift (int_of_json acknowledged) in
      raise_if (negb ((n =? 0) || (n =? 1))) (PermanentQueueError "unexpected acknowledgement count")
  end.

Definition quarantine (delivery : QueueDelivery) (reason_code : string) : Rq unit :=
  do! raise_if (PyStr.is_empty reason_code || (128 <? PyStr.len reason_code))
        (ValueError "bounded reason_code is required") ;;
  _quarantine_poison (qd_stream_entry_id delivery) reason_code.

Definition pending_entry (row : pydict) : result PendingEntry :=
  let? id := subscript "message_id" row in
  let? stream_entry_id := _text id in
  let? name := subscript "consumer" row in
  let? consumer := _text name in
  let? idle := subscript "time_since_delivered" row in
  let? idle_milliseconds := int_of_value idle in
  let? times := subscript "times_delivered" row in
  let? delivery_count := int_of_value times in
  inr (mkPendingEntry stream_entry_id consumer idle_milliseconds delivery_count).

Definition pending (count minimum_idle_milliseconds : Z) (start_id end_id : string)
    : Rq (list PendingEntry) :=
  do! ensure_group ;;
  do! raise_if (negb ((1 <=? count) && (count <=? 1000)) || (minimum_idle_milliseconds <? 0)
                || PyStr.is_empty start_id || PyStr.is_empty end_id)
        (ValueError "invalid bounded pending query") ;;
  let! rows := redis_guard (on_client (rc_xpending_range (rq_stream queue) (rq_group queue) start_id
                 end_id count (if minimum_idle_milliseconds =? 0 then None
                               else Some minimum_idle_milliseconds))) in
  lift (map_result pending_entry rows).

(** The last entry of the dict comprehension with this key. *)
Definition metadata_get (id : string) (metadata : list PendingEntry) : option PendingEntry :=
  find (λ p, bool_decide (pe_stream_entry_id p = id)) (rev metadata).

Fixpoint decode_reclaimed (entries : list stream_entry) (metadata : list PendingEntry)
    (minimum_idle_milliseconds : Z) : Rq (list QueueDelivery) :=
  match entries with
  | [] => ret []
  | (entry_id, fields) :: rest =>
      let! text_id := lift (_text entry_id) in
      let '(count, idle) := match metadata_get text_id metadata with
                            | Some p => (pe_delivery_count p, pe_idle_milliseconds p)
                            | None => (2, minimum_idle_milliseconds)
                            end in
      let! decoded := _decode_entries [(entry_id, fields)] count idle in
      let! deliveries := decode_reclaimed rest metadata minimum_idle_milliseconds in
      ret (decoded ++ deliveries)
  end.

Definition reclaim (consumer : string) (minimum_idle_milliseconds count : Z)
    : Rq (list QueueDelivery) :=
  do! ensure_group ;;
  do! raise_if (PyStr.is_empty consumer || (minimum_idle_milliseconds <? 1)
                || negb ((1 <=? count) && (count <=? 100)))
        (ValueError "invalid bounded reclaim request") ;;
  let! cursors := gets qs_reclaim_cursor_by_consumer in
  let start_id := default "0-0"%string (cursors !! consumer) in
  let! result := redis_guard (on_client (rc_xautoclaim (rq_stream queue) (rq_group queue) consumer
                   minimum_idle_milliseconds start_id count)) in
  let! next_cursor := lift (_text result.1) in
  do! set_cursors <[consumer := next_cursor]> ;;
  match result.2 with
  | [] => ret []
  | entries =>
      let! metadata := pending count 0 start_id
                         (if bool_decide (next_cursor = "0-0"%string) then "+" else next_cursor) in
      decode_reclaimed entries metadata minimum_idle_milliseconds
  end.

Definition health : Rq bool :=
  catch (on_client rc_ping) (λ e, match e with RedisError _ _ => ret false | _ => raise e end).
End Queue.
