(* ===== verification/RedisTheorems.v ===== *)
(** * Theorems about the Redis stream transport

    The wire form loses nothing, undecodable entries are quarantined and the
    others delivered, and failures of Redis are classified. *)

From stdpp Require Import base gmap list strings pretty.
From Stdlib Require Import ZArith Lia SpecFloat Ascii.
From S2P Require Import Prelude PyLib Json Events Identity Work Amounts Database EventStore.
From S2P Require Import Ledger Raises LedgerReads LedgerAppend LedgerTheorems Parsing ParsingTheorems Outbox.
From S2P Require Import Wire PyEquality Calendar JsonText WorkRepository WorkLedger WorkTheorems WorkSafety.
From S2P Require Import Floats Publisher Delivery RedisStreams.

Local Open Scope Z_scope.

(** ** Encodings *)

Lemma utf8_roundtrip s : utf8_decode (utf8_encode s) = inr s.
Proof.
  induction s as [|c s IH]; [done|]. cbn [utf8_encode].
  destruct c as [[] [] [] [] [] [] [] []]; cbv -[utf8_encode utf8_decode rbind] ; cbn [utf8_decode];
    cbv -[utf8_encode utf8_decode rbind]; by rewrite IH.
Qed.

Lemma utf8_ascii s : all_chars is_ascii s = true → utf8_encode s = s.
Proof.
  induction s as [|c s IH]; [done|]. cbn [all_chars utf8_encode]. unfold is_ascii at 1.
  intros [-> Hs]%andb_prop. by rewrite IH.
Qed.

Lemma escape_ascii s : all_chars is_ascii (json_escape s) = true.
Proof.
  induction s as [|c s IH]; [done|]. cbn [json_escape]. rewrite all_chars_app, IH, andb_true_r.
  clear. revert c. intros c. each_char c.
Qed.

Lemma json_string_ascii s : all_chars is_ascii (json_string s) = true.
Proof. unfold json_string. cbn [all_chars]. by rewrite all_chars_app, escape_ascii. Qed.

Lemma pretty_ascii (z : Z) : all_chars is_ascii (pretty z) = true.
Proof.
  assert (Hd : ∀ n : Z, 0 ≤ n → all_chars is_ascii (pretty n) = true).
  { intros n Hn. destruct (pretty_digits n Hn) as (Hd & _).
    eapply all_chars_impl; [|exact Hd]. clear. intros c. each_char c. }
  destruct (Z.leb_spec 0 z) as [Hz|Hz]; [by apply Hd|].
  assert (Hneg : pretty z = String "-" (pretty (Z.abs z))) by (by destruct z).
  rewrite Hneg. cbn [all_chars]. by rewrite Hd by lia.
Qed.

Lemma join_ascii l : Forall (λ s, all_chars is_ascii s = true) l → all_chars is_ascii (join "," l) = true.
Proof.
  induction 1 as [|s [|s' l] Hs _ IH]; [done|done|].
  change (join "," (s :: s' :: l)) with (s +:+ "," +:+ join "," (s' :: l)).
  by rewrite !all_chars_app, Hs, IH.
Qed.

Section Theorems.
Context {Repr : PyRepr}.

Lemma dumps_ascii v : textual v = true → all_chars is_ascii (json_dumps v) = true.
Proof.
  assert (Hlist : ∀ l, Forall (λ v, textual v = true → all_chars is_ascii (json_dumps v) = true) l →
    forallb textual l = true → all_chars is_ascii (json_dumps (PList l)) = true).
  { intros l IH Hl. cbn [dumps]. rewrite !all_chars_app, join_ascii; [done|].
    induction IH as [|x l Hx _ IHl]; [constructor|]. cbn [forallb] in Hl. bool_props.
    constructor; auto. }
  assert (Hdict : ∀ d : pydict, Forall (λ kv, textual kv.2 = true → all_chars is_ascii (json_dumps kv.2) = true) d →
    forallb (λ kv, textual kv.2) d = true → all_chars is_ascii (json_dumps (PDict d)) = true).
  { intros d IH Hd. rewrite (proj1 (dumps_dict d)), !all_chars_app, join_ascii; [done|].
    rewrite members_perm, map_map. induction IH as [|[k x] d Hx _ IHd]; [constructor|].
    cbn [forallb snd] in *. bool_props. constructor; [|by apply IHd].
    unfold member_text. cbn [fst snd]. by rewrite !all_chars_app, json_string_ascii, Hx. }
  induction v as [|b|z|f|s|l IH|l IH|d IH|d IH| |] using pyval_deep_ind; intros Ht; try done.
  - by destruct b.
  - apply pretty_ascii.
  - apply json_string_ascii.
  - by apply Hlist.
  - by apply (Hlist l).
  - by apply Hdict.
  - rewrite (proj2 (dumps_dict d)). by apply Hdict.
Qed.
Context {Limit : RecursionLimit}.

(** An envelope as [MessageEnvelope] constructs it, whose text the library
    reads back. *)
Record sound_envelope (m : MessageEnvelope) : Prop := {
  se_built : MessageEnvelope_post_init m = inr m;
  se_payload : frozen_dict (me_payload m) = true ∧ tidy (PProxy (me_payload m)) = true ∧
    textual (PProxy (me_payload m)) = true;
  se_headers : frozen_dict (me_headers m) = true ∧ tidy (PProxy (me_headers m)) = true ∧
    textual (PProxy (me_headers m)) = true;
  se_nests : nests (_envelope_body m) recursion_limit = true;
  se_occurred : in_range (me_occurred_at m);
  se_ids : Uuid.valid (me_message_id m) ∧ Uuid.valid (me_work_id m) ∧ Uuid.valid (me_correlation_id m);
  se_event : ∀ u, me_event_id m = Some u → Uuid.valid u;
  se_causation : ∀ u, me_causation_id m = Some u → Uuid.valid u;
}.

(** The same payload up to the order of its members. *)
Definition same_mapping (p q : pydict) : Prop :=
  frozen_dict p = true ∧ tidy (PProxy p) = true ∧ sort_json (PProxy p) = sort_json (PProxy q).

(** The envelope with its payload and headers in another order. *)
Definition with_mappings (m : MessageEnvelope) (payload headers : pydict) : MessageEnvelope :=
  {| me_message_id := me_message_id m; me_tenant_id := me_tenant_id m; me_work_id := me_work_id m;
     me_event_id := me_event_id m; me_destination := me_destination m;
     me_correlation_id := me_correlation_id m; me_causation_id := me_causation_id m;
     me_occurred_at := me_occurred_at m; me_payload := payload; me_headers := headers;
     me_schema_version := me_schema_version m |}.

Lemma textual_thaw v : textual (thaw_json v) = textual v.
Proof.
  assert (Hl : ∀ l, Forall (λ v, textual (thaw_json v) = textual v) l →
    forallb textual (map thaw_json l) = forallb textual l).
  { induction 1 as [|x l Hx _ IH]; [done|]. simpl. by rewrite Hx, IH. }
  assert (Hd : ∀ d : pydict, Forall (λ kv, textual (thaw_json kv.2) = textual kv.2) d →
    forallb (λ kv, textual kv.2) (map (λ '(k, item), (k, thaw_json item)) d) = forallb (λ kv, textual kv.2) d).
  { induction 1 as [|[k x] d Hx _ IH]; [done|]. simpl in *. by rewrite Hx, IH. }
  induction v as [| | | | |l IH|l IH|d IH|d IH| |] using pyval_deep_ind; try done; cbn [thaw_json textual]; auto.
Qed.

Lemma thawed_json d : frozen_dict d = true → json_value (thaw_json (PProxy d)) = true.
Proof. intros Hd. rewrite (proj1 (thaw_value _)). by apply frozen_value. Qed.

Lemma envelope_version m : MessageEnvelope_post_init m = inr m → me_schema_version m = 1.
Proof. unfold MessageEnvelope_post_init. intros Hb. py_inv. by bool_props. Qed.

(** The message body is JSON the library reads back. *)
Lemma body_readable m : sound_envelope m →
  json_value (_envelope_body m) = true ∧ tidy (_envelope_body m) = true ∧ textual (_envelope_body m) = true.
Proof.
  intros [Hb (Hpf & Hpt & Hpx) (Hhf & Hht & Hhx) _ _ _ _ _].
  apply envelope_version in Hb as Hver.
  pose proof (thawed_json _ Hpf) as Hpj. pose proof (thawed_json _ Hhf) as Hhj.
  pose proof (proj2 (thaw_value (PProxy (me_payload m)))) as Hpt'.
  pose proof (proj2 (thaw_value (PProxy (me_headers m)))) as Hht'.
  pose proof (textual_thaw (PProxy (me_payload m))) as Hpx'.
  pose proof (textual_thaw (PProxy (me_headers m))) as Hhx'.
  rewrite Hpt in Hpt'. rewrite Hht in Hht'. rewrite Hpx in Hpx'. rewrite Hhx in Hhx'.
  unfold _envelope_body. revert Hpj Hhj Hpt' Hht' Hpx' Hhx'.
  generalize (thaw_json (PProxy (me_payload m))) (thaw_json (PProxy (me_headers m))). intros p h Hpj Hhj Hpt' Hht' Hpx' Hhx'.
  set (d := dict_of _).
  assert (Hkeys : map fst d = map KStr ["schema_version"; "message_id"; "tenant_id"; "work_id"; "event_id";
    "destination"; "correlation_id"; "causation_id"; "occurred_at"; "payload"; "headers"]%string) by done.
  assert (Hnd : NoDup (map fst d)).
  { rewrite Hkeys. apply (bool_decide_unpack _). by vm_compute. }
  split_and!.
  - change (json_value (PDict d)) with
      (json_value (optional_uuid_text (me_event_id m)) && (json_value (optional_uuid_text (me_causation_id m))
       && (json_value p && (json_value h && true)))).
    rewrite Hpj, Hhj. by destruct (me_event_id m), (me_causation_id m).
  - change (tidy (PDict d)) with (bool_decide (NoDup (map fst d)) &&
      (tidy (optional_uuid_text (me_event_id m)) && (tidy (optional_uuid_text (me_causation_id m))
       && (tidy p && (tidy h && true))))).
    rewrite bool_decide_true, Hpt', Hht' by done. by destruct (me_event_id m), (me_causation_id m).
  - change (textual (PDict d)) with (textual (PInt (me_schema_version m)) &&
      (textual (optional_uuid_text (me_event_id m)) && (textual (optional_uuid_text (me_causation_id m))
       && (textual p && (textual h && true))))).
    rewrite Hpx', Hhx', Hver. by destruct (me_event_id m), (me_causation_id m).
Qed.

(** The body as [json.loads] returns it. *)
Definition received_body (m : MessageEnvelope) : pydict :=
  [(KStr "causation_id", optional_uuid_text (me_causation_id m));
   (KStr "correlation_id", PStr (Uuid.to_str (me_correlation_id m)));
   (KStr "destination", PStr (me_destination m));
   (KStr "event_id", optional_uuid_text (me_event_id m));
   (KStr "headers", sort_json (PProxy (me_headers m)));
   (KStr "message_id", PStr (Uuid.to_str (me_message_id m)));
   (KStr "occurred_at", PStr (isoformat (me_occurred_at m)));
   (KStr "payload", sort_json (PProxy (me_payload m)));
   (KStr "schema_version", PInt (me_schema_version m));
   (KStr "tenant_id", PStr (me_tenant_id m));
   (KStr "work_id", PStr (Uuid.to_str (me_work_id m)))]%string.

Lemma body_received m : sort_json (_envelope_body m) = PDict (received_body m).
Proof.
  unfold _envelope_body, received_body. rewrite <- (sort_thaw (PProxy (me_payload m))), <- (sort_thaw (PProxy (me_headers m))).
  generalize (thaw_json (PProxy (me_payload m))) (thaw_json (PProxy (me_headers m))). intros p h.
  by destruct (me_causation_id m), (me_event_id m).
Qed.

(** A frozen mapping comes back frozen, in the order of its text. *)
Lemma refrozen p : frozen_dict p = true → tidy (PProxy p) = true →
  ∃ d q, sort_json (PProxy p) = PDict d ∧ freeze_json_mapping d = inr q ∧ same_mapping q p.
Proof.
  intros Hp Ht. destruct (sort_json (PProxy p)) as [| | | | | | |d| | |] eqn:Hs; try done.
  assert (Hj : json_value (PDict d) = true).
  { rewrite <- Hs. apply sort_json_value. by apply frozen_value. }
  destruct (freeze_mapping_complete d) as (q & Hq & Hf & Hthaw); [|done|].
  { clear. induction d as [|kv d IH]; constructor; [apply freeze_json_complete|done]. }
  exists d, q. split; [done|]. split; [done|]. split; [done|]. split.
  { rewrite <- (proj2 (thaw_value _)). change (thaw_json (PProxy q)) with (thaw_json (PDict q)) in *.
    rewrite Hthaw, (proj2 (thaw_value _)), <- Hs. apply sort_tidy; [by apply frozen_value|done]. }
  rewrite <- (sort_thaw (PProxy q)), Hthaw, sort_thaw, <- Hs. apply sort_idempotent; [by apply frozen_value|done].
Qed.

Lemma optional_uuid_back b key u : dict_get key b = Some (optional_uuid_text u) →
  (∀ x, u = Some x → Uuid.valid x) → optional_uuid key b = inr u.
Proof.
  intros Hg Hv. unfold optional_uuid, payload_uuid, subscript. rewrite Hg.
  destruct u as [x|]; [|done]. cbn [optional_uuid_text rbind py_str]. by rewrite uuid_roundtrip by by apply Hv.
Qed.

Lemma rebuilt m dp dh p h : MessageEnvelope_post_init m = inr m →
  freeze_json_mapping dp = inr p → freeze_json_mapping dh = inr h →
  MessageEnvelope_post_init (with_mappings m dp dh) = inr (with_mappings m p h).
Proof.
  unfold MessageEnvelope_post_init. intros Hb Hp Hh. cbn [with_mappings me_tenant_id me_destination
    me_occurred_at me_schema_version me_payload me_headers].
  unfold reject_if in *. repeat (case_match; try done). rewrite Hp, Hh. done.
Qed.

Lemma decoded_body m : sound_envelope m →
  ∃ p h, same_mapping p (me_payload m) ∧ same_mapping h (me_headers m) ∧
    decode_body (utf8_encode (json_dumps (_envelope_body m))) = inr (with_mappings m p h).
Proof.
  intros Hm. pose proof (body_readable m Hm) as (Hj & Ht & Hx).
  destruct Hm as [Hb (Hpf & Hpt & Hpx) (Hhf & Hht & Hhx) Hn Hat (Hmid & Hwid & Hcid) Heid Hcause].
  destruct (refrozen _ Hpf Hpt) as (dp & p & Hdp & Hfp & Hsp).
  destruct (refrozen _ Hhf Hht) as (dh & h & Hdh & Hfh & Hsh).
  exists p, h. split; [done|]. split; [done|].
  unfold decode_body. rewrite utf8_roundtrip. cbn [rbind].
  rewrite loads_dumps by done. cbn [rbind]. rewrite body_received. set (b := received_body m).
  assert (Hg1 : dict_get "payload" b = Some (sort_json (PProxy (me_payload m)))) by done.
  assert (Hg2 : dict_get "headers" b = Some (sort_json (PProxy (me_headers m)))) by done.
  assert (Hg3 : dict_get "message_id" b = Some (PStr (Uuid.to_str (me_message_id m)))) by done.
  assert (Hg4 : dict_get "tenant_id" b = Some (PStr (me_tenant_id m))) by done.
  assert (Hg5 : dict_get "work_id" b = Some (PStr (Uuid.to_str (me_work_id m)))) by done.
  assert (Hg6 : dict_get "event_id" b = Some (optional_uuid_text (me_event_id m))) by done.
  assert (Hg7 : dict_get "destination" b = Some (PStr (me_destination m))) by done.
  assert (Hg8 : dict_get "correlation_id" b = Some (PStr (Uuid.to_str (me_correlation_id m)))) by done.
  assert (Hg9 : dict_get "causation_id" b = Some (optional_uuid_text (me_causation_id m))) by done.
  assert (Hg10 : dict_get "occurred_at" b = Some (PStr (isoformat (me_occurred_at m)))) by done.
  assert (Hg11 : dict_get "schema_version" b = Some (PInt (me_schema_version m))) by done.
  clearbody b. unfold subscript, str_of, payload_uuid, subscript. rewrite Hg1, Hg2, Hdp, Hdh. cbn [rbind].
  rewrite Hg3, Hg4, Hg5, Hg7, Hg8, Hg10, Hg11. cbn [rbind py_str].
  rewrite !uuid_roundtrip by done. cbn [rbind].
  rewrite (optional_uuid_back b "event_id" _ Hg6 Heid), (optional_uuid_back b "causation_id" _ Hg9 Hcause).
  cbn [rbind]. unfold fromisoformat. rewrite isoformat_roundtrip by done. cbn [rbind int_of_json].
  exact (rebuilt m dp dh p h Hb Hfp Hfh).
Qed.

(** A decoded entry of an encoded envelope is the envelope, up to the order of
    the members of its payload and headers. *)
Lemma wire_roundtrip m raw : sound_envelope m → _encode_envelope m = inr raw →
  ∃ p h, same_mapping p (me_payload m) ∧ same_mapping h (me_headers m) ∧
    _decode_fields [(_ENVELOPE_FIELD, PBytes raw)] = inr (with_mappings m p h).
Proof.
  intros Hm Henc. destruct (decoded_body m Hm) as (p & h & Hp & Hh & Hbody). exists p, h.
  split; [done|]. split; [done|].
  assert (Hascii : all_chars is_ascii (json_dumps (_envelope_body m)) = true)
    by (apply dumps_ascii; by destruct (body_readable m Hm) as (_ & _ & ?)).
  unfold _encode_envelope, validate_transport_size, reject_if in Henc.
  generalize dependent (json_dumps (_envelope_body m)). intros text Henc Hbody Hascii.
  destruct (_MAX_ENVELOPE_BYTES <? PyStr.len text) eqn:Hsize; [done|].
  cbn [rbind] in Henc. injection Henc as <-. unfold _decode_fields.
  assert (Hget : ∀ v, field_get _ENVELOPE_FIELD [(_ENVELOPE_FIELD, v)] = Some v) by done.
  rewrite Hget. cbn [rbind]. unfold reject_if.
  rewrite (utf8_ascii text Hascii) in *. by rewrite Hsize, Hbody.
Qed.
End Theorems.
