(* ===== verification/RedisQueue.v ===== *)
(** * What the stream queue does with its entries and its failures

    Every entry read is either handed out or quarantined, in order, unless its
    [schema_version] is an infinity; a missing consumer group is created again
    by the next operation; no client error reaches the worker unclassified. *)

From stdpp Require Import base gmap list strings.
From Stdlib Require Import ZArith Lia SpecFloat Ascii.
From S2P Require Import Prelude PyLib Json Events Identity Work Amounts Database EventStore.
From S2P Require Import Ledger Raises Parsing Wire PyEquality Calendar JsonText Floats Publisher.
From S2P Require Import RedisStreams.

Local Open Scope Z_scope.

(** ** Errors of decoding *)

Abbreviation poisonous := (raises_result (λ e, except_decoding e = true)).

#[local] Hint Extern 2 (except_decoding _ = true) => reflexivity : raises.

Ltac decoding_solve :=
  cbv zeta;
  repeat first [ solve [eauto 5 with raises] | apply raises_rbind; [|intros ?] | case_match ];
  eauto 6 with raises.

Lemma poisonous_utf8 s : poisonous (utf8_decode s).
Proof.
  induction s as [s IH] using (induction_ltof1 _ String.length). unfold ltof in IH.
  destruct s as [|c s]; cbn [utf8_decode]; [auto with raises|]. case_match.
  - apply raises_rbind; [apply IH; simpl; lia|auto with raises].
  - destruct s as [|d s]; [auto with raises|]. case_match; [|auto with raises].
    apply raises_rbind; [apply IH; simpl; lia|auto with raises].
Qed.

Lemma poisonous_string s : poisonous (scan_string s).
Proof.
  induction s as [s IH] using (induction_ltof1 _ String.length). unfold ltof in IH.
  destruct s as [|c s]; cbn [scan_string]; [auto with raises|].
  case_match; [auto with raises|]. case_match.
  - destruct s as [|e s]; [auto with raises|]. case_match.
    + apply raises_rbind; [apply IH; simpl; lia|auto with raises].
    + destruct s as [|h1 [|h2 [|h3 [|h4 s]]]]; try (auto with raises). case_match; [|auto with raises].
      case_match; [|auto with raises]. apply raises_rbind; [auto with raises|intros _].
      apply raises_rbind; [apply IH; simpl; lia|auto with raises].
  - case_match; [auto with raises|]. apply raises_rbind; [apply IH; simpl; lia|auto with raises].
Qed.
#[local] Hint Resolve poisonous_utf8 poisonous_string : raises.

Lemma poisonous_members scan fuel s : (∀ s, poisonous (scan s)) → poisonous (scan_members scan fuel s).
Proof.
  intros Hscan. revert s. induction fuel as [|fuel IH]; intros [|c s]; cbn [scan_members]; decoding_solve.
Qed.

Lemma poisonous_elements scan fuel s : (∀ s, poisonous (scan s)) → poisonous (scan_elements scan fuel s).
Proof.
  intros Hscan. revert s. induction fuel as [|fuel IH]; intros s; cbn [scan_elements]; decoding_solve.
Qed.

Lemma poisonous_number s : poisonous (scan_number s).
Proof.
  assert (Hu : ∀ b s, poisonous (unsigned_number b s)).
  { intros b s'. unfold unsigned_number. generalize (leading s'). intros l. decoding_solve. }
  unfold scan_number. destruct s as [|c s]; [apply Hu|]. destruct c as [[] [] [] [] [] [] [] []]; apply Hu.
Qed.
#[local] Hint Resolve poisonous_members poisonous_elements poisonous_number : raises.

Lemma poisonous_value depth s : poisonous (scan_value depth s).
Proof.
  revert s. induction depth as [|depth IH]; intros [|c s]; cbn [scan_value]; decoding_solve.
Qed.
#[local] Hint Resolve poisonous_value : raises.

Lemma poisonous_loads {Limit : RecursionLimit} s : poisonous (json_loads s).
Proof. unfold json_loads. decoding_solve. Qed.
#[local] Hint Resolve @poisonous_loads : raises.

Lemma poisonous_subscript key d : poisonous (subscript key d).
Proof. unfold subscript. decoding_solve. Qed.
Lemma poisonous_uuid_text s : poisonous (uuid_of_str s).
Proof. unfold uuid_of_str. decoding_solve. Qed.
Lemma poisonous_iso s : poisonous (fromisoformat s).
Proof. unfold fromisoformat. decoding_solve. Qed.
Lemma poisonous_int_text s : poisonous (int_of_text s).
Proof.
  unfold int_of_text. destruct (PyStr.strip s) as [|c t]; [auto with raises|].
  destruct c as [[] [] [] [] [] [] [] []]; case_match; auto with raises.
Qed.
Lemma poisonous_freeze d : poisonous (freeze_json_mapping d).
Proof. intros e He. apply freeze_mapping_error in He. by destruct e. Qed.
#[local] Hint Resolve poisonous_subscript poisonous_uuid_text poisonous_iso poisonous_int_text
  poisonous_freeze : raises.

Lemma poisonous_envelope m : poisonous (MessageEnvelope_post_init m).
Proof. unfold MessageEnvelope_post_init. decoding_solve. Qed.

(** [int] overflows on an infinity only. *)
Lemma int_of_json_error v e : int_of_json v = inl e →
  except_decoding e = true ∨ e = OverflowError ∧ ∃ sign, v = PFloat (S754_infinity sign).
Proof.
  destruct v as [| | |f|s| | | | | |]; cbn [int_of_json]; intros He; try done.
  all: try (left; by injection He as <-).
  - destruct f; try done; injection He as <-; eauto.
  - left. by apply (poisonous_int_text s).
Qed.

Section Entries.
Context {Repr : PyRepr} {Limit : RecursionLimit}.

Lemma poisonous_uuid key d : poisonous (payload_uuid key d).
Proof. unfold payload_uuid. decoding_solve. Qed.
Lemma poisonous_str key d : poisonous (str_of key d).
Proof. unfold str_of. decoding_solve. Qed.
#[local] Hint Resolve poisonous_uuid poisonous_str poisonous_envelope : raises.
Lemma poisonous_optional key d : poisonous (optional_uuid key d).
Proof. unfold optional_uuid. decoding_solve. Qed.
#[local] Hint Resolve poisonous_optional : raises.

(** A body whose [schema_version] is an infinity, which JSON does not have but
    [json.loads] reads. *)
Definition infinite_version (raw : string) : Prop :=
  ∃ text value sign, utf8_decode raw = inr text ∧ json_loads text = inr (PDict value) ∧
    dict_get "schema_version" value = Some (PFloat (S754_infinity sign)).

Lemma decode_body_error raw e : decode_body raw = inl e →
  except_decoding e = true ∨ e = OverflowError ∧ infinite_version raw.
Proof.
  unfold decode_body. intros Hr. apply rbind_err in Hr as [Hr|(text & Htext & Hr)]; [left; by eapply poisonous_utf8|].
  apply rbind_err in Hr as [Hr|(value & Hvalue & Hr)]; [left; by eapply poisonous_loads|].
  destruct value as [| | | | | | |value| | |]; try (left; by injection Hr as <-).
  apply rbind_err in Hr as [Hr|(p & Hp & Hr)]; [left; by eapply poisonous_subscript|].
  apply rbind_err in Hr as [Hr|(h & Hh & Hr)]; [left; by eapply poisonous_subscript|].
  destruct p, h; try (left; by injection Hr as <-).
  do 8 (apply rbind_err in Hr as [Hr|(? & _ & Hr)];
    [left; first [by eapply poisonous_uuid|by eapply poisonous_str|by eapply poisonous_optional]|]).
  apply rbind_err in Hr as [Hr|(? & _ & Hr)]; [left; by eapply poisonous_iso|].
  apply rbind_err in Hr as [Hr|(v & Hv & Hr)]; [left; by eapply poisonous_subscript|].
  apply rbind_err in Hr as [Hr|(? & _ & Hr)]; [|left; by eapply poisonous_envelope].
  apply int_of_json_error in Hr as [Hr|(-> & sign & ->)]; [by left|]. right. split; [done|].
  exists text, value, sign. split; [done|]. split; [done|].
  unfold subscript in Hv. destruct (dict_get _ value); [|done]. by injection Hv as ->.
Qed.

(** The bytes of an entry's envelope. *)
Definition entry_bytes (fields : redis_fields) : option string :=
  match field_get _ENVELOPE_FIELD fields with
  | Some v => match v with PBytes b => Some b | PStr s => Some (utf8_encode s) | _ => None end
  | None =>
      match field_get (PStr "envelope") fields with
      | Some (PBytes b) => Some b
      | Some (PStr s) => Some (utf8_encode s)
      | _ => None
      end
  end.

(** A decoded entry is an envelope or poison, or overflows. *)
Lemma decode_fields_outcome fields :
  (∃ m, _decode_fields fields = inr m) ∨ (∃ msg, _decode_fields fields = inl (PoisonMessageError msg)) ∨
  (_decode_fields fields = inl OverflowError ∧
    ∃ raw, entry_bytes fields = Some raw ∧ infinite_version raw).
Proof.
  assert (Hbody : ∀ raw, entry_bytes fields = Some raw →
    let r := raise! PoisonMessageError "message envelope exceeds 256 KiB"
      when! _MAX_ENVELOPE_BYTES <? PyStr.len raw ;;
    match decode_body raw with
    | inl e => if except_decoding e then inl (PoisonMessageError "invalid message envelope") else inl e
    | inr envelope => inr envelope
    end in
    (∃ m, r = inr m) ∨ (∃ msg, r = inl (PoisonMessageError msg)) ∨
    (r = inl OverflowError ∧ ∃ raw, entry_bytes fields = Some raw ∧ infinite_version raw)).
  { intros raw Hraw. unfold reject_if. destruct (_ <? PyStr.len raw); [right; left; by eexists|].
    cbn [rbind]. destruct (decode_body raw) as [e|m] eqn:Hd; [|left; by eexists].
    apply decode_body_error in Hd as [->|[-> Hinf]]; [right; left; by eexists|].
    right. right. split; [done|]. by exists raw. }
  unfold _decode_fields, entry_bytes in *. destruct (field_get _ENVELOPE_FIELD fields) as [v|].
  - destruct v; try (right; left; by eexists); by apply Hbody.
  - destruct (field_get (PStr "envelope") fields) as [v|]; [|right; left; by eexists].
    destruct v; try (right; left; by eexists); by apply Hbody.
Qed.

(** The deliveries handed out for entries read together, and the entries
    taken for poison. *)
Definition handed_out (entries : list stream_entry) (count idle : Z) : list QueueDelivery :=
  omap (λ entry, match _text entry.1, _decode_fields entry.2 with
                 | inr id, inr m => Some (mkQueueDelivery id m count idle)
                 | _, _ => None
                 end) entries.

Definition poison_ids (entries : list stream_entry) : list string :=
  omap (λ entry, match _text entry.1, _decode_fields entry.2 with
                 | inr id, inl (PoisonMessageError _) => Some id
                 | _, _ => None
                 end) entries.

(** An entry id the client returns, and a version that is no infinity. *)
Definition regular (entry : stream_entry) : Prop :=
  (∃ id, _text entry.1 = inr id ∧ PyStr.is_empty id = false) ∧
  (∀ raw, entry_bytes entry.2 = Some raw → ¬ infinite_version raw).

Context {R : Type} {Client : RedisClient R} (queue : RedisStreamQueue).

Lemma text_env_bind {A B} (m : M exn (QueueState R) A) (k : A → M exn (QueueState R) B) s r s' :
  m s = (r, s') → bind m k s = match r with inl e => (inl e, s') | inr a => k a s' end.
Proof. unfold bind. intros ->. by destruct r. Qed.

(** C25. Every entry of a batch is handed out or quarantined: on entries whose
    ids are text and none of whose envelopes carries an infinite
    [schema_version], decoding quarantines the poison ones in order, each once,
    stops at the first quarantine that fails and otherwise returns a delivery
    for each other entry, in order. *)
Theorem entries_delivered_or_quarantined entries count idle s :
  Forall regular entries → 1 <= count → 0 <= idle →
  _decode_entries queue entries count idle s =
  (do! for_each (poison_ids entries) (λ id, _quarantine_poison queue id "invalid_envelope") ;;
   ret (handed_out entries count idle)) s.
Proof.
  intros Hreg Hcount Hidle. revert s. induction Hreg as [|[entry_id fields] entries [(id & Hid & Hne) Hinf] Hreg IH];
    intros s; [done|].
  cbn [_decode_entries fst snd] in *. erewrite bind_run; [|unfold lift; by rewrite Hid].
  unfold poison_ids, handed_out in *. cbn [omap list_omap fst snd]. rewrite Hid.
  destruct (decode_fields_outcome fields) as [[m Hm]|[[msg Hm]|[_ (raw & Hraw & Hi)]]];
    [| |by destruct (Hinf raw Hraw)]; rewrite Hm.
  - assert (Hinit : QueueDelivery_post_init (mkQueueDelivery id m count idle) =
      inr (mkQueueDelivery id m count idle)).
    { unfold QueueDelivery_post_init, reject_if. cbn [qd_stream_entry_id qd_delivery_count qd_idle_milliseconds].
      rewrite Hne. by rewrite (proj2 (Z.ltb_ge _ _)), (proj2 (Z.ltb_ge _ _)) by lia. }
    erewrite bind_run; [|unfold lift; by rewrite Hinit].
    unfold bind at 1. rewrite IH. unfold bind. by destruct (for_each _ _ s) as [[e|[]] s'].
  - cbn [for_each]. unfold bind at 1. unfold bind at 1 2.
    destruct (_quarantine_poison queue id _ s) as [[e|[]] s']; [done|]. by rewrite IH.
Qed.

(** An envelope whose [schema_version] is an infinity is no poison for the
    queue: the [OverflowError] of [int] is not among the caught exceptions,
    and leaves the queue with nothing acknowledged or quarantined. *)
Theorem infinite_version_escapes entry_id fields entries count idle id s :
  _text entry_id = inr id → _decode_fields fields = inl OverflowError →
  _decode_entries queue ((entry_id, fields) :: entries) count idle s = (inl OverflowError, s).
Proof.
  intros Hid Hf. cbn [_decode_entries]. erewrite bind_run; [|unfold lift; by rewrite Hid]. by rewrite Hf.
Qed.

(** ** Failures *)

Definition is_redis_error (e : exn) : Prop := match e with RedisError _ _ => True | _ => False end.

Lemma redis_error_inv e : is_redis_error e → ∃ c text, e = RedisError c text.
Proof. destruct e; simpl; intros He; try contradiction. by eexists _, _. Qed.

(** A client that fails with the library's errors only. *)
Record redis_errors_only : Prop := {
  ro_xgroup_create : ∀ stream group id, raises is_redis_error (rc_xgroup_create stream group id);
  ro_xadd : ∀ stream fields, raises is_redis_error (rc_xadd stream fields);
  ro_xreadgroup : ∀ group consumer stream count block,
    raises is_redis_error (rc_xreadgroup group consumer stream count block);
  ro_pipeline : ∀ commands, raises is_redis_error (rc_pipeline commands);
  ro_xpending_range : ∀ stream group min max count idle,
    raises is_redis_error (rc_xpending_range stream group min max count idle);
  ro_xautoclaim : ∀ stream group consumer idle start count,
    raises is_redis_error (rc_xautoclaim stream group consumer idle start count);
  ro_ping : raises is_redis_error rc_ping;
}.

(** What an operation may fail with: no error of the client's library, and
    the report of a missing group only when the group will be created again. *)
Definition reported (e : exn) (s : QueueState R) : Prop :=
  ¬ is_redis_error e ∧
  (e = RetryableQueueError "redis consumer group missing" → qs_group_ready s = false).

Ltac report := split; [intros []|first [done|intros; discriminate]].

Definition reports {A} (m : M exn (QueueState R) A) : Prop :=
  ∀ s e s', m s = (inl e, s') → reported e s'.

(** Exceptions that say nothing about the group. *)
Definition calm (e : exn) : Prop :=
  match e with RedisError _ _ | RetryableQueueError _ => False | _ => True end.

Lemma calm_reported e s : calm e → reported e s.
Proof. intros He. split; [destruct e; simpl in *; tauto|intros ->; by destruct He]. Qed.

Lemma reports_calm {A} (m : M exn (QueueState R) A) : raises calm m → reports m.
Proof. intros Hm s e s' Hrun. by eapply calm_reported, Hm. Qed.

Lemma reports_bind {A B} (m : M exn (QueueState R) A) (k : A → M exn (QueueState R) B) :
  reports m → (∀ a, reports (k a)) → reports (bind m k).
Proof.
  intros Hm Hk s e s'. unfold bind. destruct (m s) as [[e'|a] s1] eqn:H1.
  - intros [= <- <-]. by eapply Hm.
  - by apply Hk.
Qed.

Lemma on_client_raises {A} (m : M exn R A) : raises is_redis_error m →
  raises is_redis_error (on_client m).
Proof.
  intros Hm s e s'. unfold on_client. destruct (m (qs_client s)) as [r client] eqn:Hr.
  intros [= -> <-]. by eapply Hm.
Qed.

Lemma reports_guard {A} (m : M exn (QueueState R) A) : raises is_redis_error m → reports (redis_guard m).
Proof.
  intros Hm s e s'. unfold redis_guard, catch. destruct (m s) as [[e1|a] s1] eqn:H1; [|done].
  destruct (redis_error_inv e1 (Hm s e1 s1 H1)) as (c & text & ->).
  unfold _handle_nogroup, _classify_redis_error. destruct c; try (intros [= <- <-]; by report).
  destruct (contains "NOGROUP" text); intros [= <- <-]; by report.
Qed.

Create HintDb queue.
#[local] Hint Resolve on_client_raises reports_guard : queue.
#[local] Hint Extern 2 (calm _) => exact I : raises.

Lemma poisonous_calm {A} (r : result A) : poisonous r → raises_result calm r.
Proof. intros Hr e He. specialize (Hr e He). destruct e; done || exact I. Qed.

Lemma calm_text v : raises_result calm (_text v).
Proof. destruct v; try (apply raises_inr). by apply poisonous_calm, poisonous_utf8. Qed.

Lemma calm_fields fields : raises_result calm (_decode_fields fields).
Proof.
  intros e He. destruct (decode_fields_outcome fields) as [[m Hm]|[[msg Hm]|[Hm _]]];
    rewrite Hm in He; [done|by injection He as <-|by injection He as <-].
Qed.

Lemma calm_delivery d : raises_result calm (QueueDelivery_post_init d).
Proof. unfold QueueDelivery_post_init. decoding_solve. Qed.

Lemma calm_bounds consumer count block : raises_result calm (_validate_consumer_read consumer count block).
Proof. unfold _validate_consumer_read. decoding_solve. Qed.

Lemma calm_timeout block : raises_result calm (check_socket_timeout block).
Proof. unfold check_socket_timeout. decoding_solve. Qed.

Lemma calm_encode m : raises_result calm (_encode_envelope m).
Proof. unfold _encode_envelope, validate_transport_size. decoding_solve. Qed.

Lemma calm_json_int v : raises_result calm (int_of_json v).
Proof. intros e He. apply int_of_json_error in He as [He|[-> _]]; [destruct e; done || exact I|exact I]. Qed.

Lemma calm_pending row : raises_result calm (pending_entry row).
Proof.
  apply poisonous_calm.
  assert (Htext : ∀ v, poisonous (_text v)).
  { intros v. destruct v; try (apply raises_inr). apply poisonous_utf8. }
  assert (Hint : ∀ v, poisonous (int_of_value v)).
  { intros v. unfold int_of_value. destruct v; eauto with raises. }
  unfold pending_entry. decoding_solve.
Qed.

#[local] Hint Resolve calm_text calm_fields calm_delivery calm_encode calm_json_int calm_pending
  calm_bounds calm_timeout : raises.

Ltac reports_solve :=
  cbv zeta;
  repeat first [ solve [auto with queue]
               | solve [apply reports_calm; eauto 5 with raises]
               | apply reports_bind; [|intros ?]
               | case_match ].

Section Failures.
Context (Hclient : redis_errors_only).

Lemma reports_ensure : reports (ensure_group queue).
Proof.
  unfold ensure_group. intros s e s' Hrun. unfold bind at 1, gets in Hrun.
  destruct (qs_group_ready s) eqn:Hready; [done|]. revert Hrun. unfold bind, catch, on_client.
  destruct (rc_xgroup_create _ _ _ (qs_client s)) as [[e1|u] client] eqn:H1; [|done].
  apply (ro_xgroup_create Hclient), redis_error_inv in H1 as (c & text & ->).
  destruct (contains "BUSYGROUP" text); [done|]. intros [= <- <-]. unfold _classify_redis_error.
  destruct c; try destruct (contains "NOGROUP" text); by report.
Qed.

Lemma reports_quarantine id reason : reports (_quarantine_poison queue id reason).
Proof.
  unfold _quarantine_poison. apply reports_guard, raises_bind; [|auto with raises].
  apply on_client_raises, (ro_pipeline Hclient).
Qed.
#[local] Hint Resolve reports_ensure reports_quarantine : queue.
#[local] Hint Extern 1 (reports (redis_guard (on_client _))) =>
  apply reports_guard, on_client_raises; first [apply (ro_xadd Hclient)|apply (ro_xreadgroup Hclient)
    |apply (ro_pipeline Hclient)|apply (ro_xpending_range Hclient)|apply (ro_xautoclaim Hclient)] : queue.

Lemma reports_entries entries count idle : reports (_decode_entries queue entries count idle).
Proof.
  induction entries as [|[id fields] entries IH]; cbn [_decode_entries]; [apply reports_calm; auto with raises|].
  apply reports_bind; [apply reports_calm; auto with raises|]. intros text_id.
  pose proof (calm_fields fields) as Hcalm. destruct (_decode_fields fields) as [e|m].
  - specialize (Hcalm e eq_refl). destruct e; try (apply reports_calm, raises_raise; exact Hcalm).
    reports_solve.
  - reports_solve.
Qed.
#[local] Hint Resolve reports_entries : queue.

Lemma reports_pending count idle start_id end_id : reports (pending queue count idle start_id end_id).
Proof. unfold pending. reports_solve. Qed.

Lemma reports_reclaimed entries metadata idle : reports (decode_reclaimed queue entries metadata idle).
Proof. induction entries as [|[id fields] entries IH]; cbn [decode_reclaimed]; reports_solve. Qed.
#[local] Hint Resolve reports_pending reports_reclaimed : queue.

(** The operations of the queue. *)
Inductive queue_operation : ∀ A, M exn (QueueState R) A → Prop :=
| op_publish envelope : queue_operation string (publish queue envelope)
| op_read consumer count block : queue_operation _ (read queue consumer count block)
| op_acknowledge delivery : queue_operation _ (acknowledge queue delivery)
| op_quarantine delivery reason : queue_operation _ (quarantine queue delivery reason)
| op_pending count idle first last : queue_operation _ (pending queue count idle first last)
| op_reclaim consumer idle count : queue_operation _ (reclaim queue consumer idle count)
| op_health : queue_operation _ health.

(** No operation lets an error of the Redis library out: with a client that
    fails with such errors only, whatever an operation raises is no
    [RedisError], and when it reports the consumer group missing the queue has
    forgotten that the group was created, so that the next operation creates
    it again. *)
Theorem queue_failures_classified A (m : M exn (QueueState R) A) s e s' :
  queue_operation A m → m s = (inl e, s') → reported e s'.
Proof.
  intros Hop. revert s e s'. change (reports m). destruct Hop.
  - unfold publish. reports_solve.
  - unfold read. reports_solve.
  - unfold acknowledge. reports_solve.
  - unfold quarantine. reports_solve.
  - unfold pending. reports_solve.
  - unfold reclaim. reports_solve.
  - unfold health. intros s e s'. unfold catch, on_client.
    destruct (rc_ping (qs_client s)) as [[e1|b] client] eqn:H1; [|done].
    by apply (ro_ping Hclient), redis_error_inv in H1 as (c & text & ->).
Qed.
End Failures.
End Entries.

(** ** Samples *)

(** A decoded body carries no infinite version. *)
Lemma decoded_regular {Repr : PyRepr} {Limit : RecursionLimit} raw m :
  decode_body raw = inr m → ¬ infinite_version raw.
Proof.
  intros Hd (text & value & sign & Htext & Hvalue & Hget). unfold decode_body in Hd.
  rewrite Htext in Hd. cbn [rbind] in Hd. rewrite Hvalue in Hd. cbn [rbind] in Hd.
  apply rbind_ok in Hd as (p & _ & Hd). apply rbind_ok in Hd as (h & _ & Hd). destruct p, h; try done.
  do 9 (apply rbind_ok in Hd as (? & _ & Hd)). unfold subscript in Hd. rewrite Hget in Hd. discriminate Hd.
Qed.

#[local] Instance sample_repr : PyRepr := λ _, ""%string.
#[local] Instance sample_limit : RecursionLimit := 1000%nat.

(** A client that logs its pipelines and has lost its consumer group. *)
#[local] Instance sample_client : RedisClient (list (list redis_command)) := {|
  rc_xgroup_create := λ _ _ _, ret tt;
  rc_xadd := λ _ _, ret (PBytes "1-0");
  rc_xreadgroup := λ _ _ _ _ _, raise (RedisError RedisResponse "NOGROUP No such key");
  rc_pipeline := λ commands, do! modify (λ log, log ++ [commands]) ;; ret [PInt 1; PInt 1];
  rc_xpending_range := λ _ _ _ _ _ _, ret [];
  rc_xautoclaim := λ _ _ _ _ _ _, ret (PBytes "0-0", []);
  rc_ping := ret true;
  rc_socket_timeout := None;
|}.

Lemma sample_client_errors : redis_errors_only.
Proof. split; intros; intros s e s' Hrun; first [discriminate Hrun|by injection Hrun as <- <-]. Qed.

Definition sample_queue : RedisStreamQueue := mkRedisStreamQueue "work" "workers" "work:poison".
Definition sample_state : QueueState (list (list redis_command)) := mkQueueState [] true ∅.

Definition member (key value : string) : string := json_string key +:+ ":" +:+ value.

Definition sample_body (version : string) : string :=
  "{" +:+ join "," [member "payload" "{}"; member "headers" "{}";
    member "message_id" (json_string (Uuid.to_str 1)); member "tenant_id" (json_string "acme");
    member "work_id" (json_string (Uuid.to_str 2)); member "destination" (json_string "aegis.work");
    member "correlation_id" (json_string (Uuid.to_str 3));
    member "occurred_at" (json_string "2026-01-01T00:00:00+00:00");
    member "schema_version" version] +:+ "}".

Definition sample_entry (id body : string) : stream_entry :=
  (PBytes id, [(_ENVELOPE_FIELD, PBytes body)]).

Lemma entries_delivered_or_quarantined_witness :
  map (λ d, qd_stream_entry_id d) (handed_out [sample_entry "1-0" (sample_body "1"); (PBytes "2-0", [])] 1 0)
    = ["1-0"]%string ∧
  poison_ids [sample_entry "1-0" (sample_body "1"); (PBytes "2-0", [])] = ["2-0"]%string ∧
  _decode_entries sample_queue [sample_entry "1-0" (sample_body "1"); (PBytes "2-0", [])] 1 0 sample_state =
  (do! for_each (poison_ids [sample_entry "1-0" (sample_body "1"); (PBytes "2-0", [])])
         (λ id, _quarantine_poison sample_queue id "invalid_envelope") ;;
   ret (handed_out [sample_entry "1-0" (sample_body "1"); (PBytes "2-0", [])] 1 0)) sample_state.
Proof.
  split; [vm_compute; reflexivity|]. split; [vm_compute; reflexivity|].
  apply (entries_delivered_or_quarantined sample_queue); [|lia|lia].
  constructor; [|constructor; [|constructor]].
  - split; [by eexists|]. intros raw [= <-].
    destruct (decode_body (sample_body "1")) as [e|m] eqn:Hd; [by vm_compute in Hd|].
    by eapply decoded_regular.
  - split; [by eexists|]. by intros raw [=].
Defined.

Lemma infinite_version_escapes_witness :
  _decode_entries sample_queue [sample_entry "1-0" (sample_body "Infinity")] 1 0 sample_state =
  (inl OverflowError, sample_state).
Proof.
  apply (infinite_version_escapes sample_queue) with (id := "1-0"%string); [reflexivity|].
  vm_compute; reflexivity.
Defined.

Lemma queue_failures_classified_witness :
  reported (RetryableQueueError "redis consumer group missing")
    (read sample_queue "worker-1" 10 0 sample_state).2.
Proof.
  apply (queue_failures_classified sample_queue sample_client_errors _
    (read sample_queue "worker-1" 10 0) sample_state); [constructor|vm_compute; reflexivity].
Defined.
