(* ===== verification/WireDelivery.v ===== *)
(** * Registered work across the wire

    The trip of [Delivery] with the transport in it: the envelope is encoded
    by the publisher's queue and decoded by the worker's.  Only the order of
    the members of its mappings may change, which no reader sees. *)

From stdpp Require Import base gmap list strings pretty.
From Stdlib Require Import ZArith Lia.
From S2P Require Import Prelude PyLib Json Events Identity Work Amounts Database EventStore.
From S2P Require Import Ledger LedgerReads LedgerAppend LedgerTheorems Parsing ParsingTheorems Outbox.
From S2P Require Import Wire PyEquality Calendar JsonText WorkRepository WorkLedger WorkTheorems WorkSafety.
From S2P Require Import Publisher Delivery RedisStreams RedisTheorems.

Local Open Scope Z_scope.

Lemma dict_get_entry k (d : pydict) v :
  NoDup (map fst d) → dict_get k d = Some v ↔ (KStr k, v) ∈ d.
Proof.
  induction d as [|[k' w] d IH]; intros Hnd; [split; [done|by intros ?%not_elem_of_nil]|].
  simpl in *. apply NoDup_cons in Hnd as [Hk Hnd]. rewrite elem_of_cons. case_bool_decide as Heq.
  - subst k'. split; [by intros [= ->]; left|]. intros [[= ->]|Hin]; [done|]. destruct Hk.
    apply list_elem_of_In, in_map_iff. exists (KStr k, v). split; [done|]. by apply list_elem_of_In.
  - rewrite IH by done. split; [by right|]. by intros [[= <- _]|?].
Qed.

(** Members of equal mappings are equal. *)
Lemma get_same p q k v : same_mapping p q → frozen_dict q = true → tidy (PProxy q) = true →
  dict_get k q = Some v →
  ∃ v', dict_get k p = Some v' ∧ sort_json v' = sort_json v ∧ deeply_frozen v' = true ∧ tidy v' = true.
Proof.
  intros (Hpf & Hpt & Hsort) Hqf Hqt Hget.
  assert (Hpj : json_value (PDict p) = true) by by apply (frozen_value (PProxy p)).
  assert (Hqj : json_value (PDict q) = true) by by apply (frozen_value (PProxy q)).
  change (sort_json (PDict p) = sort_json (PDict q)) in Hsort. rewrite !sort_dict in Hsort.
  injection Hsort as Hsort. unfold frozen_dict in Hpf. cbn [tidy deeply_frozen] in *. bool_props.
  apply dict_get_entry in Hget; [|done]. apply (members_in q k v Hqj) in Hget.
  assert (Him : (KStr k, sort_json v) ∈ map (λ kv, (KStr kv.1, sort_json kv.2)) (sorted_members p)).
  { rewrite Hsort. apply list_elem_of_In, in_map_iff. exists (k, v). split; [done|]. by apply list_elem_of_In. }
  apply list_elem_of_In, in_map_iff in Him as ([k' w] & [= -> Hw] & Hin). apply list_elem_of_In in Hin.
  apply (members_in p k w Hpj) in Hin. exists w. split; [by apply dict_get_entry|]. split; [done|].
  apply list_elem_of_In in Hin. rewrite !forallb_forall in *.
  match goal with Hf : ∀ x, In x p → (let (_, _) := x in _) = true |- _ => specialize (Hf _ Hin) end.
  split; [done|]. match goal with Ht : ∀ x, In x p → tidy x.2 = true |- _ => exact (Ht _ Hin) end.
Qed.

Lemma scalar_same v s : deeply_frozen v = true → sort_json v = PStr s → v = PStr s.
Proof. by destruct v. Qed.

Lemma integer_same v z : deeply_frozen v = true → sort_json v = PInt z → v = PInt z.
Proof. by destruct v. Qed.

(** A mapping equals itself in another order. *)
Lemma same_equal p q : same_mapping p q → frozen_dict q = true → tidy (PProxy q) = true →
  py_eqb (PProxy p) (PProxy q) = true.
Proof.
  intros (Hpf & Hpt & Hsort) Hqf Hqt.
  apply (py_eqb_sorted (PProxy p) true); try done; by (apply frozen_value || apply frozen_uniform).
Qed.

Lemma same_thawed p q : same_mapping p q → frozen_dict q = true → tidy (PProxy q) = true →
  py_eqb (thaw_json (PProxy q)) (thaw_json (PProxy p)) = true.
Proof.
  intros (Hpf & Hpt & Hsort) Hqf Hqt.
  apply (py_eqb_sorted _ false); rewrite ?sort_thaw, ?(proj1 (thaw_value _)), ?(proj2 (thaw_value _)); try done.
  - by apply (frozen_value (PProxy q)).
  - apply (thawed_uniform (PProxy q)).
  - by apply (frozen_value (PProxy p)).
  - apply (thawed_uniform (PProxy p)).
Qed.

Definition with_payload (q : WorkRequest) (payload : pydict) : WorkRequest :=
  {| wr_work_id := wr_work_id q; wr_tenant_id := wr_tenant_id q; wr_work_kind := wr_work_kind q;
     wr_idempotency_key := wr_idempotency_key q; wr_correlation_id := wr_correlation_id q;
     wr_requested_at := wr_requested_at q; wr_payload := payload;
     wr_causation_id := wr_causation_id q; wr_max_attempts := wr_max_attempts q;
     wr_timeout_seconds := wr_timeout_seconds q; wr_schema_version := wr_schema_version q |}.

(** A number below a power of ten has that many digits. *)
Lemma pretty_go_length k x s : (x < 10 ^ N.of_nat k)%N →
  (String.length (pretty_N_go x s) ≤ k + String.length s)%nat.
Proof.
  revert x s. induction k as [|k IH]; intros x s Hx.
  - simpl in Hx. assert (x = 0%N) as -> by lia. by rewrite pretty_N_go_0.
  - destruct (decide (x = 0%N)) as [->|H0]; [rewrite pretty_N_go_0; lia|].
    rewrite pretty_N_go_step by lia. etransitivity; [apply IH|simpl; lia].
    apply N.Div0.div_lt_upper_bound. rewrite Nat2N.inj_succ, N.pow_succ_r' in Hx. lia.
Qed.

Lemma short_texts z : 0 ≤ z ≤ 86400 → textual (PInt z) = true.
Proof.
  intros Hz. cbn [textual]. rewrite Z.abs_eq by lia. apply Z.leb_le.
  assert (Heq : pretty z = pretty (Z.to_N z)) by (destruct z; done || lia). rewrite Heq.
  unfold pretty, pretty_N, PyStr.len, int_max_str_digits. case_decide; [by vm_compute|].
  pose proof (pretty_go_length 5 (Z.to_N z) "" ltac:(simpl; lia)) as Hl. simpl in Hl. lia.
Qed.

Section Received.
Context {Repr : PyRepr} {Limit : RecursionLimit} (q : WorkRequest) (Hq : sound_request q).

Lemma bounds_nonneg : 0 ≤ wr_max_attempts q ≤ 86400 ∧ 0 ≤ wr_timeout_seconds q ≤ 86400.
Proof.
  pose proof (sr_built q Hq) as Hb. unfold WorkRequest_post_init in Hb. py_inv. bool_props. lia.
Qed.

Lemma request_rebuilt payload : frozen_dict payload = true →
  WorkRequest_post_init (with_payload q payload) = inr (with_payload q payload).
Proof.
  intros Hf. pose proof (sr_built q Hq) as Hb. pose proof (freeze_mapping_id payload Hf) as Hid.
  unfold WorkRequest_post_init in *. cbn [with_payload wr_tenant_id wr_work_kind wr_idempotency_key
    wr_requested_at wr_max_attempts wr_timeout_seconds wr_schema_version wr_payload].
  unfold reject_if in *. repeat (case_match; try done). by rewrite Hid.
Qed.

(** The request read from a received envelope differs from the registered one
    in the order of its payload at most. *)
Lemma request_received d mid eid now p h :
  same_mapping p (_request_payload q) →
  qd_envelope d = with_mappings (work_envelope q mid eid now) p h →
  ∃ payload, same_mapping payload (wr_payload q) ∧
    _request_from_delivery d = inr (with_payload q payload).
Proof.
  intros Hp Hd. pose proof (request_payload_frozen q Hq) as Hf. pose proof (tidy_payload q Hq) as Ht.
  assert (Hget : ∀ k v, dict_get k (_request_payload q) = Some v → ∃ v', dict_get k p = Some v' ∧
    sort_json v' = sort_json v ∧ deeply_frozen v' = true ∧ tidy v' = true)
    by (intros k v; by apply get_same).
  assert (Hstr : ∀ k s, dict_get k (_request_payload q) = Some (PStr s) → dict_get k p = Some (PStr s)).
  { intros k s Hs. destruct (Hget k _ Hs) as (v & Hv & Hsv & Hfv & _). by rewrite (scalar_same v s) in Hv. }
  assert (Hint : ∀ k z, dict_get k (_request_payload q) = Some (PInt z) → dict_get k p = Some (PInt z)).
  { intros k z Hz. destruct (Hget k _ Hz) as (v & Hv & Hsv & Hfv & _). by rewrite (integer_same v z) in Hv. }
  destruct (Hget "request_payload"%string (PProxy (wr_payload q)) eq_refl) as (v & Hr & Hsv & Hfv & Htv).
  destruct v as [| | | | | | | |payload| |]; try done. exists payload. split; [by split|].
  unfold _request_from_delivery. rewrite Hd. cbn [with_mappings me_payload me_work_id me_tenant_id
    me_correlation_id me_causation_id work_envelope]. unfold subscript, int_of_value. rewrite Hr.
  rewrite (Hstr "work_kind"%string _ eq_refl), (Hstr "idempotency_key"%string _ eq_refl),
    (Hstr "requested_at"%string _ eq_refl), (Hint "max_attempts"%string _ eq_refl),
    (Hint "timeout_seconds"%string _ eq_refl).
  cbn [default rbind py_str]. unfold fromisoformat.
  rewrite isoformat_roundtrip by exact (sr_requested q Hq). cbn [rbind].
  pose proof (request_rebuilt payload Hfv) as Hid.
  pose proof (sr_version q Hq) as Hv.  destruct bounds_nonneg as [Hm Hs].
  rewrite !int_of_pretty by lia. cbn [rbind]. 
  unfold with_payload in *. rewrite Hv in *.
  cbn [id]. by rewrite !Hid.
Qed.

(** The received envelope, checked against the rows. *)
Lemma received_verified mid eid context now d w p h :
  ctx_str context = wr_tenant_id q → stored q mid eid (w_db w) →
  (∃ o, t_outbox (w_db w) !! (wr_tenant_id q, mid) = Some o ∧ ob_status o ∈ [OB_LEASED; OB_PUBLISHED]) →
  same_mapping p (_request_payload q) → same_mapping h (routing_headers (wr_tenant_id q)) →
  qd_envelope d = with_mappings (work_envelope q mid (Some eid) now) p h →
  ∃ w', _verify_delivery context d w = (inr q, w') ∧ w_db w' = w_db w.
Proof.
  intros Hctx Hst Ho Hp Hh Henv.
  destruct (request_received d mid (Some eid) now p h Hp Henv) as (payload & Hsame & Hreq).
  apply (verify_matching q mid eid context d w (with_payload q payload)); rewrite ?Henv; try done.
  - unfold request_eqb. cbn [with_payload wr_work_id wr_tenant_id wr_work_kind wr_idempotency_key
      wr_correlation_id wr_requested_at wr_payload wr_causation_id wr_max_attempts wr_timeout_seconds
      wr_schema_version]. rewrite !bool_decide_true by done. rewrite !Z.eqb_refl.
    by rewrite (same_equal payload) by first [exact Hsame|apply (sr_frozen q Hq)|apply (sr_tidy q Hq)].
  - apply same_thawed; [done|by apply request_payload_frozen|by apply tidy_payload].
  - by apply same_thawed.
Qed.

Lemma textual_payload : textual (PProxy (wr_payload q)) = true →
  textual (PProxy (_request_payload q)) = true.
Proof.
  intros Ht. destruct bounds_nonneg as [Hm Hs].
  change (textual (optional_uuid_text (wr_causation_id q)) && (textual (PInt (wr_max_attempts q)) &&
    (textual (PInt (wr_timeout_seconds q)) && (textual (PProxy (wr_payload q)) && true))) = true).
  rewrite Ht, !short_texts by lia. by destruct (wr_causation_id q).
Qed.

(** The envelope [_envelope] builds is one the decoder reads back. *)
Lemma work_envelope_sound mid eid now :
  textual (PProxy (wr_payload q)) = true → Uuid.valid mid → Uuid.valid eid → in_range now →
  Dt.naive now = false →
  nests (_envelope_body (work_envelope q mid (Some eid) now)) recursion_limit = true →
  sound_envelope (work_envelope q mid (Some eid) now).
Proof.
  intros Ht Hmid Heid Hnow Haware Hn. pose proof (request_payload_frozen q Hq) as Hf.
  pose proof (tidy_payload q Hq) as Htidy. split; cbn [work_envelope me_payload me_headers
    me_occurred_at me_message_id me_work_id me_correlation_id me_event_id me_causation_id]; try done.
  - unfold MessageEnvelope_post_init. cbn [work_envelope me_payload me_headers me_tenant_id
      me_destination me_occurred_at me_schema_version].
    rewrite (freeze_mapping_id _ Hf), (freeze_mapping_id (routing_headers _)) by done. rewrite Haware.
    pose proof (sr_built q Hq) as Hbuilt. unfold WorkRequest_post_init in Hbuilt.
    destruct (PyStr.is_empty (wr_tenant_id q)); done.
  - split_and!; [done..|]. by apply textual_payload.
  - split_and!; [done| |]; [apply (sr_work_id q Hq)|apply (sr_correlation q Hq)].
  - by intros u [= <-].
  - apply (sr_causation q Hq).
Qed.
End Received.

(** C24. A registered request crosses the wire unchanged: when [register]
    committed, a later claim of the outbox handed its message out and the
    publisher's envelope could be encoded, the bytes are decoded by the
    worker's queue to an envelope of which every delivery is verified, while
    the message is leased, as exactly the request that was registered.  The
    order of the members of the mappings is all that may change in transit,
    and no check sees it. *)
Theorem registered_work_crosses_the_wire {Repr : PyRepr} {Limit : RecursionLimit} q context eid mid
    w v w1 owner until at_ limit destination claims w2 c now raw envelope :
  sound_request q → textual (PProxy (wr_payload q)) = true → Uuid.valid eid → Uuid.valid mid →
  in_range now → Dt.naive now = false →
  register context q eid mid w = (inr v, w1) →
  claim_outbox context owner until at_ limit destination w1 = (inr claims, w2) →
  c ∈ claims → om_message_id (co_message c) = mid →
  _envelope context c now = inr envelope →
  nests (_envelope_body envelope) recursion_limit = true →
  _encode_envelope envelope = inr raw →
  ∃ received, _decode_fields [(_ENVELOPE_FIELD, PBytes raw)] = inr received ∧
    ∀ d, qd_envelope d = received →
      ∃ w3, _verify_delivery context d w2 = (inr q, w3) ∧ w_db w3 = w_db w2.
Proof.
  intros Hq Ht Heid Hmid Hin Hnow Hreg Hclaim Hc Hid Henv Hn Hraw.
  pose proof (register_context _ _ _ _ _ _ _ Hreg) as Hctx. apply (register_stores q Hq) in Hreg.
  destruct (claim_in_transit q mid eid context owner until at_ limit destination w1 claims w2 c)
    as (Htransit & He & Hstored & o & Ho & Hst); [done..|].
  rewrite (envelope_of_claim q Hq context c now Hctx Htransit Hnow), He, Hid in Henv.
  injection Henv as <-.
  destruct (wire_roundtrip _ raw (work_envelope_sound q Hq mid eid now Ht Hmid Heid Hin Hnow Hn) Hraw)
    as (p & h & Hp & Hh & Hdec).
  eexists. split; [exact Hdec|]. intros d Hd.
  apply (received_verified q Hq mid eid context now d w2 p h Hctx Hstored); [|done..].
  exists o. split; [done|]. rewrite Hst. apply list_elem_of_here.
Qed.

#[local] Existing Instance sample_repr.
#[local] Instance sample_limit : RecursionLimit := 1000%nat.

(** The sample work, claimed by the publisher and encoded. *)
Definition sample_handout : result (list ClaimedOutboxMessage) * World :=
  claim_outbox acme "publisher" (Dt.Aware 60000000) (Dt.Aware 12000000) 10 None registered.
Definition sample_envelope : MessageEnvelope :=
  work_envelope sample_request 1002%N (Some 1001%N) (Dt.Aware 12000000).

Lemma registered_work_crosses_the_wire_witness :
  ∃ raw received,
    _encode_envelope sample_envelope = inr raw ∧ 
    _decode_fields [(_ENVELOPE_FIELD, PBytes raw)] = inr received ∧
    ∀ d, qd_envelope d = received →
      ∃ w3, _verify_delivery acme d sample_handout.2 = (inr sample_request, w3).
Proof.
  destruct (_encode_envelope sample_envelope) as [e|raw] eqn:Hraw; [by vm_compute in Hraw|].
  assert (Hids : rbind sample_handout.1 (λ claims, inr (map (λ c, om_message_id (co_message c)) claims)) =
    inr [1002%N])
    by (vm_compute; reflexivity).
  assert (Henv : rbind sample_handout.1 (λ claims, match claims with
      c :: _ => _envelope acme c (Dt.Aware 12000000) | [] => inl AssertionError end) = inr sample_envelope)
    by (vm_compute; reflexivity).
  destruct sample_handout as [[e|[|c claims]] w2] eqn:Hclaim; [discriminate Hids|discriminate Hids|].
  destruct (register acme sample_request 1001 1002 work_start) as [r w1] eqn:Hreg.
  assert (Hok : (register acme sample_request 1001 1002 work_start).1 = inr 1) by (vm_compute; reflexivity).
  rewrite Hreg in Hok. simpl in Hok. subst r.
  destruct (registered_work_crosses_the_wire sample_request acme 1001%N 1002%N work_start 1 w1 "publisher"
    (Dt.Aware 60000000) (Dt.Aware 12000000) 10 None (c :: claims) w2 c (Dt.Aware 12000000) raw sample_envelope)
    as (received & Hdec & Hall).
  - apply sample_request_sound.
  - vm_compute; reflexivity.
  - reflexivity.
  - reflexivity.
  - split; [discriminate|reflexivity].
  - reflexivity.
  - exact Hreg.
  - unfold sample_handout, registered, run in Hclaim. by rewrite Hreg in Hclaim.
  - apply list_elem_of_here.
  - by injection Hids.
  - exact Henv.
  - vm_compute; reflexivity.
  - exact Hraw.
  - exists raw, received. split; [reflexivity|]. split; [exact Hdec|].
    intros d Hd. destruct (Hall d Hd) as (w3 & Hv & _). exists w3. exact Hv.
Defined.
