(* ===== verification/WorkReads.v ===== *)
(** * Status pages of the work repository

    Models [status] and [pending_status] of [runtime/postgres.py], with the
    cursor of their keyset pagination, and proves that walking the pages lists
    every item once, newest first. *)

From stdpp Require Import base gmap list strings sorting.
From Stdlib Require Import ZArith Lia Sorted.
From S2P Require Import Prelude PyLib Json Events Identity Work Database EventStore.
From S2P Require Import Ledger LedgerReads LedgerTheorems Parsing ParsingTheorems Wire Calendar.
From S2P Require Import WorkRepository WorkLedger WorkTheorems WorkSafety.

Local Open Scope Z_scope.

(** ** Cursors *)

Definition _MAX_UUID : uuid := (2 ^ 128 - 1)%N.

(** [datetime.max.replace(tzinfo=UTC)] *)
Definition datetime_max : Dt.datetime := Dt.Aware (2932897 * Dt.day - 1).

(** [_KeysetCursor | datetime] *)
Inductive Cursor : Type :=
| KeysetCursor (at_ : Dt.datetime) (work_id : uuid)
| TimeCursor (at_ : Dt.datetime).

Definition _descending_cursor (cursor : option Cursor) : result (Dt.datetime * uuid) :=
  match cursor with
  | None => inr (datetime_max, _MAX_UUID)
  | Some (KeysetCursor at_ work_id) =>
      raise! ValueError "cursor timestamps must be timezone-aware" when! Dt.naive at_ ;;
      inr (at_, work_id)
  | Some (TimeCursor at_) =>
      raise! ValueError "cursor timestamps must be timezone-aware" when! Dt.naive at_ ;;
      inr (at_, _MAX_UUID)
  end.

(** ** Keyset pages *)

(** [(a, b) < (c, d)] of SQL *)
Definition precedes (a b : Z * uuid) : bool :=
  (a.1 <? b.1) || ((a.1 =? b.1) && (a.2 <? b.2)%N).

Section Keyset.
Context {A : Type} (key : A → Z * uuid).

(** [ORDER BY ... DESC] *)
Definition newest_leb (x y : A) : bool := negb (precedes (key x) (key y)).

(** [WHERE key < bound ORDER BY key DESC LIMIT limit] *)
Definition keyset_page (bound : Z * uuid) (limit : Z) (rows : list A) : list A :=
  take (Z.to_nat limit) (py_sorted newest_leb (List.filter (λ x, precedes (key x) bound) rows)).
End Keyset.

(** ** The reads *)

Definition key_of (f : WorkItemRow → Z) (row : uuid * WorkItemRow) : Z * uuid := (f row.2, row.1).

Definition items_of (tenant : string) (f : WorkItemRow → bool) (t : Tables)
    : list (uuid * WorkItemRow) :=
  omap (λ kv, if bool_decide (kv.1.1 = tenant) && f kv.2 then Some (kv.1.2, kv.2) else None)
    (map_to_list (t_work_items t)).

Definition optional_time (us : option Z) : pyval :=
  match us with Some us => PStr (isoformat (Dt.Aware us)) | None => PNone end.

Definition status_record (row : uuid * WorkItemRow) : pyval :=
  PDict (dict_of
    [("work_id", PStr (Uuid.to_str row.1));
     ("work_kind", PStr (wi_work_kind row.2));
     ("status", PStr (sc_value (wi_status row.2)));
     ("requested_at", PStr (isoformat (Dt.Aware (wi_requested_at row.2))));
     ("available_at", PStr (isoformat (Dt.Aware (wi_available_at row.2))));
     ("attempt_count", PInt (wi_attempt_count row.2));
     ("max_attempts", PInt (wi_max_attempts row.2));
     ("cancel_requested", PBool (is_some (wi_cancel_requested_at row.2)));
     ("last_error_code", match wi_last_error_code row.2 with
                         | Some code => if PyStr.is_empty code then PNone else PStr code
                         | None => PNone
                         end)]%string).

Definition status (context : TenantContext) (filter : option WorkStatus) (limit : Z)
    (cursor : option Cursor) : Db (list pyval) :=
  do! raise_if (negb ((1 <=? limit) && (limit <=? 200)))
        (ValueError "status limit must be between 1 and 200") ;;
  let! before := lift (_descending_cursor cursor) in
  let! rows := storage_guard (transaction (query (λ t,
    keyset_page (key_of wi_requested_at) (Dt.us before.1, before.2) limit
      (items_of (ctx_str context)
         (λ w, match filter with Some s => bool_decide (wi_status w = s) | None => true end) t)))) in
  ret (map status_record rows).

(** The statuses of work that is not finished. *)
Definition pending_statuses : list WorkStatus := [REQUESTED; PUBLISHED; CLAIMED; RUNNING; RETRY_WAIT].

(** The LEFT JOIN of a work item with its unreleased lease. *)
Definition unreleased (tenant : string) (work : uuid) (t : Tables) : option LeaseRow :=
  match t_work_leases t !! (tenant, work) with
  | Some l => if bool_decide (le_released_at l = None) then Some l else None
  | None => None
  end.

Definition pending_record (row : (uuid * WorkItemRow) * option LeaseRow) : pyval :=
  let '((work_id, w), lease) := row in
  PDict (dict_of
    [("work_id", PStr (Uuid.to_str work_id));
     ("work_kind", PStr (wi_work_kind w));
     ("status", PStr (sc_value (wi_status w)));
     ("available_at", PStr (isoformat (Dt.Aware (wi_available_at w))));
     ("attempt_count", PInt (wi_attempt_count w));
     ("max_attempts", PInt (wi_max_attempts w));
     ("lease_owner", match lease with Some l => PStr (le_owner l) | None => PNone end);
     ("heartbeat_at", optional_time (le_heartbeat_at <$> lease));
     ("expires_at", optional_time (le_expires_at <$> lease))]%string).

Definition pending_status (context : TenantContext) (limit : Z) (cursor : option Cursor)
    : Db (list pyval) :=
  do! raise_if (negb ((1 <=? limit) && (limit <=? 200)))
        (ValueError "pending limit must be between 1 and 200") ;;
  let! before := lift (_descending_cursor cursor) in
  let! rows := storage_guard (transaction (query (λ t,
    map (λ row, (row, unreleased (ctx_str context) row.1 t))
      (keyset_page (key_of wi_available_at) (Dt.us before.1, before.2) limit
         (items_of (ctx_str context) (status_in pending_statuses) t))))) in
  ret (map pending_record rows).

(** ** Walking the pages *)

(** The cursor a client takes from the last row of a page. *)
Definition cursor_after (time : string) (row : pyval) : result Cursor :=
  match row with
  | PDict d =>
      match dict_get time d, dict_get "work_id" d with
      | Some (PStr t), Some (PStr id) =>
          let? at_ := fromisoformat t in let? work_id := uuid_of_str id in inr (KeysetCursor at_ work_id)
      | _, _ => inl (TypeError "row")
      end
  | _ => inl (TypeError "row")
  end.

(** Page after page until one is empty. *)
Fixpoint walk (fetch : option Cursor → Db (list pyval)) (time : string) (fuel : nat)
    (cursor : option Cursor) : Db (list pyval) :=
  match fuel with
  | O => ret []
  | S fuel =>
      let! rows := fetch cursor in
      match last rows with
      | None => ret []
      | Some row =>
          let! next := lift (cursor_after time row) in
          let! rest := walk fetch time fuel (Some next) in
          ret (rows ++ rest)
      end
  end.

Lemma precedes_spec a b : precedes a b = true ↔ a.1 < b.1 ∨ a.1 = b.1 ∧ (a.2 < b.2)%N.
Proof. unfold precedes. rewrite orb_true_iff, andb_true_iff, Z.ltb_lt, Z.eqb_eq, N.ltb_lt. done. Qed.

Lemma not_precedes_spec a b : precedes a b = false ↔ b.1 < a.1 ∨ a.1 = b.1 ∧ (b.2 <= a.2)%N.
Proof. rewrite <- not_true_iff_false, precedes_spec. lia. Qed.

Lemma precedes_trans a b c : precedes a b = true → precedes b c = true → precedes a c = true.
Proof. rewrite !precedes_spec. lia. Qed.

Section Pages.
Context {A : Type} (key : A → Z * uuid).

Lemma newest_total x y : newest_leb key x y = true ∨ newest_leb key y x = true.
Proof. unfold newest_leb. rewrite !negb_true_iff, !not_precedes_spec. lia. Qed.

Lemma newest_trans x y z :
  newest_leb key x y = true → newest_leb key y z = true → newest_leb key x z = true.
Proof. unfold newest_leb. rewrite !negb_true_iff, !not_precedes_spec. lia. Qed.

Lemma newest_strict x y : newest_leb key x y = true → key x ≠ key y → precedes (key y) (key x) = true.
Proof.
  unfold newest_leb. rewrite negb_true_iff, not_precedes_spec, precedes_spec.
  destruct (key x) as [a i], (key y) as [b j]. simpl. intros [?|[-> Hle]] Hne; [lia|].
  right. split; [done|]. assert (i ≠ j) by congruence. lia.
Qed.

(** The rows below a bound, newest first. *)
Definition below (bound : Z * uuid) (rows : list A) : list A :=
  py_sorted (newest_leb key) (List.filter (λ x, precedes (key x) bound) rows).

Lemma below_sorted bound rows : StronglySorted (λ x y, newest_leb key x y = true) (below bound rows).
Proof. apply py_sorted_sorted; [apply newest_total|apply newest_trans]. Qed.

Lemma below_elem bound rows x : x ∈ below bound rows ↔ x ∈ rows ∧ precedes (key x) bound = true.
Proof.
  unfold below. rewrite py_sorted_elem. rewrite !list_elem_of_In, filter_In. done.
Qed.

Context (rows : list A) (Hkeys : NoDup (map key rows)).

Lemma key_unique x y : x ∈ rows → y ∈ rows → key x = key y → x = y.
Proof.
  clear -Hkeys. induction rows as [|z l IH]; [by intros ?%not_elem_of_nil|].
  simpl in Hkeys. apply NoDup_cons in Hkeys as [Hz Hl].
  assert (Hin : ∀ u, u ∈ l → key u ∈ map key l) by (intros u Hu; by apply list_elem_of_fmap_2).
  rewrite !elem_of_cons. intros [->|Hx] [->|Hy] Heq; [done| | |by apply IH].
  - destruct Hz. rewrite Heq. auto.
  - destruct Hz. rewrite <- Heq. auto.
Qed.

Lemma below_nodup bound : NoDup (below bound rows).
Proof.
  unfold below. rewrite py_sorted_perm. apply NoDup_ListNoDup, List.NoDup_filter, NoDup_ListNoDup.
  by eapply NoDup_fmap_1.
Qed.

(** The rows below the last row of a page are the rows after the page. *)
Lemma below_last bound p x rest :
  below bound rows = p ++ x :: rest → below (key x) rows = rest.
Proof.
  intros Hb. pose proof (below_sorted bound rows) as Hs. pose proof (below_nodup bound) as Hnd.
  rewrite Hb in Hs, Hnd. apply StronglySorted_app in Hs as (Hbefore & _ & Hs).
  apply StronglySorted_cons in Hs as [Hafter Hs]. rewrite Forall_forall in Hafter.
  apply NoDup_app in Hnd as (_ & _ & [Hx Hnd]%NoDup_cons).
  assert (Hin : ∀ y, y ∈ p ++ x :: rest ↔ y ∈ rows ∧ precedes (key y) bound = true)
    by (intros y; by rewrite <- Hb, below_elem).
  destruct (proj1 (Hin x)) as [Hxr Hxb]; [apply elem_of_app; right; left|].
  assert (Hrest : ∀ y, y ∈ below (key x) rows ↔ y ∈ rest).
  { intros y. rewrite below_elem. split.
    - intros [Hy Hlt]. assert (Hyin : y ∈ p ++ x :: rest) by (apply Hin; split; [done|by eapply precedes_trans]).
      apply elem_of_app in Hyin as [Hyp|[->|?]%elem_of_cons]; [exfalso|exfalso|done].
      + specialize (Hbefore y x Hyp ltac:(left)). unfold newest_leb in Hbefore. by rewrite Hlt in Hbefore.
      + apply precedes_spec in Hlt. lia.
    - intros Hy. destruct (proj1 (Hin y)) as [Hyr _]; [apply elem_of_app; right; by right|].
      split; [done|]. apply newest_strict; [by apply Hafter|].
      intros Heq. apply key_unique in Heq; [by subst|done..]. }
  apply (StronglySorted_unique_strong (λ y z, newest_leb key y z = true)).
  - intros y z Hy Hz Hyz Hzy. apply below_elem in Hy as [Hy _]. apply Hrest, below_elem in Hz as [Hz _].
    apply key_unique; [done|done|]. unfold newest_leb in *. rewrite negb_true_iff, not_precedes_spec in *.
    destruct (key y), (key z). simpl in *. f_equal; lia.
  - apply below_sorted.
  - done.
  - apply NoDup_Permutation; [apply below_nodup|done|exact Hrest].
Qed.
End Pages.

(** ** Every page of a walk *)

Section Walk.
Context (fetch : option Cursor → Db (list pyval)) (time : string) (limit : Z) (Hlimit : 1 <= limit).
Context (f : WorkItemRow → Z) (record : uuid * WorkItemRow → pyval).
Context (rows : list (uuid * WorkItemRow)) (db : Tables).

(** The records name their row. *)
Context (Hrecord : ∀ row, row ∈ rows → cursor_after time (record row) =
  inr (KeysetCursor (Dt.Aware (f row.2)) row.1)).
Context (Hfetch : ∀ cursor at_ id w, _descending_cursor cursor = inr (at_, id) → w_db w = db →
  ∃ w', fetch cursor w = (inr (map record (keyset_page (key_of f) (Dt.us at_, id) limit rows)), w') ∧
        w_db w' = db).
Context (Hkeys : NoDup (map (key_of f) rows)).

Lemma walk_below fuel cursor at_ id w :
  _descending_cursor cursor = inr (at_, id) → w_db w = db →
  (length (below (key_of f) (Dt.us at_, id) rows) < fuel)%nat →
  ∃ w', walk fetch time fuel cursor w =
    (inr (map record (below (key_of f) (Dt.us at_, id) rows)), w') ∧ w_db w' = db.
Proof.
  revert cursor at_ id w. induction fuel as [|fuel IH]; intros cursor at_ id w Hc Hw Hf; [lia|].
  destruct (Hfetch cursor at_ id w Hc Hw) as (w1 & H1 & Hw1). cbn [walk].
  erewrite bind_run by exact H1. unfold keyset_page. fold (below (key_of f) (Dt.us at_, id) rows).
  set (all := below (key_of f) (Dt.us at_, id) rows) in *.
  destruct (take (Z.to_nat limit) all) as [|x0 p0] eqn:Hpage.
  - exists w1. simpl. destruct all; [done|]. by destruct (Z.to_nat limit) eqn:?; [lia|].
  - destruct (exists_last (l := x0 :: p0)) as (p & x & Hlast); [done|]. rewrite Hlast in Hpage |- *.
    assert (Hall : all = p ++ x :: drop (Z.to_nat limit) all).
    { rewrite <- (take_drop (Z.to_nat limit) all) at 1. by rewrite Hpage, <- app_assoc. }
    rewrite map_app. cbn [map]. rewrite last_snoc.
    assert (Hx : x ∈ rows) by (apply (below_elem (key_of f) (Dt.us at_, id)); fold all; rewrite Hall;
      apply elem_of_app; right; left).
    rewrite (bind_run _ _ w1 (KeysetCursor (Dt.Aware (f x.2)) x.1) w1)
      by (unfold lift; by rewrite Hrecord).
    pose proof (below_last (key_of f) rows Hkeys _ p x _ Hall) as Hrest.
    destruct (IH (Some (KeysetCursor (Dt.Aware (f x.2)) x.1)) (Dt.Aware (f x.2)) x.1 w1) as (w2 & H2 & Hw2);
      [done|done| |].
    { change (Dt.us (Dt.Aware (f x.2)), x.1) with (key_of f x). rewrite Hrest. rewrite Hall in Hf.
      rewrite length_app in Hf. simpl in Hf. lia. }
    exists w2. erewrite bind_run by exact H2. split; [|done].
    change (Dt.us (Dt.Aware (f x.2)), x.1) with (key_of f x). rewrite Hrest.
    rewrite Hall at 2. unfold ret. by rewrite map_app, <- app_assoc.
Qed.
End Walk.

Section Items.
Context (tenant : string) (g : WorkItemRow → bool) (t : Tables).

Lemma items_in work w : (work, w) ∈ items_of tenant g t ↔
  t_work_items t !! (tenant, work) = Some w ∧ g w = true.
Proof.
  unfold items_of. rewrite list_elem_of_omap. split.
  - intros ([[tn id] r] & Hin & Hr). cbn [fst snd] in Hr. case_match; [|done]. injection Hr as -> ->.
    bool_props. subst tn. by apply elem_of_map_to_list in Hin.
  - intros [Hw Hg]. exists ((tenant, work), w). split; [by apply elem_of_map_to_list|]. simpl.
    by rewrite bool_decide_true, Hg.
Qed.

Lemma items_keys f : NoDup (map (key_of f) (items_of tenant g t)).
Proof.
  apply (NoDup_fmap_1 snd). change (snd <$> map (key_of f) (items_of tenant g t)) with
    (map snd (map (key_of f) (items_of tenant g t))). rewrite map_map.
  unfold items_of. pose proof (NoDup_fst_map_to_list (t_work_items t)) as Hnd.
  induction (map_to_list (t_work_items t)) as [|[[tn id] w] l IH]; [constructor|].
  simpl in Hnd. apply NoDup_cons in Hnd as [Hid Hnd]. specialize (IH Hnd). cbn [omap list_omap fst snd].
  destruct (bool_decide (tn = tenant) && g w) eqn:Hc; [|done]. bool_props. subst tn. cbn [map]. constructor; [|done].
  intros Hin. apply list_elem_of_In, in_map_iff in Hin as ([id' w'] & Heq & Hin).
  simpl in Heq. subst id'. apply list_elem_of_In, list_elem_of_omap in Hin as ([[tn' id'] r] & Hin & Hr).
  cbn [fst snd] in Hr. case_match; [|done]. injection Hr as -> ->. bool_props. subst tn'.
  destruct Hid. apply list_elem_of_fmap. by exists (tenant, id, w').
Qed.

Lemma items_length : (length (items_of tenant g t) <= size (t_work_items t))%nat.
Proof.
  unfold items_of. rewrite <- length_map_to_list. induction (map_to_list (t_work_items t)) as [|x l IH]; [done|].
  cbn [omap list_omap]. destruct (_ && _); simpl; lia.
Qed.

Lemma below_length f bound : (length (below (key_of f) bound (items_of tenant g t)) <= size (t_work_items t))%nat.
Proof.
  unfold below. rewrite py_sorted_perm. etransitivity; [apply List.filter_length_le|apply items_length].
Qed.

(** Below the first bound lies everything. *)
Lemma below_everything f :
  (∀ work w, (work, w) ∈ items_of tenant g t → f w < Dt.us datetime_max) →
  below (key_of f) (Dt.us datetime_max, _MAX_UUID) (items_of tenant g t) ≡ₚ items_of tenant g t.
Proof.
  intros Hmax. unfold below. rewrite py_sorted_perm.
  assert (Hall : List.filter (λ x, precedes (key_of f x) (Dt.us datetime_max, _MAX_UUID)) (items_of tenant g t)
    = items_of tenant g t); [|by rewrite Hall].
  apply forallb_filter_id, forallb_forall. intros [work w] Hin. apply precedes_spec. left.
  apply Hmax with work, list_elem_of_In. exact Hin.
Qed.
End Items.

(** A time the pages can show and compare. *)
Definition listed (us : Z) : Prop := in_range (Dt.Aware us) ∧ us < Dt.us datetime_max.

Section Fetches.
Context (context : TenantContext) (limit : Z) (Hlimit : 1 <= limit <= 200).

Lemma limit_accepted : negb ((1 <=? limit) && (limit <=? 200)) = false.
Proof. rewrite (proj2 (Z.leb_le _ _)), (proj2 (Z.leb_le _ _)) by lia. done. Qed.

Lemma status_page filter cursor at_ id w : _descending_cursor cursor = inr (at_, id) →
  ∃ w', status context filter limit cursor w =
    (inr (map status_record (keyset_page (key_of wi_requested_at) (Dt.us at_, id) limit
       (items_of (ctx_str context)
         (λ w, match filter with Some s => bool_decide (wi_status w = s) | None => true end) (w_db w)))), w') ∧
    w_db w' = w_db w.
Proof.
  intros Hc. eexists. unfold status. rewrite limit_accepted. py_go.
  erewrite bind_run; [|unfold lift; by rewrite Hc]. erewrite bind_run.
  2:{ apply transaction_run. unfold query, gets. reflexivity. }
  unfold ret. split; reflexivity.
Qed.

Lemma pending_page cursor at_ id w : _descending_cursor cursor = inr (at_, id) →
  ∃ w', pending_status context limit cursor w =
    (inr (map (λ row, pending_record (row, unreleased (ctx_str context) row.1 (w_db w)))
       (keyset_page (key_of wi_available_at) (Dt.us at_, id) limit
         (items_of (ctx_str context) (status_in pending_statuses) (w_db w)))), w') ∧
    w_db w' = w_db w.
Proof.
  intros Hc. eexists. unfold pending_status. rewrite limit_accepted. py_go.
  erewrite bind_run; [|unfold lift; by rewrite Hc]. erewrite bind_run.
  2:{ apply transaction_run. unfold query, gets. reflexivity. }
  unfold ret. rewrite map_map. split; reflexivity.
Qed.

Lemma status_cursor work w : Uuid.valid work → in_range (Dt.Aware (wi_requested_at w)) →
  cursor_after "requested_at" (status_record (work, w)) =
  inr (KeysetCursor (Dt.Aware (wi_requested_at w)) work).
Proof.
  intros Hid Hr. unfold cursor_after, status_record.
  set (d := dict_of _).
  assert (Ht : dict_get "requested_at" d = Some (PStr (isoformat (Dt.Aware (wi_requested_at w))))) by done.
  assert (Hw : dict_get "work_id" d = Some (PStr (Uuid.to_str work))) by done.
  rewrite Ht, Hw. unfold fromisoformat. rewrite isoformat_roundtrip by done. cbn [rbind].
  by rewrite uuid_roundtrip.
Qed.

Lemma pending_cursor work w lease : Uuid.valid work → in_range (Dt.Aware (wi_available_at w)) →
  cursor_after "available_at" (pending_record ((work, w), lease)) =
  inr (KeysetCursor (Dt.Aware (wi_available_at w)) work).
Proof.
  intros Hid Hr. unfold cursor_after, pending_record.
  set (d := dict_of _).
  assert (Ht : dict_get "available_at" d = Some (PStr (isoformat (Dt.Aware (wi_available_at w))))) by done.
  assert (Hw : dict_get "work_id" d = Some (PStr (Uuid.to_str work))) by done.
  rewrite Ht, Hw. unfold fromisoformat. rewrite isoformat_roundtrip by done. cbn [rbind].
  by rewrite uuid_roundtrip.
Qed.
End Fetches.

(** C26. Walking the status pages of a tenant lists all its work: from any
    tables, with any page size, following the cursor of the last row until a
    page is empty returns a record of every work item of the tenant (with the
    status asked for), each once, newest first, and changes nothing; walking
    the pending pages does so for the unfinished items with their leases. *)
Theorem work_pages_complete context limit filter w fuel :
  1 <= limit <= 200 →
  (∀ work r, t_work_items (w_db w) !! (ctx_str context, work) = Some r →
     Uuid.valid work ∧ listed (wi_requested_at r) ∧ listed (wi_available_at r)) →
  (size (t_work_items (w_db w)) < fuel)%nat →
  (∃ rows w', walk (status context filter limit) "requested_at" fuel None w =
     (inr (map status_record rows), w') ∧ w_db w' = w_db w ∧
     rows ≡ₚ items_of (ctx_str context)
       (λ r, match filter with Some s => bool_decide (wi_status r = s) | None => true end) (w_db w) ∧
     StronglySorted (λ a b, newest_leb (key_of wi_requested_at) a b = true) rows) ∧
  (∃ rows w', walk (pending_status context limit) "available_at" fuel None w =
     (inr (map (λ row, pending_record (row, unreleased (ctx_str context) row.1 (w_db w))) rows), w') ∧
     w_db w' = w_db w ∧
     rows ≡ₚ items_of (ctx_str context) (status_in pending_statuses) (w_db w) ∧
     StronglySorted (λ a b, newest_leb (key_of wi_available_at) a b = true) rows).
Proof.
  intros Hlimit Hrows Hfuel.
  assert (Hin : ∀ g row, row ∈ items_of (ctx_str context) g (w_db w) →
    Uuid.valid row.1 ∧ listed (wi_requested_at row.2) ∧ listed (wi_available_at row.2)).
  { intros g [work r] Hr. apply items_in in Hr as [Hr _]. by apply Hrows. }
  assert (Hsize : ∀ g f bound, (length (below (key_of f) bound (items_of (ctx_str context) g (w_db w))) < fuel)%nat).
  { intros g f bound. eapply Nat.le_lt_trans; [|exact Hfuel]. apply below_length. }
  split; (match goal with |- context [_ ≡ₚ items_of _ ?g' _] => set (g := g') end).
  - destruct (walk_below (status context filter limit) "requested_at" limit ltac:(lia) wi_requested_at
      status_record (items_of (ctx_str context) g (w_db w)) (w_db w)) with (fuel := fuel) (cursor := @None Cursor)
      (at_ := datetime_max) (id := _MAX_UUID) (w := w) as (w' & Hrun & Hw').
    + intros [work r] Hr. destruct (Hin g _ Hr) as (Hv & [Hq _] & _). apply status_cursor; assumption.
    + intros c a i w1 Hc <-. by apply status_page.
    + apply items_keys.
    + reflexivity.
    + reflexivity.
    + apply Hsize.
    + exists (below (key_of wi_requested_at) (Dt.us datetime_max, _MAX_UUID) (items_of (ctx_str context) g (w_db w))), w'.
      split; [exact Hrun|]. split; [done|]. split; [|apply below_sorted].
      apply below_everything. intros work r Hr. destruct (Hin g _ Hr) as (_ & [_ Hq] & _). exact Hq.
  - destruct (walk_below (pending_status context limit) "available_at" limit ltac:(lia) wi_available_at
      (λ row, pending_record (row, unreleased (ctx_str context) row.1 (w_db w)))
      (items_of (ctx_str context) g (w_db w)) (w_db w)) with (fuel := fuel) (cursor := @None Cursor)
      (at_ := datetime_max) (id := _MAX_UUID) (w := w) as (w' & Hrun & Hw').
    + intros [work r] Hr. destruct (Hin g _ Hr) as (Hv & _ & [Ha _]). apply pending_cursor; assumption.
    + intros c a i w1 Hc <-. by apply pending_page.
    + apply items_keys.
    + reflexivity.
    + reflexivity.
    + apply Hsize.
    + exists (below (key_of wi_available_at) (Dt.us datetime_max, _MAX_UUID) (items_of (ctx_str context) g (w_db w))), w'.
      split; [exact Hrun|]. split; [done|]. split; [|apply below_sorted].
      apply below_everything. intros work r Hr. destruct (Hin g _ Hr) as (_ & _ & [_ Ha]). exact Ha.
Qed.

Lemma work_pages_complete_witness :
  ∃ rows w', walk (status acme None 1) "requested_at" 2 None registered = (inr (map status_record rows), w') ∧
    rows ≡ₚ items_of "acme" (λ _, true) (w_db registered).
Proof.
  destruct (work_pages_complete acme 1 None registered 2) as [(rows & w' & Hrun & _ & Hp & _) _].
  - lia.
  - assert (Hall : forallb (λ kv, ((kv.1.2 <? 2 ^ 128)%N && ((0 <=? wi_requested_at kv.2) &&
        (wi_requested_at kv.2 <? 2932000 * Dt.day)) && ((0 <=? wi_available_at kv.2) &&
        (wi_available_at kv.2 <? 2932000 * Dt.day)))) (map_to_list (t_work_items (w_db registered))) = true)
      by (vm_compute; reflexivity).
    intros work r Hr. apply elem_of_map_to_list, list_elem_of_In in Hr.
    rewrite forallb_forall in Hall. specialize (Hall _ Hr). cbn [fst snd] in Hall. bool_props.
    split; [by apply N.ltb_lt|]. unfold listed, in_range, datetime_max. cbn [Dt.us]. unfold Dt.day, Dt.second in *. lia.
  - vm_compute. lia.
  - exists rows, w'. split; [exact Hrun|exact Hp].
Defined.
