(* ===== verification/WorkerOperations.v ===== *)
(** * Operator operations

    Models [runtime/operations.py]: the authorization boundary around the work
    repository, over any repository with the interface
    [OperationsRepository], and proves that nothing happens without the
    permission, and that a requeue takes two people. *)

From stdpp Require Import base gmap sets list strings.
From Stdlib Require Import ZArith Lia.
From S2P Require Import Prelude PyLib Json Events Identity Work Database EventStore.
From S2P Require Import Ledger Raises LedgerReads LedgerTheorems Parsing Wire.
From S2P Require Import WorkRepository WorkLedger WorkTheorems WorkSafety WorkReads.

Local Open Scope Z_scope.

(** ** The repository *)

Class OperationsRepository (S : Type) : Type := {
  or_status : TenantContext → option WorkStatus → Z → option Cursor → M exn S (list pyval);
  or_pending_status : TenantContext → Z → option Cursor → M exn S (list pyval);
  or_cancel_by_id : TenantContext → uuid → Dt.datetime → string → M exn S unit;
  or_requeue_dead_letter :
    TenantContext → uuid → Dt.datetime → RequeueApproval → string → M exn S unit;
  or_approve_dead_letter_requeue :
    TenantContext → uuid → RequeueApproval → Dt.datetime → M exn S unit;
  or_reconcile_expired : TenantContext → Dt.datetime → Z → M exn S (list uuid);
}.

#[export] Instance work_operations `{PyRepr} : OperationsRepository World := {
  or_status := WorkReads.status;
  or_pending_status := pending_status;
  or_cancel_by_id := cancel_by_id;
  or_requeue_dead_letter := requeue_dead_letter;
  or_approve_dead_letter_requeue := approve_dead_letter_requeue;
  or_reconcile_expired := reconcile_expired;
}.

(** ** The operations *)

Section Operations.
Context {S : Type} {Repository : OperationsRepository S}.

Definition _require (principal : Principal) (context : TenantContext) (permission : Permission)
    (at_ : Dt.datetime) : M exn S unit :=
  let! decision := lift (decide_authorization principal (ctx_tenant_id context) (inl permission) at_) in
  raise_if (negb (ad_allowed decision)) (OperationDeniedError (ad_reason decision)).

Definition work_status (principal : Principal) (context : TenantContext) (at_ : Dt.datetime)
    (filter : option WorkStatus) (limit : Z) (cursor : option Cursor) : M exn S (list pyval) :=
  do! _require principal context QUEUE_READ at_ ;;
  or_status context filter limit cursor.

Definition pending (principal : Principal) (context : TenantContext) (at_ : Dt.datetime)
    (limit : Z) (cursor : option Cursor) : M exn S (list pyval) :=
  do! _require principal context QUEUE_READ at_ ;;
  or_pending_status context limit cursor.

Definition cancel (principal : Principal) (context : TenantContext) (work_id : uuid)
    (at_ : Dt.datetime) : M exn S unit :=
  do! _require principal context WORK_CANCEL at_ ;;
  let! actor := lift (principal_actor_id principal) in
  or_cancel_by_id context work_id at_ actor.

Definition requeue_dead_letter (principal : Principal) (context : TenantContext) (work_id : uuid)
    (approval : RequeueApproval) (at_ : Dt.datetime) : M exn S unit :=
  do! _require principal context DLQ_REQUEUE at_ ;;
  let! actor := lift (principal_actor_id principal) in
  do! raise_if (bool_decide (ra_approved_by approval = actor))
        (OperationDeniedError "requeue requires a different approving actor") ;;
  or_requeue_dead_letter context work_id at_ approval actor.

Definition approve_dead_letter_requeue (principal : Principal) (context : TenantContext)
    (work_id approval_id : uuid) (at_ expires_at : Dt.datetime) : M exn S RequeueApproval :=
  do! _require principal context DLQ_REQUEUE at_ ;;
  let! actor := lift (principal_actor_id principal) in
  let! approval := lift (RequeueApproval_post_init (mkRequeueApproval approval_id actor at_ "dlq:requeue")) in
  do! or_approve_dead_letter_requeue context work_id approval expires_at ;;
  ret approval.

Definition reconcile (principal : Principal) (context : TenantContext) (at_ : Dt.datetime) (limit : Z)
    : M exn S (list uuid) :=
  let! decision := lift (decide_authorization principal (ctx_tenant_id context) (inl WORK_RECONCILE) at_) in
  do! raise_if (negb (ad_allowed decision)
                || negb (bool_decide (TENANT_ADMIN ∈ ad_active_roles decision)
                         || bool_decide (PLATFORM_ADMIN ∈ ad_active_roles decision)))
        (OperationDeniedError "tenant admin or platform admin required") ;;
  or_reconcile_expired context at_ limit.

(** ** Authorization *)

(** The calls an operator can make, with the permission each needs. *)
Inductive operator_call (principal : Principal) (context : TenantContext) (at_ : Dt.datetime)
    : Permission → ∀ A, M exn S A → Prop :=
| call_status filter limit cursor :
    operator_call principal context at_ QUEUE_READ _ (work_status principal context at_ filter limit cursor)
| call_pending limit cursor :
    operator_call principal context at_ QUEUE_READ _ (pending principal context at_ limit cursor)
| call_cancel work : operator_call principal context at_ WORK_CANCEL _ (cancel principal context work at_)
| call_requeue work approval :
    operator_call principal context at_ DLQ_REQUEUE _ (requeue_dead_letter principal context work approval at_)
| call_approve work approval expires :
    operator_call principal context at_ DLQ_REQUEUE _
      (approve_dead_letter_requeue principal context work approval at_ expires)
| call_reconcile limit :
    operator_call principal context at_ WORK_RECONCILE _ (reconcile principal context at_ limit).

Lemma require_run principal context permission at_ s r s' :
  Forall binding_ok (pr_role_bindings principal) →
  _require principal context permission at_ s = (r, s') →
  s' = s ∧ (r = inr tt → entitled principal context permission at_).
Proof. intros Hok. exact (decision_guard (λ d, OperationDeniedError (ad_reason d)) _ _ _ Hok _ _ _ _). Qed.

(** Without the permission, a call raises and leaves the state alone. *)
Lemma require_first {A} principal context permission at_ (k : unit → M exn S A) s r s' :
  Forall binding_ok (pr_role_bindings principal) →
  bind (_require principal context permission at_) k s = (r, s') →
  entitled principal context permission at_ ∨ (∃ e, r = inl e) ∧ s' = s.
Proof.
  intros Hok Hrun. unfold bind in Hrun.
  destruct (_require principal context permission at_ s) as [[e|[]] s1] eqn:Hreq;
    apply require_run in Hreq as [-> Hent]; [|done|left; by apply Hent|done].
  injection Hrun as <- <-. right. split; [by eexists|done].
Qed.

(** No operator call has an effect without its permission: over any
    repository, a call that returns or changes the state was made by a
    principal of the tenant with a role binding in force at that instant that
    grants the permission of the call; every other call raises and leaves the
    state as it was. *)
Theorem operator_calls_authorized principal context at_ permission A (m : M exn S A) s r s' :
  operator_call principal context at_ permission A m →
  Forall binding_ok (pr_role_bindings principal) → m s = (r, s') →
  entitled principal context permission at_ ∨ (∃ e, r = inl e) ∧ s' = s.
Proof.
  intros Hcall Hok Hrun. destruct Hcall; try (eapply require_first; [exact Hok|exact Hrun]).
  unfold reconcile, bind, lift in Hrun.
  destruct (decide_authorization _ _ _ _) as [e|d] eqn:Hd;
    [injection Hrun as <- <-; right; split; [by eexists|done]|].
  destruct (ad_allowed d) eqn:Hall; [left; by eapply allowed_binding|].
  injection Hrun as <- <-. right. split; [by eexists|done].
Qed.
End Operations.

(** ** The approvals of the work repository *)

Abbreviation approvals := (gmap (string * uuid) ApprovalRow).

(** Whatever [m] does, it moves the approvals along [R]. *)
Definition moves {A : Type} (R : approvals → approvals → Prop) (m : Db A) : Prop :=
  ∀ w r w', m w = (r, w') → R (t_approvals (w_db w)) (t_approvals (w_db w')).

Section Moves.
Context (R : approvals → approvals → Prop) {Hpre : PreOrder R}.

Lemma moves_reads {A : Type} (Q : A → Prop) (m : Db A) : reads Q m → moves R m.
Proof. intros Hm w r w' Hrun. destruct (Hm w r w' Hrun) as [-> _]. reflexivity. Qed.

Lemma moves_bind {A B : Type} (m : Db A) (k : A → Db B) :
  moves R m → (∀ a, moves R (k a)) → moves R (bind m k).
Proof.
  intros Hm Hk w r w'. unfold bind. destruct (m w) as [[e|a] w1] eqn:H1.
  - intros [= <- <-]. by eapply Hm.
  - intros H2. etransitivity; [by eapply Hm|by eapply Hk].
Qed.

Lemma moves_ret {A : Type} (a : A) : moves R (ret a).
Proof. by apply (moves_reads (λ _, True)), reads_ret. Qed.
Lemma moves_raise {A : Type} e : moves R (raise (A := A) e).
Proof. by apply (moves_reads (λ _, True)), reads_raise. Qed.

Lemma moves_execute f : (∀ t, R (t_approvals t) (t_approvals (f t))) → moves R (execute f).
Proof. intros Hf w r w' [= <- <-]. apply Hf. Qed.

Lemma moves_attempt {A : Type} p (m : Db A) : moves R m → moves R (attempt p m).
Proof.
  intros Hm w r w'. unfold attempt, catch, bind, ret, raise. destruct (m w) as [[e|a] w1] eqn:H1.
  - apply Hm in H1. destruct (p e); by intros [= <- <-].
  - intros [= <- <-]. by eapply Hm.
Qed.

Lemma moves_transaction {A : Type} (m : Db A) : moves R m → moves R (storage_guard (transaction m)).
Proof.
  intros Hm w r w' Hrun. destruct (m (started w)) as [[e|a] w1] eqn:Hb.
  - rewrite (transaction_raise _ _ _ _ Hb) in Hrun. injection Hrun as <- <-. reflexivity.
  - rewrite (transaction_run _ _ _ _ Hb) in Hrun. injection Hrun as <- <-. by apply Hm in Hb.
Qed.

Lemma moves_append_atomic context events v m outbox :
  moves R m → moves R (append_atomic context events v m outbox).
Proof.
  intros Hm w [e|n] w' Hrun.
  - apply append_atomic_failed in Hrun as ->. reflexivity.
  - apply append_atomic_ok in Hrun as (w1 & w2 & H1 & -> & _ & _ & _ & _ & <- & _). by apply Hm in H1.
Qed.

Lemma moves_update_item key guard f miss : moves R (update_item key guard f miss).
Proof.
  unfold update_item. apply moves_bind; [by apply (moves_reads (λ _, True)); intros w r w' [= <- <-]|].
  intros [row|]; [|by apply (moves_reads (λ _, True)), reads_raise]. case_match.
  - apply moves_execute. reflexivity.
  - by apply (moves_reads (λ _, True)), reads_raise.
Qed.
End Moves.

(** Along the structure of an operation. *)
Ltac moves_solve :=
  cbv zeta;
  repeat first
    [ assumption
    | apply moves_update_item; assumption
    | apply moves_execute; reflexivity
    | apply moves_append_atomic
    | apply moves_attempt
    | apply moves_ret; assumption
    | apply moves_raise; assumption
    | eapply moves_reads; [assumption|first [apply reads_raise_if|apply reads_lift|apply reads_query
        |apply reads_load_request|apply reads_new_event]]
    | apply (moves_reads _ (λ _, True)); by intros ? ? ? [= <- <-]
    | apply moves_bind; [assumption| |intros ?]
    | case_match ].

Section Kept.
Context (R : approvals → approvals → Prop) {Hpre : PreOrder R}.

Lemma moves_cancel context work at_ actor : moves R (cancel_by_id context work at_ actor).
Proof. unfold cancel_by_id, request_cancel, cancel_projection. moves_solve. Qed.
Lemma moves_collect {A : Type} (rows : list A) key round :
  (∀ a, moves R (round a)) → moves R (collect rows key round).
Proof.
  intros Hround. induction rows as [|a rows IH]; cbn [collect]; [by apply moves_ret|].
  apply moves_bind; [done|apply Hround|]. intros b. apply moves_bind; [done|done|].
  intros l. case_match; by apply moves_ret.
Qed.

Lemma moves_reconcile context now limit : moves R (reconcile_expired context now limit).
Proof.
  unfold reconcile_expired. apply moves_bind; [done|moves_solve|intros _].
  apply moves_bind; [done|apply moves_transaction; moves_solve|intros [redrives expired]].
  apply moves_bind; [done|apply moves_collect; intros a; unfold redrive_one|intros first].
  { moves_solve. }
  apply moves_bind; [done|apply moves_collect; intros a; unfold expire_one|intros second; moves_solve].
  moves_solve.
Qed.
End Kept.

(** ** Two people for a requeue *)

(** No approval is new or names another work or approver. *)
Definition no_new_approval (m m' : approvals) : Prop :=
  ∀ key a', m' !! key = Some a' → ∃ a, m !! key = Some a ∧
    ap_work_id a' = ap_work_id a ∧ ap_approved_by a' = ap_approved_by a.

#[export] Instance no_new_approval_preorder : PreOrder no_new_approval.
Proof.
  split.
  - intros m key a Ha. by exists a.
  - intros m1 m2 m3 H12 H23 key a3 H3. destruct (H23 key a3 H3) as (a2 & H2 & Hw & Hb).
    destruct (H12 key a2 H2) as (a1 & H1 & Hw' & Hb'). exists a1. split; [done|]. by rewrite Hw, Hb.
Qed.

Lemma consume_no_new (key : string * uuid) (f : ApprovalRow → ApprovalRow) (m : approvals) :
  (∀ a, ap_work_id (f a) = ap_work_id a ∧ ap_approved_by (f a) = ap_approved_by a) →
  no_new_approval m (alter f key m).
Proof.
  intros Hf k a' Ha. destruct (decide (k = key)) as [->|Hne].
  - rewrite lookup_alter_eq in Ha. destruct (m !! key) as [a|]; [|done]. injection Ha as <-.
    exists a. split; [done|apply Hf].
  - rewrite lookup_alter_ne in Ha by done. by exists a'.
Qed.

Lemma moves_requeue context work at_ approval actor :
  moves no_new_approval (WorkRepository.requeue_dead_letter context work at_ approval actor).
Proof.
  unfold WorkRepository.requeue_dead_letter, requeue_projection.
  pose proof no_new_approval_preorder. moves_solve.
  apply moves_execute; intros t; by apply consume_no_new.
Qed.

(** A new approval is the caller's. *)
Lemma approve_run context work approval expires w r w' :
  WorkRepository.approve_dead_letter_requeue context work approval expires w = (r, w') →
  t_approvals (w_db w') = t_approvals (w_db w) ∨
  r = inr tt ∧ ∃ a, ap_work_id a = work ∧ ap_approved_by a = ra_approved_by approval ∧
    t_approvals (w_db w') = <[(ctx_str context, ra_approval_id approval) := a]> (t_approvals (w_db w)).
Proof.
  intros Hrun. unfold WorkRepository.approve_dead_letter_requeue in Hrun.
  unfold bind at 1, lift in Hrun. destruct (Dt.le _ _) as [e|past]; [injection Hrun as <- <-; by left|].
  unfold bind at 1 in Hrun. destruct past; [injection Hrun as <- <-; by left|]. simpl raise_if in Hrun.
  unfold ret at 1 in Hrun. cbv beta iota in Hrun.
  match type of Hrun with storage_guard (transaction ?b) _ = _ => destruct (b (started w)) as [[e|u] w1] eqn:Hb end.
  - rewrite (transaction_raise _ _ _ _ Hb) in Hrun. injection Hrun as <- <-. by left.
  - rewrite (transaction_run _ _ _ _ Hb) in Hrun. injection Hrun as <- <-. right. db_inv.
    split; [done|]. eexists. split; [|split]; [| |reflexivity]; reflexivity.
Qed.

(** An approval an operator granted. *)
Record Grant : Type := mkGrant {
  gr_context : TenantContext;
  gr_work_id : uuid;
  gr_approval_id : uuid;
  gr_principal : Principal;
  gr_at : Dt.datetime;
}.

Section TwoPeople.
Context {Repr : PyRepr}.

(** Runs of the platform with the grants made so far: operators approve and
    requeue through [WorkerOperations]; everything else leaves the approvals
    alone. *)
Inductive operated : list Grant → World → Prop :=
| operated_start w : t_approvals (w_db w) = ∅ → operated [] w
| operated_approve grants principal context work id at_ expires approval w w' :
    operated grants w → Forall binding_ok (pr_role_bindings principal) →
    approve_dead_letter_requeue principal context work id at_ expires w = (inr approval, w') →
    operated (mkGrant context work id principal at_ :: grants) w'
| operated_refused grants principal context work id at_ expires e w w' :
    operated grants w →
    approve_dead_letter_requeue principal context work id at_ expires w = (inl e, w') →
    operated grants w'
| operated_requeue grants principal context work approval at_ r w w' :
    operated grants w → requeue_dead_letter principal context work approval at_ w = (r, w') →
    operated grants w'
| operated_other grants w w' :
    operated grants w → t_approvals (w_db w') = t_approvals (w_db w) → operated grants w'.

(** The other operator calls are among the other steps. *)
Lemma moves_require R (Hpre : PreOrder R) principal context permission at_ :
  moves R (_require principal context permission at_).
Proof. unfold _require. moves_solve. Qed.

Lemma other_calls_keep_approvals principal context at_ :
  (∀ filter limit cursor, moves eq (work_status principal context at_ filter limit cursor)) ∧
  (∀ limit cursor, moves eq (pending principal context at_ limit cursor)) ∧
  (∀ work, moves eq (cancel principal context work at_)) ∧
  (∀ limit, moves eq (reconcile principal context at_ limit)).
Proof.
  assert (Hpre : PreOrder (@eq approvals)) by apply _. split_and!; intros.
  - unfold work_status. apply moves_bind; [done|by apply moves_require|intros _].
    unfold or_status, work_operations, WorkReads.status. moves_solve.
  - unfold pending. apply moves_bind; [done|by apply moves_require|intros _].
    unfold or_pending_status, work_operations, pending_status. moves_solve.
  - unfold cancel. apply moves_bind; [done|by apply moves_require|intros _].
    apply moves_bind; [done|moves_solve|intros actor]. by apply moves_cancel.
  - unfold reconcile. apply moves_bind; [done|moves_solve|intros d].
    apply moves_bind; [done|moves_solve|intros _]. by apply moves_reconcile.
Qed.

Lemma moves_requeue_call principal context work approval at_ :
  moves no_new_approval (requeue_dead_letter principal context work approval at_).
Proof.
  pose proof no_new_approval_preorder as Hpre. unfold requeue_dead_letter.
  apply moves_bind; [done|by apply moves_require|intros _].
  apply moves_bind; [done|moves_solve|intros actor]. apply moves_bind; [done|moves_solve|intros _].
  apply moves_requeue.
Qed.

(** A refused approval leaves no row. *)
Lemma approve_refused principal context work id at_ expires w e w' :
  approve_dead_letter_requeue principal context work id at_ expires w = (inl e, w') →
  t_approvals (w_db w') = t_approvals (w_db w).
Proof.
  assert (Hpre : PreOrder (@eq approvals)) by apply _. unfold approve_dead_letter_requeue. intros Hrun.
  apply bind_err in Hrun as [Hrun|([] & w1 & H1 & Hrun)];
    [by apply (moves_require eq Hpre) in Hrun|apply (moves_require eq Hpre) in H1; rewrite H1].
  apply bind_err in Hrun as [Hrun|(actor & w2 & H2 & Hrun)]; [by injection Hrun as _ <-|injection H2 as _ <-].
  apply bind_err in Hrun as [Hrun|(ap & w3 & H3 & Hrun)]; [by injection Hrun as _ <-|injection H3 as _ <-].
  apply bind_err in Hrun as [Hrun|(u & w4 & _ & Hrun)]; [|done].
  by apply approve_run in Hrun as [?|[? _]].
Qed.


(** The grant behind an approval row. *)
Definition granted_by (grants : list Grant) (key : string * uuid) (a : ApprovalRow) : Prop :=
  ∃ g, g ∈ grants ∧ key = (ctx_str (gr_context g), gr_approval_id g) ∧ ap_work_id a = gr_work_id g ∧
    principal_actor_id (gr_principal g) = inr (ap_approved_by a) ∧
    entitled (gr_principal g) (gr_context g) DLQ_REQUEUE (gr_at g).

Definition all_granted (grants : list Grant) (m : approvals) : Prop :=
  ∀ key a, m !! key = Some a → granted_by grants key a.

Lemma operated_granted grants w : operated grants w → all_granted grants (t_approvals (w_db w)).
Proof.
  induction 1 as [w H0|grants principal context work id at_ expires approval w w' _ IH Hok Hrun
    |grants principal context work id at_ expires e w w' _ IH Hrun
    |grants principal context work approval at_ r w w' _ IH Hrun|grants w w' _ IH Hkeep].
  - intros key a. by rewrite H0.
  - unfold approve_dead_letter_requeue in Hrun. apply bind_ok in Hrun as ([] & w1 & Hreq & Hrun).
    apply require_run in Hreq as [-> Hent]; [|done]. specialize (Hent eq_refl).
    apply bind_ok in Hrun as (actor & w2 & Hact & Hrun). injection Hact as Hact <-.
    apply bind_ok in Hrun as (ap & w3 & Hap & Hrun). injection Hap as Hap <-.
    apply bind_ok in Hrun as ([] & w4 & Hrun & Hret). injection Hret as -> <-.
    assert (Heq : approval = mkRequeueApproval id actor at_ "dlq:requeue").
    { unfold RequeueApproval_post_init in Hap. by py_inv. }
    apply approve_run in Hrun as [->|(_ & a & Hw & Hby & ->)]; subst approval.
    + intros key a Ha. destruct (IH key a Ha) as (g & Hg & Hrest). exists g. split; [by right|done].
    + intros key b. destruct (decide (key = (ctx_str context, id))) as [->|Hne].
      * rewrite lookup_insert_eq. intros [= <-]. eexists. split; [left|]. cbn. by rewrite Hw, Hby.
      * rewrite lookup_insert_ne by done. intros Hb. destruct (IH key b Hb) as (g & Hg & Hrest).
        exists g. split; [by right|done].
  - apply approve_refused in Hrun as ->. exact IH.
  - apply moves_requeue_call in Hrun. intros key a' Ha.
    destruct (Hrun key a' Ha) as (a & Ha0 & Hw & Hb). destruct (IH key a Ha0) as (g & Hg & Hk & Hgw & Hgb & Hent).
    exists g. by rewrite Hw, Hb.
  - by rewrite Hkeep.
Qed.

(** A requeue of a dead letter takes two people: in every run of the
    platform, when an operator's requeue commits, another operator had
    approved it in the same tenant, for that work item and under that
    approval, each holding the requeue permission when they acted. *)
Theorem requeue_takes_two_people grants principal context work approval at_ w u w' :
  operated grants w → Forall binding_ok (pr_role_bindings principal) →
  requeue_dead_letter principal context work approval at_ w = (inr u, w') →
  ∃ g, g ∈ grants ∧ gr_work_id g = work ∧ gr_approval_id g = ra_approval_id approval ∧
    entitled (gr_principal g) context DLQ_REQUEUE (gr_at g) ∧
    entitled principal context DLQ_REQUEUE at_ ∧
    ∃ approver actor, principal_actor_id (gr_principal g) = inr approver ∧
      principal_actor_id principal = inr actor ∧ approver ≠ actor.
Proof.
  intros Hop Hok Hrun. apply operated_granted in Hop. unfold requeue_dead_letter in Hrun.
  apply bind_ok in Hrun as ([] & w1 & Hreq & Hrun). apply require_run in Hreq as [-> Hent]; [|done].
  apply bind_ok in Hrun as (actor & w2 & Hact & Hrun). injection Hact as Hact <-.
  apply bind_ok in Hrun as ([] & w3 & Hne & Hrun). apply raise_if_ok in Hne as (_ & -> & _).
  apply requeue_run in Hrun as (w7 & w8 & Hm & _ & _ & Hap).
  apply requeue_projection_ok in Hm as (a & r & c & Ha & Hw & Hby & Hdiff & _).
  rewrite Hap in Ha. destruct (Hop _ _ Ha) as (g & Hg & Hkey & Hgw & Hgb & Hgent).
  injection Hkey as Hctx Hid. exists g. split; [done|]. split; [congruence|]. split; [done|].
  assert (Heq : gr_context g = context).
  { destruct (gr_context g) as [[t1]], context as [[t2]]. unfold ctx_str in Hctx. simpl in Hctx. by subst. }
  rewrite Heq in Hgent. split; [done|]. split; [by apply Hent|]. exists (ap_approved_by a), actor. done.
Qed.
End TwoPeople.

(** ** Samples *)

#[local] Existing Instance sample_repr.

Definition admin (name : string) : Principal :=
  mkPrincipal name "https://id.example" (mkTenantId "acme") PK_USER
    [mkRoleBinding (mkTenantId "acme") TENANT_ADMIN (inl (mkUserId "root")) (Dt.Aware 0) None None]
    (Some (mkUserId name)) None.

Lemma admin_bindings name : Forall binding_ok (pr_role_bindings (admin name)).
Proof. by repeat constructor. Qed.

(** Alice reconciles. *)
Lemma operator_calls_authorized_witness :
  (reconcile (admin "alice") acme (Dt.Aware 9000000) 10 registered).1 = inr [] ∧
  entitled (admin "alice") acme WORK_RECONCILE (Dt.Aware 9000000).
Proof.
  assert (Hr : (reconcile (admin "alice") acme (Dt.Aware 9000000) 10 registered).1 = inr [])
    by (vm_compute; reflexivity).
  split; [exact Hr|].
  destruct (reconcile (admin "alice") acme (Dt.Aware 9000000) 10 registered) as [r w'] eqn:Hrun.
  destruct (operator_calls_authorized (admin "alice") acme (Dt.Aware 9000000) WORK_RECONCILE _
    (reconcile (admin "alice") acme (Dt.Aware 9000000) 10) registered r w') as [He|[[e He] _]].
  - constructor.
  - apply admin_bindings.
  - exact Hrun.
  - exact He.
  - rewrite He in Hr. discriminate Hr.
Defined.

(** Alice approves, Bob requeues. *)
Definition alices_approval : result RequeueApproval * World :=
  approve_dead_letter_requeue (admin "alice") acme 100%N 77%N (Dt.Aware 23000000) (Dt.Aware 900000000) dead.
Definition bobs_requeue : result unit * World :=
  requeue_dead_letter (admin "bob") acme 100%N
    (mkRequeueApproval 77%N "alice" (Dt.Aware 23000000) "dlq:requeue") (Dt.Aware 24000000) alices_approval.2.

Lemma requeue_takes_two_people_witness :
  bobs_requeue.1 = inr tt ∧
  ∃ g, g ∈ [mkGrant acme 100%N 77%N (admin "alice") (Dt.Aware 23000000)] ∧
    principal_actor_id (gr_principal g) = inr "alice"%string.
Proof.
  assert (Hb : bobs_requeue.1 = inr tt) by (vm_compute; reflexivity).
  assert (Ha : alices_approval.1 = inr (mkRequeueApproval 77%N "alice" (Dt.Aware 23000000) "dlq:requeue"))
    by (vm_compute; reflexivity).
  assert (Hstart : operated [] dead) by (apply operated_start; vm_compute; reflexivity).
  split; [exact Hb|]. unfold bobs_requeue in *. destruct alices_approval as [r w1] eqn:Happ.
  simpl in Ha, Hb. subst r.
  destruct (requeue_dead_letter (admin "bob") _ _ _ _ w1) as [r w2] eqn:Hreq. simpl in Hb. subst r.
  destruct (requeue_takes_two_people [mkGrant acme 100%N 77%N (admin "alice") (Dt.Aware 23000000)]
    (admin "bob") acme 100%N (mkRequeueApproval 77%N "alice" (Dt.Aware 23000000) "dlq:requeue")
    (Dt.Aware 24000000) w1 tt w2) as (g & Hg & _).
  - eapply operated_approve; [exact Hstart|apply admin_bindings|exact Happ].
  - apply admin_bindings.
  - exact Hreq.
  - exists g. split; [exact Hg|]. apply list_elem_of_singleton in Hg as ->. reflexivity.
Defined.
