(* ===== verification/Authentication.v ===== *)
(** * Authentication

    Models [identity/authentication.py]: signing keys from a static set or a
    cached JWKS endpoint, verification of OIDC tokens, and the directory that
    maps verified subjects to principals.  The JWT library, the RSA keys, the
    clock and the HTTP client are the classes [JwtLibrary], [RsaLibrary] and
    [JwksEndpoint]. *)

From stdpp Require Import base gmap list strings.
From Stdlib Require Import ZArith Lia SpecFloat Ascii.
From S2P Require Import Prelude PyLib Json Events Identity Parsing Wire JsonText Floats RedisStreams.

Local Open Scope Z_scope.

(** ** Text *)

(** [s.partition(" ")]: what is before the first space, whether there is one,
    and what is after it. *)
Fixpoint partition_space (s : string) : string * bool * string :=
  match s with
  | EmptyString => (EmptyString, false, EmptyString)
  | String c s' =>
      if Ascii.eqb c " " then (EmptyString, true, s')
      else let '(a, b, rest) := partition_space s' in (String c a, b, rest)
  end.

(** [int.from_bytes(b, "big")] *)
Fixpoint from_bytes (b : string) (acc : Z) : Z :=
  match b with
  | EmptyString => acc
  | String c b' => from_bytes b' (acc * 256 + Z.of_N (N_of_ascii c))
  end.

(** ** Signing keys *)

Record VerificationKey : Type := mkVerificationKey {
  vk_key_id : string;
  vk_algorithm : string;
  vk_pem : string;
}.

Definition VerificationKey_post_init (k : VerificationKey) : result VerificationKey :=
  raise! ValueError "verification key fields are required"
    when! PyStr.is_empty (vk_key_id k) || PyStr.is_empty (vk_algorithm k) || PyStr.is_empty (vk_pem k) ;;
  inr k.

Definition unavailable : exn := AuthenticationError SIGNING_KEY_UNAVAILABLE.

(** [StaticJwksProvider] *)
Fixpoint StaticJwksProvider_init (keys : list VerificationKey) (known : gmap string VerificationKey)
    : result (gmap string VerificationKey) :=
  match keys with
  | [] => inr known
  | k :: keys' =>
      raise! ValueError "duplicate signing key ids are not allowed"
        when! bool_decide (known !! vk_key_id k ≠ None) ;;
      StaticJwksProvider_init keys' (<[vk_key_id k := k]> known)
  end.

Definition StaticJwksProvider_get_key (known : gmap string VerificationKey) (key_id : string)
    : result VerificationKey :=
  match known !! key_id with Some k => inr k | None => inl unavailable end.

(** [jwt.utils.base64url_decode], and the PEM of the public key with this
    exponent and modulus. *)
Class RsaLibrary : Type := {
  rl_base64url_decode : string → result string;
  rl_public_pem : Z → Z → result string;
}.

Definition except_key_material (e : exn) : bool :=
  match e with TypeError _ | ValueError _ => true | _ => false end.

(** The key numbers of the [try] block, and the key. *)
Definition public_pem `{RsaLibrary} (n e : string) : result string :=
  let? n := rl_base64url_decode n in
  let? e := rl_base64url_decode e in
  rl_public_pem (from_bytes e 0) (from_bytes n 0).

Definition str_field (field : string) (d : pydict) : option string :=
  match dict_get field d with Some (PStr s) => Some s | _ => None end.

Definition _parse_rsa_jwk `{RsaLibrary} (raw_key : pyval) : result (option VerificationKey) :=
  match raw_key with
  | PDict d =>
      match str_field "kid" d, str_field "alg" d, str_field "kty" d, str_field "n" d, str_field "e" d with
      | Some kid, Some alg, Some kty, Some n, Some e =>
          if negb (bool_decide (kty = "RSA"%string)) then inr None
          else
            match public_pem n e with
            | inl x => if except_key_material x then inl unavailable else inl x
            | inr pem => let? key := VerificationKey_post_init (mkVerificationKey kid alg pem) in inr (Some key)
            end
      | _, _, _, _, _ => inr None
      end
  | _ => inr None
  end.

(** [for raw_key in document("keys")] *)
Fixpoint parse_keys `{RsaLibrary} (raw_keys : list pyval) (keys : gmap string VerificationKey)
    : result (gmap string VerificationKey) :=
  match raw_keys with
  | [] => inr keys
  | raw_key :: raw_keys' =>
      let? key := _parse_rsa_jwk raw_key in
      match key with
      | None => parse_keys raw_keys' keys
      | Some k =>
          raise! unavailable when! bool_decide (keys !! vk_key_id k ≠ None) ;;
          parse_keys raw_keys' (<[vk_key_id k := k]> keys)
      end
  end.

(** ** The remote provider *)

(** The monotonic clock and a GET request: the final URL, if the response
    tells it, and the body. *)
Class JwksEndpoint (S : Type) : Type := {
  je_monotonic : M exn S spec_float;
  je_urlopen : string → spec_float → M exn S (option string * string);
}.

Record RemoteJwksProvider : Type := mkRemoteJwksProvider {
  rj_jwks_url : string;
  rj_allow_http : bool;
  rj_timeout_seconds : spec_float;
  rj_cache_ttl_seconds : spec_float;
}.

Definition trusted_url (allow_http : bool) (url : string) : bool :=
  PyStr.starts_with "https://" url || (allow_http && PyStr.starts_with "http://" url).

Definition RemoteJwksProvider_init (jwks_url : string) (timeout_seconds : spec_float)
    (allow_http : bool) (cache_ttl_seconds : spec_float) : result RemoteJwksProvider :=
  raise! ValueError "JWKS URL must use HTTPS outside explicit development"
    when! negb (trusted_url allow_http jwks_url) ;;
  raise! ValueError "JWKS cache TTL must be between 1 and 3600 seconds"
    when! negb (SFleb (sf_of_Z 1) cache_ttl_seconds && SFleb cache_ttl_seconds (sf_of_Z 3600)) ;;
  inr (mkRemoteJwksProvider jwks_url allow_http timeout_seconds cache_ttl_seconds).

(** The environment and the cache; a new provider has no keys and expires at
    0.0. *)
Record JwksState (S : Type) : Type := mkJwksState {
  js_env : S;
  js_cached_keys : gmap string VerificationKey;
  js_document_expires_at : spec_float;
}.
Arguments mkJwksState {S}.
Arguments js_env {S}.
Arguments js_cached_keys {S}.
Arguments js_document_expires_at {S}.

Definition new_jwks_state {S} (env : S) : JwksState S := mkJwksState env ∅ f64_zero.

(** The exceptions the [except] clause of [_refresh] names: [HTTPError] is an
    [URLError]; of the [ValueError]s only the two of decoding. *)
Definition except_fetch (e : exn) : bool :=
  match e with
  | UrlError | TimeoutError => true
  | ValueError m => bool_decide (m = "JSONDecodeError"%string) || bool_decide (m = "UnicodeDecodeError"%string)
  | _ => false
  end.

(** [document.get("keys")] when the document is valid *)
Definition document_keys (document : pyval) : option (list pyval) :=
  match document with
  | PDict d => match dict_get "keys" d with Some (PList l) => Some l | _ => None end
  | _ => None
  end.

Section Remote.
Context {Limit : RecursionLimit} {Rsa : RsaLibrary} {S : Type} {Endpoint : JwksEndpoint S}
  (provider : RemoteJwksProvider).

Definition on_env {A} (m : M exn S A) : M exn (JwksState S) A := λ s,
  let '(r, env) := m (js_env s) in
  (r, mkJwksState env (js_cached_keys s) (js_document_expires_at s)).

(** The body of the document, checked and read. *)
Definition read_document (final_url : option string) (body : string) : result pyval :=
  raise! unavailable
    when! negb (trusted_url (rj_allow_http provider) (default (rj_jwks_url provider) final_url)) ;;
  let? text := utf8_decode body in json_loads text.

Definition fetch_document : M exn (JwksState S) pyval :=
  catch (let! response := on_env (je_urlopen (rj_jwks_url provider) (rj_timeout_seconds provider)) in
         lift (read_document response.1 response.2))
    (λ e, if except_fetch e then raise unavailable else raise e).

Definition store_keys (keys : gmap string VerificationKey) (expires_at : spec_float)
    : M exn (JwksState S) unit := modify (λ s, mkJwksState (js_env s) keys expires_at).

Definition _refresh (now : spec_float) : M exn (JwksState S) unit :=
  let! document := fetch_document in
  match document_keys document with
  | None => raise unavailable
  | Some raw_keys =>
      let! refreshed_keys := lift (parse_keys raw_keys ∅) in
      store_keys refreshed_keys (f64_add now (rj_cache_ttl_seconds provider))
  end.

Definition RemoteJwksProvider_get_key (key_id : string) : M exn (JwksState S) VerificationKey :=
  let! now := on_env je_monotonic in
  let! expires_at := gets js_document_expires_at in
  do! (if SFleb expires_at now then _refresh now else ret tt) ;;
  let! keys := gets js_cached_keys in
  match keys !! key_id with Some k => ret k | None => raise unavailable end.
End Remote.

(** ** Token verification *)

Record JwtValidationConfig : Type := mkJwtValidationConfig {
  jc_issuer : string;
  jc_audience : string;
  jc_clock_skew : Z;
  jc_algorithms : list string;
}.

Definition JwtValidationConfig_post_init (c : JwtValidationConfig) : result JwtValidationConfig :=
  raise! ValueError "issuer and audience are required"
    when! PyStr.is_empty (jc_issuer c) || PyStr.is_empty (jc_audience c) ;;
  raise! ValueError "clock skew must be between zero and five minutes"
    when! (jc_clock_skew c <? 0) || (300 * Dt.second <? jc_clock_skew c) ;;
  raise! ValueError "at least one signing algorithm is required"
    when! bool_decide (jc_algorithms c = []) ;;
  inr c.

Record VerifiedClaims : Type := mkVerifiedClaims {
  vc_issuer : string;
  vc_subject : string;
  vc_audiences : list string;
  vc_expires_at : Dt.datetime;
  vc_issued_at : Dt.datetime;
  vc_asserted_tenant_id : option TenantId;
  vc_authorized_party : option string;
}.

Definition invalid_claims : exn := AuthenticationError INVALID_CLAIMS.

(** [isinstance(v, (int, float))]; [bool] is an [int]. *)
Definition is_number (v : pyval) : bool :=
  match v with PInt _ | PBool _ | PFloat _ => true | _ => false end.

(** [datetime.fromtimestamp(value, UTC)] within the years 1 to 9999 *)
Definition _numeric_date (v : pyval) : result Dt.datetime :=
  let us := match v with
            | PInt z => Some (z * Dt.second)
            | PBool b => Some (if b then Dt.second else 0)
            | PFloat (S754_infinity _ | S754_nan) => None
            | PFloat x => Some (timedelta_seconds x)
            | _ => None
            end in
  match us with
  | Some us =>
      raise! invalid_claims
        when! negb ((-719162 * Dt.day <=? us) && (us <? 2932897 * Dt.day)) ;;
      inr (Dt.Aware us)
  | None => inl invalid_claims
  end.

Fixpoint all_strings (l : list pyval) : option (list string) :=
  match l with
  | [] => Some []
  | PStr s :: l' => (s ::.) <$> all_strings l'
  | _ => None
  end.

Definition audiences_of (audience : option pyval) : option (list string) :=
  match audience with
  | Some (PStr s) => Some [s]
  | Some (PList l) => all_strings l
  | _ => None
  end.

(** The tenant claim: absent, or the identifier it must be. *)
Definition tenant_claim (payload : pydict) : result (option TenantId) :=
  match dict_get "tenant_id" payload with
  | None => inr None
  | Some (PStr s) => match TenantId_new s with inr t => inr (Some t) | inl _ => inl invalid_claims end
  | Some _ => inl invalid_claims
  end.

Definition party_claim (payload : pydict) : result (option string) :=
  match dict_get "azp" payload with
  | None | Some PNone => inr None
  | Some (PStr s) => inr (Some s)
  | Some _ => inl invalid_claims
  end.

Definition _verified_claims (payload : pydict) : result VerifiedClaims :=
  match dict_get "sub" payload, dict_get "iss" payload, dict_get "exp" payload, dict_get "iat" payload with
  | Some (PStr subject), Some (PStr issuer), Some expires_at, Some issued_at =>
      raise! invalid_claims
        when! PyStr.is_empty subject || negb (is_number expires_at) || negb (is_number issued_at) ;;
      match audiences_of (dict_get "aud" payload) with
      | Some audiences =>
          let? asserted_tenant_id := tenant_claim payload in
          let? authorized_party := party_claim payload in
          let? expires := _numeric_date expires_at in
          let? issued := _numeric_date issued_at in
          inr (mkVerifiedClaims issuer subject audiences expires issued asserted_tenant_id authorized_party)
      | None => inl invalid_claims
      end
  | _, _, _, _ => inl invalid_claims
  end.

(** [jwt.get_unverified_header], and [jwt.decode] with the required claims
    aud, exp, iat, iss and sub, which reads the clock. *)
Class JwtLibrary (S : Type) : Type := {
  jl_get_unverified_header : string → result pydict;
  jl_decode : string → string → JwtValidationConfig → M exn S pydict;
}.

(** The [except] clauses after [jwt.decode], in their order. *)
Definition classify_jwt_error (e : exn) : exn :=
  match e with
  | JwtError JwtExpiredSignature => AuthenticationError EXPIRED_TOKEN
  | JwtError JwtInvalidIssuer => AuthenticationError WRONG_ISSUER
  | JwtError JwtInvalidAudience => AuthenticationError WRONG_AUDIENCE
  | JwtError JwtInvalidSignature => AuthenticationError INVALID_SIGNATURE
  | JwtError JwtInvalidToken | TypeError _ | OverflowError => invalid_claims
  | e => e
  end.

Section Verifier.
Context {S : Type} {Jwt : JwtLibrary S} (config : JwtValidationConfig)
  (get_key : string → M exn S VerificationKey).

(** The algorithm and the key id of an acceptable header. *)
Definition checked_header (token : string) : result (string * string) :=
  raise! AuthenticationError MISSING_TOKEN when! PyStr.is_empty token ;;
  match jl_get_unverified_header token with
  | inl (JwtError _) => inl (AuthenticationError MALFORMED_TOKEN)
  | inl e => inl e
  | inr header =>
      match str_field "alg" header with
      | Some algorithm =>
          raise! AuthenticationError UNSUPPORTED_ALGORITHM
            when! negb (bool_decide (algorithm ∈ jc_algorithms config)) ;;
          match str_field "kid" header with
          | Some key_id =>
              raise! AuthenticationError MALFORMED_TOKEN when! PyStr.is_empty key_id ;;
              inr (algorithm, key_id)
          | None => inl (AuthenticationError MALFORMED_TOKEN)
          end
      | None => inl (AuthenticationError UNSUPPORTED_ALGORITHM)
      end
  end.

Definition verify (token : string) : M exn S VerifiedClaims :=
  let! header := lift (checked_header token) in
  let! key := get_key header.2 in
  do! raise_if (negb (bool_decide (vk_algorithm key = header.1)))
        (AuthenticationError UNSUPPORTED_ALGORITHM) ;;
  let! payload := catch (jl_decode token (vk_pem key) config) (λ e, raise (classify_jwt_error e)) in
  lift (_verified_claims payload).
End Verifier.

(** ** The directory *)

Record IdentityRecord : Type := mkIdentityRecord {
  ir_issuer : string;
  ir_subject : string;
  ir_tenant_id : TenantId;
  ir_kind : PrincipalKind;
  ir_role_bindings : list RoleBinding;
  ir_enabled : bool;
  ir_user_id : option UserId;
  ir_service_identity : option ServiceIdentity;
}.

Definition IdentityRecord_post_init (r : IdentityRecord) : result IdentityRecord :=
  raise! ValueError "identity record issuer must not be empty" when! PyStr.is_empty (ir_issuer r) ;;
  raise! ValueError "identity record subject must not be empty" when! PyStr.is_empty (ir_subject r) ;;
  let has_user := is_some (ir_user_id r) in
  let has_service := is_some (ir_service_identity r) in
  raise! ValueError "identity record must have exactly one internal identity"
    when! Bool.eqb has_user has_service ;;
  raise! ValueError "user identity record requires user_id"
    when! match ir_kind r with PK_USER => negb has_user | PK_SERVICE => false end ;;
  raise! ValueError "service identity record requires service_identity"
    when! match ir_kind r with PK_SERVICE => negb has_service | PK_USER => false end ;;
  raise! ValueError "identity record role bindings must match the tenant"
    when! existsb (λ b, negb (bool_decide (rb_tenant_id b = ir_tenant_id r))) (ir_role_bindings r) ;;
  inr r.

Definition to_principal (r : IdentityRecord) : result Principal :=
  Principal_post_init
    (mkPrincipal (ir_subject r) (ir_issuer r) (ir_tenant_id r) (ir_kind r) (ir_role_bindings r)
       (ir_user_id r) (ir_service_identity r)).

Abbreviation Directory := (gmap (string * string) IdentityRecord).

Fixpoint InMemoryIdentityDirectory_init (records : list IdentityRecord) (known : Directory)
    : result Directory :=
  match records with
  | [] => inr known
  | r :: records' =>
      raise! ValueError "duplicate identity records are not allowed"
        when! bool_decide (known !! (ir_issuer r, ir_subject r) ≠ None) ;;
      InMemoryIdentityDirectory_init records' (<[(ir_issuer r, ir_subject r) := r]> known)
  end.

Definition resolve (directory : Directory) (claims : VerifiedClaims) : result Principal :=
  match directory !! (vc_issuer claims, vc_subject claims) with
  | None => inl (AuthenticationError UNKNOWN_IDENTITY)
  | Some record =>
      raise! AuthenticationError IDENTITY_DISABLED when! negb (ir_enabled record) ;;
      raise! AuthenticationError TENANT_MISMATCH
        when! match vc_asserted_tenant_id claims with
              | Some t => negb (bool_decide (t = ir_tenant_id record))
              | None => false
              end ;;
      to_principal record
  end.

(** ** The service *)

(** The token of an [Authorization] header. *)
Definition bearer_token (authorization_header : option string) : result string :=
  match authorization_header with
  | None => inl (AuthenticationError MISSING_TOKEN)
  | Some header =>
      let '(scheme, separator, token) := partition_space header in
      raise! AuthenticationError MALFORMED_TOKEN
        when! negb separator || negb (bool_decide (str_lower scheme = "bearer"%string))
              || PyStr.is_empty (PyStr.strip token) ;;
      inr (PyStr.strip token)
  end.

Definition authenticate {S : Type} {Jwt : JwtLibrary S} (config : JwtValidationConfig)
    (get_key : string → M exn S VerificationKey) (directory : Directory)
    (authorization_header : option string) : M exn S Principal :=
  let! token := lift (bearer_token authorization_header) in
  let! claims := verify config get_key token in
  lift (resolve directory claims).
