(* ===== verification/AuthenticationTheorems.v ===== *)
(** * Theorems about authentication

    Who is let in, how a refusal is reported, and how long a signing key is
    believed. *)

From stdpp Require Import base gmap list strings pretty.
From Stdlib Require Import ZArith Lia SpecFloat Ascii.
From S2P Require Import Prelude PyLib Json Events Identity Ledger Raises Parsing Wire JsonText Floats.
From S2P Require Import RedisStreams Authentication.

Local Open Scope Z_scope.

(** ** Who is let in *)

Lemma str_field_some field d s : str_field field d = Some s ↔ dict_get field d = Some (PStr s).
Proof. unfold str_field. destruct (dict_get field d) as [[]|]; naive_solver. Qed.

(** The directory holds the records by what they say of themselves. *)
Lemma directory_records records known directory issuer subject r :
  InMemoryIdentityDirectory_init records known = inr directory →
  directory !! (issuer, subject) = Some r →
  known !! (issuer, subject) = Some r ∨ r ∈ records ∧ ir_issuer r = issuer ∧ ir_subject r = subject.
Proof.
  revert known. induction records as [|r0 records IH]; intros known; cbn [InMemoryIdentityDirectory_init].
  { intros [= <-]. by left. }
  intros Hinit Hr. apply rbind_ok in Hinit as (u & _ & Hinit).
  destruct (IH _ Hinit Hr) as [Hk|(Hin & Hi & Hs)]; [|right; split; [by right|done]].
  destruct (decide ((ir_issuer r0, ir_subject r0) = (issuer, subject))) as [Heq|Hne].
  - rewrite Heq, lookup_insert_eq in Hk. injection Hk as ->. injection Heq as <- <-.
    right. split; [left|done].
  - rewrite lookup_insert_ne in Hk by done. by left.
Qed.

Lemma verified_payload payload claims : _verified_claims payload = inr claims →
  dict_get "iss" payload = Some (PStr (vc_issuer claims)) ∧
  dict_get "sub" payload = Some (PStr (vc_subject claims)) ∧
  tenant_claim payload = inr (vc_asserted_tenant_id claims) ∧
  audiences_of (dict_get "aud" payload) = Some (vc_audiences claims) ∧
  (∃ e, dict_get "exp" payload = Some e ∧ _numeric_date e = inr (vc_expires_at claims)).
Proof.
  unfold _verified_claims. destruct (dict_get "sub" payload) as [[| | | |subject| | | | | |]|]; try done.
  destruct (dict_get "iss" payload) as [[| | | |issuer| | | | | |]|]; try done.
  destruct (dict_get "exp" payload) as [e|]; [|done]. destruct (dict_get "iat" payload) as [i|]; [|done].
  intros H. apply rbind_ok in H as (u & _ & H). destruct (audiences_of _) as [auds|]; [|done].
  apply rbind_ok in H as (t & Ht & H). apply rbind_ok in H as (p & Hp & H).
  apply rbind_ok in H as (x & Hx & H). apply rbind_ok in H as (y & Hy & H). injection H as <-.
  split_and!; try done. by exists e.
Qed.

Section Verified.
Context {S : Type} {Jwt : JwtLibrary S} (config : JwtValidationConfig)
  (get_key : string → M exn S VerificationKey).

Lemma checked_header_ok token algorithm key_id :
  checked_header config token = inr (algorithm, key_id) →
  ∃ header, jl_get_unverified_header token = inr header ∧
    dict_get "alg" header = Some (PStr algorithm) ∧ dict_get "kid" header = Some (PStr key_id) ∧
    algorithm ∈ jc_algorithms config.
Proof.
  unfold checked_header. intros H. apply rbind_ok in H as (u & _ & H).
  destruct (jl_get_unverified_header token) as [e|header]; [by destruct e|].
  destruct (str_field "alg" header) as [a|] eqn:Ha; [|done].
  apply rbind_ok in H as (u1 & Halg & H). apply reject_if_ok in Halg as [Halg _].
  destruct (str_field "kid" header) as [k|] eqn:Hk; [|done].
  apply rbind_ok in H as (u2 & _ & H). injection H as -> ->. bool_props.
  exists header. by rewrite <- !str_field_some.
Qed.

Lemma verify_ok token s claims s' : verify config get_key token s = (inr claims, s') →
  ∃ header algorithm key_id key s1 payload,
    jl_get_unverified_header token = inr header ∧
    dict_get "alg" header = Some (PStr algorithm) ∧ dict_get "kid" header = Some (PStr key_id) ∧
    algorithm ∈ jc_algorithms config ∧
    get_key key_id s = (inr key, s1) ∧ vk_algorithm key = algorithm ∧
    jl_decode token (vk_pem key) config s1 = (inr payload, s') ∧ _verified_claims payload = inr claims.
Proof.
  intros Hrun. unfold verify in Hrun. apply bind_ok in Hrun as ([a k] & s0 & H1 & Hrun).
  injection H1 as Hh <-. apply checked_header_ok in Hh as (header & Hh & Ha & Hk & Hin).
  apply bind_ok in Hrun as (key & s1 & Hkey & Hrun). apply bind_ok in Hrun as (u & s2 & Hu & Hrun).
  apply raise_if_ok in Hu as (Hu & -> & _). bool_props.
  apply bind_ok in Hrun as (payload & s3 & Hd & Hrun). injection Hrun as Hc <-.
  unfold catch in Hd. destruct (jl_decode _ _ _ s1) as [[e|pl] s4] eqn:Hdec; [done|]. injection Hd as <- <-.
  by exists header, a, k, key, s1, pl.
Qed.

(** C27. Only a registered, enabled identity with a verified token is let in:
    when [authenticate] returns a principal, the header was a bearer token
    whose algorithm is configured and belongs to the key it names, [jwt.decode]
    accepted it with that key, and the principal is built from the enabled
    record of the token's issuer and subject, of the tenant the token names if
    it names one; with a library that checks the issuer, the principal's is
    the configured one.  Roles come from the record, never from the token. *)
Theorem authenticated_principals_are_registered records directory header s p s' :
  (∀ token pem s0 payload s1, jl_decode token pem config s0 = (inr payload, s1) →
     dict_get "iss" payload = Some (PStr (jc_issuer config))) →
  InMemoryIdentityDirectory_init records ∅ = inr directory →
  authenticate config get_key directory header s = (inr p, s') →
  ∃ token fields algorithm key_id key s1 payload r,
    bearer_token header = inr token ∧ jl_get_unverified_header token = inr fields ∧
    dict_get "alg" fields = Some (PStr algorithm) ∧ algorithm ∈ jc_algorithms config ∧
    dict_get "kid" fields = Some (PStr key_id) ∧
    get_key key_id s = (inr key, s1) ∧ vk_algorithm key = algorithm ∧
    jl_decode token (vk_pem key) config s1 = (inr payload, s') ∧
    dict_get "sub" payload = Some (PStr (pr_subject p)) ∧
    r ∈ records ∧ ir_enabled r = true ∧ ir_subject r = pr_subject p ∧
    ir_issuer r = pr_issuer p ∧ pr_issuer p = jc_issuer config ∧
    pr_tenant_id p = ir_tenant_id r ∧ pr_role_bindings p = ir_role_bindings r ∧
    (∀ t, tenant_claim payload = inr (Some t) → t = pr_tenant_id p) ∧ Principal_post_init p = inr p.
Proof.
  intros Hissuer Hdir Hrun. unfold authenticate in Hrun.
  apply bind_ok in Hrun as (token & s0 & Ht & Hrun). injection Ht as Ht <-.
  apply bind_ok in Hrun as (claims & s1 & Hv & Hrun). injection Hrun as Hres <-.
  apply verify_ok in Hv as (fields & a & k & key & s2 & payload & Hh & Ha & Hk & Hin & Hkey & Halg & Hdec & Hcl).
  apply verified_payload in Hcl as (Hiss & Hsub & Hten & _ & _).
  unfold resolve in Hres. destruct (directory !! _) as [r|] eqn:Hr; [|done].
  apply rbind_ok in Hres as (u1 & He & Hres). apply reject_if_ok in He as [He _].
  apply rbind_ok in Hres as (u2 & Htn & Hres). apply reject_if_ok in Htn as [Htn _].
  destruct (directory_records _ _ _ _ _ _ Hdir Hr) as [?|(Hrec & Hri & Hrs)]; [done|].
  assert (Hp : p = mkPrincipal (ir_subject r) (ir_issuer r) (ir_tenant_id r) (ir_kind r) (ir_role_bindings r)
    (ir_user_id r) (ir_service_identity r)).
  { unfold to_principal, Principal_post_init in Hres. by py_inv. }
  specialize (Hissuer _ _ _ _ _ Hdec). rewrite Hissuer in Hiss. injection Hiss as Hiss.
  unfold to_principal in Hres. rewrite <- Hp in Hres.
  exists token, fields, a, k, key, s2, payload, r. bool_props. rewrite Hp. cbn. 
  split_and!; try done; try congruence.
  intros t Hc. rewrite Hten in Hc. injection Hc as Hc. rewrite Hc in Htn. by bool_props.
Qed.

(** ** Refusals *)

Definition is_authentication (e : exn) : Prop := match e with AuthenticationError _ => True | _ => False end.

(** What the JWT library documents to raise. *)
Definition jwt_failure (e : exn) : Prop :=
  match e with JwtError _ | TypeError _ | OverflowError => True | _ => False end.

Abbreviation refusing := (raises_result is_authentication).

#[local] Hint Extern 2 (is_authentication _) => exact I : raises.

Ltac refusing_solve :=
  cbv zeta;
  repeat first [ solve [eauto 5 with raises] | apply raises_rbind; [|intros ?] | case_match ];
  eauto 6 with raises.

Lemma refusing_date v : refusing (_numeric_date v).
Proof. unfold _numeric_date, invalid_claims. refusing_solve. Qed.
Lemma refusing_tenant payload : refusing (tenant_claim payload).
Proof. unfold tenant_claim, invalid_claims. refusing_solve. Qed.
Lemma refusing_party payload : refusing (party_claim payload).
Proof. unfold party_claim, invalid_claims. refusing_solve. Qed.
#[local] Hint Resolve refusing_date refusing_tenant refusing_party : raises.

Lemma refusing_claims payload : refusing (_verified_claims payload).
Proof. unfold _verified_claims, invalid_claims. refusing_solve. Qed.

Lemma refusing_bearer header : refusing (bearer_token header).
Proof. unfold bearer_token. refusing_solve. Qed.

Lemma refusing_header token :
  (∀ e, jl_get_unverified_header token = inl e → ∃ c, e = JwtError c) → refusing (checked_header config token).
Proof.
  intros Hlib. unfold checked_header. apply raises_rbind; [eauto with raises|intros _].
  destruct (jl_get_unverified_header token) as [e|header].
  - destruct (Hlib e eq_refl) as [c ->]. auto with raises.
  - refusing_solve.
Qed.

Lemma classified e : jwt_failure e → is_authentication (classify_jwt_error e).
Proof. destruct e; simpl; try tauto. by destruct c. Qed.

(** Every refusal is classified: with a key provider that raises
    authentication errors only and a JWT library that raises what it
    documents, whatever [authenticate] raises is an [AuthenticationError],
    unless an enabled record of the directory cannot be made a principal. *)
Theorem authentication_failures_classified directory header s e s' :
  (∀ key_id, raises is_authentication (get_key key_id)) →
  (∀ token e0, jl_get_unverified_header token = inl e0 → ∃ c, e0 = JwtError c) →
  (∀ token pem, raises jwt_failure (jl_decode token pem config)) →
  authenticate config get_key directory header s = (inl e, s') →
  is_authentication e ∨ ∃ issuer subject r, directory !! (issuer, subject) = Some r ∧
    ir_enabled r = true ∧ to_principal r = inl e.
Proof.
  intros Hkey Hlib Hdec Hrun. unfold authenticate in Hrun.
  apply bind_err in Hrun as [Hrun|(token & s1 & _ & Hrun)].
  { injection Hrun as He _. left. by eapply refusing_bearer. }
  apply bind_err in Hrun as [Hrun|(claims & s2 & _ & Hrun)].
  - left. revert s1 e s' Hrun. change (raises is_authentication (verify config get_key token)).
    unfold verify. apply raises_bind; [apply raises_lift, refusing_header, Hlib|intros h].
    apply raises_bind; [apply Hkey|intros key]. apply raises_bind; [auto with raises|intros _].
    apply raises_bind; [|intros payload; by apply raises_lift, refusing_claims].
    intros s3 e s4. unfold catch. destruct (jl_decode _ _ _ s3) as [[e0|pl] s5] eqn:Hd; [|done].
    intros [= <- <-]. by eapply classified, Hdec.
  - injection Hrun as Hres _. unfold resolve in Hres. destruct (directory !! _) as [r|] eqn:Hr; [|left; by injection Hres as <-].
    apply rbind_err in Hres as [Hres|(u1 & He & Hres)];
      [apply reject_if_err in Hres as [_ ->]; by left|apply reject_if_ok in He as [He _]].
    apply rbind_err in Hres as [Hres|(u2 & _ & Hres)]; [apply reject_if_err in Hres as [_ ->]; by left|].
    right. exists (vc_issuer claims), (vc_subject claims), r. split; [done|]. by bool_props.
Qed.
End Verified.

(** ** Signing keys *)

Section Keys.
Context {Limit : RecursionLimit} {Rsa : RsaLibrary} {S : Type} {Endpoint : JwksEndpoint S}
  (provider : RemoteJwksProvider).

(** The endpoint under observation: the last clock reading, and the responses
    with the reading they were asked at. *)
Record Observed : Type := mkObserved {
  ob_env : S;
  ob_clock : spec_float;
  ob_log : list (spec_float * (option string * string));
}.

#[export] Instance observed_endpoint : JwksEndpoint Observed := {
  je_monotonic := λ o,
    let '(r, env) := je_monotonic (ob_env o) in
    (r, mkObserved env (match r with inr now => now | inl _ => ob_clock o end) (ob_log o));
  je_urlopen := λ url timeout o,
    let '(r, env) := je_urlopen url timeout (ob_env o) in
    (r, mkObserved env (ob_clock o)
          (match r with inr response => ob_log o ++ [(ob_clock o, response)] | inl _ => ob_log o end));
}.

(** The calls made of one provider; the world moves on between them. *)
Inductive jwks_run : JwksState Observed → Prop :=
| jwks_start env clock : jwks_run (new_jwks_state (mkObserved env clock []))
| jwks_world s env :
    jwks_run s →
    jwks_run (mkJwksState (mkObserved env (ob_clock (js_env s)) (ob_log (js_env s)))
                (js_cached_keys s) (js_document_expires_at s))
| jwks_call s key_id r s' :
    jwks_run s → RemoteJwksProvider_get_key provider key_id s = (r, s') → jwks_run s'.

(** The keys are those of a response asked for at [t]. *)
Definition keys_of_response (s : JwksState Observed) (t : spec_float) : Prop :=
  ∃ response document raw_keys, (t, response) ∈ ob_log (js_env s) ∧
    read_document provider response.1 response.2 = inr document ∧
    document_keys document = Some raw_keys ∧ parse_keys raw_keys ∅ = inr (js_cached_keys s) ∧
    js_document_expires_at s = f64_add t (rj_cache_ttl_seconds provider).

Definition cache_sound (s : JwksState Observed) : Prop :=
  js_cached_keys s = ∅ ∨ ∃ t, keys_of_response s t.

(** The cache is as it was, and the log has grown at most. *)
Definition same_cache (s s' : JwksState Observed) : Prop :=
  js_cached_keys s' = js_cached_keys s ∧ js_document_expires_at s' = js_document_expires_at s ∧
  ∀ x, x ∈ ob_log (js_env s) → x ∈ ob_log (js_env s').

Lemma same_cache_sound s s' : same_cache s s' → cache_sound s → cache_sound s'.
Proof.
  intros (Hk & He & Hl) [H0|(t & response & document & raw & Hin & Hrest)]; [left; by rewrite Hk|right].
  exists t, response, document, raw. rewrite Hk, He. split; [by apply Hl|done].
Qed.

Lemma fetch_run s r s' : fetch_document provider s = (r, s') →
  ob_clock (js_env s') = ob_clock (js_env s) ∧ same_cache s s' ∧
  ∀ document, r = inr document → ∃ response, (ob_clock (js_env s), response) ∈ ob_log (js_env s') ∧
    read_document provider response.1 response.2 = inr document.
Proof.
  unfold fetch_document, catch, bind, on_env, lift, je_urlopen at 1, observed_endpoint.
  destruct (je_urlopen (rj_jwks_url provider) (rj_timeout_seconds provider) (ob_env (js_env s)))
    as [[e|response] env].
  - destruct (except_fetch e); intros [= <- <-]; (split; [done|]; split; [by split_and!|done]).
  - destruct (read_document provider response.1 response.2) as [e|document] eqn:Hr.
    + destruct (except_fetch e); intros [= <- <-]; (split; [done|]; split; [|done]);
        split_and!; try done; intros x Hx; apply elem_of_app; by left.
    + intros [= <- <-]. split; [done|]. split.
      * split_and!; try done. intros x Hx. apply elem_of_app. by left.
      * intros d [= <-]. exists response. split; [|done]. apply elem_of_app. right. by left.
Qed.

Lemma refresh_run s r s' : _refresh provider (ob_clock (js_env s)) s = (r, s') →
  ob_clock (js_env s') = ob_clock (js_env s) ∧
  ((∃ e, r = inl e ∧ same_cache s s') ∨ (r = inr tt ∧ keys_of_response s' (ob_clock (js_env s)))).
Proof.
  unfold _refresh. intros Hrun. unfold bind at 1 in Hrun.
  destruct (fetch_document provider s) as [[e|document] s1] eqn:Hf; apply fetch_run in Hf as (Hc & Hs & Hdoc).
  { injection Hrun as <- <-. split; [done|]. left. by exists e. }
  destruct (Hdoc document eq_refl) as (response & Hin & Hread).
  destruct (document_keys document) as [raw|] eqn:Hraw.
  2:{ injection Hrun as <- <-. split; [done|]. left. by eexists. }
  unfold bind, lift in Hrun. destruct (parse_keys raw ∅) as [e|keys] eqn:Hp.
  { injection Hrun as <- <-. split; [done|]. left. by exists e. }
  unfold store_keys, modify in Hrun. injection Hrun as <- <-. split; [done|]. right. split; [done|].
  by exists response, document, raw.
Qed.

(** One call: it serves the cache the clock has not outrun, or one it has
    just fetched. *)
Lemma get_key_run key_id s r s' : cache_sound s → RemoteJwksProvider_get_key provider key_id s = (r, s') →
  cache_sound s' ∧ ∀ key, r = inr key → js_cached_keys s' !! key_id = Some key ∧
    ∃ t, keys_of_response s' t ∧
      (t = ob_clock (js_env s') ∨ SFleb (f64_add t (rj_cache_ttl_seconds provider)) (ob_clock (js_env s')) = false).
Proof.
  intros Hs. unfold RemoteJwksProvider_get_key. intros Hrun. unfold bind at 1, on_env, je_monotonic at 1, observed_endpoint in Hrun.
  destruct (je_monotonic (ob_env (js_env s))) as [[e|now] env].
  { injection Hrun as <- <-. split; [|done]. by apply (same_cache_sound s). }
  set (s1 := mkJwksState (mkObserved env now (ob_log (js_env s))) (js_cached_keys s) (js_document_expires_at s)) in Hrun.
  assert (Hs1 : cache_sound s1) by by apply (same_cache_sound s).
  unfold bind at 1, gets at 1 in Hrun. unfold bind at 1 in Hrun.
  destruct (SFleb (js_document_expires_at s1) now) eqn:Hexp.
  - change now with (ob_clock (js_env s1)) in Hrun.
    destruct (_refresh provider (ob_clock (js_env s1)) s1) as [[e|[]] s2] eqn:Href;
      apply refresh_run in Href as [Hclock [(e' & He & Hsame)|[He Hkeys]]]; try done.
    + injection Hrun as <- <-. split; [|done]. by apply (same_cache_sound s1).
    + unfold bind, gets in Hrun. assert (Hsound : cache_sound s2) by (right; by eexists).
      destruct (js_cached_keys s2 !! key_id) as [k|] eqn:Hk; injection Hrun as <- <-; (split; [done|]); [|done].
      intros key [= <-]. split; [done|]. exists (ob_clock (js_env s1)). split; [done|]. left. by rewrite Hclock.
  - unfold ret at 1, bind, gets in Hrun.
    destruct (js_cached_keys s1 !! key_id) as [k|] eqn:Hk; injection Hrun as <- <-; (split; [done|]); [|done].
    intros key [= <-]. split; [done|]. destruct Hs1 as [H0|(t & Ht)]; [by rewrite H0 in Hk|].
    exists t. split; [done|]. right. destruct Ht as (? & ? & ? & _ & _ & _ & _ & He). by rewrite <- He.
Qed.

Lemma jwks_run_sound s : jwks_run s → cache_sound s.
Proof.
  induction 1 as [|s env _ IH|s key_id r s' _ IH Hcall]; [by left| |by eapply get_key_run].
  by apply (same_cache_sound s).
Qed.

(** The keys parsed from a document are its own, by their ids. *)
Lemma parsed_key raw_keys known keys key_id key :
  parse_keys raw_keys known = inr keys → keys !! key_id = Some key →
  known !! key_id = Some key ∨
  ∃ raw_key, raw_key ∈ raw_keys ∧ _parse_rsa_jwk raw_key = inr (Some key) ∧ vk_key_id key = key_id.
Proof.
  revert known. induction raw_keys as [|raw raw_keys IH]; intros known; cbn [parse_keys].
  { intros [= <-]. by left. }
  intros Hp Hk. apply rbind_ok in Hp as ([k|] & Hraw & Hp).
  - apply rbind_ok in Hp as (u & _ & Hp).
    destruct (IH _ Hp Hk) as [Hin|(rk & Hin & Hrest)]; [|right; exists rk; split; [by right|done]].
    destruct (decide (vk_key_id k = key_id)) as [Heq|Hne].
    + rewrite Heq, lookup_insert_eq in Hin. injection Hin as ->. right. exists raw. split; [left|done].
    + rewrite lookup_insert_ne in Hin by done. by left.
  - destruct (IH _ Hp Hk) as [Hin|(rk & Hin & Hrest)]; [by left|right; exists rk; split; [by right|done]].
Qed.

(** A signing key is believed for the cache's lifetime only: in every run
    of a remote provider, a key it returns is the one of that id in a JWKS
    document that the endpoint answered from a trusted URL, asked for either
    by this very call or at a time whose lifetime the clock has not reached. *)
Theorem signing_keys_are_current s key_id key s' :
  jwks_run s → RemoteJwksProvider_get_key provider key_id s = (inr key, s') →
  ∃ t response document raw_keys raw_key,
    (t, response) ∈ ob_log (js_env s') ∧
    trusted_url (rj_allow_http provider) (default (rj_jwks_url provider) response.1) = true ∧
    read_document provider response.1 response.2 = inr document ∧
    document_keys document = Some raw_keys ∧ raw_key ∈ raw_keys ∧
    _parse_rsa_jwk raw_key = inr (Some key) ∧ vk_key_id key = key_id ∧
    (t = ob_clock (js_env s') ∨
     SFleb (f64_add t (rj_cache_ttl_seconds provider)) (ob_clock (js_env s')) = false).
Proof.
  intros Hrun Hcall. apply jwks_run_sound in Hrun.
  destruct (get_key_run _ _ _ _ Hrun Hcall) as (_ & Hkey).
  destruct (Hkey key eq_refl) as (Hk & t & (response & document & raw & Hin & Hread & Hraw & Hparse & _) & Ht).
  destruct (parsed_key _ _ _ _ _ Hparse Hk) as [?|(raw_key & Hr & Hp & Hid)]; [done|].
  exists t, response, document, raw, raw_key. split_and!; try done.
  unfold read_document in Hread. apply rbind_ok in Hread as (u & Hu & _).
  apply reject_if_ok in Hu as [Hu _]. by bool_props.
Qed.
End Keys.

(** A key with an empty id is no authentication failure: the constructor's
    [ValueError] leaves [_parse_rsa_jwk]. *)
Lemma empty_key_id_escapes `{RsaLibrary} d alg n e pem :
  str_field "kid" d = Some ""%string → str_field "alg" d = Some alg → str_field "kty" d = Some "RSA"%string →
  str_field "n" d = Some n → str_field "e" d = Some e → public_pem n e = inr pem →
  _parse_rsa_jwk (PDict d) = inl (ValueError "verification key fields are required").
Proof. intros H1 H2 H3 H4 H5 H6. unfold _parse_rsa_jwk. by rewrite H1, H2, H3, H4, H5, H6. Qed.

(** ** Samples *)

#[local] Instance sample_limit : RecursionLimit := 100%nat.
#[local] Instance sample_repr : PyRepr := λ _, ""%string.
#[local] Instance sample_rsa : RsaLibrary := {
  rl_base64url_decode := λ s, inr s;
  rl_public_pem := λ e n, inr ("pem " +:+ pretty n)%string;
}.

Definition sample_document : pyval :=
  PDict (dict_of [("keys", PList [PDict (dict_of
    [("kid", PStr "k1"); ("alg", PStr "RS256"); ("kty", PStr "RSA"); ("n", PStr "AQ"); ("e", PStr "AB")])])])%string.

(** A clock that stands at ten seconds and an endpoint with one key. *)
#[local] Instance sample_endpoint : JwksEndpoint unit := {
  je_monotonic := ret (sf_of_Z 10);
  je_urlopen := λ _ _, ret (None, utf8_encode (json_dumps sample_document));
}.

Definition sample_provider : RemoteJwksProvider :=
  mkRemoteJwksProvider "https://id.example/jwks" false (sf_of_Z 2) (sf_of_Z 300).
Definition sample_key : VerificationKey := mkVerificationKey "k1" "RS256" ("pem " +:+ pretty 16721%Z).
Definition sample_start : JwksState Observed := new_jwks_state (mkObserved tt f64_zero []).

Lemma signing_keys_are_current_witness :
  ∃ s' t, RemoteJwksProvider_get_key sample_provider "k1" sample_start = (inr sample_key, s') ∧
    t ∈ map fst (ob_log (js_env s')).
Proof.
  destruct (RemoteJwksProvider_get_key sample_provider "k1" sample_start) as [r s'] eqn:Hrun.
  assert (Hr : (RemoteJwksProvider_get_key sample_provider "k1" sample_start).1 = inr sample_key)
    by (vm_compute; reflexivity).
  rewrite Hrun in Hr. simpl in Hr. subst r.
  destruct (signing_keys_are_current sample_provider sample_start "k1" sample_key s')
    as (t & response & document & raw & rk & Hin & _); [constructor|exact Hrun|].
  exists s', t. split; [reflexivity|]. apply list_elem_of_In, in_map_iff. exists (t, response).
  split; [reflexivity|]. by apply list_elem_of_In.
Defined.

Definition sample_payload : pydict :=
  dict_of [("iss", PStr "https://id.example"); ("sub", PStr "alice"); ("aud", PStr "aegis");
           ("exp", PInt 2000); ("iat", PInt 1000); ("tenant_id", PStr "acme")]%string.

#[local] Instance sample_jwt : JwtLibrary unit := {
  jl_get_unverified_header := λ token,
    if PyStr.starts_with "ey" token then inr (dict_of [("alg", PStr "RS256"); ("kid", PStr "k1")]%string)
    else inl (JwtError JwtInvalidToken);
  jl_decode := λ _ _ _, ret sample_payload;
}.

Definition sample_config : JwtValidationConfig :=
  mkJwtValidationConfig "https://id.example" "aegis" (30 * Dt.second) ["RS256"%string].
Definition sample_record : IdentityRecord :=
  mkIdentityRecord "https://id.example" "alice" (mkTenantId "acme") PK_USER [] true
    (Some (mkUserId "u-alice")) None.
Definition sample_get_key (key_id : string) : M exn unit VerificationKey :=
  lift (StaticJwksProvider_get_key {["k1"%string := sample_key]} key_id).
Definition sample_directory : Directory := {[("https://id.example", "alice")%string := sample_record]}.

Lemma authenticated_principals_are_registered_witness :
  ∃ p, authenticate sample_config sample_get_key sample_directory (Some "Bearer eyJ"%string) tt = (inr p, tt) ∧
    pr_issuer p = "https://id.example"%string ∧ pr_tenant_id p = mkTenantId "acme".
Proof.
  destruct (authenticate sample_config sample_get_key sample_directory (Some "Bearer eyJ"%string) tt)
    as [[e|p] []] eqn:Hrun; [by vm_compute in Hrun|].
  exists p. split; [reflexivity|].
  destruct (authenticated_principals_are_registered sample_config sample_get_key [sample_record] sample_directory
    (Some "Bearer eyJ"%string) tt p tt) as (tk & f & a & k & ky & s1 & pl & r & _ & _ & _ & _ & _ & _ & _ & _ & _ & Hr & _ & _
      & _ & Hiss & Hten & _).
  - by intros ? ? ? ? ? [= <- <-].
  - reflexivity.
  - exact Hrun.
  - split; [exact Hiss|]. apply list_elem_of_singleton in Hr as ->. exact Hten.
Defined.

Lemma authentication_failures_classified_witness :
  is_authentication (AuthenticationError MALFORMED_TOKEN) ∨
  ∃ issuer subject r, sample_directory !! (issuer, subject) = Some r ∧ ir_enabled r = true ∧
    to_principal r = inl (AuthenticationError MALFORMED_TOKEN).
Proof.
  apply (authentication_failures_classified sample_config sample_get_key sample_directory
    (Some "Bearer x"%string) tt (AuthenticationError MALFORMED_TOKEN) tt).
  - intros key_id s e s'. unfold sample_get_key, StaticJwksProvider_get_key.
    destruct (_ !! key_id); [by intros [=]|by intros [= <- _]].
  - intros token e. simpl. destruct (PyStr.starts_with _ _); [by intros [=]|intros [= <-]; by eexists].
  - by intros token pem s e s' [=].
  - vm_compute; reflexivity.
Defined.
