(* ===== verification/Policy.v ===== *)
(** * Tenant policy and quotas

    Models [policy/__init__.py]: limits, policies, requests and usage with
    their constructor checks, [PolicyEvaluator.evaluate] and the in-memory
    repository.  The theorem says what a decision means in terms of the
    allow lists, the risk levels and exact quota arithmetic. *)

From stdpp Require Import base gmap sets list strings.
From Stdlib Require Import ZArith Lia.
From S2P Require Import Prelude PyLib Events Identity Amounts.

Local Open Scope Z_scope.

Definition _require_finite_non_negative_decimal (value : decimal) (name : string)
    : result unit :=
  raise! ValueError (name +:+ " must be finite") when! negb (is_finite value) ;;
  let? negative := dec_lt value (DFin 0 0) in
  raise! ValueError (name +:+ " cannot be negative") when! negative ;;
  inr tt.

Inductive Decision : Type := ALLOW | DENY | REQUIRE_APPROVAL.

#[export] Instance Decision_eq_dec : EqDecision Decision.
Proof. solve_decision. Defined.

Inductive RiskLevel : Type := LOW | MEDIUM | HIGH | CRITICAL.

Definition risk_value (r : RiskLevel) : Z :=
  match r with LOW => 1 | MEDIUM => 2 | HIGH => 3 | CRITICAL => 4 end.

Record QuotaLimits : Type := mkQuotaLimits {
  max_run_tokens : Z;
  max_run_cost_usd : decimal;
  max_tenant_tokens_per_period : Z;
  max_tenant_cost_usd_per_period : decimal;
  max_concurrent_runs : Z;
}.

Definition QuotaLimits_post_init (q : QuotaLimits) : result QuotaLimits :=
  raise! ValueError "quota integer limits cannot be negative"
    when! existsb (λ v, v <? 0)
      [max_run_tokens q; max_tenant_tokens_per_period q; max_concurrent_runs q] ;;
  let? _ := _require_finite_non_negative_decimal (max_run_cost_usd q) "max_run_cost_usd" in
  let? _ := _require_finite_non_negative_decimal (max_tenant_cost_usd_per_period q)
              "max_tenant_cost_usd_per_period" in
  inr q.

Record TenantPolicy : Type := mkTenantPolicy {
  tp_tenant_id : TenantId;
  tp_version : string;
  allowed_models : gset string;
  allowed_tools : gset string;
  allowed_connectors : gset string;
  allowed_environments : gset string;
  max_risk : RiskLevel;
  approval_from_risk : RiskLevel;
  tools_requiring_approval : gset string;
  approver_roles : list Role;
  quotas : QuotaLimits;
  allowed_providers : gset string;
  allowed_data_residencies : gset string;
  allow_provider_retention : bool;
}.

Definition TenantPolicy_post_init (p : TenantPolicy) : result TenantPolicy :=
  raise! ValueError "policy version is required" when! PyStr.is_empty (tp_version p) ;;
  raise! ValueError "at least one approver role is required"
    when! bool_decide (approver_roles p = []) ;;
  inr p.

Record PolicyRequest : Type := mkPolicyRequest {
  pq_tenant_id : TenantId;
  pq_model : string;
  pq_tool : string;
  pq_connector : string;
  pq_environment : string;
  pq_risk : RiskLevel;
  estimated_tokens : Z;
  estimated_cost_usd : decimal;
}.

Definition PolicyRequest_post_init (r : PolicyRequest) : result PolicyRequest :=
  raise! ValueError "policy request selectors are required"
    when! existsb PyStr.is_empty [pq_model r; pq_tool r; pq_connector r; pq_environment r] ;;
  raise! ValueError "estimated tokens cannot be negative" when! estimated_tokens r <? 0 ;;
  let? _ := _require_finite_non_negative_decimal (estimated_cost_usd r)
              "estimated_cost_usd" in
  inr r.

Record QuotaUsage : Type := mkQuotaUsage {
  qu_tenant_id : TenantId;
  tenant_tokens_used : Z;
  tenant_cost_usd : decimal;
  active_runs : Z;
}.

Definition QuotaUsage_post_init (u : QuotaUsage) : result QuotaUsage :=
  raise! ValueError "quota usage cannot be negative"
    when! (tenant_tokens_used u <? 0) || (active_runs u <? 0) ;;
  let? _ := _require_finite_non_negative_decimal (tenant_cost_usd u) "tenant_cost_usd" in
  inr u.

Record PolicyDecision : Type := mkPolicyDecision {
  pd_decision : Decision;
  pd_reasons : list string;
  pd_policy_version : string;
  pd_tenant_id : TenantId;
  pd_required_approver_roles : list Role;
}.

(** [if condition: reasons.append(reason)] *)
Definition when_reason (b : bool) (reason : string) : list string :=
  if b then [reason] else [].

Definition evaluate (context : TenantContext) (policy : TenantPolicy)
    (request : PolicyRequest) (usage : QuotaUsage) : result PolicyDecision :=
  let tenant := ctx_tenant_id context in
  let decision d reasons roles :=
    mkPolicyDecision d reasons (tp_version policy) (tp_tenant_id policy) roles in
  if negb (bool_decide (tp_tenant_id policy = tenant)
           && bool_decide (pq_tenant_id request = tenant)
           && bool_decide (qu_tenant_id usage = tenant))
  then inr (decision DENY ["cross_tenant_policy"%string] [])
  else
    let selectors :=
      [("model_not_allowed"%string, pq_model request, allowed_models policy);
       ("tool_not_allowed"%string, pq_tool request, allowed_tools policy);
       ("connector_not_allowed"%string, pq_connector request, allowed_connectors policy);
       ("environment_not_allowed"%string, pq_environment request,
        allowed_environments policy)] in
    let q := quotas policy in
    let? over_run_cost := dec_gt (estimated_cost_usd request) (max_run_cost_usd q) in
    let? tenant_cost := dec_add (tenant_cost_usd usage) (estimated_cost_usd request) in
    let? over_tenant_cost := dec_gt tenant_cost (max_tenant_cost_usd_per_period q) in
    let reasons :=
      omap (λ s, if bool_decide (s.1.2 ∈ s.2) then None else Some s.1.1) selectors
      ++ when_reason (risk_value (max_risk policy) <? risk_value (pq_risk request))
           "risk_threshold_exceeded"
      ++ when_reason (max_run_tokens q <? estimated_tokens request)
           "run_token_limit_exceeded"
      ++ when_reason over_run_cost "run_cost_limit_exceeded"
      ++ when_reason (max_tenant_tokens_per_period q
                      <? tenant_tokens_used usage + estimated_tokens request)
           "tenant_token_limit_exceeded"
      ++ when_reason over_tenant_cost "tenant_cost_limit_exceeded"
      ++ when_reason (max_concurrent_runs q <=? active_runs usage)
           "tenant_concurrency_limit_exceeded" in
    if negb (bool_decide (reasons = [])) then inr (decision DENY reasons [])
    else
      let requires_approval :=
        (risk_value (approval_from_risk policy) <=? risk_value (pq_risk request))
        || bool_decide (pq_tool request ∈ tools_requiring_approval policy) in
      inr (if requires_approval
           then decision REQUIRE_APPROVAL ["approval_required"%string]
                  (py_sorted role_leb (remove_dups (approver_roles policy)))
           else decision ALLOW ["policy_allowed"%string] []).

(** [InMemoryPolicyRepository] *)
Definition policy_lookup (id : TenantId) (l : list (TenantId * TenantPolicy))
    : option TenantPolicy :=
  snd <$> find (λ kv, bool_decide (kv.1 = id)) l.

Definition InMemoryPolicyRepository_init (policies : list TenantPolicy)
    : result (list (TenantId * TenantPolicy)) :=
  foldl (λ acc p,
    let? l := acc in
    raise! ValueError "duplicate tenant policy is not allowed"
      when! is_some (policy_lookup (tp_tenant_id p) l) ;;
    inr (l ++ [(tp_tenant_id p, p)])) (inr []) policies.

Definition InMemoryPolicyRepository_get (l : list (TenantId * TenantPolicy))
    (context : TenantContext) : option TenantPolicy :=
  policy_lookup (ctx_tenant_id context) l.

(** ** What a decision means *)

(** The costs of a request, its usage and its limits, in units of [10 ^ k]. *)
Record costs (k : Z) (policy : TenantPolicy) (request : PolicyRequest) (usage : QuotaUsage)
    (cost used run_limit tenant_limit : Z) : Prop := {
  co_grid : grid k;
  co_cost : amount k (estimated_cost_usd request) cost;
  co_used : amount k (tenant_cost_usd usage) used;
  co_run : amount k (max_run_cost_usd (quotas policy)) run_limit;
  co_tenant : amount k (max_tenant_cost_usd_per_period (quotas policy)) tenant_limit;
  co_small : Z.abs (used + cost) < pow10 prec;
}.

(** Everything the policy asks of a request, with costs in exact units. *)
Record permitted (context : TenantContext) (policy : TenantPolicy) (request : PolicyRequest)
    (usage : QuotaUsage) (cost used run_limit tenant_limit : Z) : Prop := {
  pm_policy : tp_tenant_id policy = ctx_tenant_id context;
  pm_request : pq_tenant_id request = ctx_tenant_id context;
  pm_usage : qu_tenant_id usage = ctx_tenant_id context;
  pm_model : pq_model request ∈ allowed_models policy;
  pm_tool : pq_tool request ∈ allowed_tools policy;
  pm_connector : pq_connector request ∈ allowed_connectors policy;
  pm_environment : pq_environment request ∈ allowed_environments policy;
  pm_risk : risk_value (pq_risk request) ≤ risk_value (max_risk policy);
  pm_run_tokens : estimated_tokens request ≤ max_run_tokens (quotas policy);
  pm_run_cost : cost ≤ run_limit;
  pm_tenant_tokens : tenant_tokens_used usage + estimated_tokens request
                     ≤ max_tenant_tokens_per_period (quotas policy);
  pm_tenant_cost : used + cost ≤ tenant_limit;
  pm_runs : active_runs usage < max_concurrent_runs (quotas policy);
}.

Definition needs_approval (policy : TenantPolicy) (request : PolicyRequest) : Prop :=
  risk_value (approval_from_risk policy) ≤ risk_value (pq_risk request)
  ∨ pq_tool request ∈ tools_requiring_approval policy.

Lemma when_reason_nil b r : when_reason b r = [] ↔ b = false.
Proof. by destruct b. Qed.

Lemma app_nil_iff {A} (l k : list A) : l ++ k = [] ↔ l = [] ∧ k = [].
Proof. split; [apply app_eq_nil|by intros [-> ->]]. Qed.

Lemma selector_nil (reason value : string) (allowed : gset string) (rest : list (string * string * gset string)) :
  omap (λ s, if bool_decide (s.1.2 ∈ s.2) then None else Some s.1.1)
    ((reason, value, allowed) :: rest) = [] ↔
  value ∈ allowed ∧
  omap (λ s, if bool_decide (s.1.2 ∈ s.2) then None else Some s.1.1) rest = [].
Proof. simpl. case_bool_decide; [|split; [done|by intros [? _]]]. split; [done|by intros [_ ?]]. Qed.

(** The decision once the tenants agree and the costs are known. *)
Lemma evaluate_run context policy request usage k cost used run_limit tenant_limit :
  costs k policy request usage cost used run_limit tenant_limit →
  ∃ d, evaluate context policy request usage = inr d ∧
    pd_policy_version d = tp_version policy ∧ pd_tenant_id d = tp_tenant_id policy ∧
    ((permitted context policy request usage cost used run_limit tenant_limit ∧
      ((needs_approval policy request ∧ pd_decision d = REQUIRE_APPROVAL ∧
        pd_required_approver_roles d
        = py_sorted role_leb (remove_dups (approver_roles policy)))
       ∨ (¬ needs_approval policy request ∧ pd_decision d = ALLOW ∧
          pd_required_approver_roles d = [])))
     ∨ (¬ permitted context policy request usage cost used run_limit tenant_limit ∧
        pd_decision d = DENY ∧ pd_reasons d ≠ [] ∧ pd_required_approver_roles d = [])).
Proof.
  intros [Hk Hcost Hused Hrun Hten Hsmall]. unfold evaluate. cbv zeta.
  destruct (bool_decide (tp_tenant_id policy = _) && _ && _) eqn:Hids; cbn [negb].
  2: { eexists. split; [reflexivity|]. split; [done|]. split; [done|]. right. split; [|done].
       intros [H1 H2 H3 _ _ _ _ _ _ _ _ _ _]. by rewrite !bool_decide_true in Hids. }
  bool_props.
  rewrite (dec_gt_exact k _ _ cost run_limit) by done. cbn [rbind].
  destruct (dec_add_exact k _ _ used cost Hk Hused Hcost Hsmall) as (s & -> & Hs).
  cbn [rbind]. rewrite (dec_gt_exact k _ _ (used + cost) tenant_limit) by done. cbn [rbind].
  match goal with |- context [bool_decide (?l = [])] => set (reasons := l) end.
  assert (Hpm : reasons = [] ↔ permitted context policy request usage cost used run_limit
                                 tenant_limit).
  { unfold reasons. rewrite !app_nil_iff, !selector_nil, !when_reason_nil.
    rewrite !Z.ltb_ge, Z.leb_gt. split.
    - intros ((? & ? & ? & ? & _) & ? & ? & ? & ? & ? & ?). by split.
    - intros []. by repeat split. }
  destruct (bool_decide (reasons = [])) eqn:Hr; cbn [negb]; bool_props.
  - eexists. split; [reflexivity|]. destruct (_ || _) eqn:Hap; cbn;
      (split; [done|]); (split; [done|]); left; (split; [by apply Hpm|]).
    + left. split; [|done]. apply orb_true_iff in Hap as [?|?]; bool_props; [by left|by right].
    + right. split; [|done]. bool_props. intros [?|?]; [lia|done].
  - eexists. split; [reflexivity|]. cbn. split; [done|]. split; [done|]. right.
    split; [by rewrite <- Hpm|done].
Qed.

(** C14. Governance decisions are exact: whenever the amounts are finite
    (with a period total of at most 28 digits), the evaluator returns; it
    denies exactly the requests that break a tenant, allow-list, risk, token,
    cost or concurrency rule and says why; it asks for approval exactly when
    the rules hold and the risk or the tool demands it, naming exactly the
    policy's approver roles; everything else is allowed. *)
Theorem policy_decision_exact context policy request usage k cost used run_limit tenant_limit :
  costs k policy request usage cost used run_limit tenant_limit →
  ∃ d, evaluate context policy request usage = inr d ∧
    pd_policy_version d = tp_version policy ∧
    (pd_decision d = DENY ↔
     ¬ permitted context policy request usage cost used run_limit tenant_limit) ∧
    (pd_decision d = DENY → pd_reasons d ≠ []) ∧
    (pd_decision d = REQUIRE_APPROVAL ↔
     permitted context policy request usage cost used run_limit tenant_limit ∧
     needs_approval policy request) ∧
    ∀ role, role ∈ pd_required_approver_roles d ↔
      pd_decision d = REQUIRE_APPROVAL ∧ role ∈ approver_roles policy.
Proof.
  intros Hc. destruct (evaluate_run context _ _ _ _ _ _ _ _ Hc)
    as (d & Hd & Hv & _ & [(Hp & [(Hn & Hdec & Hr)|(Hn & Hdec & Hr)])|(Hp & Hdec & Hre & Hr)]);
    exists d; rewrite Hdec, Hr; split; try done; split; try done.
  - do 3 (split; [naive_solver|]). intros role.
    rewrite py_sorted_elem, elem_of_remove_dups. naive_solver.
  - do 3 (split; [naive_solver|]). intros role. rewrite elem_of_nil. naive_solver.
  - do 3 (split; [naive_solver|]). intros role. rewrite elem_of_nil. naive_solver.
Qed.

(** ** Sample data *)

Definition sample_quotas : QuotaLimits :=
  mkQuotaLimits 1000 (DFin 150 (-2)) 5000 (DFin 10 0) 4.

Definition sample_policy (tenant : string) : TenantPolicy :=
  {| tp_tenant_id := mkTenantId tenant; tp_version := "v1"; allowed_models := {["m"]};
     allowed_tools := {["search"; "shell"]}; allowed_connectors := {["git"]};
     allowed_environments := {["production"]}; max_risk := HIGH; approval_from_risk := HIGH;
     tools_requiring_approval := {["shell"]}; approver_roles := [TENANT_ADMIN];
     quotas := sample_quotas; allowed_providers := {["openai"]};
     allowed_data_residencies := {["eu"]}; allow_provider_retention := false |}.

Definition sample_policy_request (tool : string) : PolicyRequest :=
  {| pq_tenant_id := mkTenantId "acme"; pq_model := "m"; pq_tool := tool;
     pq_connector := "git"; pq_environment := "production"; pq_risk := LOW;
     estimated_tokens := 100; estimated_cost_usd := DFin 5 (-1) |}.

Definition sample_usage : QuotaUsage := mkQuotaUsage (mkTenantId "acme") 10 (DFin 925 (-2)) 1.

(** A shell call of 0.50 after 9.25 of 10.00: allowed, with approval. *)
Lemma policy_decision_exact_witness :
  ∃ d, evaluate (mkTenantContext (mkTenantId "acme")) (sample_policy "acme")
         (sample_policy_request "shell") sample_usage = inr d ∧
       pd_decision d = REQUIRE_APPROVAL ∧ TENANT_ADMIN ∈ pd_required_approver_roles d.
Proof.
  destruct (policy_decision_exact (mkTenantContext (mkTenantId "acme")) (sample_policy "acme")
    (sample_policy_request "shell") sample_usage (-2) 50 925 150 1000)
    as (d & Hd & _ & _ & _ & Hreq & Hroles).
  { split; [by unfold grid|..|reflexivity]; unfold amount; simpl; do 2 eexists;
      (split; [reflexivity|]); split; first [lia|reflexivity]. }
  exists d. split; [done|].
  assert (Hdec : pd_decision d = REQUIRE_APPROVAL).
  { apply Hreq. split; [|right; by apply (bool_decide_unpack _)].
    split; try reflexivity; try (by apply (bool_decide_unpack _)); vm_compute;
      discriminate. }
  split; [done|]. apply Hroles. split; [done|]. left.
Defined.
