(* ===== verification/ModelContracts.v ===== *)
(** * Model gateway contracts

    Models [domain/model.py]: messages and their parts, schemas and tools,
    model identities and capabilities, token usage and pricing, requests and
    responses, each with the checks of its constructor. *)

From stdpp Require Import base list strings.
From Stdlib Require Import ZArith Lia SpecFloat.
From S2P Require Import Prelude PyLib Json Events Identity Amounts Floats.

Local Open Scope Z_scope.

Inductive MessageRole : Type := MR_SYSTEM | MR_USER | MR_ASSISTANT | MR_TOOL.

#[export] Instance MessageRole_eq_dec : EqDecision MessageRole.
Proof. solve_decision. Defined.

#[export] Instance MessageRole_constant : StringConstant MessageRole := {
  sc_value r := match r with
    | MR_SYSTEM => "system" | MR_USER => "user" | MR_ASSISTANT => "assistant"
    | MR_TOOL => "tool" end%string;
  sc_members := [MR_SYSTEM; MR_USER; MR_ASSISTANT; MR_TOOL];
}.

Inductive ContentKind : Type := CK_TEXT | CK_IMAGE | CK_TOOL_CALL | CK_TOOL_RESULT.

#[export] Instance ContentKind_constant : StringConstant ContentKind := {
  sc_value k := match k with
    | CK_TEXT => "text" | CK_IMAGE => "image" | CK_TOOL_CALL => "tool_call"
    | CK_TOOL_RESULT => "tool_result" end%string;
  sc_members := [CK_TEXT; CK_IMAGE; CK_TOOL_CALL; CK_TOOL_RESULT];
}.

Inductive FinishReason : Type :=
| FR_STOP | FR_LENGTH | FR_TOOL_CALLS | FR_REFUSAL | FR_CONTENT_FILTER | FR_CANCELLED
| FR_UNKNOWN.

#[export] Instance FinishReason_constant : StringConstant FinishReason := {
  sc_value r := match r with
    | FR_STOP => "stop" | FR_LENGTH => "length" | FR_TOOL_CALLS => "tool_calls"
    | FR_REFUSAL => "refusal" | FR_CONTENT_FILTER => "content_filter"
    | FR_CANCELLED => "cancelled" | FR_UNKNOWN => "unknown" end%string;
  sc_members := [FR_STOP; FR_LENGTH; FR_TOOL_CALLS; FR_REFUSAL; FR_CONTENT_FILTER;
                 FR_CANCELLED; FR_UNKNOWN];
}.

Inductive SafetyOutcome : Type := SO_ALLOWED | SO_REFUSED | SO_FILTERED.

#[export] Instance SafetyOutcome_eq_dec : EqDecision SafetyOutcome.
Proof. solve_decision. Defined.

#[export] Instance SafetyOutcome_constant : StringConstant SafetyOutcome := {
  sc_value o := match o with
    | SO_ALLOWED => "allowed" | SO_REFUSED => "refused" | SO_FILTERED => "filtered"
    end%string;
  sc_members := [SO_ALLOWED; SO_REFUSED; SO_FILTERED];
}.

#[export] Instance ModelErrorClass_constant : StringConstant ModelErrorClass := {
  sc_value c := match c with
    | AUTHENTICATION => "authentication" | AUTHORIZATION => "authorization"
    | INVALID_REQUEST => "invalid_request" | CAPABILITY => "capability"
    | SCHEMA => "schema" | SAFETY => "safety" | RATE_LIMIT => "rate_limit"
    | MODEL_TIMEOUT => "timeout" | MODEL_CANCELLED => "cancelled"
    | TRANSIENT => "transient" | PROVIDER_UNAVAILABLE => "provider_unavailable"
    | MALFORMED_RESPONSE => "malformed_response" | PROVIDER_BUG => "provider_bug"
    end%string;
  sc_members := [AUTHENTICATION; AUTHORIZATION; INVALID_REQUEST; CAPABILITY; SCHEMA; SAFETY;
                 RATE_LIMIT; MODEL_TIMEOUT; MODEL_CANCELLED; TRANSIENT;
                 PROVIDER_UNAVAILABLE; MALFORMED_RESPONSE; PROVIDER_BUG];
}.

(** ** Content *)

Definition TextPart_post_init (text : string) : result unit :=
  reject_if (PyStr.is_empty text) (ValueError "text content cannot be empty").

Definition image_media_types : list string :=
  ["image/jpeg"; "image/png"; "image/gif"; "image/webp"]%string.

Definition ImagePart_post_init (media_type uri : string) : result unit :=
  raise! ValueError "unsupported image media type"
    when! negb (bool_decide (media_type ∈ image_media_types)) ;;
  reject_if (negb (PyStr.starts_with "https://" uri))
    (ValueError "image uri must use an approved scheme").

Record ToolCallProposal : Type := mkToolCallProposal {
  tc_call_id : string;
  tc_tool_name : string;
  tc_arguments : pydict;
}.

Definition ToolCallProposal_post_init (p : ToolCallProposal) : result ToolCallProposal :=
  raise! ValueError "tool call id and name are required"
    when! PyStr.is_empty (tc_call_id p) || PyStr.is_empty (tc_tool_name p) ;;
  let? arguments := freeze_json_mapping (tc_arguments p) in
  inr (mkToolCallProposal (tc_call_id p) (tc_tool_name p) arguments).

Inductive ContentPart : Type :=
| TextPart (text : string)
| ImagePart (media_type uri : string)
| ToolCallPart (proposal : ToolCallProposal)
| ToolResultPart (call_id : string) (content : pyval) (is_error : bool).

Definition ToolResultPart_post_init (call_id : string) (content : pyval) (is_error : bool)
    : result ContentPart :=
  raise! ValueError "tool result call id is required" when! PyStr.is_empty call_id ;;
  let? frozen := freeze_json content in
  inr (ToolResultPart call_id frozen is_error).

Definition is_text (p : ContentPart) : bool :=
  match p with TextPart _ => true | _ => false end.
Definition is_image (p : ContentPart) : bool :=
  match p with ImagePart _ _ => true | _ => false end.
Definition is_tool_result (p : ContentPart) : bool :=
  match p with ToolResultPart _ _ _ => true | _ => false end.

Record ModelMessage : Type := mkModelMessage {
  mm_role : MessageRole;
  mm_content : list ContentPart;
  mm_name : option string;
}.

Definition ModelMessage_post_init (m : ModelMessage) : result ModelMessage :=
  raise! ValueError "message content cannot be empty" when! bool_decide (length (mm_content m) = 0%nat) ;;
  raise! ValueError "message name cannot be empty"
    when! bool_decide (mm_name m = Some ""%string) ;;
  raise! ValueError "system messages may contain only text"
    when! bool_decide (mm_role m = MR_SYSTEM) && existsb (λ p, negb (is_text p)) (mm_content m) ;;
  raise! ValueError "tool messages require tool results"
    when! bool_decide (mm_role m = MR_TOOL)
          && existsb (λ p, negb (is_tool_result p)) (mm_content m) ;;
  inr m.

(** ** Schemas and tools *)

Record JsonSchema : Type := mkJsonSchema {
  js_name : string;
  js_schema : pydict;
  js_strict : bool;
}.

Definition JsonSchema_post_init (s : JsonSchema) : result JsonSchema :=
  raise! ValueError "schema name is required" when! PyStr.is_empty (js_name s) ;;
  raise! ValueError "structured output schema root must be an object"
    when! negb (equals_str (dict_get "type" (js_schema s)) "object") ;;
  let? schema := freeze_json_mapping (js_schema s) in
  inr (mkJsonSchema (js_name s) schema (js_strict s)).

Record ToolDefinition : Type := mkToolDefinition {
  td_name : string;
  td_description : string;
  td_input_schema : JsonSchema;
}.

Definition ToolDefinition_post_init (t : ToolDefinition) : result ToolDefinition :=
  raise! ValueError "tool name and description are required"
    when! PyStr.is_empty (td_name t) || PyStr.is_empty (td_description t) ;;
  inr t.

(** ** Models *)

Record ModelCapabilities : Type := mkModelCapabilities {
  max_context_tokens : Z;
  max_output_tokens : Z;
  supports_tools : bool;
  supports_vision : bool;
  supports_structured_output : bool;
  supports_reasoning_tokens : bool;
  supports_cache_tokens : bool;
}.

Definition ModelCapabilities_post_init (c : ModelCapabilities) : result ModelCapabilities :=
  raise! ValueError "model token limits must be positive"
    when! (max_context_tokens c <? 1) || (max_output_tokens c <? 1) ;;
  raise! ValueError "output limit cannot exceed context limit"
    when! max_context_tokens c <? max_output_tokens c ;;
  inr c.

Record ProviderIdentity : Type := mkProviderIdentity {
  pi_provider : string;
  pi_region : string;
}.

Definition ProviderIdentity_post_init (p : ProviderIdentity) : result ProviderIdentity :=
  raise! ValueError "provider and region are required"
    when! PyStr.is_empty (pi_provider p) || PyStr.is_empty (pi_region p) ;;
  inr p.

Record ModelIdentity : Type := mkModelIdentity {
  mi_provider : string;
  mi_model : string;
}.

#[export] Instance ModelIdentity_eq_dec : EqDecision ModelIdentity.
Proof. solve_decision. Defined.

Definition ModelIdentity_post_init (m : ModelIdentity) : result ModelIdentity :=
  raise! ValueError "provider and model are required"
    when! PyStr.is_empty (mi_provider m) || PyStr.is_empty (mi_model m) ;;
  inr m.

Definition catalog_key (m : ModelIdentity) : string :=
  (mi_provider m +:+ "/" +:+ mi_model m)%string.

(** [order=True]: the fields in order. *)
Definition identity_leb (a b : ModelIdentity) : bool :=
  if bool_decide (mi_provider a = mi_provider b) then PyStr.str_leb (mi_model a) (mi_model b)
  else PyStr.str_leb (mi_provider a) (mi_provider b).

(** ** Usage and pricing *)

Record TokenUsage : Type := mkTokenUsage {
  input_tokens : Z;
  output_tokens : Z;
  cache_read_tokens : Z;
  cache_write_tokens : Z;
  reasoning_tokens : Z;
}.

Definition usage_fields (u : TokenUsage) : list Z :=
  [input_tokens u; output_tokens u; cache_read_tokens u; cache_write_tokens u;
   reasoning_tokens u].

Definition TokenUsage_post_init (u : TokenUsage) : result TokenUsage :=
  raise! ValueError "token usage cannot be negative"
    when! existsb (λ v, v <? 0) (usage_fields u) ;;
  inr u.

Definition billable_tokens (u : TokenUsage) : Z :=
  input_tokens u + output_tokens u + cache_read_tokens u + cache_write_tokens u
  + reasoning_tokens u.

Record PricingVersion : Type := mkPricingVersion {
  pv_version : string;
  pv_effective_at : Dt.datetime;
  input_per_million_usd : decimal;
  output_per_million_usd : decimal;
  cache_read_per_million_usd : decimal;
  cache_write_per_million_usd : decimal;
  reasoning_per_million_usd : decimal;
}.

Definition prices (p : PricingVersion) : list decimal :=
  [input_per_million_usd p; output_per_million_usd p; cache_read_per_million_usd p;
   cache_write_per_million_usd p; reasoning_per_million_usd p].

(** [any(value < 0 for value in values)] *)
Fixpoint any_negative (values : list decimal) : result bool :=
  match values with
  | [] => inr false
  | v :: rest => let? neg := dec_lt v (DFin 0 0) in
                 if neg then inr true else any_negative rest
  end.

Definition PricingVersion_post_init (p : PricingVersion) : result PricingVersion :=
  raise! ValueError "pricing version and timezone-aware effective time required"
    when! PyStr.is_empty (pv_version p) || Dt.naive (pv_effective_at p) ;;
  let? negative := any_negative (prices p) in
  raise! ValueError "prices cannot be negative" when! negative ;;
  inr p.

Definition million : Z := 1000000.

Definition cost (p : PricingVersion) (u : TokenUsage) : result decimal :=
  let? a := dec_mul (dec_of_int (input_tokens u)) (input_per_million_usd p) in
  let? b := dec_mul (dec_of_int (output_tokens u)) (output_per_million_usd p) in
  let? s1 := dec_add a b in
  let? c := dec_mul (dec_of_int (cache_read_tokens u)) (cache_read_per_million_usd p) in
  let? s2 := dec_add s1 c in
  let? d := dec_mul (dec_of_int (cache_write_tokens u)) (cache_write_per_million_usd p) in
  let? s3 := dec_add s2 d in
  let? e := dec_mul (dec_of_int (reasoning_tokens u)) (reasoning_per_million_usd p) in
  let? s4 := dec_add s3 e in
  dec_div_int s4 million.

(** ** Requests and responses *)

Record SafetyResult : Type := mkSafetyResult {
  sr_outcome : SafetyOutcome;
  sr_reason_code : option string;
}.

Definition SafetyResult_post_init (s : SafetyResult) : result SafetyResult :=
  raise! ValueError "allowed result cannot have a refusal reason"
    when! bool_decide (sr_outcome s = SO_ALLOWED) && is_some (sr_reason_code s) ;;
  raise! ValueError "refusal or filtering requires a reason code"
    when! negb (bool_decide (sr_outcome s = SO_ALLOWED))
          && match sr_reason_code s with Some r => PyStr.is_empty r | None => true end ;;
  inr s.

Record ModelRequest : Type := mkModelRequest {
  mq_request_id : uuid;
  mq_tenant_id : string;
  mq_run_id : uuid;
  mq_messages : list ModelMessage;
  mq_max_output_tokens : Z;
  mq_prompt_token_estimate : Z;
  mq_requested_model : option ModelIdentity;
  mq_tools : list ToolDefinition;
  mq_response_schema : option JsonSchema;
  mq_temperature : decimal;
  mq_timeout_seconds : spec_float;
  mq_idempotency_key : string;
}.

Definition ModelRequest_post_init (r : ModelRequest) : result ModelRequest :=
  raise! ValueError "tenant, messages, and idempotency key are required"
    when! PyStr.is_empty (mq_tenant_id r) || bool_decide (length (mq_messages r) = 0%nat)
          || PyStr.is_empty (mq_idempotency_key r) ;;
  raise! ValueError "token estimates must be positive"
    when! (mq_max_output_tokens r <? 1) || (mq_prompt_token_estimate r <? 1) ;;
  raise! ValueError "timeout must be between 0 and 600 seconds"
    when! negb (SFltb (sf_of_Z 0) (mq_timeout_seconds r)
                && SFleb (mq_timeout_seconds r) (sf_of_Z 600)) ;;
  let? above := dec_le (DFin 0 0) (mq_temperature r) in
  let? within := (if above then dec_le (mq_temperature r) (DFin 2 0) else inr false) in
  raise! ValueError "temperature must be between 0 and 2" when! negb within ;;
  raise! ValueError "tool names must be unique"
    when! negb (bool_decide (NoDup (map td_name (mq_tools r)))) ;;
  inr r.

Record ModelResponse : Type := mkModelResponse {
  ms_request_id : uuid;
  ms_model : ModelIdentity;
  ms_content : list ContentPart;
  ms_finish_reason : FinishReason;
  ms_safety : SafetyResult;
  ms_usage : TokenUsage;
  ms_latency_ms : Z;
  ms_provider_request_id : option string;
  ms_structured_output : option pydict;
}.

Definition ModelResponse_post_init (r : ModelResponse) : result ModelResponse :=
  raise! ValueError "latency cannot be negative" when! ms_latency_ms r <? 0 ;;
  raise! ValueError "provider request id cannot be empty"
    when! bool_decide (ms_provider_request_id r = Some ""%string) ;;
  let? structured := match ms_structured_output r with
                     | Some d => let? f := freeze_json_mapping d in inr (Some f)
                     | None => inr None
                     end in
  inr {| ms_request_id := ms_request_id r; ms_model := ms_model r;
         ms_content := ms_content r; ms_finish_reason := ms_finish_reason r;
         ms_safety := ms_safety r; ms_usage := ms_usage r;
         ms_latency_ms := ms_latency_ms r;
         ms_provider_request_id := ms_provider_request_id r;
         ms_structured_output := structured |}.

(** [ModelGatewayError.__init__] *)
Definition ModelGatewayError_init (e : gateway_error) : result gateway_error :=
  raise! ValueError "error code is required" when! PyStr.is_empty (ge_code e) ;;
  raise! ValueError "retry delay cannot be negative"
    when! match ge_retry_after_seconds e with
          | Some t => SFltb t (sf_of_Z 0)
          | None => false
          end ;;
  inr e.

(** An error without a retry delay, as most are raised. *)
Definition gateway_raise (c : ModelErrorClass) (code : string) (retryable ambiguous : bool)
    : gateway_error := mkGatewayError c code retryable None ambiguous.

Definition ambiguous_failure (c : ModelErrorClass) (code : string) : exn :=
  ModelGatewayError (gateway_raise c code false true).
