(* ===== verification/Routing.v ===== *)
(** * Model catalog and routing

    Models [gateway/catalog.py]: the catalog, the policy checks on an entry
    and [ModelRouter.route].  Routing picks, deterministically, a cheapest (or
    fastest) entry among exactly those that the tenant's policy and the
    request's needs admit. *)

From stdpp Require Import base gmap sets list strings sorting.
From Stdlib Require Import ZArith Lia Sorted.
From S2P Require Import Prelude PyLib Json Events Identity Amounts Policy ModelContracts Floats.

Local Open Scope Z_scope.

(** [Environment] of [config.py] *)
Inductive Environment : Type := DEVELOPMENT | TEST | PRODUCTION.

#[export] Instance Environment_eq_dec : EqDecision Environment.
Proof. solve_decision. Defined.

#[export] Instance Environment_constant : StringConstant Environment := {
  sc_value e := match e with
    | DEVELOPMENT => "development" | TEST => "test" | PRODUCTION => "production"
    end%string;
  sc_members := [DEVELOPMENT; TEST; PRODUCTION];
}.

Inductive RoutePreference : Type := RP_COST | RP_LATENCY.

#[export] Instance RoutePreference_constant : StringConstant RoutePreference := {
  sc_value p := match p with RP_COST => "cost" | RP_LATENCY => "latency" end%string;
  sc_members := [RP_COST; RP_LATENCY];
}.

Record ModelCatalogEntry : Type := mkEntry {
  ce_identity : ModelIdentity;
  ce_capabilities : ModelCapabilities;
  ce_pricing : PricingVersion;
  ce_environments : list Environment;
  ce_data_residencies : gset string;
  ce_provider_retains_data : bool;
  ce_cost_rank : Z;
  ce_latency_rank : Z;
  ce_fallback_models : list ModelIdentity;
}.

Definition ModelCatalogEntry_post_init (e : ModelCatalogEntry) : result ModelCatalogEntry :=
  raise! ValueError "catalog environment and residency must be explicit"
    when! bool_decide (ce_environments e = []) || bool_decide (ce_data_residencies e = ∅) ;;
  raise! ValueError "catalog ranks cannot be negative"
    when! (ce_cost_rank e <? 0) || (ce_latency_rank e <? 0) ;;
  inr e.

(** [ModelCatalog]: a dictionary by identity, in insertion order. *)
Definition ModelCatalog := list ModelCatalogEntry.

Definition ModelCatalog_init (entries : list ModelCatalogEntry) : result ModelCatalog :=
  raise! ValueError "duplicate catalog model identity"
    when! negb (bool_decide (NoDup (map ce_identity entries))) ;;
  inr entries.

Definition catalog_get (catalog : ModelCatalog) (identity : ModelIdentity)
    : result ModelCatalogEntry :=
  match find (λ e, bool_decide (ce_identity e = identity)) catalog with
  | Some e => inr e
  | None => inl (CatalogError ("unknown model: " +:+ catalog_key identity))
  end.

Definition catalog_entries (catalog : ModelCatalog) : list ModelCatalogEntry :=
  py_sorted (λ a b, PyStr.str_leb (catalog_key (ce_identity a)) (catalog_key (ce_identity b)))
    catalog.

(** [tuple(name for name, failed in checks.items() if failed)] *)
Definition failing (checks : list (string * bool)) : list string :=
  omap (λ c, if c.2 : bool then Some c.1 else None) checks.

Definition policy_checks (entry : ModelCatalogEntry) (policy : TenantPolicy)
    (environment : Environment) : list (string * bool) :=
  let identity := ce_identity entry in
  let allowed_model := bool_decide (catalog_key identity ∈ allowed_models policy)
                       || bool_decide (mi_model identity ∈ allowed_models policy) in
  [("model_not_allowed"%string, negb allowed_model);
   ("provider_not_allowed"%string, negb (bool_decide (mi_provider identity ∈ allowed_providers policy)));
   ("environment_not_allowed"%string,
    negb (bool_decide (environment ∈ ce_environments entry))
    || negb (bool_decide (sc_value environment ∈ allowed_environments policy)));
   ("residency_not_allowed"%string,
    bool_decide (ce_data_residencies entry ∩ allowed_data_residencies policy = ∅));
   ("retention_not_allowed"%string,
    ce_provider_retains_data entry && negb (allow_provider_retention policy))].

Definition policy_failures (entry : ModelCatalogEntry) (policy : TenantPolicy)
    (environment : Environment) : list string :=
  failing (policy_checks entry policy environment).

Definition _uses_vision (request : ModelRequest) : bool :=
  existsb (λ m, existsb is_image (mm_content m)) (mq_messages request).

Definition request_checks (entry : ModelCatalogEntry) (request : ModelRequest)
    (unavailable : list ModelIdentity) : list (string * bool) :=
  let c := ce_capabilities entry in
  [("provider_unavailable"%string, bool_decide (ce_identity entry ∈ unavailable));
   ("context_limit_exceeded"%string,
    max_context_tokens c <? mq_prompt_token_estimate request + mq_max_output_tokens request);
   ("output_limit_exceeded"%string, max_output_tokens c <? mq_max_output_tokens request);
   ("tools_unsupported"%string,
    negb (bool_decide (length (mq_tools request) = 0%nat)) && negb (supports_tools c));
   ("vision_unsupported"%string, _uses_vision request && negb (supports_vision c));
   ("structured_output_unsupported"%string,
    is_some (mq_response_schema request) && negb (supports_structured_output c))].

Definition entry_failures (request : ModelRequest) (policy : TenantPolicy)
    (environment : Environment) (unavailable : list ModelIdentity)
    (entry : ModelCatalogEntry) : list string :=
  policy_failures entry policy environment
  ++ failing (request_checks entry request unavailable).

(** The sort key: the two ranks, then the identity. *)
Definition route_leb (preference : RoutePreference) (a b : ModelCatalogEntry) : bool :=
  let ranks (e : ModelCatalogEntry) := match preference with
    | RP_COST => (ce_cost_rank e, ce_latency_rank e)
    | RP_LATENCY => (ce_latency_rank e, ce_cost_rank e)
    end in
  let '(a1, a2) := ranks a in
  let '(b1, b2) := ranks b in
  (a1 <? b1) || ((a1 =? b1) && ((a2 <? b2)
    || ((a2 =? b2) && identity_leb (ce_identity a) (ce_identity b)))).

Record RouteDecision : Type := mkRouteDecision {
  rd_selected : ModelCatalogEntry;
  rd_candidates : list ModelCatalogEntry;
  rd_rationale : list string;
}.

Definition route (request : ModelRequest) (catalog : ModelCatalog) (policy : TenantPolicy)
    (environment : Environment) (unavailable : list ModelIdentity)
    (preference : RoutePreference) : result RouteDecision :=
  raise! RouteDeniedError ["cross_tenant_policy"%string]
    when! negb (bool_decide (tid_value (tp_tenant_id policy) = mq_tenant_id request)) ;;
  let? considered :=
    match mq_requested_model request with
    | None => inr (catalog_entries catalog, [])
    | Some m => let? e := catalog_get catalog m in inr ([e], ["explicit_model"%string])
    end in
  let '(entries, reasons) := considered in
  let failures := entry_failures request policy environment unavailable in
  let eligible := List.filter (λ e, bool_decide (failures e = [])) entries in
  let denied := remove_dups (entries ≫= failures) in
  match py_sorted (route_leb preference) eligible with
  | [] => inl (RouteDeniedError (match py_sorted PyStr.str_leb denied with
                                 | [] => ["no_catalog_candidates"%string]
                                 | names => names
                                 end))
  | selected :: rest =>
      inr (mkRouteDecision selected (selected :: rest)
             (reasons ++ ["tenant_policy_allowed"; "capabilities_matched";
                          sc_value preference +:+ "_preference"]%string))
  end.

(** ** Eligibility *)

(** What policy and request ask of an entry. *)
Record admits (request : ModelRequest) (policy : TenantPolicy) (environment : Environment)
    (unavailable : list ModelIdentity) (e : ModelCatalogEntry) : Prop := {
  ad_model : catalog_key (ce_identity e) ∈ allowed_models policy
             ∨ mi_model (ce_identity e) ∈ allowed_models policy;
  ad_provider : mi_provider (ce_identity e) ∈ allowed_providers policy;
  ad_environment : environment ∈ ce_environments e
                   ∧ sc_value environment ∈ allowed_environments policy;
  ad_residency : ∃ r, r ∈ ce_data_residencies e ∧ r ∈ allowed_data_residencies policy;
  ad_retention : ce_provider_retains_data e = true → allow_provider_retention policy = true;
  ad_available : ce_identity e ∉ unavailable;
  ad_context : mq_prompt_token_estimate request + mq_max_output_tokens request
               ≤ max_context_tokens (ce_capabilities e);
  ad_output : mq_max_output_tokens request ≤ max_output_tokens (ce_capabilities e);
  ad_tools : mq_tools request ≠ [] → supports_tools (ce_capabilities e) = true;
  ad_vision : _uses_vision request = true → supports_vision (ce_capabilities e) = true;
  ad_structured : mq_response_schema request ≠ None →
                  supports_structured_output (ce_capabilities e) = true;
}.

Lemma failing_nil_cons name b checks :
  failing ((name, b) :: checks) = [] ↔ b = false ∧ failing checks = [].
Proof. unfold failing. simpl. destruct b; [|by split; [|intros [_ ?]]]. by split; [|intros [? _]]. Qed.

Lemma residency_iff (a b : gset string) : a ∩ b ≠ ∅ ↔ ∃ r, r ∈ a ∧ r ∈ b.
Proof.
  split.
  - intros H. apply set_choose_L in H as [r Hr]. exists r. set_solver.
  - intros (r & Ha & Hb) H. set_solver.
Qed.

Lemma admits_iff request policy environment unavailable e :
  entry_failures request policy environment unavailable e = [] ↔
  admits request policy environment unavailable e.
Proof.
  unfold entry_failures, policy_failures, policy_checks, request_checks. cbv zeta.
  rewrite app_nil_iff, !failing_nil_cons. split.
  - intros ((H1 & H2 & H3 & H4 & H5 & _) & H6 & H7 & H8 & H9 & H10 & H11 & _). bool_props.
    split; try done; try lia.
    + apply orb_true_iff in H1 as [?|?]; bool_props; [by left|by right].
    + by apply residency_iff.
    + intros Hr. rewrite Hr in H5. simpl in H5. by bool_props.
    + intros Ht. destruct (mq_tools request); [done|]. by destruct (supports_tools _).
    + intros Hv. rewrite Hv in H10. simpl in H10. by bool_props.
    + intros Hs. destruct (mq_response_schema request); [|done].
      by destruct (supports_structured_output _).
  - intros [Hm Hp [He1 He2] Hres Hret Hav Hctx Hout Ht Hv Hs].
    repeat split; rewrite ?negb_false_iff, ?orb_false_iff, ?negb_false_iff.
    + apply orb_true_iff. rewrite !bool_decide_eq_true. done.
    + by apply bool_decide_eq_true.
    + by rewrite !bool_decide_eq_true.
    + apply bool_decide_eq_false. by apply residency_iff.
    + destruct (ce_provider_retains_data e); [by rewrite Hret|done].
    + by apply bool_decide_eq_false.
    + by apply Z.ltb_ge.
    + by apply Z.ltb_ge.
    + destruct (mq_tools request); [done|]. by rewrite Ht.
    + destruct (_uses_vision request); [by rewrite Hv|done].
    + destruct (mq_response_schema request); [by rewrite Hs|done].
Qed.

(** Why an entry is rejected, by the name of the reason. *)
Inductive rejected_for (request : ModelRequest) (policy : TenantPolicy) (environment : Environment)
    (unavailable : list ModelIdentity) (e : ModelCatalogEntry) : string → Prop :=
| for_model : catalog_key (ce_identity e) ∉ allowed_models policy →
    mi_model (ce_identity e) ∉ allowed_models policy →
    rejected_for request policy environment unavailable e "model_not_allowed"
| for_provider : mi_provider (ce_identity e) ∉ allowed_providers policy →
    rejected_for request policy environment unavailable e "provider_not_allowed"
| for_environment : environment ∉ ce_environments e ∨ sc_value environment ∉ allowed_environments policy →
    rejected_for request policy environment unavailable e "environment_not_allowed"
| for_residency : (¬ ∃ r, r ∈ ce_data_residencies e ∧ r ∈ allowed_data_residencies policy) →
    rejected_for request policy environment unavailable e "residency_not_allowed"
| for_retention : ce_provider_retains_data e = true → allow_provider_retention policy = false →
    rejected_for request policy environment unavailable e "retention_not_allowed"
| for_unavailable : ce_identity e ∈ unavailable →
    rejected_for request policy environment unavailable e "provider_unavailable"
| for_context : max_context_tokens (ce_capabilities e)
                < mq_prompt_token_estimate request + mq_max_output_tokens request →
    rejected_for request policy environment unavailable e "context_limit_exceeded"
| for_output : max_output_tokens (ce_capabilities e) < mq_max_output_tokens request →
    rejected_for request policy environment unavailable e "output_limit_exceeded"
| for_tools : mq_tools request ≠ [] → supports_tools (ce_capabilities e) = false →
    rejected_for request policy environment unavailable e "tools_unsupported"
| for_vision : _uses_vision request = true → supports_vision (ce_capabilities e) = false →
    rejected_for request policy environment unavailable e "vision_unsupported"
| for_structured : mq_response_schema request ≠ None →
    supports_structured_output (ce_capabilities e) = false →
    rejected_for request policy environment unavailable e "structured_output_unsupported".

Lemma elem_of_checks name n (b : bool) checks :
  name ∈ failing ((n, b) :: checks) ↔ (name = n ∧ b = true) ∨ name ∈ failing checks.
Proof. unfold failing. simpl. destruct b; [rewrite elem_of_cons|]; intuition congruence. Qed.

Lemma elem_of_no_checks name : name ∈ failing [] ↔ False.
Proof. apply elem_of_nil. Qed.

Lemma rejected_iff request policy environment unavailable e name :
  name ∈ entry_failures request policy environment unavailable e ↔
  rejected_for request policy environment unavailable e name.
Proof.
  unfold entry_failures, policy_failures, policy_checks, request_checks. cbv zeta.
  rewrite elem_of_app, !elem_of_checks, !elem_of_no_checks.
  rewrite !negb_true_iff, !orb_true_iff, !andb_true_iff, !orb_false_iff, !negb_true_iff, !Z.ltb_lt,
    !bool_decide_eq_true, !bool_decide_eq_false.
  assert (Hr : ce_data_residencies e ∩ allowed_data_residencies policy = ∅ ↔
    ¬ ∃ r, r ∈ ce_data_residencies e ∧ r ∈ allowed_data_residencies policy)
    by (rewrite <- residency_iff; destruct (decide (ce_data_residencies e ∩ allowed_data_residencies policy = ∅)); tauto).
  assert (Ht : length (mq_tools request) ≠ 0%nat ↔ mq_tools request ≠ []) by (destruct (mq_tools request); simpl; naive_solver).
  assert (Hs : is_some (mq_response_schema request) = true ↔ mq_response_schema request ≠ None)
    by by destruct (mq_response_schema request).
  rewrite Hr, Ht, Hs. split.
  - intros H. repeat destruct H as [H|H]; try done; destruct H as [-> H]; clear Hr Ht Hs; constructor; intuition.
  - clear Hr Ht Hs. destruct 1; [left..|right|right|right|right|right|right];
      repeat first [left; split; [reflexivity|solve [auto]]|right].
Qed.

(** ** The routing order *)

Lemma identity_leb_total a b : identity_leb a b = true ∨ identity_leb b a = true.
Proof.
  unfold identity_leb. destruct (decide (mi_provider a = mi_provider b)) as [Hp|Hp].
  - rewrite !bool_decide_true by congruence. apply PyStr.str_leb_total.
  - rewrite !bool_decide_false by congruence. apply PyStr.str_leb_total.
Qed.

Lemma identity_leb_trans a b c :
  identity_leb a b = true → identity_leb b c = true → identity_leb a c = true.
Proof.
  unfold identity_leb. intros Hab Hbc.
  destruct (decide (mi_provider a = mi_provider b)) as [Hp|Hp];
    [rewrite bool_decide_true in Hab by done|rewrite bool_decide_false in Hab by done];
    (destruct (decide (mi_provider b = mi_provider c)) as [Hq|Hq];
     [rewrite bool_decide_true in Hbc by done|rewrite bool_decide_false in Hbc by done]).
  - rewrite bool_decide_true by congruence. by eapply PyStr.str_leb_trans.
  - by rewrite bool_decide_false, Hp by congruence.
  - by rewrite bool_decide_false, <- Hq by congruence.
  - rewrite bool_decide_false; [by eapply PyStr.str_leb_trans|].
    intros Heq. apply Hp. rewrite Heq in *. by apply PyStr.str_leb_antisym.
Qed.

Lemma identity_leb_antisym a b : identity_leb a b = true → identity_leb b a = true → a = b.
Proof.
  unfold identity_leb. destruct a as [pa ma], b as [pb mb]. simpl.
  destruct (decide (pa = pb)) as [->|Hp].
  - rewrite !bool_decide_true by done. intros H1 H2. f_equal. by apply PyStr.str_leb_antisym.
  - rewrite !bool_decide_false by congruence. intros H1 H2.
    by destruct Hp; apply PyStr.str_leb_antisym.
Qed.

(** The two ranks in the order of the preference. *)
Definition ranks (preference : RoutePreference) (e : ModelCatalogEntry) : Z * Z :=
  match preference with
  | RP_COST => (ce_cost_rank e, ce_latency_rank e)
  | RP_LATENCY => (ce_latency_rank e, ce_cost_rank e)
  end.

Lemma route_leb_iff preference a b :
  route_leb preference a b = true ↔
  let '(a1, a2) := ranks preference a in let '(b1, b2) := ranks preference b in
  a1 < b1 ∨ (a1 = b1 ∧ (a2 < b2 ∨
    (a2 = b2 ∧ identity_leb (ce_identity a) (ce_identity b) = true))).
Proof.
  unfold route_leb. fold (ranks preference a) (ranks preference b).
  destruct (ranks preference a), (ranks preference b).
  rewrite !orb_true_iff, !andb_true_iff, !orb_true_iff, !andb_true_iff, !Z.ltb_lt, !Z.eqb_eq.
  done.
Qed.

Lemma route_leb_total preference a b :
  route_leb preference a b = true ∨ route_leb preference b a = true.
Proof.
  rewrite !route_leb_iff. destruct (ranks preference a) as [a1 a2], (ranks preference b) as [b1 b2].
  pose proof (identity_leb_total (ce_identity a) (ce_identity b)).
  destruct (Z.lt_total a1 b1) as [?|[->|?]]; [tauto| |tauto].
  destruct (Z.lt_total a2 b2) as [?|[->|?]]; tauto.
Qed.

Lemma route_leb_trans preference a b c :
  route_leb preference a b = true → route_leb preference b c = true →
  route_leb preference a c = true.
Proof.
  rewrite !route_leb_iff. pose proof (identity_leb_trans (ce_identity a) (ce_identity b)
    (ce_identity c)).
  destruct (ranks preference a), (ranks preference b), (ranks preference c). naive_solver lia.
Qed.

Lemma route_leb_antisym preference a b :
  route_leb preference a b = true → route_leb preference b a = true →
  ce_identity a = ce_identity b.
Proof.
  rewrite !route_leb_iff. destruct (ranks preference a), (ranks preference b).
  intros H1 H2. apply identity_leb_antisym; naive_solver lia.
Qed.

(** ** What routing decides *)

(** An entry the request may use. *)
Definition usable (request : ModelRequest) (catalog : ModelCatalog) (policy : TenantPolicy)
    (environment : Environment) (unavailable : list ModelIdentity) (e : ModelCatalogEntry)
    : Prop :=
  e ∈ catalog ∧ (∀ m, mq_requested_model request = Some m → ce_identity e = m) ∧
  admits request policy environment unavailable e.

Lemma same_identity catalog (a b : ModelCatalogEntry) :
  NoDup (map ce_identity catalog) → a ∈ catalog → b ∈ catalog →
  ce_identity a = ce_identity b → a = b.
Proof.
  intros Hnd Ha Hb Hid. induction catalog as [|e catalog IH]; [by apply not_elem_of_nil in Ha|].
  simpl in Hnd. apply NoDup_cons in Hnd as [Hnot Hnd].
  assert (Hin : ∀ x, x ∈ catalog → ce_identity x ∈ map ce_identity catalog)
    by (intros x Hx; by apply list_elem_of_fmap_2).
  apply elem_of_cons in Ha as [->|Ha], Hb as [->|Hb]; [done|..|by apply IH].
  - destruct Hnot. rewrite Hid. by apply Hin.
  - destruct Hnot. rewrite <- Hid. by apply Hin.
Qed.

Lemma catalog_get_ok catalog m e :
  catalog_get catalog m = inr e → e ∈ catalog ∧ ce_identity e = m.
Proof.
  unfold catalog_get. destruct (find _ _) as [x|] eqn:Hf; [|done]. intros [= <-].
  apply find_some in Hf as [Hin Hid]. bool_props. split; [by apply list_elem_of_In|done].
Qed.

Lemma catalog_get_none catalog m x :
  catalog_get catalog m = inl x → (∃ msg, x = CatalogError msg) ∧ ∀ e, e ∈ catalog → ce_identity e ≠ m.
Proof.
  unfold catalog_get. destruct (find _ _) as [y|] eqn:Hf; [done|]. intros [= <-].
  split; [by eexists|]. intros e He Hid. apply list_elem_of_In in He.
  pose proof (find_none _ _ Hf e He) as H. simpl in H. by bool_props.
Qed.

(** The entries a request chooses from, whatever the order of the catalog. *)
Definition considered (request : ModelRequest) (catalog : ModelCatalog)
    : result (list ModelCatalogEntry * list string) :=
  match mq_requested_model request with
  | None => inr (catalog_entries catalog, [])
  | Some m => let? e := catalog_get catalog m in inr ([e], ["explicit_model"%string])
  end.

Lemma considered_spec request catalog entries reasons e :
  NoDup (map ce_identity catalog) → considered request catalog = inr (entries, reasons) →
  e ∈ entries ↔ e ∈ catalog ∧ ∀ m, mq_requested_model request = Some m → ce_identity e = m.
Proof.
  unfold considered. intros Hnd H. destruct (mq_requested_model request) as [m|].
  - py_inv. match goal with Hg : catalog_get _ _ = inr ?x |- _ =>
      apply catalog_get_ok in Hg as [Hin Hid] end.
    rewrite list_elem_of_singleton. split.
    + intros ->. split; [done|]. by intros ? [= <-].
    + intros [He Hm]. eapply same_identity; [done|done|done|]. rewrite Hid. by apply Hm.
  - injection H as <- <-. unfold catalog_entries. rewrite py_sorted_elem. naive_solver.
Qed.

Lemma elem_of_filter_bool {A} (f : A → bool) l x : x ∈ List.filter f l ↔ x ∈ l ∧ f x = true.
Proof. rewrite !list_elem_of_In. apply filter_In. Qed.

Lemma eligible_spec request catalog policy environment unavailable preference entries reasons e :
  NoDup (map ce_identity catalog) → considered request catalog = inr (entries, reasons) →
  e ∈ py_sorted (route_leb preference) (List.filter (λ e, bool_decide
        (entry_failures request policy environment unavailable e = [])) entries) ↔
  usable request catalog policy environment unavailable e.
Proof.
  intros Hnd Hc. rewrite py_sorted_elem, elem_of_filter_bool, bool_decide_eq_true, admits_iff.
  rewrite (considered_spec _ _ _ _ _ Hnd Hc). unfold usable. tauto.
Qed.

(** Every candidate of a decision is an entry the request may use. *)
Lemma route_candidates_usable request catalog policy environment unavailable preference d e :
  NoDup (map ce_identity catalog) →
  route request catalog policy environment unavailable preference = inr d →
  e ∈ rd_candidates d → usable request catalog policy environment unavailable e.
Proof.
  unfold route. fold (considered request catalog). intros Hnd Hrun He.
  apply rbind_ok in Hrun as (u & _ & Hrun). apply rbind_ok in Hrun as ([es reasons] & Hc & Hrun).
  rewrite <- (eligible_spec _ _ _ _ _ preference _ _ _ Hnd Hc).
  destruct (py_sorted _ (List.filter _ es)) as [|best rest]; [done|].
  by injection Hrun as <-.
Qed.

(** An entry the request chooses from. *)
Definition offered (request : ModelRequest) (catalog : ModelCatalog) (e : ModelCatalogEntry) : Prop :=
  e ∈ catalog ∧ ∀ m, mq_requested_model request = Some m → ce_identity e = m.

(** The reasons a refusal gives, in order. *)
Lemma denied_reasons (entries : list ModelCatalogEntry) (failures : ModelCatalogEntry → list string) :
  let names := py_sorted PyStr.str_leb (remove_dups (entries ≫= failures)) in
  NoDup names ∧ StronglySorted (λ a b, PyStr.str_leb a b = true) names ∧
  ∀ name, name ∈ names ↔ ∃ e, e ∈ entries ∧ name ∈ failures e.
Proof.
  cbv zeta. split; [|split].
  - rewrite py_sorted_perm. apply NoDup_remove_dups.
  - apply py_sorted_sorted; [apply PyStr.str_leb_total|apply PyStr.str_leb_trans].
  - intros name. rewrite py_sorted_elem, elem_of_remove_dups, list_elem_of_bind. naive_solver.
Qed.

(** The entries considered are listed once. *)
Lemma considered_nodup request catalog entries reasons :
  NoDup (map ce_identity catalog) → considered request catalog = inr (entries, reasons) →
  NoDup (map ce_identity entries).
Proof.
  unfold considered. intros Hnd H. destruct (mq_requested_model request) as [m|].
  - py_inv. simpl. apply NoDup_singleton.
  - injection H as <- <-. unfold catalog_entries.
    assert (Hp : map ce_identity (py_sorted (λ a b, PyStr.str_leb (catalog_key (ce_identity a))
      (catalog_key (ce_identity b))) catalog) ≡ₚ map ce_identity catalog) by (apply Permutation_map; by rewrite py_sorted_perm).
    by rewrite Hp.
Qed.

Lemma NoDup_map_filter {A B} (g : A → B) (f : A → bool) (l : list A) :
  NoDup (map g l) → NoDup (map g (List.filter f l)).
Proof.
  induction l as [|x l IH]; [done|]. simpl. intros [Hx Hl]%NoDup_cons.
  destruct (f x); [|by apply IH]. simpl. apply NoDup_cons. split; [|by apply IH].
  intros Hin. apply Hx. apply list_elem_of_fmap in Hin as (y & -> & Hy).
  apply elem_of_filter_bool in Hy as [Hy _]. by apply list_elem_of_fmap_2.
Qed.

(** C15. Routing is sound and complete.  A decision lists as candidates
    exactly the entries that the policy and the request admit, each once,
    sorted best first in the preferred order, and selects the first of them,
    with the rationale of its path.  It is refused only when the policy
    belongs to another tenant ([cross_tenant_policy]), the requested model is
    unknown, or nothing is admitted; then it lists, sorted and without
    repetition, exactly the reasons for which some entry the request chooses
    from is rejected, or [no_catalog_candidates] when there is none to choose
    from. *)
Theorem route_selects_best request entries catalog policy environment unavailable preference :
  ModelCatalog_init entries = inr catalog →
  match route request catalog policy environment unavailable preference with
  | inr d =>
      tid_value (tp_tenant_id policy) = mq_tenant_id request ∧
      head (rd_candidates d) = Some (rd_selected d) ∧
      (∀ e, e ∈ rd_candidates d ↔ usable request catalog policy environment unavailable e) ∧
      NoDup (map ce_identity (rd_candidates d)) ∧
      StronglySorted (λ a b, route_leb preference a b = true) (rd_candidates d) ∧
      rd_rationale d = (if is_some (mq_requested_model request) then ["explicit_model"] else []) ++
        ["tenant_policy_allowed"; "capabilities_matched"; sc_value preference +:+ "_preference"]%string
  | inl (RouteDeniedError reasons) =>
      if bool_decide (tid_value (tp_tenant_id policy) = mq_tenant_id request)
      then (∀ e, ¬ usable request catalog policy environment unavailable e) ∧
        NoDup reasons ∧ StronglySorted (λ a b, PyStr.str_leb a b = true) reasons ∧
        ((∀ e, ¬ offered request catalog e) ∧ reasons = ["no_catalog_candidates"%string] ∨
         (∃ e, offered request catalog e) ∧
         ∀ name, name ∈ reasons ↔ ∃ e, offered request catalog e ∧
           rejected_for request policy environment unavailable e name)
      else reasons = ["cross_tenant_policy"%string]
  | inl (CatalogError _) =>
      tid_value (tp_tenant_id policy) = mq_tenant_id request ∧
      ∃ m, mq_requested_model request = Some m ∧ ∀ e, e ∈ catalog → ce_identity e ≠ m
  | inl _ => False
  end.
Proof.
  intros Hinit. unfold ModelCatalog_init in Hinit. py_inv. bool_props.
  unfold route. fold (considered request catalog).
  destruct (bool_decide (tid_value _ = _)) eqn:Ht; bool_props; cbn [negb rbind reject_if]; [|done].
  destruct (considered request catalog) as [x|[es reasons]] eqn:Hc; cbn [rbind].
  { unfold considered in Hc. destruct (mq_requested_model request) as [m|] eqn:Hm; [|done].
    destruct (catalog_get catalog m) as [y|y] eqn:Hg; [|done]. injection Hc as ->.
    apply catalog_get_none in Hg as [[msg ->] Hno]. split; [done|]. by exists m. }
  pose proof (λ e, considered_spec request catalog es reasons e ltac:(eassumption) Hc) as Hoff.
  pose proof (considered_nodup request catalog es reasons ltac:(eassumption) Hc) as Hnodup.
  pose proof (λ e, eligible_spec request catalog policy environment unavailable preference
    es reasons e ltac:(eassumption) Hc) as Hel.
  set (eligible := List.filter _ es) in *.
  pose proof (py_sorted_sorted (route_leb preference) (route_leb_total preference)
    (route_leb_trans preference) eligible) as Hsorted.
  assert (Hperm : NoDup (map ce_identity (py_sorted (route_leb preference) eligible))).
  { rewrite py_sorted_perm. by apply NoDup_map_filter. }
  destruct (py_sorted (route_leb preference) eligible) as [|best rest] eqn:Hs.
  - assert (Hnone : ∀ e, ¬ usable request catalog policy environment unavailable e)
      by (intros e He; apply Hel in He; by apply not_elem_of_nil in He).
    split; [done|]. destruct (denied_reasons es (entry_failures request policy environment unavailable))
      as (Hnd & Hss & Hin).
    destruct (py_sorted PyStr.str_leb _) as [|name names] eqn:Hnames.
    + split; [apply NoDup_singleton|]. split; [by repeat constructor|]. left. split; [|done].
      intros e He. apply Hoff in He. apply (Hnone e). split; [by apply Hoff in He as [? _]|].
      split; [by apply Hoff in He as [_ ?]|]. apply admits_iff.
      destruct (entry_failures request policy environment unavailable e) as [|n ns] eqn:Hf; [done|].
      exfalso. apply (not_elem_of_nil n), Hin. exists e. split; [done|]. rewrite Hf. left.
    + split; [done|]. split; [done|]. right. split.
      * destruct (proj1 (Hin name)) as (e & He & _); [left|]. exists e. by apply Hoff.
      * intros n. rewrite Hin. split; intros (e & He & Hn); exists e;
          (split; [by apply Hoff|by apply rejected_iff]).
  - cbn. split; [done|]. split; [done|]. split; [done|]. split; [done|]. split; [done|].
    f_equal. unfold considered in Hc. destruct (mq_requested_model request) as [m|];
      [destruct (catalog_get catalog m); [done|]|]; by injection Hc as _ <-.
Qed.

Lemma filter_perm {A} (f : A → bool) (l l' : list A) :
  l ≡ₚ l' → List.filter f l ≡ₚ List.filter f l'.
Proof.
  induction 1 as [|x l l' _ IH|x y l|]; simpl; [done|by destruct (f x); [f_equiv|]| |by etransitivity].
  destruct (f x), (f y); [apply Permutation_swap|done..].
Qed.

Lemma catalog_get_perm catalog catalog' m :
  NoDup (map ce_identity catalog) → catalog ≡ₚ catalog' →
  catalog_get catalog m = catalog_get catalog' m.
Proof.
  intros Hnd Hp.
  destruct (catalog_get catalog m) as [x|e] eqn:H1, (catalog_get catalog' m) as [y|e'] eqn:H2.
  - unfold catalog_get in *. repeat case_match; congruence.
  - apply catalog_get_ok in H2 as [Hin Hid]. apply catalog_get_none in H1 as [_ Hno].
    rewrite <- Hp in Hin. by destruct (Hno _ Hin).
  - apply catalog_get_ok in H1 as [Hin Hid]. apply catalog_get_none in H2 as [_ Hno].
    rewrite Hp in Hin. by destruct (Hno _ Hin).
  - apply catalog_get_ok in H1 as [Hin Hid], H2 as [Hin' Hid']. rewrite <- Hp in Hin'.
    f_equal. eapply same_identity; [exact Hnd|done|done|congruence].
Qed.

Lemma sorted_names_perm (l l' : list string) :
  (∀ x, x ∈ l ↔ x ∈ l') →
  py_sorted PyStr.str_leb (remove_dups l) = py_sorted PyStr.str_leb (remove_dups l').
Proof.
  intros Hl. eapply (StronglySorted_unique_strong (λ a b, PyStr.str_leb a b = true)).
  - intros x y _ _. apply PyStr.str_leb_antisym.
  - apply py_sorted_sorted; [apply PyStr.str_leb_total|apply PyStr.str_leb_trans].
  - apply py_sorted_sorted; [apply PyStr.str_leb_total|apply PyStr.str_leb_trans].
  - rewrite !py_sorted_perm. apply NoDup_Permutation; [apply NoDup_remove_dups..|].
    intros x. rewrite !elem_of_remove_dups. apply Hl.
Qed.

(** Routing is deterministic: the order in which the catalog was written
    does not matter, neither for the selection and the failover order nor
    for the reasons of a refusal. *)
Theorem route_order_independent request entries catalog catalog' policy environment unavailable
    preference :
  ModelCatalog_init entries = inr catalog → catalog ≡ₚ catalog' →
  route request catalog policy environment unavailable preference =
  route request catalog' policy environment unavailable preference.
Proof.
  intros Hinit Hp. unfold ModelCatalog_init in Hinit. py_inv. bool_props.
  unfold route. destruct (negb _); [done|]. cbn [rbind reject_if].
  destruct (mq_requested_model request) as [m|];
    [by rewrite (catalog_get_perm catalog catalog' m)|]. cbn [rbind].
  assert (Hent : catalog_entries catalog ≡ₚ catalog_entries catalog')
    by (unfold catalog_entries; by rewrite !py_sorted_perm).
  set (f := λ e, bool_decide (entry_failures request policy environment unavailable e = [])).
  assert (Hs : py_sorted (route_leb preference) (List.filter f (catalog_entries catalog))
    = py_sorted (route_leb preference) (List.filter f (catalog_entries catalog'))).
  { eapply (StronglySorted_unique_strong (λ a b, route_leb preference a b = true)).
    - intros x y Hx Hy H1 H2. rewrite py_sorted_elem, elem_of_filter_bool in Hx, Hy.
      destruct Hx as [Hx _], Hy as [Hy _]. rewrite <- Hent in Hy.
      unfold catalog_entries in Hx, Hy. rewrite py_sorted_elem in Hx, Hy.
      eapply (same_identity catalog); [done|done|done|by eapply route_leb_antisym].
    - apply py_sorted_sorted; [apply route_leb_total|apply route_leb_trans].
    - apply py_sorted_sorted; [apply route_leb_total|apply route_leb_trans].
    - rewrite !py_sorted_perm. by apply filter_perm. }
  cbv zeta. fold f. rewrite Hs.
  destruct (py_sorted (route_leb preference) (List.filter f (catalog_entries catalog'))); [|done].
  rewrite (sorted_names_perm (catalog_entries catalog ≫= _) (catalog_entries catalog' ≫=
    entry_failures request policy environment unavailable)); [done|].
  intros x. rewrite !list_elem_of_bind. by setoid_rewrite Hent.
Qed.

(** ** Sample data *)

Definition sample_pricing : PricingVersion :=
  mkPricingVersion "p1" (Dt.Aware 0) (DFin 25 (-1)) (DFin 10 0) (DFin 0 0) (DFin 0 0) (DFin 0 0).

Definition sample_entry (model : string) (cost_rank latency_rank : Z) : ModelCatalogEntry :=
  mkEntry (mkModelIdentity "openai" model)
    (mkModelCapabilities 10000 2000 true false true false false) sample_pricing [PRODUCTION]
    {["eu"%string]} false cost_rank latency_rank [].

Definition sample_catalog : ModelCatalog := [sample_entry "m" 2 1; sample_entry "n" 1 2].

Definition routed_policy : TenantPolicy :=
  {| tp_tenant_id := mkTenantId "acme"; tp_version := "v1"; allowed_models := {["m"; "openai/n"]};
     allowed_tools := ∅; allowed_connectors := ∅; allowed_environments := {["production"]};
     max_risk := HIGH; approval_from_risk := HIGH; tools_requiring_approval := ∅;
     approver_roles := [TENANT_ADMIN]; quotas := sample_quotas;
     allowed_providers := {["openai"]}; allowed_data_residencies := {["eu"]};
     allow_provider_retention := false |}.

Definition sample_model_request : ModelRequest :=
  {| mq_request_id := 11; mq_tenant_id := "acme"; mq_run_id := 100;
     mq_messages := [mkModelMessage MR_USER [TextPart "hello"] None];
     mq_max_output_tokens := 200; mq_prompt_token_estimate := 100;
     mq_requested_model := None; mq_tools := []; mq_response_schema := None;
     mq_temperature := DFin 0 0; mq_timeout_seconds := sf_of_Z 30;
     mq_idempotency_key := "call-1" |}.

(** The cheaper of two admitted models is selected, the other is the failover;
    with both unavailable, that is the reason given. *)
Lemma route_selects_best_witness :
  (∃ d, route sample_model_request sample_catalog routed_policy PRODUCTION [] RP_COST = inr d ∧
    map (λ e, mi_model (ce_identity e)) (rd_candidates d) = ["n"; "m"]%string ∧
    usable sample_model_request sample_catalog routed_policy PRODUCTION [] (rd_selected d)) ∧
  ∀ e, e ∈ sample_catalog →
    rejected_for sample_model_request routed_policy PRODUCTION (map ce_identity sample_catalog) e
      "provider_unavailable".
Proof.
  split.
  - pose proof (route_selects_best sample_model_request sample_catalog sample_catalog
      routed_policy PRODUCTION [] RP_COST eq_refl) as H.
    destruct (route sample_model_request sample_catalog routed_policy PRODUCTION [] RP_COST)
      as [e|d] eqn:Hr; [vm_compute in Hr; discriminate Hr|].
    exists d. split; [done|]. destruct H as (_ & Hhead & Hcand & _). split.
    + vm_compute in Hr. injection Hr as <-. reflexivity.
    + apply Hcand. by apply head_Some_elem_of.
  - intros e He. apply for_unavailable. by apply list_elem_of_fmap_2.
Defined.

Lemma route_order_independent_witness :
  route sample_model_request sample_catalog routed_policy PRODUCTION [] RP_COST =
  route sample_model_request (rev sample_catalog) routed_policy PRODUCTION [] RP_COST.
Proof.
  apply (route_order_independent sample_model_request sample_catalog sample_catalog
    (rev sample_catalog) routed_policy PRODUCTION [] RP_COST eq_refl).
  apply Permutation_rev.
Defined.
