(* ===== verification/GatewayRepository.v ===== *)
(** * The gateway's budget ledger

    Models [InMemoryGatewayRepository] of [gateway/repository.py] with its
    helpers: reservations against run and tenant quotas, fenced by the work
    lease; attempts; settlement by charge or release; the digests and the
    event stream every operation appends.  An exception keeps the state the
    code had reached, as in the source. *)

From stdpp Require Import base gmap sets list strings pretty.
From Stdlib Require Import ZArith Lia.
From S2P Require Import Prelude PyLib Json Events Identity Work Database EventStore Wire Amounts.
From S2P Require Import Policy ModelContracts Routing Sha256.

Local Open Scope Z_scope.

(** ** Data *)

Record BudgetReservation : Type := mkReservation {
  br_reservation_id : uuid;
  br_tenant_id : string;
  br_run_id : uuid;
  br_request_id : uuid;
  br_token_limit : Z;
  br_cost_limit_usd : decimal;
  br_price_version : string;
  br_active : bool;
  br_status : ReservationStatus;
  br_charged_tokens : Z;
  br_charged_cost_usd : decimal;
  br_created_at : option Dt.datetime;
  br_expires_at : option Dt.datetime;
  br_reconciled_at : option Dt.datetime;
}.

(** The repository object; UUIDs come from an oracle. *)
Record GatewayState : Type := mkGatewayState {
  gs_active_leases : gmap (string * uuid) WorkLease;
  gs_events : list EventEnvelope;
  gs_reservations : list (uuid * BudgetReservation);
  gs_inflight : gmap (string * string) (uuid * string);
  gs_completed : gmap (string * string) (string * ModelResponse);
  gs_uuids : nat → uuid;
  gs_draw : nat;
}.

Definition Gw (A : Type) : Type := M exn GatewayState A.

Definition set_events (f : list EventEnvelope → list EventEnvelope) (s : GatewayState) :=
  mkGatewayState (gs_active_leases s) (f (gs_events s)) (gs_reservations s) (gs_inflight s)
    (gs_completed s) (gs_uuids s) (gs_draw s).
Definition set_reservations (f : list (uuid * BudgetReservation) → list (uuid * BudgetReservation))
    (s : GatewayState) :=
  mkGatewayState (gs_active_leases s) (gs_events s) (f (gs_reservations s)) (gs_inflight s)
    (gs_completed s) (gs_uuids s) (gs_draw s).
Definition set_inflight f (s : GatewayState) :=
  mkGatewayState (gs_active_leases s) (gs_events s) (gs_reservations s) (f (gs_inflight s))
    (gs_completed s) (gs_uuids s) (gs_draw s).
Definition set_completed f (s : GatewayState) :=
  mkGatewayState (gs_active_leases s) (gs_events s) (gs_reservations s) (gs_inflight s)
    (f (gs_completed s)) (gs_uuids s) (gs_draw s).

Definition gw_uuid : Gw uuid := λ s,
  (inr (gs_uuids s (gs_draw s)),
   mkGatewayState (gs_active_leases s) (gs_events s) (gs_reservations s) (gs_inflight s)
     (gs_completed s) (gs_uuids s) (S (gs_draw s))).

(** A dictionary by UUID in insertion order. *)
Definition find_reservation (id : uuid) (l : list (uuid * BudgetReservation))
    : option BudgetReservation :=
  snd <$> find (λ kv, bool_decide (kv.1 = id)) l.

Fixpoint put_reservation (id : uuid) (r : BudgetReservation)
    (l : list (uuid * BudgetReservation)) : list (uuid * BudgetReservation) :=
  match l with
  | [] => [(id, r)]
  | (k, v) :: l => if bool_decide (k = id) then (k, r) :: l else (k, v) :: put_reservation id r l
  end.

(** [InMemoryGatewayRepository.__init__] *)
Definition gateway_init (active_leases : list WorkLease) (uuids : nat → uuid) : GatewayState :=
  mkGatewayState
    (foldl (λ m l, <[(wl_tenant_id l, wl_work_id l) := l]> m) ∅ active_leases)
    [] [] ∅ ∅ uuids 0.

Definition replace_lease (lease : WorkLease) (s : GatewayState) : GatewayState :=
  mkGatewayState (<[(wl_tenant_id lease, wl_work_id lease) := lease]> (gs_active_leases s))
    (gs_events s) (gs_reservations s) (gs_inflight s) (gs_completed s) (gs_uuids s) (gs_draw s).

(** ** Helpers *)

Definition estimate_cost (pricing : PricingVersion) (prompt_tokens max_output_tokens : Z)
    : result decimal :=
  let? highest_rate := dec_max (input_per_million_usd pricing)
    [output_per_million_usd pricing; cache_read_per_million_usd pricing;
     cache_write_per_million_usd pricing; reasoning_per_million_usd pricing] in
  let? total := dec_mul (dec_of_int (prompt_tokens + max_output_tokens)) highest_rate in
  dec_div_int total million.

Definition _validate_model_context (context : TenantContext) (request : ModelRequest)
    (lease : WorkLease) : result unit :=
  let tenant := ctx_str context in
  raise! ValueError "gateway tenant context, request, and lease must match"
    when! negb (bool_decide (tenant = mq_tenant_id request))
          || negb (bool_decide (tenant = wl_tenant_id lease)) ;;
  reject_if (negb (bool_decide (mq_run_id request = wl_work_id lease)))
    (ValueError "model run must be the fenced work aggregate").

Definition opt_str (o : option string) : pyval :=
  match o with Some s => PStr s | None => PNone end.

Definition _content_part_payload (part : ContentPart) : pyval :=
  PDict (dict_of match part with
    | TextPart text => [("kind", PStr (sc_value CK_TEXT)); ("text", PStr text)]
    | ImagePart media uri =>
        [("kind", PStr (sc_value CK_IMAGE)); ("media_type", PStr media); ("uri", PStr uri)]
    | ToolCallPart p =>
        [("kind", PStr (sc_value CK_TOOL_CALL)); ("call_id", PStr (tc_call_id p));
         ("tool_name", PStr (tc_tool_name p));
         ("arguments", thaw_json (PProxy (tc_arguments p)))]
    | ToolResultPart id content is_error =>
        [("kind", PStr (sc_value CK_TOOL_RESULT)); ("call_id", PStr id);
         ("content", thaw_json content); ("is_error", PBool is_error)]
    end%string).

Definition _message_payload (m : ModelMessage) : pyval :=
  PDict (dict_of [("role", PStr (sc_value (mm_role m))); ("name", opt_str (mm_name m));
                  ("content", PList (map _content_part_payload (mm_content m)))]%string).

Definition _model_identity_payload (m : ModelIdentity) : pyval :=
  PDict (dict_of [("provider", PStr (mi_provider m)); ("model", PStr (mi_model m))]%string).

Definition schema_payload (s : JsonSchema) : list (string * pyval) :=
  [("strict", PBool (js_strict s)); ("schema", thaw_json (PProxy (js_schema s)))]%string.

Definition digest_payload (r : ModelRequest) : pyval :=
  PDict (dict_of
    [("messages", PList (map _message_payload (mq_messages r)));
     ("requested_model", match mq_requested_model r with
                         | None => PNone
                         | Some m => _model_identity_payload m
                         end);
     ("max_output_tokens", PInt (mq_max_output_tokens r));
     ("prompt_token_estimate", PInt (mq_prompt_token_estimate r));
     ("temperature", PStr (dec_str (mq_temperature r)));
     ("tools", PList (map (λ t, PDict (dict_of
        (("name", PStr (td_name t)) :: ("description", PStr (td_description t))
         :: schema_payload (td_input_schema t)))) (mq_tools r)));
     ("response_schema", match mq_response_schema r with
                         | None => PNone
                         | Some s => PDict (dict_of (("name", PStr (js_name s))
                                                     :: schema_payload s))
                         end)]%string).

Definition request_content_digest `{PyRepr} (r : ModelRequest) : string :=
  sha256_hex (json_dumps (digest_payload r)).

(** [at.astimezone(UTC).replace(day=1, hour=0, minute=0, second=0, microsecond=0)] *)
Definition _billing_period_start (at_ : Dt.datetime) : Dt.datetime :=
  let '(y, m, _) := Dt.civil_from_days (Dt.us at_ / Dt.day) in
  Dt.Aware (Dt.days_from_civil y m 1 * Dt.day).

Definition _failure_event_type (e : gateway_error) : DomainEventType :=
  match ge_error_class e with
  | MODEL_TIMEOUT => MODEL_CALL_TIMED_OUT
  | RATE_LIMIT => MODEL_CALL_RATE_LIMITED
  | MODEL_CANCELLED => MODEL_CALL_CANCELLED
  | _ => MODEL_CALL_FAILED
  end.

Definition provider_bug (code : string) : exn :=
  ModelGatewayError (mkGatewayError PROVIDER_BUG code false None true).

Definition _usage_totals (pricing : PricingVersion) (response : ModelResponse)
    : result (Z * decimal) :=
  let? c := cost pricing (ms_usage response) in
  inr (billable_tokens (ms_usage response), c).

Definition _actual_usage (pricing : PricingVersion) (response : ModelResponse)
    (reservation : BudgetReservation) : result (Z * decimal) :=
  let? totals := _usage_totals pricing response in
  let '(actual_tokens, actual_cost) := totals in
  raise! provider_bug "usage_exceeded_token_reservation"
    when! br_token_limit reservation <? actual_tokens ;;
  let? over := dec_gt actual_cost (br_cost_limit_usd reservation) in
  raise! provider_bug "usage_exceeded_cost_reservation" when! over ;;
  inr (actual_tokens, actual_cost).

Definition _usage_payload (u : TokenUsage) : list (string * pyval) :=
  [("input_tokens", PInt (input_tokens u)); ("output_tokens", PInt (output_tokens u));
   ("cache_read_tokens", PInt (cache_read_tokens u));
   ("cache_write_tokens", PInt (cache_write_tokens u));
   ("reasoning_tokens", PInt (reasoning_tokens u))]%string.

(** ** Guards *)

Definition _require_fence (lease : WorkLease) (at_ : Dt.datetime) : Gw unit :=
  let! leases := gets gs_active_leases in
  match leases !! (wl_tenant_id lease, wl_work_id lease) with
  | None => raise (FencingError (wl_generation lease) 0)
  | Some current =>
      let stale := FencingError (wl_generation lease) (wl_generation current) in
      do! raise_if (negb (bool_decide (wl_token current = wl_token lease))
                    || negb (wl_generation current =? wl_generation lease)) stale ;;
      let! expired := lift (Dt.le (wl_expires_at current) at_) in
      raise_if expired stale
  end.

Definition _require_active (reservation : BudgetReservation) : Gw unit :=
  let! l := gets gs_reservations in
  raise_if (match find_reservation (br_reservation_id reservation) l with
            | Some current => negb (br_active current)
            | None => true
            end) (ValueError "budget reservation is not active").

(** ** Events *)

Definition gateway_event (request : ModelRequest) (lease : WorkLease) (at_ : Dt.datetime)
    (id : uuid) (causation : option uuid) (sequence : Z) (ty : DomainEventType)
    (details : pydict) : EventEnvelope :=
  {| event_id := id; ev_tenant_id := mq_tenant_id request;
     aggregate_id := Uuid.to_str (wl_work_id lease); event_type := event_type_value ty;
     schema_version := 1; occurred_at := at_;
     payload := dict_update details
       [("work_id", PStr (Uuid.to_str (wl_work_id lease)));
        ("run_id", PStr (Uuid.to_str (mq_run_id request)));
        ("lease_token", PStr (Uuid.to_str (wl_token lease)));
        ("lease_generation", PInt (wl_generation lease))]%string;
     correlation_id := Some (mq_run_id request); causation_id := causation;
     aggregate_sequence := sequence; global_position := None; recorded_at := None;
     actor := None; identity_reference := None; policy_reference := None;
     audit_reference := None;
     idempotency_key := Some (mq_idempotency_key request +:+ ":" +:+ event_type_value ty
                              +:+ ":" +:+ pretty sequence)%string;
     trace_context := None; previous_aggregate_sequence := None; metadata := [] |}.

(** The loop of [_append]. *)
Fixpoint append_each (request : ModelRequest) (lease : WorkLease) (at_ : Dt.datetime)
    (sequence : Z) (causation : option uuid) (events : list (DomainEventType * pydict))
    : Gw unit :=
  match events with
  | [] => ret tt
  | (ty, details) :: rest =>
      let! id := gw_uuid in
      let! e := lift (EventEnvelope_post_init
        (gateway_event request lease at_ id causation (sequence + 1) ty details)) in
      do! modify (set_events (λ l, l ++ [e])) ;;
      append_each request lease at_ (sequence + 1) (Some id) rest
  end.

Definition work_events (work : uuid) (l : list EventEnvelope) : list EventEnvelope :=
  List.filter (λ e, bool_decide (aggregate_id e = Uuid.to_str work)) l.

Definition _append (request : ModelRequest) (lease : WorkLease) (at_ : Dt.datetime)
    (events : list (DomainEventType * pydict)) : Gw unit :=
  do! raise_if (Dt.naive at_) (ValueError "event time must be timezone-aware") ;;
  let! l := gets gs_events in
  append_each request lease at_ (Z.of_nat (length (work_events (wl_work_id lease) l))) None
    events.

Definition call_key (request : ModelRequest) : string * string :=
  (mq_tenant_id request, mq_idempotency_key request).

(** ** Budgets *)

(** [item.reconciled_at is not None and item.reconciled_at >= period_start] *)
Fixpoint charged_since (start : Dt.datetime) (tenant : string) (l : list BudgetReservation)
    : result (list BudgetReservation) :=
  match l with
  | [] => inr []
  | r :: l =>
      let? keep :=
        if bool_decide (br_tenant_id r = tenant) && bool_decide (br_status r = RS_CHARGED) then
          match br_reconciled_at r with Some t => Dt.le start t | None => inr false end
        else inr false in
      let? rest := charged_since start tenant l in
      inr (if keep : bool then r :: rest else rest)
  end.

Definition sum_Z (l : list Z) : Z := foldr Z.add 0 l.

Record budgets : Type := mkBudgets {
  bu_tenant_tokens : Z;
  bu_tenant_cost : decimal;
  bu_run_tokens : Z;
  bu_run_cost : decimal;
}.

(** The totals [reserve] computes before it compares them with the quotas. *)
Definition current_budgets (request : ModelRequest) (at_ : Dt.datetime)
    (l : list BudgetReservation) : result budgets :=
  let tenant := mq_tenant_id request in
  let of_run (r : BudgetReservation) := bool_decide (br_run_id r = mq_run_id request) in
  let active := List.filter (λ r, bool_decide (br_tenant_id r = tenant) && br_active r) l in
  let? charged := charged_since (_billing_period_start at_) tenant l in
  let tenant_tokens := sum_Z (map br_token_limit active)
                       + sum_Z (map br_charged_tokens charged) in
  let? active_cost := dec_sum (map br_cost_limit_usd active) in
  let? charged_cost := dec_sum (map br_charged_cost_usd charged) in
  let? tenant_cost := dec_add active_cost charged_cost in
  let run_charged := List.filter (λ r, bool_decide (br_tenant_id r = tenant) && of_run r
                                       && bool_decide (br_status r = RS_CHARGED)) l in
  let run_active := List.filter of_run active in
  let run_tokens := sum_Z (map br_token_limit run_active)
                    + sum_Z (map br_charged_tokens run_charged) in
  let? run_active_cost := dec_sum (map br_cost_limit_usd run_active) in
  let? run_charged_cost := dec_sum (map br_charged_cost_usd run_charged) in
  let? run_cost := dec_add run_active_cost run_charged_cost in
  inr (mkBudgets tenant_tokens tenant_cost run_tokens run_cost).

Definition check_budgets (b : budgets) (quotas : QuotaLimits) (token_limit : Z)
    (cost_limit : decimal) : result unit :=
  raise! BudgetDeniedError "run_token_budget_exceeded"
    when! max_run_tokens quotas <? bu_run_tokens b + token_limit ;;
  let? run := dec_add (bu_run_cost b) cost_limit in
  let? over_run := dec_gt run (max_run_cost_usd quotas) in
  raise! BudgetDeniedError "run_cost_budget_exceeded" when! over_run ;;
  raise! BudgetDeniedError "tenant_token_budget_exceeded"
    when! max_tenant_tokens_per_period quotas <? bu_tenant_tokens b + token_limit ;;
  let? tenant := dec_add (bu_tenant_cost b) cost_limit in
  let? over_tenant := dec_gt tenant (max_tenant_cost_usd_per_period quotas) in
  reject_if over_tenant (BudgetDeniedError "tenant_cost_budget_exceeded").

(** ** Operations *)

Section Repository.
Context `{PyRepr}.

Definition gw_completed (context : TenantContext) (request : ModelRequest) (lease : WorkLease)
    (at_ : Dt.datetime) : Gw (option ModelResponse) :=
  do! lift (_validate_model_context context request lease) ;;
  do! _require_fence lease at_ ;;
  let! completed := gets gs_completed in
  ret (match completed !! (ctx_str context, mq_idempotency_key request) with
       | Some (digest, response) =>
           if bool_decide (digest = request_content_digest request) then Some response else None
       | None => None
       end).

(** The three events of a reservation. *)
Definition reserve_events (request : ModelRequest) (lease : WorkLease) (route : RouteDecision)
    (reservation : BudgetReservation) : list (DomainEventType * pydict) :=
  let base :=
    [("work_id", PStr (Uuid.to_str (wl_work_id lease)));
     ("lease_token", PStr (Uuid.to_str (wl_token lease)));
     ("lease_generation", PInt (wl_generation lease));
     ("request_id", PStr (Uuid.to_str (mq_request_id request)))]%string in
  let selected := ce_identity (rd_selected route) in
  let model := [("provider", PStr (mi_provider selected)); ("model", PStr (mi_model selected))]%string in
  [(MODEL_ROUTE_DECIDED, dict_of (base ++ model ++
      [("candidate_count", PInt (Z.of_nat (length (rd_candidates route))));
       ("rationale", PTuple (map PStr (rd_rationale route)))]%string));
   (MODEL_CALL_REQUESTED, dict_of (base ++ model ++
      [("message_count", PInt (Z.of_nat (length (mq_messages request))));
       ("content_digest", PStr (request_content_digest request));
       ("max_output_tokens", PInt (mq_max_output_tokens request));
       ("prompt_token_estimate", PInt (mq_prompt_token_estimate request));
       ("has_tools", PBool (negb (bool_decide (length (mq_tools request) = 0%nat))));
       ("has_structured_output", PBool (is_some (mq_response_schema request)));
       ("persistence_policy", PStr "metadata_and_digest_only")]%string));
   (MODEL_BUDGET_RESERVED, dict_of (base ++
      [("reservation_id", PStr (Uuid.to_str (br_reservation_id reservation)));
       ("token_limit", PInt (br_token_limit reservation));
       ("cost_limit_usd", PStr (dec_str (br_cost_limit_usd reservation)));
       ("price_version", PStr (br_price_version reservation))]%string))].

Definition reserve (context : TenantContext) (request : ModelRequest) (lease : WorkLease)
    (route : RouteDecision) (quotas : QuotaLimits) (token_limit : Z)
    (cost_limit_usd : decimal) (price_version : string) (at_ : Dt.datetime)
    : Gw BudgetReservation :=
  do! lift (_validate_model_context context request lease) ;;
  let invalid := ValueError "reservation values and price version are required" in
  do! raise_if (token_limit <? 1) invalid ;;
  let! negative := lift (dec_lt cost_limit_usd (DFin 0 0)) in
  do! raise_if (negative || PyStr.is_empty price_version) invalid ;;
  do! _require_fence lease at_ ;;
  let key := call_key request in
  let digest := request_content_digest request in
  let! completed := gets gs_completed in
  do! match completed !! key with
      | Some (d, _) =>
          do! raise_if (negb (bool_decide (d = digest)))
                (ValueError "idempotency key already belongs to another request") ;;
          raise (ValueError "completed duplicate must be read before reservation")
      | None => ret tt
      end ;;
  let! inflight := gets gs_inflight in
  do! raise_if (is_some (inflight !! key))
        (DuplicateCallInProgressError "model call is already in progress") ;;
  let! stored := gets gs_reservations in
  let! totals := lift (current_budgets request at_ (map snd stored)) in
  do! lift (check_budgets totals quotas token_limit cost_limit_usd) ;;
  let! id := gw_uuid in
  let reservation :=
    {| br_reservation_id := id; br_tenant_id := mq_tenant_id request;
       br_run_id := mq_run_id request; br_request_id := mq_request_id request;
       br_token_limit := token_limit; br_cost_limit_usd := cost_limit_usd;
       br_price_version := price_version; br_active := true; br_status := RS_ACTIVE;
       br_charged_tokens := 0; br_charged_cost_usd := DFin 0 0;
       br_created_at := Some at_; br_expires_at := Some (wl_expires_at lease);
       br_reconciled_at := None |} in
  do! modify (set_reservations (put_reservation id reservation)) ;;
  do! modify (set_inflight <[key := (id, digest)]>) ;;
  do! _append request lease at_ (reserve_events request lease route reservation) ;;
  ret reservation.

Definition record_attempt (context : TenantContext) (request : ModelRequest)
    (lease : WorkLease) (reservation : BudgetReservation) (provider model : string)
    (attempt fallback_index : Z) (at_ : Dt.datetime) : Gw unit :=
  do! lift (_validate_model_context context request lease) ;;
  do! raise_if ((attempt <? 1) || (fallback_index <? 0))
        (ValueError "attempt and fallback index are invalid") ;;
  do! _require_active reservation ;;
  do! _require_fence lease at_ ;;
  let event_type := if (attempt =? 1) && (fallback_index =? 0)
                    then MODEL_CALL_STARTED else MODEL_CALL_ATTEMPTED in
  let fallback := if (0 <? fallback_index) && (attempt =? 1) then
      [(MODEL_FALLBACK_SELECTED, dict_of
          [("provider", PStr provider); ("model", PStr model);
           ("fallback_index", PInt fallback_index)]%string)]
    else [] in
  _append request lease at_ (fallback ++
    [(event_type, dict_of
        [("provider", PStr provider); ("model", PStr model); ("attempt", PInt attempt);
         ("fallback_index", PInt fallback_index);
         ("reservation_id", PStr (Uuid.to_str (br_reservation_id reservation)))]%string)]).

(** [BudgetReservation(...)] with its outcome *)
Definition settled (r : BudgetReservation) (status : ReservationStatus) (tokens : Z)
    (charged : decimal) (at_ : Dt.datetime) : BudgetReservation :=
  {| br_reservation_id := br_reservation_id r; br_tenant_id := br_tenant_id r;
     br_run_id := br_run_id r; br_request_id := br_request_id r;
     br_token_limit := br_token_limit r; br_cost_limit_usd := br_cost_limit_usd r;
     br_price_version := br_price_version r; br_active := false; br_status := status;
     br_charged_tokens := tokens; br_charged_cost_usd := charged;
     br_created_at := br_created_at r; br_expires_at := br_expires_at r;
     br_reconciled_at := Some at_ |}.

Definition response_details (request : ModelRequest) (reservation : BudgetReservation)
    (response : ModelResponse) (pricing : PricingVersion) : list (string * pyval) :=
  [("reservation_id", PStr (Uuid.to_str (br_reservation_id reservation)));
   ("request_id", PStr (Uuid.to_str (mq_request_id request)));
   ("provider", PStr (mi_provider (ms_model response)));
   ("model", PStr (mi_model (ms_model response)));
   ("price_version", PStr (pv_version pricing))]%string.

Definition error_details (e : gateway_error) : list (string * pyval) :=
  [("error_class", PStr (sc_value (ge_error_class e))); ("error_code", PStr (ge_code e));
   ("retryable", PBool (ge_retryable e));
   ("billing_ambiguous", PBool (ge_billing_ambiguous e))]%string.

Definition usage_events (details : list (string * pyval)) (usage : TokenUsage) (tokens : Z)
    (charged : decimal) : list (DomainEventType * pydict) :=
  [(MODEL_USAGE_RECORDED, dict_of (details ++ _usage_payload usage ++
      [("cost_usd", PStr (dec_str charged))]%string));
   (MODEL_BUDGET_CHARGED, dict_of (details ++
      [("tokens", PInt tokens); ("cost_usd", PStr (dec_str charged))]%string))].

Definition gw_succeed (context : TenantContext) (request : ModelRequest) (lease : WorkLease)
    (reservation : BudgetReservation) (response : ModelResponse) (pricing : PricingVersion)
    (at_ : Dt.datetime) : Gw unit :=
  do! lift (_validate_model_context context request lease) ;;
  let! actual := lift (_actual_usage pricing response reservation) in
  let '(tokens, charged) := actual in
  do! _require_active reservation ;;
  do! _require_fence lease at_ ;;
  do! modify (set_reservations (put_reservation (br_reservation_id reservation)
        (settled reservation RS_CHARGED tokens charged at_))) ;;
  do! modify (set_completed <[call_key request := (request_content_digest request, response)]>) ;;
  do! modify (set_inflight (delete (call_key request))) ;;
  let details := response_details request reservation response pricing in
  let! released := lift (dec_sub (br_cost_limit_usd reservation) charged) in
  _append request lease at_
    ((MODEL_CALL_SUCCEEDED, dict_of (details ++
        [("finish_reason", PStr (sc_value (ms_finish_reason response)));
         ("safety_outcome", PStr (sc_value (sr_outcome (ms_safety response))));
         ("latency_ms", PInt (ms_latency_ms response));
         ("provider_request_id", opt_str (ms_provider_request_id response))]%string))
     :: usage_events details (ms_usage response) tokens charged ++
     [(MODEL_BUDGET_RELEASED, dict_of (details ++
        [("tokens_released", PInt (br_token_limit reservation - tokens));
         ("cost_released_usd", PStr (dec_str released))]%string))]).

Definition record_usage_failure (context : TenantContext) (request : ModelRequest)
    (lease : WorkLease) (reservation : BudgetReservation) (response : ModelResponse)
    (pricing : PricingVersion) (error : gateway_error) (at_ : Dt.datetime) : Gw unit :=
  do! lift (_validate_model_context context request lease) ;;
  let! actual := lift (_usage_totals pricing response) in
  let '(tokens, charged) := actual in
  do! _require_active reservation ;;
  do! _require_fence lease at_ ;;
  do! modify (set_reservations (put_reservation (br_reservation_id reservation)
        (settled reservation RS_CHARGED tokens charged at_))) ;;
  do! modify (set_inflight (delete (call_key request))) ;;
  let details := response_details request reservation response pricing in
  let! unspent := lift (dec_sub (br_cost_limit_usd reservation) charged) in
  let! released := lift (dec_max unspent [DFin 0 0]) in
  _append request lease at_
    ((_failure_event_type error, dict_of (details ++ error_details error))
     :: usage_events details (ms_usage response) tokens charged ++
     [(MODEL_BUDGET_RELEASED, dict_of (details ++
        [("tokens_released", PInt (Z.max (br_token_limit reservation - tokens) 0));
         ("cost_released_usd", PStr (dec_str released));
         ("reason", PStr "validation_failed_after_provider_response")]%string))]).

Definition record_attempt_failure (context : TenantContext) (request : ModelRequest)
    (lease : WorkLease) (reservation : BudgetReservation) (error : gateway_error)
    (provider model : string) (attempt fallback_index : Z) (at_ : Dt.datetime) : Gw unit :=
  do! lift (_validate_model_context context request lease) ;;
  do! _require_active reservation ;;
  do! _require_fence lease at_ ;;
  _append request lease at_
    [(_failure_event_type error, dict_of
        ([("reservation_id", PStr (Uuid.to_str (br_reservation_id reservation)));
          ("request_id", PStr (Uuid.to_str (mq_request_id request)));
          ("provider", PStr provider); ("model", PStr model); ("attempt", PInt attempt);
          ("fallback_index", PInt fallback_index)]%string ++ error_details error))].

Definition gw_fail (context : TenantContext) (request : ModelRequest) (lease : WorkLease)
    (reservation : BudgetReservation) (error : gateway_error) (at_ : Dt.datetime) : Gw unit :=
  do! lift (_validate_model_context context request lease) ;;
  do! _require_active reservation ;;
  do! _require_fence lease at_ ;;
  do! modify (set_reservations (put_reservation (br_reservation_id reservation)
        (settled reservation RS_RELEASED 0 (DFin 0 0) at_))) ;;
  do! modify (set_inflight (delete (call_key request))) ;;
  let details :=
    ([("reservation_id", PStr (Uuid.to_str (br_reservation_id reservation)));
      ("request_id", PStr (Uuid.to_str (mq_request_id request)))]%string
     ++ error_details error) in
  _append request lease at_
    [(_failure_event_type error, dict_of details);
     (MODEL_BUDGET_RELEASED, dict_of (details ++
        [("tokens_released", PInt (br_token_limit reservation));
         ("cost_released_usd", PStr (dec_str (br_cost_limit_usd reservation)));
         ("reason", PStr "model_call_failed")]%string))].

Definition usage_summary (context : TenantContext) : Gw pydict :=
  let! stored := gets gs_reservations in
  let charged := List.filter (λ r, bool_decide (br_tenant_id r = ctx_str context)
                                   && bool_decide (br_status r = RS_CHARGED)) (map snd stored) in
  let! total := lift (dec_sum (map br_charged_cost_usd charged)) in
  ret (dict_of [("tokens", PInt (sum_Z (map br_charged_tokens charged)));
                ("cost_usd", PStr (dec_str total));
                ("calls", PInt (Z.of_nat (length charged)))]%string).
End Repository.
