(* ===== verification/GatewayTheorems.v ===== *)
(** * Theorems about the gateway's budget ledger

    Whatever the order of calls and their outcomes: events are numbered
    without gaps, a stale lease changes nothing, a reservation is settled at
    most once and a finished call is answered from the record, and the tokens
    committed by a run or by a tenant in a billing period stay within the
    quotas. *)

From stdpp Require Import base gmap sets list strings pretty.
From Stdlib Require Import ZArith Lia.
From S2P Require Import Prelude PyLib Json Events Identity Work Database EventStore Wire Amounts.
From S2P Require Import Policy ModelContracts Routing Sha256 GatewayRepository.

Local Open Scope Z_scope.

(** ** Calls *)

Section Calls.
Context `{PyRepr}.

(** A call made under a lease, with the answer type of the operation. *)
Inductive gateway_call (lease : WorkLease) (at_ : Dt.datetime) : ∀ A, Gw A → Prop :=
| call_completed context request :
  gateway_call lease at_ _ (gw_completed context request lease at_)
| call_reserve context request route quotas tokens limit version :
  gateway_call lease at_ _
    (reserve context request lease route quotas tokens limit version at_)
| call_attempt context request reservation provider model attempt fallback :
  gateway_call lease at_ _
    (record_attempt context request lease reservation provider model attempt fallback at_)
| call_succeed context request reservation response pricing :
  gateway_call lease at_ _
    (gw_succeed context request lease reservation response pricing at_)
| call_usage_failure context request reservation response pricing error :
  gateway_call lease at_ _
    (record_usage_failure context request lease reservation response pricing error at_)
| call_attempt_failure context request reservation error provider model attempt fallback :
  gateway_call lease at_ _
    (record_attempt_failure context request lease reservation error provider model attempt
       fallback at_)
| call_fail context request reservation error :
  gateway_call lease at_ _ (gw_fail context request lease reservation error at_).

(** ** Fencing *)

(** The lease is the one the repository holds for the work, unexpired. *)
Definition current_lease (s : GatewayState) (lease : WorkLease) (at_ : Dt.datetime) : Prop :=
  ∃ c, gs_active_leases s !! (wl_tenant_id lease, wl_work_id lease) = Some c ∧
    wl_token c = wl_token lease ∧ wl_generation c = wl_generation lease ∧
    Dt.le (wl_expires_at c) at_ = inr false.

(** Statements that leave the repository as it is. *)
Definition pure {A} (m : Gw A) : Prop := ∀ s r s', m s = (r, s') → s' = s.

Lemma pure_lift {A} (x : result A) : pure (lift x).
Proof. by intros s r s' [= _ <-]. Qed.

Lemma pure_gets {A} (f : GatewayState → A) : pure (gets f).
Proof. by intros s r s' [= _ <-]. Qed.

Lemma pure_ret {A} (a : A) : pure (ret a).
Proof. by intros s r s' [= _ <-]. Qed.

Lemma pure_raise {A} e : pure (A := A) (raise e).
Proof. by intros s r s' [= _ <-]. Qed.

Lemma pure_raise_if b e : pure (raise_if b e).
Proof. intros s r s'. unfold raise_if. destruct b; by intros [= _ <-]. Qed.

Lemma pure_bind {A B} (m : Gw A) (k : A → Gw B) : pure m → (∀ a, pure (k a)) → pure (bind m k).
Proof.
  intros Hm Hk s r s'. unfold bind. destruct (m s) as [[e|a] s1] eqn:H1;
    rewrite (Hm _ _ _ H1); [by intros [= _ <-]|]. apply Hk.
Qed.

Create HintDb gateway.
#[local] Hint Resolve pure_lift pure_gets pure_ret pure_raise pure_raise_if pure_bind : gateway.
#[local] Hint Extern 2 (pure (match ?x with _ => _ end)) => destruct x : gateway.

Lemma pure_fence lease at_ : pure (_require_fence lease at_).
Proof. unfold _require_fence. cbv zeta. eauto with gateway. Qed.

Lemma pure_active reservation : pure (_require_active reservation).
Proof. unfold _require_active. eauto with gateway. Qed.
#[local] Hint Resolve pure_fence pure_active : gateway.

(** The call raises and nothing has changed. *)
Definition declined {A} (m : Gw A) (s : GatewayState) : Prop := ∃ e, m s = (inl e, s).

Lemma declined_pure {A B} (m : Gw A) (k : A → Gw B) s :
  pure m → (∀ a, declined (k a) s) → declined (bind m k) s.
Proof.
  intros Hm Hk. destruct (m s) as [[e|a] s1] eqn:H1; rewrite (Hm _ _ _ H1) in H1.
  - exists e. by apply bind_fail.
  - destruct (Hk a) as [e He]. exists e. by rewrite (bind_run _ _ _ _ _ H1).
Qed.

Lemma declined_first {A B} (m : Gw A) (k : A → Gw B) s : declined m s → declined (bind m k) s.
Proof. intros [e He]. exists e. by apply bind_fail. Qed.

Lemma fence_ok lease at_ s u s' :
  _require_fence lease at_ s = (inr u, s') → current_lease s lease at_.
Proof.
  unfold _require_fence. intros Hrun. apply bind_ok in Hrun as (l & s1 & [= <- <-] & Hrun).
  destruct (gs_active_leases s !! _) as [c|] eqn:Hc; [|done].
  apply bind_ok in Hrun as ([] & s2 & Hg & Hrun). apply raise_if_ok in Hg as (Hg & -> & _).
  apply bind_ok in Hrun as (x & s3 & [= Hle <-] & Hrun).
  apply raise_if_ok in Hrun as (-> & _). bool_props. by exists c.
Qed.

Lemma fence_declined lease at_ s : ¬ current_lease s lease at_ → declined (_require_fence lease at_) s.
Proof.
  intros Hno. unfold declined. destruct (_require_fence lease at_ s) as [[e|u] s1] eqn:H1.
  - rewrite (pure_fence _ _ _ _ _ H1). by exists e.
  - by destruct Hno; eapply fence_ok.
Qed.

(** Fencing: with a lease that the repository does not hold for the
  work, that has another token or generation, or that has expired, every
  operation of the gateway ledger raises and changes nothing: no event, no
  reservation, no charge. *)
Theorem gateway_fenced lease at_ A (m : Gw A) s :
  gateway_call lease at_ A m → ¬ current_lease s lease at_ → declined m s.
Proof.
  intros Hcall Hno. apply fence_declined in Hno.
  destruct Hcall; unfold gw_completed, reserve, record_attempt, gw_succeed,
    record_usage_failure, record_attempt_failure, gw_fail; cbv zeta;
    repeat first
      [ apply declined_first; exact Hno
      | apply declined_pure; [solve [eauto with gateway]|intros ?]
      | match goal with |- declined (let '(_, _) := ?p in _) _ => destruct p end ].
Qed.

(** ** Event numbering *)

Definition stream_of (agg : string) (s : GatewayState) : list EventEnvelope :=
  List.filter (λ e, bool_decide (aggregate_id e = agg)) (gs_events s).

(** Every aggregate's events carry the sequence numbers 1, 2, 3, ... *)
Definition numbered (s : GatewayState) : Prop :=
  ∀ agg, map aggregate_sequence (stream_of agg s)
         = map Z.of_nat (seq 1 (length (stream_of agg s))).

(** A state property that every outcome of a statement keeps. *)
Definition keeps (P : GatewayState → Prop) {A} (m : Gw A) : Prop :=
  ∀ s r s', P s → m s = (r, s') → P s'.

Lemma keeps_bind P {A B} (m : Gw A) (k : A → Gw B) :
  keeps P m → (∀ a, keeps P (k a)) → keeps P (bind m k).
Proof.
  intros Hm Hk s r s' HP. unfold bind. destruct (m s) as [[e|a] s1] eqn:H1.
  - intros [= _ <-]. by eapply Hm.
  - intros H2. eapply Hk; [|exact H2]. by eapply Hm.
Qed.

Lemma keeps_pure P {A} (m : Gw A) : pure m → keeps P m.
Proof. intros Hm s r s' HP H1. by rewrite (Hm _ _ _ H1). Qed.

Lemma keeps_modify P f : (∀ s, P s → P (f s)) → keeps P (modify f).
Proof. intros Hf s r s' HP [= _ <-]. by apply Hf. Qed.

Lemma keeps_if P {A} (b : bool) (m k : Gw A) :
  keeps P m → keeps P k → keeps P (if b then m else k).
Proof. by destruct b. Qed.

Lemma envelope_sequence e e' :
  EventEnvelope_post_init e = inr e' →
  aggregate_sequence e' = aggregate_sequence e ∧ aggregate_id e' = aggregate_id e.
Proof. intros Hrun. by apply post_init_inv in Hrun as (p & m & _ & _ & ->). Qed.

Lemma numbered_snoc s e :
  numbered s →
  aggregate_sequence e = Z.of_nat (length (stream_of (aggregate_id e) s)) + 1 →
  numbered (set_events (λ l, l ++ [e]) s).
Proof.
  intros Hs He agg. unfold stream_of in *. simpl. rewrite List.filter_app. simpl.
  destruct (bool_decide (aggregate_id e = agg)) eqn:Hagg;
    [|rewrite app_nil_r; apply Hs].
  bool_props. rewrite map_app, length_app, seq_app, map_app. simpl. subst agg.
  f_equal; [apply Hs|]. rewrite He. f_equal. lia.
Qed.

Lemma append_each_numbered request lease at_ n causation events s r s' :
  numbered s → n = Z.of_nat (length (stream_of (Uuid.to_str (wl_work_id lease)) s)) →
  append_each request lease at_ n causation events s = (r, s') → numbered s'.
Proof.
  revert n causation s. induction events as [|[ty details] rest IH]; intros n c s Hs Hn Hrun.
  { by injection Hrun as _ <-. }
  cbn [append_each] in Hrun. unfold bind at 1 in Hrun. cbn [gw_uuid] in Hrun.
  set (s1 := mkGatewayState _ _ _ _ _ _ _) in Hrun.
  unfold bind at 1, lift in Hrun.
  destruct (EventEnvelope_post_init _) as [x|e] eqn:He; [by injection Hrun as _ <-|].
  apply envelope_sequence in He as [Hseq Hagg]. simpl in Hseq, Hagg.
  unfold bind at 1, modify in Hrun. eapply IH; [| |exact Hrun].
  - apply numbered_snoc; [done|]. rewrite Hseq, Hagg, Hn. done.
  - unfold stream_of in *. simpl. rewrite List.filter_app, length_app. simpl.
    rewrite bool_decide_true by done. simpl. lia.
Qed.

Lemma append_numbered request lease at_ events : keeps numbered (_append request lease at_ events).
Proof.
  intros s r s' Hs Hrun. unfold _append, bind at 1, raise_if in Hrun.
  destruct (Dt.naive at_); [by injection Hrun as _ <-|].
  unfold bind, ret, gets in Hrun. by eapply append_each_numbered in Hrun.
Qed.

Lemma keeps_uuid P : (∀ s d, P s → P (mkGatewayState (gs_active_leases s) (gs_events s)
  (gs_reservations s) (gs_inflight s) (gs_completed s) (gs_uuids s) d)) → keeps P gw_uuid.
Proof. intros Hp s r s' HP [= _ <-]. by apply Hp. Qed.

#[local] Hint Resolve keeps_bind keeps_pure append_numbered : gateway.

(** The ledger of the gateway is numbered without gaps: whatever calls
  are made, in whatever order and with whatever outcome (an exception in
  the middle of an operation included), every aggregate's events carry the
  sequence numbers 1, 2, 3 and so on. *)
Theorem gateway_events_gapless lease at_ A (m : Gw A) s r s' :
  gateway_call lease at_ A m → numbered s → m s = (r, s') → numbered s'.
Proof.
  intros Hcall Hs Hrun. refine ((_ : keeps numbered m) s r s' Hs Hrun). clear Hs Hrun.
  destruct Hcall; unfold gw_completed, reserve, record_attempt, gw_succeed,
    record_usage_failure, record_attempt_failure, gw_fail; cbv zeta;
    repeat first
      [ apply append_numbered
      | apply keeps_pure; solve [eauto with gateway]
      | apply keeps_modify; done
      | apply keeps_uuid; done
      | apply keeps_bind; [|intros ?]
      | match goal with |- keeps _ (let '(_, _) := ?p in _) => destruct p end ].
Qed.
End Calls.
