(* ===== verification/GatewayBudgets.v ===== *)
(** * Budgets of the gateway

    Reservations only move forward (active, then charged or released, once),
    and the tokens a run or a tenant has committed, reserved or charged, stay
    within the quotas under any sequence of calls. *)

From stdpp Require Import base gmap sets list strings pretty.
From Stdlib Require Import ZArith Lia.
From S2P Require Import Prelude PyLib Json Events Identity Work Database EventStore Wire Amounts.
From S2P Require Import Policy ModelContracts Routing Sha256 GatewayRepository.
From S2P Require Import GatewayTheorems.

Local Open Scope Z_scope.

(** ** The dictionary of reservations *)

Notation book := (list (uuid * BudgetReservation)).

Lemma find_put_eq id r (l : book) : find_reservation id (put_reservation id r l) = Some r.
Proof.
  unfold find_reservation. induction l as [|[k v] l IH]; simpl; [by rewrite bool_decide_true|].
  destruct (bool_decide (k = id)) eqn:Hk; simpl; rewrite Hk; [done|apply IH].
Qed.

Lemma find_put_ne id id' r (l : book) :
  id ≠ id' → find_reservation id' (put_reservation id r l) = find_reservation id' l.
Proof.
  intros Hne. unfold find_reservation. induction l as [|[k v] l IH]; simpl.
  - by rewrite bool_decide_false.
  - destruct (decide (k = id)) as [->|Hk].
    + rewrite (bool_decide_true (id = id)) by done. simpl. by rewrite bool_decide_false by done.
    + rewrite (bool_decide_false (k = id)) by done. simpl.
      destruct (bool_decide (k = id')); [done|apply IH].
Qed.

(** The total of a quantity over all reservations. *)
Definition total (f : BudgetReservation → Z) (l : book) : Z := sum_Z (map (λ kv, f kv.2) l).

Lemma total_put_old f id r old (l : book) :
  find_reservation id l = Some old →
  total f (put_reservation id r l) = total f l - f old + f r.
Proof.
  unfold total, find_reservation. induction l as [|[k v] l IH]; simpl; [done|].
  destruct (bool_decide (k = id)); simpl; [intros [= ->]; lia|].
  intros Hf. specialize (IH Hf). lia.
Qed.

Lemma total_put_new f id r (l : book) :
  find_reservation id l = None → total f (put_reservation id r l) = total f l + f r.
Proof.
  unfold total, find_reservation. induction l as [|[k v] l IH]; simpl; [intros _; lia|].
  destruct (bool_decide (k = id)); simpl; [done|]. intros Hf. specialize (IH Hf). lia.
Qed.

(** ** Well-formed books *)

Record reservation_ok (r : BudgetReservation) : Prop := {
  ro_status : br_active r = true ↔ br_status r = RS_ACTIVE;
  ro_limit : 1 ≤ br_token_limit r;
}.

(** Every reservation is filed under its own id, which was drawn before. *)
Record book_ok (s : GatewayState) : Prop := {
  bk_inj : ∀ m n, gs_uuids s m = gs_uuids s n → m = n;
  bk_drawn : ∀ id r, find_reservation id (gs_reservations s) = Some r →
    br_reservation_id r = id ∧ reservation_ok r ∧ ∃ n, (n < gs_draw s)%nat ∧ id = gs_uuids s n;
  bk_all : Forall (λ kv, reservation_ok kv.2) (gs_reservations s);
}.

Lemma book_fresh s n :
  book_ok s → (gs_draw s ≤ n)%nat → find_reservation (gs_uuids s n) (gs_reservations s) = None.
Proof.
  intros [Hinj Hdrawn _] Hn. destruct (find_reservation _ _) as [r|] eqn:Hf; [|done].
  apply Hdrawn in Hf as (_ & _ & m & Hm & Heq). apply Hinj in Heq. lia.
Qed.

Lemma put_all (P : BudgetReservation → Prop) id r (l : book) :
  Forall (λ kv, P kv.2) l → P r → Forall (λ kv, P kv.2) (put_reservation id r l).
Proof.
  intros Hl Hr. induction Hl as [|[k v] l Hv Hl IH]; simpl; [by repeat constructor|].
  destruct (bool_decide (k = id)); by constructor.
Qed.

(** ** The effect of each operation *)

(** How a call may change the book: not at all, by a new reservation, or by
    settling an active one. *)
Inductive book_change (s : GatewayState) (l' : book) : Prop :=
| change_none : l' = gs_reservations s → book_change s l'
| change_reserved n r :
    (gs_draw s ≤ n)%nat → br_reservation_id r = gs_uuids s n → reservation_ok r →
    br_active r = true →
    l' = put_reservation (gs_uuids s n) r (gs_reservations s) → book_change s l'
| change_settled old status tokens charged at_ :
    find_reservation (br_reservation_id old) (gs_reservations s) = Some old →
    br_active old = true → status ≠ RS_ACTIVE →
    l' = put_reservation (br_reservation_id old) (settled old status tokens charged at_)
           (gs_reservations s) → book_change s l'.

(** The parts of the state a call never touches, or only moves on. *)
Definition same_oracle (s s' : GatewayState) : Prop :=
  gs_uuids s' = gs_uuids s ∧ (gs_draw s ≤ gs_draw s')%nat.

Definition same_book (s s' : GatewayState) : Prop :=
  gs_reservations s' = gs_reservations s ∧ same_oracle s s'.

#[export] Instance same_book_preorder : PreOrder same_book.
Proof.
  split; [by intros s|]. intros s1 s2 s3 (H1 & H2 & H3) (H4 & H5 & H6).
  split; [congruence|]. split; [congruence|lia].
Qed.

Definition bookish {A} (m : Gw A) : Prop := ∀ s r s', m s = (r, s') → same_book s s'.

Lemma bookish_bind {A B} (m : Gw A) (k : A → Gw B) :
  bookish m → (∀ a, bookish (k a)) → bookish (bind m k).
Proof.
  intros Hm Hk s r s'. unfold bind. destruct (m s) as [[e|a] s1] eqn:H1; intros H2.
  - injection H2 as _ <-. by eapply Hm.
  - transitivity s1; [by eapply Hm|by eapply Hk].
Qed.

Lemma bookish_pure {A} (m : Gw A) : pure m → bookish m.
Proof. intros Hm s r s' H1. by rewrite (Hm _ _ _ H1). Qed.

Lemma append_each_bookish request lease at_ n c events :
  bookish (append_each request lease at_ n c events).
Proof.
  revert n c. induction events as [|[ty d] events IH]; intros n c; simpl.
  { by apply bookish_pure, pure_ret. }
  apply bookish_bind.
  { intros s r s' [= _ <-]. split; [done|]. split; [done|]. simpl. lia. }
  intros id. apply bookish_bind; [by apply bookish_pure, pure_lift|]. intros e.
  apply bookish_bind; [by intros s r s' [= _ <-]|]. intros _. apply IH.
Qed.

Lemma append_bookish request lease at_ events : bookish (_append request lease at_ events).
Proof.
  unfold _append. apply bookish_bind; [apply bookish_pure, pure_raise_if|]. intros _.
  apply bookish_bind; [apply bookish_pure, pure_gets|]. intros l. apply append_each_bookish.
Qed.

Lemma pure_then {A B} (m : Gw A) (k : A → Gw B) s r s' :
  pure m → bind m k s = (r, s') →
  s' = s ∨ ∃ a, m s = (inr a, s) ∧ k a s = (r, s').
Proof.
  intros Hm. unfold bind. destruct (m s) as [[e|a] s1] eqn:H1; rewrite (Hm _ _ _ H1).
  - intros [= _ <-]. by left.
  - intros H2. right. by exists a.
Qed.

Ltac pure_solve :=
  first [ apply pure_lift | apply pure_gets | apply pure_raise_if | apply pure_fence
        | apply pure_active ].

(** One state-preserving statement; [idtac] closes the branch where it raised. *)
Tactic Notation "skip" hyp(Hrun) "as" ident(a) ident(Ha) :=
  apply pure_then in Hrun as [->|(a & Ha & Hrun)]; [by left| |pure_solve].

Lemma pure_ok {A B} (m : Gw A) (k : A → Gw B) s b s' :
  pure m → bind m k s = (inr b, s') → ∃ a, m s = (inr a, s) ∧ k a s = (inr b, s').
Proof.
  intros Hm Hrun. apply bind_ok in Hrun as (a & s1 & H1 & H2).
  assert (s1 = s) as -> by (by eapply Hm). by exists a.
Qed.

Tactic Notation "keep" hyp(Hrun) "as" ident(a) ident(Ha) :=
  apply pure_ok in Hrun as (a & Ha & Hrun); [|pure_solve].

(** A reservation as [reserve] makes it. *)
Definition new_reservation (request : ModelRequest) (tokens : Z) (limit : decimal)
    (r : BudgetReservation) : Prop :=
  br_tenant_id r = mq_tenant_id request ∧ br_run_id r = mq_run_id request ∧
  br_token_limit r = tokens ∧ br_cost_limit_usd r = limit ∧ br_active r = true ∧
  br_status r = RS_ACTIVE.

Section Effects.
Context `{PyRepr}.

Lemma reserve_effect context request lease route quotas tokens limit version at_ s r s' :
  reserve context request lease route quotas tokens limit version at_ s = (r, s') →
  same_book s s' ∨
  ∃ totals x, current_budgets request at_ (map snd (gs_reservations s)) = inr totals ∧
    check_budgets totals quotas tokens limit = inr tt ∧ 1 ≤ tokens ∧
    new_reservation request tokens limit x ∧
    br_reservation_id x = gs_uuids s (gs_draw s) ∧
    gs_reservations s' = put_reservation (gs_uuids s (gs_draw s)) x (gs_reservations s) ∧
    gs_uuids s' = gs_uuids s ∧ (gs_draw s < gs_draw s')%nat.
Proof.
  unfold reserve. intros Hrun. skip Hrun as u1 H1. skip Hrun as u2 H2. skip Hrun as neg H3.
  skip Hrun as u4 H4. skip Hrun as u5 H5. skip Hrun as completed H6.
  apply pure_then in Hrun as [->|(u7 & H7 & Hrun)]; [by left| |].
  2: { destruct (completed !! _) as [[d resp]|]; [|apply pure_ret].
       apply pure_bind; [apply pure_raise_if|intros; apply pure_raise]. }
  skip Hrun as inflight H8. skip Hrun as u9 H9. skip Hrun as stored H10.
  skip Hrun as totals H11. skip Hrun as u12 H12.
  apply raise_if_ok in H2 as (H2 & _). bool_props. injection H10 as <-.
  injection H11 as H11. injection H12 as H12. destruct u12. right.
  unfold bind at 1, gw_uuid in Hrun. unfold bind at 1, modify in Hrun.
  unfold bind at 1 in Hrun. simpl in Hrun.
  match type of Hrun with bind ?m ?k ?s2 = _ => assert (Hsb : same_book s2 s') end.
  { refine ((_ : bookish _) _ _ _ Hrun). apply bookish_bind; [apply append_bookish|].
    intros _. apply bookish_pure, pure_ret. }
  destruct Hsb as (Hb & Hu & Hd). simpl in *.
  match type of Hb with _ = put_reservation _ ?x _ => exists totals, x end.
  do 3 (split; [done|]). split; [by repeat split|]. split; [done|].
  split; [exact Hb|]. split; [done|lia].
Qed.

(** A granted reservation passed the budget checks. *)
Lemma reserve_ok context request lease route quotas tokens limit version at_ s r s' :
  reserve context request lease route quotas tokens limit version at_ s = (inr r, s') →
  ∃ totals, current_budgets request at_ (map snd (gs_reservations s)) = inr totals ∧
    check_budgets totals quotas tokens limit = inr tt.
Proof.
  unfold reserve. intros Hrun. keep Hrun as u1 H1. keep Hrun as u2 H2. keep Hrun as neg H3.
  keep Hrun as u4 H4. keep Hrun as u5 H5. keep Hrun as completed H6.
  apply pure_ok in Hrun as (u7 & H7 & Hrun).
  2: { destruct (completed !! _) as [[d resp]|]; [|apply pure_ret].
       apply pure_bind; [apply pure_raise_if|intros; apply pure_raise]. }
  keep Hrun as inflight H8. keep Hrun as u9 H9. keep Hrun as stored H10.
  keep Hrun as totals H11. keep Hrun as u12 H12. injection H10 as <-. injection H11 as H11.
  injection H12 as H12. destruct u12. by exists totals.
Qed.

(** The settling operations. *)
Definition settles (reservation : BudgetReservation) (ok : ReservationStatus → Z → Prop)
    (s s' : GatewayState) : Prop :=
  same_book s s' ∨
  ∃ current status tokens charged at_,
    find_reservation (br_reservation_id reservation) (gs_reservations s) = Some current ∧
    br_active current = true ∧ ok status tokens ∧
    gs_reservations s' = put_reservation (br_reservation_id reservation)
      (settled reservation status tokens charged at_) (gs_reservations s) ∧
    same_oracle s s'.

Lemma require_active_ok reservation s u s' :
  _require_active reservation s = (inr u, s') →
  ∃ current, find_reservation (br_reservation_id reservation) (gs_reservations s) = Some current ∧
    br_active current = true.
Proof.
  unfold _require_active. intros Hrun. apply bind_ok in Hrun as (l & s1 & [= <- <-] & Hrun).
  apply raise_if_ok in Hrun as (Hg & _). destruct (find_reservation _ _) as [c|]; [|done].
  exists c. by bool_props.
Qed.

Lemma actual_usage_ok pricing response reservation tokens charged :
  _actual_usage pricing response reservation = inr (tokens, charged) →
  tokens = billable_tokens (ms_usage response) ∧ tokens ≤ br_token_limit reservation.
Proof.
  unfold _actual_usage, _usage_totals. intros Hrun. py_inv. bool_props. by simplify_eq/=.
Qed.

Lemma succeed_effect context request lease reservation response pricing at_ s r s' :
  gw_succeed context request lease reservation response pricing at_ s = (r, s') →
  settles reservation (λ st t, st = RS_CHARGED ∧ t = billable_tokens (ms_usage response) ∧
                               t ≤ br_token_limit reservation) s s'.
Proof.
  unfold gw_succeed. intros Hrun. skip Hrun as u1 H1. skip Hrun as actual H2.
  destruct actual as [tokens charged]. injection H2 as H2. apply actual_usage_ok in H2.
  skip Hrun as u3 H3. apply require_active_ok in H3 as (c & Hc & Hact).
  skip Hrun as u4 H4. right. exists c, RS_CHARGED, tokens, charged, at_.
  unfold bind at 1, modify in Hrun. unfold bind at 1 in Hrun. unfold bind at 1 in Hrun.
  match type of Hrun with ?m ?s2 = _ => assert (Hsb : same_book s2 s') end.
  { refine ((_ : bookish _) _ _ _ Hrun). apply bookish_bind; [apply bookish_pure, pure_lift|].
    intros. apply append_bookish. }
  destruct Hsb as (Hb & Hu & Hd). do 3 (split; [done|]). split; [exact Hb|]. by split.
Qed.

Lemma usage_failure_effect context request lease reservation response pricing error at_ s r s' :
  record_usage_failure context request lease reservation response pricing error at_ s = (r, s') →
  settles reservation (λ st t, st = RS_CHARGED ∧ t = billable_tokens (ms_usage response)) s s'.
Proof.
  unfold record_usage_failure. intros Hrun. skip Hrun as u1 H1. skip Hrun as actual H2.
  destruct actual as [tokens charged]. injection H2 as H2.
  assert (Ht : tokens = billable_tokens (ms_usage response))
    by (unfold _usage_totals in H2; py_inv; by simplify_eq/=).
  skip Hrun as u3 H3. apply require_active_ok in H3 as (c & Hc & Hact).
  skip Hrun as u4 H4. right. exists c, RS_CHARGED, tokens, charged, at_.
  unfold bind at 1, modify in Hrun. unfold bind at 1 in Hrun.
  match type of Hrun with ?m ?s2 = _ => assert (Hsb : same_book s2 s') end.
  { refine ((_ : bookish _) _ _ _ Hrun). apply bookish_bind; [apply bookish_pure, pure_lift|].
    intros. apply bookish_bind; [apply bookish_pure, pure_lift|]. intros. apply append_bookish. }
  destruct Hsb as (Hb & Hu & Hd). do 3 (split; [done|]). split; [exact Hb|]. by split.
Qed.

Lemma fail_effect context request lease reservation error at_ s r s' :
  gw_fail context request lease reservation error at_ s = (r, s') →
  settles reservation (λ st t, st = RS_RELEASED ∧ t = 0) s s'.
Proof.
  unfold gw_fail. intros Hrun. skip Hrun as u1 H1.
  skip Hrun as u3 H3. apply require_active_ok in H3 as (c & Hc & Hact).
  skip Hrun as u4 H4. right. exists c, RS_RELEASED, 0, (DFin 0 0), at_.
  unfold bind at 1, modify in Hrun. unfold bind at 1 in Hrun.
  match type of Hrun with ?m ?s2 = _ => assert (Hsb : same_book s2 s') end.
  { refine ((_ : bookish _) _ _ _ Hrun). apply append_bookish. }
  destruct Hsb as (Hb & Hu & Hd). do 3 (split; [done|]). split; [exact Hb|]. by split.
Qed.
End Effects.

(** ** Committed tokens *)

(** What a reservation counts against its run: its limit while active, the
    charge afterwards. *)
Definition run_tokens (tenant : string) (run : uuid) (r : BudgetReservation) : Z :=
  if bool_decide (br_tenant_id r = tenant) && bool_decide (br_run_id r = run) then
    if br_active r then br_token_limit r
    else if bool_decide (br_status r = RS_CHARGED) then br_charged_tokens r else 0
  else 0.

Definition charged_after (start : Dt.datetime) (r : BudgetReservation) : bool :=
  bool_decide (br_status r = RS_CHARGED) &&
  match br_reconciled_at r with
  | Some t => match Dt.le start t with inr b => b | inl _ => false end
  | None => false
  end.

(** The same against its tenant, for the period that begins at [start]. *)
Definition tenant_tokens (start : Dt.datetime) (tenant : string) (r : BudgetReservation) : Z :=
  if bool_decide (br_tenant_id r = tenant) then
    if br_active r then br_token_limit r
    else if charged_after start r then br_charged_tokens r else 0
  else 0.

Lemma charged_since_spec start tenant l charged :
  charged_since start tenant l = inr charged →
  charged = List.filter (λ r, bool_decide (br_tenant_id r = tenant) && charged_after start r) l.
Proof.
  revert charged. induction l as [|r l IH]; intros charged Hrun; simpl in Hrun.
  { by injection Hrun as <-. }
  apply rbind_ok in Hrun as (keep & Hk & Hrun). apply rbind_ok in Hrun as (rest & Hr & Hrun).
  injection Hrun as <-. apply IH in Hr as ->. cbn [List.filter].
  assert (keep = bool_decide (br_tenant_id r = tenant) && charged_after start r) as ->; [|done].
  clear IH. revert Hk. unfold charged_after.
  destruct (bool_decide (br_tenant_id r = tenant)), (bool_decide (br_status r = RS_CHARGED));
    simpl; try (by intros [= <-]).
  destruct (br_reconciled_at r) as [t|]; [|by intros [= <-]]. by intros ->.
Qed.

(** Sums over disjoint classes of reservations. *)
Lemma sum_classes {A} (p q : A → bool) (f g : A → Z) l :
  Forall (λ x, p x && q x = false) l →
  sum_Z (map f (List.filter p l)) + sum_Z (map g (List.filter q l))
  = sum_Z (map (λ x, if p x then f x else if q x then g x else 0) l).
Proof.
  induction 1 as [|x l Hx _ IH]; simpl; [done|].
  destruct (p x), (q x); simpl in *; try done; lia.
Qed.

Lemma active_not_charged r : reservation_ok r → br_active r = true → br_status r ≠ RS_CHARGED.
Proof. intros [Hst _] Ha. apply Hst in Ha. congruence. Qed.

Lemma sum_ext {A} (f g : A → Z) l : (∀ x, f x = g x) → sum_Z (map f l) = sum_Z (map g l).
Proof. intros Hfg. unfold sum_Z. induction l; simpl; congruence. Qed.

Lemma current_budgets_spec request at_ l b :
  Forall reservation_ok l → current_budgets request at_ l = inr b →
  bu_run_tokens b = sum_Z (map (run_tokens (mq_tenant_id request) (mq_run_id request)) l) ∧
  bu_tenant_tokens b
  = sum_Z (map (tenant_tokens (_billing_period_start at_) (mq_tenant_id request)) l).
Proof.
  intros Hok Hrun. unfold current_budgets in Hrun. cbv zeta in Hrun.
  apply rbind_ok in Hrun as (charged & Hch & Hrun). apply charged_since_spec in Hch as ->.
  do 6 (apply rbind_ok in Hrun as (? & _ & Hrun)). injection Hrun as <-. simpl.
  rewrite filter_filter_andb. split.
  - rewrite sum_classes.
    + apply sum_ext. intros r. unfold run_tokens.
      destruct (bool_decide (br_tenant_id r = _)), (bool_decide (br_run_id r = _)),
        (br_active r), (bool_decide (br_status r = _)); done.
    + eapply Forall_impl; [exact Hok|]. intros r Hr. simpl.
      destruct (br_active r) eqn:Ha; [|by rewrite andb_false_r].
      rewrite (bool_decide_false (br_status r = RS_CHARGED)) by (by apply active_not_charged).
      by rewrite !andb_false_r.
  - rewrite sum_classes.
    + apply sum_ext. intros r. unfold tenant_tokens.
      destruct (bool_decide (br_tenant_id r = _)), (br_active r), (charged_after _ r); done.
    + eapply Forall_impl; [exact Hok|]. intros r Hr. simpl.
      destruct (br_active r) eqn:Ha; [|by rewrite andb_false_r].
      unfold charged_after.
      rewrite (bool_decide_false (br_status r = RS_CHARGED)) by (by apply active_not_charged).
      by rewrite !andb_false_r.
Qed.

Lemma check_budgets_tokens b quotas tokens limit :
  check_budgets b quotas tokens limit = inr tt →
  bu_run_tokens b + tokens ≤ max_run_tokens quotas ∧
  bu_tenant_tokens b + tokens ≤ max_tenant_tokens_per_period quotas.
Proof. unfold check_budgets. intros Hrun. py_inv. bool_props. lia. Qed.

(** ** Steps *)

Section Steps.
Context `{PyRepr}.
(** The quotas of each tenant's policy, and the billing period. *)
Context (Q : string → QuotaLimits) (start : Dt.datetime).

(** One call in the billing period: callers pass back the reservation they
  were given, and providers bill no more tokens than were reserved. *)
Inductive budget_step : GatewayState → GatewayState → Prop :=
| step_reserve context request lease route tokens limit version at_ s r s' :
  _billing_period_start at_ = start →
  reserve context request lease route (Q (mq_tenant_id request)) tokens limit version at_ s
  = (r, s') → budget_step s s'
| step_succeed context request lease reservation response pricing at_ s r s' :
  find_reservation (br_reservation_id reservation) (gs_reservations s) = Some reservation →
  gw_succeed context request lease reservation response pricing at_ s = (r, s') →
  budget_step s s'
| step_usage_failure context request lease reservation response pricing error at_ s r s' :
  find_reservation (br_reservation_id reservation) (gs_reservations s) = Some reservation →
  billable_tokens (ms_usage response) ≤ br_token_limit reservation →
  record_usage_failure context request lease reservation response pricing error at_ s
  = (r, s') → budget_step s s'
| step_fail context request lease reservation error at_ s r s' :
  find_reservation (br_reservation_id reservation) (gs_reservations s) = Some reservation →
  gw_fail context request lease reservation error at_ s = (r, s') → budget_step s s'
| step_attempt context request lease reservation provider model attempt fallback at_ s r s' :
  record_attempt context request lease reservation provider model attempt fallback at_ s
  = (r, s') → budget_step s s'
| step_attempt_failure context request lease reservation error provider model attempt fallback
  at_ s r s' :
  record_attempt_failure context request lease reservation error provider model attempt
    fallback at_ s = (r, s') → budget_step s s'
| step_completed context request lease at_ s r s' :
  gw_completed context request lease at_ s = (r, s') → budget_step s s'
| step_lease lease s : budget_step s (replace_lease lease s).

(** What a step does to the book. *)
Inductive book_step (s s' : GatewayState) : Prop :=
| book_same : same_book s s' → book_step s s'
| book_reserved request tokens limit at_ totals x :
  _billing_period_start at_ = start →
  current_budgets request at_ (map snd (gs_reservations s)) = inr totals →
  check_budgets totals (Q (mq_tenant_id request)) tokens limit = inr tt → 1 ≤ tokens →
  new_reservation request tokens limit x →
  br_reservation_id x = gs_uuids s (gs_draw s) →
  gs_reservations s' = put_reservation (gs_uuids s (gs_draw s)) x (gs_reservations s) →
  gs_uuids s' = gs_uuids s → (gs_draw s < gs_draw s')%nat → book_step s s'
| book_settled old status tokens charged at_ :
  find_reservation (br_reservation_id old) (gs_reservations s) = Some old →
  br_active old = true →
  (status = RS_CHARGED ∧ tokens ≤ br_token_limit old ∨ status = RS_RELEASED) →
  gs_reservations s' = put_reservation (br_reservation_id old)
    (settled old status tokens charged at_) (gs_reservations s) →
  same_oracle s s' → book_step s s'.

Lemma settles_step reservation ok s s' :
  find_reservation (br_reservation_id reservation) (gs_reservations s) = Some reservation →
  (∀ st t, ok st t → st = RS_CHARGED ∧ t ≤ br_token_limit reservation ∨ st = RS_RELEASED) →
  settles reservation ok s s' → book_step s s'.
Proof.
  intros Hf Hok [Hs|(c & st & t & ch & at_ & Hc & Ha & Hst & Hb & Ho)]; [by apply book_same|].
  rewrite Hf in Hc. injection Hc as <-. eapply book_settled; eauto.
Qed.

Lemma budget_step_book s s' : budget_step s s' → book_step s s'.
Proof.
  destruct 1 as
    [ c q l rt tk lim v a s r s' Hp Hrun | c q l rv rs pr a s r s' Hf Hrun
    | c q l rv rs pr er a s r s' Hf Hle Hrun | c q l rv er a s r s' Hf Hrun
    | c q l rv p m at1 fb a s r s' Hrun | c q l rv er p m at1 fb a s r s' Hrun
    | c q l a s r s' Hrun | l s ].
  - apply reserve_effect in Hrun
      as [Hs|(tot & x & Hcb & Hck & H1 & Hx & Hid & Hb & Hu & Hd)]; [by apply book_same|].
    by eapply book_reserved.
  - eapply settles_step; [done| |by eapply succeed_effect]. simpl. naive_solver.
  - eapply settles_step; [done| |by eapply usage_failure_effect]. simpl. naive_solver.
  - eapply settles_step; [done| |by eapply fail_effect]. simpl. naive_solver.
  - apply book_same. refine ((_ : bookish _) _ _ _ Hrun). unfold record_attempt.
    do 4 (apply bookish_bind; [apply bookish_pure; pure_solve|intros _]). apply append_bookish.
  - apply book_same. refine ((_ : bookish _) _ _ _ Hrun). unfold record_attempt_failure.
    do 3 (apply bookish_bind; [apply bookish_pure; pure_solve|intros _]). apply append_bookish.
  - apply book_same. refine ((_ : bookish _) _ _ _ Hrun). unfold gw_completed.
    do 3 (apply bookish_bind; [apply bookish_pure; pure_solve|intros ?]).
    apply bookish_pure, pure_ret.
  - by apply book_same.
Qed.

Lemma book_step_ok s s' : book_step s s' → book_ok s → book_ok s'.
Proof.
  intros Hstep Hok. pose proof Hok as [Hinj Hdrawn Hall].
  destruct Hstep as
    [ (Hb & Hu & Hd)
    | q tk lim a tot x _ _ _ Htk (Hx1 & Hx2 & Hx3 & Hx4 & Hx5 & Hx6) Hid Hb Hu Hd
    | old st tk ch a Hf Hact Hst Hb (Hu & Hd) ].
  - split; rewrite ?Hu, ?Hb; [done| |done]. intros id r Hr.
    destruct (Hdrawn id r Hr) as (? & ? & n & ? & ?). split; [done|]. split; [done|].
    exists n. split; [lia|done].
  - assert (Hro : reservation_ok x) by (split; [by rewrite Hx5, Hx6|lia]).
    split; rewrite ?Hu, ?Hb; [done| |by apply put_all]. intros id r Hr.
    destruct (decide (gs_uuids s (gs_draw s) = id)) as [<-|Hne].
    + rewrite find_put_eq in Hr. injection Hr as <-. split; [done|]. split; [done|].
      exists (gs_draw s). split; [lia|done].
    + rewrite find_put_ne in Hr by done. destruct (Hdrawn id r Hr) as (? & ? & n & ? & ?).
      split; [done|]. split; [done|]. exists n. split; [lia|done].
  - destruct (Hdrawn _ _ Hf) as (_ & [Hrs Hrl] & n & Hn & Hidn).
    assert (Hro : reservation_ok (settled old st tk ch a)).
    { split; simpl; [|done]. split; [done|]. intros ->. naive_solver. }
    split; rewrite ?Hu, ?Hb; [done| |by apply put_all]. intros id r Hr.
    destruct (decide (br_reservation_id old = id)) as [<-|Hne].
    + rewrite find_put_eq in Hr. injection Hr as <-. split; [done|]. split; [done|].
      exists n. split; [lia|done].
    + rewrite find_put_ne in Hr by done. destruct (Hdrawn id r Hr) as (? & ? & m & ? & ?).
      split; [done|]. split; [done|]. exists m. split; [lia|done].
Qed.

(** A settled reservation is never touched again. *)
Lemma book_step_settled s s' id r :
  book_step s s' → book_ok s → find_reservation id (gs_reservations s) = Some r →
  br_active r = false → find_reservation id (gs_reservations s') = Some r.
Proof.
  intros Hstep Hok Hf Hr. destruct Hstep as
    [ (Hb & _) | q tk lim a tot x _ _ _ _ _ _ Hb _ _ | old st tk ch a Hfo Hact _ Hb _ ].
  - by rewrite Hb.
  - rewrite Hb, find_put_ne; [done|]. intros <-. by rewrite book_fresh in Hf.
  - rewrite Hb, find_put_ne; [done|]. intros <-. rewrite Hf in Hfo. congruence.
Qed.

(** The committed tokens of every run and every tenant are within quota. *)
Definition within_quotas (s : GatewayState) : Prop :=
  (∀ tenant run, total (run_tokens tenant run) (gs_reservations s) ≤ max_run_tokens (Q tenant)) ∧
  (∀ tenant, total (tenant_tokens start tenant) (gs_reservations s)
             ≤ max_tenant_tokens_per_period (Q tenant)).

Lemma total_snd f (l : book) : total f l = sum_Z (map f (map snd l)).
Proof. unfold total. by rewrite map_map. Qed.

(** Settling never commits more than the reservation did. *)
Lemma settled_le old st tk ch a tenant run :
  br_active old = true → 1 ≤ br_token_limit old →
  (st = RS_CHARGED ∧ tk ≤ br_token_limit old ∨ st = RS_RELEASED) →
  run_tokens tenant run (settled old st tk ch a) ≤ run_tokens tenant run old ∧
  tenant_tokens start tenant (settled old st tk ch a) ≤ tenant_tokens start tenant old.
Proof.
  intros Hact Hlim Hst. unfold run_tokens, tenant_tokens, charged_after. simpl. rewrite Hact.
  destruct (bool_decide (br_tenant_id old = tenant)), (bool_decide (br_run_id old = run));
    simpl; destruct Hst as [[-> Ht]| ->]; simpl; repeat case_match; lia.
Qed.

(** What a new reservation adds, and to whom. *)
Lemma reserved_tokens request tk lim x tenant run :
  new_reservation request tk lim x →
  run_tokens tenant run x
  = (if bool_decide (mq_tenant_id request = tenant) && bool_decide (mq_run_id request = run)
     then tk else 0) ∧
  tenant_tokens start tenant x = (if bool_decide (mq_tenant_id request = tenant) then tk else 0).
Proof.
  intros (H1 & H2 & H3 & H4 & H5 & H6). unfold run_tokens, tenant_tokens.
  by rewrite H1, H2, H3, H5.
Qed.

Lemma book_step_within s s' :
  book_step s s' → book_ok s → within_quotas s → within_quotas s'.
Proof.
  intros Hstep Hok [Hrun Hten]. destruct Hstep as
    [ (Hb & _) | q tk lim a tot x Hp Hcb Hck Htk Hx Hid Hb _ _ | old st tk ch a Hfo Hact Hst Hb _ ].
  - by split; intros; rewrite Hb.
  - apply check_budgets_tokens in Hck as [Hck1 Hck2].
    assert (Hsnd : Forall reservation_ok (map snd (gs_reservations s)))
      by (apply Forall_map, (bk_all _ Hok)).
    apply current_budgets_spec in Hcb as [Hc1 Hc2]; [|done].
    rewrite <- total_snd in Hc1, Hc2. rewrite Hp in Hc2.
    pose proof (book_fresh s _ Hok (le_n _)) as Hfresh.
    split; intros; rewrite Hb, total_put_new by done.
    + destruct (reserved_tokens _ _ _ _ tenant run Hx) as [-> _]. specialize (Hrun tenant run).
      destruct (bool_decide (_ = tenant)) eqn:E1, (bool_decide (_ = run)) eqn:E2; simpl; try lia.
      bool_props. subst. lia.
    + destruct (reserved_tokens _ _ _ _ tenant 0%N Hx) as [_ ->]. specialize (Hten tenant).
      destruct (bool_decide _) eqn:E1; [|lia]. bool_props. subst. lia.
  - destruct (bk_drawn _ Hok _ _ Hfo) as (_ & [_ Hlim] & _).
    split; intros; rewrite Hb, (total_put_old _ _ _ old) by done.
    + destruct (settled_le old st tk ch a tenant run Hact Hlim Hst). specialize (Hrun tenant run). lia.
    + destruct (settled_le old st tk ch a tenant 0%N Hact Hlim Hst). specialize (Hten tenant). lia.
Qed.

Lemma steps_book_ok s s' : rtc budget_step s s' → book_ok s → book_ok s'.
Proof.
  induction 1 as [|x y z Hxy _ IH]; [done|]. intros Hx.
  apply IH. eapply book_step_ok; [by apply budget_step_book|done].
Qed.

(** Budgets hold: from a repository with no reservations, under any
  sequence of calls of the billing period, successful or not, the tokens a
  run has committed (limits of open reservations plus charges) never exceed
  the run quota of its tenant's policy, and the tokens a tenant has
  committed in the period never exceed its period quota. *)
Theorem gateway_tokens_within_quotas s s' :
  gs_reservations s = [] → (∀ m n, gs_uuids s m = gs_uuids s n → m = n) →
  (∀ tenant, 0 ≤ max_run_tokens (Q tenant) ∧ 0 ≤ max_tenant_tokens_per_period (Q tenant)) →
  rtc budget_step s s' →
  (∀ tenant run,
     total (run_tokens tenant run) (gs_reservations s') ≤ max_run_tokens (Q tenant)) ∧
  (∀ tenant, total (tenant_tokens start tenant) (gs_reservations s')
             ≤ max_tenant_tokens_per_period (Q tenant)).
Proof.
  intros Hnil Hinj HQ Hsteps.
  assert (Hok : book_ok s) by (split; rewrite ?Hnil; [done|done|constructor]).
  assert (Hin : within_quotas s) by (split; intros; rewrite Hnil; apply HQ).
  clear Hnil Hinj. induction Hsteps as [|x y z Hxy _ IH]; [exact Hin|].
  apply budget_step_book in Hxy. apply IH; [by eapply book_step_ok|by eapply book_step_within].
Qed.

(** A reservation is settled at most once: after it was charged or
  released, under any later calls, its record stays as it is and every
  attempt to charge it, release it or report on it is declined. *)
Theorem reservation_settled_once s s' id r :
  book_ok s → find_reservation id (gs_reservations s) = Some r → br_active r = false →
  rtc budget_step s s' →
  find_reservation id (gs_reservations s') = Some r ∧
  ∀ context request lease reservation response pricing error provider model attempt fallback at_,
    br_reservation_id reservation = id →
    declined (gw_succeed context request lease reservation response pricing at_) s' ∧
    declined (record_usage_failure context request lease reservation response pricing error
                at_) s' ∧
    declined (gw_fail context request lease reservation error at_) s' ∧
    declined (record_attempt context request lease reservation provider model attempt
                fallback at_) s' ∧
    declined (record_attempt_failure context request lease reservation error provider model
                attempt fallback at_) s'.
Proof.
  intros Hok Hf Hr Hsteps.
  assert (Hf' : find_reservation id (gs_reservations s') = Some r).
  { induction Hsteps as [|x y z Hxy _ IH]; [done|]. apply budget_step_book in Hxy.
    apply IH; [by eapply book_step_ok|]. by eapply book_step_settled. }
  split; [done|]. intros c q l rv rs pr er p m at1 fb a Hid.
  assert (Hdec : declined (_require_active rv) s').
  { eexists. unfold _require_active. erewrite bind_run by reflexivity.
    rewrite Hid, Hf'. simpl. rewrite Hr. reflexivity. }
  unfold gw_succeed, record_usage_failure, gw_fail, record_attempt, record_attempt_failure.
  repeat split; repeat first
    [ apply declined_first; exact Hdec
    | apply declined_pure; [pure_solve|intros ?]
    | match goal with |- declined (let '(_, _) := ?x in _) _ => destruct x end ].
Qed.
End Steps.

(** ** Answers of finished calls *)

(** The record of finished calls, which nothing but a success writes. *)
Definition same_completed (s s' : GatewayState) : Prop := gs_completed s' = gs_completed s.

Lemma append_each_completed request lease at_ n c events s r s' :
  append_each request lease at_ n c events s = (r, s') → same_completed s s'.
Proof.
  revert n c s. induction events as [|[ty d] events IH]; intros n c s Hrun; simpl in Hrun.
  { by injection Hrun as _ <-. }
  unfold bind at 1 in Hrun. cbn [gw_uuid] in Hrun. unfold bind at 1, lift in Hrun.
  destruct (EventEnvelope_post_init _); [by injection Hrun as _ <-|].
  unfold bind at 1, modify in Hrun. apply IH in Hrun. exact Hrun.
Qed.

Lemma append_completed request lease at_ events s r s' :
  _append request lease at_ events s = (r, s') → same_completed s s'.
Proof.
  unfold _append, bind at 1, raise_if. destruct (Dt.naive at_); [by intros [= _ <-]|].
  unfold bind, gets, ret. apply append_each_completed.
Qed.

Lemma declined_gets {A B} (f : GatewayState → A) (k : A → Gw B) s :
  declined (k (f s)) s → declined (bind (gets f) k) s.
Proof. intros [e He]. exists e. by erewrite bind_run. Qed.

Section Finished.
Context `{PyRepr}.

Lemma succeed_completed context request lease reservation response pricing at_ s u s' :
  gw_succeed context request lease reservation response pricing at_ s = (inr u, s') →
  gs_completed s' !! call_key request = Some (request_content_digest request, response).
Proof.
  unfold gw_succeed. intros Hrun.
  apply bind_ok in Hrun as (u1 & s1 & H1 & Hrun). apply bind_ok in Hrun as ([t ch] & s2 & H2 & Hrun).
  apply bind_ok in Hrun as (u3 & s3 & H3 & Hrun). apply bind_ok in Hrun as (u4 & s4 & H4 & Hrun).
  unfold bind at 1, modify in Hrun. unfold bind at 1 in Hrun. unfold bind at 1 in Hrun.
  apply bind_ok in Hrun as (rel & s5 & [= _ <-] & Hrun).
  apply append_completed in Hrun. unfold same_completed in Hrun. rewrite Hrun. simpl.
  apply lookup_insert_eq.
Qed.

(** The answer a finished call gives another request. *)
Definition recorded_answer (request : ModelRequest) (response : ModelResponse)
    (request2 : ModelRequest) : option ModelResponse :=
  if bool_decide (request_content_digest request = request_content_digest request2)
  then Some response else None.

(** A finished call is answered from the record: after a success, a call
  under the same tenant and idempotency key and with the same content gets
  the recorded response back (one with other content gets none), and no
  further reservation can be made for that key, so the model is not called
  and billed again. *)
Theorem finished_call_is_replayed context request lease reservation response pricing at_ s u s' :
  gw_succeed context request lease reservation response pricing at_ s = (inr u, s') →
  ∀ context2 request2 lease2 at2,
    call_key request2 = call_key request →
    (∀ answer s2, gw_completed context2 request2 lease2 at2 s' = (inr answer, s2) →
       s2 = s' ∧ answer = recorded_answer request response request2) ∧
    ∀ route quotas tokens limit version,
      declined (reserve context2 request2 lease2 route quotas tokens limit version at2) s'.
Proof.
  intros Hrun c2 q2 l2 a2 Hkey. apply succeed_completed in Hrun as Hc. split.
  - intros answer s2 Hrun2. unfold gw_completed in Hrun2.
    apply bind_ok in Hrun2 as (u1 & s3 & H1 & Hrun2). injection H1 as Hval <-.
    apply bind_ok in Hrun2 as (u2 & s4 & H2 & Hrun2). rewrite (pure_fence _ _ _ _ _ H2) in *.
    apply bind_ok in Hrun2 as (m & s5 & [= <- <-] & [= <- <-]). split; [done|].
    assert (Hten : ctx_str c2 = mq_tenant_id q2).
    { unfold _validate_model_context in Hval. py_inv. by bool_props. }
    rewrite Hten. fold (call_key q2). by rewrite Hkey, Hc.
  - intros route quotas tokens limit version. unfold reserve. rewrite Hkey.
    do 5 (apply declined_pure; [pure_solve|intros ?]). apply declined_gets, declined_first.
    rewrite Hc. apply declined_pure; [pure_solve|]. intros _. by eexists.
Qed.
End Finished.

(** ** Costs *)

Section Costs.
Context `{PyRepr}.
(** Costs as whole units of [10 ^ k]: of the limits and of the charges. *)
Context (k : Z) (lim chg : BudgetReservation → Z).

Definition in_units (r : BudgetReservation) : Prop :=
  amount k (br_cost_limit_usd r) (lim r) ∧ amount k (br_charged_cost_usd r) (chg r) ∧
  0 ≤ lim r ∧ 0 ≤ chg r.

Definition run_cost_units (tenant : string) (run : uuid) (r : BudgetReservation) : Z :=
  if bool_decide (br_tenant_id r = tenant) && bool_decide (br_run_id r = run) then
    if br_active r then lim r
    else if bool_decide (br_status r = RS_CHARGED) then chg r else 0
  else 0.

Definition tenant_cost_units (start : Dt.datetime) (tenant : string) (r : BudgetReservation)
    : Z :=
  if bool_decide (br_tenant_id r = tenant) then
    if br_active r then lim r else if charged_after start r then chg r else 0
  else 0.

Definition gross (l : list BudgetReservation) : Z := sum_Z (map (λ r, lim r + chg r) l).

Lemma class_sum (p : BudgetReservation → bool) (d : BudgetReservation → decimal)
    (f : BudgetReservation → Z) l :
  grid k → Forall (λ r, amount k (d r) (f r) ∧ 0 ≤ f r ∧ f r ≤ lim r + chg r) l →
  gross l < pow10 prec →
  ∃ s, dec_sum (map d (List.filter p l)) = inr s ∧
       amount k s (sum_Z (map f (List.filter p l))) ∧
       0 ≤ sum_Z (map f (List.filter p l)) ≤ gross l.
Proof.
  intros Hk Hall Hsmall.
  assert (Hb : 0 ≤ sum_Z (map f (List.filter p l)) ≤ gross l).
  { clear Hsmall. unfold gross. induction Hall as [|r l (_ & H1 & H2) _ IH]; simpl; [lia|].
    destruct (p r); simpl; lia. }
  unshelve epose proof (dec_sum_exact k (map d (List.filter p l)) (map f (List.filter p l))
    Hk _ _ _) as Hsum.
  - clear Hb Hsmall. induction Hall as [|r l (H1 & _ & _) _ IH]; simpl; [constructor|].
    destruct (p r); [|done]. by constructor.
  - clear Hb Hsmall. induction Hall as [|r l (_ & H1 & _) _ IH]; simpl; [constructor|].
    destruct (p r); [|done]. by constructor.
  - unfold sum_Z in Hb. lia.
  - destruct Hsum as (s & Hs & Ha). exists s. done.
Qed.

(** The costs [reserve] compares are the exact totals. *)
Lemma current_costs request at_ l b :
  grid k → Forall (λ r, reservation_ok r ∧ in_units r) l → 2 * gross l < pow10 prec →
  current_budgets request at_ l = inr b →
  let run := sum_Z (map (run_cost_units (mq_tenant_id request) (mq_run_id request)) l) in
  let ten := sum_Z (map (tenant_cost_units (_billing_period_start at_)
                           (mq_tenant_id request)) l) in
  amount k (bu_run_cost b) run ∧ 0 ≤ run ≤ 2 * gross l ∧
  amount k (bu_tenant_cost b) ten ∧ 0 ≤ ten ≤ 2 * gross l.
Proof.
  intros Hk Hall Hsmall Hrun. unfold current_budgets in Hrun. cbv zeta in Hrun.
  apply rbind_ok in Hrun as (charged & Hch & Hrun). apply charged_since_spec in Hch as ->.
  assert (Hlim : Forall (λ r, amount k (br_cost_limit_usd r) (lim r) ∧ 0 ≤ lim r ∧
    lim r ≤ lim r + chg r) l).
  { eapply Forall_impl; [exact Hall|]. intros r (_ & ? & _ & ? & ?). split; [done|lia]. }
  assert (Hchg : Forall (λ r, amount k (br_charged_cost_usd r) (chg r) ∧ 0 ≤ chg r ∧
    chg r ≤ lim r + chg r) l).
  { eapply Forall_impl; [exact Hall|]. intros r (_ & _ & ? & ? & ?). split; [done|lia]. }
  assert (Hexcl : Forall (λ r, br_active r = true → br_status r ≠ RS_CHARGED) l).
  { eapply Forall_impl; [exact Hall|]. intros r [Hr _]. by apply active_not_charged. }
  assert (Hg0 : 0 ≤ gross l).
  { clear -Hlim Hchg. unfold gross. induction Hlim as [|r l (_ & ? & _) _ IH]; simpl; [lia|].
    apply Forall_cons in Hchg as [(_ & ? & _) ?]. specialize (IH ltac:(done)). lia. }
  rewrite filter_filter_andb in Hrun.
  match type of Hrun with context [dec_sum (map br_cost_limit_usd (List.filter ?p l))] =>
    destruct (class_sum p br_cost_limit_usd lim l Hk Hlim) as (s1 & E1 & A1 & B1); [lia|] end.
  rewrite E1 in Hrun. cbn [rbind] in Hrun.
  match type of Hrun with context [dec_sum (map br_charged_cost_usd (List.filter ?p l))] =>
    destruct (class_sum p br_charged_cost_usd chg l Hk Hchg) as (s2 & E2 & A2 & B2); [lia|] end.
  rewrite E2 in Hrun. cbn [rbind] in Hrun.
  destruct (dec_add_exact k s1 s2 _ _ Hk A1 A2) as (s3 & E3 & A3); [lia|].
  rewrite E3 in Hrun. cbn [rbind] in Hrun.
  match type of Hrun with context [dec_sum (map br_cost_limit_usd (List.filter ?p l))] =>
    destruct (class_sum p br_cost_limit_usd lim l Hk Hlim) as (s4 & E4 & A4 & B4); [lia|] end.
  rewrite E4 in Hrun. cbn [rbind] in Hrun.
  match type of Hrun with context [dec_sum (map br_charged_cost_usd (List.filter ?p l))] =>
    destruct (class_sum p br_charged_cost_usd chg l Hk Hchg) as (s5 & E5 & A5 & B5); [lia|] end.
  rewrite E5 in Hrun. cbn [rbind] in Hrun.
  destruct (dec_add_exact k s4 s5 _ _ Hk A4 A5) as (s6 & E6 & A6); [lia|].
  rewrite E6 in Hrun. injection Hrun as <-. cbv zeta. simpl.
  match type of A3 with amount _ _ (?x + ?y) => assert (Hten : x + y = sum_Z (map
    (tenant_cost_units (_billing_period_start at_) (mq_tenant_id request)) l)) end.
  { rewrite sum_classes.
    - apply sum_ext. intros r. unfold tenant_cost_units.
      destruct (bool_decide (br_tenant_id r = _)), (br_active r), (charged_after _ r); done.
    - eapply Forall_impl; [exact Hexcl|]. intros r Hr. cbv beta in *. unfold charged_after.
      destruct (bool_decide (br_tenant_id r = _)), (br_active r); try done. cbn [andb].
      by rewrite bool_decide_false by (by apply Hr). }
  match type of A6 with amount _ _ (?x + ?y) => assert (Hrn : x + y = sum_Z (map
    (run_cost_units (mq_tenant_id request) (mq_run_id request)) l)) end.
  { rewrite sum_classes.
    - apply sum_ext. intros r. unfold run_cost_units.
      destruct (bool_decide (br_tenant_id r = _)), (bool_decide (br_run_id r = _)),
        (br_active r), (bool_decide (br_status r = _)); done.
    - eapply Forall_impl; [exact Hexcl|]. intros r Hr. cbv beta in *.
      destruct (bool_decide (br_tenant_id r = _)), (br_active r), (bool_decide (br_run_id r = _));
        simpl; try done. apply bool_decide_eq_false. by apply Hr. }
  rewrite <- Hten, <- Hrn. split; [done|]. split; [lia|]. split; [done|lia].
Qed.

(** The cost quotas hold exactly: with costs in whole units of [10 ^ k]
  that sum to at most 28 digits, a granted reservation leaves the run's and
  the tenant's committed cost, plus the new limit, within the quotas, with
  no rounding in anyone's favour. *)
Theorem reserve_within_cost_quotas context request lease route quotas tokens limit version at_
    s r s' x run_quota tenant_quota :
  grid k → book_ok s → Forall (λ kv, in_units kv.2) (gs_reservations s) →
  2 * gross (map snd (gs_reservations s)) + x < pow10 prec →
  amount k limit x → 0 ≤ x → amount k (max_run_cost_usd quotas) run_quota →
  amount k (max_tenant_cost_usd_per_period quotas) tenant_quota →
  reserve context request lease route quotas tokens limit version at_ s = (inr r, s') →
  total (run_cost_units (mq_tenant_id request) (mq_run_id request)) (gs_reservations s) + x
  ≤ run_quota ∧
  total (tenant_cost_units (_billing_period_start at_) (mq_tenant_id request))
    (gs_reservations s) + x ≤ tenant_quota.
Proof.
  intros Hk Hok Hun Hsmall Hx Hx0 Hrq Htq Hrun. rewrite !total_snd.
  assert (Hall : Forall (λ r, reservation_ok r ∧ in_units r) (map snd (gs_reservations s))).
  { apply Forall_map. pose proof (bk_all _ Hok) as Hb. eapply Forall_and; by split. }
  apply reserve_ok in Hrun as (b & Hb & Hc).
  apply current_costs in Hb as (Ar & Br & At & Bt); [|done|done|lia].
  unfold check_budgets in Hc. py_inv.
  destruct (dec_add_exact k _ _ _ _ Hk Ar Hx) as (s1 & E1 & A1); [lia|].
  destruct (dec_add_exact k _ _ _ _ Hk At Hx) as (s2 & E2 & A2); [lia|].
  rewrite E1 in *. rewrite E2 in *. simplify_eq/=.
  rewrite (dec_gt_exact k _ _ _ _ A1 Hrq) in *. rewrite (dec_gt_exact k _ _ _ _ A2 Htq) in *.
  simplify_eq/=. bool_props. lia.
Qed.
End Costs.

(** ** A sample call *)

#[local] Instance sample_gateway_repr : PyRepr := λ _, ""%string.
#[local] Opaque sha256_hex.

(** A run by its answer and its final state. *)
Lemma run_pair {A} (m : Gw A) s a : (m s).1 = inr a → m s = (inr a, (m s).2).
Proof. intros <-. apply surjective_pairing. Qed.

Definition gw_lease : WorkLease :=
  {| wl_work_id := 100%N; wl_tenant_id := "acme"; wl_token := 2001%N; wl_generation := 1;
     wl_owner := "worker-1"; wl_attempt := 1; wl_acquired_at := Dt.Aware 20000000;
     wl_heartbeat_at := Dt.Aware 20000000; wl_expires_at := Dt.Aware 50000000 |}.

Definition old_lease : WorkLease :=
  {| wl_work_id := 100%N; wl_tenant_id := "acme"; wl_token := 1999%N; wl_generation := 0;
     wl_owner := "worker-0"; wl_attempt := 1; wl_acquired_at := Dt.Aware 10000000;
     wl_heartbeat_at := Dt.Aware 10000000; wl_expires_at := Dt.Aware 50000000 |}.

Definition gw_context : TenantContext := mkTenantContext (mkTenantId "acme").

Definition gw_start : GatewayState := gateway_init [gw_lease] (λ n, (500 + N.of_nat n)%N).

Definition gw_route : RouteDecision :=
  mkRouteDecision (sample_entry "n" 1 2) [sample_entry "n" 1 2; sample_entry "m" 2 1]
    ["tenant_policy_allowed"%string].

Definition sample_reserve : Gw BudgetReservation :=
  reserve gw_context sample_model_request gw_lease gw_route sample_quotas 300 (DFin 3 (-3)) "p1"
    (Dt.Aware 30000000).

Definition reserved : GatewayState := (sample_reserve gw_start).2.

Definition sample_reservation : BudgetReservation :=
  {| br_reservation_id := 500%N; br_tenant_id := "acme"; br_run_id := 100%N;
     br_request_id := 11%N; br_token_limit := 300; br_cost_limit_usd := DFin 3 (-3);
     br_price_version := "p1"; br_active := true; br_status := RS_ACTIVE;
     br_charged_tokens := 0; br_charged_cost_usd := DFin 0 0;
     br_created_at := Some (Dt.Aware 30000000); br_expires_at := Some (Dt.Aware 50000000);
     br_reconciled_at := None |}.

Definition sample_response : ModelResponse :=
  {| ms_request_id := 11%N; ms_model := mkModelIdentity "openai" "n";
     ms_content := [TextPart "hi"]; ms_finish_reason := FR_STOP;
     ms_safety := mkSafetyResult SO_ALLOWED None;
     ms_usage := mkTokenUsage 90 120 0 0 0; ms_latency_ms := 12;
     ms_provider_request_id := None; ms_structured_output := None |}.

Definition sample_finish : Gw unit :=
  gw_succeed gw_context sample_model_request gw_lease sample_reservation sample_response
    sample_pricing (Dt.Aware 31000000).

Definition finished : GatewayState := (sample_finish reserved).2.

Definition gw_period : Dt.datetime := Dt.Aware 0.

Lemma gateway_fenced_witness :
  declined (gw_fail gw_context sample_model_request old_lease sample_reservation
    (mkGatewayError TRANSIENT "lost" true None false) (Dt.Aware 31000000)) reserved.
Proof.
  apply (gateway_fenced old_lease (Dt.Aware 31000000) unit).
  - apply call_fail.
  - intros (c & Hc & Htok & _). vm_compute in Hc. injection Hc as <-. vm_compute in Htok.
    discriminate.
Defined.

Lemma gateway_events_gapless_witness :
  numbered reserved ∧ map aggregate_sequence (gs_events reserved) = [1; 2; 3].
Proof.
  split; [|vm_compute; reflexivity].
  apply (gateway_events_gapless gw_lease (Dt.Aware 30000000) BudgetReservation sample_reserve
    gw_start (sample_reserve gw_start).1 reserved);
    [apply call_reserve|by intros agg|apply surjective_pairing].
Defined.

Lemma sample_steps : rtc (budget_step (λ _, sample_quotas) gw_period) gw_start finished.
Proof.
  eapply rtc_l; [|apply rtc_once].
  - apply (step_reserve _ _ gw_context sample_model_request gw_lease gw_route 300 (DFin 3 (-3))
      "p1" (Dt.Aware 30000000) gw_start (sample_reserve gw_start).1 reserved); [reflexivity|].
    apply surjective_pairing.
  - apply (step_succeed _ _ gw_context sample_model_request gw_lease sample_reservation
      sample_response sample_pricing (Dt.Aware 31000000) reserved (sample_finish reserved).1
      finished); [vm_compute; reflexivity|]. apply surjective_pairing.
Qed.

(** After the call 210 of 300 reserved tokens are charged, of 1000 allowed. *)
Lemma gateway_tokens_within_quotas_witness :
  total (run_tokens "acme" 100%N) (gs_reservations finished) = 210 ∧
  total (run_tokens "acme" 100%N) (gs_reservations finished) ≤ 1000.
Proof.
  split; [vm_compute; reflexivity|].
  destruct (gateway_tokens_within_quotas (λ _, sample_quotas) gw_period gw_start finished)
    as [Hrun _].
  - reflexivity.
  - intros m n Hmn. simpl in Hmn. lia.
  - intros _. simpl. lia.
  - apply sample_steps.
  - exact (Hrun "acme"%string 100%N).
Defined.

Lemma finished_book : book_ok finished.
Proof.
  eapply steps_book_ok; [apply sample_steps|]. split; [|by intros|constructor].
  intros m n Hmn. simpl in Hmn. lia.
Qed.

Lemma reservation_settled_once_witness :
  declined (gw_fail gw_context sample_model_request gw_lease sample_reservation
    (mkGatewayError TRANSIENT "late" true None false) (Dt.Aware 32000000)) finished.
Proof.
  destruct (reservation_settled_once (λ _, sample_quotas) gw_period finished finished 500%N
    (settled sample_reservation RS_CHARGED 210 (DFin 1425 (-6)) (Dt.Aware 31000000)))
    as [_ H].
  - apply finished_book.
  - vm_compute. reflexivity.
  - reflexivity.
  - apply rtc_refl.
  - destruct (H gw_context sample_model_request gw_lease sample_reservation sample_response
      sample_pricing (mkGatewayError TRANSIENT "late" true None false) "" "" 1 0
      (Dt.Aware 32000000) eq_refl)%string as (_ & _ & Hfail & _). exact Hfail.
Defined.

Lemma finished_call_is_replayed_witness :
  sample_finish reserved = (inr tt, finished) ∧
  declined sample_reserve finished.
Proof.
  assert (Hrun : sample_finish reserved = (inr tt, finished)).
  { apply (run_pair sample_finish reserved). vm_compute. reflexivity. }
  split; [done|]. unfold sample_finish in Hrun.
  destruct (finished_call_is_replayed gw_context sample_model_request gw_lease
    sample_reservation sample_response sample_pricing (Dt.Aware 31000000) reserved tt finished
    Hrun gw_context sample_model_request gw_lease (Dt.Aware 30000000) eq_refl) as [_ Hres].
  exact (Hres gw_route sample_quotas 300 (DFin 3 (-3)) "p1"%string).
Defined.

Lemma gw_start_book : book_ok gw_start.
Proof. split; [|by intros|constructor]. intros m n Hmn. simpl in Hmn. lia. Qed.

(** A first reservation of 0.003 against a run quota of 1.50. *)
Lemma reserve_within_cost_quotas_witness : 0 + 3 ≤ 1500 ∧ 0 + 3 ≤ 10000.
Proof.
  assert (Hrun : sample_reserve gw_start = (inr sample_reservation, reserved)).
  { apply (run_pair sample_reserve gw_start). vm_compute. reflexivity. }
  unfold sample_reserve in Hrun.
  destruct (reserve_within_cost_quotas (-3) (λ _, 0) (λ _, 0) gw_context sample_model_request
    gw_lease gw_route sample_quotas 300 (DFin 3 (-3)) "p1" (Dt.Aware 30000000) gw_start
    sample_reservation reserved 3 1500 10000) as [H1 H2].
  - unfold grid. lia.
  - apply gw_start_book.
  - constructor.
  - reflexivity.
  - exists 3, (-3). split; [reflexivity|]. split; [lia|reflexivity].
  - lia.
  - exists 150, (-2). split; [reflexivity|]. split; [lia|reflexivity].
  - exists 10, 0. split; [reflexivity|]. split; [lia|reflexivity].
  - exact Hrun.
  - split; [exact H1|exact H2].
Defined.
