(* ===== verification/Resilience.v ===== *)
(** * Circuit breaker, rate limits and retries of the gateway

    Models [gateway/resilience.py]: [CircuitBreaker], [TokenBucket],
    [ProviderControls] and [RetryPolicy].  Clock readings are binary64
    floats.  The breaker is characterised by the history of its calls. *)

From stdpp Require Import base gmap list strings.
From Stdlib Require Import ZArith Lia SpecFloat.
From S2P Require Import Prelude PyLib Floats Backoff Amounts Policy ModelContracts.

Local Open Scope Z_scope.

(** ** Circuit breaker *)

Inductive CircuitState : Type := CLOSED | OPEN | HALF_OPEN.

#[export] Instance CircuitState_eq_dec : EqDecision CircuitState.
Proof. solve_decision. Defined.

Record CircuitBreaker : Type := mkCircuit {
  cb_failure_threshold : Z;
  cb_recovery_seconds : spec_float;
  cb_failures : Z;
  cb_opened_at : option spec_float;
  cb_half_open_inflight : bool;
}.

Definition CircuitBreaker_new (threshold : Z) (recovery : spec_float) : result CircuitBreaker :=
  raise! ValueError "circuit bounds must be positive"
    when! (threshold <? 1) || SFleb recovery f64_zero ;;
  inr (mkCircuit threshold recovery 0 None false).

(** The [state] property at a clock reading. *)
Definition circuit_state (c : CircuitBreaker) (now : spec_float) : CircuitState :=
  match cb_opened_at c with
  | None => CLOSED
  | Some opened => if SFleb (cb_recovery_seconds c) (f64_sub now opened) then HALF_OPEN else OPEN
  end.

Definition set_circuit (c : CircuitBreaker) (failures : Z) (opened : option spec_float)
    (inflight : bool) : CircuitBreaker :=
  mkCircuit (cb_failure_threshold c) (cb_recovery_seconds c) failures opened inflight.

Definition acquire (c : CircuitBreaker) (now : spec_float) : result CircuitBreaker :=
  match circuit_state c now with
  | OPEN => inl (CircuitOpenError "provider circuit is open")
  | HALF_OPEN =>
      if cb_half_open_inflight c
      then inl (CircuitOpenError "provider circuit half-open probe is busy")
      else inr (set_circuit c (cb_failures c) (cb_opened_at c) true)
  | CLOSED => inr c
  end.

Definition cb_succeed (c : CircuitBreaker) : CircuitBreaker := set_circuit c 0 None false.

Definition cb_fail (c : CircuitBreaker) (now : spec_float) : CircuitBreaker :=
  let failures := cb_failures c + 1 in
  set_circuit c failures
    (if cb_failure_threshold c <=? failures then Some now else cb_opened_at c) false.

Definition abandon (c : CircuitBreaker) : CircuitBreaker :=
  set_circuit c (cb_failures c) (cb_opened_at c) false.

(** ** Rate limits *)

Record TokenBucket : Type := mkBucket {
  tb_capacity : spec_float;
  tb_refill_per_second : spec_float;
  tb_tokens : spec_float;
  tb_updated_at : spec_float;
}.

Definition TokenBucket_new (capacity refill now : spec_float) : result TokenBucket :=
  raise! ValueError "rate limit values must be positive"
    when! SFleb capacity f64_zero || SFleb refill f64_zero ;;
  inr (mkBucket capacity refill capacity now).

Definition consume (b : TokenBucket) (amount now : spec_float) : result (bool * TokenBucket) :=
  raise! ValueError "rate limit amount is invalid"
    when! SFleb amount f64_zero || SFltb (tb_capacity b) amount ;;
  let elapsed := f64_max f64_zero (f64_sub now (tb_updated_at b)) in
  let tokens := f64_min (tb_capacity b)
                  (f64_add (tb_tokens b) (f64_mul elapsed (tb_refill_per_second b))) in
  if SFltb tokens amount
  then inr (false, mkBucket (tb_capacity b) (tb_refill_per_second b) tokens now)
  else inr (true, mkBucket (tb_capacity b) (tb_refill_per_second b) (f64_sub tokens amount) now).

(** ** Controls of the provider models

    [ProviderControls] with its clock, of which each call takes the next
    reading.  The four dictionaries have the configured models as keys; a
    semaphore is the number of its free permits.  Quotients and capacities
    are exact for limits below 2^53. *)

#[export] Instance ModelIdentity_countable : Countable ModelIdentity.
Proof.
  refine (inj_countable' (λ m, (mi_provider m, mi_model m))
            (λ p, mkModelIdentity p.1 p.2) _). by intros [].
Defined.

Record ProviderControls : Type := mkControls {
  pc_semaphores : gmap ModelIdentity Z;
  pc_request_buckets : gmap ModelIdentity TokenBucket;
  pc_token_buckets : gmap ModelIdentity TokenBucket;
  pc_circuits : gmap ModelIdentity CircuitBreaker;
  pc_clock : nat → spec_float;
  pc_tick : nat;
}.

Abbreviation Ctl := (M exn ProviderControls).

Definition set_semaphores (f : gmap ModelIdentity Z → gmap ModelIdentity Z)
    (s : ProviderControls) : ProviderControls :=
  mkControls (f (pc_semaphores s)) (pc_request_buckets s) (pc_token_buckets s) (pc_circuits s)
    (pc_clock s) (pc_tick s).
Definition set_request_buckets (f : gmap ModelIdentity TokenBucket → gmap ModelIdentity TokenBucket)
    (s : ProviderControls) : ProviderControls :=
  mkControls (pc_semaphores s) (f (pc_request_buckets s)) (pc_token_buckets s) (pc_circuits s)
    (pc_clock s) (pc_tick s).
Definition set_token_buckets (f : gmap ModelIdentity TokenBucket → gmap ModelIdentity TokenBucket)
    (s : ProviderControls) : ProviderControls :=
  mkControls (pc_semaphores s) (pc_request_buckets s) (f (pc_token_buckets s)) (pc_circuits s)
    (pc_clock s) (pc_tick s).
Definition set_circuits (f : gmap ModelIdentity CircuitBreaker → gmap ModelIdentity CircuitBreaker)
    (s : ProviderControls) : ProviderControls :=
  mkControls (pc_semaphores s) (pc_request_buckets s) (pc_token_buckets s) (f (pc_circuits s))
    (pc_clock s) (pc_tick s).

Definition monotonic : Ctl spec_float := λ s,
  (inr (pc_clock s (pc_tick s)),
   mkControls (pc_semaphores s) (pc_request_buckets s) (pc_token_buckets s) (pc_circuits s)
     (pc_clock s) (S (pc_tick s))).

(** One dictionary comprehension over the models: a bucket reads the clock
    when it is made. *)
Definition new_buckets (per_minute : Z)
    (set : (gmap ModelIdentity TokenBucket → gmap ModelIdentity TokenBucket) →
           ProviderControls → ProviderControls) (models : list ModelIdentity) : Ctl unit :=
  for_each models (λ model,
    do! raise_if (SFleb (sf_of_Z per_minute) f64_zero
                  || SFleb (f64_div (sf_of_Z per_minute) (sf_of_Z 60)) f64_zero)
          (ValueError "rate limit values must be positive") ;;
    let! now := monotonic in
    let! bucket := lift (TokenBucket_new (sf_of_Z per_minute)
                           (f64_div (sf_of_Z per_minute) (sf_of_Z 60)) now) in
    modify (set <[model := bucket]>)).

Definition ProviderControls_init (models : list ModelIdentity)
    (concurrency requests_per_minute tokens_per_minute circuit_failure_threshold : Z)
    : Ctl unit :=
  do! raise_if (concurrency <? 1) (ValueError "concurrency must be positive") ;;
  do! for_each models (λ model, modify (set_semaphores <[model := concurrency]>)) ;;
  do! new_buckets requests_per_minute set_request_buckets models ;;
  do! new_buckets tokens_per_minute set_token_buckets models ;;
  for_each models (λ model,
    let! circuit := lift (CircuitBreaker_new circuit_failure_threshold (sf_of_Z 30)) in
    modify (set_circuits <[model := circuit]>)).

Definition _known {T} (values : ProviderControls → gmap ModelIdentity T) (model : ModelIdentity)
    : Ctl T := λ s,
  match values s !! model with
  | Some v => (inr v, s)
  | None => (inl (ValueError "model is not configured for runtime controls"), s)
  end.

(** [self.circuit(model)] and a call on it: [state], [acquire], [succeed],
    [fail], and [abandon], which [release_probe] calls. *)
Definition controls_circuit : ModelIdentity → Ctl CircuitBreaker := _known pc_circuits.

Definition controls_state (model : ModelIdentity) : Ctl CircuitState :=
  let! c := controls_circuit model in
  match cb_opened_at c with
  | None => ret CLOSED
  | Some _ => let! now := monotonic in ret (circuit_state c now)
  end.

Definition controls_acquire (model : ModelIdentity) : Ctl unit :=
  let! c := controls_circuit model in
  match cb_opened_at c with
  | None => ret tt
  | Some _ =>
      let! now := monotonic in
      let! c' := lift (acquire c now) in
      modify (set_circuits <[model := c']>)
  end.

Definition controls_succeed (model : ModelIdentity) : Ctl unit :=
  let! c := controls_circuit model in modify (set_circuits <[model := cb_succeed c]>).

(** [fail] reads the clock when the failures reach the threshold. *)
Definition controls_fail (model : ModelIdentity) : Ctl unit :=
  let! c := controls_circuit model in
  if cb_failure_threshold c <=? cb_failures c + 1
  then let! now := monotonic in modify (set_circuits <[model := cb_fail c now]>)
  else modify (set_circuits <[model := cb_fail c f64_zero]>).

Definition controls_abandon (model : ModelIdentity) : Ctl unit :=
  let! c := controls_circuit model in modify (set_circuits <[model := abandon c]>).

(** [bucket.consume(amount)] on the bucket of a model. *)
Definition controls_consume (values : ProviderControls → gmap ModelIdentity TokenBucket)
    (set : (gmap ModelIdentity TokenBucket → gmap ModelIdentity TokenBucket) →
           ProviderControls → ProviderControls)
    (model : ModelIdentity) (amount : spec_float) : Ctl bool :=
  let! b := _known values model in
  do! raise_if (SFleb amount f64_zero || SFltb (tb_capacity b) amount)
        (ValueError "rate limit amount is invalid") ;;
  let! now := monotonic in
  let! r := lift (consume b amount now) in
  do! modify (set <[model := r.2]>) ;;
  ret r.1.

(** [ProviderControls.admit]: the request bucket is consumed first, and the
    token bucket only if that succeeded. *)
Definition controls_admit (model : ModelIdentity) (tokens : Z) : Ctl bool :=
  let! token_bucket := _known pc_token_buckets model in
  if SFltb (tb_capacity token_bucket) (sf_of_Z tokens) then ret false
  else
    let! ok := controls_consume pc_request_buckets set_request_buckets model (sf_of_Z 1) in
    if ok : bool
    then controls_consume pc_token_buckets set_token_buckets model (sf_of_Z tokens)
    else ret false.

(** ** Retries *)

Record RetryPolicy : Type := mkRetryPolicy {
  rp_max_attempts : Z;
  rp_max_failovers : Z;
  rp_backoff : ExponentialBackoff;
}.

Definition RetryPolicy_post_init (p : RetryPolicy) : result RetryPolicy :=
  raise! ValueError "attempt limit must be between 1 and 10"
    when! negb ((1 <=? rp_max_attempts p) && (rp_max_attempts p <=? 10)) ;;
  raise! ValueError "failover limit must be between 0 and 5"
    when! negb ((0 <=? rp_max_failovers p) && (rp_max_failovers p <=? 5)) ;;
  inr p.

Definition may_retry (p : RetryPolicy) (error : gateway_error) (attempt : Z) : bool :=
  ge_retryable error && (attempt <? rp_max_attempts p).

(** ** The breaker and its history *)

Inductive circuit_op : Type :=
| Acquire (now : spec_float)
| Succeed
| Failure (now : spec_float)
| Abandon.

(** A call on the breaker; a refused acquisition leaves it as it was. *)
Definition circuit_step (c : CircuitBreaker) (op : circuit_op) : CircuitBreaker :=
  match op with
  | Acquire now => match acquire c now with inr c' => c' | inl _ => c end
  | Succeed => cb_succeed c
  | Failure now => cb_fail c now
  | Abandon => abandon c
  end.

Definition circuit_run (c : CircuitBreaker) (ops : list circuit_op) : CircuitBreaker :=
  foldl circuit_step c ops.

(** The failures since the last success, most recent first. *)
Fixpoint recent_failures (rev_ops : list circuit_op) : list spec_float :=
  match rev_ops with
  | [] | Succeed :: _ => []
  | Failure now :: rest => now :: recent_failures rest
  | _ :: rest => recent_failures rest
  end.

(** A probe was admitted and nothing has reported on it since. *)
Definition settles_probe (op : circuit_op) : bool :=
  match op with Acquire _ => false | _ => true end.

Lemma circuit_run_snoc c ops op : circuit_run c (ops ++ [op]) = circuit_step (circuit_run c ops) op.
Proof. unfold circuit_run. by rewrite foldl_snoc. Qed.

Lemma acquire_ok c now c' :
  acquire c now = inr c' →
  cb_failures c' = cb_failures c ∧ cb_opened_at c' = cb_opened_at c ∧
  cb_failure_threshold c' = cb_failure_threshold c ∧
  cb_recovery_seconds c' = cb_recovery_seconds c.
Proof. unfold acquire. repeat case_match; intros [= <-]; done. Qed.

Lemma circuit_step_config c op :
  cb_failure_threshold (circuit_step c op) = cb_failure_threshold c ∧
  cb_recovery_seconds (circuit_step c op) = cb_recovery_seconds c.
Proof.
  destruct op as [now| |now|]; try done. simpl. destruct (acquire c now) eqn:Ha; [done|].
  by apply acquire_ok in Ha as (_ & _ & ? & ?).
Qed.

Lemma circuit_run_config c ops :
  cb_failure_threshold (circuit_run c ops) = cb_failure_threshold c ∧
  cb_recovery_seconds (circuit_run c ops) = cb_recovery_seconds c.
Proof.
  induction ops as [|op ops IH] using rev_ind; [done|]. rewrite circuit_run_snoc.
  destruct (circuit_step_config (circuit_run c ops) op) as [-> ->]. exact IH.
Qed.

(** The breaker is exactly its failure history: after any sequence of
    acquisitions, successes, failures and abandoned probes, it is closed
    while fewer than the threshold of failures have happened since the last
    success; otherwise it is open until the recovery time has passed since
    the most recent failure and half-open from then on. *)
Theorem circuit_follows_history threshold recovery c ops now :
  CircuitBreaker_new threshold recovery = inr c →
  let failures := recent_failures (rev ops) in
  circuit_state (circuit_run c ops) now =
  if Z.of_nat (length failures) <? threshold then CLOSED
  else match failures with
       | last :: _ => if SFleb recovery (f64_sub now last) then HALF_OPEN else OPEN
       | [] => CLOSED
       end.
Proof.
  intros Hnew. unfold CircuitBreaker_new in Hnew. py_inv. bool_props. cbv zeta.
  set (c := mkCircuit threshold recovery 0 None false).
  assert (Hinv : cb_failures (circuit_run c ops) = Z.of_nat (length (recent_failures (rev ops))) ∧
    cb_opened_at (circuit_run c ops) =
      if Z.of_nat (length (recent_failures (rev ops))) <? threshold then None
      else head (recent_failures (rev ops))).
  { induction ops as [|op ops IH] using rev_ind.
    - split; [done|]. simpl. by case_match.
    - rewrite circuit_run_snoc, rev_app_distr. simpl. destruct IH as [IHf IHo].
      destruct (circuit_run_config c ops) as [Hthr _].
      destruct op as [t| |t|]; simpl; [|split; [done|case (_ <? _); reflexivity]| |done].
      + destruct (acquire _ t) as [e|c'] eqn:Ha; [done|].
        by apply acquire_ok in Ha as (-> & -> & _).
      + rewrite Hthr, IHf, IHo. split; [lia|]. simpl.
        destruct (Z.leb_spec threshold (Z.of_nat (length (recent_failures (rev ops))) + 1)),
          (Z.ltb_spec (Z.of_nat (S (length (recent_failures (rev ops))))) threshold); try lia;
          [done|].
        by rewrite (proj2 (Z.ltb_lt _ _)) by lia. }
  destruct Hinv as [_ Ho]. unfold circuit_state. rewrite Ho.
  destruct (circuit_run_config c ops) as [_ ->].
  destruct (_ <? threshold); [done|]. by destruct (recent_failures (rev ops)).
Qed.

(** One probe at a time: once a half-open breaker has admitted a caller,
    it refuses every other caller, however much time passes, until a success,
    a failure or the abandonment of the probe is reported. *)
Theorem half_open_admits_one_probe c now c1 waiting later :
  circuit_state c now = HALF_OPEN → acquire c now = inr c1 →
  Forall (λ op, settles_probe op = false) waiting →
  ∃ msg, acquire (circuit_run c1 waiting) later = inl (CircuitOpenError msg).
Proof.
  intros Hst Hacq Hwait.
  assert (H1 : cb_half_open_inflight c1 = true ∧ cb_opened_at c1 ≠ None).
  { unfold acquire in Hacq. rewrite Hst in Hacq. case_match; [done|]. injection Hacq as <-.
    split; [done|]. unfold circuit_state in Hst. simpl. by destruct (cb_opened_at c). }
  assert (Hbusy : ∀ t, ∃ msg, acquire c1 t = inl (CircuitOpenError msg)).
  { intros t. unfold acquire, circuit_state. destruct H1 as [-> Ho].
    destruct (cb_opened_at c1) as [o|]; [|done].
    destruct (SFleb _ _); eexists; reflexivity. }
  assert (H2 : circuit_run c1 waiting = c1).
  { clear -Hwait Hbusy. unfold circuit_run.
    induction Hwait as [|op ops Hop _ IH]; [done|]. simpl. destruct op as [t| | |]; try done.
    simpl. destruct (Hbusy t) as [msg ->]. exact IH. }
  rewrite H2. apply Hbusy.
Qed.

(** ** Witnesses *)

Definition sample_circuit : CircuitBreaker := mkCircuit 2 (sf_of_Z 30) 0 None false.

Definition two_failures : list circuit_op :=
  [Acquire (sf_of_Z 0); Failure (sf_of_Z 1); Acquire (sf_of_Z 2); Failure (sf_of_Z 3)].

Lemma circuit_follows_history_witness :
  circuit_state (circuit_run sample_circuit two_failures) (sf_of_Z 10) = OPEN ∧
  circuit_state (circuit_run sample_circuit two_failures) (sf_of_Z 33) = HALF_OPEN.
Proof.
  split.
  - rewrite (circuit_follows_history 2 (sf_of_Z 30) sample_circuit two_failures (sf_of_Z 10)
      eq_refl). vm_compute. reflexivity.
  - rewrite (circuit_follows_history 2 (sf_of_Z 30) sample_circuit two_failures (sf_of_Z 33)
      eq_refl). vm_compute. reflexivity.
Defined.

Lemma half_open_admits_one_probe_witness :
  ∃ c1, acquire (circuit_run sample_circuit two_failures) (sf_of_Z 33) = inr c1 ∧
    ∃ msg, acquire (circuit_run c1 [Acquire (sf_of_Z 34)]) (sf_of_Z 99)
           = inl (CircuitOpenError msg).
Proof.
  eexists. split; [vm_compute; reflexivity|].
  eapply (half_open_admits_one_probe (circuit_run sample_circuit two_failures) (sf_of_Z 33));
    [vm_compute; reflexivity|vm_compute; reflexivity|by repeat constructor].
Defined.
