(* ===== verification/Telemetry.v ===== *)
(** * Telemetry

    Models the registries of [observability/runtime.py] and
    [gateway/telemetry.py] with the calls the publisher, the workers and the
    gateway make on them: metrics have names from fixed sets and, of the
    gateway, models of the catalog, so their number is bounded whatever
    tenants do; and recording does not fail the work it describes.  Spans,
    which the tracing library opens, are only checked for their names. *)

From stdpp Require Import base gmap sets list strings.
From Stdlib Require Import ZArith Lia SpecFloat.
From S2P Require Import Prelude PyLib Json Events Identity Work Database EventStore Wire Amounts Floats.
From S2P Require Import ModelContracts Routing GatewayRepository GatewayBudgets Resilience.

Local Open Scope Z_scope.

(** ** The runtime's registry *)

Definition RuntimeMetrics_ALLOWED : list string :=
  ["outbox_lag"; "publish_failures"; "stream_pending_depth"; "oldest_pending_age"; "claim_conflicts";
    "active_leases"; "heartbeat_failures"; "retries"; "dead_letters"; "dlq_depth"; "work_latency";
    "cancellations"; "reconciliation_success"; "reconciliation_failure"]%string.

Abbreviation RuntimeMetrics := (gmap string spec_float).
Definition RuntimeMetrics_init : RuntimeMetrics := ∅.

Abbreviation Rm := (M exn RuntimeMetrics).

Definition runtime_add (name : string) (value : spec_float) : Rm unit :=
  do! raise_if (negb (bool_decide (name ∈ RuntimeMetrics_ALLOWED))) (ValueError "unrecognized bounded metric") ;;
  do! raise_if (SFltb value f64_zero) (ValueError "metric increments cannot be negative") ;;
  modify (λ values, <[name := f64_add (default f64_zero (values !! name)) value]> values).

Definition set_gauge (name : string) (value : spec_float) : Rm unit :=
  do! raise_if (negb (bool_decide (name ∈ RuntimeMetrics_ALLOWED))) (ValueError "unrecognized bounded metric") ;;
  do! raise_if (SFltb value f64_zero) (ValueError "metric gauges cannot be negative") ;;
  modify (λ values, <[name := value]> values).

Definition runtime_snapshot : Rm RuntimeMetrics := gets id.

(** [add(name)] *)
Definition count_one (name : string) : Rm unit := runtime_add name (sf_of_Z 1).

(** The name a span may have. *)
Definition RuntimeTracer_span (operation : string) : result unit :=
  reject_if (negb (bool_decide (operation ∈ ["outbox.publish"; "queue.consume"; "work.claim";
                                            "work.execute"; "work.reconcile"]%string)))
    (ValueError "unrecognized runtime operation").

(** ** Its callers: [PublisherTelemetry] and [RuntimeTelemetry] *)

Definition outbox_lag (seconds : spec_float) : Rm unit := set_gauge "outbox_lag" seconds.
Definition telemetry_failed : Rm unit := count_one "publish_failures".
Definition claim_conflict : Rm unit := count_one "claim_conflicts".
Definition active_leases (value : Z) : Rm unit := set_gauge "active_leases" (sf_of_Z value).
Definition heartbeat_failure : Rm unit := count_one "heartbeat_failures".
Definition telemetry_retry : Rm unit := count_one "retries".
Definition dead_letter : Rm unit := count_one "dead_letters".
Definition telemetry_completed (latency_seconds : spec_float) : Rm unit := runtime_add "work_latency" latency_seconds.
Definition telemetry_cancelled : Rm unit := count_one "cancellations".
Definition reconciliation (outcome : string) : Rm unit :=
  if bool_decide (outcome = "failure"%string) then count_one "reconciliation_failure"
  else count_one "reconciliation_success".

(** ** Numbers

    The gateway adds integers to integers exactly, and floats to either. *)

Inductive number : Type := NInt (z : Z) | NFloat (f : spec_float).

(** [float(n)] *)
Definition to_float (n : number) : result spec_float :=
  match n with
  | NFloat f => inr f
  | NInt z => match sf_of_Z z with S754_infinity _ => inl OverflowError | f => inr f end
  end.

Definition number_add (a b : number) : result number :=
  match a, b with
  | NInt x, NInt y => inr (NInt (x + y))
  | a, b => let? x := to_float a in let? y := to_float b in inr (NFloat (f64_add x y))
  end.

(** [n < 0] *)
Definition negative (n : number) : bool :=
  match n with NInt z => z <? 0 | NFloat f => SFltb f f64_zero end.

(** ** The gateway's registry *)

Definition GatewayMetrics_NAMES : list string :=
  ["attempts"; "latency_ms"; "input_tokens"; "output_tokens"; "cache_read_tokens"; "cache_write_tokens";
    "reasoning_tokens"; "cost_usd"; "route_decisions"; "retries"; "fallbacks"; "rate_limits"; "circuit_open";
    "malformed_responses"; "budget_denials"; "reservation_drift_tokens"; "reservation_drift_cost_usd"]%string.

Record GatewayMetrics : Type := mkGatewayMetrics {
  gm_allowed : gset ModelIdentity;
  gm_values : gmap (string * string * string) number;
}.

Definition GatewayMetrics_init (allowed_models : list ModelIdentity) : GatewayMetrics :=
  mkGatewayMetrics (list_to_set allowed_models) ∅.

Abbreviation Gm := (M exn GatewayMetrics).

Definition metric_key (name : string) (model : ModelIdentity) : string * string * string :=
  (name, mi_provider model, mi_model model).

Definition gateway_add (name : string) (model : ModelIdentity) (value : number) : Gm unit :=
  let! allowed := gets gm_allowed in
  do! raise_if (negb (bool_decide (name ∈ GatewayMetrics_NAMES)) || negb (bool_decide (model ∈ allowed)))
        (ValueError "metric name and model must be bounded catalog values") ;;
  do! raise_if (negative value) (ValueError "metric increments cannot be negative") ;;
  let! values := gets gm_values in
  let! total := lift (number_add (default (NInt 0) (values !! metric_key name model)) value) in
  modify (λ m, mkGatewayMetrics (gm_allowed m) (<[metric_key name model := total]> (gm_values m))).

Definition gateway_usage (model : ModelIdentity) (usage : TokenUsage) : Gm unit :=
  do! gateway_add "input_tokens" model (NInt (input_tokens usage)) ;;
  do! gateway_add "output_tokens" model (NInt (output_tokens usage)) ;;
  do! gateway_add "cache_read_tokens" model (NInt (cache_read_tokens usage)) ;;
  do! gateway_add "cache_write_tokens" model (NInt (cache_write_tokens usage)) ;;
  gateway_add "reasoning_tokens" model (NInt (reasoning_tokens usage)).

Definition gateway_snapshot : Gm (gmap (string * string * string) number) := gets gm_values.

(** The model a span may have. *)
Definition GatewayTracer_attempt (allowed : gset ModelIdentity) (model : ModelIdentity) : result unit :=
  reject_if (negb (bool_decide (model ∈ allowed))) (ValueError "trace model must be a bounded catalog value").

(** What [complete] of [gateway/service.py] records of a settled response. *)
Definition record_settlement (model : ModelIdentity) (pricing : PricingVersion) (response : ModelResponse)
    (token_limit : Z) (reservation_cost : decimal) : Gm unit :=
  do! gateway_usage model (ms_usage response) ;;
  do! gateway_add "latency_ms" model (NInt (ms_latency_ms response)) ;;
  let! charged := lift (cost pricing (ms_usage response)) in
  do! gateway_add "cost_usd" model (NFloat (float_of_dec charged)) ;;
  do! gateway_add "reservation_drift_tokens" model (NInt (token_limit - billable_tokens (ms_usage response))) ;;
  let! drift := lift (dec_sub reservation_cost charged) in
  gateway_add "reservation_drift_cost_usd" model (NFloat (float_of_dec drift)).

(** ** Signs

    Nothing that is added is negative, so no counter is. *)

Definition unsigned (f : spec_float) : Prop := SFltb f f64_zero = false.

Lemma round_unsigned m e l : unsigned (binary_round_aux 53 1024 false m e l).
Proof.
  unfold binary_round_aux. destruct (shr_fexp 53 1024 m e l) as [mrs e'].
  destruct (shr_fexp 53 1024 _ e' loc_Exact) as [mrs' e'']. destruct (shr_m mrs'); [done| |done]. by case_match.
Qed.

Lemma normalize_unsigned m e : 0 ≤ m → unsigned (binary_normalize 53 1024 m e false).
Proof.
  intros Hm. destruct m as [|m|m]; [done| |lia]. unfold binary_normalize, binary_round.
  destruct (shl_align _ _ _). apply round_unsigned.
Qed.

Lemma f64_add_unsigned a b : unsigned a → unsigned b → unsigned (f64_add a b).
Proof.
  unfold f64_add. destruct a as [[]|[]| |[] ma ea], b as [[]|[]| |[] mb eb]; try done.
  intros _ _. unfold SFadd. apply normalize_unsigned. cbn [cond_Zopp]. lia.
Qed.

Lemma float_of_decimal_unsigned m e : unsigned (float_of_decimal false m e).
Proof.
  unfold float_of_decimal. destruct m as [|m|m]; [done| |done]. case_match.
  - apply normalize_unsigned. unfold signed. pose proof (Z.pow_nonneg 10 e). lia.
  - destruct (10 ^ (- e)) as [|q|q]; [done| |done].
    destruct (SFdiv_core_binary _ _ _ _ _ _) as [[mz ez] loc]. apply round_unsigned.
Qed.

(** Amounts of money that are not below zero. *)
Definition dec_unsigned (d : decimal) : Prop :=
  match d with DFin c _ => 0 ≤ c | DInf s => s = false | DNaN => True end.

Lemma float_of_dec_unsigned d : dec_unsigned d → unsigned (float_of_dec d).
Proof.
  destruct d as [c e|s|]; cbn [dec_unsigned float_of_dec]; [|by intros ->|done].
  intros Hc. rewrite (proj2 (Z.ltb_ge _ _)) by done. apply float_of_decimal_unsigned.
Qed.

Lemma half_even_unsigned a b : 0 ≤ a → 0 < b → 0 ≤ div_half_even a b.
Proof.
  intros Ha Hb. unfold div_half_even. pose proof (Z.div_pos (Z.abs a) b). pose proof (Z.sgn_nonneg a).
  apply Z.mul_nonneg_nonneg; [lia|]. case_match; lia.
Qed.

Lemma dec_fix_unsigned c e d : 0 ≤ c → dec_fix c e = inr d → dec_unsigned d.
Proof.
  intros Hc. unfold dec_fix. destruct (c =? 0); [by intros [= <-]|]. case_match; [done|]. case_match.
  - set (q := div_half_even _ _).
    assert (Hq : 0 ≤ q) by (apply half_even_unsigned; [done|apply Z.pow_pos_nonneg; lia]).
    clearbody q. destruct (prec <? ndigits q); case_match; intros Hd; simplify_eq; cbn [dec_unsigned]; [|done].
    by apply Z.div_pos.
  - by intros [= <-].
Qed.

Lemma rescale_unsigned c e k : 0 ≤ c → 0 ≤ rescale c e k.
Proof. intros Hc. unfold rescale, pow10. pose proof (Z.pow_nonneg 10 (e - k)). lia. Qed.

Lemma dec_add_unsigned a b d : dec_unsigned a → dec_unsigned b → dec_add a b = inr d → dec_unsigned d.
Proof.
  destruct a as [c e|s|], b as [c' e'|s'|]; cbn [dec_unsigned dec_add]; intros Ha Hb; try (by intros [= <-]).
  - apply dec_fix_unsigned. pose proof (rescale_unsigned c e (Z.min e e') Ha).
    pose proof (rescale_unsigned c' e' (Z.min e e') Hb). lia.
  - destruct (Bool.eqb s s'); [by intros [= <-]|done].
Qed.

Lemma dec_mul_unsigned a b d : dec_unsigned a → dec_unsigned b → dec_mul a b = inr d → dec_unsigned d.
Proof.
  assert (Hs : ∀ c, 0 ≤ c → sign_of c = false) by (intros c Hc; by apply Z.ltb_ge).
  destruct a as [c e|s|], b as [c' e'|s'|]; cbn [dec_unsigned dec_mul]; intros Ha Hb; try (by intros [= <-]).
  - apply dec_fix_unsigned. lia.
  - case_match; [done|]. intros [= <-]. cbn [dec_unsigned]. by rewrite Hb, Hs.
  - case_match; [done|]. intros [= <-]. cbn [dec_unsigned]. by rewrite Ha, Hs.
  - intros [= <-]. cbn [dec_unsigned]. by rewrite Ha, Hb.
Qed.

Lemma strip_unsigned n c e : 0 ≤ c → 0 ≤ (strip_zeros n c e).1.
Proof.
  revert c e. induction n as [|n IH]; intros c e Hc; [done|]. cbn [strip_zeros]. case_match; [|done].
  apply IH. by apply Z.div_pos.
Qed.

Lemma dec_div_unsigned a n d : 0 < n → dec_unsigned a → dec_div_int a n = inr d → dec_unsigned d.
Proof.
  intros Hn. destruct a as [c e|s|]; cbn [dec_unsigned dec_div_int]; intros Ha; try (by intros [= <-]).
  destruct (c =? 0); [by apply dec_fix_unsigned|]. cbv zeta.
  set (shift := ndigits n - ndigits c + prec + 1). set (x := e - shift).
  assert (Hcore : ∀ num den, 0 ≤ num → 0 < den →
    (if num mod den =? 0 then let '(q, x) := strip_zeros (Z.to_nat (e - x)) (num / den) x in dec_fix (Z.sgn c * q) x
     else dec_fix (Z.sgn c * (if num / den mod 5 =? 0 then num / den + 1 else num / den)) x) = inr d → dec_unsigned d).
  { intros num den Hnum Hden. assert (Hq : 0 ≤ num / den) by by apply Z.div_pos.
    pose proof (strip_unsigned (Z.to_nat (e - x)) (num / den) x Hq) as Hstrip.
    assert (Hsgn : 0 ≤ Z.sgn c) by by apply Z.sgn_nonneg.
    case_match; [destruct (strip_zeros _ _ _) as [q y]; cbn [fst] in Hstrip|];
      apply dec_fix_unsigned; apply Z.mul_nonneg_nonneg; try done. case_match; lia. }
  destruct (Z.leb_spec 0 shift); apply Hcore; try done; unfold pow10.
  - apply Z.mul_nonneg_nonneg; [lia|by apply Z.pow_nonneg].
  - lia.
  - apply Z.mul_pos_pos; [done|]. apply Z.pow_pos_nonneg; lia.
Qed.

Lemma dec_lt_zero d : dec_lt d (DFin 0 0) = inr false → dec_unsigned d.
Proof.
  unfold dec_lt, dec_cmp. destruct d as [c e|[]|]; cbn [rbind dec_unsigned]; try done.
  intros [= Hc]. revert Hc. assert (Hpow : 0 < pow10 (e - Z.min e 0)) by (apply Z.pow_pos_nonneg; lia).
  destruct (Z.compare_spec (rescale c e (Z.min e 0)) 0); intros Hc; try done;
    (apply (Z.mul_nonneg_cancel_r c (pow10 (e - Z.min e 0))); [done|]); unfold rescale in *; lia.
Qed.

Lemma prices_unsigned l : any_negative l = inr false → Forall dec_unsigned l.
Proof.
  induction l as [|d l IH]; cbn [any_negative]; [constructor|]. intros H.
  apply rbind_ok in H as (b & Hb & H). destruct b; [done|]. constructor; [by apply dec_lt_zero|by apply IH].
Qed.

Lemma cost_unsigned pricing usage d :
  PricingVersion_post_init pricing = inr pricing → TokenUsage_post_init usage = inr usage →
  cost pricing usage = inr d → dec_unsigned d.
Proof.
  unfold PricingVersion_post_init, TokenUsage_post_init. intros Hp Hu Hc.
  apply rbind_ok in Hp as (_ & _ & Hp). apply rbind_ok in Hp as (b & Hb & Hp). destruct b; [done|].
  apply prices_unsigned in Hb. unfold prices in Hb. rewrite !Forall_cons in Hb. destruct Hb as (H1 & H2 & H3 & H4 & H5 & _).
  apply rbind_ok in Hu as (u & Hu & _). unfold reject_if, usage_fields in Hu. cbn [existsb] in Hu.
  destruct (_ || _) eqn:Hneg in Hu; [done|]. bool_props.
  unfold cost, dec_of_int in Hc.
  repeat (apply rbind_ok in Hc as (? & ? & Hc)).
  repeat match goal with
  | H : dec_mul _ _ = inr ?x |- _ => apply dec_mul_unsigned in H; [|cbn [dec_unsigned]; lia|done]
  end.
  repeat match goal with
  | H : dec_add _ _ = inr ?x |- _ => apply dec_add_unsigned in H; [|done|done]
  end.
  by eapply dec_div_unsigned, Hc.
Qed.

(** What a reservation has left of an amount within it. *)
Lemma dec_sub_unsigned a b d : dec_unsigned b → dec_gt b a = inr false → dec_sub a b = inr d → dec_unsigned d.
Proof.
  unfold dec_gt, dec_lt, dec_cmp, dec_sub. destruct a as [c e|[]|], b as [c' e'|[]|];
    cbn [dec_unsigned rbind dec_neg dec_add Bool.eqb negb]; intros Hb Hgt; try done; try (by intros [= <-]).
  apply dec_fix_unsigned. injection Hgt as Hgt. revert Hgt.
  destruct (Z.compare_spec (rescale c e (Z.min e e')) (rescale c' e' (Z.min e e'))); intros Hc; try done;
    unfold rescale in *; lia.
Qed.

Lemma to_float_unsigned n f : negative n = false → to_float n = inr f → unsigned f.
Proof.
  destruct n as [z|g]; cbn [negative to_float]; [|by intros Hg [= <-]].
  intros Hz%Z.ltb_ge. pose proof (normalize_unsigned z 0 Hz) as Hu. change (binary_normalize _ _ _ _ _) with (sf_of_Z z) in Hu.
  destruct (sf_of_Z z); try done; by intros [= <-].
Qed.

Lemma number_add_unsigned a b n : negative a = false → negative b = false → number_add a b = inr n → negative n = false.
Proof.
  intros Ha Hb. assert (Hf : (let? x := to_float a in let? y := to_float b in inr (NFloat (f64_add x y))) = inr n →
    negative n = false).
  { intros H. apply rbind_ok in H as (x & Hx & H). apply rbind_ok in H as (y & Hy & H). injection H as <-.
    apply f64_add_unsigned; [by eapply to_float_unsigned, Hx|by eapply to_float_unsigned, Hy]. }
  destruct a, b; [|exact Hf..]. cbn [number_add negative] in *. intros [= <-]. cbn [negative]. bool_props. apply Z.ltb_ge. lia.
Qed.

(** ** Bounded registries *)

(** The calls on a registry. *)
Inductive runtime_call : Type :=
| RAdd (name : string) (value : spec_float)
| RGauge (name : string) (value : spec_float).

Definition runtime_call_run (c : runtime_call) : Rm unit :=
  match c with RAdd name value => runtime_add name value | RGauge name value => set_gauge name value end.

Inductive gateway_call : Type :=
| GAdd (name : string) (model : ModelIdentity) (value : number)
| GUsage (model : ModelIdentity) (usage : TokenUsage).

Definition gateway_call_run (c : gateway_call) : Gm unit :=
  match c with GAdd name model value => gateway_add name model value | GUsage model usage => gateway_usage model usage end.

(** A history of calls, whatever each of them answers. *)
Definition history {S C} (run : C → M exn S unit) (calls : list C) (s : S) : S :=
  foldl (λ s c, (run c s).2) s calls.

Lemma history_invariant {S C} (run : C → M exn S unit) (P : S → Prop) :
  (∀ c s, P s → P (run c s).2) → ∀ calls s, P s → P (history run calls s).
Proof. intros Hrun calls. induction calls as [|c calls IH]; intros s Hs; [done|]. by apply IH, Hrun. Qed.

Definition runtime_bounded (s : RuntimeMetrics) : Prop :=
  ∀ name v, s !! name = Some v → name ∈ RuntimeMetrics_ALLOWED ∧ unsigned v.

Lemma runtime_stays c s : runtime_bounded s → runtime_bounded (runtime_call_run c s).2.
Proof.
  intros Hs. destruct c as [name value|name value]; cbn [runtime_call_run]; unfold runtime_add, set_gauge, bind, raise_if;
    (case_bool_decide as Hn; cbn [negb]; [|done]); destruct (SFltb value f64_zero) eqn:Hv; try done;
    unfold modify, ret; cbn [snd]; intros key v; (destruct (decide (key = name)) as [->|Hk];
      [rewrite lookup_insert_eq; intros [= <-]; split; [done|]|rewrite lookup_insert_ne by done; apply Hs]).
  - apply f64_add_unsigned; [|done]. destruct (s !! name) as [old|] eqn:Hold; [|done]. by apply (Hs name).
  - done.
Qed.

(** Every metric the registry may hold. *)
Definition gateway_keys (models : list ModelIdentity) : list (string * string * string) :=
  GatewayMetrics_NAMES ≫= λ name, metric_key name <$> models.

Lemma elem_gateway_keys models name model :
  metric_key name model ∈ gateway_keys models ↔ name ∈ GatewayMetrics_NAMES ∧ model ∈ models.
Proof.
  unfold gateway_keys. rewrite list_elem_of_bind. split.
  - intros (name' & Hin & Hn). apply list_elem_of_fmap in Hin as (model' & Heq & Hm).
    injection Heq as <- Hp Hq. split; [done|]. by destruct model, model'; simplify_eq/=.
  - intros [Hn Hm]. exists name. split; [|done]. apply list_elem_of_fmap. by exists model.
Qed.

Definition gateway_bounded (models : list ModelIdentity) (s : GatewayMetrics) : Prop :=
  gm_allowed s = list_to_set models ∧ ∀ key v, gm_values s !! key = Some v → key ∈ gateway_keys models ∧ negative v = false.

Lemma gateway_add_stays models name model value s : gateway_bounded models s →
  gateway_bounded models (gateway_add name model value s).2.
Proof.
  intros [Ha Hs]. unfold gateway_add, bind, gets, raise_if. rewrite Ha.
  case_bool_decide as Hn; cbn [negb orb]; [|done]. case_bool_decide as Hm; cbn [negb]; [|done].
  destruct (negative value) eqn:Hv; [done|]. unfold lift, ret. destruct (number_add _ _) as [e|total] eqn:Hadd; [done|].
  unfold modify. cbn [snd]. split; [done|]. cbn [gm_values]. intros key v.
  destruct (decide (key = metric_key name model)) as [->|Hk].
  - rewrite lookup_insert_eq. intros [= <-]. split.
    + apply elem_gateway_keys. split; [done|]. by apply elem_of_list_to_set in Hm.
    + eapply number_add_unsigned, Hadd; [|done].
      destruct (gm_values s !! metric_key name model) as [old|] eqn:Hold; [|done]. by apply (Hs _ _ Hold).
  - rewrite lookup_insert_ne by done. apply Hs.
Qed.

Lemma bind_stays {S A B} (P : S → Prop) (m : M exn S A) (k : A → M exn S B) s :
  P s → (∀ s, P s → P (m s).2) → (∀ a s, P s → P (k a s).2) → P (bind m k s).2.
Proof. intros Hs Hm Hk. unfold bind. specialize (Hm s Hs). destruct (m s) as [[e|a] s']; [done|]. by apply Hk. Qed.

Lemma gateway_stays models c s : gateway_bounded models s → gateway_bounded models (gateway_call_run c s).2.
Proof.
  intros Hs. destruct c; cbn [gateway_call_run]; [by apply gateway_add_stays|]. unfold gateway_usage.
  do 4 (apply bind_stays; [done|intros; by apply gateway_add_stays|clear s Hs; intros _ s Hs]).
  by apply gateway_add_stays.
Qed.

(** A finite map whose keys are listed is no longer than the list. *)
Lemma listed_size `{Countable K} {A} (m : gmap K A) (keys : list K) :
  (∀ key, is_Some (m !! key) → key ∈ keys) → (size m ≤ length keys)%nat.
Proof.
  intros Hm. rewrite <- (size_dom (D := gset K)). unfold size, set_size. cbn [compose].
  apply submseteq_length, NoDup_submseteq.
  - apply NoDup_elements.
  - intros key Hk. apply elem_of_elements, elem_of_dom in Hk. by apply Hm.
Qed.

(** Whatever is recorded, the registries are bounded: the runtime's holds
    at most its 14 names, the gateway's at most its 17 names for each model it
    was made with, no key names anything else, and no value is negative. *)
Theorem metrics_bounded models runtime_calls gateway_calls :
  let runtime := history runtime_call_run runtime_calls RuntimeMetrics_init in
  let gateway := history gateway_call_run gateway_calls (GatewayMetrics_init models) in
  (∀ name v, runtime !! name = Some v → name ∈ RuntimeMetrics_ALLOWED ∧ SFltb v f64_zero = false) ∧
  (size runtime ≤ 14)%nat ∧
  (∀ name provider model v, gm_values gateway !! (name, provider, model) = Some v →
     name ∈ GatewayMetrics_NAMES ∧ mkModelIdentity provider model ∈ models ∧ negative v = false) ∧
  (size (gm_values gateway) ≤ 17 * length models)%nat.
Proof.
  intros runtime gateway.
  assert (Hr : runtime_bounded runtime).
  { apply (history_invariant runtime_call_run runtime_bounded); [apply runtime_stays|].
    intros name v. unfold RuntimeMetrics_init. by rewrite lookup_empty. }
  assert (Hg : gateway_bounded models gateway).
  { apply (history_invariant gateway_call_run (gateway_bounded models)); [apply gateway_stays|].
    split; [done|]. intros key v. cbn [gm_values GatewayMetrics_init]. by rewrite lookup_empty. }
  destruct Hg as [_ Hg]. split; [exact Hr|]. split; [|split].
  - apply (listed_size runtime RuntimeMetrics_ALLOWED). intros key [v Hv]. by apply (Hr key v).
  - intros name provider model v Hin. apply Hg in Hin as [Hin Hv].
    apply (elem_gateway_keys models name (mkModelIdentity provider model)) in Hin as [Hn Hm]. by split_and!.
  - transitivity (length (gateway_keys models)); [apply listed_size; intros key [v Hv]; by apply (Hg key v)|].
    unfold gateway_keys. change 17%nat with (length GatewayMetrics_NAMES).
    generalize GatewayMetrics_NAMES. intros names. induction names as [|name names IH]; [done|].
    rewrite bind_cons, length_app, length_fmap. cbn [length]. lia.
Qed.

(** ** Recording a settled call *)

Section Settlement.
Context (model : ModelIdentity).

(** The counters of tokens and milliseconds are integers, those of money
    floats. *)
Definition float_metrics : list string := ["cost_usd"; "reservation_drift_cost_usd"]%string.
Definition of_kind (name : string) (v : number) : Prop :=
  match v with NFloat _ => name ∈ float_metrics | NInt _ => name ∉ float_metrics end.

Record tallied (allowed : gset ModelIdentity) (s : GatewayMetrics) : Prop := {
  ta_allowed : gm_allowed s = allowed;
  ta_kind : ∀ name m v, gm_values s !! metric_key name m = Some v → of_kind name v;
}.

(** The value of an integer counter. *)
Definition count (name : string) (s : GatewayMetrics) : Z :=
  match gm_values s !! metric_key name model with Some (NInt z) => z | _ => 0 end.

Lemma recorded name value s total allowed : name ∈ GatewayMetrics_NAMES → model ∈ allowed →
  negative value = false → tallied allowed s → of_kind name total →
  number_add (default (NInt 0) (gm_values s !! metric_key name model)) value = inr total →
  ∃ s', gateway_add name model value s = (inr tt, s') ∧ tallied allowed s' ∧
    gm_values s' = <[metric_key name model := total]> (gm_values s).
Proof.
  intros Hn Hm Hv [Ha Hk] Ht Hadd. unfold gateway_add, bind, gets, raise_if. rewrite Ha, !bool_decide_true by done.
  cbn [negb orb]. rewrite Hv. unfold lift, ret. rewrite Hadd. eexists. split; [reflexivity|].
  cbn [gm_values]. split; [|done]. split; [done|]. cbn [gm_values]. intros name' m v.
  destruct (decide (metric_key name' m = metric_key name model)) as [Heq|Hne].
  - rewrite Heq, lookup_insert_eq. intros [= <-]. by injection Heq as ->.
  - rewrite lookup_insert_ne by done. apply Hk.
Qed.

Lemma add_int name z s allowed : name ∈ GatewayMetrics_NAMES → name ∉ float_metrics → model ∈ allowed → 0 ≤ z →
  tallied allowed s → ∃ s', gateway_add name model (NInt z) s = (inr tt, s') ∧ tallied allowed s' ∧
    ∀ name', count name' s' = count name' s + (if bool_decide (name' = name) then z else 0).
Proof.
  intros Hn Hi Hm Hz Hs.
  assert (Hold : default (NInt 0) (gm_values s !! metric_key name model) = NInt (count name s)).
  { unfold count. destruct (gm_values s !! metric_key name model) as [[y|f]|] eqn:Hv; [done| |done].
    by destruct (Hi (ta_kind _ _ Hs _ _ _ Hv)). }
  destruct (recorded name (NInt z) s (NInt (count name s + z)) allowed) as (s' & Hrun & Hs' & Hvalues); try done;
    [by apply Z.ltb_ge|by rewrite Hold|]. exists s'. split; [done|]. split; [done|]. intros name'.
  unfold count. rewrite Hvalues. case_bool_decide as Heq; [subst; by rewrite lookup_insert_eq|].
  rewrite lookup_insert_ne by (intros [= ?]; congruence). lia.
Qed.

Lemma add_float name f s allowed : name ∈ GatewayMetrics_NAMES → name ∈ float_metrics → model ∈ allowed → unsigned f →
  tallied allowed s → ∃ s', gateway_add name model (NFloat f) s = (inr tt, s') ∧ tallied allowed s' ∧
    ∀ name', name' ∉ float_metrics → count name' s' = count name' s.
Proof.
  intros Hn Hi Hm Hf Hs.
  assert (Hadd : ∃ total, number_add (default (NInt 0) (gm_values s !! metric_key name model)) (NFloat f)
                          = inr (NFloat total)).
  { destruct (gm_values s !! metric_key name model) as [[y|g]|] eqn:Hv; [|by eexists..].
    by destruct (ta_kind _ _ Hs _ _ _ Hv). }
  destruct Hadd as [total Hadd]. destruct (recorded name (NFloat f) s (NFloat total) allowed) as (s' & Hrun & Hs' & Hvalues);
    try done. exists s'. split; [done|]. split; [done|]. intros name' Hname'.
  unfold count. rewrite Hvalues, lookup_insert_ne; [done|]. intros [= ->]. done.
Qed.

(** The counter [name] is recorded next; the counts move as [add_int] says. *)
Local Ltac record_int :=
  cbv beta;
  let step name z s :=
    let s' := fresh "s" in let Hrun := fresh "Hrun" in let Hs' := fresh "Htallied" in let Hc := fresh "Hcount" in
    destruct (add_int name z s _ ltac:(by apply (bool_decide_unpack _)) ltac:(by apply (bool_decide_unpack _))
      ltac:(eassumption) ltac:(lia) ltac:(eassumption)) as (s' & Hrun & Hs' & Hc);
    try (erewrite bind_run by exact Hrun) in
  match goal with
  | |- context [bind (gateway_add ?name model (NInt ?z)) _ ?s] => step name z s
  | |- context [gateway_add ?name model (NInt ?z) ?s] => step name z s
  end.

(** Tests of literal names are evaluated. *)
Local Ltac names :=
  repeat match goal with |- context [bool_decide ?P] =>
    let b := eval vm_compute in (bool_decide P) in change (bool_decide P) with b end.

Lemma usage_recorded usage s allowed : Forall (λ v, 0 ≤ v) (usage_fields usage) → model ∈ allowed → tallied allowed s →
  ∃ s', gateway_usage model usage s = (inr tt, s') ∧ tallied allowed s' ∧
    count "input_tokens" s' = count "input_tokens" s + input_tokens usage ∧
    count "output_tokens" s' = count "output_tokens" s + output_tokens usage ∧
    count "reservation_drift_tokens" s' = count "reservation_drift_tokens" s.
Proof.
  unfold usage_fields. rewrite !Forall_cons. intros (H1 & H2 & H3 & H4 & H5 & _) Hm Hs. unfold gateway_usage.
  do 5 record_int. exists s4. split; [done|]. split; [done|].
  rewrite !Hcount3, !Hcount2, !Hcount1, !Hcount0, !Hcount. names. split_and!; lia.
Qed.

(** What [succeed] of the repository checked before it answered. *)
Lemma succeed_checked `{PyRepr} context request lease reservation response pricing at_ r r' :
  gw_succeed context request lease reservation response pricing at_ r = (inr tt, r') →
  ∃ charged drift, cost pricing (ms_usage response) = inr charged ∧
    billable_tokens (ms_usage response) ≤ br_token_limit reservation ∧
    dec_gt charged (br_cost_limit_usd reservation) = inr false ∧
    dec_sub (br_cost_limit_usd reservation) charged = inr drift.
Proof.
  unfold gw_succeed. intros Hrun. apply bind_ok in Hrun as (? & ? & _ & Hrun).
  apply bind_ok in Hrun as ([tokens charged] & ? & Hactual & Hrun). injection Hactual as Hactual <-.
  do 5 (apply bind_ok in Hrun as (? & ? & _ & Hrun)).
  cbv zeta in Hrun. apply bind_ok in Hrun as (drift & ? & Hdrift & _). injection Hdrift as Hdrift _.
  unfold _actual_usage, _usage_totals in Hactual.
  apply rbind_ok in Hactual as ([tokens' charged'] & Htotals & Hactual).
  apply rbind_ok in Htotals as (c & Hc & Htotals). injection Htotals as <- <-.
  apply rbind_ok in Hactual as (? & Hwithin & Hactual). apply rbind_ok in Hactual as (over & Hover & Hactual).
  unfold reject_if in *. destruct (_ <? _) eqn:Hlt in Hwithin; [done|]. apply Z.ltb_ge in Hlt.
  destruct over; [done|]. injection Hactual as <- <-. by exists c, drift.
Qed.

(** Recording the metrics of a call never fails the call: when the
    repository has settled a response, every counter is recorded — what was
    used of the reservation is within it, so no drift is negative — and the
    counters of tokens move by exactly what was used and what was left. *)
Theorem settlement_recorded `{PyRepr} context request lease reservation response pricing at_ r r' allowed s :
  gw_succeed context request lease reservation response pricing at_ r = (inr tt, r') →
  PricingVersion_post_init pricing = inr pricing → TokenUsage_post_init (ms_usage response) = inr (ms_usage response) →
  0 ≤ ms_latency_ms response → model ∈ allowed → tallied allowed s →
  ∃ s', record_settlement model pricing response (br_token_limit reservation) (br_cost_limit_usd reservation) s
        = (inr tt, s') ∧ tallied allowed s' ∧
    count "input_tokens" s' = count "input_tokens" s + input_tokens (ms_usage response) ∧
    count "output_tokens" s' = count "output_tokens" s + output_tokens (ms_usage response) ∧
    count "reservation_drift_tokens" s' = count "reservation_drift_tokens" s
      + (br_token_limit reservation - billable_tokens (ms_usage response)).
Proof.
  intros Hsucceed Hpricing Husage Hlatency Hm Hs.
  apply succeed_checked in Hsucceed as (charged & drift & Hcost & Hwithin & Hover & Hdrift).
  assert (Hcharged : dec_unsigned charged) by by eapply cost_unsigned.
  pose proof (dec_sub_unsigned _ _ _ Hcharged Hover Hdrift) as Hleft.
  assert (Hfields : Forall (λ v, 0 ≤ v) (usage_fields (ms_usage response))).
  { unfold TokenUsage_post_init in Husage. apply rbind_ok in Husage as (u & Hu & _). unfold reject_if, usage_fields in *.
    cbn [existsb] in Hu. destruct (_ || _) eqn:Hneg in Hu; [done|]. bool_props. by repeat constructor. }
  unfold record_settlement.
  destruct (usage_recorded (ms_usage response) s allowed Hfields Hm Hs) as (s1 & Hrun & Ht1 & Hi & Ho & Hd).
  erewrite bind_run by exact Hrun. record_int.
  assert (Hlift : ∀ {S A} (a : A) (x : S), lift (E := exn) (inr a) x = (inr a, x)) by done.
  rewrite Hcost. erewrite bind_run by apply Hlift.
  destruct (add_float "cost_usd" (float_of_dec charged) s0 allowed) as (s2 & Hrun2 & Ht2 & Hcount2);
    [by apply (bool_decide_unpack _)..|done|by apply float_of_dec_unsigned|done|].
  erewrite bind_run by exact Hrun2. record_int.
  rewrite Hdrift. erewrite bind_run by apply Hlift.
  destruct (add_float "reservation_drift_cost_usd" (float_of_dec drift) s3 allowed) as (s4 & Hrun4 & Ht4 & Hcount4);
    [by apply (bool_decide_unpack _)..|done|by apply float_of_dec_unsigned|done|].
  exists s4. split; [done|]. split; [done|].
  rewrite !Hcount4, !Hcount0, !Hcount2, !Hcount by by apply (bool_decide_unpack _).
  names. rewrite Hi, Ho, Hd. split_and!; lia.
Qed.
End Settlement.

(** A settled response of the sample reservation, on a fresh registry. *)
Lemma settlement_recorded_witness :
  ∃ s', record_settlement (ms_model sample_response) sample_pricing sample_response 300 (DFin 3 (-3))
          (GatewayMetrics_init [ms_model sample_response]) = (inr tt, s') ∧
    count (ms_model sample_response) "reservation_drift_tokens" s' = 90.
Proof.
  assert (Hs : tallied {[ms_model sample_response]} (GatewayMetrics_init [ms_model sample_response])).
  { split; [by apply leibniz_equiv, set_equiv; set_solver|]. intros name m v. cbn [gm_values GatewayMetrics_init].
    by rewrite lookup_empty. }
  assert (Hanswer : (sample_finish reserved).1 = inr tt) by (vm_compute; reflexivity).
  destruct (sample_finish reserved) as [answer after] eqn:Hrun. cbn [fst] in Hanswer. subst answer.
  unfold sample_finish in Hrun.
  assert (Hp : PricingVersion_post_init sample_pricing = inr sample_pricing) by (vm_compute; reflexivity).
  assert (Hu : TokenUsage_post_init (ms_usage sample_response) = inr (ms_usage sample_response)) by reflexivity.
  assert (Hl : 0 ≤ ms_latency_ms sample_response) by (cbn; lia).
  assert (Hm : ms_model sample_response ∈ ({[ms_model sample_response]} : gset ModelIdentity))
    by by apply elem_of_singleton.
  destruct (settlement_recorded (ms_model sample_response) gw_context sample_model_request gw_lease sample_reservation
    sample_response sample_pricing (Dt.Aware 31000000) reserved after _ _ Hrun Hp Hu Hl Hm Hs)
    as (s' & Hrecord & _ & _ & _ & Hdrift).
  exists s'. split; [exact Hrecord|]. rewrite Hdrift. reflexivity.
Defined.

(** ** The other callers *)

Definition unsigned_max x : unsigned (f64_max f64_zero x).
Proof. unfold f64_max. destruct x as [[]|[]| |[] m e]; done. Qed.

(** What the publisher and the workers record is accepted: lags and latencies
    are cut at zero before they are recorded. *)
Lemma telemetry_accepted (s : RuntimeMetrics) seconds value : 0 ≤ value →
  Forall (λ m : Rm unit, (m s).1 = inr tt)
    [outbox_lag (f64_max f64_zero seconds); telemetry_failed; claim_conflict; active_leases value;
     heartbeat_failure; telemetry_retry; dead_letter; telemetry_completed (f64_max f64_zero seconds);
     telemetry_cancelled; reconciliation "failure"; reconciliation "success"].
Proof.
  intros Hv. pose proof (unsigned_max seconds) as Hmax. pose proof (normalize_unsigned value 0 Hv) as Hvalue.
  assert (Hgauge : ∀ name v, name ∈ RuntimeMetrics_ALLOWED → unsigned v → (set_gauge name v s).1 = inr tt).
  { intros name v Hn Hu. unfold set_gauge, bind, raise_if. rewrite bool_decide_true by done. cbn [negb].
    by rewrite Hu. }
  assert (Hadd : ∀ name v, name ∈ RuntimeMetrics_ALLOWED → unsigned v → (runtime_add name v s).1 = inr tt).
  { intros name v Hn Hu. unfold runtime_add, bind, raise_if. rewrite bool_decide_true by done. cbn [negb].
    by rewrite Hu. }
  assert (Hone : ∀ name, name ∈ RuntimeMetrics_ALLOWED → (count_one name s).1 = inr tt) by (intros; by apply Hadd).
  rewrite !Forall_cons. split_and!; [..|constructor];
    first [apply Hgauge|apply Hone|apply Hadd]; first [done|by apply (bool_decide_unpack _)].
Qed.
