(* ===== verification/GatewayService.v ===== *)
(** * The gateway service

    Models [gateway/service.py] and [gateway/structured.py]: a model call is
    routed, budgeted, attempted on the candidates in order and settled.  The
    repository is used through the class [GatewayRepo], the protocol of
    [gateway/repository.py].

    One call is modelled; other tasks of the process may change repository
    and controls whenever it waits ([or_others]).  Clocks, provider replies
    and cancellation are oracles as well, read at increasing ticks.  Metrics
    and spans are left out; a trace records the reservation, the permits and
    the provider calls of the call. *)

From stdpp Require Import base gmap list strings.
From Stdlib Require Import ZArith Lia SpecFloat.
From S2P Require Import Prelude PyLib Json Events Identity Work Amounts Floats Backoff.
From S2P Require Import Policy ModelContracts Routing GatewayRepository Resilience.

Local Open Scope Z_scope.

(** ** The repository protocol *)

Class GatewayRepo (R : Type) : Type := {
  repo_completed : TenantContext → ModelRequest → WorkLease → Dt.datetime →
    M exn R (option ModelResponse);
  repo_reserve : TenantContext → ModelRequest → WorkLease → RouteDecision → QuotaLimits → Z →
    decimal → string → Dt.datetime → M exn R BudgetReservation;
  repo_record_attempt : TenantContext → ModelRequest → WorkLease → BudgetReservation → string →
    string → Z → Z → Dt.datetime → M exn R unit;
  repo_succeed : TenantContext → ModelRequest → WorkLease → BudgetReservation → ModelResponse →
    PricingVersion → Dt.datetime → M exn R unit;
  repo_record_usage_failure : TenantContext → ModelRequest → WorkLease → BudgetReservation →
    ModelResponse → PricingVersion → gateway_error → Dt.datetime → M exn R unit;
  repo_record_attempt_failure : TenantContext → ModelRequest → WorkLease → BudgetReservation →
    gateway_error → string → string → Z → Z → Dt.datetime → M exn R unit;
  repo_fail : TenantContext → ModelRequest → WorkLease → BudgetReservation → gateway_error →
    Dt.datetime → M exn R unit;
}.

(** ** Schema validation

    The JSON Schema library is a parameter: whether a schema is one, and
    whether a value satisfies it. *)

Class JsonSchemaLibrary : Type := {
  check_schema : pyval → bool;
  schema_accepts : pyval → pyval → bool;
}.

Section Structured.
Context `{JsonSchemaLibrary}.

Definition validate_schema (schema : JsonSchema) : result unit :=
  reject_if (negb (check_schema (thaw_json (PProxy (js_schema schema)))))
    (ModelGatewayError (gateway_raise SCHEMA "invalid_json_schema" false false)).

Definition validate_object (value : pydict) (schema : JsonSchema) : result pydict :=
  let? _ := validate_schema schema in
  raise! ModelGatewayError (gateway_raise SCHEMA "structured_output_validation_failed" false false)
    when! negb (schema_accepts (thaw_json (PProxy (js_schema schema))) (thaw_json (PProxy value))) ;;
  inr value.

(** [for x in l: check(x)] *)
Fixpoint check_each {A} (check : A → result unit) (l : list A) : result unit :=
  match l with
  | [] => inr tt
  | x :: l => let? _ := check x in check_each check l
  end.

Definition _validate_request (request : ModelRequest) : result unit :=
  let? _ := match mq_response_schema request with
            | Some schema => validate_schema schema
            | None => inr tt
            end in
  check_each (λ tool, validate_schema (td_input_schema tool)) (mq_tools request).

(** [tool_schemas[name]]: of several tools of a name the last. *)
Definition tool_schema (tools : list ToolDefinition) (name : string) : option JsonSchema :=
  td_input_schema <$> find (λ t, bool_decide (td_name t = name)) (rev tools).

Definition validate_part (request : ModelRequest) (part : ContentPart) : result unit :=
  match part with
  | ToolCallPart proposal =>
      match tool_schema (mq_tools request) (tc_tool_name proposal) with
      | None => inl (ambiguous_failure SCHEMA "unknown_tool_call")
      | Some schema => let? _ := validate_object (tc_arguments proposal) schema in inr tt
      end
  | _ => inr tt
  end.

Definition _validate_response (request : ModelRequest) (response : ModelResponse)
    (expected_model : ModelIdentity) : result unit :=
  raise! ambiguous_failure MALFORMED_RESPONSE "response_request_id_mismatch"
    when! negb (bool_decide (ms_request_id response = mq_request_id request)) ;;
  raise! ambiguous_failure MALFORMED_RESPONSE "response_model_mismatch"
    when! negb (bool_decide (ms_model response = expected_model)) ;;
  let? _ := match mq_response_schema request with
            | None => inr tt
            | Some schema =>
                match ms_structured_output response with
                | None => inl (ambiguous_failure SCHEMA "structured_output_missing")
                | Some output => let? _ := validate_object output schema in inr tt
                end
            end in
  check_each (validate_part request) (ms_content response).
End Structured.

Definition _provider_health_failure (e : gateway_error) : bool :=
  match ge_error_class e with
  | RATE_LIMIT => negb (bool_decide (ge_code e = "local_rate_limit"%string))
  | MODEL_TIMEOUT => negb (bool_decide (ge_code e = "gateway_concurrency_timeout"%string))
  | TRANSIENT | PROVIDER_UNAVAILABLE | MALFORMED_RESPONSE | PROVIDER_BUG => true
  | _ => false
  end.

(** ** State *)

Inductive action : Type :=
| Reserved (id : uuid)
| PermitTaken (model : ModelIdentity)
| PermitReturned (model : ModelIdentity)
| Called (request : ModelRequest) (model : ModelIdentity).

(** The surroundings of a call, by tick. *)
Record Oracles (R : Type) : Type := {
  or_clock : nat → Dt.datetime;
  or_loop_time : nat → spec_float;
  or_reply : nat → ModelRequest → ModelIdentity → result ModelResponse;
  or_cancelled : nat → bool;
  or_others : nat → R * ProviderControls → R * ProviderControls;
}.
Arguments or_clock {R}.
Arguments or_loop_time {R}.
Arguments or_reply {R}.
Arguments or_cancelled {R}.
Arguments or_others {R}.

(** Repository and controls, the local flags [acquired] and
    [attempt_started] of the attempt, the tick and the trace. *)
Record Service (R : Type) : Type := mkService {
  sv_repo : R;
  sv_controls : ProviderControls;
  sv_acquired : bool;
  sv_started : bool;
  sv_tick : nat;
  sv_trace : list action;
}.
Arguments mkService {R}.
Arguments sv_repo {R}.
Arguments sv_controls {R}.
Arguments sv_acquired {R}.
Arguments sv_started {R}.
Arguments sv_tick {R}.
Arguments sv_trace {R}.

(** What [ModelGateway.__init__] stores, less repository and controls. *)
Record ModelGateway : Type := mkModelGateway {
  mg_catalog : ModelCatalog;
  mg_providers : gset string;
  mg_retry_policy : RetryPolicy;
}.

Definition ModelGateway_init (catalog : ModelCatalog) (providers : gset string)
    (policy : RetryPolicy) : result ModelGateway :=
  let catalog_providers := list_to_set (map (λ e, mi_provider (ce_identity e))
                                          (catalog_entries catalog)) : gset string in
  raise! ValueError "every catalog provider requires exactly one adapter"
    when! negb (bool_decide (providers = catalog_providers)) ;;
  inr (mkModelGateway catalog providers policy).

(** ** Operations *)

Section Service.
Context {R : Type} `{GatewayRepo R} `{JsonSchemaLibrary} (o : Oracles R) (gateway : ModelGateway).

Abbreviation Svc := (M exn (Service R)).

Definition set_tick (s : Service R) (tick : nat) : Service R :=
  mkService (sv_repo s) (sv_controls s) (sv_acquired s) (sv_started s) tick (sv_trace s).
Definition set_flags (acquired started : bool) (s : Service R) : Service R :=
  mkService (sv_repo s) (sv_controls s) acquired started (sv_tick s) (sv_trace s).
Definition emit (a : action) (s : Service R) : Service R :=
  mkService (sv_repo s) (sv_controls s) (sv_acquired s) (sv_started s) (sv_tick s)
    (sv_trace s ++ [a]).

Definition oracle {A} (f : nat → A) : Svc A := λ s,
  (inr (f (sv_tick s)), set_tick s (S (sv_tick s))).

(** [self._clock()] and the loop's [time()] *)
Definition now : Svc Dt.datetime := oracle (or_clock o).
Definition loop_time : Svc spec_float := oracle (or_loop_time o).

(** [cancellation.is_set()] of an optional token *)
Definition is_cancelled (cancellation : bool) : Svc bool :=
  if cancellation then oracle (or_cancelled o) else ret false.

(** What other tasks do while this one waits. *)
Definition wait : Svc unit := λ s,
  let '(repo, controls) := or_others o (sv_tick s) (sv_repo s, sv_controls s) in
  (inr tt, mkService repo controls (sv_acquired s) (sv_started s) (S (sv_tick s)) (sv_trace s)).

(** [await self._repository.op(...)]: the operation is atomic once it runs. *)
Definition on_repo {A} (m : M exn R A) : Svc A :=
  bind wait (λ _ s,
    let '(r, repo) := m (sv_repo s) in
    (r, mkService repo (sv_controls s) (sv_acquired s) (sv_started s) (sv_tick s) (sv_trace s))).

Definition on_controls {A} (m : Ctl A) : Svc A := λ s,
  let '(r, controls) := m (sv_controls s) in
  (r, mkService (sv_repo s) controls (sv_acquired s) (sv_started s) (sv_tick s) (sv_trace s)).

(** [deadline - loop.time()] *)
Definition remaining (deadline : spec_float) : Svc spec_float :=
  let! t := loop_time in ret (f64_sub deadline t).

Definition raise_gateway {A} (c : ModelErrorClass) (code : string) (retryable : bool) : Svc A :=
  raise (ModelGatewayError (gateway_raise c code retryable false)).

(** The semaphore object was looked up before: taking and returning a permit
  cannot fail on the dictionary. *)
Definition permits (model : ModelIdentity) (s : Service R) : Z :=
  default 0 (pc_semaphores (sv_controls s) !! model).

Definition take_permit (model : ModelIdentity) : Svc unit :=
  let! free := gets (permits model) in
  if 0 <? free then
    do! on_controls (modify (set_semaphores <[model := free - 1]>)) ;;
    do! modify (emit (PermitTaken model)) ;;
    modify (set_flags true false)
  else raise_gateway MODEL_TIMEOUT "gateway_concurrency_timeout" true.

(** [_acquire_semaphore]: the wait ends with a permit, by the deadline or by
  the cancellation of the call, which gives a permit that was also granted
  back. *)
Definition _acquire_semaphore (model : ModelIdentity) (deadline : spec_float)
    (cancellation : bool) : Svc unit :=
  let! set := is_cancelled cancellation in
  if set : bool then raise_gateway MODEL_CANCELLED "gateway_concurrency_cancelled" false else
  let! seconds := remaining deadline in
  if SFleb seconds f64_zero then raise_gateway MODEL_TIMEOUT "gateway_concurrency_timeout" true else
  do! wait ;;
  let! cancelled := is_cancelled cancellation in
  if cancelled : bool then raise_gateway MODEL_CANCELLED "gateway_concurrency_cancelled" false
  else take_permit model.

(** [if acquired: semaphore.release()] *)
Definition return_permit (model : ModelIdentity) : Svc unit :=
  let! acquired := gets sv_acquired in
  if acquired : bool then
    let! free := gets (permits model) in
    do! on_controls (modify (set_semaphores <[model := free + 1]>)) ;;
    modify (emit (PermitReturned model))
  else ret tt.

(** [_wait_for_retry]: whether the delay passed without a cancellation; how
  long the task sleeps is not part of the state. *)
Definition _wait_for_retry (cancellation : bool) : Svc bool :=
  do! wait ;;
  let! cancelled := is_cancelled cancellation in
  ret (negb cancelled).

(** [replace(request, timeout_seconds=...)] *)
Definition with_timeout (request : ModelRequest) (seconds : spec_float) : ModelRequest :=
  {| mq_tenant_id := mq_tenant_id request; mq_run_id := mq_run_id request;
     mq_request_id := mq_request_id request; mq_messages := mq_messages request;
     mq_max_output_tokens := mq_max_output_tokens request;
     mq_prompt_token_estimate := mq_prompt_token_estimate request;
     mq_requested_model := mq_requested_model request; mq_tools := mq_tools request;
     mq_response_schema := mq_response_schema request;
     mq_temperature := mq_temperature request; mq_timeout_seconds := seconds;
     mq_idempotency_key := mq_idempotency_key request |}.

Definition provider_complete (request : ModelRequest) (model : ModelIdentity)
    : Svc ModelResponse :=
  do! modify (emit (Called request model)) ;;
  let! reply := oracle (λ n, or_reply o n request model) in
  do! wait ;;
  lift reply.

(** How an attempt ends: with a response, with an error to retry, or with an
  error after which the model is given up. *)
Inductive attempt_end : Type :=
| Responded (response : ModelResponse)
| Retry (error : gateway_error)
| Stop (error : gateway_error).

Section Call.
Context (context : TenantContext) (request : ModelRequest) (lease : WorkLease).
Context (reservation : BudgetReservation) (cancellation : bool) (deadline : spec_float).

(** The [try] block of an attempt. *)
Definition attempt_call (model : ModelIdentity) (attempt fallback_index : Z) : Svc attempt_end :=
  do! _acquire_semaphore model deadline cancellation ;;
  let! at_ := now in
  do! on_repo (repo_record_attempt context request lease reservation (mi_provider model)
             (mi_model model) attempt fallback_index at_) ;;
  do! modify (set_flags true true) ;;
  let! seconds := remaining deadline in
  if SFleb seconds f64_zero then raise_gateway MODEL_TIMEOUT "provider_attempt_timeout" true else
  let! shortened := lift (ModelRequest_post_init
                        (with_timeout request (f64_min (mq_timeout_seconds request) seconds))) in
  let! response := provider_complete shortened model in
  ret (Responded response).

(** Its [except ModelGatewayError] block. *)
Definition attempt_failed (model : ModelIdentity) (attempt fallback_index : Z)
  (error : gateway_error) : Svc attempt_end :=
    let policy := mg_retry_policy gateway in
    let! started := gets sv_started in
    do! (if started : bool then
       let! at_ := now in
       on_repo (repo_record_attempt_failure context request lease reservation error
                  (mi_provider model) (mi_model model) attempt fallback_index at_)
     else ret tt) ;;
    if negb (may_retry policy error attempt) then ret (Stop error) else
    do! match ge_retry_after_seconds error with
    | Some _ => ret tt
    | None => let! _ := lift (delay (rp_backoff policy) attempt) in ret tt
    end ;;
    let! seconds := remaining deadline in
    if SFleb seconds f64_zero then ret (Stop error) else
    let! waited := _wait_for_retry cancellation in
    ret (if waited : bool then Retry error
     else Stop (gateway_raise MODEL_CANCELLED "gateway_retry_cancelled" false false)).

Definition run_attempt (model : ModelIdentity) (attempt fallback_index : Z) : Svc attempt_end :=
    let! admitted := on_controls (controls_admit model
  (mq_prompt_token_estimate request + mq_max_output_tokens request)) in
    if negb admitted then ret (Stop (gateway_raise RATE_LIMIT "local_rate_limit" true false)) else
    do! modify (set_flags false false) ;;
    do! on_controls (_known pc_semaphores model) ;;
    try_finally
  (catch (attempt_call model attempt fallback_index)
     (λ e, match e with
           | ModelGatewayError error => attempt_failed model attempt fallback_index error
           | _ => raise e
           end))
  (return_permit model).

(** [for attempt in range(...)], from attempt number [attempt] on. *)
Fixpoint attempts (model : ModelIdentity) (fallback_index : Z) (n : nat) (attempt : Z)
  (last_error : option gateway_error) : Svc (option ModelResponse * option gateway_error) :=
    match n with
    | O => ret (None, last_error)
    | S n =>
    let! ended := run_attempt model attempt fallback_index in
    match ended with
    | Responded response =>
        do! on_controls (controls_succeed model) ;; ret (Some response, None)
    | Retry error => attempts model fallback_index n (attempt + 1) (Some error)
    | Stop error => ret (None, Some error)
    end
    end.

Definition _try_model (candidate : ModelCatalogEntry) (fallback_index : Z)
  : Svc (option ModelResponse * option gateway_error) :=
    let model := ce_identity candidate in
    let max_attempts := rp_max_attempts (mg_retry_policy gateway) in
    do! on_controls (controls_circuit model) ;;
    let! probe := catch (do! on_controls (controls_acquire model) ;;
                     let! state := on_controls (controls_state model) in
                     ret (Some (bool_decide (state = HALF_OPEN))))
                (λ e, match e with CircuitOpenError _ => ret None | _ => raise e end) in
    match probe with
    | None => ret (None, Some (gateway_raise PROVIDER_UNAVAILABLE "provider_circuit_open" true false))
    | Some probe_acquired =>
    do! raise_if (negb (bool_decide (mi_provider model ∈ mg_providers gateway)))
          (KeyError (mi_provider model)) ;;
    let! outcome := try_finally
      (attempts model fallback_index (Z.to_nat max_attempts) 1 None)
      (if probe_acquired : bool then on_controls (controls_abandon model) else ret tt) in
    match outcome with
    | (Some response, _) => ret (Some response, None)
    | (None, last_error) =>
        do! match last_error with
            | Some e => if _provider_health_failure e then on_controls (controls_fail model)
                        else on_controls (controls_abandon model)
            | None => ret tt
            end ;;
        ret (None, last_error)
    end
    end.

(** Validation and settlement of a response, with its [except] block. *)
Definition settle_response (candidate : ModelCatalogEntry) (response : ModelResponse)
  : Svc unit :=
    catch
  (do! lift (_validate_response request response (ce_identity candidate)) ;;
   let! at_ := now in
   on_repo (repo_succeed context request lease reservation response (ce_pricing candidate) at_))
  (λ e, match e with
        | ModelGatewayError error =>
            let! at_ := now in
            do! on_repo (repo_record_usage_failure context request lease reservation response
                           (ce_pricing candidate) error at_) ;;
            raise e
        | _ => raise e
        end).

(** The loop over the candidates: a settled response, or the last error. *)
Fixpoint try_candidates (cost_limit : decimal) (fallback_index : Z)
  (candidates : list ModelCatalogEntry) (last_error : option gateway_error)
  : Svc (ModelResponse + option gateway_error) :=
    match candidates with
    | [] => ret (inr last_error)
    | candidate :: rest =>
    let! outcome := _try_model candidate fallback_index in
    match outcome with
    | (Some response, _) =>
        do! settle_response candidate response ;;
        let! charged := lift (cost (ce_pricing candidate) (ms_usage response)) in
        let! _ := lift (dec_sub cost_limit charged) in
        ret (inl response)
    | (None, error) =>
        match error with
        | Some e => if negb (ge_retryable e) then ret (inr error)
                    else try_candidates cost_limit (fallback_index + 1) rest error
        | None => try_candidates cost_limit (fallback_index + 1) rest error
        end
    end
    end.
End Call.

(** The models whose circuit is open, over the catalog's entries. *)
Fixpoint open_circuits (entries : list ModelCatalogEntry) : Svc (list ModelIdentity) :=
  match entries with
  | [] => ret []
  | e :: entries =>
      let! state := on_controls (controls_state (ce_identity e)) in
      let! rest := open_circuits entries in
      ret (if bool_decide (state = OPEN) then ce_identity e :: rest else rest)
  end.

(** [max(estimate_cost(...) for candidate in candidates)] *)
Fixpoint max_estimate (request : ModelRequest) (best : decimal)
    (candidates : list ModelCatalogEntry) : result decimal :=
  match candidates with
  | [] => inr best
  | c :: rest =>
      let? e := estimate_cost (ce_pricing c) (mq_prompt_token_estimate request)
                  (mq_max_output_tokens request) in
      let? bigger := dec_gt e best in
      max_estimate request (if bigger : bool then e else best) rest
  end.

Definition reservation_cost (request : ModelRequest) (candidates : list ModelCatalogEntry)
    : result decimal :=
  match candidates with
  | [] => inl (ValueError "max() iterable argument is empty")
  | c :: rest =>
      let? first := estimate_cost (ce_pricing c) (mq_prompt_token_estimate request)
                      (mq_max_output_tokens request) in
      max_estimate request first rest
  end.

Definition no_attempt_error : gateway_error :=
  gateway_raise PROVIDER_UNAVAILABLE "no_provider_attempt_succeeded" true false.

(** The part of [complete] after the reservation. *)
Definition run_call (context : TenantContext) (request : ModelRequest) (lease : WorkLease)
    (reservation : BudgetReservation) (cancellation : bool) (deadline : spec_float)
    (cost_limit : decimal) (candidates : list ModelCatalogEntry) : Svc ModelResponse :=
  let! outcome := try_candidates context request lease reservation cancellation deadline
                    cost_limit 0 candidates None in
  match outcome with
  | inl response => ret response
  | inr last_error =>
      let error := default no_attempt_error last_error in
      let! at_ := now in
      do! on_repo (repo_fail context request lease reservation error at_) ;;
      raise (ModelGatewayError error)
  end.

Definition complete (context : TenantContext) (request : ModelRequest) (lease : WorkLease)
    (policy : TenantPolicy) (environment : Environment) (preference : RoutePreference)
    (cancellation : bool) : Svc ModelResponse :=
  do! lift (_validate_request request) ;;
  let! at_ := now in
  let! cached := on_repo (repo_completed context request lease at_) in
  match cached with
  | Some response => ret response
  | None =>
      let! unavailable := open_circuits (catalog_entries (mg_catalog gateway)) in
      let! start := loop_time in
      let deadline := f64_add start (mq_timeout_seconds request) in
      let! decision := lift (route request (mg_catalog gateway) policy environment unavailable
                               preference) in
      let candidates := take (Z.to_nat (rp_max_failovers (mg_retry_policy gateway) + 1))
                          (rd_candidates decision) in
      let token_limit := mq_prompt_token_estimate request + mq_max_output_tokens request in
      let! cost_limit := lift (reservation_cost request candidates) in
      let! at2 := now in
      let! reservation := on_repo (repo_reserve context request lease decision
        (quotas policy) token_limit cost_limit
        (pv_version (ce_pricing (rd_selected decision))) at2) in
      do! modify (emit (Reserved (br_reservation_id reservation))) ;;
      run_call context request lease reservation cancellation deadline cost_limit candidates
  end.
End Service.
