(* ===== verification/GatewayServiceTheorems.v ===== *)
(** * Theorems about the gateway service

    Proved against the repository protocol: the laws a repository promises
    ([GatewayRepoLaws]) are all the service needs to settle every reservation
    it makes.  The trace of a call is characterised completely. *)

From stdpp Require Import base gmap list strings.
From Stdlib Require Import ZArith Lia SpecFloat.
From S2P Require Import Prelude PyLib Json Events Identity Work Amounts Floats Backoff.
From S2P Require Import Policy ModelContracts Routing GatewayRepository Resilience.
From S2P Require Import GatewayService Raises.

Local Open Scope Z_scope.

(** ** Exceptions that are not gateway errors *)

Definition is_gateway_error (e : exn) : bool :=
  match e with ModelGatewayError _ => true | _ => false end.

Definition not_gateway (e : exn) : Prop := is_gateway_error e = false.

#[export] Instance gateway_store_errors : StoreErrors not_gateway.
Proof. by intros []. Qed.

(** A computation that raises no [ModelGatewayError]. *)
Abbreviation calm := (raises not_gateway).
Abbreviation calm_result := (raises_result not_gateway).

#[export] Hint Extern 1 (not_gateway _) => reflexivity : raises.

(** ** What a repository promises *)

Class GatewayRepoLaws (R : Type) `{GatewayRepo R} : Type := {
  repo_settled : R → uuid → Prop;
  succeed_settles context request lease reservation response pricing at_ s u s' :
    repo_succeed context request lease reservation response pricing at_ s = (inr u, s') →
    repo_settled s' (br_reservation_id reservation);
  usage_failure_settles context request lease reservation response pricing error at_ s u s' :
    repo_record_usage_failure context request lease reservation response pricing error at_ s
    = (inr u, s') → repo_settled s' (br_reservation_id reservation);
  fail_settles context request lease reservation error at_ s u s' :
    repo_fail context request lease reservation error at_ s = (inr u, s') →
    repo_settled s' (br_reservation_id reservation);
  calm_completed context request lease at_ : calm (repo_completed context request lease at_);
  calm_reserve context request lease route quotas tokens cost version at_ :
    calm (repo_reserve context request lease route quotas tokens cost version at_);
  calm_attempt context request lease reservation provider model attempt fallback at_ :
    calm (repo_record_attempt context request lease reservation provider model attempt fallback at_);
  calm_attempt_failure context request lease reservation error provider model attempt fallback at_ :
    calm (repo_record_attempt_failure context request lease reservation error provider model
            attempt fallback at_);
  calm_usage_failure context request lease reservation response pricing error at_ :
    calm (repo_record_usage_failure context request lease reservation response pricing error at_);
  calm_fail context request lease reservation error at_ :
    calm (repo_fail context request lease reservation error at_);
}.

#[export] Hint Resolve calm_completed calm_reserve calm_attempt calm_attempt_failure
  calm_usage_failure calm_fail : raises.

(** ** Controls and calm *)

Lemma calm_known {T} (values : ProviderControls → gmap ModelIdentity T) model :
  calm (_known values model).
Proof. intros s e s'. unfold _known. by destruct (values s !! model); intros [= <- <-]. Qed.
Lemma calm_monotonic : calm monotonic.
Proof. by intros s e s' [=]. Qed.
#[export] Hint Resolve calm_known calm_monotonic : raises.

Lemma calm_acquire c now : calm_result (acquire c now).
Proof. unfold acquire. eauto with raises. Qed.
Lemma calm_consume b amount now : calm_result (consume b amount now).
Proof. unfold consume. eauto 6 with raises. Qed.
Lemma calm_delay b n : calm_result (delay b n).
Proof. unfold delay. eauto 6 with raises. Qed.
#[export] Hint Resolve calm_acquire calm_consume calm_delay : raises.

Lemma calm_controls_consume values set model amount : calm (controls_consume values set model amount).
Proof. unfold controls_consume. eauto 8 with raises. Qed.
#[export] Hint Resolve calm_controls_consume : raises.

Lemma calm_controls_admit model tokens : calm (controls_admit model tokens).
Proof. unfold controls_admit. eauto 8 with raises. Qed.
Lemma calm_circuit_calls model :
  calm (controls_circuit model) ∧ calm (controls_state model) ∧ calm (controls_acquire model) ∧
  calm (controls_succeed model) ∧ calm (controls_fail model) ∧ calm (controls_abandon model).
Proof.
  unfold controls_state, controls_acquire, controls_succeed, controls_fail, controls_abandon,
    controls_circuit. repeat split; eauto 10 with raises.
Qed.

(** ** Settlement *)

Section Settlement.
Context {R : Type} {Repo : GatewayRepo R} {Laws : GatewayRepoLaws R} {Schemas : JsonSchemaLibrary}.
Context (o : Oracles R).
Context (gateway : ModelGateway).
Abbreviation Svc := (M exn (Service R)).

Lemma calm_oracle {A} (f : nat → A) : calm (oracle f : Svc A).
Proof. by intros s e s' [=]. Qed.
Lemma calm_wait : calm (wait o).
Proof. intros s e s'. unfold wait. by destruct (or_others o _ _). Qed.
Lemma calm_on_controls {A} (m : Ctl A) : calm m → calm (on_controls m : Svc A).
Proof.
  intros Hm s e s'. unfold on_controls. destruct (m (sv_controls s)) as [r c] eqn:H1.
  intros [= -> <-]. by eapply Hm.
Qed.
Lemma calm_on_repo {A} (m : M exn R A) : calm m → calm (on_repo o m).
Proof.
  intros Hm. apply raises_bind; [apply calm_wait|]. intros [] s e s'.
  destruct (m (sv_repo s)) as [r c] eqn:H1. intros [= -> <-]. by eapply Hm.
Qed.
#[local] Hint Resolve calm_oracle calm_wait calm_on_controls calm_on_repo calm_controls_admit : raises.
#[local] Hint Extern 1 (calm (on_controls (controls_circuit ?m))) =>
  apply calm_on_controls, (calm_circuit_calls m) : raises.
#[local] Hint Extern 1 (calm (on_controls (controls_succeed ?m))) =>
  apply calm_on_controls, (calm_circuit_calls m) : raises.
#[local] Hint Extern 1 (calm (on_controls (controls_fail ?m))) =>
  apply calm_on_controls, (calm_circuit_calls m) : raises.
#[local] Hint Extern 1 (calm (on_controls (controls_abandon ?m))) =>
  apply calm_on_controls, (calm_circuit_calls m) : raises.

Section Call.
Context (context : TenantContext) (request : ModelRequest) (lease : WorkLease).
Context (reservation : BudgetReservation) (cancellation : bool) (deadline : spec_float).

Lemma calm_is_cancelled : calm (is_cancelled o cancellation).
Proof. unfold is_cancelled. eauto with raises. Qed.
Lemma calm_remaining : calm (remaining o deadline).
Proof. unfold remaining, loop_time. eauto with raises. Qed.
Lemma calm_wait_for_retry : calm (_wait_for_retry o cancellation).
Proof. unfold _wait_for_retry. eauto using calm_is_cancelled with raises. Qed.
Lemma calm_return_permit model : calm (return_permit (R := R) model).
Proof. unfold return_permit. eauto 8 with raises. Qed.
#[local] Hint Resolve calm_is_cancelled calm_remaining calm_wait_for_retry calm_return_permit : raises.

Lemma calm_attempt_failed model attempt fallback error :
  calm (attempt_failed o gateway context request lease reservation cancellation deadline model
      attempt fallback error).
Proof.
  unfold attempt_failed, now. cbv zeta.
  repeat (apply raises_bind; [eauto 8 with raises|intros ?] || case_match); eauto 8 with raises.
Qed.

Lemma calm_run_attempt model attempt fallback :
  calm (run_attempt o gateway context request lease reservation cancellation deadline model
      attempt fallback).
Proof.
    unfold run_attempt. apply raises_bind; [eauto with raises|intros admitted].
    case_match; [eauto with raises|]. do 2 (apply raises_bind; [eauto with raises|intros ?]).
    apply raises_finally; [|eauto with raises]. apply raises_catch. intros [];
  first [apply calm_attempt_failed|by apply raises_raise].
Qed.

Lemma calm_attempts model fallback n attempt last :
  calm (attempts o gateway context request lease reservation cancellation deadline model fallback
      n attempt last).
Proof.
  revert attempt last. induction n as [|n IH]; intros attempt last; simpl; [eauto with raises|].
  apply raises_bind; [apply calm_run_attempt|]. intros []; eauto with raises.
Qed.

(** Trying a model hands every gateway error to the caller as a value. *)
Lemma calm_try_model candidate fallback :
  calm (_try_model o gateway context request lease reservation cancellation deadline candidate
      fallback).
Proof.
    unfold _try_model. cbv zeta. apply raises_bind; [eauto with raises|intros c].
    apply raises_bind.
    { intros s e s'. unfold catch. case_match; case_match; [|done].
  assert (is_gateway_error e0 = false).
  { eapply (raises_bind not_gateway _ _ (calm_on_controls _ (proj1 (proj2 (proj2 (calm_circuit_calls
      (ce_identity candidate))))))); [|eassumption]. intros ?.
    apply raises_bind; [apply calm_on_controls, (calm_circuit_calls _)|eauto with raises]. }
  case_match; [..|]; simplify_eq; try (by intros [= <- <-]); done. }
    intros [probe|]; [|eauto with raises]. apply raises_bind; [eauto with raises|intros ?].
    apply raises_bind.
    - apply raises_finally; [apply calm_attempts|]. destruct probe; eauto with raises.
    - intros [[response|] [e|]]; eauto with raises.
Qed.

(** The reservation has its outcome in the repository. *)
Definition settled_now (s : Service R) : Prop :=
  repo_settled (sv_repo s) (br_reservation_id reservation).

Lemma on_repo_ok {A} (m : M exn R A) s r s' :
  on_repo o m s = (r, s') → ∃ s0, m s0 = (r, sv_repo s').
Proof.
  unfold on_repo, bind, wait. destruct (or_others o _ _) as [repo c]. simpl.
  destruct (m repo) as [r1 repo'] eqn:Hm. intros [= <- <-]. by exists repo.
Qed.

(** Settling a response ends with the reservation settled, unless it raises
something else than a gateway error. *)
Lemma settle_response_settles candidate response s r s' :
  settle_response o context request lease reservation candidate response s = (r, s') →
  match r with inr _ => True | inl e => is_gateway_error e = true end →
  settled_now s'.
Proof.
    unfold settle_response, catch. intros Hrun Hr.
    match type of Hrun with context [match ?m s with _ => _ end] =>
  destruct (m s) as [[e|u] s1] eqn:H1 end.
    - destruct e; try (injection Hrun as <- <-; done).
  unfold bind at 1 in Hrun. cbn [now oracle] in Hrun. unfold bind at 1 in Hrun.
  match type of Hrun with context [on_repo o ?m ?st] =>
    destruct (on_repo o m st) as [[e2|u] s2] eqn:H2 end; apply on_repo_ok in H2 as (s0 & H2).
  + injection Hrun as <- <-. apply calm_usage_failure in H2. congruence.
  + injection Hrun as <- <-. by eapply usage_failure_settles.
    - injection Hrun as <- <-. apply bind_ok in H1 as ([] & s2 & _ & H1).
  apply bind_ok in H1 as (at_ & s3 & _ & H1). apply on_repo_ok in H1 as (s0 & H1).
  by eapply succeed_settles.
Qed.

Lemma try_candidates_settles cost_limit candidates fallback last s r s' :
    try_candidates o gateway context request lease reservation cancellation deadline cost_limit
  fallback candidates last s = (r, s') →
    match r with
    | inl e => is_gateway_error e = true
    | inr (inl _) => True
    | inr (inr _) => False
    end → settled_now s'.
Proof.
    revert fallback last s. induction candidates as [|c rest IH]; intros fallback last s Hrun Hr;
  simpl in Hrun; [by injection Hrun as <- <-|].
    unfold bind at 1 in Hrun.
    destruct (_try_model _ _ _ _ _ _ _ _ _ _ s) as [[e|[[response|] error]] s1] eqn:H1.
    - injection Hrun as <- <-. apply calm_try_model in H1. congruence.
    - unfold bind at 1 in Hrun.
  destruct (settle_response _ _ _ _ _ _ _ s1) as [[e|[]] s2] eqn:H2.
  + injection Hrun as <- <-. by eapply settle_response_settles.
  + apply settle_response_settles in H2; [|done].
    unfold bind, lift, ret in Hrun. repeat case_match; simplify_eq; done.
    - destruct error as [e|]; [|by eapply IH].
  destruct (negb (ge_retryable e)); [by injection Hrun as <- <-|by eapply IH].
Qed.

Lemma run_call_settles cost_limit candidates s r s' :
    run_call o gateway context request lease reservation cancellation deadline cost_limit candidates
  s = (r, s') →
    match r with inr _ => True | inl e => is_gateway_error e = true end → settled_now s'.
Proof.
    unfold run_call, bind at 1. intros Hrun Hr.
    destruct (try_candidates _ _ _ _ _ _ _ _ _ _ _ _ s) as [[e|[response|last]] s1] eqn:H1.
    - injection Hrun as <- <-. by eapply try_candidates_settles.
    - injection Hrun as <- <-. by eapply try_candidates_settles.
    - unfold bind at 1 in Hrun. cbn [now oracle] in Hrun. unfold bind at 1 in Hrun.
  match type of Hrun with context [on_repo o ?m ?st] =>
    destruct (on_repo o m st) as [[e2|u] s2] eqn:H2 end; apply on_repo_ok in H2 as (s0 & H2).
  + injection Hrun as <- <-. apply calm_fail in H2. congruence.
  + injection Hrun as <- <-. by eapply fail_settles.
Qed.
End Call.
End Settlement.

(** ** The trace of a call *)

(** The provider gets the request with a deadline no longer than its own. *)
Definition shortened (request q : ModelRequest) : Prop :=
  ∃ t, q = with_timeout request t ∧
    (t = mq_timeout_seconds request ∨ SFltb t (mq_timeout_seconds request) = true).

(** What one attempt leaves: nothing, a permit taken and returned, or a
    provider call under such a permit. *)
Inductive attempt_trace (request : ModelRequest) (model : ModelIdentity) : list action → Prop :=
| attempt_refused : attempt_trace request model []
| attempt_uncalled : attempt_trace request model [PermitTaken model; PermitReturned model]
| attempt_called q : shortened request q →
    attempt_trace request model [PermitTaken model; Called q model; PermitReturned model].

(** At most [n] attempts on a model, and so on for the candidates in order. *)
Inductive model_trace (request : ModelRequest) (model : ModelIdentity)
    : nat → list action → Prop :=
| model_done n : model_trace request model n []
| model_more n l l' : attempt_trace request model l → model_trace request model n l' →
    model_trace request model (S n) (l ++ l').

Inductive candidates_trace (request : ModelRequest) (n : nat)
    : list ModelCatalogEntry → list action → Prop :=
| candidates_done cs : candidates_trace request n cs []
| candidates_more c cs l l' : model_trace request (ce_identity c) n l →
    candidates_trace request n cs l' → candidates_trace request n (c :: cs) (l ++ l').

Section Traces.
Context {R : Type} {Repo : GatewayRepo R} {Schemas : JsonSchemaLibrary}.
Context (o : Oracles R) (gateway : ModelGateway).
Abbreviation Svc := (M exn (Service R)).

(** Computations that add nothing to the trace and keep the permit flag. *)
Definition quiet {A} (m : Svc A) : Prop := ∀ s r s', m s = (r, s') →
  sv_trace s' = sv_trace s ∧ sv_acquired s' = sv_acquired s.

Lemma quiet_ret {A} (a : A) : quiet (ret a).
Proof. by intros s r s' [= _ <-]. Qed.
Lemma quiet_raise {A} e : quiet (A := A) (raise e).
Proof. by intros s r s' [= _ <-]. Qed.
Lemma quiet_raise_if b e : quiet (raise_if b e).
Proof. destruct b; [apply quiet_raise|apply quiet_ret]. Qed.
Lemma quiet_gets {A} (f : Service R → A) : quiet (gets f).
Proof. by intros s r s' [= _ <-]. Qed.
Lemma quiet_lift {A} (x : result A) : quiet (lift x).
Proof. by intros s r s' [= _ <-]. Qed.
Lemma quiet_oracle {A} (f : nat → A) : quiet (oracle f).
Proof. by intros s r s' [= _ <-]. Qed.
Lemma quiet_wait : quiet (wait o).
Proof. intros s r s'. unfold wait. destruct (or_others o _ _). by intros [= _ <-]. Qed.
Lemma quiet_on_controls {A} (m : Ctl A) : quiet (on_controls m).
Proof. intros s r s'. unfold on_controls. destruct (m _). by intros [= _ <-]. Qed.
Lemma quiet_bind {A B} (m : Svc A) (k : A → Svc B) :
  quiet m → (∀ a, quiet (k a)) → quiet (bind m k).
Proof.
  intros Hm Hk s r s'. unfold bind. destruct (m s) as [[e|a] s1] eqn:H1.
  - intros [= _ <-]. by eapply Hm.
  - intros H2. destruct (Hm _ _ _ H1) as [<- <-]. by eapply Hk.
Qed.
Lemma quiet_bind_inv {A B} (m : Svc A) (k : A → Svc B) s r s' :
  bind m k s = (r, s') → quiet m →
  ∃ s1, sv_trace s1 = sv_trace s ∧ sv_acquired s1 = sv_acquired s ∧
    ((∃ e, r = inl e ∧ s' = s1) ∨ ∃ a, k a s1 = (r, s')).
Proof.
  unfold bind. intros Hrun Hm. destruct (m s) as [[e|a] s1] eqn:H1;
    destruct (Hm _ _ _ H1) as [Ht Ha]; exists s1; (split; [done|]; split; [done|]);
    [left|right; by exists a].
  injection Hrun as <- <-. by exists e.
Qed.
Lemma quiet_catch {A} (m : Svc A) (h : exn → Svc A) :
  quiet m → (∀ e, quiet (h e)) → quiet (catch m h).
Proof.
  intros Hm Hh s r s'. unfold catch. destruct (m s) as [[e|a] s1] eqn:H1;
    destruct (Hm _ _ _ H1) as [<- <-]; [apply Hh|by intros [= _ <-]].
Qed.
Lemma quiet_on_repo {A} (m : M exn R A) : quiet (on_repo o m).
Proof.
  apply quiet_bind; [apply quiet_wait|]. intros [] s r s'. destruct (m _). by intros [= _ <-].
Qed.

Create HintDb quiet.
#[local] Hint Resolve quiet_ret quiet_raise quiet_raise_if quiet_gets quiet_lift quiet_oracle
  quiet_wait quiet_on_controls quiet_bind quiet_catch quiet_on_repo : quiet.
#[local] Hint Extern 3 (quiet (match ?x with _ => _ end)) => destruct x : quiet.

Lemma quiet_reads cancellation deadline :
  quiet (now o) ∧ quiet (loop_time o) ∧ quiet (remaining o deadline) ∧
  quiet (is_cancelled o cancellation) ∧ quiet (_wait_for_retry o cancellation).
Proof.
  unfold now, remaining, loop_time, _wait_for_retry, is_cancelled.
  split_and!; eauto with quiet.
Qed.
#[local] Hint Extern 1 (quiet (now _)) => apply (quiet_reads false f64_zero) : quiet.
#[local] Hint Extern 1 (quiet (loop_time _)) => apply (quiet_reads false f64_zero) : quiet.
#[local] Hint Extern 1 (quiet (remaining _ ?d)) => apply (quiet_reads false d) : quiet.
#[local] Hint Extern 1 (quiet (is_cancelled _ ?c)) => apply (quiet_reads c f64_zero) : quiet.
#[local] Hint Extern 1 (quiet (_wait_for_retry _ ?c)) => apply (quiet_reads c f64_zero) : quiet.

(** The trace grows by a list with the property, whatever the outcome. *)
Definition adds {A} (Q : list action → Prop) (m : Svc A) : Prop := ∀ s r s', m s = (r, s') →
  ∃ l, sv_trace s' = sv_trace s ++ l ∧ Q l.

Lemma adds_quiet {A} (Q : list action → Prop) (m : Svc A) : quiet m → Q [] → adds Q m.
Proof. intros Hm HQ s r s' Hrun. exists []. rewrite app_nil_r. by destruct (Hm _ _ _ Hrun). Qed.

Lemma adds_bind {A B} (P Q : list action → Prop) (m : Svc A) (k : A → Svc B) :
  adds P m → (∀ l, P l → Q l) → (∀ a l, P l → adds (λ l', Q (l ++ l')) (k a)) →
  adds Q (bind m k).
Proof.
  intros Hm HPQ Hk s r s'. unfold bind. destruct (m s) as [[e|a] s1] eqn:H1;
    destruct (Hm _ _ _ H1) as (l & Ht & HP).
  - intros [= _ <-]. eauto.
  - intros H2. destruct (Hk a l HP _ _ _ H2) as (l' & Ht' & HQ). exists (l ++ l').
    by rewrite Ht', Ht, app_assoc.
Qed.

(** A quiet computation in front. *)
Lemma adds_after {A B} (Q : list action → Prop) (m : Svc A) (k : A → Svc B) :
  quiet m → Q [] → (∀ a, adds Q (k a)) → adds Q (bind m k).
Proof.
  intros Hm HQ Hk s r s'. unfold bind. destruct (m s) as [[e|a] s1] eqn:H1.
  - intros [= _ <-]. exists []. rewrite app_nil_r. by destruct (Hm _ _ _ H1).
  - intros H2. destruct (Hm _ _ _ H1) as [<- _]. by eapply Hk.
Qed.

Lemma adds_finally {A} (Q : list action → Prop) (m : Svc A) (f : Svc unit) :
  adds Q m → quiet f → adds Q (try_finally m f).
Proof.
  intros Hm Hf s r s'. unfold try_finally. destruct (m s) as [r1 s1] eqn:H1.
  destruct (f s1) as [r2 s2] eqn:H2. destruct (Hf _ _ _ H2) as [Ht _].
  intros Hrun. assert (s' = s2) as -> by (destruct r2; congruence). rewrite Ht. by eapply Hm.
Qed.

(** Passes a quiet first operation of the run [H]: the case that it raises,
  and the rest of the run from a state with the same trace and flag. *)
Ltac quiet_skip H :=
  let s1 := fresh "s" in let Ht := fresh "Ht" in let Ha := fresh "Ha" in
  let e := fresh "e" in let a := fresh "a" in
  apply quiet_bind_inv in H; [|solve [eauto with quiet]];
  destruct H as (s1 & Ht & Ha & [(e & -> & ->)|(a & H)]).

Section Call.
Context (context : TenantContext) (request : ModelRequest) (lease : WorkLease).
Context (reservation : BudgetReservation) (cancellation : bool) (deadline : spec_float).

Lemma quiet_attempt_failed model attempt fallback error :
  quiet (attempt_failed o gateway context request lease reservation cancellation deadline model
       attempt fallback error).
Proof.
  unfold attempt_failed. cbv zeta.
  repeat (apply quiet_bind; [eauto 8 with quiet|intros ?] || case_match); eauto 8 with quiet.
Qed.

(** Trace and flag after the [try] block of an attempt. *)
Definition called_trace (model : ModelIdentity) (s s' : Service R) : Prop :=
  (sv_trace s' = sv_trace s ∧ sv_acquired s' = false) ∨
  (sv_acquired s' = true ∧ ∃ l, sv_trace s' = sv_trace s ++ PermitTaken model :: l ∧
 (l = [] ∨ ∃ q, l = [Called q model] ∧ shortened request q)).

Lemma acquire_semaphore_trace model s r s' :
  sv_acquired s = false → _acquire_semaphore o model deadline cancellation s = (r, s') →
  match r with
  | inl _ => sv_trace s' = sv_trace s ∧ sv_acquired s' = false
  | inr _ => sv_trace s' = sv_trace s ++ [PermitTaken model] ∧ sv_acquired s' = true
  end.
Proof.
  intros Hf. unfold _acquire_semaphore.
  intros Hrun.
  quiet_skip Hrun; [by rewrite Ht, Ha|]. destruct a; [injection Hrun as <- <-; by rewrite Ht, Ha|].
  rewrite <- Ht. rewrite <- Ha in Hf. clear Ht Ha.
  quiet_skip Hrun; [by rewrite Ht, Ha|].
  destruct (SFleb a f64_zero); [injection Hrun as <- <-; by rewrite Ht, Ha|].
  rewrite <- Ht. rewrite <- Ha in Hf. clear Ht Ha.
  quiet_skip Hrun; [by rewrite Ht, Ha|]. rewrite <- Ht. rewrite <- Ha in Hf. clear Ht Ha.
  quiet_skip Hrun; [by rewrite Ht, Ha|]. rewrite <- Ht. rewrite <- Ha in Hf. clear Ht Ha.
  destruct a1; [by injection Hrun as <- <-|]. unfold take_permit, bind, gets in Hrun.
  case_match; by injection Hrun as <- <-.
Qed.

(** The flag is up and nothing more than a call was added. *)
Definition call_added (model : ModelIdentity) (s s' : Service R) : Prop :=
    sv_acquired s' = true ∧ ∃ l, sv_trace s' = sv_trace s ++ l ∧
  (l = [] ∨ ∃ q, l = [Called q model] ∧ shortened request q).

Lemma call_added_same model (s s1 s' : Service R) :
  sv_trace s' = sv_trace s1 → sv_acquired s' = sv_acquired s1 → call_added model s s1 →
  call_added model s s'.
Proof. intros Ht Ha (H1 & l & H2 & H3). split; [congruence|]. exists l. by rewrite Ht. Qed.

Lemma call_added_none model (s s' : Service R) :
  sv_trace s' = sv_trace s → sv_acquired s' = true → call_added model s s'.
Proof. intros Ht Ha. split; [done|]. exists []. rewrite app_nil_r. auto. Qed.

Lemma provider_complete_trace model q s r s' :
  sv_acquired s = true → shortened request q →
  provider_complete o q model s = (r, s') → call_added model s s'.
Proof.
  intros Ha Hq Hrun. unfold provider_complete, bind at 1, modify in Hrun.
  assert (Hquiet : quiet (let! reply := oracle (λ n, or_reply o n q model) in
                      do! wait o ;; lift reply)) by eauto with quiet.
  destruct (Hquiet _ _ _ Hrun) as [Ht Ha']. split; [by rewrite Ha'|].
  exists [Called q model]. rewrite Ht. split; [done|]. right. by exists q.
Qed.

Lemma with_timeout_shortened seconds q :
  ModelRequest_post_init (with_timeout request (f64_min (mq_timeout_seconds request) seconds))
  = inr q → shortened request q.
Proof.
  intros Hq. unfold ModelRequest_post_init in Hq. py_inv. eexists. split; [reflexivity|].
  unfold f64_min. destruct (SFltb seconds (mq_timeout_seconds request)) eqn:E; auto.
Qed.

Lemma attempt_call_trace model attempt fallback s r s' :
  sv_acquired s = false →
  attempt_call o context request lease reservation cancellation deadline model attempt fallback s
  = (r, s') → called_trace model s s'.
Proof.
    intros Hf Hrun. unfold attempt_call, bind at 1 in Hrun.
    destruct (_acquire_semaphore _ _ _ _ s) as [[e|[]] s1] eqn:H1;
  apply acquire_semaphore_trace in H1 as [Ht1 Ha1]; try done.
    { injection Hrun as <- <-. by left. }
    assert (call_added model s1 s') as (? & l & Hl & ?); [|right; split; [done|]; exists l;
  by rewrite Hl, Ht1, <- app_assoc].
    quiet_skip Hrun; [apply call_added_none; congruence|].
    quiet_skip Hrun; [apply call_added_none; congruence|].
    unfold bind at 1 in Hrun. cbn [modify] in Hrun.
    quiet_skip Hrun; [apply call_added_none; simpl in *; congruence|].
    destruct (SFleb a1 f64_zero); [injection Hrun as <- <-; apply call_added_none; simpl in *; congruence|].
    unfold bind at 1, lift at 1 in Hrun. destruct (ModelRequest_post_init _) as [e|q] eqn:Hq.
    { injection Hrun as <- <-. apply call_added_none; simpl in *; congruence. }
    apply with_timeout_shortened in Hq. unfold bind in Hrun.
    destruct (provider_complete o q model _) as [r1 s4] eqn:Hp.
    assert (s' = s4) as -> by (destruct r1; by injection Hrun).
    apply provider_complete_trace in Hp as (? & l & Hl & ?); [|simpl in *; congruence|done].
    split; [done|]. exists l. rewrite Hl. split; [|done]. f_equal. simpl in *. congruence.
Qed.

Lemma run_attempt_trace model attempt fallback :
    adds (attempt_trace request model)
  (run_attempt o gateway context request lease reservation cancellation deadline model attempt
     fallback).
Proof.
    unfold run_attempt. apply adds_after; [eauto with quiet|constructor|intros admitted].
    case_match; [apply adds_quiet; [eauto with quiet|constructor]|].
    intros s r s' Hrun. unfold bind at 1 in Hrun. cbn [modify] in Hrun.
    quiet_skip Hrun. { exists []. rewrite app_nil_r. split; [done|constructor]. }
    unfold try_finally in Hrun.
    destruct (catch _ _ s0) as [r1 s1] eqn:H1.
    assert (called_trace model s0 s1) as Hc.
    { unfold catch in H1. destruct (attempt_call _ _ _ _ _ _ _ _ _ _ s0) as [[e|en] s2] eqn:H2;
    apply attempt_call_trace in H2; try done; [|by injection H1 as <- <-].
  assert (sv_trace s1 = sv_trace s2 ∧ sv_acquired s1 = sv_acquired s2) as [Ht1 Ha1].
  { destruct e; try (by injection H1 as <- <-). by eapply quiet_attempt_failed. }
  unfold called_trace. by rewrite Ht1, Ha1. }
    unfold return_permit, bind at 1, gets at 1 in Hrun. simpl in Ht. rewrite <- Ht.
    destruct Hc as [[Hc1 Hc2]|(Hc1 & l & Hc2 & Hl)]; rewrite ?Hc1, ?Hc2 in Hrun.
    - injection Hrun as <- <-. exists []. rewrite app_nil_r. split; [done|constructor].
    - exists ((PermitTaken model :: l) ++ [PermitReturned model]). rewrite app_assoc, <- Hc2.
  injection Hrun as <- <-. split; [done|].
  destruct Hl as [->|(q & -> & Hq)]; simpl; by constructor.
Qed.

Lemma attempts_trace model fallback n attempt last :
    adds (model_trace request model n)
  (attempts o gateway context request lease reservation cancellation deadline model fallback n
     attempt last).
Proof.
    revert attempt last. induction n as [|n IH]; intros attempt last; simpl.
    { apply adds_quiet; [eauto with quiet|constructor]. }
    apply adds_bind with (P := attempt_trace request model); [apply run_attempt_trace|..].
    { intros l Hl. rewrite <- (app_nil_r l). constructor; [done|constructor]. }
    intros [response|e|e] l Hl.
    - apply adds_quiet; [eauto with quiet|]. constructor; [done|constructor].
    - intros s r s' Hrun. destruct (IH _ _ _ _ _ Hrun) as (l' & Ht & Hl'). exists l'.
  split; [done|]. by constructor.
    - apply adds_quiet; [eauto with quiet|]. constructor; [done|constructor].
Qed.

Lemma try_model_trace candidate fallback :
    adds (model_trace request (ce_identity candidate)
        (Z.to_nat (rp_max_attempts (mg_retry_policy gateway))))
  (_try_model o gateway context request lease reservation cancellation deadline candidate
     fallback).
Proof.
  unfold _try_model. cbv zeta. apply adds_after; [eauto with quiet|constructor|intros c].
  apply adds_after; [|constructor|].
  { apply quiet_catch; [eauto 6 with quiet|]. intros []; eauto with quiet. }
  intros [probe|]; [|apply adds_quiet; [eauto with quiet|constructor]].
  apply adds_after; [eauto with quiet|constructor|intros ?].
  eapply adds_bind.
  - apply adds_finally; [apply attempts_trace|]. destruct probe; eauto with quiet.
  - done.
  - intros [[response|] [e|]] l Hl; (apply adds_quiet; [eauto 6 with quiet|by rewrite app_nil_r]).
Qed.

Lemma try_candidates_trace cost_limit candidates fallback last :
    adds (candidates_trace request (Z.to_nat (rp_max_attempts (mg_retry_policy gateway))) candidates)
  (try_candidates o gateway context request lease reservation cancellation deadline cost_limit
     fallback candidates last).
Proof.
    revert fallback last. induction candidates as [|c rest IH]; intros fallback last; simpl.
    { apply adds_quiet; [eauto with quiet|constructor]. }
    eapply adds_bind; [apply try_model_trace|..].
    { intros l Hl. rewrite <- (app_nil_r l). constructor; [done|constructor]. }
    assert (Hend : ∀ A (m : Svc A) l, quiet m → model_trace request (ce_identity c)
  (Z.to_nat (rp_max_attempts (mg_retry_policy gateway))) l →
  adds (λ l', candidates_trace request (Z.to_nat (rp_max_attempts (mg_retry_policy gateway)))
     (c :: rest) (l ++ l')) m).
    { intros A m l Hm Hl. apply adds_quiet; [done|]. constructor; [done|constructor]. }
    assert (Hmore : ∀ e l, model_trace request (ce_identity c)
  (Z.to_nat (rp_max_attempts (mg_retry_policy gateway))) l →
  adds (λ l', candidates_trace request (Z.to_nat (rp_max_attempts (mg_retry_policy gateway)))
     (c :: rest) (l ++ l'))
    (try_candidates o gateway context request lease reservation cancellation deadline
       cost_limit (fallback + 1) rest e)).
    { intros e l Hl s r s' Hrun. destruct (IH _ _ _ _ _ Hrun) as (l' & Ht & Hl'). exists l'.
  split; [done|]. by constructor. }
    intros [[response|] [e|]] l Hl; try case_match; eauto with quiet; apply Hend; try done;
  (apply quiet_bind; [|eauto with quiet]); unfold settle_response;
  (apply quiet_catch; [eauto 6 with quiet|]; intros []; eauto 6 with quiet).
Qed.
End Call.
End Traces.

(** ** Permits and calls *)

(** The permit a trace leaves in hand, if permits and calls are in order:
    one permit at a time, and calls of a model only under its permit. *)
Fixpoint slots (held : option ModelIdentity) (l : list action) : option (option ModelIdentity) :=
  match l with
  | [] => Some held
  | Reserved _ :: l => slots held l
  | PermitTaken m :: l => match held with None => slots (Some m) l | Some _ => None end
  | PermitReturned m :: l => if bool_decide (held = Some m) then slots None l else None
  | Called _ m :: l => if bool_decide (held = Some m) then slots held l else None
  end.

Definition is_call (a : action) : bool := match a with Called _ _ => true | _ => false end.
Definition calls (l : list action) : nat := length (List.filter is_call l).

Lemma slots_app held l l' h : slots held l = Some h → slots held (l ++ l') = slots h l'.
Proof.
  revert held. induction l as [|[] l IH]; intros held Hl; simpl in *; [by injection Hl as ->|..];
    repeat case_match; simplify_eq; eauto.
Qed.

Lemma calls_app l l' : calls (l ++ l') = (calls l + calls l')%nat.
Proof. unfold calls. by rewrite List.filter_app, length_app. Qed.

(** The actions of the attempts: calls of the given models with a shortened
    request, and permits. *)
Definition call_ok (request : ModelRequest) (P : ModelIdentity → Prop) (a : action) : Prop :=
  match a with
  | Called q m => P m ∧ shortened request q
  | Reserved _ => False
  | _ => True
  end.

Lemma call_ok_impl request (P Q : ModelIdentity → Prop) a :
  (∀ m, P m → Q m) → call_ok request P a → call_ok request Q a.
Proof. intros HPQ. destruct a; simpl; try done. intros [? ?]. auto. Qed.

(** In order, within the bound, and as described. *)
Definition orderly (request : ModelRequest) (P : ModelIdentity → Prop) (n : nat)
    (l : list action) : Prop :=
  slots None l = Some None ∧ (calls l ≤ n)%nat ∧ Forall (call_ok request P) l.

Lemma orderly_nil request P n : orderly request P n [].
Proof. repeat split; [unfold calls; simpl; lia|constructor]. Qed.

Lemma orderly_app request P n n' l l' :
  orderly request P n l → orderly request P n' l' → orderly request P (n + n') (l ++ l').
Proof.
  intros (H1 & H2 & H3) (H1' & H2' & H3'). split; [by rewrite (slots_app _ _ _ _ H1)|].
  rewrite calls_app. split; [lia|]. by apply Forall_app.
Qed.

Lemma orderly_impl request (P Q : ModelIdentity → Prop) n l :
  (∀ m, P m → Q m) → orderly request P n l → orderly request Q n l.
Proof.
  intros HPQ (H1 & H2 & H3). split; [done|]. split; [done|].
  eapply Forall_impl; [exact H3|]. intros a. by apply call_ok_impl.
Qed.

Lemma attempt_trace_orderly request m l :
  attempt_trace request m l → orderly request (λ m', m' = m) 1 l.
Proof.
  intros []; (split; [simpl; rewrite ?bool_decide_true by done; done|]);
    (split; [unfold calls; simpl; lia|]); repeat constructor; done.
Qed.

Lemma model_trace_orderly request m n l :
  model_trace request m n l → orderly request (λ m', m' = m) n l.
Proof.
  induction 1 as [n|n l l' Hl _ IH]; [apply orderly_nil|].
  apply (orderly_app _ _ 1 n); [by apply attempt_trace_orderly|done].
Qed.

Lemma candidates_trace_orderly request n cs l : candidates_trace request n cs l →
  orderly request (λ m, ∃ c, c ∈ cs ∧ ce_identity c = m) (length cs * n) l.
Proof.
  induction 1 as [cs|c cs l l' Hl _ IH]; [apply orderly_nil|].
  apply orderly_app; (eapply orderly_impl; [|first [by apply model_trace_orderly|exact IH]]).
  - intros m ->. exists c. split; [left|done].
  - intros m (d & ? & ?). exists d. split; [by right|done].
Qed.

(** ** Complete calls *)

Section Complete.
Context {R : Type} {Repo : GatewayRepo R} {Schemas : JsonSchemaLibrary}.
Context (o : Oracles R) (gateway : ModelGateway).
Context (context : TenantContext) (request : ModelRequest) (lease : WorkLease).
Context (policy : TenantPolicy) (environment : Environment) (preference : RoutePreference).
Context (cancellation : bool).

Abbreviation call := (complete o gateway context request lease policy environment preference
  cancellation).

(** A routing decision over the catalog with some models unavailable. *)
Definition routed (decision : RouteDecision) : Prop :=
  ∃ unavailable, route request (mg_catalog gateway) policy environment unavailable preference
                 = inr decision.

Definition tried (decision : RouteDecision) : list ModelCatalogEntry :=
  take (Z.to_nat (rp_max_failovers (mg_retry_policy gateway) + 1)) (rd_candidates decision).

Lemma quiet_open_circuits entries : quiet (R := R) (open_circuits entries).
Proof.
  induction entries as [|e entries IH]; simpl; [apply quiet_ret|].
  apply quiet_bind; [apply quiet_on_controls|intros state].
  apply quiet_bind; [exact IH|intros rest]. apply quiet_ret.
Qed.

(** The call reserved nothing; a response is that of a finished call. *)
Definition answered (s : Service R) (r : result ModelResponse) (s' : Service R) : Prop :=
  sv_trace s' = sv_trace s ∧
  match r with
  | inr response => ∃ at_ s0 s1,
      repo_completed context request lease at_ s0 = (inr (Some response), s1)
  | inl _ => True
  end.

(** A call ends before its reservation, with the answer of a finished call or
  an exception, or it has reserved and runs on. *)
Lemma complete_runs s r s' : call s = (r, s') →
  answered s r s' ∨
  ∃ decision reservation deadline cost_limit s1,
    routed decision ∧
    sv_trace s1 = sv_trace s ++ [Reserved (br_reservation_id reservation)] ∧
    run_call o gateway context request lease reservation cancellation deadline cost_limit
      (tried decision) s1 = (r, s').
Proof.
  unfold complete. intros Hrun.
  apply quiet_bind_inv in Hrun as (s1 & T1 & _ & [(e & -> & ->)|([] & Hrun)]);
    [left; by split| |apply quiet_lift].
  apply quiet_bind_inv in Hrun as (s2 & T2 & _ & [(e & -> & ->)|(at_ & Hrun)]);
    [left; split; [congruence|done]| |apply quiet_oracle].
  unfold bind at 1 in Hrun.
  destruct (on_repo o _ s2) as [[e|cached] s3] eqn:H3; pose proof (quiet_on_repo o _ _ _ _ H3) as [T3 _].
  { injection Hrun as <- <-. left. split; [congruence|done]. }
  destruct cached as [response|].
  { injection Hrun as <- <-. left. split; [congruence|].
    apply on_repo_ok in H3 as (s0 & H3). eauto. }
  apply quiet_bind_inv in Hrun as (s4 & T4 & _ & [(e & -> & ->)|(unavailable & Hrun)]);
    [left; split; [congruence|done]| |apply quiet_open_circuits].
  apply quiet_bind_inv in Hrun as (s5 & T5 & _ & [(e & -> & ->)|(start & Hrun)]);
    [left; split; [congruence|done]| |apply quiet_oracle].
  cbv zeta in Hrun. unfold bind at 1, lift at 1 in Hrun.
  destruct (route _ _ _ _ _ _) as [e|decision] eqn:Hroute.
  { injection Hrun as <- <-. left. split; [congruence|done]. }
  apply quiet_bind_inv in Hrun as (s6 & T6 & _ & [(e & -> & ->)|(cost_limit & Hrun)]);
    [left; split; [congruence|done]| |apply quiet_lift].
  apply quiet_bind_inv in Hrun as (s7 & T7 & _ & [(e & -> & ->)|(at2 & Hrun)]);
    [left; split; [congruence|done]| |apply quiet_oracle].
  apply quiet_bind_inv in Hrun as (s8 & T8 & _ & [(e & -> & ->)|(reservation & Hrun)]);
    [left; split; [congruence|done]| |apply quiet_on_repo].
  unfold bind at 1 in Hrun. cbn [modify] in Hrun. right.
  exists decision, reservation, (f64_add start (mq_timeout_seconds request)), cost_limit,
    (emit (Reserved (br_reservation_id reservation)) s8).
  split; [by exists unavailable|]. split; [simpl; congruence|exact Hrun].
Qed.

Lemma run_call_trace reservation deadline cost_limit candidates :
  adds (candidates_trace request (Z.to_nat (rp_max_attempts (mg_retry_policy gateway))) candidates)
    (run_call o gateway context request lease reservation cancellation deadline cost_limit
       candidates).
Proof.
  unfold run_call. eapply adds_bind; [apply try_candidates_trace|done|].
  intros [response|last] l Hl; (apply adds_quiet; [|by rewrite app_nil_r]); [apply quiet_ret|].
  cbv zeta. apply quiet_bind; [apply quiet_oracle|intros ?].
  apply quiet_bind; [apply quiet_on_repo|intros ?; apply quiet_raise].
Qed.

(** The trace of a whole call. *)
Lemma complete_trace s r s' : call s = (r, s') →
  sv_trace s' = sv_trace s ∨
  ∃ decision id l, routed decision ∧ sv_trace s' = sv_trace s ++ Reserved id :: l ∧
    candidates_trace request (Z.to_nat (rp_max_attempts (mg_retry_policy gateway)))
      (tried decision) l.
Proof.
  intros Hrun. destruct (complete_runs _ _ _ Hrun) as [[Ht _]|(d & rv & dl & cl & s1 & Hd & Ht & Hc)].
  { by left. }
  right. destruct (run_call_trace _ _ _ _ _ _ _ Hc) as (l & Hl & Hcand).
  exists d, (br_reservation_id rv), l. split; [done|]. split; [|done].
  by rewrite Hl, Ht, <- app_assoc.
Qed.

(** A call never leaks its reservation: in every environment, whatever
  the providers reply and the other tasks do, a call that returns a response
  or raises a gateway error has settled the reservation it made. *)
Theorem complete_settles_reservation {Laws : GatewayRepoLaws R} s r s' id :
  sv_trace s = [] → call s = (r, s') →
  match r with inr _ => True | inl e => is_gateway_error e = true end →
  Reserved id ∈ sv_trace s' → repo_settled (sv_repo s') id.
Proof.
  intros Hs Hrun Hr Hid.
  destruct (complete_runs _ _ _ Hrun) as [[Ht _]|(d & rv & dl & cl & s1 & _ & Ht & Hc)].
  { rewrite Ht, Hs in Hid. by apply elem_of_nil in Hid. }
  destruct (run_call_trace _ _ _ _ _ _ _ Hc) as (l & Hl & Hcand).
  apply candidates_trace_orderly in Hcand as (_ & _ & Hall).
  rewrite Hl, Ht, Hs in Hid. apply elem_of_cons in Hid as [[= ->]|Hid].
  - by eapply run_call_settles.
  - rewrite Forall_forall in Hall. by destruct (Hall _ Hid).
Qed.

(** Retries and failover are bounded and controlled: a call makes at
  most [max_attempts] times [max_failovers + 1] provider calls; each is of a
  model the tenant's policy and the request allow, with a deadline no
  longer than the request's, under the one concurrency permit held; and
  every permit is returned, whatever happens. *)
Theorem complete_calls_bounded s r s' :
  sv_trace s = [] → NoDup (map ce_identity (mg_catalog gateway)) →
  RetryPolicy_post_init (mg_retry_policy gateway) = inr (mg_retry_policy gateway) →
  call s = (r, s') →
  slots None (sv_trace s') = Some None ∧
  Z.of_nat (calls (sv_trace s'))
  ≤ rp_max_attempts (mg_retry_policy gateway) * (rp_max_failovers (mg_retry_policy gateway) + 1) ∧
  ∀ q m, Called q m ∈ sv_trace s' → shortened request q ∧
    ∃ e unavailable, ce_identity e = m ∧
      usable request (mg_catalog gateway) policy environment unavailable e.
Proof.
  intros Hs Hnd Hp Hrun. unfold RetryPolicy_post_init in Hp. py_inv. bool_props.
  destruct (complete_trace _ _ _ Hrun) as [Ht|(d & id & l & [un Hd] & Ht & Hcand)];
    rewrite Ht, Hs; simpl.
  { split; [done|]. split; [unfold calls; simpl; nia|]. by intros q m Hin%elem_of_nil. }
  apply candidates_trace_orderly in Hcand as (Hsl & Hcalls & Hall). split; [done|]. split.
  - unfold calls in *. simpl. unfold tried in Hcalls. rewrite length_take in Hcalls. nia.
  - intros q m Hin. apply elem_of_cons in Hin as [|Hin]; [done|].
    rewrite Forall_forall in Hall. destruct (Hall _ Hin) as [(e & He & <-) Hq].
    split; [done|]. exists e, un. split; [done|]. eapply route_candidates_usable; [done..|].
    unfold tried in He. by eapply subseteq_take.
Qed.

(** ** Validated responses *)

(** The answer to the request, of the model, with the structured output the
  request's schema accepts and only declared tools called, with arguments
  their schemas accept. *)
Record conforms (response : ModelResponse) (model : ModelIdentity) : Prop := {
  cf_request : ms_request_id response = mq_request_id request;
  cf_model : ms_model response = model;
  cf_output schema : mq_response_schema request = Some schema →
    ∃ output, ms_structured_output response = Some output ∧
      schema_accepts (thaw_json (PProxy (js_schema schema))) (thaw_json (PProxy output)) = true;
  cf_tools proposal : ToolCallPart proposal ∈ ms_content response →
    ∃ tool, tool ∈ mq_tools request ∧ td_name tool = tc_tool_name proposal ∧
      schema_accepts (thaw_json (PProxy (js_schema (td_input_schema tool))))
        (thaw_json (PProxy (tc_arguments proposal))) = true;
}.

Lemma validate_object_ok value schema v :
  validate_object value schema = inr v →
  schema_accepts (thaw_json (PProxy (js_schema schema))) (thaw_json (PProxy value)) = true.
Proof. unfold validate_object. intros Hv. py_inv. by bool_props. Qed.

Lemma check_each_ok {A} (check : A → result unit) l u :
  check_each check l = inr u → Forall (λ x, ∃ v, check x = inr v) l.
Proof. revert u. induction l as [|x l IH]; intros u Hl; simpl in Hl; py_inv; eauto. Qed.

Lemma tool_schema_ok tools name schema :
  tool_schema tools name = Some schema →
  ∃ tool, tool ∈ tools ∧ td_name tool = name ∧ td_input_schema tool = schema.
Proof.
  unfold tool_schema. rewrite fmap_Some. intros (tool & Hf & ->). apply find_some in Hf as [Hin Hn].
  bool_props. exists tool. split; [|done]. by apply list_elem_of_In, in_rev.
Qed.

Lemma validate_response_conforms response model u :
  _validate_response request response model = inr u → conforms response model.
Proof.
  unfold _validate_response. intros Hv. py_inv. bool_props. split; [done|done|..].
  - intros schema Hs. rewrite Hs in *. destruct (ms_structured_output response) as [output|]; [|done].
    py_inv. exists output. split; [done|]. by eapply validate_object_ok.
  - intros proposal Hin. apply check_each_ok in Hv. rewrite Forall_forall in Hv.
    destruct (Hv _ Hin) as [v Hp]. simpl in Hp.
    destruct (tool_schema _ _) as [schema|] eqn:Ht; [|done]. py_inv.
    apply tool_schema_ok in Ht as (tool & ? & ? & <-). exists tool.
    split; [done|]. split; [done|]. by eapply validate_object_ok.
Qed.

Lemma settle_response_valid reservation candidate response s u s' :
  settle_response o context request lease reservation candidate response s = (inr u, s') →
  conforms response (ce_identity candidate).
Proof.
  unfold settle_response, catch. intros Hrun.
  match type of Hrun with context [match ?m s with _ => _ end] =>
    destruct (m s) as [[e|v] s1] eqn:Hm end.
  - destruct e; try done. apply bind_ok in Hrun as (at_ & s2 & _ & Hrun).
    by apply bind_ok in Hrun as (x & s3 & _ & Hrun).
  - apply bind_ok in Hm as (x & s2 & Hval & _). injection Hval as Hval _.
    by eapply validate_response_conforms.
Qed.

Lemma try_candidates_valid reservation deadline cost_limit candidates fallback last s response s' :
  try_candidates o gateway context request lease reservation cancellation deadline cost_limit
    fallback candidates last s = (inr (inl response), s') →
  ∃ c, c ∈ candidates ∧ conforms response (ce_identity c).
Proof.
  revert fallback last s. induction candidates as [|c rest IH]; intros fallback last s Hrun; [done|].
  simpl in Hrun. apply bind_ok in Hrun as ([[rs|] error] & s1 & _ & Hrun).
  - apply bind_ok in Hrun as (u & s2 & Hset & Hrun). apply settle_response_valid in Hset.
    apply bind_ok in Hrun as (x & s3 & _ & Hrun). apply bind_ok in Hrun as (y & s4 & _ & Hrun).
    injection Hrun as <- _. exists c. split; [left|done].
  - assert (∃ fb e, try_candidates o gateway context request lease reservation cancellation
      deadline cost_limit fb rest e s1 = (inr (inl response), s')) as (fb & e & Hrest)
      by (repeat case_match; simplify_eq; eauto).
    apply IH in Hrest as (d & ? & ?). exists d. split; [by right|done].
Qed.

(** Only validated answers are returned: a response is that of the
  finished call with this idempotency key, or it comes from a model the
  tenant's policy and the request allow, answers this request, satisfies
  the request's output schema and calls only declared tools with arguments
  their schemas accept. *)
Theorem complete_response_conforms s response s' :
  NoDup (map ce_identity (mg_catalog gateway)) → call s = (inr response, s') →
  (∃ at_ s0 s1, repo_completed context request lease at_ s0 = (inr (Some response), s1)) ∨
  ∃ e unavailable, usable request (mg_catalog gateway) policy environment unavailable e ∧
    conforms response (ce_identity e).
Proof.
  intros Hnd Hrun.
  destruct (complete_runs _ _ _ Hrun) as [[_ Hc]|(d & rv & dl & cl & s1 & [un Hd] & _ & Hc)].
  { by left. }
  right. apply bind_ok in Hc as ([rs|last] & s2 & Hc & Hend).
  - injection Hend as <- _. apply try_candidates_valid in Hc as (c & Hin & Hconf).
    exists c, un. split; [|done]. eapply route_candidates_usable; [done..|].
    unfold tried in Hin. by eapply subseteq_take.
  - apply bind_ok in Hend as (at_ & s3 & _ & Hend). by apply bind_ok in Hend as (x & s4 & _ & Hend).
Qed.
End Complete.
