(* ===== verification/GatewayWiring.v ===== *)
(** * The gateway service over the in-memory repository

    [InMemoryGatewayRepository] implements the repository protocol and keeps
    its laws, so the theorems about the service hold for it; sample calls run
    the service end to end. *)

From stdpp Require Import base gmap list strings.
From Stdlib Require Import ZArith Lia SpecFloat.
From S2P Require Import Prelude PyLib Json Events Identity Work Database EventStore Wire Amounts.
From S2P Require Import Floats.
From S2P Require Import Backoff Policy ModelContracts Routing Sha256 GatewayRepository.
From S2P Require Import GatewayTheorems GatewayBudgets Resilience GatewayService.
From S2P Require Import GatewayServiceTheorems Raises.

Local Open Scope Z_scope.

#[export] Instance in_memory_repo `{PyRepr} : GatewayRepo GatewayState := {
  repo_completed := gw_completed;
  repo_reserve := reserve;
  repo_record_attempt := record_attempt;
  repo_succeed := gw_succeed;
  repo_record_usage_failure := record_usage_failure;
  repo_record_attempt_failure := record_attempt_failure;
  repo_fail := gw_fail;
}.

(** ** Exceptions of the pure helpers *)

Lemma calm_dec_fix c e : calm_result (dec_fix c e).
Proof. unfold dec_fix. repeat case_match; eauto with raises. Qed.
Lemma calm_dec_cmp a b : calm_result (dec_cmp a b).
Proof. unfold dec_cmp. repeat case_match; eauto with raises. Qed.
#[export] Hint Resolve calm_dec_fix calm_dec_cmp : raises.
Lemma calm_dec_lt a b : calm_result (dec_lt a b).
Proof. unfold dec_lt. eauto with raises. Qed.
Lemma calm_dec_add a b : calm_result (dec_add a b).
Proof. unfold dec_add. repeat case_match; eauto with raises. Qed.
Lemma calm_dec_mul a b : calm_result (dec_mul a b).
Proof. unfold dec_mul. repeat case_match; eauto with raises. Qed.
Lemma calm_dec_div_int a n : calm_result (dec_div_int a n).
Proof. unfold dec_div_int. repeat case_match; eauto with raises. Qed.
#[export] Hint Resolve calm_dec_lt calm_dec_add calm_dec_mul calm_dec_div_int : raises.
Lemma calm_dec_sub a b : calm_result (dec_sub a b).
Proof. apply calm_dec_add. Qed.
Lemma calm_dec_gt a b : calm_result (dec_gt a b).
Proof. apply calm_dec_lt. Qed.
#[export] Hint Resolve calm_dec_sub calm_dec_gt : raises.
Lemma calm_dec_max first rest : calm_result (dec_max first rest).
Proof. revert first. induction rest; intros first; simpl; eauto with raises. Qed.
Lemma calm_dec_sum items : calm_result (dec_sum items).
Proof.
  unfold dec_sum. generalize (DFin 0 0). induction items; intros d; simpl; eauto with raises.
Qed.
Lemma calm_cost pricing usage : calm_result (cost pricing usage).
Proof. unfold cost. raises_solve. Qed.
#[export] Hint Resolve calm_dec_max calm_dec_sum calm_cost : raises.


(** ** The repository keeps the laws *)

Section Laws.
Context `{PyRepr}.

Lemma calm_uuid : calm gw_uuid.
Proof. by intros s e s' [=]. Qed.
#[local] Hint Resolve calm_uuid : raises.

Lemma calm_append_each request lease at_ n c events :
  calm (append_each request lease at_ n c events).
Proof. revert n c. induction events as [|[] events IH]; intros n c; simpl; eauto 8 with raises.  Qed.
Lemma calm_append request lease at_ events : calm (_append request lease at_ events).
Proof. unfold _append. eauto using calm_append_each with raises. Qed.
Lemma calm_validate context request lease :
  calm_result (_validate_model_context context request lease).
Proof. unfold _validate_model_context. raises_solve. Qed.
Lemma calm_fence lease at_ : calm (_require_fence lease at_).
Proof. unfold _require_fence. raises_solve. Qed.
Lemma calm_active reservation : calm (_require_active reservation).
Proof. unfold _require_active. raises_solve. Qed.
Lemma calm_charged_since start tenant l : calm_result (charged_since start tenant l).
Proof. induction l; simpl; [eauto with raises|]. repeat case_match; eauto 6 with raises. Qed.
#[local] Hint Resolve calm_append calm_validate calm_fence calm_active calm_charged_since : raises.
Lemma calm_budgets request at_ l : calm_result (current_budgets request at_ l).
Proof. unfold current_budgets. raises_solve. Qed.
Lemma calm_check b q t c : calm_result (check_budgets b q t c).
Proof. unfold check_budgets. raises_solve. Qed.
Lemma calm_usage_totals pricing response : calm_result (_usage_totals pricing response).
Proof. unfold _usage_totals. raises_solve. Qed.
#[local] Hint Resolve calm_budgets calm_check calm_usage_totals : raises.

(** The book shows the outcome written before operations that leave it. *)
Lemma written_stays {A} (k : Gw A) s x s' id r :
  bookish k → (do! modify (set_reservations (put_reservation id r)) ;; k) s = (x, s') →
  find_reservation id (gs_reservations s') = Some r.
Proof.
  intros Hk Hrun. unfold bind, modify in Hrun. destruct (Hk _ _ _ Hrun) as [-> _].
  apply find_put_eq.
Qed.

Definition in_memory_settled (s : GatewayState) (id : uuid) : Prop :=
  ∃ r, find_reservation id (gs_reservations s) = Some r ∧ br_active r = false.

(** The operations that only append leave the book. *)
Lemma bookish_lifts {A B} (r : result A) (k : A → Gw B) :
  (∀ a, bookish (k a)) → bookish (bind (lift r) k).
Proof. intros Hk. apply bookish_bind; [apply bookish_pure, pure_lift|done]. Qed.

Lemma bookish_modify_bind {B} (f : GatewayState → GatewayState) (k : unit → Gw B) :
  (∀ s, same_book s (f s)) → (∀ a, bookish (k a)) → bookish (bind (modify f) k).
Proof. intros Hf Hk. apply bookish_bind; [|done]. intros s r s' [= _ <-]. apply Hf. Qed.

Ltac bookish_solve :=
  cbv zeta;
  repeat first [ apply append_bookish
               | apply bookish_lifts; intros ?
               | apply bookish_modify_bind; [by intros|intros ?] ].

#[export] Instance in_memory_laws : GatewayRepoLaws GatewayState.
Proof.
  refine {| repo_settled := in_memory_settled |}; simpl.
  - intros c q l rv rs p a s u s' Hrun. unfold gw_succeed in Hrun.
    do 2 (apply bind_ok in Hrun as (? & ? & _ & Hrun)). case_match.
    do 2 (apply bind_ok in Hrun as (? & ? & _ & Hrun)).
    apply written_stays in Hrun; [by eexists|bookish_solve].
  - intros c q l rv rs p e a s u s' Hrun. unfold record_usage_failure in Hrun.
    do 2 (apply bind_ok in Hrun as (? & ? & _ & Hrun)). case_match.
    do 2 (apply bind_ok in Hrun as (? & ? & _ & Hrun)).
    apply written_stays in Hrun; [by eexists|bookish_solve].
  - intros c q l rv e a s u s' Hrun. unfold gw_fail in Hrun.
    do 3 (apply bind_ok in Hrun as (? & ? & _ & Hrun)).
    apply written_stays in Hrun; [by eexists|bookish_solve].
  - intros. unfold gw_completed. raises_solve.
  - intros. unfold reserve. raises_solve.
  - intros. unfold record_attempt. raises_solve.
  - intros. unfold record_attempt_failure. raises_solve.
  - intros. unfold record_usage_failure. raises_solve.
  - intros. unfold gw_fail. raises_solve.
Defined.
End Laws.

(** ** A sample call with failover *)

#[local] Instance sample_wiring_repr : PyRepr := λ _, ""%string.
#[local] Instance sample_schemas : JsonSchemaLibrary := {
  check_schema _ := true;
  schema_accepts _ _ := true;
}.

(** The cheaper model is down; the other one answers. *)
Definition failover_reply (m : ModelIdentity) : result ModelResponse :=
  if bool_decide (mi_model m = "n"%string)
  then inl (ModelGatewayError (mkGatewayError TRANSIENT "upstream" true None false))
  else inr {| ms_request_id := 11%N; ms_model := m; ms_content := [TextPart "hi"];
              ms_finish_reason := FR_STOP; ms_safety := mkSafetyResult SO_ALLOWED None;
              ms_usage := mkTokenUsage 90 120 0 0 0; ms_latency_ms := 12;
              ms_provider_request_id := None; ms_structured_output := None |}.

Definition sample_oracles : Oracles GatewayState :=
  {| or_clock _ := Dt.Aware 30000000; or_loop_time _ := sf_of_Z 5;
     or_reply _ _ m := failover_reply m; or_cancelled _ := false; or_others _ x := x |}.

Definition sample_gateway : ModelGateway :=
  mkModelGateway sample_catalog {["openai"%string]} (mkRetryPolicy 1 1 default_backoff).

Definition sample_controls : ProviderControls :=
  (ProviderControls_init (map ce_identity sample_catalog) 2 60 6000 3
     (mkControls ∅ ∅ ∅ ∅ (λ _, sf_of_Z 0) 0)).2.

Definition sample_service : Service GatewayState :=
  mkService gw_start sample_controls false false 0 [].

Definition sample_complete : M exn (Service GatewayState) ModelResponse :=
  complete sample_oracles sample_gateway gw_context sample_model_request gw_lease routed_policy
    PRODUCTION RP_COST false.

Definition after_call : Service GatewayState := (sample_complete sample_service).2.

Lemma sample_complete_runs :
  sample_complete sample_service = ((sample_complete sample_service).1, after_call).
Proof. apply surjective_pairing. Qed.

Lemma sample_answer : ∃ response, (sample_complete sample_service).1 = inr response ∧
  mi_model (ms_model response) = "m"%string.
Proof.
  assert (Heq : (mi_model ∘ ms_model) <$> (match (sample_complete sample_service).1 with
    inr r => Some r | inl _ => None end) = Some "m"%string) by (vm_compute; reflexivity).
  destruct (sample_complete sample_service).1 as [e|r]; [done|]. exists r. split; [done|].
  by injection Heq.
Qed.

(** The first model is tried and given up, the second answers, and the
    reservation is settled. *)
Lemma complete_settles_reservation_witness :
  Reserved 500%N ∈ sv_trace after_call ∧ in_memory_settled (sv_repo after_call) 500%N.
Proof.
  assert (Hin : Reserved 500%N ∈ sv_trace after_call).
  { replace (sv_trace after_call) with (Reserved 500%N :: tail (sv_trace after_call))
      by (vm_compute; reflexivity). left. }
  split; [exact Hin|].
  destruct sample_answer as (response & Hr & _).
  pose proof sample_complete_runs as Hrun. unfold sample_complete in Hrun at 1.
  exact (complete_settles_reservation sample_oracles sample_gateway gw_context sample_model_request
    gw_lease routed_policy PRODUCTION RP_COST false sample_service _ after_call 500%N eq_refl Hrun
    ltac:(rewrite Hr; exact I) Hin).
Defined.

Lemma sample_catalog_distinct : NoDup (map ce_identity (mg_catalog sample_gateway)).
Proof. by apply (bool_decide_unpack _). Qed.

Lemma complete_calls_bounded_witness :
  calls (sv_trace after_call) = 2%nat ∧ slots None (sv_trace after_call) = Some None.
Proof.
  split; [vm_compute; reflexivity|].
  pose proof sample_complete_runs as Hrun. unfold sample_complete in Hrun at 1.
  exact (proj1 (complete_calls_bounded sample_oracles sample_gateway gw_context
    sample_model_request gw_lease routed_policy PRODUCTION RP_COST false sample_service _
    after_call eq_refl sample_catalog_distinct eq_refl Hrun)).
Defined.

Lemma complete_response_conforms_witness :
  ∃ response, mi_model (ms_model response) = "m"%string ∧
    ((∃ at_ s0 s1, repo_completed gw_context sample_model_request gw_lease at_ s0
                   = (inr (Some response), s1)) ∨
     ∃ e unavailable, usable sample_model_request sample_catalog routed_policy PRODUCTION
         unavailable e ∧ conforms sample_model_request response (ce_identity e)).
Proof.
  destruct sample_answer as (response & Hr & Hm). exists response. split; [exact Hm|].
  pose proof sample_complete_runs as Hrun. rewrite Hr in Hrun. unfold sample_complete in Hrun at 1.
  exact (complete_response_conforms sample_oracles sample_gateway gw_context sample_model_request
    gw_lease routed_policy PRODUCTION RP_COST false sample_service response after_call
    sample_catalog_distinct Hrun).
Defined.
