(* ===== verification/GatewayPostgres.v ===== *)
(** * The gateway's budget ledger in PostgreSQL

    Models [PostgresGatewayRepository] of [gateway/postgres.py]: reservations,
    attempts and settlements as rows of [model_budget_reservations] and
    [model_usage_projection], each written in the transaction of a fenced
    append of the call's events.  The tables and their constraints are those
    of [migrations/0004_model_gateway.sql]; the session's time zone is UTC. *)

From stdpp Require Import base gmap sets list strings pretty.
From Stdlib Require Import ZArith Lia.
From S2P Require Import Prelude PyLib Json Events Identity Work Amounts Database.
From S2P Require Import EventStore Wire.
From S2P Require Import Policy ModelContracts Routing GatewayRepository GatewayService.

Local Open Scope Z_scope.

(** ** Helpers *)

Definition _validate (context : TenantContext) (request : ModelRequest) (lease : WorkLease)
    (at_ : Dt.datetime) : result unit :=
  raise! ValueError "tenant, request, run, and fence must match"
    when! negb (bool_decide (ctx_str context = mq_tenant_id request))
          || negb (bool_decide (mq_tenant_id request = wl_tenant_id lease))
          || negb (bool_decide (mq_run_id request = wl_work_id lease)) ;;
  reject_if (Dt.naive at_) (ValueError "gateway event time must be timezone-aware").

Definition _common (request : ModelRequest) (lease : WorkLease) (reservation : BudgetReservation)
    : list (string * pyval) :=
  [("work_id", PStr (Uuid.to_str (wl_work_id lease)));
   ("run_id", PStr (Uuid.to_str (mq_run_id request)));
   ("lease_token", PStr (Uuid.to_str (wl_token lease)));
   ("lease_generation", PInt (wl_generation lease));
   ("request_id", PStr (Uuid.to_str (mq_request_id request)));
   ("reservation_id", PStr (Uuid.to_str (br_reservation_id reservation)))]%string.

(** [str(payload.get(key, default))] of the integers and strings the events hold *)
Definition get_str (key : string) (fallback : string) (payload : pydict) : string :=
  match dict_get key payload with
  | Some (PInt z) => pretty z
  | Some (PStr s) => s
  | _ => fallback
  end.

(** [isinstance(value, str) and value] *)
Definition non_empty_str (key : string) (payload : pydict) : list string :=
  match dict_get key payload with
  | Some (PStr s) => if PyStr.is_empty s then [] else [s]
  | _ => []
  end.

Definition _event_idempotency_key (request : ModelRequest) (ty : DomainEventType)
    (payload : pydict) (index : Z) : string :=
  String.concat ":"
    ([mq_idempotency_key request; event_type_value ty; get_str "fallback_index" "0" payload;
      get_str "attempt" "0" payload; get_str "reservation_id" "" payload; pretty index]
     ++ non_empty_str "provider" payload ++ non_empty_str "model" payload).

Definition call_event (request : ModelRequest) (lease : WorkLease) (at_ : Dt.datetime)
    (id : uuid) (causation : option uuid) (index : Z) (ty : DomainEventType) (details : pydict)
    : EventEnvelope :=
  {| event_id := id; ev_tenant_id := mq_tenant_id request;
     aggregate_id := Uuid.to_str (wl_work_id lease); event_type := event_type_value ty;
     schema_version := 1; occurred_at := at_; payload := details;
     correlation_id := Some (mq_run_id request); causation_id := causation;
     aggregate_sequence := 0; global_position := None; recorded_at := None;
     actor := None; identity_reference := None; policy_reference := None;
     audit_reference := None;
     idempotency_key := Some (_event_idempotency_key request ty details index);
     trace_context := None; previous_aggregate_sequence := None; metadata := [] |}.

(** The loop of [_events], from [index] and the event before. *)
Fixpoint events_from (request : ModelRequest) (lease : WorkLease) (at_ : Dt.datetime)
    (index : Z) (causation : option uuid) (values : list (DomainEventType * pydict))
    : Db (list EventEnvelope) :=
  match values with
  | [] => ret []
  | (ty, details) :: rest =>
      let! id := uuid_factory in
      let! e := lift (EventEnvelope_post_init
                        (call_event request lease at_ id causation index ty details)) in
      let! others := events_from request lease at_ (index + 1) (Some id) rest in
      ret (e :: others)
  end.

Definition _events (request : ModelRequest) (lease : WorkLease) (at_ : Dt.datetime)
    (values : list (DomainEventType * pydict)) : Db (list EventEnvelope) :=
  events_from request lease at_ 1 None values.

Definition _usage (u : TokenUsage) : list (string * pyval) :=
  [("input_tokens", PInt (input_tokens u)); ("output_tokens", PInt (output_tokens u));
   ("cache_read_tokens", PInt (cache_read_tokens u));
   ("cache_write_tokens", PInt (cache_write_tokens u));
   ("reasoning_tokens", PInt (reasoning_tokens u))]%string.

Definition _failure_event_type (e : gateway_error) : DomainEventType :=
  match ge_error_class e with
  | MODEL_TIMEOUT => MODEL_CALL_TIMED_OUT
  | RATE_LIMIT => MODEL_CALL_RATE_LIMITED
  | MODEL_CANCELLED => MODEL_CALL_CANCELLED
  | _ => MODEL_CALL_FAILED
  end.

Definition _usage_totals (pricing : PricingVersion) (response : ModelResponse)
    : result (Z * decimal) :=
  let? c := cost pricing (ms_usage response) in
  inr (billable_tokens (ms_usage response), c).

Definition _actual_usage (pricing : PricingVersion) (response : ModelResponse)
    (reservation : BudgetReservation) : result (Z * decimal) :=
  let? totals := _usage_totals pricing response in
  let '(tokens, charged) := totals in
  raise! provider_bug "usage_exceeded_token_reservation"
    when! br_token_limit reservation <? tokens ;;
  let? over := dec_gt charged (br_cost_limit_usd reservation) in
  raise! provider_bug "usage_exceeded_cost_reservation" when! over ;;
  inr (tokens, charged).

(** All four comparisons are made before the first denial. *)
Definition _check_budget (quotas : QuotaLimits) (b : budgets) (token_limit : Z)
    (cost_limit : decimal) : result unit :=
  let? run := dec_add (bu_run_cost b) cost_limit in
  let? over_run := dec_gt run (max_run_cost_usd quotas) in
  let? tenant := dec_add (bu_tenant_cost b) cost_limit in
  let? over_tenant := dec_gt tenant (max_tenant_cost_usd_per_period quotas) in
  raise! BudgetDeniedError "run_token_budget_exceeded"
    when! max_run_tokens quotas <? bu_run_tokens b + token_limit ;;
  raise! BudgetDeniedError "run_cost_budget_exceeded" when! over_run ;;
  raise! BudgetDeniedError "tenant_token_budget_exceeded"
    when! max_tenant_tokens_per_period quotas <? bu_tenant_tokens b + token_limit ;;
  reject_if over_tenant (BudgetDeniedError "tenant_cost_budget_exceeded").

(** ** Statements *)

Definition tenant_row (tenant : string) (t : Tables) : bool := bool_decide (tenant ∈ t_tenants t).

(** [INSERT ... ON CONFLICT DO UPDATE], then [SELECT ... FOR UPDATE] *)
Definition _lock_budget (tenant : string) : Db unit :=
  let! known := query (tenant_row tenant) in
  do! raise_if (negb known) violates ;;
  execute (upd_budgets (λ b,
    mkBudgetTables ({[tenant]} ∪ bt_locks b) (bt_reservations b) (bt_quotas b))).

(** [pg_try_advisory_lock] from a session that is not the rebuilder's, and
    its release. *)
Definition under_maintenance (tenant : string) : Db bool :=
  gets (λ w, bool_decide (("model-usage"%string, tenant) ∈ w_maintenance w)).

Definition _quota_limits (tenant : string) : Db QuotaLimits :=
  let! row := query (λ t, bt_quotas (t_budgets t) !! tenant) in
  match row with
  | None => raise (BudgetDeniedError "tenant_quota_not_configured")
  | Some q =>
      lift (QuotaLimits_post_init
        (mkQuotaLimits (qr_max_run_tokens q) (of_numeric 6 (qr_max_run_cost_usd q))
           (qr_max_tenant_tokens_per_period q) (of_numeric 6 (qr_max_tenant_cost_usd_per_period q))
           (qr_max_concurrent_runs q)))
  end.

(** [==] of decimals; NaN equals nothing. *)
Definition dec_eqb (a b : decimal) : bool :=
  match dec_cmp a b with inr Eq => true | _ => false end.

Definition quotas_eqb (a b : QuotaLimits) : bool :=
  (max_run_tokens a =? max_run_tokens b)
  && dec_eqb (max_run_cost_usd a) (max_run_cost_usd b)
  && (max_tenant_tokens_per_period a =? max_tenant_tokens_per_period b)
  && dec_eqb (max_tenant_cost_usd_per_period a) (max_tenant_cost_usd_per_period b)
  && (max_concurrent_runs a =? max_concurrent_runs b).

(** [COALESCE(sum(column), 0)] of a [numeric(20, 10)] column *)
Definition sum_costs (l : list numeric) : decimal :=
  match l with
  | [] => DFin 0 0
  | _ => of_numeric 10 (foldr numeric_add (Some 0) l)
  end.

Definition tenant_values {V} (tenant : string) (m : gmap (string * uuid) V) : list V :=
  omap (λ kv : string * uuid * V, if bool_decide (kv.1.1 = tenant) then Some kv.2 else None)
    (map_to_list m).

Definition active_row (r : BudgetRow) : bool := bool_decide (bg_status r = RS_ACTIVE).

(** The four aggregate queries of [reserve]. *)
Definition admitted_budgets (request : ModelRequest) (at_ : Dt.datetime) (t : Tables)
    : result budgets :=
  let tenant := mq_tenant_id request in
  let active := List.filter active_row (tenant_values tenant (bt_reservations (t_budgets t))) in
  let usage := tenant_values tenant (v_model_usage (t_views t)) in
  let start := Dt.us (_billing_period_start at_) in
  let used := List.filter (λ u, start <=? mu_recorded_at u) usage in
  let run_active := List.filter (λ r, bool_decide (bg_run_id r = mq_run_id request)) active in
  let run_used := List.filter (λ u, bool_decide (mu_run_id u = mq_run_id request)) usage in
  let? tenant_cost := dec_add (sum_costs (map bg_cost_limit_usd active))
                              (sum_costs (map mu_cost_usd used)) in
  let? run_cost := dec_add (sum_costs (map bg_cost_limit_usd run_active))
                           (sum_costs (map mu_cost_usd run_used)) in
  inr (mkBudgets (sum_Z (map bg_token_limit active) + sum_Z (map mu_total_tokens used))
         tenant_cost
         (sum_Z (map bg_token_limit run_active) + sum_Z (map mu_total_tokens run_used))
         run_cost).

Definition holds_call (row r : BudgetRow) : bool :=
  negb (bool_decide (bg_status r = RS_RELEASED))
  && (bool_decide (bg_request_id r = bg_request_id row)
      || bool_decide (bg_idempotency_key r = bg_idempotency_key row)).

(** [INSERT INTO model_budget_reservations]: primary and foreign keys, checks
    and the two partial unique indexes. *)
Definition insert_reservation (tenant : string) (reservation_id : uuid) (row : BudgetRow) : Db unit :=
  let! t := query id in
  do! raise_if
        (is_some (bt_reservations (t_budgets t) !! (tenant, reservation_id))
         || existsb (holds_call row) (tenant_values tenant (bt_reservations (t_budgets t)))
         || negb (tenant_row tenant t)
         || negb (is_some (t_work_items t !! (tenant, bg_work_id row)))
         || PyStr.is_empty (bg_idempotency_key row) || (bg_token_limit row <? 1)
         || negb (numeric_nonneg (bg_cost_limit_usd row)) || PyStr.is_empty (bg_price_version row)
         || (bg_lease_generation row <? 1)) violates ;;
  execute (upd_budgets (λ b,
    mkBudgetTables (bt_locks b) (<[(tenant, reservation_id) := row]> (bt_reservations b)) (bt_quotas b))).

(** [UPDATE model_budget_reservations SET status ... WHERE ... status =
    'active' AND lease_token = ... AND lease_generation = ...], which must
    match one row *)
Definition settle_row (row : BudgetRow) (status : ReservationStatus) (tokens : Z) (cost : numeric)
    (at_ : Dt.datetime) : BudgetRow :=
  {| bg_run_id := bg_run_id row; bg_work_id := bg_work_id row; bg_request_id := bg_request_id row;
     bg_idempotency_key := bg_idempotency_key row; bg_token_limit := bg_token_limit row;
     bg_cost_limit_usd := bg_cost_limit_usd row; bg_price_version := bg_price_version row;
     bg_status := status; bg_charged_tokens := tokens; bg_charged_cost_usd := cost;
     bg_lease_token := bg_lease_token row; bg_lease_generation := bg_lease_generation row;
     bg_created_at := bg_created_at row; bg_expires_at := bg_expires_at row;
     bg_reconciled_at := Some (Dt.us at_) |}.

Definition settle_reservation (tenant : string) (id : uuid) (lease : WorkLease)
    (f : BudgetRow → BudgetRow) : Db unit :=
  let! row := query (λ t, bt_reservations (t_budgets t) !! (tenant, id)) in
  match row with
  | Some row =>
      do! raise_if (negb (active_row row && bool_decide (bg_lease_token row = wl_token lease)
                          && (bg_lease_generation row =? wl_generation lease)))
            (ConcurrencyError 1 0) ;;
      do! raise_if ((bg_charged_tokens (f row) <? 0)
                    || negb (numeric_nonneg (bg_charged_cost_usd (f row)))) violates ;;
      execute (upd_budgets (λ b,
        mkBudgetTables (bt_locks b) (<[(tenant, id) := f row]> (bt_reservations b)) (bt_quotas b)))
  | None => raise (ConcurrencyError 1 0)
  end.

(** [INSERT INTO model_usage_projection] *)
Definition insert_usage (tenant : string) (request_id : uuid) (row : ModelUsageRow) : Db unit :=
  let! t := query id in
  do! raise_if
        (is_some (v_model_usage (t_views t) !! (tenant, request_id))
         || negb (tenant_row tenant t)
         || PyStr.is_empty (mu_provider row) || PyStr.is_empty (mu_model row)
         || PyStr.is_empty (mu_price_version row)
         || existsb (λ n, n <? 0)
              [mu_input_tokens row; mu_output_tokens row; mu_cache_read_tokens row;
               mu_cache_write_tokens row; mu_reasoning_tokens row; mu_total_tokens row]
         || negb (numeric_nonneg (mu_cost_usd row))) violates ;;
  execute (upd_views (λ v,
    mkViews (v_checkpoints v) (v_run_status v) (v_artifacts v) (v_pending v)
      (<[(tenant, request_id) := row]> (v_model_usage v)) (v_usage_quota v)
      (v_tenant_listing v))).

(** ** Operations *)

Section Repository.
Context `{PyRepr}.

Definition completed (context : TenantContext) (request : ModelRequest) (lease : WorkLease)
    (at_ : Dt.datetime) : Db (option ModelResponse) :=
  ret None.

Definition _append_fenced (context : TenantContext) (lease : WorkLease)
    (events : list EventEnvelope) (at_ : Dt.datetime) (mutation : option (Db unit)) : Db unit :=
  let! expected := current_version context (Uuid.to_str (wl_work_id lease)) in
  do! append_fenced context events expected (wl_work_id lease) (wl_token lease)
        (wl_generation lease) at_ [] mutation ;;
  ret tt.

Definition reserve_values (request : ModelRequest) (lease : WorkLease) (route : RouteDecision)
    (reservation : BudgetReservation) : list (DomainEventType * pydict) :=
  let common := _common request lease reservation in
  let selected := ce_identity (rd_selected route) in
  let model := [("provider", PStr (mi_provider selected));
                ("model", PStr (mi_model selected))]%string in
  [(MODEL_ROUTE_DECIDED, dict_of (common ++ model ++
      [("candidate_count", PInt (Z.of_nat (length (rd_candidates route))));
       ("rationale", PTuple (map PStr (rd_rationale route)))]%string));
   (MODEL_CALL_REQUESTED, dict_of (common ++ model ++
      [("message_count", PInt (Z.of_nat (length (mq_messages request))));
       ("content_digest", PStr (request_content_digest request));
       ("max_output_tokens", PInt (mq_max_output_tokens request));
       ("prompt_token_estimate", PInt (mq_prompt_token_estimate request));
       ("has_tools", PBool (negb (bool_decide (length (mq_tools request) = 0%nat))));
       ("has_structured_output", PBool (is_some (mq_response_schema request)));
       ("persistence_policy", PStr "metadata_and_digest_only")]%string));
   (MODEL_BUDGET_RESERVED, dict_of (common ++
      [("token_limit", PInt (br_token_limit reservation));
       ("cost_limit_usd", PStr (dec_str (br_cost_limit_usd reservation)));
       ("price_version", PStr (br_price_version reservation))]%string))].

Definition reservation_row (request : ModelRequest) (lease : WorkLease) (token_limit : Z)
    (cost_limit : numeric) (price_version : string) (at_ : Dt.datetime) : BudgetRow :=
  {| bg_run_id := mq_run_id request; bg_work_id := wl_work_id lease;
     bg_request_id := mq_request_id request; bg_idempotency_key := mq_idempotency_key request;
     bg_token_limit := token_limit; bg_cost_limit_usd := cost_limit;
     bg_price_version := price_version; bg_status := RS_ACTIVE; bg_charged_tokens := 0;
     bg_charged_cost_usd := Some 0; bg_lease_token := wl_token lease;
     bg_lease_generation := wl_generation lease; bg_created_at := Dt.us at_;
     bg_expires_at := Dt.us (wl_expires_at lease); bg_reconciled_at := None |}.

(** The [mutation] of [reserve]. *)
Definition admission (request : ModelRequest) (lease : WorkLease) (reservation : BudgetReservation)
    (quotas : QuotaLimits) (at_ : Dt.datetime) : Db unit :=
  let tenant := mq_tenant_id request in
  do! _lock_budget tenant ;;
  let! blocked := under_maintenance tenant in
  do! raise_if blocked (BudgetDeniedError "model_usage_projection_under_maintenance") ;;
  let! configured := _quota_limits tenant in
  do! raise_if (negb (quotas_eqb configured quotas))
        (BudgetDeniedError "policy_quota_projection_mismatch") ;;
  let! t := query id in
  let! totals := lift (admitted_budgets request at_ t) in
  do! lift (_check_budget quotas totals (br_token_limit reservation)
              (br_cost_limit_usd reservation)) ;;
  let! cost_limit := lift (to_numeric 20 10 (br_cost_limit_usd reservation)) in
  insert_reservation tenant (br_reservation_id reservation)
    (reservation_row request lease (br_token_limit reservation) cost_limit
       (br_price_version reservation) at_).

Definition reserve (context : TenantContext) (request : ModelRequest) (lease : WorkLease)
    (route : RouteDecision) (quotas : QuotaLimits) (token_limit : Z) (cost_limit_usd : decimal)
    (price_version : string) (at_ : Dt.datetime) : Db BudgetReservation :=
  do! lift (_validate context request lease at_) ;;
  let! id := uuid_factory in
  let reservation :=
    {| br_reservation_id := id; br_tenant_id := mq_tenant_id request;
       br_run_id := mq_run_id request; br_request_id := mq_request_id request;
       br_token_limit := token_limit; br_cost_limit_usd := cost_limit_usd;
       br_price_version := price_version; br_active := true; br_status := RS_ACTIVE;
       br_charged_tokens := 0; br_charged_cost_usd := DFin 0 0; br_created_at := None;
       br_expires_at := None; br_reconciled_at := None |} in
  let! events := _events request lease at_ (reserve_values request lease route reservation) in
  do! _append_fenced context lease events at_
        (Some (admission request lease reservation quotas at_)) ;;
  ret reservation.

Definition attempt_values (request : ModelRequest) (lease : WorkLease)
    (reservation : BudgetReservation) (provider model : string) (attempt fallback_index : Z)
    : list (DomainEventType * pydict) :=
  let common := _common request lease reservation in
  let chosen := [("provider", PStr provider); ("model", PStr model)]%string in
  (if (0 <? fallback_index) && (attempt =? 1) then
     [(MODEL_FALLBACK_SELECTED,
       dict_of (common ++ chosen ++ [("fallback_index", PInt fallback_index)]%string))]
   else [])
  ++ [(if (fallback_index =? 0) && (attempt =? 1) then MODEL_CALL_STARTED
       else MODEL_CALL_ATTEMPTED,
       dict_of (common ++ chosen ++
         [("attempt", PInt attempt); ("fallback_index", PInt fallback_index)]%string))].

Definition record_attempt (context : TenantContext) (request : ModelRequest) (lease : WorkLease)
    (reservation : BudgetReservation) (provider model : string) (attempt fallback_index : Z)
    (at_ : Dt.datetime) : Db unit :=
  do! lift (_validate context request lease at_) ;;
  let! events := _events request lease at_
                   (attempt_values request lease reservation provider model attempt
                      fallback_index) in
  _append_fenced context lease events at_ None.

Definition usage_row (request : ModelRequest) (response : ModelResponse) (pricing : PricingVersion)
    (tokens : Z) (cost : numeric) (at_ : Dt.datetime) : ModelUsageRow :=
  let usage := ms_usage response in
  mkModelUsageRow (mq_run_id request) (mi_provider (ms_model response))
    (mi_model (ms_model response)) (pv_version pricing) (input_tokens usage)
    (output_tokens usage) (cache_read_tokens usage) (cache_write_tokens usage)
    (reasoning_tokens usage) tokens cost (Dt.us at_).

(** The [mutation] of [succeed] and of [record_usage_failure]. *)
Definition charge (request : ModelRequest) (lease : WorkLease) (reservation : BudgetReservation)
    (response : ModelResponse) (pricing : PricingVersion) (tokens : Z) (charged : decimal)
    (at_ : Dt.datetime) : Db unit :=
  let tenant := mq_tenant_id request in
  let! cost := lift (to_numeric 20 10 charged) in
  do! settle_reservation tenant (br_reservation_id reservation) lease
        (λ row, settle_row row RS_CHARGED tokens cost at_) ;;
  insert_usage tenant (mq_request_id request)
    (usage_row request response pricing tokens cost at_).

Definition response_common (request : ModelRequest) (lease : WorkLease)
    (reservation : BudgetReservation) (response : ModelResponse) (pricing : PricingVersion)
    : list (string * pyval) :=
  _common request lease reservation ++
  [("provider", PStr (mi_provider (ms_model response)));
   ("model", PStr (mi_model (ms_model response)));
   ("price_version", PStr (pv_version pricing))]%string.

Definition charged_values (common : list (string * pyval)) (usage : TokenUsage) (tokens : Z)
    (charged : decimal) : list (DomainEventType * pydict) :=
  [(MODEL_USAGE_RECORDED, dict_of (common ++ _usage usage ++
      [("cost_usd", PStr (dec_str charged))]%string));
   (MODEL_BUDGET_CHARGED, dict_of (common ++
      [("tokens", PInt tokens); ("cost_usd", PStr (dec_str charged))]%string))].

Definition succeed (context : TenantContext) (request : ModelRequest) (lease : WorkLease)
    (reservation : BudgetReservation) (response : ModelResponse) (pricing : PricingVersion)
    (at_ : Dt.datetime) : Db unit :=
  do! lift (_validate context request lease at_) ;;
  let! actual := lift (_actual_usage pricing response reservation) in
  let '(tokens, charged) := actual in
  let common := response_common request lease reservation response pricing in
  let! released := lift (dec_sub (br_cost_limit_usd reservation) charged) in
  let! events := _events request lease at_
    ((MODEL_CALL_SUCCEEDED, dict_of (common ++
        [("finish_reason", PStr (sc_value (ms_finish_reason response)));
         ("safety_outcome", PStr (sc_value (sr_outcome (ms_safety response))));
         ("latency_ms", PInt (ms_latency_ms response));
         ("provider_request_id", opt_str (ms_provider_request_id response))]%string))
     :: charged_values common (ms_usage response) tokens charged ++
     [(MODEL_BUDGET_RELEASED, dict_of (common ++
        [("tokens_released", PInt (br_token_limit reservation - tokens));
         ("cost_released_usd", PStr (dec_str released))]%string))]) in
  _append_fenced context lease events at_
    (Some (charge request lease reservation response pricing tokens charged at_)).

Definition record_usage_failure (context : TenantContext) (request : ModelRequest)
    (lease : WorkLease) (reservation : BudgetReservation) (response : ModelResponse)
    (pricing : PricingVersion) (error : gateway_error) (at_ : Dt.datetime) : Db unit :=
  do! lift (_validate context request lease at_) ;;
  let! actual := lift (_usage_totals pricing response) in
  let '(tokens, charged) := actual in
  let common := response_common request lease reservation response pricing in
  let! unspent := lift (dec_sub (br_cost_limit_usd reservation) charged) in
  let! released := lift (dec_max unspent [DFin 0 0]) in
  let! events := _events request lease at_
    ((_failure_event_type error, dict_of (common ++ error_details error))
     :: charged_values common (ms_usage response) tokens charged ++
     [(MODEL_BUDGET_RELEASED, dict_of (common ++
        [("tokens_released", PInt (Z.max (br_token_limit reservation - tokens) 0));
         ("cost_released_usd", PStr (dec_str released));
         ("reason", PStr "validation_failed_after_provider_response")]%string))]) in
  _append_fenced context lease events at_
    (Some (charge request lease reservation response pricing tokens charged at_)).

Definition record_attempt_failure (context : TenantContext) (request : ModelRequest)
    (lease : WorkLease) (reservation : BudgetReservation) (error : gateway_error)
    (provider model : string) (attempt fallback_index : Z) (at_ : Dt.datetime) : Db unit :=
  do! lift (_validate context request lease at_) ;;
  let! events := _events request lease at_
    [(_failure_event_type error, dict_of (_common request lease reservation ++
        [("provider", PStr provider); ("model", PStr model); ("attempt", PInt attempt);
         ("fallback_index", PInt fallback_index)]%string ++ error_details error))] in
  _append_fenced context lease events at_ None.

(** The [mutation] of [fail]: the row keeps its zero charge. *)
Definition release_budget (request : ModelRequest) (lease : WorkLease)
    (reservation : BudgetReservation) (at_ : Dt.datetime) : Db unit :=
  settle_reservation (mq_tenant_id request) (br_reservation_id reservation) lease
    (λ row, settle_row row RS_RELEASED (bg_charged_tokens row) (bg_charged_cost_usd row) at_).

Definition fail (context : TenantContext) (request : ModelRequest) (lease : WorkLease)
    (reservation : BudgetReservation) (error : gateway_error) (at_ : Dt.datetime) : Db unit :=
  do! lift (_validate context request lease at_) ;;
  let details := _common request lease reservation ++ error_details error in
  let! events := _events request lease at_
    [(_failure_event_type error, dict_of details);
     (MODEL_BUDGET_RELEASED, dict_of (details ++
        [("tokens_released", PInt (br_token_limit reservation));
         ("cost_released_usd", PStr (dec_str (br_cost_limit_usd reservation)));
         ("reason", PStr "model_call_failed")]%string))] in
  _append_fenced context lease events at_
    (Some (release_budget request lease reservation at_)).

#[global] Instance postgres_repo : GatewayRepo World := {
  repo_completed := completed;
  repo_reserve := reserve;
  repo_record_attempt := record_attempt;
  repo_succeed := succeed;
  repo_record_usage_failure := record_usage_failure;
  repo_record_attempt_failure := record_attempt_failure;
  repo_fail := fail;
}.
End Repository.
