(* ===== verification/GatewayPostgresTheorems.v ===== *)
(** * Theorems about the PostgreSQL budget ledger

    Every call of [PostgresGatewayRepository] is one fenced transaction: it
    fails with no effect, or commits its events together with its budget rows
    under the current lease.  From that follow the budget bounds, that a call
    is charged once, and the laws the gateway service relies on. *)

From stdpp Require Import base gmap sets list strings.
From Stdlib Require Import ZArith Lia.
From S2P Require Import Prelude PyLib Json Events Identity Work Amounts Database EventStore Wire.
From S2P Require Import Ledger LedgerReads LedgerAppend LedgerTheorems.
From S2P Require Import Policy ModelContracts Routing GatewayRepository GatewayService.
From S2P Require Import GatewayServiceTheorems GatewayPostgres.

Local Open Scope Z_scope.

(** ** Fenced transactions *)

(** Code that leaves the tables alone, and code that does when it raises. *)
Definition untouched {A} (m : Db A) : Prop := ∀ w r w', m w = (r, w') → w_db w' = w_db w.
Definition atomic {A} (m : Db A) : Prop := ∀ w e w', m w = (inl e, w') → w_db w' = w_db w.

Lemma untouched_atomic {A} (m : Db A) : untouched m → atomic m.
Proof. intros Hm w e w'. apply Hm. Qed.
Lemma untouched_ret {A} (a : A) : untouched (ret a).
Proof. by intros w r w' [= <- <-]. Qed.
Lemma untouched_lift {A} (r : result A) : untouched (lift r).
Proof. by intros w x w' [= <- <-]. Qed.
Lemma untouched_uuid : untouched uuid_factory.
Proof. by intros w r w' [= <- <-]. Qed.
Lemma untouched_bind {A B} (m : Db A) (k : A → Db B) :
  untouched m → (∀ a, untouched (k a)) → untouched (bind m k).
Proof.
  intros Hm Hk w r w'. unfold bind. destruct (m w) as [[e|a] w1] eqn:H1.
  - intros [= <- <-]. by eapply Hm.
  - intros H2. rewrite (Hk _ _ _ _ H2). by eapply Hm.
Qed.
Lemma atomic_bind {A B} (m : Db A) (k : A → Db B) :
  untouched m → (∀ a, atomic (k a)) → atomic (bind m k).
Proof.
  intros Hm Hk w e w'. unfold bind. destruct (m w) as [[e1|a] w1] eqn:H1.
  - intros [= <- <-]. by eapply Hm.
  - intros H2. rewrite (Hk _ _ _ _ H2). by eapply Hm.
Qed.

Lemma atomic_then {A B} (m : Db A) (b : B) : atomic m → atomic (do! m ;; ret b).
Proof. intros Hm w e w' [Hrun|(a & w1 & _ & [=])]%bind_err. by eapply Hm. Qed.

Create HintDb atomic.
#[export] Hint Resolve untouched_ret untouched_lift untouched_uuid untouched_bind atomic_bind atomic_then
  untouched_atomic : atomic.

Lemma untouched_events request lease at_ index causation values :
  untouched (events_from request lease at_ index causation values).
Proof.
  revert index causation. induction values as [|[ty details] values IH];
    intros index causation; simpl; auto 10 with atomic.
Qed.
Lemma untouched_call_events request lease at_ values : untouched (_events request lease at_ values).
Proof. apply untouched_events. Qed.
#[export] Hint Resolve untouched_call_events : atomic.

Lemma current_version_run context agg w v w' :
  current_version context agg w = (inr v, w') →
  v = default 0 (t_heads (w_db w) !! (ctx_str context, agg)) ∧ w' = started w.
Proof.
  unfold current_version. intros Hrun. apply bind_ok in Hrun as (u & w1 & H1 & Hrun).
  apply raise_if_ok in H1 as (_ & -> & _).
  rewrite (transaction_run _ w (default 0 (t_heads (w_db w) !! (ctx_str context, agg))) (started w))
    in Hrun by reflexivity.
  by injection Hrun as <- <-.
Qed.

Lemma atomic_append_fenced context lease events at_ m :
  atomic (_append_fenced context lease events at_ m).
Proof.
  intros w e w' Hrun. unfold _append_fenced in Hrun.
  apply bind_err in Hrun as [Hrun|(v & w1 & Hv & Hrun)].
  { unfold current_version in Hrun. apply bind_err in Hrun as [Hrun|(u & w1 & H1 & Hrun)].
    - apply raise_if_err in Hrun as (_ & -> & _). done.
    - apply raise_if_ok in H1 as (_ & -> & _).
      by rewrite (transaction_run _ w (default 0 (t_heads (w_db w)
        !! (ctx_str context, Uuid.to_str (wl_work_id lease)))) (started w)) in Hrun by reflexivity. }
  apply current_version_run in Hv as [_ ->].
  apply bind_err in Hrun as [Hrun|(x & w2 & _ & Hrun)]; [|done].
  destruct (fence_arguments_spec context events v (wl_work_id lease) (wl_token lease)
    (wl_generation lease) at_ [] m (started w)) as [[_ Heq]|[_ [e0 Heq]]];
    rewrite Heq in Hrun; [|by injection Hrun as _ <-].
  destruct (fenced_body context events v (wl_work_id lease) (wl_token lease)
    (wl_generation lease) [] m (started (started w))) as [[e1|a] w1] eqn:Hb.
  - rewrite (transaction_raise _ _ _ _ Hb) in Hrun. by injection Hrun as _ <-.
  - by rewrite (transaction_run _ _ _ _ Hb) in Hrun.
Qed.
#[export] Hint Resolve atomic_append_fenced : atomic.

(** A committed call: the lease it held, its events, and the state with the
    events appended in which its statements ran. *)
Record fenced_commit (context : TenantContext) (lease : WorkLease) (events : list EventEnvelope)
    (at_ : Dt.datetime) (m : Db unit) (w w' : World) : Prop := {
  fc_lease : ∃ row now, t_work_leases (w_db w) !! (ctx_str context, wl_work_id lease) = Some row ∧
    lease_current row (wl_token lease) (wl_generation lease) (w_clock w now) = true;
  fc_events : ∃ head, fence_arguments context events head (wl_work_id lease) (wl_token lease)
                        (wl_generation lease) at_;
  fc_run : ∃ w1 now,
    let agg := Uuid.to_str (wl_work_id lease) in
    let head := default 0 (t_heads (w_db w) !! (ctx_str context, agg)) in
    w_db w1 = append_tables (w_db w) (ctx_str context, agg) (head + Z.of_nat (length events))
                (new_rows events head (w_position w) (w_clock w now)) [] ∧
    w_maintenance w1 = w_maintenance w ∧ m w1 = (inr tt, w');
}.

Definition run_mutation (m : option (Db unit)) : Db unit :=
  match m with Some m => m | None => ret tt end.

Lemma append_fenced_commit context lease events at_ m w u w' :
  _append_fenced context lease events at_ m w = (inr u, w') →
  fenced_commit context lease events at_ (run_mutation m) w w'.
Proof.
  unfold _append_fenced. intros Hrun.
  apply bind_ok in Hrun as (v & w1 & Hv & Hrun). apply current_version_run in Hv as [Hv ->].
  apply bind_ok in Hrun as (x & w2 & Hrun & Hret).
  unfold ret in Hret. injection Hret as _ <-.
  destruct (fence_arguments_spec context events v (wl_work_id lease) (wl_token lease)
    (wl_generation lease) at_ [] m (started w)) as [[Hargs Heq]|[_ [e0 Heq]]];
    rewrite Heq in Hrun; [|done].
  destruct (fenced_body context events v (wl_work_id lease) (wl_token lease)
    (wl_generation lease) [] m (started (started w))) as [[e1|a] w1] eqn:Hb;
    [by rewrite (transaction_raise _ _ _ _ Hb) in Hrun|].
  rewrite (transaction_run _ _ _ _ Hb) in Hrun. injection Hrun as <- <-.
  unfold fenced_body in Hb. fold (run_mutation m) in Hb. db_inv.
  destruct (t_work_leases (w_db w) !! (ctx_str context, wl_work_id lease)) as [row|] eqn:Hrow;
    [|done].
  bool_props. split; [by eexists row, _|by exists v|].
  match goal with Ha : _append_in_transaction _ _ _ _ = _ |- _ =>
    apply append_in_transaction_ok in Ha as (first & rest & Hev & _ & Hhead & -> & -> & _) end.
  assert (Hfirst : ev_tenant_id first = ctx_str context ∧
                   aggregate_id first = Uuid.to_str (wl_work_id lease)).
  { destruct Hargs as (Hval & _ & _ & Hall). apply validate_append_ok in Hval as (_ & _ & agg & Ht).
    rewrite Hev in Hall, Ht. apply Forall_cons in Hall as [(? & _) _].
    apply Forall_cons in Ht as [(? & _) _]. done. }
  destruct Hfirst as [Ht Ha]. rewrite Ht, Ha in *.
  match goal with Hmut : run_mutation m ?wa = (inr ?x, _) |- _ =>
    destruct x; exists wa, (S (w_tick w)) end.
  simpl in Hhead. cbv zeta. rewrite Hhead. by split_and!.
Qed.

(** Draws of identifiers before the transaction. *)
Definition drew (w w' : World) : Prop :=
  w_db w' = w_db w ∧ w_clock w' = w_clock w ∧ w_position w' = w_position w ∧
  w_maintenance w' = w_maintenance w.

Lemma fenced_commit_before context lease events at_ m w0 w w' :
  drew w0 w →
  fenced_commit context lease events at_ m w w' → fenced_commit context lease events at_ m w0 w'.
Proof.
  intros (Hd & Hc & Hp & Hm) [Hl He Hr]. rewrite Hd, Hc in Hl. split; [done..|].
  by rewrite Hd, Hc, Hp, Hm in Hr.
Qed.

Lemma events_drew request lease at_ index causation values w r w' :
  events_from request lease at_ index causation values w = (r, w') → drew w w'.
Proof.
  revert index causation w r. induction values as [|[ty details] values IH];
    intros index causation w r; simpl; [by intros [= <- <-]|].
  unfold bind at 1, uuid_factory at 1, bind at 1, lift at 1.
  destruct (EventEnvelope_post_init _) as [e|e]; [by intros [= <- <-]|].
  unfold bind. intros Hrun.
  match type of Hrun with context [events_from _ _ _ _ _ values ?w0] =>
    destruct (events_from request lease at_ (index + 1) (Some (w_uuids w (w_draw w))) values w0)
      as [[x|l] w1] eqn:Hrest end; injection Hrun as _ <-; by apply IH in Hrest.
Qed.

(** The events are accepted envelopes of the call. *)
Lemma events_shape request lease at_ index causation values w events w' :
  events_from request lease at_ index causation values w = (inr events, w') →
  Forall2 (λ v e, ∃ id cause i, EventEnvelope_post_init
             (call_event request lease at_ id cause i v.1 v.2) = inr e) values events.
Proof.
  revert index causation w events. induction values as [|[ty details] values IH];
    intros index causation w events Hrun; simpl in Hrun; db_inv; constructor.
  - by eexists _, _, _.
  - by eapply IH.
Qed.

Lemma events_valid request lease at_ values w events w' :
  _events request lease at_ values w = (inr events, w') → Forall event_valid events.
Proof.
  intros Hrun%events_shape. induction Hrun as [|v e values events He _ IH]; constructor; [|done].
  destruct He as (id & cause & i & He). pose proof (post_init_wf _ _ He) as Hwf.
  apply post_init_inv in He as (p & m & _ & _ & ->). by split.
Qed.

(** ** The ledger stays consistent *)

Definition keeps_ledger {A} (m : Db A) : Prop :=
  ∀ w r w', m w = (r, w') → ledger_ok w → ledger_ok w'.

Lemma ledger_lift {A} (x : result A) : keeps_ledger (lift x).
Proof. by intros w r w' [= <- <-]. Qed.
Lemma ledger_ret {A} (a : A) : keeps_ledger (ret a).
Proof. by intros w r w' [= <- <-]. Qed.
Lemma ledger_uuid : keeps_ledger uuid_factory.
Proof. intros w r w' [= <- <-]. by apply ledger_ok_ext. Qed.
Lemma ledger_bind {A B} (m : Db A) (k : A → Db B) :
  keeps_ledger m → (∀ a, keeps_ledger (k a)) → keeps_ledger (bind m k).
Proof.
  intros Hm Hk w r w'. unfold bind. destruct (m w) as [[e|a] w1] eqn:H1.
  - intros [= <- <-]. by eapply Hm.
  - intros H2 Hok. eapply Hk; [exact H2|]. by eapply Hm.
Qed.
Lemma ledger_events {A} request lease at_ values (k : list EventEnvelope → Db A) :
  (∀ events, Forall event_valid events → keeps_ledger (k events)) →
  keeps_ledger (let! events := _events request lease at_ values in k events).
Proof.
  intros Hk w r w'. unfold bind. destruct (_events request lease at_ values w) as [[e|es] w1] eqn:H1;
    destruct (events_drew _ _ _ _ _ _ _ _ _ H1) as (Hd & _ & Hp & _).
  - intros [= <- <-]. apply ledger_ok_ext; by rewrite ?Hd, ?Hp.
  - intros H2 Hok. eapply Hk; [by eapply events_valid|exact H2|].
    eapply ledger_ok_ext; [..|exact Hok]; by rewrite ?Hd, ?Hp.
Qed.

Lemma ledger_append_fenced context lease events at_ m :
  Forall event_valid events → neutral_mutation m →
  keeps_ledger (_append_fenced context lease events at_ m).
Proof.
  intros Hv Hm. unfold _append_fenced. apply ledger_bind.
  { intros w r w' Hrun Hok. destruct r as [e|v].
    - unfold current_version in Hrun. apply bind_err in Hrun as [Hrun|(u & w1 & H1 & Hrun)].
      + by apply raise_if_err in Hrun as (_ & -> & _).
      + apply raise_if_ok in H1 as (_ & -> & _).
        by rewrite (transaction_run _ w (default 0 (t_heads (w_db w)
          !! (ctx_str context, Uuid.to_str (wl_work_id lease)))) (started w)) in Hrun
          by reflexivity.
    - apply current_version_run in Hrun as [_ ->]. by apply started_ledger_ok. }
  intros v. apply ledger_bind; [|intros; apply ledger_ret].
  intros w r w' Hrun Hok. by eapply append_fenced_ledger.
Qed.
#[export] Hint Resolve ledger_lift ledger_ret ledger_uuid ledger_bind ledger_events
  ledger_append_fenced : atomic.

Lemma same_ledger_budgets g t : same_ledger t (upd_budgets g t).
Proof. done. Qed.
Lemma same_ledger_views g t : same_ledger t (upd_views g t).
Proof. done. Qed.
#[export] Hint Resolve same_ledger_budgets same_ledger_views : aegis.

(** ** The calls of the repository *)

Abbreviation rows w := (bt_reservations (t_budgets (w_db w))).

Definition outcome {A} (r : result A) : result unit :=
  match r with inl e => inl e | inr _ => inr tt end.

Section Calls.
Context {Repr : PyRepr} (context : TenantContext) (lease : WorkLease).

(** Any call under [lease], with its outcome and the state it leaves. *)
Inductive gateway_call (w : World) : result unit → World → Prop :=
| call_completed request at_ :
    let run := completed context request lease at_ w in gateway_call w (outcome run.1) run.2
| call_reserve request route quotas tokens cost version at_ :
    let run := reserve context request lease route quotas tokens cost version at_ w in
    gateway_call w (outcome run.1) run.2
| call_attempt request reservation provider model attempt fallback at_ :
    let run := record_attempt context request lease reservation provider model attempt fallback
                 at_ w in
    gateway_call w run.1 run.2
| call_succeed request reservation response pricing at_ :
    let run := succeed context request lease reservation response pricing at_ w in
    gateway_call w run.1 run.2
| call_usage_failure request reservation response pricing error at_ :
    let run := record_usage_failure context request lease reservation response pricing error
                 at_ w in
    gateway_call w run.1 run.2
| call_attempt_failure request reservation error provider model attempt fallback at_ :
    let run := record_attempt_failure context request lease reservation error provider model
                 attempt fallback at_ w in
    gateway_call w run.1 run.2
| call_fail request reservation error at_ :
    let run := fail context request lease reservation error at_ w in
    gateway_call w run.1 run.2.

(** The statements a call adds to the transaction of its events. *)
Inductive call_statements : Db unit → Prop :=
| no_statements : call_statements (ret tt)
| admission_statements request reservation quotas at_ :
    mq_tenant_id request = ctx_str context →
    call_statements (admission request lease reservation quotas at_)
| charge_statements request reservation response pricing tokens charged at_ :
    mq_tenant_id request = ctx_str context →
    call_statements (charge request lease reservation response pricing tokens charged at_)
| release_statements request reservation at_ :
    mq_tenant_id request = ctx_str context →
    call_statements (release_budget request lease reservation at_).

Lemma call_atomic w e w' : gateway_call w (inl e) w' → w_db w' = w_db w.
Proof.
  assert (Hraise : ∀ A (m : Db A), atomic m → ∀ w e, outcome (m w).1 = inl e → w_db (m w).2 = w_db w).
  { intros A m Hm w0 e0 He. destruct (m w0) as [[x|a] w1] eqn:Hrun; [|done]. by eapply Hm. }
  assert (Hraise' : ∀ (m : Db unit), atomic m → ∀ w e, (m w).1 = inl e → w_db (m w).2 = w_db w).
  { intros m Hm w0 e0 He. apply (Hraise _ m Hm w0 e0). by rewrite He. }
  intros Hc. remember (inl e) as r eqn:Hr.
  destruct Hc; try (apply (Hraise _ _) in Hr; [done|]); try (apply Hraise' in Hr; [done|]).
  - apply untouched_atomic, untouched_ret.
  - unfold reserve. eauto 8 with atomic.
  - unfold record_attempt. eauto 8 with atomic.
  - unfold succeed. apply atomic_bind; [auto with atomic|intros _].
    apply atomic_bind; [auto with atomic|intros []]. eauto 10 with atomic.
  - unfold record_usage_failure. apply atomic_bind; [auto with atomic|intros _].
    apply atomic_bind; [auto with atomic|intros []]. eauto 10 with atomic.
  - unfold record_attempt_failure. eauto 8 with atomic.
  - unfold fail. eauto 8 with atomic.
Qed.
Lemma neutral_settle tenant id f : ledger_neutral (settle_reservation tenant id lease f).
Proof.
  unfold settle_reservation. apply neutral_bind; [auto with aegis|].
  intros [row|]; eauto 10 with aegis.
Qed.
Lemma neutral_admission request reservation quotas at_ :
  ledger_neutral (admission request lease reservation quotas at_).
Proof.
  unfold admission, _lock_budget, under_maintenance, insert_reservation, _quota_limits.
  repeat first [apply neutral_bind; [|intros ?] | case_match | solve [eauto 6 with aegis]].
Qed.
Lemma neutral_charge request reservation response pricing tokens charged at_ :
  ledger_neutral (charge request lease reservation response pricing tokens charged at_).
Proof.
  unfold charge, insert_usage. pose proof neutral_settle. eauto 15 with aegis.
Qed.

Lemma neutral_statements m : call_statements m → ledger_neutral m.
Proof.
  destruct 1; [auto with aegis|apply neutral_admission|apply neutral_charge|apply neutral_settle].
Qed.

Lemma call_keeps_ledger w r w' : gateway_call w r w' → ledger_ok w → ledger_ok w'.
Proof.
  assert (Hrun : ∀ A (m : Db A), keeps_ledger m → ledger_ok w → ledger_ok (m w).2).
  { intros A m Hm. eapply Hm. apply surjective_pairing. }
  destruct 1; subst run; apply Hrun.
  - apply ledger_ret.
  - unfold reserve. do 2 (apply ledger_bind; [auto with atomic|intros ?]).
    apply ledger_events. intros events Hv. apply ledger_bind; [|auto with atomic].
    apply ledger_append_fenced; [done|apply neutral_admission].
  - unfold record_attempt. apply ledger_bind; [auto with atomic|intros _].
    apply ledger_events. intros events Hv. by apply ledger_append_fenced.
  - unfold succeed. apply ledger_bind; [auto with atomic|intros _].
    apply ledger_bind; [auto with atomic|intros [tokens charged]].
    apply ledger_bind; [auto with atomic|intros released].
    apply ledger_events. intros events Hv. apply ledger_append_fenced; [done|apply neutral_charge].
  - unfold record_usage_failure. apply ledger_bind; [auto with atomic|intros _].
    apply ledger_bind; [auto with atomic|intros [tokens charged]].
    do 2 (apply ledger_bind; [auto with atomic|intros ?]).
    apply ledger_events. intros events Hv. apply ledger_append_fenced; [done|apply neutral_charge].
  - unfold record_attempt_failure. apply ledger_bind; [auto with atomic|intros _].
    apply ledger_events. intros events Hv. by apply ledger_append_fenced.
  - unfold fail. apply ledger_bind; [auto with atomic|intros _].
    apply ledger_events. intros events Hv. apply ledger_append_fenced; [done|apply neutral_settle].
Qed.

Lemma validate_tenant request at_ u :
  _validate context request lease at_ = inr u → mq_tenant_id request = ctx_str context.
Proof. unfold _validate. intros H. py_inv. by bool_props. Qed.

Lemma drew_trans w1 w2 w3 : drew w1 w2 → drew w2 w3 → drew w1 w3.
Proof. unfold drew. intuition congruence. Qed.

Lemma call_commits request at_ values m w0 w events w1 u w' :
  drew w0 w → _events request lease at_ values w = (inr events, w1) →
  _append_fenced context lease events at_ m w1 = (inr u, w') →
  fenced_commit context lease events at_ (run_mutation m) w0 w' ∧ Forall event_valid events.
Proof.
  intros Hd He Ha. split; [|by eapply events_valid].
  eapply fenced_commit_before; [|by apply (append_fenced_commit _ _ _ _ _ _ u)].
  eapply drew_trans; [exact Hd|by eapply events_drew].
Qed.

Ltac call_inv :=
  db_inv; repeat match goal with v : _ * _ |- _ => destruct v; db_inv end;
  match goal with
  | Hv : inr _ = _validate _ _ _ _, He : _events _ _ _ _ ?w0 = (inr ?es, _),
    Ha : _append_fenced _ _ _ _ _ _ = _ |- context [fenced_commit _ _ _ _ _ ?w _] =>
      let Hd := fresh in
      assert (Hd : drew w w0) by done; exists es;
      destruct (call_commits _ _ _ _ w w0 _ _ _ _ Hd He Ha); clear Hd;
      symmetry in Hv; apply validate_tenant in Hv
  end.

Lemma reserve_commits request route quotas tokens cost version at_ w r w' :
  reserve context request lease route quotas tokens cost version at_ w = (inr r, w') →
  ∃ events, fenced_commit context lease events at_ (admission request lease r quotas at_) w w' ∧
    Forall event_valid events ∧ mq_tenant_id request = ctx_str context ∧
    br_token_limit r = tokens ∧ br_cost_limit_usd r = cost.
Proof. unfold reserve. intros Hrun. call_inv. by split_and!. Qed.

Lemma call_committed w w' :
  gateway_call w (inr tt) w' →
  w' = w ∨ ∃ events at_ m, fenced_commit context lease events at_ m w w' ∧
    Forall event_valid events ∧ call_statements m.
Proof.
  intros Hc. remember (inr tt) as r eqn:Hr. destruct Hc; [by left|right..].
  all: match goal with run := ?m ?w0 |- _ => destruct (m w0) as [[e|x] w1] eqn:Hrun end;
    try done; subst run; simpl in *; clear Hr.
  - apply reserve_commits in Hrun as (events & Hf & Hv & Ht & _). eexists events, _, _.
    split; [done|]. split; [done|]. by apply admission_statements.
  - unfold record_attempt in Hrun. call_inv. eexists _, _.
    split; [done|]. split; [done|]. apply no_statements.
  - unfold succeed in Hrun. call_inv. eexists _, _.
    split; [done|]. split; [done|]. by apply charge_statements.
  - unfold record_usage_failure in Hrun. call_inv. eexists _, _.
    split; [done|]. split; [done|]. by apply charge_statements.
  - unfold record_attempt_failure in Hrun. call_inv. eexists _, _.
    split; [done|]. split; [done|]. apply no_statements.
  - unfold fail in Hrun. call_inv. eexists _, _.
    split; [done|]. split; [done|]. by apply release_statements.
Qed.

Lemma committed_log events at_ m w w' :
  ledger_ok w → Forall event_valid events → ledger_neutral m →
  fenced_commit context lease events at_ m w w' →
  ∃ now, log w' = log w ++ commit_events events
    (default 0 (t_heads (w_db w) !! (ctx_str context, Uuid.to_str (wl_work_id lease))))
    (w_position w) (w_clock w now).
Proof.
  intros Hok Hv Hm [_ _ (w1 & now & Hdb & _ & Hrun)]. exists now.
  destruct (Hm _ _ _ Hrun) as [(He & _) _]. unfold log. rewrite He, Hdb. simpl.
  rewrite omap_app, decode_new_rows; [done|done| |apply Hok].
  destruct (lo_streams _ Hok (ctx_str context) (Uuid.to_str (wl_work_id lease))) as (n & _ & ->).
  lia.
Qed.

(** ** Reservations *)

(** What a call does to the reservations: nothing, a new active row that no
    live row of the tenant clashes with, or one active row settled. *)
Inductive budget_change (m m' : gmap (string * uuid) BudgetRow) : Prop :=
| unchanged : m' = m → budget_change m m'
| reserved id row :
    m !! (ctx_str context, id) = None → bg_status row = RS_ACTIVE →
    existsb (holds_call row) (tenant_values (ctx_str context) m) = false →
    m' = <[(ctx_str context, id) := row]> m → budget_change m m'
| settled_row id row status tokens cost at_ :
    m !! (ctx_str context, id) = Some row → bg_status row = RS_ACTIVE →
    status ≠ RS_ACTIVE →
    m' = <[(ctx_str context, id) := settle_row row status tokens cost at_]> m →
    budget_change m m'.

Lemma settle_reservation_ok tenant id f w w' :
  settle_reservation tenant id lease f w = (inr tt, w') →
  ∃ row, rows w !! (tenant, id) = Some row ∧ bg_status row = RS_ACTIVE ∧
    bg_lease_token row = wl_token lease ∧ bg_lease_generation row = wl_generation lease ∧
    rows w' = <[(tenant, id) := f row]> (rows w) ∧ t_views (w_db w') = t_views (w_db w).
Proof.
  unfold settle_reservation. intros Hrun. db_inv.
  destruct (rows w !! (tenant, id)) as [row|] eqn:Hrow; [|by unfold raise in Hrun].
  exists row. db_inv. unfold active_row in *. by bool_props.
Qed.

(** An admitted reservation. *)
Record admitted (request : ModelRequest) (res : BudgetReservation) (quotas : QuotaLimits)
    (at_ : Dt.datetime) (w w' : World) (cost : numeric) (totals : budgets) : Prop := {
  ad_quotas : ∃ q configured, bt_quotas (t_budgets (w_db w)) !! mq_tenant_id request = Some q ∧
    QuotaLimits_post_init
      (mkQuotaLimits (qr_max_run_tokens q) (of_numeric 6 (qr_max_run_cost_usd q))
         (qr_max_tenant_tokens_per_period q) (of_numeric 6 (qr_max_tenant_cost_usd_per_period q))
         (qr_max_concurrent_runs q)) = inr configured ∧ quotas_eqb configured quotas = true;
  ad_free : ("model-usage"%string, mq_tenant_id request) ∉ w_maintenance w;
  ad_totals : admitted_budgets request at_ (w_db w) = inr totals;
  ad_within : _check_budget quotas totals (br_token_limit res) (br_cost_limit_usd res) = inr tt;
  ad_cost : to_numeric 20 10 (br_cost_limit_usd res) = inr cost;
  ad_new : rows w !! (mq_tenant_id request, br_reservation_id res) = None;
  ad_once : existsb (holds_call (reservation_row request lease (br_token_limit res) cost
              (br_price_version res) at_)) (tenant_values (mq_tenant_id request) (rows w)) = false;
  ad_rows : rows w' = <[(mq_tenant_id request, br_reservation_id res) :=
              reservation_row request lease (br_token_limit res) cost (br_price_version res) at_]>
              (rows w);
  ad_views : t_views (w_db w') = t_views (w_db w);
}.

Lemma admission_ok request res quotas at_ w w' :
  admission request lease res quotas at_ w = (inr tt, w') →
  ∃ cost totals, admitted request res quotas at_ w w' cost totals.
Proof.
  unfold admission, _lock_budget, under_maintenance, insert_reservation. intros Hrun.
  db_inv. unfold _quota_limits in *. db_inv. case_match; db_inv.
  unfold id in *. simpl in *. bool_props.
  match goal with Hc : inr ?cost = to_numeric _ _ _, Ht : inr ?totals = admitted_budgets _ _ _,
    Hk : inr ?u = _check_budget _ _ _ _ |- _ => destruct u; exists cost, totals end.
  split; try done; [by eexists _, _|]. by destruct (rows w !! _) eqn:?.
Qed.

Lemma statements_change m w w' :
  call_statements m → m w = (inr tt, w') → budget_change (rows w) (rows w').
Proof.
  intros [|request res quotas at_ Ht|request res response pricing tokens charged at_ Ht
         |request res at_ Ht] Hrun.
  - injection Hrun as <-. by apply unchanged.
  - apply admission_ok in Hrun as (cost & totals & [_ _ _ _ _ Hnew Honce Hrows _]). rewrite Ht in *.
    eapply reserved; [exact Hnew| |exact Honce|exact Hrows]. done.
  - unfold charge, insert_usage in Hrun. rewrite Ht in Hrun. db_inv.
    match goal with Hs : settle_reservation _ _ _ _ _ = (inr ?u, _) |- _ =>
      destruct u; apply settle_reservation_ok in Hs as (row & Hr & Ha & _ & _ & -> & _) end.
    by eapply (settled_row _ _ _ row RS_CHARGED).
  - unfold release_budget in Hrun. rewrite Ht in Hrun.
    apply settle_reservation_ok in Hrun as (row & Hr & Ha & _ & _ & -> & _).
    by eapply (settled_row _ _ _ row RS_RELEASED).
Qed.

Lemma call_changes w r w' : gateway_call w r w' → budget_change (rows w) (rows w').
Proof.
  destruct r as [e|[]]; intros Hc.
  - apply unchanged. by rewrite (call_atomic _ _ _ Hc).
  - apply call_committed in Hc as [->|(events & at_ & m & [_ _ (w1 & now & Hdb & _ & Hrun)] & _ & Hm)];
      [by apply unchanged|].
    apply statements_change in Hrun; [|done]. by rewrite Hdb in Hrun.
Qed.
End Calls.

(** ** Claims *)

(** C16. Calls of the repository are fenced and atomic.  A call that raises
    leaves every table as it was; one that returns either read nothing and
    changed nothing ([completed]) or held the current unexpired lease of the
    work and appended, to the stream of that work, exactly events of the
    tenant, numbered on from its head.  The ledger stays consistent on both
    outcomes. *)
Theorem gateway_calls_fenced `{PyRepr} context lease w r w' :
  gateway_call context lease w r w' → ledger_ok w →
  ledger_ok w' ∧
  match r with
  | inl _ => w_db w' = w_db w
  | inr _ =>
      w' = w ∨
      (∃ row now, t_work_leases (w_db w) !! (ctx_str context, wl_work_id lease) = Some row ∧
         lease_current row (wl_token lease) (wl_generation lease) (w_clock w now) = true) ∧
      ∃ events now,
        Forall (λ e, ev_tenant_id e = ctx_str context ∧
                     aggregate_id e = Uuid.to_str (wl_work_id lease)) events ∧ events ≠ [] ∧
        log w' = log w ++ commit_events events
          (default 0 (t_heads (w_db w) !! (ctx_str context, Uuid.to_str (wl_work_id lease))))
          (w_position w) (w_clock w now)
  end.
Proof.
  intros Hc Hok. split; [by eapply call_keeps_ledger|]. destruct r as [e|[]];
    [by eapply call_atomic|].
  apply call_committed in Hc as [->|(events & at_ & m & Hf & Hv & Hm)]; [by left|right].
  split; [apply Hf|]. destruct (fc_events _ _ _ _ _ _ _ Hf) as (head & Hval & _ & _ & Hall).
  destruct (committed_log _ _ events at_ m w w' Hok Hv (neutral_statements _ _ _ Hm) Hf)
    as [now Hlog].
  exists events, now. split; [|split; [|done]].
  - apply validate_append_ok in Hval as (_ & _ & agg & Ht). rewrite Forall_forall in *.
    intros e He. split; [by apply Ht|by apply Hall].
  - by apply validate_append_ok in Hval as (_ & ? & _).
Qed.

Lemma elem_of_tenant_values {V} (tenant : string) (m : gmap (string * uuid) V) (v : V) :
  v ∈ tenant_values tenant m ↔ ∃ id, m !! (tenant, id) = Some v.
Proof.
  unfold tenant_values. rewrite list_elem_of_omap. split.
  - intros ([[t id] v'] & Hin & Hv). apply elem_of_map_to_list in Hin. simpl in Hv.
    case_bool_decide; simplify_eq. by exists id.
  - intros [id Hv]. exists (tenant, id, v). split; [by apply elem_of_map_to_list|].
    simpl. by rewrite bool_decide_true.
Qed.

(** At most one active or charged reservation of a tenant per request and
    per idempotency key. *)
Definition calls_distinct (m : gmap (string * uuid) BudgetRow) : Prop :=
  ∀ tenant i j r s, m !! (tenant, i) = Some r → m !! (tenant, j) = Some s →
    holds_call r s = true → bg_status r ≠ RS_RELEASED → i = j.

Lemma holds_call_sym r s :
  bg_status r ≠ RS_RELEASED → holds_call r s = true → holds_call s r = true.
Proof.
  unfold holds_call. intros Hr H. bool_props. rewrite bool_decide_false by done. simpl.
  apply orb_true_iff. apply orb_true_iff in H0 as [?|?]; bool_props; [left|right];
    by apply bool_decide_true.
Qed.

Lemma holds_call_settle r s status tokens cost at_ :
  bg_status r = RS_ACTIVE → status ≠ RS_ACTIVE →
  (holds_call s (settle_row r status tokens cost at_) = true → holds_call s r = true) ∧
  holds_call (settle_row r status tokens cost at_) s = holds_call r s.
Proof. intros Hr Hst. unfold holds_call. simpl. rewrite Hr. split; [|done]. by intros [_ H]%andb_true_iff. Qed.

Lemma change_distinct context m m' :
  budget_change context m m' → calls_distinct m → calls_distinct m'.
Proof.
  intros Hc Hd. destruct Hc as [->|id row Hnew Hact Honce ->|id row status tokens cost at_ Hrow Hact Hst ->];
    [done|..]; intros tenant i j r s Hi Hj Hh Hr.
  - apply existsb_false_Forall in Honce. rewrite Forall_forall in Honce.
    apply lookup_insert_Some in Hi as [[Hi <-]|[Hi Hri]], Hj as [[Hj <-]|[Hj Hsj]].
    + congruence.
    + injection Hi as <- <-. rewrite (Honce s) in Hh; [done|].
      apply elem_of_tenant_values. by exists j.
    + injection Hj as <- <-. apply holds_call_sym in Hh; [|done]. rewrite (Honce r) in Hh; [done|].
      apply elem_of_tenant_values. by exists i.
    + by eapply Hd.
  - apply lookup_insert_Some in Hi as [[Hi <-]|[Hi Hri]], Hj as [[Hj <-]|[Hj Hsj]].
    + congruence.
    + injection Hi as <- <-. rewrite (proj2 (holds_call_settle _ _ _ _ _ _ Hact Hst)) in Hh.
      eapply Hd; [exact Hrow|exact Hsj|exact Hh|by rewrite Hact].
    + injection Hj as <- <-. apply holds_call_settle in Hh; [|done..]. by eapply Hd.
    + by eapply Hd.
Qed.

Lemma change_final context m m' key row :
  budget_change context m m' → m !! key = Some row → bg_status row ≠ RS_ACTIVE →
  m' !! key = Some row.
Proof.
  intros Hc Hrow Hst. destruct Hc as [->|id new Hnew _ _ ->|id old status tokens cost at_ Hold Hact _ ->];
    [done|..]; rewrite lookup_insert_ne; [done| |done|]; intros <-; congruence.
Qed.

(** One call of any worker, or anything that leaves the budget tables alone. *)
Definition budget_step `{PyRepr} (w w' : World) : Prop :=
  (∃ context lease r, gateway_call context lease w r w') ∨ t_budgets (w_db w') = t_budgets (w_db w).

(** A call is charged at most once: whatever the workers do, a tenant has
    at most one active or charged reservation per request and per idempotency
    key, and a settled reservation never changes again. *)
Theorem gateway_call_charged_once `{PyRepr} w w' :
  rtc budget_step w w' → calls_distinct (rows w) →
  calls_distinct (rows w') ∧
  ∀ key row, rows w !! key = Some row → bg_status row ≠ RS_ACTIVE → rows w' !! key = Some row.
Proof.
  intros Hsteps Hd. induction Hsteps as [w|w w1 w2 Hstep _ IH]; [done|].
  assert (Hch : ∃ context, budget_change context (rows w) (rows w1)).
  { destruct Hstep as [(context & lease & r & Hc)|Heq].
    - exists context. by eapply call_changes.
    - exists (mkTenantContext (mkTenantId "")). apply unchanged. by rewrite Heq. }
  destruct Hch as [context Hch]. destruct IH as [IHd IHf]; [by eapply change_distinct|].
  split; [done|]. intros key row Hrow Hst. apply IHf; [|done]. by eapply change_final.
Qed.

(** ** Budgets *)

Definition sum_numeric (l : list numeric) : numeric := foldr numeric_add (Some 0) l.

(** Tokens and cost, in units of [10 ^ -10], that active reservations hold and
    recorded usage has consumed. *)
Definition spending (active : list BudgetRow) (used : list ModelUsageRow) : Z * numeric :=
  (sum_Z (map bg_token_limit active) + sum_Z (map mu_total_tokens used),
   numeric_add (sum_numeric (map bg_cost_limit_usd active)) (sum_numeric (map mu_cost_usd used))).

Definition active_rows (tenant : string) (t : Tables) : list BudgetRow :=
  List.filter active_row (tenant_values tenant (bt_reservations (t_budgets t))).

Definition tenant_spending (tenant : string) (at_ : Dt.datetime) (t : Tables) : Z * numeric :=
  spending (active_rows tenant t)
    (List.filter (λ u, Dt.us (_billing_period_start at_) <=? mu_recorded_at u)
       (tenant_values tenant (v_model_usage (t_views t)))).

Definition run_spending (tenant : string) (run : uuid) (t : Tables) : Z * numeric :=
  spending (List.filter (λ r, bool_decide (bg_run_id r = run)) (active_rows tenant t))
    (List.filter (λ u, bool_decide (mu_run_id u = run))
       (tenant_values tenant (v_model_usage (t_views t)))).

Lemma sum_costs_amount l x : sum_numeric l = Some x → amount (-10) (sum_costs l) x.
Proof.
  unfold sum_costs. destruct l as [|n l]; intros Hx.
  - injection Hx as <-. apply amount_zero. unfold grid. lia.
  - unfold sum_numeric in Hx. rewrite Hx. exists x, (-10). split; [done|]. split; [lia|].
    change (pow10 (-10 - -10)) with 1. lia.
Qed.

Lemma sum_costs_nan l : sum_numeric l = None → sum_costs l = DNaN.
Proof. unfold sum_costs, sum_numeric. destruct l; [done|]. by intros ->. Qed.

(** The sums [reserve] compares are those of the tables. *)
Lemma admitted_budgets_spec request at_ t b :
  admitted_budgets request at_ t = inr b →
  bu_tenant_tokens b = (tenant_spending (mq_tenant_id request) at_ t).1 ∧
  bu_run_tokens b = (run_spending (mq_tenant_id request) (mq_run_id request) t).1 ∧
  ∀ units d, units = (tenant_spending (mq_tenant_id request) at_ t).2 ∧ d = bu_tenant_cost b ∨
             units = (run_spending (mq_tenant_id request) (mq_run_id request) t).2 ∧
             d = bu_run_cost b →
    match units with
    | Some x => Z.abs x < pow10 prec → amount (-10) d x
    | None => d = DNaN
    end.
Proof.
  intros Hb. unfold admitted_budgets in Hb. py_inv. split; [done|]. split; [done|].
  assert (Hadd : ∀ l1 l2 s, dec_add (sum_costs l1) (sum_costs l2) = inr s →
    match numeric_add (sum_numeric l1) (sum_numeric l2) with
    | Some x => Z.abs x < pow10 prec → amount (-10) s x
    | None => s = DNaN
    end).
  { intros l1 l2 s Hs. destruct (sum_numeric l1) as [x|] eqn:H1; simpl.
    - destruct (sum_numeric l2) as [y|] eqn:H2; simpl.
      + intros Hxy. destruct (dec_add_exact (-10) (sum_costs l1) (sum_costs l2) x y) as (d & Hd & Ha);
          [unfold grid; lia|by apply sum_costs_amount..|done|]. congruence.
      + rewrite (sum_costs_nan l2 H2) in Hs. by destruct (sum_costs l1); injection Hs.
    - rewrite (sum_costs_nan l1 H1) in Hs. by destruct (sum_costs l2); injection Hs. }
  intros units d [[-> ->]|[-> ->]]; by apply Hadd.
Qed.

Lemma check_budget_ok quotas b tokens cost :
  _check_budget quotas b tokens cost = inr tt →
  bu_run_tokens b + tokens ≤ max_run_tokens quotas ∧
  bu_tenant_tokens b + tokens ≤ max_tenant_tokens_per_period quotas ∧
  ∀ d limit, d = bu_run_cost b ∧ limit = max_run_cost_usd quotas ∨
             d = bu_tenant_cost b ∧ limit = max_tenant_cost_usd_per_period quotas →
    ∃ s, dec_add d cost = inr s ∧ dec_gt s limit = inr false.
Proof.
  unfold _check_budget. intros H. py_inv. bool_props. split; [done|]. split; [done|].
  intros d limit [[-> ->]|[-> ->]]; eexists; by split.
Qed.

(** A checked sum of exact amounts is within the limit. *)
Lemma checked_cost d cost limit units c q s :
  match units with
  | Some x => Z.abs x < pow10 prec → amount (-10) d x
  | None => d = DNaN
  end →
  amount (-10) cost c → amount (-10) limit q → dec_add d cost = inr s → dec_gt s limit = inr false →
  ∃ x, units = Some x ∧ (Z.abs x < pow10 prec → Z.abs (x + c) < pow10 prec → x + c ≤ q).
Proof.
  intros Hu Hc Hq Hs Hg. destruct units as [x|].
  - exists x. split; [done|]. intros Hx Hxc.
    destruct (dec_add_exact (-10) d cost x c) as (s' & Hs' & Ha);
      [unfold grid; lia|by apply Hu|done|done|].
    assert (s' = s) as -> by congruence.
    rewrite (dec_gt_exact (-10) s limit _ _ Ha Hq) in Hg. injection Hg as Hg. by bool_props.
  - subst d. destruct cost; injection Hs as <-; by unfold dec_gt, dec_lt in Hg; destruct limit.
Qed.

Lemma tenant_values_insert {V} (tenant : string) (id : uuid) (m : gmap (string * uuid) V) (v : V) :
  m !! (tenant, id) = None →
  tenant_values tenant (<[(tenant, id) := v]> m) ≡ₚ v :: tenant_values tenant m.
Proof.
  intros Hm. unfold tenant_values. rewrite map_to_list_insert by done. csimpl.
  by rewrite bool_decide_true.
Qed.

Lemma sum_Z_perm l l' : l ≡ₚ l' → sum_Z l = sum_Z l'.
Proof. unfold sum_Z. induction 1; simpl; lia. Qed.

Lemma sum_numeric_perm l l' : l ≡ₚ l' → sum_numeric l = sum_numeric l'.
Proof.
  induction 1 as [|x l l' _ IH|x y l|l1 l2 l3 _ IH1 _ IH2]; simpl; [done|by rewrite IH| |congruence].
  destruct x, y, (sum_numeric l); simpl; try done. f_equal. lia.
Qed.

Lemma spending_perm active active' used :
  active ≡ₚ active' → spending active used = spending active' used.
Proof.
  intros Hp. unfold spending. f_equal.
  - f_equal. apply sum_Z_perm. by apply Permutation_map.
  - f_equal. apply sum_numeric_perm. by apply Permutation_map.
Qed.

Lemma numeric_add_comm a b : numeric_add a b = numeric_add b a.
Proof. destruct a, b; simpl; try done. f_equal. lia. Qed.
Lemma numeric_add_assoc a b c : numeric_add a (numeric_add b c) = numeric_add (numeric_add a b) c.
Proof. destruct a, b, c; simpl; try done. f_equal. lia. Qed.

Lemma spending_cons row active used :
  spending (row :: active) used =
  ((spending active used).1 + bg_token_limit row,
   numeric_add (spending active used).2 (bg_cost_limit_usd row)).
Proof.
  unfold spending. simpl. f_equal; [lia|].
  rewrite (numeric_add_comm _ (bg_cost_limit_usd row)). by rewrite numeric_add_assoc.
Qed.

Lemma to_numeric_exact cost c n :
  amount (-10) cost c → to_numeric 20 10 cost = inr n → n = Some c.
Proof.
  intros (d & e & -> & He & ->). unfold to_numeric. rewrite (proj2 (Z.leb_le (- (10)) e)) by lia.
  intros H. py_inv. replace (e + 10) with (e - -10) by lia. congruence.
Qed.

(** An admitted row adds its limits to both sums. *)
Lemma admitted_spending request lease res quotas at_ w w' cost totals :
  admitted lease request res quotas at_ w w' cost totals →
  let tenant := mq_tenant_id request in let run := mq_run_id request in
  tenant_spending tenant at_ (w_db w') =
    ((tenant_spending tenant at_ (w_db w)).1 + br_token_limit res,
     numeric_add (tenant_spending tenant at_ (w_db w)).2 cost) ∧
  run_spending tenant run (w_db w') =
    ((run_spending tenant run (w_db w)).1 + br_token_limit res,
     numeric_add (run_spending tenant run (w_db w)).2 cost).
Proof.
  intros [_ _ _ _ _ Hnew _ Hrows Hviews] tenant run.
  set (row := reservation_row request lease (br_token_limit res) cost (br_price_version res) at_) in *.
  assert (Hact : active_rows tenant (w_db w') ≡ₚ row :: active_rows tenant (w_db w)).
  { unfold active_rows. rewrite Hrows.
    exact (filter_perm active_row _ _ (tenant_values_insert _ _ _ row Hnew)). }
  unfold tenant_spending, run_spending. rewrite Hviews. split.
  - rewrite (spending_perm _ _ _ Hact). apply spending_cons.
  - rewrite (spending_perm _ _ _ (filter_perm _ _ _ Hact)). simpl.
    rewrite bool_decide_true by done. apply spending_cons.
Qed.

Lemma admitted_within request lease res quotas at_ w w' cost totals c qr qt :
  admitted lease request res quotas at_ w w' cost totals →
  amount (-10) (br_cost_limit_usd res) c → amount (-10) (max_run_cost_usd quotas) qr →
  amount (-10) (max_tenant_cost_usd_per_period quotas) qt →
  let tenant := tenant_spending (mq_tenant_id request) at_ (w_db w') in
  let run := run_spending (mq_tenant_id request) (mq_run_id request) (w_db w') in
  tenant.1 ≤ max_tenant_tokens_per_period quotas ∧ run.1 ≤ max_run_tokens quotas ∧
  (∃ x, tenant.2 = Some x ∧
     (Z.abs (x - c) < pow10 prec → Z.abs x < pow10 prec → x ≤ qt)) ∧
  (∃ x, run.2 = Some x ∧ (Z.abs (x - c) < pow10 prec → Z.abs x < pow10 prec → x ≤ qr)).
Proof.
  intros Had Hc Hqr Hqt. destruct (admitted_spending _ _ _ _ _ _ _ _ _ Had) as [-> ->].
  destruct Had as [_ _ Htotals Hwithin Hunits _ _ _ _].
  apply (to_numeric_exact _ _ _ Hc) in Hunits as ->. cbn [fst snd].
  apply admitted_budgets_spec in Htotals as (Htt & Hrt & Hcosts).
  apply check_budget_ok in Hwithin as (Hr & Hte & Hchk). rewrite Htt in Hte. rewrite Hrt in Hr.
  split; [done|]. split; [done|].
  assert (Hside : ∀ (units : numeric) d limit q,
    match units with
    | Some x => Z.abs x < pow10 prec → amount (-10) d x
    | None => d = DNaN
    end →
    (∃ s, dec_add d (br_cost_limit_usd res) = inr s ∧ dec_gt s limit = inr false) →
    amount (-10) limit q →
    ∃ x, numeric_add units (Some c) = Some x ∧
      (Z.abs (x - c) < pow10 prec → Z.abs x < pow10 prec → x ≤ q)).
  { intros units d limit q Hu (s & Hs & Hg) Hq.
    destruct (checked_cost d _ limit units c q s Hu Hc Hq Hs Hg) as (x & -> & Hx).
    exists (x + c). split; [done|]. intros H1 H2. apply Hx; [|done].
    by replace (x + c - c) with x in H1 by lia. }
  split; eapply Hside; [apply Hcosts; by left|apply Hchk; by right|done
                       |apply Hcosts; by right|apply Hchk; by left|done].
Qed.

(** A granted reservation keeps the tenant and the run within their
    quotas: it was made outside a rebuild of the usage view and against the
    quotas configured for the tenant, and counting the new reservation, active
    reservations and recorded usage (of the month, for the tenant) hold at most
    the tokens and, for amounts of at most ten places and totals of at most 28
    digits, at most the cost that the quotas allow. *)
Theorem gateway_reserve_within_quotas `{PyRepr} context request lease route quotas tokens cost
    version at_ w r w' c qr qt :
  reserve context request lease route quotas tokens cost version at_ w = (inr r, w') →
  amount (-10) cost c → amount (-10) (max_run_cost_usd quotas) qr →
  amount (-10) (max_tenant_cost_usd_per_period quotas) qt →
  let tenant := tenant_spending (ctx_str context) at_ (w_db w') in
  let run := run_spending (ctx_str context) (mq_run_id request) (w_db w') in
  ("model-usage"%string, ctx_str context) ∉ w_maintenance w ∧
  (∃ q, bt_quotas (t_budgets (w_db w)) !! ctx_str context = Some q ∧
     qr_max_run_tokens q = max_run_tokens quotas ∧
     qr_max_tenant_tokens_per_period q = max_tenant_tokens_per_period quotas) ∧
  tenant.1 ≤ max_tenant_tokens_per_period quotas ∧ run.1 ≤ max_run_tokens quotas ∧
  (∃ x, tenant.2 = Some x ∧
     (Z.abs (x - c) < pow10 prec → Z.abs x < pow10 prec → x ≤ qt)) ∧
  (∃ x, run.2 = Some x ∧ (Z.abs (x - c) < pow10 prec → Z.abs x < pow10 prec → x ≤ qr)).
Proof.
  intros Hrun Hc Hqr Hqt. apply reserve_commits in Hrun
    as (events & [_ _ (w1 & now & Hdb & Hmt & Hadm)] & _ & Ht & Htok & Hcost).
  apply admission_ok in Hadm as (units & totals & Had). rewrite <- Hcost in Hc.
  pose proof (admitted_within _ _ _ _ _ _ _ _ _ _ _ _ Had Hc Hqr Hqt) as Hw.
  destruct Had as [Hq Hfree _ _ _ _ _ _ _]. rewrite Ht in *. rewrite Hmt in Hfree.
  split; [done|]. split; [|done].
  destruct Hq as (q & configured & Hq & Hpost & Heq). exists q. split; [by rewrite Hdb in Hq|].
  unfold QuotaLimits_post_init in Hpost. py_inv. unfold quotas_eqb in Heq. simpl in Heq.
  by bool_props.
Qed.
