(* ===== verification/TenantIsolation.v ===== *)
(** * The transactions and the rows of a tenant

    Every call of the model gateway's repository is a chain of transactions of
    its tenant, like every call of the work repository, so that what holds
    under the interleavings of [WorkTheorems] holds with the gateway's calls
    among them; and no call made in the context of a tenant touches a row of
    another one, in any table. *)

From stdpp Require Import base gmap sets list strings.
From Stdlib Require Import ZArith Lia.
From S2P Require Import Prelude PyLib Json Events Identity Work Amounts Database EventStore Wire.
From S2P Require Import Ledger LedgerReads LedgerAppend LedgerTheorems Projections Outbox.
From S2P Require Import WorkRepository WorkLedger WorkTheorems WorkSafety WorkReads.
From S2P Require Import Policy ModelContracts Routing GatewayRepository GatewayService.
From S2P Require Import GatewayPostgres GatewayPostgresTheorems.

Local Open Scope Z_scope.

(** ** The model gateway *)

#[local] Hint Extern 1 (within quiet (execute _)) => (apply within_execute; intros ?; done) : tenant.

Section Gateway.
Context {Repr : PyRepr} (context : TenantContext) (lease : WorkLease).

Abbreviation always := (λ _ : Tables, True).

Lemma reads_gateway_events request at_ values :
  Forall (λ v, lifecycle v.1 = false) values →
  reads (Forall other_event) (_events request lease at_ values).
Proof.
  intros Hvalues w r w' Hrun. split; [by eapply untouched_call_events|]. intros events ->.
  apply events_shape in Hrun. induction Hrun as [|v e values events (id & cause & i & He) _ IH]; [done|].
  apply Forall_cons in Hvalues as [Hv Hvalues]. constructor; [|by apply IH]. exists v.1. split; [|done].
  by apply post_init_inv in He as (p & m & _ & _ & ->).
Qed.

Lemma gateway_append_chain events at_ m :
  Forall other_event events → (∀ m', m = Some m' → quiet_statements context m') →
  chain context always (_append_fenced context lease events at_ m).
Proof.
  intros Hev Hm. unfold _append_fenced, current_version.
  eapply (chain_reads _ _ (λ _, True)).
  { eapply reads_bind; [apply reads_raise_if|]. intros _ _. apply reads_query. }
  intros v _. apply chain_end; [|intros; by apply reads_ret].
  apply chain_txn. intros w r w' _ Hrun. by eapply txn_model.
Qed.

Lemma call_statements_quiet m : call_statements context lease m → quiet_statements context m.
Proof.
  intros Hm. enough (isolated context m ∧ within quiet m) as [H1 H2].
  { split; [done|]. intros w u w'. apply H2. }
  destruct Hm as [|request res quotas at_ Ht|request res response pricing tokens charged at_ Ht|request res at_ Ht].
  - auto with tenant.
  - unfold admission, _lock_budget, under_maintenance, insert_reservation, _quota_limits. rewrite Ht.
    split; auto 20 with tenant.
  - unfold charge, insert_usage, settle_reservation. rewrite Ht. split; auto 20 with tenant.
  - unfold release_budget, settle_reservation. rewrite Ht. split; auto 20 with tenant.
Qed.

(** The shape of every call that writes. *)
Lemma gateway_write_chain request at_ values m :
  Forall (λ v, lifecycle v.1 = false) values →
  (mq_tenant_id request = ctx_str context → ∀ m', m = Some m' → call_statements context lease m') →
  mq_tenant_id request = ctx_str context →
  chain context always
    (let! events := _events request lease at_ values in _append_fenced context lease events at_ m).
Proof.
  intros Hvalues Hm Ht. read_by (reads_gateway_events request at_ values Hvalues). intros events Hev.
  apply gateway_append_chain; [done|]. intros m' Hm'. by apply call_statements_quiet, Hm.
Qed.

Lemma failure_not_lifecycle error : lifecycle (_failure_event_type error) = false.
Proof. unfold _failure_event_type. by repeat case_match. Qed.

Ltac gateway_types :=
  unfold charged_values, reserve_values; cbn [app];
  repeat (apply Forall_cons_2; [first [done|apply failure_not_lifecycle]|]); apply Forall_nil_2.

(** Runs of [work_txn] contain the calls of the gateway. *)
Lemma gateway_call_chain w r w' :
  gateway_call context lease w r w' → rtc (tenant_txn context) w w'.
Proof.
  assert (Hend : ∀ A (m : Db A), chain context always m → rtc (tenant_txn context) w (m w).2).
  { intros A m Hm. by eapply (Hm w (m w).1), surjective_pairing. }
  destruct 1; subst run; apply Hend; unfold reserve, record_attempt, succeed, record_usage_failure,
    record_attempt_failure, fail, completed.
  - apply chain_of_reads with (Q := λ _, True). by apply reads_ret.
  - read_by reads_lift. intros u Hv%validate_tenant. read_by reads_uuid. intros id _.
    read_by reads_gateway_events; [gateway_types|]. intros events Hev.
    apply chain_end; [|intros; by apply reads_ret]. apply gateway_append_chain; [done|].
    intros m' [= <-]. by apply call_statements_quiet, admission_statements.
  - read_by reads_lift. intros u Hv%validate_tenant. apply gateway_write_chain; [|done|done].
    unfold attempt_values. apply Forall_app. split; repeat case_match; gateway_types.
  - read_by reads_lift. intros u Hv%validate_tenant. read_by reads_lift. intros [tokens charged] _.
    read_by reads_lift. intros released _. apply gateway_write_chain; [gateway_types| |done].
    intros _ m' [= <-]. by apply charge_statements.
  - read_by reads_lift. intros u Hv%validate_tenant. read_by reads_lift. intros [tokens charged] _.
    read_by reads_lift. intros unspent _. read_by reads_lift. intros released _.
    apply gateway_write_chain; [gateway_types| |done].
    intros _ m' [= <-]. by apply charge_statements.
  - read_by reads_lift. intros u Hv%validate_tenant. apply gateway_write_chain; [gateway_types|done|done].
  - read_by reads_lift. intros u Hv%validate_tenant. apply gateway_write_chain; [gateway_types| |done].
    intros _ m' [= <-]. by apply release_statements.
Qed.
End Gateway.

(** ** The work repository

    A mutation of a work item touches the rows of the tenant of its key. *)

Section Mutations.
Context (context : TenantContext).

Lemma isolated_item key guard f miss :
  key.1 = ctx_str context → isolated context (update_item key guard f miss).
Proof.
  intros Hkey. assert (∀ r, isolated context (execute (upd_work_items <[key := f r]>)))
    by (intros r; apply within_execute; intros t; same_rows).
  unfold update_item. auto 8 with tenant.
Qed.

Lemma isolated_lease key guard f miss :
  key.1 = ctx_str context → isolated context (update_lease key guard f miss).
Proof.
  intros Hkey. assert (∀ r, isolated context (execute (upd_work_leases <[key := f r]>)))
    by (intros r; apply within_execute; intros t; same_rows).
  unfold update_lease. auto 8 with tenant.
Qed.

Lemma isolated_touch key f : key.1 = ctx_str context → isolated context (touch_item key f).
Proof. intros Hkey. apply within_execute. intros t. same_rows. Qed.

#[local] Hint Resolve isolated_item isolated_lease isolated_touch : tenant.

Section Lease.
Context (lease : WorkLease) (own : (lease_key lease).1 = ctx_str context).

Lemma isolated_dead_letter at_ reason : isolated context (record_dead_letter lease at_ reason).
Proof.
  unfold record_dead_letter. rule within_bind; [auto with tenant|intros _].
  apply within_execute. intros t tenant Hne. constructor; try done.
  simpl. case_match. apply agree_insert. congruence.
Qed.
#[local] Hint Resolve isolated_dead_letter : tenant.

Lemma isolated_complete at_ status reason :
  isolated context (_complete_in_transaction lease at_ status reason).
Proof. unfold _complete_in_transaction. auto 8 with tenant. Qed.
#[local] Hint Resolve isolated_complete : tenant.

Lemma isolated_release at_ reason retry_at running_only :
  isolated context (_release_in_transaction lease at_ reason retry_at running_only).
Proof. unfold _release_in_transaction. auto 8 with tenant. Qed.
#[local] Hint Resolve isolated_release : tenant.

Lemma isolated_cancel at_ : isolated context (_cancel_in_transaction lease at_).
Proof. unfold _cancel_in_transaction. auto 8 with tenant. Qed.

Lemma isolated_fail at_ code retry_at terminal :
  isolated context (fail_projection lease at_ code retry_at terminal).
Proof. unfold fail_projection, _dead_letter_in_transaction. auto 10 with tenant. Qed.

Lemma isolated_expire now cancelled exhausted expected :
  isolated context (expire_projection lease now cancelled exhausted expected).
Proof. unfold expire_projection, _dead_letter_expired_in_transaction. auto 12 with tenant. Qed.

Lemma isolated_renew extension : isolated context (renew_lease lease extension).
Proof. unfold renew_lease. auto 10 with tenant. Qed.
End Lease.

Section Request.
Context (request : WorkRequest) (own : wr_tenant_id request = ctx_str context).

Lemma isolated_insert id : isolated context (insert_work request id).
Proof. unfold insert_work. auto 20 with tenant. Qed.

Lemma isolated_mark : isolated context (mark_projection request).
Proof. unfold mark_projection. auto with tenant. Qed.

Lemma isolated_started lease : isolated context (mark_started request lease).
Proof. unfold mark_started. auto with tenant. Qed.

Lemma isolated_upsert work token gen owner acquired expires :
  isolated context (upsert_lease (wr_tenant_id request) work token gen owner acquired expires).
Proof. unfold upsert_lease. auto 12 with tenant. Qed.
#[local] Hint Resolve isolated_upsert : tenant.

Lemma isolated_claim token gen att owner dur limit :
  isolated context (claim_projection request token gen att owner dur limit).
Proof. unfold claim_projection. auto 20 with tenant. Qed.

Lemma isolated_cancellation status queued at_ :
  isolated context (cancel_projection request status queued at_).
Proof. unfold cancel_projection. auto 10 with tenant. Qed.

Lemma isolated_requeue work at_ approval actor :
  isolated context (requeue_projection (wr_tenant_id request) work at_ approval actor).
Proof. unfold requeue_projection. auto 20 with tenant. Qed.
End Request.

Lemma isolated_redrive mid work : isolated context (redrive_projection context mid work).
Proof. unfold redrive_projection. auto 12 with tenant. Qed.
End Mutations.

#[local] Hint Resolve isolated_complete isolated_release isolated_cancel isolated_fail isolated_expire
  isolated_renew isolated_insert isolated_mark isolated_started isolated_claim isolated_cancellation
  isolated_requeue isolated_redrive : tenant.

(** The events of a transaction that passes the store's checks are of the
    tenant of the context; they are built for the request. *)
Lemma built_own context request ty lease e rest :
  built request ty lease e → of_tenant context (e :: rest) → wr_tenant_id request = ctx_str context.
Proof. intros (_ & Ht & _)%built_inv [He _]%Forall_cons. unfold request_key in Ht. simpl in *. congruence. Qed.

Lemma built_own_lease context request ty lease e rest :
  built request ty (Some lease) e → of_tenant context (e :: rest) → (lease_key lease).1 = ctx_str context.
Proof. intros Hb Hof. rewrite (built_lease _ _ _ _ Hb). exact (built_own _ _ _ _ _ _ Hb Hof). Qed.

(** The rules of the store's operations, from a run. *)
Ltac by_append :=
  match goal with
  | H : append_atomic _ _ _ _ _ _ = _ |- _ => refine (append_atomic_isolated _ _ _ _ _ _ _ _ _ H)
  | H : append_fenced _ _ _ _ _ _ _ _ _ _ = _ |- _ =>
      refine (append_fenced_isolated _ _ _ _ _ _ _ _ _ _ _ _ _ H)
  | H : append_from_inbox _ _ _ _ _ _ _ _ = _ |- _ =>
      refine (append_from_inbox_isolated _ _ _ _ _ _ _ _ _ _ _ H)
  end.

Lemma tenant_txn_isolated context w w' :
  tenant_txn context w w' → others_same context (w_db w) (w_db w').
Proof.
  destruct 1 as
    [ ? ? _ Hsame
    | events v work token gen at_ outbox m w r w' _ Hm Hrun
    | request id e v outbox w r w' _ Hb Hrun
    | source mid request e v outbox w r w' _ Hb Hrun
    | request lease e v token gen att owner dur limit w r w' _ Hb Hrun
    | request lease e v at_ w r w' _ Hb Hrun
    | request lease renewed e v at_ ext w r w' _ Hb Hkey Hrun
    | request lease e v at_ w r w' _ Hb Hrun
    | request lease e v at_ w r w' _ Hb Hrun
    | request lease e1 e2 v at_ outbox code retry_at terminal w r w' _ Hb Hb2 Hrun
    | request lease e v at_ reason retry_at w r w' _ Hb Hrun
    | request status events v at_ w r w' _ Hterm Hb Hrun
    | request mid e v w r w' _ Hb Hten Hrun
    | request lease e1 e2 v now cancelled exhausted expected w r w' _ Hb Hb2 Hrun
    | request e v at_ approval actor outbox w r w' _ Hb Hrun ];
    [done|by_append; intros Hof..].
  - intros m' Hm'. by apply Hm.
  - apply isolated_insert. exact (built_own _ _ _ _ _ _ Hb Hof).
  - intros m' [= <-]. apply isolated_mark. exact (built_own _ _ _ _ _ _ Hb Hof).
  - apply isolated_claim. exact (built_own _ _ _ _ _ _ Hb Hof).
  - intros m' [= <-]. apply isolated_started. exact (built_own _ _ _ _ _ _ Hb Hof).
  - intros m' [= <-]. apply isolated_renew. rewrite <- Hkey. exact (built_own_lease _ _ _ _ _ _ Hb Hof).
  - intros m' [= <-]. apply isolated_complete. exact (built_own_lease _ _ _ _ _ _ Hb Hof).
  - intros m' [= <-]. apply isolated_cancel. exact (built_own_lease _ _ _ _ _ _ Hb Hof).
  - intros m' [= <-]. apply isolated_fail. exact (built_own_lease _ _ _ _ _ _ Hb Hof).
  - intros m' [= <-]. apply isolated_release. exact (built_own_lease _ _ _ _ _ _ Hb Hof).
  - apply isolated_cancellation. inversion Hb as [|? e ? rest He _]; subst. exact (built_own _ _ _ _ _ _ He Hof).
  - apply isolated_redrive.
  - apply isolated_expire. exact (built_own_lease _ _ _ _ _ _ Hb Hof).
  - apply isolated_requeue. exact (built_own _ _ _ _ _ _ Hb Hof).
Qed.

Lemma rtc_isolated context w w' :
  rtc (tenant_txn context) w w' → others_same context (w_db w) (w_db w').
Proof.
  induction 1 as [|x y z Hxy _ IH]; [done|]. etrans; [by apply tenant_txn_isolated|done].
Qed.

(** ** Projections *)

Section Views.
Context (context : TenantContext).

(** The table of a projection is one of the views, with the tenant in its key. *)
Definition projection_isolated (p : Projection) : Prop :=
  ∀ f t, agree (λ k, k.1 ≠ ctx_str context) (pj_get p (t_views t)) (f (pj_get p (t_views t))) →
    others_same context t (upd_views (λ v, pj_put p (f (pj_get p v)) v) t).

Lemma projections_isolated name p : _projection_table name = inr p → projection_isolated p.
Proof.
  unfold _projection_table, _TABLES. intros Hp f t Hf.
  repeat (simpl in Hp; case_bool_decide; [injection Hp as <-|]); try done;
    intros tenant Hne; constructor; try done; intros k Hk; cbn in Hk; apply Hf; cbn; congruence.
Qed.

Lemma apply_event_isolated p event :
  projection_isolated p → ev_tenant_id event = ctx_str context → isolated context (_apply_event p event).
Proof.
  intros Hp Ht. unfold _apply_event. rule within_bind; [auto with tenant|]. intros [c|]; [|auto with tenant].
  do 3 (rule within_bind; [auto with tenant|intros ?]). apply within_execute. intros t.
  apply (Hp (partial_alter _ _)). apply agree_partial_alter. simpl. rewrite Ht. tauto.
Qed.

Lemma apply_isolated name events expected : isolated context (apply context name events expected).
Proof.
  unfold apply. intros w r w'. unfold bind at 1, lift.
  destruct (_projection_table name) as [e|p] eqn:Hp; [by intros [= <- <-]|].
  apply projections_isolated in Hp. revert w r w'.
  match goal with |- ∀ w r w', ?m w = (r, w') → _ => change (isolated context m) end.
  case_bool_decide; [auto with tenant|]. rule within_bind; [auto with tenant|intros _].
  rule within_guard. unfold payload_guard. rule within_catch; [|auto with tenant]. rule within_transaction.
  do 2 (rule within_bind; [auto with tenant|intros ?]). rule within_bind.
  { apply within_execute. intros t tenant Hne. constructor; try done.
    simpl. case_match; [done|]. apply agree_insert. simpl. congruence. }
  intros _. rule within_bind; [auto with tenant|]. intros actual.
  destruct (_ <=? actual); [auto with tenant|]. rule within_bind; [auto with tenant|intros _].
  rule within_bind; [|auto with tenant]. rule within_for_each. intros event.
  unfold raise_if. case_bool_decide; cbn [negb].
  - rule within_bind; [auto with tenant|intros _]. by apply apply_event_isolated.
  - by intros w r w' [= <- <-].
Qed.

Lemma reset_isolated name : isolated context (reset context name).
Proof.
  unfold reset. intros w r w'. unfold bind at 1, lift.
  destruct (_projection_table name) as [e|p] eqn:Hp; [by intros [= <- <-]|].
  apply projections_isolated in Hp. revert w r w'.
  match goal with |- ∀ w r w', ?m w = (r, w') → _ => change (isolated context m) end.
  rule within_guard. rule within_transaction. rule within_bind; [|auto with tenant].
  apply within_execute. intros t. apply (Hp (filter _)). intros k Hk.
  apply option_eq. intros x. rewrite map_lookup_filter_Some. naive_solver.
Qed.

Lemma isolated_maintenance f : isolated context (set_maintenance f).
Proof. by intros w r w' [= <- <-]. Qed.
#[local] Hint Resolve apply_isolated reset_isolated isolated_maintenance read_all_isolated : tenant.

Lemma checkpoint_isolated name : isolated context (checkpoint context name).
Proof. unfold checkpoint. auto with tenant. Qed.
#[local] Hint Resolve checkpoint_isolated : tenant.

Lemma catch_up_isolated fuel page_size name : isolated context (catch_up fuel page_size context name).
Proof.
  unfold catch_up. rule within_bind; [auto with tenant|]. intros cursor. generalize (∅ : gmap string Z).
  revert cursor. induction fuel as [|fuel IH]; intros cursor versions; simpl; auto 10 with tenant.
Qed.

Lemma rebuild_isolated fuel page_size name : isolated context (rebuild fuel page_size context name).
Proof.
  assert (Hfinally : ∀ A (m : Db A) f, isolated context m → isolated context f → isolated context (try_finally m f)).
  { intros A m f Hm Hf w r w'. unfold try_finally. destruct (m w) as [r1 w1] eqn:H1.
    destruct (f w1) as [[e|u] w2] eqn:H2; intros [= <- <-]; (etrans; [by eapply Hm|by eapply Hf]). }
  pose proof catch_up_isolated. unfold rebuild, begin_rebuild, end_rebuild.
  rule within_bind; [auto with tenant|intros _]. apply Hfinally; auto with tenant.
Qed.

Lemma run_status_isolated limit : isolated context (run_status context limit).
Proof. unfold run_status. auto with tenant. Qed.
End Views.

(** ** Isolation *)

(** One call made on behalf of a tenant, whatever its outcome: of the event
    store, the work repository, the operator's lists, the model gateway's
    repository and the projections.  A caller of the store may hand it any
    statements of its own on the rows of the tenant; what the repositories hand
    it is part of their calls. *)
Inductive tenant_call `{PyRepr} (context : TenantContext) : World → World → Prop :=
| call_append events expected outbox w r w' :
    append context events expected outbox w = (r, w') → tenant_call context w w'
| call_append_atomic events expected mutation outbox w r w' :
    isolated context mutation → append_atomic context events expected mutation outbox w = (r, w') →
    tenant_call context w w'
| call_append_from_inbox source mid events expected outbox mutation w r w' :
    (∀ m, mutation = Some m → isolated context m) →
    append_from_inbox context source mid events expected outbox mutation w = (r, w') → tenant_call context w w'
| call_append_fenced events expected work token gen at_ outbox mutation w r w' :
    (∀ m, mutation = Some m → isolated context m) →
    append_fenced context events expected work token gen at_ outbox mutation w = (r, w') → tenant_call context w w'
| call_read_stream aggregate after limit w r w' :
    read_stream context aggregate after limit w = (r, w') → tenant_call context w w'
| call_read_all after limit w r w' :
    read_all context after limit w = (r, w') → tenant_call context w w'
| call_version aggregate w r w' :
    current_version context aggregate w = (r, w') → tenant_call context w w'
| call_claim_outbox owner until now limit destination w r w' :
    claim_outbox context owner until now limit destination w = (r, w') → tenant_call context w w'
| call_outbox_published mid owner expires at_ w r w' :
    mark_outbox_published context mid owner expires at_ w = (r, w') → tenant_call context w w'
| call_outbox_failed mid owner expires at_ code w r w' :
    mark_outbox_failed context mid owner expires at_ code w = (r, w') → tenant_call context w w'
| call_outbox_dead_lettered mid owner expires code w r w' :
    mark_outbox_dead_lettered context mid owner expires code w = (r, w') → tenant_call context w w'
| call_work w w' : work_call context w w' → tenant_call context w w'
| call_status filter limit cursor w r w' :
    WorkReads.status context filter limit cursor w = (r, w') → tenant_call context w w'
| call_pending limit cursor w r w' :
    pending_status context limit cursor w = (r, w') → tenant_call context w w'
| call_gateway lease w r w' : gateway_call context lease w r w' → tenant_call context w w'
| call_catch_up fuel page_size name w r w' :
    catch_up fuel page_size context name w = (r, w') → tenant_call context w w'
| call_rebuild fuel page_size name w r w' :
    rebuild fuel page_size context name w = (r, w') → tenant_call context w w'
| call_run_status limit w r w' :
    run_status context limit w = (r, w') → tenant_call context w w'.

(** C10. Tenant isolation: no call made in one tenant's context, whatever its
    arguments and outcome, with every statement it runs in its transactions,
    adds, changes or removes a row of another tenant in any table: events,
    stream heads, inbox, outbox, work items, leases, dead letters, approvals,
    budgets, reservations, quotas, read models and their checkpoints.  (The
    identifiers of work items are UUIDs, as their column is typed.) *)
Theorem tenant_isolation `{PyRepr} context w w' tenant :
  tenant_call context w w' → ids_valid (w_db w) → tenant ≠ ctx_str context →
  same_view tenant (w_db w) (w_db w').
Proof.
  intros Hcall Hids. enough (Hsame : others_same context (w_db w) (w_db w')) by apply Hsame. destruct Hcall.
  - by eapply append_isolated.
  - by eapply append_atomic_isolated; [intros _|].
  - by eapply append_from_inbox_isolated; [intros _|].
  - by eapply append_fenced_isolated; [intros _|].
  - by eapply read_stream_isolated.
  - by eapply read_all_isolated.
  - by eapply current_version_isolated.
  - by eapply claim_outbox_isolated.
  - by eapply settle_isolated.
  - match goal with Hrun : mark_outbox_failed _ _ _ _ _ _ _ = _ |- _ => revert Hrun end.
    unfold mark_outbox_failed. pose proof (settle_isolated context).
    match goal with |- ?m w = _ → _ => assert (Hm : isolated context m) by auto with tenant end. apply Hm.
  - match goal with Hrun : mark_outbox_dead_lettered _ _ _ _ _ _ = _ |- _ => revert Hrun end.
    unfold mark_outbox_dead_lettered. pose proof (settle_isolated context).
    match goal with |- ?m w = _ → _ => assert (Hm : isolated context m) by auto with tenant end. apply Hm.
  - by eapply rtc_isolated, work_call_chain.
  - match goal with Hrun : WorkReads.status _ _ _ _ _ = _ |- _ => revert Hrun end.
    unfold WorkReads.status.
    match goal with |- ?m w = _ → _ => assert (Hm : isolated context m) by auto 8 with tenant end. apply Hm.
  - match goal with Hrun : pending_status _ _ _ _ = _ |- _ => revert Hrun end. unfold pending_status.
    match goal with |- ?m w = _ → _ => assert (Hm : isolated context m) by auto 8 with tenant end. apply Hm.
  - by eapply rtc_isolated, gateway_call_chain.
  - by eapply catch_up_isolated.
  - by eapply rebuild_isolated.
  - by eapply run_status_isolated.
Qed.

(** A call of the work repository and one of the store. *)
Lemma tenant_isolation_witness :
  same_view "globex" (w_db published) (w_db claimed) ∧
  t_work_leases (w_db claimed) ≠ t_work_leases (w_db published).
Proof.
  split; [|vm_compute; discriminate].
  apply (tenant_isolation (H := λ _, ""%string) acme published claimed "globex").
  - apply call_work. refine (call_claim _ sample_delivery "worker-1" (Dt.Aware 14000000) (Dt.Aware 44000000) 2
      published (sample_claim published).1 claimed _ _); [done|]. unfold claimed, run, sample_claim.
    apply surjective_pairing.
  - exact (wk_ids _ (worked_ok _ published_worked)).
  - vm_compute. discriminate.
Defined.
