(* ===== verification/GatewayPostgresWiring.v ===== *)
(** * The gateway service over PostgreSQL

    [PostgresGatewayRepository] keeps the laws the gateway service relies on,
    so the theorems about the service hold for it as well; a sample call runs
    the service, the repository and the event store together. *)

From stdpp Require Import base gmap list strings.
From Stdlib Require Import ZArith Lia SpecFloat.
From S2P Require Import Prelude PyLib Json Events Identity Work Amounts Database EventStore Wire.
From S2P Require Import Ledger LedgerReads LedgerAppend LedgerTheorems Floats Backoff.
From S2P Require Import Policy ModelContracts Routing GatewayRepository GatewayTheorems.
From S2P Require Import GatewayBudgets Resilience GatewayService GatewayServiceTheorems Raises.
From S2P Require Import GatewayWiring GatewayPostgres GatewayPostgresTheorems.

Local Open Scope Z_scope.

(** ** No gateway errors from the store *)

Lemma calm_append_fenced context lease events at_ (m : Db unit) :
  calm m → calm (_append_fenced context lease events at_ (Some m)).
Proof. intros Hm. unfold _append_fenced, current_version, append_fenced. raises_solve. Qed.
Lemma calm_append_only context lease events at_ :
  calm (_append_fenced context lease events at_ None).
Proof. unfold _append_fenced, current_version, append_fenced. raises_solve. Qed.
#[export] Hint Resolve calm_append_fenced calm_append_only : raises.

Lemma calm_events_from request lease at_ i c values : calm (events_from request lease at_ i c values).
Proof. revert i c. induction values as [|[] values IH]; intros i c; simpl; eauto 8 with raises. Qed.
Lemma calm_call_events request lease at_ values : calm (_events request lease at_ values).
Proof. apply calm_events_from. Qed.
Lemma calm_call_validate context request lease at_ :
  calm_result (_validate context request lease at_).
Proof. unfold _validate. raises_solve. Qed.
Lemma calm_to_numeric p s d : calm_result (to_numeric p s d).
Proof. unfold to_numeric. raises_solve. Qed.
Lemma calm_quota q : calm_result (QuotaLimits_post_init q).
Proof. unfold QuotaLimits_post_init, _require_finite_non_negative_decimal. raises_solve. Qed.
Lemma calm_totals pricing response : calm_result (_usage_totals pricing response).
Proof. unfold _usage_totals. raises_solve. Qed.
Lemma calm_settle tenant id lease f : calm (settle_reservation tenant id lease f).
Proof. unfold settle_reservation. raises_solve. Qed.
#[export] Hint Resolve calm_call_events calm_call_validate calm_to_numeric calm_quota calm_totals
  calm_settle : raises.

Lemma calm_admitted request at_ t : calm_result (admitted_budgets request at_ t).
Proof. unfold admitted_budgets. raises_solve. Qed.
Lemma calm_check_budget quotas b tokens cost : calm_result (_check_budget quotas b tokens cost).
Proof. unfold _check_budget. raises_solve. Qed.
#[export] Hint Resolve calm_admitted calm_check_budget : raises.

Lemma calm_admission request lease reservation quotas at_ :
  calm (admission request lease reservation quotas at_).
Proof.
  unfold admission, _lock_budget, under_maintenance, _quota_limits, insert_reservation.
  raises_solve.
Qed.
Lemma calm_charge request lease reservation response pricing tokens charged at_ :
  calm (charge request lease reservation response pricing tokens charged at_).
Proof. unfold charge, insert_usage. raises_solve. Qed.
#[export] Hint Resolve calm_admission calm_charge : raises.

(** ** The repository keeps the laws *)

Definition postgres_settled (w : World) (id : uuid) : Prop :=
  ∃ tenant row, bt_reservations (t_budgets (w_db w)) !! (tenant, id) = Some row ∧
    bg_status row ≠ RS_ACTIVE.

Lemma charge_settles request lease reservation response pricing tokens charged at_ w w' :
  charge request lease reservation response pricing tokens charged at_ w = (inr tt, w') →
  postgres_settled w' (br_reservation_id reservation).
Proof.
  unfold charge, insert_usage. intros Hrun. db_inv.
  match goal with Hs : settle_reservation _ _ _ _ _ = (inr ?u, _) |- _ =>
    destruct u; apply settle_reservation_ok in Hs as (row & _ & _ & _ & _ & Hr & _) end.
  eexists _, _. simpl. rewrite Hr. by rewrite lookup_insert_eq.
Qed.

Lemma release_settles request lease reservation at_ w w' :
  release_budget request lease reservation at_ w = (inr tt, w') →
  postgres_settled w' (br_reservation_id reservation).
Proof.
  intros Hrun. apply settle_reservation_ok in Hrun as (row & _ & _ & _ & _ & Hr & _).
  eexists _, _. rewrite Hr. by rewrite lookup_insert_eq.
Qed.

#[export] Instance postgres_laws `{PyRepr} : GatewayRepoLaws World.
Proof.
  refine {| repo_settled := postgres_settled |}; simpl.
  - intros c q l rv rs p a w u w' Hrun. unfold succeed in Hrun.
    do 2 (apply bind_ok in Hrun as (? & ? & _ & Hrun)). case_match.
    do 2 (apply bind_ok in Hrun as (? & ? & _ & Hrun)).
    apply append_fenced_commit in Hrun as [_ _ (w1 & now & _ & _ & Hrun)].
    by apply charge_settles in Hrun.
  - intros c q l rv rs p e a w u w' Hrun. unfold record_usage_failure in Hrun.
    do 2 (apply bind_ok in Hrun as (? & ? & _ & Hrun)). case_match.
    do 3 (apply bind_ok in Hrun as (? & ? & _ & Hrun)).
    apply append_fenced_commit in Hrun as [_ _ (w1 & now & _ & _ & Hrun)].
    by apply charge_settles in Hrun.
  - intros c q l rv e a w u w' Hrun. unfold fail in Hrun.
    do 2 (apply bind_ok in Hrun as (? & ? & _ & Hrun)).
    apply append_fenced_commit in Hrun as [_ _ (w1 & now & _ & _ & Hrun)].
    by apply release_settles in Hrun.
  - intros. apply raises_ret.
  - intros. unfold reserve. raises_solve.
  - intros. unfold record_attempt. raises_solve.
  - intros. unfold record_attempt_failure. raises_solve.
  - intros. unfold record_usage_failure. raises_solve.
  - intros. unfold fail, release_budget. raises_solve.
Defined.

(** ** A sample call *)

#[local] Instance sample_postgres_repr : PyRepr := λ _, ""%string.

Definition sample_item : WorkItemRow :=
  mkWorkItemRow "agent" "work-1" RUNNING 0 0 1 3 60 50 51 None PNone None None None.

(** Tenant acme with quotas and a leased work item. *)
Definition pg_start : World :=
  set_db (λ t, upd_budgets (λ b, mkBudgetTables ∅ ∅
                 {["acme"%string := mkQuotaRow 1000 (Some 1500000) 5000 (Some 10000000) 4]})
    (upd_work_items <[("acme"%string, 100%N) := sample_item]>
    (upd_work_leases <[("acme"%string, 100%N) :=
       mkLeaseRow 2001 1 "worker-1" 0 0 50000000 None None]> t))) start.

Lemma pg_start_ok : ledger_ok pg_start.
Proof. apply (ledger_ok_ext start); [done..|apply genesis_ledger_ok]. Qed.

Abbreviation pg_reserve :=
  (reserve gw_context sample_model_request gw_lease gw_route sample_quotas 300 (DFin 3 (-3)) "p1"
     (Dt.Aware 30000000)).

Definition pg_reserved : World := (pg_reserve pg_start).2.

Definition pg_reservation : BudgetReservation :=
  {| br_reservation_id := 0%N; br_tenant_id := "acme"; br_run_id := 100%N;
     br_request_id := 11%N; br_token_limit := 300; br_cost_limit_usd := DFin 3 (-3);
     br_price_version := "p1"; br_active := true; br_status := RS_ACTIVE;
     br_charged_tokens := 0; br_charged_cost_usd := DFin 0 0; br_created_at := None;
     br_expires_at := None; br_reconciled_at := None |}.

Lemma pg_reserve_runs : pg_reserve pg_start = (inr pg_reservation, pg_reserved).
Proof.
  assert (Hr : (pg_reserve pg_start).1 = inr pg_reservation) by (vm_compute; reflexivity).
  unfold pg_reserved. rewrite <- Hr. apply surjective_pairing.
Qed.

Lemma pg_reserved_ok : ledger_ok pg_reserved.
Proof.
  pose proof (call_reserve gw_context gw_lease pg_start sample_model_request gw_route sample_quotas
    300 (DFin 3 (-3)) "p1" (Dt.Aware 30000000)) as Hc.
  cbv zeta in Hc. unfold pg_reserved. exact (call_keeps_ledger _ _ _ _ _ Hc pg_start_ok).
Qed.

Abbreviation pg_finish :=
  (succeed gw_context sample_model_request gw_lease pg_reservation sample_response sample_pricing
     (Dt.Aware 31000000)).

Definition pg_finished : World := (pg_finish pg_reserved).2.

Lemma pg_finish_runs : pg_finish pg_reserved = (inr tt, pg_finished).
Proof.
  assert (Hr : (pg_finish pg_reserved).1 = inr tt) by (vm_compute; reflexivity).
  unfold pg_finished. rewrite <- Hr. apply surjective_pairing.
Qed.

Lemma pg_reserve_events : length (t_events (w_db pg_reserved)) = 3%nat.
Proof. vm_compute. reflexivity. Qed.

Lemma gateway_calls_fenced_witness :
  ∃ w', pg_reserve pg_start = (inr pg_reservation, w') ∧ ledger_ok w' ∧
  ∃ events now, events ≠ [] ∧
    log w' = log pg_start ++ commit_events events
      (default 0 (t_heads (w_db pg_start) !! ("acme"%string, Uuid.to_str 100)))
      (w_position pg_start) (w_clock pg_start now).
Proof.
  exists pg_reserved. pose proof pg_reserve_events as Hlen. pose proof pg_reserve_runs as Hrun.
  revert Hlen Hrun. generalize pg_reserved as w'. intros w' Hlen Hrun. split; [exact Hrun|].
  pose proof (call_reserve gw_context gw_lease pg_start sample_model_request gw_route sample_quotas
    300 (DFin 3 (-3)) "p1" (Dt.Aware 30000000)) as Hc.
  cbv zeta in Hc. rewrite Hrun in Hc. cbn [fst snd outcome] in Hc.
  destruct (gateway_calls_fenced gw_context gw_lease pg_start _ w' Hc pg_start_ok) as [Hok Hr].
  split; [exact Hok|]. destruct Hr as [->|(_ & events & now & _ & Hne & Hlog)].
  - discriminate Hlen.
  - exists events, now. split; [exact Hne|exact Hlog].
Defined.

(** The charged row: 210 tokens for 0.001425 USD. *)
Definition charged_row : BudgetRow :=
  settle_row (reservation_row sample_model_request gw_lease 300 (Some 30000000) "p1"
                (Dt.Aware 30000000)) RS_CHARGED 210 (Some 14250000) (Dt.Aware 31000000).

Lemma pg_finished_rows :
  bt_reservations (t_budgets (w_db pg_finished)) = {[("acme"%string, 0%N) := charged_row]}.
Proof. vm_compute. reflexivity. Qed.

(** After the charge the reservation cannot be released. *)
Lemma gateway_call_charged_once_witness :
  ∃ w, bt_reservations (t_budgets (w_db w)) = {[("acme"%string, 0%N) := charged_row]} ∧
  let again := (fail gw_context sample_model_request gw_lease pg_reservation
                  (mkGatewayError TRANSIENT "late" true None false) (Dt.Aware 32000000) w).2 in
  calls_distinct (bt_reservations (t_budgets (w_db again))) ∧
  bt_reservations (t_budgets (w_db again)) !! ("acme"%string, 0%N) = Some charged_row.
Proof.
  exists pg_finished. pose proof pg_finished_rows as Hrows. revert Hrows.
  generalize pg_finished as w. intros w Hrows. split; [exact Hrows|]. cbv zeta.
  destruct (gateway_call_charged_once w
    (fail gw_context sample_model_request gw_lease pg_reservation
       (mkGatewayError TRANSIENT "late" true None false) (Dt.Aware 32000000) w).2) as [Hd Hfinal].
  - apply rtc_once. left. exists gw_context, gw_lease. eexists.
    apply (call_fail gw_context gw_lease w sample_model_request pg_reservation).
  - rewrite Hrows. intros tenant i j r s Hi Hj _ _.
    apply lookup_singleton_Some in Hi as [Hi _], Hj as [Hj _]. congruence.
  - split; [exact Hd|]. apply Hfinal; [|discriminate]. rewrite Hrows. apply lookup_singleton_eq.
Defined.

Lemma gateway_reserve_within_quotas_witness :
  (tenant_spending "acme" (Dt.Aware 30000000) (w_db pg_reserved)).1 ≤ 5000 ∧
  run_spending "acme" 100 (w_db pg_reserved) = (300, Some 30000000) ∧
  ("model-usage", "acme")%string ∉ w_maintenance pg_start.
Proof.
  pose proof (gateway_reserve_within_quotas gw_context sample_model_request gw_lease gw_route
    sample_quotas 300 (DFin 3 (-3)) "p1" (Dt.Aware 30000000) pg_start pg_reservation pg_reserved
    30000000 15000000000 100000000000 pg_reserve_runs) as H.
  destruct H as (Hfree & _ & Htok & _).
  - exists 3, (-3). split; [reflexivity|]. split; [lia|reflexivity].
  - exists 150, (-2). split; [reflexivity|]. split; [lia|reflexivity].
  - exists 10, 0. split; [reflexivity|]. split; [lia|reflexivity].
  - split; [exact Htok|]. split; [vm_compute; reflexivity|exact Hfree].
Defined.
