(* ===== verification/GatewayUsage.v ===== *)
(** * Recorded usage and its projection agree

    The gateway writes a row of [model_usage_projection] in the transaction
    that appends the [model.usage_recorded.v1] event.  Replaying that event, as
    catching up and rebuilding do, gives the same row but for its time: the
    live row carries the worker's clock, the replayed one the server's. *)

From stdpp Require Import base gmap sets list strings.
From Stdlib Require Import ZArith Lia.
From S2P Require Import Prelude PyLib Json Events Identity Work Amounts Database EventStore Wire.
From S2P Require Import Ledger LedgerReads LedgerAppend LedgerTheorems Parsing ParsingTheorems.
From S2P Require Import Projections ProjectionTheorems.
From S2P Require Import Policy ModelContracts Routing GatewayRepository GatewayService.
From S2P Require Import GatewayBudgets GatewayServiceTheorems GatewayPostgres GatewayPostgresTheorems.
From S2P Require Import GatewayPostgresWiring.

Local Open Scope Z_scope.

Lemma decimal_text_roundtrip d : dec_of_str (dec_str d) = inr d.
Proof. destruct d as [c e|m|]; [apply decimal_roundtrip|by destruct m|done]. Qed.

(** The payload of the usage event. *)
Definition usage_details (request : ModelRequest) (lease : WorkLease)
    (reservation : BudgetReservation) (response : ModelResponse) (pricing : PricingVersion)
    (charged : decimal) : pydict :=
  dict_of (response_common request lease reservation response pricing
           ++ _usage (ms_usage response) ++ [("cost_usd", PStr (dec_str charged))]%string).

(** What the usage row must satisfy to be accepted. *)
Definition usage_accepted (row : ModelUsageRow) : Prop :=
  mu_provider row ≠ ""%string ∧ mu_model row ≠ ""%string ∧ mu_price_version row ≠ ""%string ∧
  Forall (λ n, 0 ≤ n) [mu_input_tokens row; mu_output_tokens row; mu_cache_read_tokens row;
    mu_cache_write_tokens row; mu_reasoning_tokens row] ∧
  numeric_nonneg (mu_cost_usd row) = true.

Lemma required_int_ok p field z : dict_get field p = Some (PInt z) → 0 ≤ z → _required_int p field = inr z.
Proof.
  intros Hg Hz. unfold _required_int. rewrite Hg. by rewrite (proj2 (Z.ltb_ge _ _)).
Qed.
Lemma required_string_ok p field s :
  dict_get field p = Some (PStr s) → s ≠ ""%string → _required_string p field = inr s.
Proof. intros Hg Hs. unfold _required_string. rewrite Hg. by destruct s. Qed.

Lemma usage_event_applies request lease reservation response pricing charged cost ts e :
  Uuid.valid (mq_request_id request) → Uuid.valid (mq_run_id request) →
  freeze_json_mapping (usage_details request lease reservation response pricing charged)
    = inr (payload e) →
  event_type e = event_type_value MODEL_USAGE_RECORDED → recorded_at e = Some ts →
  to_numeric 20 10 charged = inr cost →
  let row := usage_row request response pricing (billable_tokens (ms_usage response)) cost ts in
  usage_accepted row →
  _apply_model_usage e =
  inr (Some (mkChange (mq_request_id request) (λ _, inr (Some row)) (tenant_exists e))).
Proof.
  intros Hq Hr Hf Hty Hts Hcost row (H1 & H2 & H3 & H4 & H5). unfold row in *. simpl in *.
  rewrite !Forall_cons in H4. destruct H4 as (T1 & T2 & T3 & T4 & T5 & _).
  injection Hf as Hf. symmetry in Hf.
  assert (Hstr : ∀ key s, dict_get key (payload e) = Some (PStr s) → s ≠ ""%string →
    _required_string (payload e) key = inr s) by (intros; by apply required_string_ok).
  assert (Hint : ∀ key z, dict_get key (payload e) = Some (PInt z) → 0 ≤ z →
    _required_int (payload e) key = inr z) by (intros; by apply required_int_ok).
  rewrite Hf in Hstr, Hint.
  unfold _apply_model_usage. rewrite Hty, Hts, Hf.
  change (_domain_event_type (event_type_value MODEL_USAGE_RECORDED))
    with (Some MODEL_USAGE_RECORDED). cbv iota zeta.
  rewrite (Hint "input_tokens"%string (input_tokens (ms_usage response)) eq_refl T1); cbn [rbind].
  rewrite (Hint "output_tokens"%string (output_tokens (ms_usage response)) eq_refl T2); cbn [rbind].
  rewrite (Hint "cache_read_tokens"%string (cache_read_tokens (ms_usage response)) eq_refl T3); cbn [rbind].
  rewrite (Hint "cache_write_tokens"%string (cache_write_tokens (ms_usage response)) eq_refl T4); cbn [rbind].
  rewrite (Hint "reasoning_tokens"%string (reasoning_tokens (ms_usage response)) eq_refl T5); cbn [rbind].
  assert (Hne : ∀ u, Uuid.to_str u ≠ ""%string).
  { intros u. destruct (Uuid.hex_head 7 (N.shiftr u 96) "") as (d & s & _ & Hh).
    unfold Uuid.to_str, Uuid.field. by rewrite Hh. }
  rewrite (Hstr "request_id"%string (Uuid.to_str (mq_request_id request)) eq_refl (Hne _)); cbn [rbind].
  rewrite uuid_roundtrip by done; cbn [rbind].
  rewrite (Hstr "run_id"%string (Uuid.to_str (mq_run_id request)) eq_refl (Hne _)); cbn [rbind].
  rewrite uuid_roundtrip by done; cbn [rbind].
  rewrite (Hstr "provider"%string (mi_provider (ms_model response)) eq_refl H1); cbn [rbind].
  rewrite (Hstr "model"%string (mi_model (ms_model response)) eq_refl H2); cbn [rbind].
  rewrite (Hstr "price_version"%string (pv_version pricing) eq_refl H3); cbn [rbind].
  assert (Hdec : dec_str charged ≠ ""%string).
  { intros Hd. pose proof (decimal_text_roundtrip charged) as Hrt. by rewrite Hd in Hrt. }
  rewrite (Hstr "cost_usd"%string (dec_str charged) eq_refl Hdec); cbn [rbind].
  rewrite decimal_text_roundtrip; cbn [rbind]. rewrite Hcost; cbn [rbind]. rewrite H5. done.
Qed.

Definition recorded (row : ModelUsageRow) (at_ : Z) : ModelUsageRow :=
  mkModelUsageRow (mu_run_id row) (mu_provider row) (mu_model row) (mu_price_version row)
    (mu_input_tokens row) (mu_output_tokens row) (mu_cache_read_tokens row)
    (mu_cache_write_tokens row) (mu_reasoning_tokens row) (mu_total_tokens row)
    (mu_cost_usd row) at_.

(** The statements of a charge leave the usage row of the call. *)
Lemma charge_usage request lease reservation response pricing tokens charged at_ w w' :
  charge request lease reservation response pricing tokens charged at_ w = (inr tt, w') →
  ∃ cost, to_numeric 20 10 charged = inr cost ∧
    let row := usage_row request response pricing tokens cost at_ in
    usage_accepted row ∧
    v_model_usage (t_views (w_db w')) !! (mq_tenant_id request, mq_request_id request) = Some row.
Proof.
  unfold charge, insert_usage. intros Hrun. db_inv.
  match goal with Hc : inr ?cost = to_numeric _ _ _ |- _ => exists cost; split; [done|] end.
  unfold usage_accepted. simpl. rewrite lookup_insert_eq. bool_props.
  repeat match goal with H : PyStr.is_empty _ = false |- _ => apply PyStr.is_empty_false in H end.
  split; [|done]. split_and!; try done. by repeat constructor.
Qed.

(** The usage event of a charging call, among the events it appends. *)
Definition replays_usage (context : TenantContext) (request : ModelRequest) (at_ : Dt.datetime)
    (w w' : World) : Prop :=
  ∃ row e now,
    v_model_usage (t_views (w_db w')) !! (ctx_str context, mq_request_id request) = Some row ∧
    mu_recorded_at row = Dt.us at_ ∧
    e ∈ drop (length (log w)) (log w') ∧ ev_tenant_id e = ctx_str context ∧
    recorded_at e = Some (Dt.Aware now) ∧
    ∀ m, replay_event model_usage_projection (with_predecessor e) m =
         inr (<[mq_request_id request := recorded row now]> m).

Lemma charging_call context request lease reservation response pricing charged at_ first last
    w0 w events w1 u w' :
  ledger_ok w0 → drew w0 w → mq_tenant_id request = ctx_str context →
  Uuid.valid (mq_request_id request) → Uuid.valid (mq_run_id request) →
  _events request lease at_
    (first :: charged_values (response_common request lease reservation response pricing)
       (ms_usage response) (billable_tokens (ms_usage response)) charged ++ [last]) w
  = (inr events, w1) →
  _append_fenced context lease events at_
    (Some (charge request lease reservation response pricing (billable_tokens (ms_usage response))
             charged at_)) w1 = (inr u, w') →
  replays_usage context request at_ w0 w'.
Proof.
  intros Hok Hdrew Hten Hq Hr Hev Happ.
  destruct (call_commits context lease request at_ _ _ _ _ _ _ _ _ Hdrew Hev Happ) as [Hf Hvalid].
  pose proof (neutral_charge lease request reservation response pricing
    (billable_tokens (ms_usage response)) charged at_) as Hneutral.
  destruct (committed_log context lease events at_ _ w0 w' Hok Hvalid Hneutral Hf) as [now Hlog].
  destruct Hf as [_ _ (w2 & _ & _ & _ & Hcharge)].
  apply charge_usage in Hcharge as (cost & Hcost & Hacc & Hrow). rewrite Hten in Hrow.
  apply events_shape in Hev. inversion Hev as [|? e1 ? rest _ Hrest]; subst.
  inversion Hrest as [|? e2 ? rest' He2 _]; subst. destruct He2 as (id & cause & i & He2).
  apply post_init_inv in He2 as (p & meta & Hp & _ & ->).
  set (v := default 0 _) in Hlog.
  eexists _, (committed _ (v + 1 + 1) (w_position w0 + 1 + 1) (w_clock w0 now) None), (w_clock w0 now).
  split; [exact Hrow|]. split; [done|]. split.
  { rewrite Hlog, drop_app_length. simpl. right. left. }
  split; [done|]. split; [done|]. intros m. unfold replay_event.
  change (pj_change model_usage_projection) with _apply_model_usage.
  erewrite usage_event_applies; [|exact Hq|exact Hr|exact Hp|done|done|exact Hcost|exact Hacc].
  simpl. f_equal.
Qed.

(** C17. Recorded usage and its projection agree.  After a call that charges a
    reservation, whether it succeeded or failed validation, the usage row the
    gateway wrote and the row a replay of the appended event produces are the
    same, identifiers, token counts and exact cost included, except for the
    time: the live row has the worker's time of the call and the replayed row
    the server's time of the commit. *)
Theorem recorded_usage_replays context request lease reservation response pricing at_ w w' :
  ledger_ok w → Uuid.valid (mq_request_id request) → Uuid.valid (mq_run_id request) →
  succeed context request lease reservation response pricing at_ w = (inr tt, w') ∨
  (∃ error, record_usage_failure context request lease reservation response pricing error at_ w
            = (inr tt, w')) →
  replays_usage context request at_ w w'.
Proof.
  assert (Hsame : drew w w) by done. intros Hok Hq Hr [Hrun|[error Hrun]].
  - unfold succeed in Hrun. apply bind_ok in Hrun as (u1 & w1 & Hv & Hrun).
    apply lift_run in Hv as [Hv ->]. symmetry in Hv. apply validate_tenant in Hv.
    apply bind_ok in Hrun as ([tokens charged] & w2 & Ha & Hrun).
    apply lift_run in Ha as [Ha ->]. symmetry in Ha. unfold _actual_usage in Ha.
    apply rbind_ok in Ha as ([t c] & Ht & Ha). unfold _usage_totals in Ht. py_inv.
    match goal with He : _events _ _ _ _ _ = _ |- _ => by eapply charging_call; [..|exact He|exact Hrun] end.
  - unfold record_usage_failure in Hrun. apply bind_ok in Hrun as (u1 & w1 & Hv & Hrun).
    apply lift_run in Hv as [Hv ->]. symmetry in Hv. apply validate_tenant in Hv.
    apply bind_ok in Hrun as ([tokens charged] & w2 & Ha & Hrun).
    apply lift_run in Ha as [Ha ->]. symmetry in Ha. unfold _usage_totals in Ha. py_inv.
    match goal with He : _events _ _ _ _ _ = _ |- _ => by eapply charging_call; [..|exact He|exact Hrun] end.
Qed.

(** The sample call: 210 tokens for 0.001425 USD. *)
Lemma recorded_usage_replays_witness :
  ∃ w', replays_usage gw_context sample_model_request (Dt.Aware 31000000) pg_reserved w' ∧
    (λ row, (mu_total_tokens row, mu_cost_usd row)) <$>
      v_model_usage (t_views (w_db w')) !! ("acme"%string, 11%N) = Some (210, Some 14250000).
Proof.
  assert (Hrow : (λ row, (mu_total_tokens row, mu_cost_usd row)) <$>
    v_model_usage (t_views (w_db pg_finished)) !! ("acme"%string, 11%N)
    = Some (210, Some 14250000)) by (vm_compute; reflexivity).
  exists pg_finished. split; [|exact Hrow].
  apply (recorded_usage_replays gw_context sample_model_request gw_lease pg_reservation
    sample_response sample_pricing (Dt.Aware 31000000) pg_reserved pg_finished pg_reserved_ok).
  - reflexivity.
  - reflexivity.
  - left. exact pg_finish_runs.
Defined.
