(* ===== verification/AuditTrail.v ===== *)
(** * Audit

    Models [audit.py]: redaction of details, audit events and the in-memory
    store.  The two regular expressions are written out as matchers. *)

From stdpp Require Import base gmap list strings.
From Stdlib Require Import ZArith Lia Ascii.
From S2P Require Import Prelude PyLib Json Events Identity Parsing.

Local Open Scope Z_scope.

(** ** Redaction *)

Definition REDACTED : string := "[REDACTED]".

(** [_SENSITIVE_KEYS.search(key)]; the keys of JSON objects are strings. *)
Definition sensitive_words : list string :=
  ["authorization"; "credential"; "password"; "prompt"; "secret"; "token"]%string.

Definition sensitive_key (key : pykey) : bool :=
  match key with
  | KStr s => existsb (λ word, contains word (str_lower s)) sensitive_words
  | KOther _ => false
  end.

(** [\w] on Latin-1 *)
Definition is_word (c : ascii) : bool :=
  let n := N_of_ascii c in
  ((48 <=? n) && (n <=? 57) || (65 <=? n) && (n <=? 90) || (n =? 95) || (97 <=? n) && (n <=? 122)
   || (n =? 170) || (n =? 178) || (n =? 179) || (n =? 181) || (n =? 185) || (n =? 186)
   || (188 <=? n) && (n <=? 190) || (192 <=? n) && (n <=? 214) || (216 <=? n) && (n <=? 246)
   || (248 <=? n))%N.

(** The rest after a prefix, compared without case. *)
Fixpoint drop_word (word s : string) : option string :=
  match word, s with
  | EmptyString, _ => Some s
  | String w word', String c s' => if Ascii.eqb w (lower_char c) then drop_word word' s' else None
  | _, _ => None
  end.

Fixpoint skip_nonspace (s : string) : string :=
  match s with
  | String c s' => if PyStr.is_space c then s else skip_nonspace s'
  | EmptyString => EmptyString
  end.

(** [Bearer\s+\S+] at the head of a text: the rest after the match. *)
Definition match_bearer (s : string) : option string :=
  match drop_word "bearer" s with
  | Some (String c s1) =>
      if PyStr.is_space c then
        match PyStr.lstrip s1 with
        | EmptyString => None
        | s2 => Some (skip_nonspace s2)
        end
      else None
  | _ => None
  end.

(** [\b] needs a character before that is no word character; [prev] says
    whether there is a word character before. *)
Definition bearer_here (prev : bool) (s : string) : option string :=
  if prev then None else match_bearer s.

(** [_BEARER_VALUE.sub(REDACTED, s)]; every round consumes a character. *)
Fixpoint sub_bearer (fuel : nat) (prev : bool) (s : string) : string :=
  match fuel, s with
  | S fuel, String c s' =>
      match bearer_here prev s with
      | Some rest => REDACTED +:+ sub_bearer fuel false rest
      | None => String c (sub_bearer fuel (is_word c) s')
      end
  | _, _ => EmptyString
  end.

Definition redact_text (s : string) : string := sub_bearer (String.length s) false s.

Fixpoint _redact_value (v : pyval) : pyval :=
  match v with
  | PStr s => PStr (redact_text s)
  | PDict d | PProxy d =>
      PProxy (map (λ kv, (kv.1, if sensitive_key kv.1 then PStr REDACTED else _redact_value kv.2)) d)
  | PList l | PTuple l => PTuple (map _redact_value l)
  | v => v
  end.

Definition redact_details (details : pydict) : pydict :=
  map (λ kv, (kv.1, if sensitive_key kv.1 then PStr REDACTED else _redact_value kv.2)) details.

(** ** Events *)

Inductive AuditEventType : Type :=
| AUTHENTICATION_OUTCOME | AUTHORIZATION_DECISION | POLICY_EVALUATION
| APPROVAL_IDENTITY_RECORDED | ADMINISTRATIVE_CHANGE.

#[export] Instance AuditEventType_eq_dec : EqDecision AuditEventType.
Proof. solve_decision. Defined.

#[export] Instance AuditEventType_constant : StringConstant AuditEventType := {
  sc_value t := match t with
    | AUTHENTICATION_OUTCOME => "security.authentication_outcome.v1"
    | AUTHORIZATION_DECISION => "security.authorization_decision.v1"
    | POLICY_EVALUATION => "security.policy_evaluation.v1"
    | APPROVAL_IDENTITY_RECORDED => "security.approval_identity_recorded.v1"
    | ADMINISTRATIVE_CHANGE => "security.administrative_change.v1"
    end%string;
  sc_members := [AUTHENTICATION_OUTCOME; AUTHORIZATION_DECISION; POLICY_EVALUATION;
                 APPROVAL_IDENTITY_RECORDED; ADMINISTRATIVE_CHANGE];
}.

#[export] Instance AuditEventType_ok : StringConstantOk AuditEventType.
Proof. solve_string_constant. Qed.

Inductive AuditOutcome : Type := AUDIT_SUCCESS | AUDIT_DENIED | AUDIT_FAILURE.

#[export] Instance AuditOutcome_eq_dec : EqDecision AuditOutcome.
Proof. solve_decision. Defined.

#[export] Instance AuditOutcome_constant : StringConstant AuditOutcome := {
  sc_value o := match o with
    | AUDIT_SUCCESS => "success" | AUDIT_DENIED => "denied" | AUDIT_FAILURE => "failure"
    end%string;
  sc_members := [AUDIT_SUCCESS; AUDIT_DENIED; AUDIT_FAILURE];
}.

#[export] Instance AuditOutcome_ok : StringConstantOk AuditOutcome.
Proof. solve_string_constant. Qed.

Record AuditEvent : Type := mkAuditEvent {
  ae_event_id : uuid;
  ae_tenant_id : TenantId;
  ae_event_type : AuditEventType;
  ae_occurred_at : Dt.datetime;
  ae_outcome : AuditOutcome;
  ae_actor_id : string;
  ae_action : string;
  ae_resource : string;
  ae_correlation_id : uuid;
  ae_details : pydict;
  ae_schema_version : Z;
}.

Definition AuditEvent_post_init (e : AuditEvent) : result AuditEvent :=
  let? _ := require_aware_datetime (ae_occurred_at e) in
  raise! ValueError "audit schema changes must use a new additive event type"
    when! negb (ae_schema_version e =? 1) ;;
  raise! ValueError "audit actor, action, and resource are required"
    when! PyStr.is_empty (ae_actor_id e) || PyStr.is_empty (ae_action e) || PyStr.is_empty (ae_resource e) ;;
  inr (mkAuditEvent (ae_event_id e) (ae_tenant_id e) (ae_event_type e) (ae_occurred_at e) (ae_outcome e)
         (ae_actor_id e) (ae_action e) (ae_resource e) (ae_correlation_id e)
         (redact_details (ae_details e)) (ae_schema_version e)).

(** [InMemoryAuditStore] *)
Definition InMemoryAuditStore_append (context : TenantContext) (event : AuditEvent)
    : M exn (list AuditEvent) unit :=
  do! raise_if (negb (bool_decide (ctx_tenant_id context = ae_tenant_id event)))
        (ValueError "audit event tenant does not match trusted context") ;;
  modify (λ events, events ++ [event]).

Definition InMemoryAuditStore_query (context : TenantContext) (limit : Z)
    : M exn (list AuditEvent) (list AuditEvent) :=
  do! raise_if (negb ((1 <=? limit) && (limit <=? 1000)))
        (ValueError "audit query limit must be between 1 and 1000") ;;
  let! events := gets (λ events, events) in
  let mine := List.filter (λ e, bool_decide (ae_tenant_id e = ctx_tenant_id context)) events in
  ret (drop (length mine - Z.to_nat limit) mine).

(** ** Redaction is complete *)

Example redact_sample :
  redact_text "Authorization: bearer  abc.def, xBearer y" = "Authorization: [REDACTED] xBearer y"%string.
Proof. reflexivity. Qed.

(** No bearer credential from here on. *)
Fixpoint no_bearer (prev : bool) (s : string) : bool :=
  match s with
  | EmptyString => true
  | String c s' =>
      match bearer_here prev s with Some _ => false | None => no_bearer (is_word c) s' end
  end.

Lemma lower_b_not_space c : Ascii.eqb "b" (lower_char c) = true → PyStr.is_space c = false.
Proof. destruct c as [[] [] [] [] [] [] [] []]; vm_compute; done. Qed.

Lemma bearer_here_head prev c s rest : bearer_here prev (String c s) = Some rest → PyStr.is_space c = false.
Proof.
  unfold bearer_here, match_bearer. destruct prev; [done|]. cbn [drop_word].
  destruct (Ascii.eqb "b" (lower_char c)) eqn:Hc; [|done]. intros _. by apply lower_b_not_space.
Qed.

(** The head of a redacted text is the head of the text or a bracket. *)
Lemma sub_cons fuel prev c s : (String.length (String c s) <= fuel)%nat →
  (∃ t, sub_bearer fuel prev (String c s) = String "[" t ∧ PyStr.is_space c = false) ∨
  (∃ fuel', (String.length s <= fuel')%nat ∧
    sub_bearer fuel prev (String c s) = String c (sub_bearer fuel' (is_word c) s)).
Proof.
  destruct fuel as [|fuel]; cbn [String.length]; [lia|]. intros Hf. cbn [sub_bearer].
  destruct (bearer_here prev (String c s)) as [rest|] eqn:Hb.
  - left. eexists. split; [reflexivity|]. by eapply bearer_here_head.
  - right. exists fuel. split; [lia|done].
Qed.

Lemma sub_nil fuel prev : sub_bearer fuel prev "" = ""%string.
Proof. by destruct fuel. Qed.

Lemma drop_word_sub word fuel prev s t : (String.length s <= fuel)%nat →
  all_chars (λ c, negb (Ascii.eqb c "[")) word = true → drop_word word (sub_bearer fuel prev s) = Some t →
  ∃ fuel' prev' s', drop_word word s = Some s' ∧ (String.length s' <= fuel')%nat ∧
    t = sub_bearer fuel' prev' s'.
Proof.
  revert fuel prev s. induction word as [|w word IH]; intros fuel prev s Hf Hw Ht.
  { injection Ht as <-. exists fuel, prev, s. by destruct s. }
  cbn [all_chars] in Hw. apply andb_prop in Hw as [Hw0 Hw].
  destruct s as [|c s]; [by rewrite sub_nil in Ht|].
  destruct (sub_cons fuel prev c s Hf) as [(t' & Heq & _)|(fuel' & Hf' & Heq)]; rewrite Heq in Ht.
  - cbn [drop_word] in Ht. change (lower_char "[") with "["%char in Ht.
    apply negb_true_iff in Hw0. by rewrite Hw0 in Ht.
  - cbn [drop_word] in *. destruct (Ascii.eqb w (lower_char c)); [|done]. by eapply IH.
Qed.

Lemma lstrip_sub fuel prev s : (String.length s <= fuel)%nat →
  PyStr.lstrip s = ""%string → PyStr.lstrip (sub_bearer fuel prev s) = ""%string.
Proof.
  revert fuel prev. induction s as [|c s IH]; intros fuel prev Hf; [by rewrite sub_nil|].
  cbn [PyStr.lstrip]. destruct (PyStr.is_space c) eqn:Hc; [|done]. intros Hs.
  destruct (sub_cons fuel prev c s Hf) as [(t & _ & Hn)|(fuel' & Hf' & ->)]; [by rewrite Hn in Hc|].
  cbn [PyStr.lstrip]. rewrite Hc. by apply IH.
Qed.

(** Redaction makes no new match. *)
Lemma match_bearer_sub fuel prev s : (String.length s <= fuel)%nat →
  match_bearer s = None → match_bearer (sub_bearer fuel prev s) = None.
Proof.
  intros Hf Hs. unfold match_bearer in *.
  destruct (drop_word "bearer" (sub_bearer fuel prev s)) as [t|] eqn:Ht; [|done].
  apply drop_word_sub in Ht as (fuel' & prev' & s' & Hdrop & Hf' & ->); [|done|reflexivity].
  rewrite Hdrop in Hs. destruct s' as [|c s']; [by rewrite sub_nil|].
  destruct (sub_cons fuel' prev' c s' Hf') as [(t & -> & _)|(fuel'' & Hf'' & ->)]; [done|].
  destruct (PyStr.is_space c); [|done].
  assert (Hl : PyStr.lstrip s' = ""%string) by (by destruct (PyStr.lstrip s')).
  by rewrite lstrip_sub.
Qed.

Lemma skip_nonspace_length s : (String.length (skip_nonspace s) <= String.length s)%nat.
Proof. induction s as [|c s IH]; [done|]. simpl. destruct (PyStr.is_space c); simpl; lia. Qed.
Lemma lstrip_length s : (String.length (PyStr.lstrip s) <= String.length s)%nat.
Proof. induction s as [|c s IH]; [done|]. simpl. destruct (PyStr.is_space c); simpl; lia. Qed.
Lemma drop_word_length word s t : drop_word word s = Some t →
  (String.length t + String.length word = String.length s)%nat.
Proof.
  revert s. induction word as [|w word IH]; intros [|c s]; simpl; [by intros [= <-]|by intros [= <-]|done|].
  destruct (Ascii.eqb _ _); [|done]. intros H. apply IH in H. lia.
Qed.

Lemma match_bearer_length s rest : match_bearer s = Some rest → (String.length rest < String.length s)%nat.
Proof.
  unfold match_bearer. destruct (drop_word "bearer" s) as [[|c s1]|] eqn:Hd; try done.
  destruct (PyStr.is_space c); [|done]. apply drop_word_length in Hd.
  pose proof (lstrip_length s1) as Hl. destruct (PyStr.lstrip s1) as [|d s2]; [done|]. intros Hr.
  pose proof (skip_nonspace_length (String d s2)) as Hn. assert (Heq : skip_nonspace (String d s2) = rest) by congruence.
  rewrite Heq in Hn. cbn [String.length] in *. lia.
Qed.

Lemma no_bearer_redacted prev t : no_bearer false t = true → no_bearer prev (REDACTED +:+ t) = true.
Proof. intros Ht. by destruct prev. Qed.

Lemma sub_clean fuel prev s : (String.length s <= fuel)%nat → no_bearer prev (sub_bearer fuel prev s) = true.
Proof.
  revert prev s. induction fuel as [|fuel IH]; intros prev s Hf; [done|].
  destruct s as [|c s]; [done|]. cbn [String.length] in Hf. cbn [sub_bearer].
  destruct (bearer_here prev (String c s)) as [rest|] eqn:Hb.
  - apply no_bearer_redacted, IH. unfold bearer_here in Hb. destruct prev; [done|].
    apply match_bearer_length in Hb. cbn [String.length] in Hb. lia.
  - cbn [no_bearer]. assert (Hn : bearer_here prev (String c (sub_bearer fuel (is_word c) s)) = None).
    { unfold bearer_here in *. destruct prev; [done|].
      pose proof (match_bearer_sub (S fuel) false (String c s)) as Hm. cbn [sub_bearer] in Hm.
      unfold bearer_here in Hm. rewrite Hb in Hm. apply Hm; [cbn [String.length]; lia|done]. }
    rewrite Hn. apply IH. lia.
Qed.

Lemma sub_unchanged fuel prev s : (String.length s <= fuel)%nat → no_bearer prev s = true →
  sub_bearer fuel prev s = s.
Proof.
  revert prev s. induction fuel as [|fuel IH]; intros prev s Hf; [by destruct s; simpl in Hf; [|lia]|].
  destruct s as [|c s]; [done|]. cbn [String.length no_bearer sub_bearer] in *.
  destruct (bearer_here prev (String c s)); [done|]. intros Hs. by rewrite IH by (done || lia).
Qed.

(** A value with nothing left to redact. *)
Fixpoint redacted (v : pyval) : bool :=
  match v with
  | PStr s => no_bearer false s
  | PDict d | PProxy d =>
      forallb (λ kv, if sensitive_key kv.1
                     then match kv.2 with PStr s => bool_decide (s = REDACTED) | _ => false end
                     else redacted kv.2) d
  | PList l | PTuple l => forallb redacted l
  | _ => true
  end.

Lemma forallb_map_all {A B} (f : B → bool) (g : A → B) l :
  Forall (λ x, f (g x) = true) l → forallb f (map g l) = true.
Proof. induction 1 as [|x l Hx _ IH]; [done|]. simpl. by rewrite Hx. Qed.

Lemma map_unchanged {A} (g : A → A) l : Forall (λ x, g x = x) l → map g l = l.
Proof. induction 1 as [|x l Hx _ IH]; [done|]. simpl. by rewrite Hx, IH. Qed.

Lemma redact_value_clean v : redacted (_redact_value v) = true.
Proof.
  assert (Hd : ∀ d : pydict, Forall (λ kv, redacted (_redact_value kv.2) = true) d →
    redacted (PProxy (redact_details d)) = true).
  { intros d IH. cbn [redacted]. apply forallb_map_all. eapply Forall_impl; [exact IH|]. intros [k x] Hx.
    cbn [fst snd] in *. by destruct (sensitive_key k). }
  induction v as [| | | |s|l IH|l IH|d IH|d IH| |] using pyval_deep_ind; try done.
  - by apply sub_clean.
  - by apply forallb_map_all.
  - by apply forallb_map_all.
  - by apply Hd.
  - by apply Hd.
Qed.

(** Redacted values in immutable containers stay as they are. *)
Lemma redact_value_unchanged v : deeply_frozen v = true → redacted v = true → _redact_value v = v.
Proof.
  induction v as [| | | |s|l IH|l IH|d IH|d IH| |] using pyval_deep_ind; try done; intros Hf Hr.
  - cbn [_redact_value]. unfold redact_text. by rewrite sub_unchanged.
  - cbn [_redact_value]. f_equal. apply map_unchanged. cbn [deeply_frozen redacted] in *.
    rewrite forallb_forall in *. rewrite Forall_forall in *. intros x Hx.
    apply IH; [done|apply Hf|apply Hr]; by apply list_elem_of_In.
  - cbn [_redact_value]. f_equal. apply map_unchanged. cbn [deeply_frozen redacted] in *. bool_props.
    rewrite !forallb_forall in *. rewrite Forall_forall in *. intros [k x] Hx. apply list_elem_of_In in Hx as Hi.
    specialize (IH (k, x) Hx). cbn [fst snd] in *. destruct (sensitive_key k) eqn:Hk.
    + specialize (Hr _ Hi). cbn [fst snd] in Hr. rewrite Hk in Hr. destruct x; try done. by bool_props; subst.
    + specialize (Hf _ Hi). destruct k; [|done]. f_equal. apply IH; [done|]. specialize (Hr _ Hi). cbn [fst snd] in Hr. by rewrite Hk in Hr.
Qed.

(** Redaction is idempotent. *)
Lemma redact_value_idempotent v : _redact_value (_redact_value v) = _redact_value v.
Proof.
  assert (Hd : ∀ d : pydict, Forall (λ kv, _redact_value (_redact_value kv.2) = _redact_value kv.2) d →
    redact_details (redact_details d) = redact_details d).
  { intros d IH. unfold redact_details. rewrite map_map. apply map_ext_Forall. eapply Forall_impl; [exact IH|].
    intros [k x] Hx. cbn [fst snd] in *. destruct (sensitive_key k); [done|]. by rewrite Hx. }
  induction v as [| | | |s|l IH|l IH|d IH|d IH| |] using pyval_deep_ind; try done; cbn [_redact_value].
  - unfold redact_text. rewrite sub_unchanged; [done|done|by apply sub_clean].
  - f_equal. rewrite map_map. by apply map_ext_Forall.
  - f_equal. rewrite map_map. by apply map_ext_Forall.
  - f_equal. by apply Hd.
  - f_equal. by apply Hd.
Qed.

(** C31. Redaction leaves no credential behind: at any depth of the details of
    an audit event, the member of every sensitive key is the placeholder and
    no other text holds a bearer credential; the keys stay, a second redaction
    changes nothing, and neither does the first where there was nothing to
    redact. *)
Theorem redaction_complete d :
  redacted (PProxy (redact_details d)) = true ∧
  map fst (redact_details d) = map fst d ∧
  redact_details (redact_details d) = redact_details d ∧
  (deeply_frozen (PProxy d) = true → redacted (PProxy d) = true → redact_details d = d) ∧
  (∀ e e', AuditEvent_post_init e = inr e' → redacted (PProxy (ae_details e')) = true).
Proof.
  split; [apply (redact_value_clean (PProxy d))|]. split; [unfold redact_details; by rewrite map_map|].
  split; [pose proof (redact_value_idempotent (PProxy d)) as H; by injection H|]. split.
  - intros Hf Hr. pose proof (redact_value_unchanged _ Hf Hr) as H. by injection H.
  - intros e e' He. unfold AuditEvent_post_init in He. py_inv. apply (redact_value_clean (PProxy (ae_details e))).
Qed.

(** The audit store is append-only and tenant-scoped: an append of another
    tenant's event is refused, any other adds the event at the end; a query
    changes nothing and returns the last [limit] events of its tenant, in
    order. *)
Theorem audit_store_exact context event limit events :
  InMemoryAuditStore_append context event events =
    (if bool_decide (ctx_tenant_id context = ae_tenant_id event)
     then (inr tt, events ++ [event])
     else (inl (ValueError "audit event tenant does not match trusted context"), events)) ∧
  (1 <= limit <= 1000 → ∃ earlier mine, InMemoryAuditStore_query context limit events = (inr mine, events) ∧
     List.filter (λ e, bool_decide (ae_tenant_id e = ctx_tenant_id context)) events = earlier ++ mine ∧
     length mine = Nat.min (Z.to_nat limit) (length (earlier ++ mine))).
Proof.
  split; [unfold InMemoryAuditStore_append; by case_bool_decide|]. intros Hl.
  unfold InMemoryAuditStore_query. rewrite (proj2 (Z.leb_le 1 limit)), (proj2 (Z.leb_le limit 1000)) by lia.
  set (mine := List.filter _ events).
  exists (take (length mine - Z.to_nat limit) mine), (drop (length mine - Z.to_nat limit) mine).
  split; [done|]. rewrite take_drop. split; [done|]. rewrite length_drop. lia.
Qed.

Lemma redaction_complete_witness :
  redacted (PProxy (redact_details [(KStr "api_token", PStr "x"); (KStr "note", PStr "Bearer abc")])) = true.
Proof. apply (redaction_complete [(KStr "api_token", PStr "x"); (KStr "note", PStr "Bearer abc")]). Defined.
