(* ===== verification/SecretsBoundary.v ===== *)
(** * Secret references and their providers

    Models [secrets_boundary.py].  A [SecretValue] is its bytes; its [repr]
    and [str] do not depend on them. *)

From stdpp Require Import base gmap list strings.
From Stdlib Require Import ZArith Lia Ascii.
From S2P Require Import Prelude PyLib Json Events Identity RedisStreams.

Local Open Scope Z_scope.

Record SecretReference : Type := mkSecretReference {
  sr_tenant_id : TenantId;
  sr_provider : string;
  sr_name : string;
  sr_version : option string;
}.

#[export] Instance SecretReference_eq_dec : EqDecision SecretReference.
Proof. solve_decision. Defined.

Definition SecretReference_post_init (r : SecretReference) : result SecretReference :=
  raise! ValueError "secret provider and name are required"
    when! PyStr.is_empty (sr_provider r) || PyStr.is_empty (sr_name r) ;;
  raise! ValueError "secret names cannot contain whitespace"
    when! existsb PyStr.is_space (String.list_ascii_of_string (sr_name r)) ;;
  inr r.

Record SecretValue : Type := mkSecretValue { reveal : string }.

Definition SecretValue_init (value : string) : result SecretValue :=
  raise! ValueError "secret value cannot be empty" when! PyStr.is_empty value ;;
  inr (mkSecretValue value).

Definition SecretValue_repr (v : SecretValue) : string := "SecretValue([REDACTED])".
Definition SecretValue_str (v : SecretValue) : string := "[REDACTED]".

Definition _require_tenant (context : TenantContext) (reference : SecretReference) : result unit :=
  reject_if (negb (bool_decide (ctx_tenant_id context = sr_tenant_id reference)))
    (SecretError "secret reference tenant does not match trusted context").

(** [EnvironmentSecretProvider]: its tenant and its snapshot *)
Record EnvironmentSecretProvider : Type := mkEnvironmentSecretProvider {
  es_tenant_id : TenantId;
  es_values : gmap string string;
}.

Definition EnvironmentSecretProvider_resolve (provider : EnvironmentSecretProvider)
    (context : TenantContext) (reference : SecretReference) : result SecretValue :=
  let? _ := _require_tenant context reference in
  raise! SecretError "secret reference targets a different provider"
    when! negb (bool_decide (sr_provider reference = "env"%string)) ;;
  raise! SecretError "environment provider is bound to a different tenant"
    when! negb (bool_decide (ctx_tenant_id context = es_tenant_id provider)) ;;
  raise! SecretError "environment secrets do not support versions"
    when! is_some (sr_version reference) ;;
  raise! SecretError "environment secret names require AEGIS_SECRET_ prefix"
    when! negb (PyStr.starts_with "AEGIS_SECRET_" (sr_name reference)) ;;
  match es_values provider !! sr_name reference with
  | Some value => SecretValue_init (utf8_encode value)
  | None => inl (SecretError "secret reference was not found")
  end.

(** [InMemorySecretProvider]: the items of its dict *)
Definition InMemorySecretProvider_resolve (values : list (SecretReference * string))
    (context : TenantContext) (reference : SecretReference) : result SecretValue :=
  let? _ := _require_tenant context reference in
  raise! SecretError "secret reference targets a different provider"
    when! negb (bool_decide (sr_provider reference = "memory"%string)) ;;
  match find (λ kv, bool_decide (kv.1 = reference)) values with
  | Some (_, value) => SecretValue_init value
  | None => inl (SecretError "secret reference was not found")
  end.

(** A secret is resolved for its own tenant only: whatever either provider
    resolves was asked for in the context of the tenant of the reference, from
    that provider and, for the environment, the provider's own tenant and a
    name with the reserved prefix; and the value is the one stored under that
    very reference. *)
Theorem secrets_stay_with_their_tenant provider values context reference v :
  (EnvironmentSecretProvider_resolve provider context reference = inr v →
     ctx_tenant_id context = sr_tenant_id reference ∧ es_tenant_id provider = ctx_tenant_id context ∧
     sr_provider reference = "env"%string ∧ sr_version reference = None ∧
     PyStr.starts_with "AEGIS_SECRET_" (sr_name reference) = true ∧
     ∃ value, es_values provider !! sr_name reference = Some value ∧ reveal v = utf8_encode value) ∧
  (InMemorySecretProvider_resolve values context reference = inr v →
     ctx_tenant_id context = sr_tenant_id reference ∧ sr_provider reference = "memory"%string ∧
     (reference, reveal v) ∈ values).
Proof.
  split; intros H.
  - unfold EnvironmentSecretProvider_resolve, _require_tenant, SecretValue_init in H. py_inv. bool_props.
    destruct (es_values provider !! sr_name reference) as [value|] eqn:Hv; [|done]. py_inv.
    destruct (sr_version reference); [done|]. split_and!; try done. by exists value.
  - unfold InMemorySecretProvider_resolve, _require_tenant, SecretValue_init in H. py_inv. bool_props.
    destruct (find _ values) as [[r value]|] eqn:Hv; [|done]. py_inv.
    apply find_some in Hv as [Hin Hr]. cbn [fst] in Hr. bool_props. subst r.
    split_and!; try done. by apply list_elem_of_In.
Qed.

Lemma secrets_stay_with_their_tenant_witness :
  ∃ v, EnvironmentSecretProvider_resolve
    (mkEnvironmentSecretProvider (mkTenantId "acme") {["AEGIS_SECRET_KEY"%string := "k"%string]})
    (mkTenantContext (mkTenantId "acme")) (mkSecretReference (mkTenantId "acme") "env" "AEGIS_SECRET_KEY" None) = inr v ∧
    ∃ value, ({["AEGIS_SECRET_KEY"%string := "k"%string]} : gmap string string) !! "AEGIS_SECRET_KEY"%string
      = Some value ∧
      reveal v = utf8_encode value.
Proof.
  eexists. split; [vm_compute; reflexivity|].
  destruct (secrets_stay_with_their_tenant
    (mkEnvironmentSecretProvider (mkTenantId "acme") {["AEGIS_SECRET_KEY"%string := "k"%string]}) []
    (mkTenantContext (mkTenantId "acme")) (mkSecretReference (mkTenantId "acme") "env" "AEGIS_SECRET_KEY" None)
    (mkSecretValue "k")) as [H _].
  destruct (H ltac:(vm_compute; reflexivity)) as (_ & _ & _ & _ & _ & Hv). exact Hv.
Defined.
