(* ===== verification/Config.v ===== *)
(** * Process configuration

    Models [config.py]: settings read from the environment, with Python's
    [float] on text, and their validation. *)

From stdpp Require Import base gmap list strings.
From Stdlib Require Import ZArith Lia Ascii SpecFloat.
From S2P Require Import Prelude PyLib Json Events Identity Amounts Floats Parsing Wire Policy ModelContracts Routing.

Local Open Scope string_scope.
Local Open Scope Z_scope.

(** ** [float] of a text *)

(** Every underscore is between two digits. *)
Fixpoint underscores_ok (after_digit : bool) (s : string) : bool :=
  match s with
  | EmptyString => true
  | String c s' =>
      if Ascii.eqb c "_" then
        after_digit && match s' with String d _ => is_dec_digit d | EmptyString => false end
        && underscores_ok false s'
      else underscores_ok (is_dec_digit c) s'
  end.

Definition float_of_text (s : string) : result spec_float :=
  let bad := ValueError "could not convert string to float" in
  let s := PyStr.strip s in
  raise! bad when! negb (underscores_ok false s) ;;
  let '(negative, s) := signed_text (str_remove "_" s) in
  let body := lower s in
  if bool_decide (body = "inf") || bool_decide (body = "infinity") then inr (S754_infinity negative)
  else if bool_decide (body = "nan") then inr S754_nan
  else match number_text false s with
       | inr (DFin c e) => inr (float_of_decimal negative c e)
       | _ => inl bad
       end.

(** [s.upper()] for the names it is compared with *)
Definition upper_ascii (c : ascii) : ascii :=
  let n := N_of_ascii c in
  if (97 <=? n)%N && (n <=? 122)%N then ascii_of_N (n - 32) else c.

Fixpoint upper (s : string) : string :=
  match s with
  | EmptyString => EmptyString
  | String c s' => String (upper_ascii c) (upper s')
  end.

(** ** Settings *)

Record Settings : Type := mkSettings {
  st_environment : Environment;
  st_service_name : string;
  st_host : string;
  st_port : Z;
  st_log_level : string;
  st_database_url : string;
  st_redis_url : string;
  st_oidc_issuer : string;
  st_oidc_jwks_url : string;
  st_oidc_audience : string;
  st_oidc_clock_skew_seconds : Z;
  st_redis_max_connections : Z;
  st_redis_connect_timeout_seconds : spec_float;
  st_redis_socket_timeout_seconds : spec_float;
  st_worker_max_concurrency : Z;
  st_worker_lease_seconds : Z;
  st_worker_heartbeat_seconds : Z;
}.

Definition log_levels : list string := ["CRITICAL"; "ERROR"; "WARNING"; "INFO"; "DEBUG"].

Definition between (low high z : Z) : bool := (low <=? z) && (z <=? high).

(** The literal [0.1] *)
Definition tenth : spec_float := f64_div (sf_of_Z 1) (sf_of_Z 10).

Definition seconds_between (high : Z) (x : spec_float) : bool :=
  SFleb tenth x && SFleb x (sf_of_Z high).

Definition production_values (s : Settings) : list (string * string) :=
  [("AEGIS_DATABASE_URL", st_database_url s); ("AEGIS_REDIS_URL", st_redis_url s);
   ("AEGIS_OIDC_ISSUER", st_oidc_issuer s); ("AEGIS_OIDC_JWKS_URL", st_oidc_jwks_url s);
   ("AEGIS_OIDC_AUDIENCE", st_oidc_audience s)].

Definition validate (s : Settings) : result unit :=
  raise! ConfigurationError "AEGIS_PORT must be between 1 and 65535"
    when! negb (between 1 65535 (st_port s)) ;;
  raise! ConfigurationError "AEGIS_LOG_LEVEL is not recognized"
    when! negb (bool_decide (st_log_level s ∈ log_levels)) ;;
  raise! ConfigurationError "AEGIS_SERVICE_NAME cannot be empty" when! blank (st_service_name s) ;;
  raise! ConfigurationError "AEGIS_OIDC_CLOCK_SKEW_SECONDS must be between 0 and 300"
    when! negb (between 0 300 (st_oidc_clock_skew_seconds s)) ;;
  raise! ConfigurationError "AEGIS_REDIS_MAX_CONNECTIONS must be between 1 and 1000"
    when! negb (between 1 1000 (st_redis_max_connections s)) ;;
  raise! ConfigurationError "AEGIS_REDIS_CONNECT_TIMEOUT_SECONDS must be between 0.1 and 30"
    when! negb (seconds_between 30 (st_redis_connect_timeout_seconds s)) ;;
  raise! ConfigurationError "AEGIS_REDIS_SOCKET_TIMEOUT_SECONDS must be between 0.1 and 60"
    when! negb (seconds_between 60 (st_redis_socket_timeout_seconds s)) ;;
  raise! ConfigurationError "AEGIS_WORKER_MAX_CONCURRENCY must be between 1 and 1000"
    when! negb (between 1 1000 (st_worker_max_concurrency s)) ;;
  raise! ConfigurationError "AEGIS_WORKER_LEASE_SECONDS must be between 5 and 3600"
    when! negb (between 5 3600 (st_worker_lease_seconds s)) ;;
  raise! ConfigurationError "worker heartbeat must be positive and shorter than its lease"
    when! negb ((1 <=? st_worker_heartbeat_seconds s)
                && (st_worker_heartbeat_seconds s <? st_worker_lease_seconds s)) ;;
  match st_environment s with
  | PRODUCTION =>
      let missing := map fst (List.filter (λ kv, blank kv.2) (production_values s)) in
      raise! ConfigurationError ("production requires: " +:+ join ", " (py_sorted PyStr.str_leb missing))
        when! negb (bool_decide (missing = [])) ;;
      raise! ConfigurationError "production AEGIS_REDIS_URL must use rediss:// TLS"
        when! negb (PyStr.starts_with "rediss://" (st_redis_url s)) ;;
      inr tt
  | _ => inr tt
  end.

Definition Settings_post_init (s : Settings) : result Settings :=
  let? _ := validate s in inr s.

(** [except ValueError] around a conversion; [ConfigurationError] derives from
    [ValueError], but no conversion raises it. *)
Definition converted {A} (r : result A) (msg : string) : result A :=
  match r with
  | inl e => if except_ValueError e then inl (ConfigurationError msg) else inl e
  | inr a => inr a
  end.

Section FromEnv.
Context (environ : gmap string string).

Definition setting (key fallback : string) : string := default fallback (environ !! key).

(** The numbers of the last [try] block *)
Definition worker_numbers : result (Z * spec_float * spec_float * Z * Z * Z) :=
  let? connections := int_of_text (setting "AEGIS_REDIS_MAX_CONNECTIONS" "32") in
  let? connect := float_of_text (setting "AEGIS_REDIS_CONNECT_TIMEOUT_SECONDS" "2") in
  let? socket := float_of_text (setting "AEGIS_REDIS_SOCKET_TIMEOUT_SECONDS" "5") in
  let? concurrency := int_of_text (setting "AEGIS_WORKER_MAX_CONCURRENCY" "16") in
  let? lease := int_of_text (setting "AEGIS_WORKER_LEASE_SECONDS" "30") in
  let? heartbeat := int_of_text (setting "AEGIS_WORKER_HEARTBEAT_SECONDS" "10") in
  inr (connections, connect, socket, concurrency, lease, heartbeat).

Definition from_env : result Settings :=
  let? environment := converted (sc_new (setting "AEGIS_ENVIRONMENT" "development"))
    ("AEGIS_ENVIRONMENT must be one of: " +:+ join ", " (map sc_value (sc_members (T := Environment)))) in
  let? port := converted (int_of_text (setting "AEGIS_PORT" "8080")) "AEGIS_PORT must be an integer" in
  let? clock_skew := converted (int_of_text (setting "AEGIS_OIDC_CLOCK_SKEW_SECONDS" "30"))
    "AEGIS_OIDC_CLOCK_SKEW_SECONDS must be an integer" in
  let? numbers := converted worker_numbers "Redis and worker numeric settings must be numbers" in
  let '(connections, connect, socket, concurrency, lease, heartbeat) := numbers in
  Settings_post_init
    {| st_environment := environment;
       st_service_name := setting "AEGIS_SERVICE_NAME" "aegis-control-plane";
       st_host := setting "AEGIS_HOST" "0.0.0.0";
       st_port := port;
       st_log_level := upper (setting "AEGIS_LOG_LEVEL" "INFO");
       st_database_url := setting "AEGIS_DATABASE_URL" "";
       st_redis_url := setting "AEGIS_REDIS_URL" "";
       st_oidc_issuer := setting "AEGIS_OIDC_ISSUER" "";
       st_oidc_jwks_url := setting "AEGIS_OIDC_JWKS_URL" "";
       st_oidc_audience := setting "AEGIS_OIDC_AUDIENCE" "";
       st_oidc_clock_skew_seconds := clock_skew;
       st_redis_max_connections := connections;
       st_redis_connect_timeout_seconds := connect;
       st_redis_socket_timeout_seconds := socket;
       st_worker_max_concurrency := concurrency;
       st_worker_lease_seconds := lease;
       st_worker_heartbeat_seconds := heartbeat |}.
End FromEnv.

(** The defaults of the fields *)
Definition default_settings : Settings :=
  {| st_environment := DEVELOPMENT; st_service_name := "aegis-control-plane"; st_host := "0.0.0.0";
     st_port := 8080; st_log_level := "INFO"; st_database_url := ""; st_redis_url := "";
     st_oidc_issuer := ""; st_oidc_jwks_url := ""; st_oidc_audience := "";
     st_oidc_clock_skew_seconds := 30; st_redis_max_connections := 32;
     st_redis_connect_timeout_seconds := sf_of_Z 2; st_redis_socket_timeout_seconds := sf_of_Z 5;
     st_worker_max_concurrency := 16; st_worker_lease_seconds := 30; st_worker_heartbeat_seconds := 10 |}.

Example from_env_defaults : from_env ∅ = inr default_settings.
Proof. vm_compute. reflexivity. Qed.

Example float_texts :
  float_of_text " 0.1 " = inr tenth ∧ float_of_text "1e400" = inr (S754_infinity false) ∧
  float_of_text "-2_0.5e-1" = inr (f64_div (sf_of_Z (-41)) (sf_of_Z 20)) ∧
  float_of_text "1__0" = inl (ValueError "could not convert string to float") ∧
  float_of_text "nAn" = inr S754_nan.
Proof. vm_compute. done. Qed.

(** ** What validation guarantees *)

Record settings_valid (s : Settings) : Prop := mkSettingsValid {
  sv_port : 1 ≤ st_port s ≤ 65535;
  sv_log_level : st_log_level s ∈ log_levels;
  sv_service_name : PyStr.strip (st_service_name s) ≠ "";
  sv_clock_skew : 0 ≤ st_oidc_clock_skew_seconds s ≤ 300;
  sv_connections : 1 ≤ st_redis_max_connections s ≤ 1000;
  sv_connect : seconds_between 30 (st_redis_connect_timeout_seconds s) = true;
  sv_socket : seconds_between 60 (st_redis_socket_timeout_seconds s) = true;
  sv_concurrency : 1 ≤ st_worker_max_concurrency s ≤ 1000;
  sv_lease : 5 ≤ st_worker_lease_seconds s ≤ 3600;
  sv_heartbeat : 1 ≤ st_worker_heartbeat_seconds s < st_worker_lease_seconds s;
  sv_production : st_environment s = PRODUCTION →
    (∀ key value, (key, value) ∈ production_values s → PyStr.strip value ≠ "") ∧
    PyStr.starts_with "rediss://" (st_redis_url s) = true;
}.

(** A timeout within bounds is a positive finite number. *)
Lemma seconds_finite high x : high = 30 ∨ high = 60 → seconds_between high x = true →
  ∃ m e, x = S754_finite false m e.
Proof.
  intros Hh. unfold seconds_between. let t := eval vm_compute in tenth in change tenth with t.
  intros [Hlow Hhigh]%andb_prop.
  destruct x as [[]|[]| |[] m e]; try done; [|by exists m, e].
  by destruct Hh as [-> | ->].
Qed.

Lemma missing_none s : map fst (List.filter (λ kv, blank kv.2) (production_values s)) = [] ↔
  ∀ key value, (key, value) ∈ production_values s → PyStr.strip value ≠ "".
Proof.
  split.
  - intros Hm key value Hin Hblank. apply map_eq_nil in Hm.
    assert (H : (key, value) ∈ List.filter (λ kv, blank kv.2) (production_values s)).
    { apply elem_of_filter_bool. split; [done|]. unfold blank. cbn [snd]. by rewrite Hblank. }
    rewrite Hm in H. by apply not_elem_of_nil in H.
  - intros Hall. destruct (List.filter _ _) as [|[key value] rest] eqn:Hf; [done|exfalso].
    assert (H : (key, value) ∈ List.filter (λ kv, blank kv.2) (production_values s)) by (rewrite Hf; left).
    apply elem_of_filter_bool in H as [Hin Hb]. unfold blank in Hb. apply PyStr.is_empty_true in Hb. by eapply Hall.
Qed.

Lemma between_iff low high z : between low high z = true ↔ low ≤ z ≤ high.
Proof. unfold between. rewrite andb_true_iff. lia. Qed.

Lemma blank_iff s : blank s = false ↔ PyStr.strip s ≠ "".
Proof. unfold blank. apply PyStr.is_empty_false. Qed.

(** One check after another. *)
Lemma guard_step {A} b e (k : unit → result A) v P Q :
  (b = false ↔ P) → (k tt = inr v ↔ Q) → (rbind (reject_if b e) k = inr v ↔ P ∧ Q).
Proof. destruct b; simpl; naive_solver. Qed.

Definition configuration_error (e : exn) : Prop := ∃ m, e = ConfigurationError m.

Lemma guard_error {A} b msg (k : unit → result A) :
  (∀ e, k tt = inl e → configuration_error e) →
  ∀ e, rbind (reject_if b (ConfigurationError msg)) k = inl e → configuration_error e.
Proof. intros Hk e. destruct b; [intros [= <-]; by eexists|apply Hk]. Qed.

Lemma check_between low high z : negb (between low high z) = false ↔ low ≤ z ≤ high.
Proof. rewrite negb_false_iff. apply between_iff. Qed.

Lemma check_heartbeat a b c : negb ((a <=? b) && (b <? c)) = false ↔ a ≤ b < c.
Proof. rewrite negb_false_iff, andb_true_iff. lia. Qed.

Lemma check_decided (P : Prop) `{base.Decision P} : negb (bool_decide P) = false ↔ P.
Proof. rewrite negb_false_iff. apply bool_decide_eq_true. Qed.

Lemma production_iff (environment : Environment) (r : result unit) Q : (r = inr tt ↔ Q) →
  (match environment with PRODUCTION => r | _ => inr tt end = inr tt ↔ (environment = PRODUCTION → Q)).
Proof. destruct environment; naive_solver. Qed.

Lemma validate_iff s : validate s = inr tt ↔ settings_valid s.
Proof.
  etransitivity.
  - unfold validate. cbv zeta.
    apply guard_step; [apply check_between|]. apply guard_step; [apply check_decided|].
    apply guard_step; [apply blank_iff|]. do 2 (apply guard_step; [apply check_between|]).
    do 2 (apply guard_step; [apply negb_false_iff|]). do 2 (apply guard_step; [apply check_between|]).
    apply guard_step; [apply check_heartbeat|]. apply production_iff.
    apply guard_step; [etransitivity; [apply check_decided|apply missing_none]|].
    apply guard_step; [apply negb_false_iff|]. reflexivity.
  - split.
    + intros (? & ? & ? & ? & ? & ? & ? & ? & ? & ? & Hprod). by split; try assumption; intros [? [? _]]%Hprod.
    + intros [? ? ? ? ? ? ? ? ? ? Hprod]. do 10 (split; [assumption|]). intros [? ?]%Hprod. by split_and!.
Qed.

Lemma validate_errors s e : validate s = inl e → configuration_error e.
Proof.
  revert e. unfold validate. cbv zeta. do 10 apply guard_error.
  destruct (st_environment s); [done..|]. do 2 apply guard_error. done.
Qed.

Lemma converted_errors {A} (r : result A) msg e : (∀ x, r = inl x → except_ValueError x = true) →
  converted r msg = inl e → configuration_error e.
Proof.
  intros Hr. destruct r as [x|a]; cbn [converted]; [|done]. rewrite (Hr x) by done. intros [= <-]. by eexists.
Qed.

Lemma int_text_errors s e : int_of_text s = inl e → except_ValueError e = true.
Proof. unfold int_of_text. repeat (case_match; try done; try by intros [= <-]). Qed.

Lemma float_text_errors s e : float_of_text s = inl e → except_ValueError e = true.
Proof.
  unfold float_of_text, reject_if. destruct (negb _); [by intros [= <-]|]. cbn [rbind].
  destruct (signed_text _) as [n t]. do 2 (case_match; [done|]).
  destruct (number_text false t) as [|[]]; by intros [= <-].
Qed.

Lemma worker_numbers_errors environ e : worker_numbers environ = inl e → except_ValueError e = true.
Proof.
  unfold worker_numbers. intros Hr.
  apply rbind_err in Hr as [Hr|(? & _ & Hr)]; [by eapply int_text_errors|].
  do 2 (apply rbind_err in Hr as [Hr|(? & _ & Hr)]; [by eapply float_text_errors|]).
  do 3 (apply rbind_err in Hr as [Hr|(? & _ & Hr)]; [by eapply int_text_errors|]). done.
Qed.

(** Settings that exist are valid, and nothing else can go wrong: whatever
    the environment holds, reading it yields settings that satisfy every
    bound, with finite timeouts and in production every URL and TLS to Redis,
    or raises [ConfigurationError]; validation accepts exactly the valid
    settings, and an empty environment yields the defaults. *)
Theorem settings_validated environ :
  match from_env environ with
  | inr s => settings_valid s ∧
      (∃ m e, st_redis_connect_timeout_seconds s = S754_finite false m e) ∧
      (∃ m e, st_redis_socket_timeout_seconds s = S754_finite false m e)
  | inl e => configuration_error e
  end ∧
  (∀ s, validate s = inr tt ↔ settings_valid s) ∧
  from_env ∅ = inr default_settings.
Proof.
  split; [|split; [apply validate_iff|exact from_env_defaults]].
  destruct (from_env environ) as [e|s] eqn:Hf; unfold from_env in Hf.
  - apply rbind_err in Hf as [Hf|(env & _ & Hf)].
    { eapply converted_errors; [|exact Hf]. intros x. unfold sc_new. case_match; [done|by intros [= <-]]. }
    apply rbind_err in Hf as [Hf|(port & _ & Hf)]; [eapply converted_errors; [|exact Hf]; apply int_text_errors|].
    apply rbind_err in Hf as [Hf|(skew & _ & Hf)]; [eapply converted_errors; [|exact Hf]; apply int_text_errors|].
    apply rbind_err in Hf as [Hf|([[[[[n c] t] w] l] h] & _ & Hf)];
      [eapply converted_errors; [|exact Hf]; apply worker_numbers_errors|].
    unfold Settings_post_init in Hf. apply rbind_err in Hf as [Hf|(? & _ & Hf)]; [by eapply validate_errors|done].
  - apply rbind_ok in Hf as (env & _ & Hf). apply rbind_ok in Hf as (port & _ & Hf).
    apply rbind_ok in Hf as (skew & _ & Hf). apply rbind_ok in Hf as ([[[[[n c] t] w] l] h] & _ & Hf).
    unfold Settings_post_init in Hf. apply rbind_ok in Hf as ([] & Hv & Hf).
    apply validate_iff in Hv. injection Hf as Hf. rewrite Hf in Hv. split; [done|].
    split; eapply seconds_finite; [by left|apply Hv|by right|apply Hv].
Qed.

(** Production without TLS to Redis is refused. *)
Example production_needs_tls :
  from_env (list_to_map [("AEGIS_ENVIRONMENT", "production"); ("AEGIS_DATABASE_URL", "postgresql://db");
    ("AEGIS_REDIS_URL", "redis://cache"); ("AEGIS_OIDC_ISSUER", "https://id"); ("AEGIS_OIDC_JWKS_URL", "https://id/jwks");
    ("AEGIS_OIDC_AUDIENCE", "aegis")]) =
  inl (ConfigurationError "production AEGIS_REDIS_URL must use rediss:// TLS").
Proof. vm_compute. reflexivity. Qed.
