(* ===== verification/GatewayOperations.v ===== *)
(** * Gateway views

    Models [gateway/operations.py]: the authorized views of the model catalog,
    of a tenant's usage and of the providers' health. *)

From stdpp Require Import base gmap sets list strings.
From Stdlib Require Import ZArith Lia SpecFloat.
From S2P Require Import Prelude PyLib Json Events Identity Amounts Policy ModelContracts Floats Routing Resilience.
From S2P Require Import Ledger Raises.

Local Open Scope Z_scope.

(** The controls of the gateway and the usage projection, in one state. *)
Class GatewayReaders (S : Type) : Type := {
  gr_controls : ∀ A, Ctl A → M exn S A;
  gr_usage_summary : TenantContext → M exn S pydict;
}.
Arguments gr_controls {S _} {A}.

Record GatewayOperations : Type := mkGatewayOperations {
  go_catalog : ModelCatalog;
  go_environment : Environment;
}.

Definition circuit_state_value (c : CircuitState) : string :=
  match c with CLOSED => "closed" | OPEN => "open" | HALF_OPEN => "half_open" end.

Definition sorted_strings (s : gset string) : list pyval :=
  map PStr (py_sorted PyStr.str_leb (elements s)).

(** One record of the catalog view *)
Definition catalog_record (entry : ModelCatalogEntry) : pyval :=
  let c := ce_capabilities entry in
  PDict (dict_of
    [("provider", PStr (mi_provider (ce_identity entry)));
     ("model", PStr (mi_model (ce_identity entry)));
     ("pricing_version", PStr (pv_version (ce_pricing entry)));
     ("max_context_tokens", PInt (max_context_tokens c));
     ("max_output_tokens", PInt (max_output_tokens c));
     ("supports_tools", PBool (supports_tools c));
     ("supports_vision", PBool (supports_vision c));
     ("supports_structured_output", PBool (supports_structured_output c));
     ("data_residencies", PTuple (sorted_strings (ce_data_residencies entry)));
     ("provider_retains_data", PBool (ce_provider_retains_data entry))]%string).

(** The entries without a policy failure. *)
Definition permitted_entries (ops : GatewayOperations) (policy : TenantPolicy) : list ModelCatalogEntry :=
  List.filter (λ entry, bool_decide (policy_failures entry policy (go_environment ops) = []))
    (catalog_entries (go_catalog ops)).

Section Views.
Context {S : Type} {Readers : GatewayReaders S} (ops : GatewayOperations).

Definition _require (principal : Principal) (context : TenantContext) (at_ : Dt.datetime) : M exn S unit :=
  let! decision := lift (decide_authorization principal (ctx_tenant_id context) (inl MODEL_READ) at_) in
  raise_if (negb (ad_allowed decision)) (PermissionError (ad_reason decision)).

Definition catalog (principal : Principal) (context : TenantContext) (policy : TenantPolicy)
    (at_ : Dt.datetime) : M exn S (list pyval) :=
  do! _require principal context at_ ;;
  do! raise_if (negb (bool_decide (tid_value (tp_tenant_id policy) = ctx_str context)))
        (PermissionError "cross_tenant_policy") ;;
  ret (map catalog_record (permitted_entries ops policy)).

Definition usage (principal : Principal) (context : TenantContext) (at_ : Dt.datetime) : M exn S pydict :=
  do! _require principal context at_ ;;
  gr_usage_summary context.

(** [str(entry[key])] of a record *)
Definition record_str (key : string) (record : pyval) : result string :=
  match record with
  | PDict d => match dict_get key d with
               | Some (PStr s) => inr s
               | Some _ => inl (TypeError key)
               | None => inl (KeyError key)
               end
  | _ => inl (TypeError "record")
  end.

(** The generator expression of [health]: one clock reading per open circuit. *)
Fixpoint health_records (allowed : list pyval) : M exn S (list pyval) :=
  match allowed with
  | [] => ret []
  | entry :: rest =>
      let! provider := lift (record_str "provider" entry) in
      let! model := lift (record_str "model" entry) in
      let! identity := lift (ModelIdentity_post_init (mkModelIdentity provider model)) in
      let! state := gr_controls (controls_state identity) in
      let! records := health_records rest in
      ret (PDict (dict_of [("provider", PStr provider); ("model", PStr model);
                           ("circuit_state", PStr (circuit_state_value state))]%string) :: records)
  end.

Definition health (principal : Principal) (context : TenantContext) (policy : TenantPolicy)
    (at_ : Dt.datetime) : M exn S (list pyval) :=
  do! _require principal context at_ ;;
  let! allowed := catalog principal context policy at_ in
  health_records allowed.

(** ** What the views show *)

Context (principal : Principal) (context : TenantContext).
Context (Hok : Forall binding_ok (pr_role_bindings principal)).

Lemma require_entitled at_ (s : S) r s' :
  _require principal context at_ s = (r, s') →
  s' = s ∧ (r = inr tt → entitled principal context MODEL_READ at_).
Proof using Hok. exact (decision_guard (λ d, PermissionError (ad_reason d)) _ _ _ Hok _ _ _ _). Qed.

Lemma require_passes us (s : S) :
  entitled principal context MODEL_READ (Dt.Aware us) →
  _require principal context (Dt.Aware us) s = (inr tt, s).
Proof using Hok. exact (decision_guard_passes (λ d, PermissionError (ad_reason d)) _ _ _ Hok _ _). Qed.

(** The policy is the tenant's own. *)
Definition own_policy (policy : TenantPolicy) : Prop := tid_value (tp_tenant_id policy) = ctx_str context.

Lemma catalog_run policy at_ (s : S) l s' :
  catalog principal context policy at_ s = (inr l, s') →
  s' = s ∧ entitled principal context MODEL_READ at_ ∧ own_policy policy ∧
  l = map catalog_record (permitted_entries ops policy).
Proof using Hok.
  unfold catalog. intros Hrun. unfold bind in Hrun.
  destruct (_require principal context at_ s) as [[e|[]] s1] eqn:Hreq; [done|].
  apply require_entitled in Hreq as [-> Hent]. unfold raise_if in Hrun.
  case_bool_decide; [|done]. injection Hrun as <- <-. auto.
Qed.

Definition view_model (record : pyval) : result (string * string) :=
  let? provider := record_str "provider" record in
  let? model := record_str "model" record in inr (provider, model).

Lemma health_records_models allowed (s : S) l s' :
  health_records allowed s = (inr l, s') → map view_model l = map view_model allowed.
Proof.
  revert s l s'. induction allowed as [|entry allowed IH]; intros s l s'; [by intros [= <- _]|].
  cbn [health_records]. unfold bind, lift.
  destruct (record_str "provider" entry) as [|p] eqn:Hp; [done|].
  destruct (record_str "model" entry) as [|m] eqn:Hm; [done|].
  destruct (ModelIdentity_post_init _); [done|]. destruct (gr_controls _ _) as [[|st] s1]; [done|].
  destruct (health_records allowed s1) as [[|rs] s2] eqn:Hr; [done|]. intros [= <- <-].
  cbn [map]. rewrite (IH _ _ _ Hr). f_equal. unfold view_model at 2. by rewrite Hp, Hm.
Qed.

Lemma permitted_iff policy entry :
  entry ∈ permitted_entries ops policy ↔
  entry ∈ go_catalog ops ∧ policy_failures entry policy (go_environment ops) = [].
Proof.
  unfold permitted_entries, catalog_entries. rewrite elem_of_filter_bool, py_sorted_elem.
  by rewrite bool_decide_eq_true.
Qed.

(** The gateway's views are authorized and exact: a principal sees the
    catalog of a tenant exactly when a binding of that tenant grants
    [model.read] at the instant and the policy is the tenant's own, and what it
    sees is one record for each catalog entry without a policy failure; health
    lists the same models; usage returns or changes something only for an
    entitled principal. *)
Theorem gateway_views_exact policy us (s : S) :
  let at_ := Dt.Aware us in
  (∀ l s', catalog principal context policy at_ s = (inr l, s') ↔
     s' = s ∧ entitled principal context MODEL_READ at_ ∧ own_policy policy ∧
     l = map catalog_record (permitted_entries ops policy)) ∧
  (∀ entry, entry ∈ permitted_entries ops policy ↔
     entry ∈ go_catalog ops ∧ policy_failures entry policy (go_environment ops) = []) ∧
  (∀ l s', health principal context policy at_ s = (inr l, s') →
     entitled principal context MODEL_READ at_ ∧ own_policy policy ∧
     map view_model l =
       map (λ e, inr (mi_provider (ce_identity e), mi_model (ce_identity e))) (permitted_entries ops policy)) ∧
  (∀ r s', usage principal context at_ s = (r, s') →
     entitled principal context MODEL_READ at_ ∨ (∃ e, r = inl e) ∧ s' = s).
Proof using Hok.
  cbv zeta. split_and!.
  - intros l s'. split; [apply catalog_run|]. intros (-> & Hent & Hown & ->).
    unfold catalog, bind. rewrite require_passes by done. unfold raise_if. by rewrite bool_decide_true.
  - apply permitted_iff.
  - intros l s'. unfold health, bind.
    destruct (_require principal context (Dt.Aware us) s) as [[e|[]] s1] eqn:Hreq; [done|].
    destruct (catalog principal context policy (Dt.Aware us) s1) as [[e|allowed] s2] eqn:Hc; [done|].
    apply catalog_run in Hc as (-> & Hent & Hown & ->). intros Hrun.
    apply health_records_models in Hrun. split_and!; [done..|]. rewrite Hrun, map_map. by apply map_ext.
  - intros r s'. unfold usage, bind.
    destruct (_require principal context (Dt.Aware us) s) as [[e|[]] s1] eqn:Hreq;
      apply require_entitled in Hreq as [-> Hent]; [|by left; apply Hent].
    intros [= <- <-]. right. by split; [eexists|].
Qed.
End Views.

(** ** Sample *)

#[local] Instance sample_readers : GatewayReaders ProviderControls :=
  {| gr_controls := λ A m, m; gr_usage_summary := λ _, ret (dict_of []) |}.

Definition sample_views : GatewayOperations := mkGatewayOperations sample_catalog PRODUCTION.

Definition sample_reader : Principal := sample_principal "acme" TENANT_ADMIN.
Definition sample_context : TenantContext := mkTenantContext (mkTenantId "acme").

Lemma sample_reader_ok : Forall binding_ok (pr_role_bindings sample_reader).
Proof. by repeat constructor. Qed.

Lemma gateway_views_exact_witness :
  Forall binding_ok (pr_role_bindings sample_reader) ∧
  ∃ l, catalog sample_views sample_reader sample_context routed_policy (Dt.Aware 50)
         (mkControls ∅ ∅ ∅ ∅ (λ _, S754_zero false) 0) =
       (inr l, mkControls ∅ ∅ ∅ ∅ (λ _, S754_zero false) 0) ∧ length l = 2%nat.
Proof.
  split; [exact sample_reader_ok|].
  destruct (gateway_views_exact sample_views sample_reader sample_context sample_reader_ok routed_policy 50
    (mkControls ∅ ∅ ∅ ∅ (λ _, S754_zero false) 0)) as [H _].
  eexists. split; [apply H; split_and!; [done| |done|done]|vm_compute; reflexivity].
  split; [done|]. exists (sample_binding "acme" TENANT_ADMIN).
  split; [left|]. split; [done|]. split; [|apply (bool_decide_unpack _); vm_compute; done].
  split; [simpl; lia|]. split; intros e [= <-]. simpl. lia.
Defined.
