(* ===== verification/HttpText.v ===== *)
(** * The text of requests and responses

    Models the functions of [control_plane/api.py] that read a request and
    write a response: headers, the cursor of the query string by way of
    [urllib.parse.parse_qs], [json.dumps] of a body, fixed-point decimals. *)

From stdpp Require Import base gmap list strings pretty.
From Stdlib Require Import ZArith Lia Ascii.
From S2P Require Import Prelude PyLib Json Events Amounts Parsing ParsingTheorems Wire PyEquality JsonText.

Local Open Scope string_scope.
Local Open Scope Z_scope.

(** ** Query strings *)

(** A decoded text, whose characters may be any code points. *)
Abbreviation text := (list Z).

Definition code_points (s : string) : text :=
  map (λ c, Z.of_N (N_of_ascii c)) (String.list_ascii_of_string s).

(** [s.split(sep, 1)] *)
Fixpoint split_once (sep : ascii) (s : string) : string * option string :=
  match s with
  | EmptyString => (EmptyString, None)
  | String c s' =>
      if Ascii.eqb c sep then (EmptyString, Some s')
      else let '(a, b) := split_once sep s' in (String c a, b)
  end.

(** [s.replace("+", " ")] *)
Fixpoint plus_to_space (s : string) : string :=
  match s with
  | EmptyString => EmptyString
  | String c s' => String (if Ascii.eqb c "+" then " " else c)%char (plus_to_space s')
  end.

(** [unquote_to_bytes]: a percent sign and two hexadecimal digits are a byte,
    any other percent sign stands for itself. *)
Fixpoint unquote_to_bytes (s : string) : string :=
  match s with
  | EmptyString => EmptyString
  | String c s' =>
      if Ascii.eqb c "%" then
        match s' with
        | String a (String b rest) =>
            match hex_value a, hex_value b with
            | Some x, Some y => String (ascii_of_N (16 * x + y)) (unquote_to_bytes rest)
            | _, _ => String c (unquote_to_bytes s')
            end
        | _ => String c (unquote_to_bytes s')
        end
      else String c (unquote_to_bytes s')
  end.

Definition REPLACEMENT : Z := 65533.

(** The rest of a sequence: [n] continuation bytes, the first of them between
    [lo] and [hi]. *)
Fixpoint utf8_tail (n : nat) (lo hi acc : Z) (s : string) : Z * string :=
  match n with
  | O => (acc, s)
  | S n =>
      match s with
      | EmptyString => (REPLACEMENT, EmptyString)
      | String c s' =>
          let b := Z.of_N (N_of_ascii c) in
          if (lo <=? b) && (b <=? hi) then utf8_tail n 128 191 (acc * 64 + (b - 128)) s' else (REPLACEMENT, s)
      end
  end.

Definition utf8_char (b : Z) (s : string) : Z * string :=
  if b <? 128 then (b, s)
  else if b <? 194 then (REPLACEMENT, s)
  else if b <? 224 then utf8_tail 1 128 191 (b - 192) s
  else if b =? 224 then utf8_tail 2 160 191 0 s
  else if b =? 237 then utf8_tail 2 128 159 13 s
  else if b <? 240 then utf8_tail 2 128 191 (b - 224) s
  else if b =? 240 then utf8_tail 3 144 191 0 s
  else if b <? 244 then utf8_tail 3 128 191 (b - 240) s
  else if b =? 244 then utf8_tail 3 128 143 4 s
  else (REPLACEMENT, s).

(** [bytes.decode("utf-8", "replace")]; every round consumes a byte. *)
Fixpoint utf8_replace (fuel : nat) (s : string) : text :=
  match fuel, s with
  | S fuel, String c s' =>
      let '(point, rest) := utf8_char (Z.of_N (N_of_ascii c)) s' in point :: utf8_replace fuel rest
  | _, _ => []
  end.

Definition unquote (s : string) : text :=
  let b := unquote_to_bytes (plus_to_space s) in utf8_replace (String.length b) b.

(** [parse_qs(qs, keep_blank_values=True)], as its pairs *)
Definition parse_qsl (qs : string) : list (text * text) :=
  omap (λ field : string,
    if PyStr.is_empty field then None
    else let '(name, value) := split_once "=" field in Some (unquote name, unquote (default "" value)))
    (split_on "&" qs).

(** The zeros of the decimal digits of Unicode 15. *)
Definition digit_zeros : list Z :=
  [48; 1632; 1776; 1984; 2406; 2534; 2662; 2790; 2918; 3046; 3174; 3302; 3430; 3558; 3664; 3792; 3872;
   4160; 4240; 6112; 6160; 6470; 6608; 6784; 6800; 6992; 7088; 7232; 7248; 42528; 43216; 43264; 43472;
   43504; 43600; 44016; 65296; 66720; 68912; 69734; 69872; 69942; 70096; 70384; 70736; 70864; 71248;
   71360; 71472; 71904; 72016; 72784; 73040; 73120; 73552; 92768; 92864; 93008; 120782; 120792; 120802;
   120812; 120822; 123200; 123632; 124144; 125264; 130032].

Definition unicode_decimal (point : Z) : option Z :=
  match find (λ zero, (zero <=? point) && (point <? zero + 10)) digit_zeros with
  | Some zero => Some (point - zero)
  | None => None
  end.

Fixpoint digits_number (value : text) (acc : Z) : option Z :=
  match value with
  | [] => Some acc
  | point :: value => match unicode_decimal point with
                      | Some d => digits_number value (10 * acc + d)
                      | None => None
                      end
  end.

(** [isdigit] and [int]: a digit that is no decimal digit passes the first,
    and the second refuses it with the same exception. *)
Definition int_of_digits (value : text) : result Z :=
  let bad := ValueError "cursor must be one non-negative integer" in
  raise! bad when! bool_decide (value = []) ;;
  match digits_number value 0 with
  | None => inl bad
  | Some n =>
      raise! ValueError "Exceeds the limit for integer string conversion"
        when! int_max_str_digits <? Z.of_nat (length value) ;;
      inr n
  end.

Definition MAX_CURSOR : Z := 9223372036854775807.

Definition _cursor_parameter (scope : pydict) : result Z :=
  match default (PBytes "") (dict_get "query_string" scope) with
  | PBytes raw_query =>
      raise! ValueError "query string must be ASCII" when! negb (all_chars is_ascii raw_query) ;;
      let values := map snd (List.filter (λ p, bool_decide (p.1 = code_points "cursor"))
                               (parse_qsl raw_query)) in
      match values with
      | [] => inr 0
      | [value] =>
          let? cursor := int_of_digits value in
          raise! ValueError "cursor exceeds maximum database cursor value" when! MAX_CURSOR <? cursor ;;
          inr cursor
      | _ => inl (ValueError "cursor must be one non-negative integer")
      end
  | _ => inl (ValueError "query string must be bytes")
  end.

(** ** Headers *)

(** [bytes.decode("latin-1")] is the text of the same characters. *)
Definition _matching_header (item : pyval) (name : string) : option string :=
  match item with
  | PTuple [PBytes key; PBytes value] => if bool_decide (lower key = name) then Some value else None
  | _ => None
  end.

Definition _single_header (scope : pydict) (name : string) : option string :=
  match default (PList []) (dict_get "headers" scope) with
  | PList items =>
      match omap (λ item, _matching_header item name) items with
      | [value] => Some value
      | _ => None
      end
  | _ => None
  end.

(** ** Decimals *)

(** [format(value, "f")] *)
Definition _decimal_string (value : decimal) : string :=
  match value with
  | DNaN => "NaN"
  | DInf negative => if negative then "-Infinity" else "Infinity"
  | DFin c e =>
      let int := pretty (Z.abs c) in
      (if sign_of c then "-" else "") +:+
      (if (0 <? e)%Z && (c =? 0)%Z then "0" else placed (e + PyStr.len int) int)
  end.

(** ** Bodies *)

(** [json.dumps(body, separators=(",", ":")).encode()] *)
Definition json_encode `{PyRepr} (body : pyval) : result string :=
  let? _ := json_check body in inr (dumps false body).

(** ** Cursors *)

Lemma digits_limit k n : 0 ≤ n < 10 ^ Z.of_nat k → (0 < k)%nat → PyStr.len (pretty n) ≤ Z.of_nat k.
Proof.
  intros Hn Hk. assert (Heq : pretty n = pretty (Z.to_N n)) by (by destruct n; try done; lia).
  rewrite Heq. unfold pretty, pretty_N, PyStr.len. case_decide; [simpl; lia|].
  assert (Hgo : ∀ k x s, (x < 10 ^ N.of_nat k)%N →
    (String.length (pretty_N_go x s) <= k + String.length s)%nat).
  { clear. induction k as [|k IH]; intros x s Hx.
    - assert (x = 0%N) as -> by (simpl in Hx; lia). by rewrite pretty_N_go_0.
    - destruct (decide (x = 0%N)) as [->|Hx0]; [rewrite pretty_N_go_0; lia|].
      rewrite pretty_N_go_step by lia. etransitivity; [apply IH|cbn [String.length]; lia].
      apply N.Div0.div_lt_upper_bound. by rewrite Nat2N.inj_succ, N.pow_succ_r' in Hx. }
  specialize (Hgo k (Z.to_N n) ""). cbn [String.length] in Hgo.
  enough (Z.to_N n < 10 ^ N.of_nat k)%N by (specialize (Hgo H0); lia).
  apply N2Z.inj_lt. rewrite Z2N.id, N2Z.inj_pow, nat_N_Z by lia. simpl. lia.
Qed.

Lemma digit_cases c : is_dec_digit c = true →
  In c ["0"; "1"; "2"; "3"; "4"; "5"; "6"; "7"; "8"; "9"]%char.
Proof. intros Hc. destruct c as [[] [] [] [] [] [] [] []]; vm_compute in Hc; first [discriminate Hc|simpl; tauto]. Qed.

(** What separates and escapes is no digit. *)
Record plain (c : ascii) : Prop := mkPlain {
  pl_separator : Ascii.eqb c "&" = false;
  pl_equals : Ascii.eqb c "=" = false;
  pl_plus : Ascii.eqb c "+" = false;
  pl_percent : Ascii.eqb c "%" = false;
  pl_ascii : is_ascii c = true;
}.

Lemma digit_plain c : is_dec_digit c = true → plain c ∧ unicode_decimal (Z.of_N (N_of_ascii c)) = dec_value c.
Proof.
  intros Hc. apply digit_cases in Hc. cbn [In] in Hc.
  repeat destruct Hc as [<-|Hc]; [by split; [constructor|]..|done].
Qed.

Lemma split_plain sep s : all_chars (λ c, negb (Ascii.eqb c sep)) s = true → split_on sep s = [s].
Proof.
  induction s as [|c s IH]; [done|]. cbn [all_chars split_on]. intros [Hc Hs]%andb_prop.
  apply negb_true_iff in Hc. by rewrite Hc, IH.
Qed.

Lemma unquote_plain s :
  all_chars (λ c, negb (Ascii.eqb c "+") && negb (Ascii.eqb c "%") && is_ascii c) s = true →
  unquote s = code_points s.
Proof.
  unfold unquote. intros Hs.
  assert (Hp : unquote_to_bytes (plus_to_space s) = s).
  { induction s as [|c s IH]; [done|]. cbn [all_chars] in Hs. bool_props. cbn [plus_to_space unquote_to_bytes].
    by rewrite H, H2, IH. }
  rewrite Hp. clear Hp. induction s as [|c s IH]; [done|]. cbn [all_chars] in Hs. bool_props.
  match goal with H : is_ascii c = true |- _ => apply N.ltb_lt in H end.
  cbn [String.length utf8_replace]. unfold utf8_char.
  rewrite (proj2 (Z.ltb_lt _ _)) by lia. by rewrite IH.
Qed.

Lemma digits_number_points s acc : all_chars is_dec_digit s = true →
  digits_number (code_points s) acc = Some (digits_value s acc).
Proof.
  revert acc. induction s as [|c s IH]; intros acc; [done|]. cbn [all_chars]. intros [Hc Hs]%andb_prop.
  change (code_points (String c s)) with (Z.of_N (N_of_ascii c) :: code_points s). cbn [digits_number digits_value].
  rewrite (proj2 (digit_plain c Hc)). unfold is_dec_digit in Hc.
  destruct (dec_value c) as [d|]; [|done]. by apply IH.
Qed.

Lemma digits_number_nonneg value acc n : digits_number value acc = Some n → 0 ≤ acc → 0 ≤ n.
Proof.
  revert acc. induction value as [|point value IH]; intros acc; cbn [digits_number]; [by intros [= <-]|].
  unfold unicode_decimal. destruct (find _ _) as [zero|] eqn:Hf; [|done]. intros Hn Hacc.
  apply find_some in Hf as [_ Hz]. apply (IH _ Hn). lia.
Qed.

Lemma int_of_digits_nonneg value n : int_of_digits value = inr n → 0 ≤ n.
Proof.
  unfold int_of_digits, reject_if. case_match; [done|]. cbn [rbind].
  destruct (digits_number value 0) as [m|] eqn:Hm; [|done]. case_match; [done|]. intros [= <-].
  by eapply digits_number_nonneg.
Qed.

Lemma int_of_points n : 0 ≤ n ≤ MAX_CURSOR → int_of_digits (code_points (pretty n)) = inr n.
Proof.
  intros Hn. destruct (pretty_digits n ltac:(lia)) as (Hd & Hv & Hl). unfold int_of_digits.
  rewrite digits_number_points, Hv by done.
  assert (Hlen : Z.of_nat (length (code_points (pretty n))) = PyStr.len (pretty n)).
  { unfold code_points, PyStr.len. rewrite length_map. generalize (pretty n). clear.
    intros s. f_equal. induction s as [|c s IH]; [done|]. simpl. by f_equal. }
  rewrite Hlen. rewrite bool_decide_false by (intros Hnil; rewrite Hnil in Hlen; simpl in Hlen; lia).
  cbn [reject_if rbind]. rewrite (proj2 (Z.ltb_ge _ _)); [done|].
  pose proof (digits_limit 19 n) as Hlim. unfold MAX_CURSOR, int_max_str_digits in *. simpl in Hlim. lia.
Qed.

Lemma cursor_query n : 0 ≤ n →
  parse_qsl ("cursor=" +:+ pretty n) = [(code_points "cursor", code_points (pretty n))] ∧
  all_chars is_ascii ("cursor=" +:+ pretty n) = true.
Proof.
  intros Hn. destruct (pretty_digits n Hn) as (Hd & _ & _).
  assert (Hplain : ∀ f : ascii → bool, (∀ c, plain c → f c = true) → all_chars f (pretty n) = true).
  { intros f Hf. apply (all_chars_impl is_dec_digit); [|done]. intros c Hc. apply Hf, digit_plain, Hc. }
  split.
  - unfold parse_qsl. rewrite split_plain.
    2:{ rewrite all_chars_app, Hplain; [done|]. by intros c [-> _ _ _ _]. }
    change ("cursor=" +:+ pretty n) with ("cursor" +:+ String "=" (pretty n)). cbn [omap list_omap].
    change (split_once "=" ("cursor" +:+ String "=" (pretty n))) with ("cursor", Some (pretty n)).
    cbn iota beta. change (PyStr.is_empty _) with false. cbn iota. change (default "" (Some ?a)) with a.
    rewrite (unquote_plain (pretty n)); [done|].
    apply Hplain. by intros c [_ _ -> -> ->].
  - rewrite all_chars_app, Hplain; [done|]. by intros c [_ _ _ _ ->].
Qed.

Lemma cursor_errors scope e : _cursor_parameter scope = inl e → ∃ m, e = ValueError m.
Proof.
  unfold _cursor_parameter, int_of_digits, reject_if.
  destruct (default _ _); try (by intros [= <-]; eexists).
  repeat (case_match; cbn [rbind]; try done; try by intros [= <-]; eexists).
Qed.

(** The cursor of a request is sound and total: it is read as an integer
    between 0 and the largest [bigint], or refused with [ValueError], whatever
    the query string holds; and the cursor of a page, written into the query
    string, is read back as that cursor. *)
Theorem cursor_parameter_exact scope :
  (∀ n, _cursor_parameter scope = inr n → 0 ≤ n ≤ MAX_CURSOR) ∧
  (∀ e, _cursor_parameter scope = inl e → ∃ m, e = ValueError m) ∧
  (∀ n, 0 ≤ n ≤ MAX_CURSOR → dict_get "query_string" scope = Some (PBytes ("cursor=" +:+ pretty n)) →
     _cursor_parameter scope = inr n) ∧
  (dict_get "query_string" scope = None → _cursor_parameter scope = inr 0).
Proof.
  split_and!.
  - intros n. unfold _cursor_parameter, reject_if. destruct (default _ _); try done.
    destruct (negb _); [done|]. cbn [rbind]. case_match; [by intros [= <-]|]. case_match; [|done].
    destruct (int_of_digits _) as [e|cursor] eqn:Hc; [done|]. cbn [rbind]. apply int_of_digits_nonneg in Hc.
    destruct (Z.ltb_spec MAX_CURSOR cursor); [done|]. cbn [rbind]. intros [= <-]. lia.
  - apply cursor_errors.
  - intros n Hn Hq. unfold _cursor_parameter. rewrite Hq. cbn [default id].
    destruct (cursor_query n ltac:(lia)) as [Hparse Hascii]. rewrite Hparse, Hascii. cbn [negb reject_if rbind List.filter map fst].
    rewrite bool_decide_true by done. cbn [map snd]. rewrite int_of_points by done. cbn [rbind].
    by rewrite (proj2 (Z.ltb_ge _ _)) by lia.
  - intros Hq. unfold _cursor_parameter. by rewrite Hq.
Qed.

(** ** Amounts *)

Lemma zeros_value n acc : 0 ≤ n → digits_value (zeros n) acc = acc * 10 ^ n.
Proof.
  intros Hn. rewrite <- (Z2Nat.id n) at 2 by done. unfold zeros. generalize (Z.to_nat n). clear. intros k.
  assert (Hs : ∀ k, String.concat "" (replicate (S k) "0") = String "0" (String.concat "" (replicate k "0")))
    by (by intros []).
  revert acc. induction k as [|k IH]; intros acc; [simpl; lia|]. rewrite Hs. cbn [digits_value].
  change (default 0 (dec_value "0")) with 0. rewrite IH, Nat2Z.inj_succ, Z.pow_succ_r by lia. lia.
Qed.

(** The amounts of a policy view are exact: the fixed-point text of every
    decimal reads back as the same number, with the same exponent unless that
    was positive. *)
Theorem decimal_string_exact value :
  dec_of_str (_decimal_string value) =
  inr (match value with
       | DFin c e => if 0 <? e then DFin (c * 10 ^ e) 0 else value
       | _ => value
       end).
Proof.
  destruct value as [c e|[]|]; [|done..].
  destruct (pretty_digits (Z.abs c) ltac:(lia)) as (Hd & Hv & Hl). unfold _decimal_string. cbv zeta.
  destruct (Z.ltb_spec 0 e) as [He|He]; cbn [andb].
  - destruct (Z.eqb_spec c 0) as [->|Hc]; [done|].
    assert (Hplaced : placed (e + PyStr.len (pretty (Z.abs c))) (pretty (Z.abs c)) = pretty (Z.abs c) +:+ zeros e).
    { unfold placed. rewrite (proj2 (Z.leb_gt _ _)), (proj2 (Z.leb_le _ _)) by lia. do 2 f_equal. lia. }
    destruct (zeros_digits e 0) as (Hz & Hzl & _). rewrite <- (str_app_nil (placed _ _)).
    rewrite signed_number by (by apply placed_starts). rewrite Hplaced, str_app_assoc, str_app_nil.
    rewrite <- (str_app_nil (_ +:+ zeros e)). change ("" : string) with (exponent_part 0).
    rewrite number_plain; [|by rewrite all_chars_app, Hd|].
    2:{ unfold PyStr.len in *. rewrite str_length_app. lia. }
    rewrite digits_value_app, Hv, zeros_value by lia. do 2 f_equal. unfold sign_of.
    destruct (Z.ltb_spec c 0); lia.
  - rewrite <- (str_app_nil (placed _ _)). rewrite signed_number by (by apply placed_starts).
    change ("" : string) with (exponent_part 0). rewrite placed_value by (done || lia). rewrite Hv.
    do 2 f_equal; [|lia]. unfold sign_of. destruct (Z.ltb_spec c 0); lia.
Qed.

(** ** Bodies *)

Lemma arrange_inserted v : json_value v = true → arrange false v = thaw_json v.
Proof.
  assert (Hd : ∀ d : pydict, Forall (λ kv, json_value kv.2 = true → arrange false kv.2 = thaw_json kv.2) d →
    json_value (PDict d) = true → arrange false (PDict d) = thaw_json (PDict d)).
  { intros d IH Hj. cbn [arrange thaw_json key_order]. f_equal. rewrite map_map.
    induction IH as [|[[k|n] x] d Hx _ IHd]; [done| |done]. cbn [json_value forallb] in Hj. bool_props.
    cbn [map fst snd key_text] in *. rewrite Hx by done. f_equal. by apply IHd. }
  assert (Hl : ∀ l, Forall (λ v, json_value v = true → arrange false v = thaw_json v) l →
    forallb json_value l = true → map (arrange false) l = map thaw_json l).
  { induction 1 as [|x l Hx _ IH]; [done|]. cbn [forallb map]. intros. bool_props. by rewrite Hx, IH. }
  induction v as [| | | | |l IH|l IH|d IH|d IH| |] using pyval_deep_ind; intros Hj; try done.
  - cbn [arrange thaw_json]. f_equal. by apply Hl.
  - cbn [arrange thaw_json]. f_equal. by apply Hl.
  - by apply Hd.
  - by apply (Hd d).
Qed.

(** Without floats, what passes is JSON and textual. *)
Fixpoint float_free (v : pyval) : bool :=
  match v with
  | PFloat _ => false
  | PList l | PTuple l => forallb float_free l
  | PDict d | PProxy d => forallb (λ kv, float_free kv.2) d
  | _ => true
  end.

Lemma json_check_sound v : json_check v = inr tt → float_free v = true →
  json_value v = true ∧ textual v = true.
Proof.
  assert (Hl : ∀ l, Forall (λ v, json_check v = inr tt → float_free v = true → json_value v = true ∧ textual v = true) l →
    json_check (PList l) = inr tt → forallb float_free l = true →
    forallb json_value l = true ∧ forallb textual l = true).
  { induction 1 as [|x l Hx _ IH]; [done|]. cbn [json_check forallb]. intros Hc Hf. bool_props.
    apply rbind_ok in Hc as ([] & Hc & Hrest). destruct (Hx Hc) as [-> ->]; [done|]. by apply IH. }
  assert (Hd : ∀ d : pydict,
    Forall (λ kv, json_check kv.2 = inr tt → float_free kv.2 = true → json_value kv.2 = true ∧ textual kv.2 = true) d →
    json_check (PDict d) = inr tt → forallb (λ kv, float_free kv.2) d = true →
    json_value (PDict d) = true ∧ textual (PDict d) = true).
  { induction 1 as [|[[k|n] x] d Hx _ IH]; [done| |done]. cbn [json_check json_value textual forallb fst snd] in *.
    intros Hc Hf. bool_props. apply rbind_ok in Hc as ([] & Hc & Hrest). destruct (Hx Hc) as [-> ->]; [done|].
    by apply IH. }
  induction v as [| |z| | |l IH|l IH|d IH|d IH| |] using pyval_deep_ind; intros Hc Hf; try done.
  - cbn [json_check textual] in *. unfold reject_if in Hc. destruct (Z.ltb_spec int_max_str_digits (PyStr.len (pretty (Z.abs z)))); [done|].
    split; [done|]. by apply Z.leb_le.
  - by apply Hl.
  - by apply (Hl l).
  - by apply Hd.
Qed.

(** What a response carries is the body: whatever [json.dumps] accepts is
    read back, by any reader that allows its nesting, as the same value with
    its members in the same order. *)
Theorem response_reads_back `{Repr : PyRepr} {Limit : RecursionLimit} body encoded :
  json_encode body = inr encoded → float_free body = true → tidy body = true →
  nests body recursion_limit = true → json_loads encoded = inr (thaw_json body).
Proof.
  unfold json_encode. intros He Hf Ht Hn. apply rbind_ok in He as ([] & Hc & [= <-]).
  destruct (json_check_sound body Hc Hf) as [Hj Hx]. rewrite loads_dumps by done. by rewrite arrange_inserted.
Qed.

Lemma cursor_parameter_exact_witness :
  _cursor_parameter [(KStr "query_string", PBytes "cursor=41")] = inr 41.
Proof.
  apply (proj1 (proj2 (proj2 (cursor_parameter_exact [(KStr "query_string", PBytes "cursor=41")])))).
  - unfold MAX_CURSOR. lia.
  - reflexivity.
Defined.

#[local] Instance no_floats : PyRepr := λ _, "0.0".
#[local] Instance some_depth : RecursionLimit := 100%nat.

Lemma response_reads_back_witness : ∃ encoded,
  json_encode (PDict [(KStr "b", PTuple [PInt 1]); (KStr "a", PNone)]) = inr encoded ∧
  json_loads encoded = inr (PDict [(KStr "b", PList [PInt 1]); (KStr "a", PNone)]).
Proof.
  eexists. split; [reflexivity|].
  apply (response_reads_back (PDict [(KStr "b", PTuple [PInt 1]); (KStr "a", PNone)])); reflexivity.
Defined.
