(* ===== verification/ControlPlane.v ===== *)
(** * The control plane

    Models [control_plane/api.py]: the ASGI application that authenticates a
    request, authorizes and audits it, reads one tenant's data and answers
    with JSON.  A call runs in the state of the injected components together
    with the trace of what it did: the audit events it stored, the sources it
    read, the messages it sent. *)

From stdpp Require Import base gmap sets list strings pretty.
From Stdlib Require Import ZArith Lia Ascii.
From S2P Require Import Prelude PyLib Json Events Identity Amounts Policy ModelContracts Routing Resilience EventStore.
From S2P Require Import Parsing Wire AuditTrail Config GatewayOperations HttpText.

Local Open Scope string_scope.
Local Open Scope Z_scope.

(** ** Messages and the trace *)

(** What the application sends: the two messages of a response. *)
Inductive AsgiMessage : Type :=
| ResponseStart (status : Z) (headers : list (string * string))
| ResponseBody (body : string).

(** The tenant data a handler can read *)
Inductive source : Type :=
| TENANT_RECORD | TENANT_POLICY | GATEWAY_VIEW (view : string) | LEDGER_PAGE (after_position : Z)
| RUN_TIMELINE (run_id : string) (after_version : Z) | RUN_STATUS.

Inductive effect : Type :=
| Audited (context : TenantContext) (event : AuditEvent)
| Read (what : source) (context : TenantContext)
| Sent (message : AsgiMessage).

(** ** The application *)

Record EventReader (S : Type) : Type := mkEventReader {
  er_read_all : TenantContext → Z → Z → M exn S EventPage;
  er_read_stream : TenantContext → string → Z → Z → M exn S (list EventEnvelope);
}.
Arguments er_read_all {S}.
Arguments er_read_stream {S}.

Record ControlPlaneApp (S : Type) : Type := mkControlPlaneApp {
  cp_authentication : option (option string → M exn S Principal);
  cp_tenants : TenantContext → M exn S (option Tenant);
  cp_policies : TenantContext → M exn S (option TenantPolicy);
  cp_audit : TenantContext → AuditEvent → M exn S unit;
  cp_event_store : option (EventReader S);
  cp_projections : option (TenantContext → Z → M exn S (list pyval));
  cp_storage_ready : option (M exn S bool);
  cp_gateway_operations : option GatewayOperations;
}.
Arguments cp_authentication {S}.
Arguments cp_tenants {S}.
Arguments cp_policies {S}.
Arguments cp_audit {S}.
Arguments cp_event_store {S}.
Arguments cp_projections {S}.
Arguments cp_storage_ready {S}.
Arguments cp_gateway_operations {S}.

(** The clock, [uuid4], the environment of the process and the server's
    [send]. *)
Class HttpEnvironment (S : Type) : Type := {
  he_now : S → Z * S;
  he_uuid4 : S → uuid * S;
  he_environ : S → gmap string string;
  he_send : AsgiMessage → M exn S unit;
}.

Record Serving (S : Type) : Type := mkServing { sv_env : S; sv_trace : list effect }.
Arguments mkServing {S}.
Arguments sv_env {S}.
Arguments sv_trace {S}.

(** ** Bodies *)

Definition error_body (code : string) : pyval :=
  PDict (dict_of [("error", PDict (dict_of [("code", PStr code)]))]).

Definition not_found : pyval := PDict (dict_of [("status", PStr "not-found")]).

(** The values of the roles active at [at_], of any tenant *)
Fixpoint active_role_values (bindings : list RoleBinding) (at_ : Dt.datetime) : result (list string) :=
  match bindings with
  | [] => inr []
  | b :: bindings =>
      let? active := is_active b at_ in
      let? rest := active_role_values bindings at_ in
      inr (if active then sc_value (rb_role b) :: rest else rest)
  end.

Definition kind_value (k : PrincipalKind) : string :=
  match k with PK_USER => "user" | PK_SERVICE => "service" end.

Definition _principal_body (principal : Principal) (at_ : Dt.datetime) : result pyval :=
  let? active := active_role_values (pr_role_bindings principal) at_ in
  let? actor := principal_actor_id principal in
  inr (PDict (dict_of
    [("actor_id", PStr actor); ("kind", PStr (kind_value (pr_kind principal)));
     ("tenant_id", PStr (tid_value (pr_tenant_id principal)));
     ("roles", PList (map PStr (py_sorted PyStr.str_leb (remove_dups active))))])).

(** [policy.max_risk.name.lower()] *)
Definition risk_name (r : RiskLevel) : string :=
  match r with LOW => "low" | MEDIUM => "medium" | HIGH => "high" | CRITICAL => "critical" end.

Definition _policy_body (policy : TenantPolicy) : pyval :=
  let q := quotas policy in
  PDict (dict_of
    [("tenant_id", PStr (tid_value (tp_tenant_id policy)));
     ("version", PStr (tp_version policy));
     ("allow", PDict (dict_of
        [("models", PList (sorted_strings (allowed_models policy)));
         ("providers", PList (sorted_strings (allowed_providers policy)));
         ("tools", PList (sorted_strings (allowed_tools policy)));
         ("connectors", PList (sorted_strings (allowed_connectors policy)));
         ("environments", PList (sorted_strings (allowed_environments policy)));
         ("data_residencies", PList (sorted_strings (allowed_data_residencies policy)))]));
     ("data", PDict (dict_of [("allow_provider_retention", PBool (allow_provider_retention policy))]));
     ("risk", PDict (dict_of [("maximum", PStr (risk_name (max_risk policy)));
                              ("approval_from", PStr (risk_name (approval_from_risk policy)))]));
     ("quotas", PDict (dict_of
        [("max_run_tokens", PInt (max_run_tokens q));
         ("max_run_cost_usd", PStr (_decimal_string (max_run_cost_usd q)));
         ("max_tenant_tokens_per_period", PInt (max_tenant_tokens_per_period q));
         ("max_tenant_cost_usd_per_period", PStr (_decimal_string (max_tenant_cost_usd_per_period q)));
         ("max_concurrent_runs", PInt (max_concurrent_runs q))]))]).

Definition optional_int (z : option Z) : pyval := match z with Some z => PInt z | None => PNone end.

Definition _event_body (event : EventEnvelope) : pyval :=
  PDict (dict_of
    [("event_id", PStr (Uuid.to_str (event_id event)));
     ("aggregate_id", PStr (aggregate_id event));
     ("aggregate_sequence", PInt (aggregate_sequence event));
     ("global_position", optional_int (global_position event));
     ("event_type", PStr (event_type event));
     ("schema_version", PInt (schema_version event));
     ("occurred_at", PStr (isoformat (occurred_at event)));
     ("recorded_at", match recorded_at event with Some t => PStr (isoformat t) | None => PNone end);
     ("correlation_id", optional_uuid_text (correlation_id event));
     ("payload", thaw_json (PProxy (redact_details (payload event))));
     ("metadata", thaw_json (PProxy (redact_details (metadata event))))]).

(** [error.code.value] *)
Definition code_value (c : AuthenticationErrorCode) : string :=
  match c with
  | MISSING_TOKEN => "missing_token" | MALFORMED_TOKEN => "malformed_token"
  | EXPIRED_TOKEN => "expired_token" | WRONG_ISSUER => "wrong_issuer"
  | WRONG_AUDIENCE => "wrong_audience" | INVALID_SIGNATURE => "invalid_signature"
  | UNSUPPORTED_ALGORITHM => "unsupported_algorithm"
  | SIGNING_KEY_UNAVAILABLE => "signing_key_unavailable" | INVALID_CLAIMS => "invalid_claims"
  | UNKNOWN_IDENTITY => "unknown_identity" | TENANT_MISMATCH => "tenant_mismatch"
  | IDENTITY_DISABLED => "identity_disabled"
  end.

(** [path in {...}] hashes the path first. *)
Fixpoint hashable (v : pyval) : bool :=
  match v with
  | PList _ | PDict _ | PProxy _ => false
  | PTuple l => forallb hashable l
  | _ => true
  end.

(** ** Serving *)

Section Serve.
Context {S : Type} {Repr : PyRepr} {Readers : GatewayReaders S} {Http : HttpEnvironment S}.
Context (app : ControlPlaneApp S).

Abbreviation Serve := (M exn (Serving S)).

Definition on_env {A} (m : M exn S A) : Serve A := λ s,
  let '(r, env) := m (sv_env s) in (r, mkServing env (sv_trace s)).

Definition note (e : effect) : Serve unit := modify (λ s, mkServing (sv_env s) (sv_trace s ++ [e])).

Definition performed {A} (e : effect) (m : M exn S A) : Serve A := do! note e ;; on_env m.

(** The outcome of a [try] block, for its handlers *)
Definition outcome {A} (m : Serve A) : Serve (result A) := λ s, let '(r, s') := m s in (inr r, s').

(** [datetime.now(UTC)] *)
Definition now_utc : Serve Dt.datetime :=
  on_env (λ s, let '(t, s') := he_now s in (inr (Dt.Aware t), s')).

Definition uuid4 : Serve uuid := on_env (λ s, let '(u, s') := he_uuid4 s in (inr u, s')).

Definition send (message : AsgiMessage) : Serve unit := performed (Sent message) (he_send message).

Definition response_headers (encoded : string) (extra_headers : list (string * string)) : list (string * string) :=
  [("content-type", "application/json"); ("content-length", pretty (PyStr.len encoded));
   ("cache-control", "no-store")] ++ extra_headers.

Definition _respond (status : Z) (body : pyval) (extra_headers : list (string * string)) : Serve unit :=
  let! encoded := lift (json_encode body) in
  do! send (ResponseStart status (response_headers encoded extra_headers)) ;;
  send (ResponseBody encoded).

Definition _audit_event (tenant_id : TenantId) (event_type : AuditEventType) (outcome_ : AuditOutcome)
    (actor_id action resource : string) (correlation_id : uuid) (details : pydict) : Serve unit :=
  let! event_id := uuid4 in
  let! occurred_at := now_utc in
  let! event := lift (AuditEvent_post_init
    (mkAuditEvent event_id tenant_id event_type occurred_at outcome_ actor_id action resource
       correlation_id details 1)) in
  performed (Audited (mkTenantContext tenant_id) event) (cp_audit app (mkTenantContext tenant_id) event).

(** ** Authentication *)

Definition challenge : list (string * string) := [("www-authenticate", "Bearer realm=" +:+ json_string "aegis")].

Definition _authenticate (scope : pydict) (correlation_id : uuid) : Serve (option Principal) :=
  match cp_authentication app with
  | None => do! _respond 503 (error_body "authentication_not_configured") [] ;; ret None
  | Some authenticate =>
      let! authenticated := outcome (on_env (authenticate (_single_header scope "authorization"))) in
      match authenticated with
      | inl (AuthenticationError code) =>
          do! _audit_event PLATFORM_TENANT_ID AUTHENTICATION_OUTCOME AUDIT_FAILURE "unauthenticated"
                "authenticate" "control-plane" correlation_id
                (dict_of [("error_code", PStr (code_value code))]) ;;
          do! _respond 401
                (PDict (dict_of [("error", PDict (dict_of [("code", PStr (code_value code));
                                                           ("message", PStr "authentication failed")]))]))
                challenge ;;
          ret None
      | inl (TransientStorageError _) => do! _respond 503 (error_body "storage_unavailable") [] ;; ret None
      | inl e => raise e
      | inr principal =>
          let! actor := lift (principal_actor_id principal) in
          do! _audit_event (pr_tenant_id principal) AUTHENTICATION_OUTCOME AUDIT_SUCCESS actor "authenticate"
                "control-plane" correlation_id
                (dict_of [("subject", PStr (pr_subject principal)); ("issuer", PStr (pr_issuer principal))]) ;;
          ret (Some principal)
      end
  end.

(** ** Authorization *)

Definition decision_details (decision : AuthorizationDecision) : pydict :=
  dict_of [("attempted_tenant_id", PStr (tid_value (ad_tenant_id decision)));
           ("reason", PStr (ad_reason decision));
           ("roles", PList (map (λ r, PStr (sc_value r)) (ad_active_roles decision)))].

Definition _audit_authorization (principal : Principal) (resource : string) (decision : AuthorizationDecision)
    (correlation_id : uuid) : Serve unit :=
  let! actor := lift (principal_actor_id principal) in
  _audit_event (pr_tenant_id principal) AUTHORIZATION_DECISION
    (if ad_allowed decision then AUDIT_SUCCESS else AUDIT_DENIED) actor (ad_permission decision) resource
    correlation_id (decision_details decision).

Definition _authorize (principal : Principal) (tenant_id : TenantId) (permission : Permission)
    (correlation_id : uuid) (resource : string) : Serve bool :=
  let! at_ := now_utc in
  let! decision := lift (decide_authorization principal tenant_id (inl permission) at_) in
  do! _audit_authorization principal resource decision correlation_id ;;
  if ad_allowed decision then ret true
  else
    do! _respond 403
          (PDict (dict_of [("error", PDict (dict_of [("code", PStr "authorization_denied");
                                                     ("reason", PStr (ad_reason decision))]))])) [] ;;
    ret false.

(** ** Handlers *)

Definition reading {A} (what : source) (context : TenantContext) (m : M exn S A) : Serve A :=
  performed (Read what context) m.

(** A read in a [try] block that maps [TransientStorageError] to a response,
    and what follows the block. *)
Definition stored {A} (m : Serve A) (k : A → Serve unit) : Serve unit :=
  let! r := outcome m in
  match r with
  | inr a => k a
  | inl (TransientStorageError _) => _respond 503 (error_body "storage_unavailable") []
  | inl e => raise e
  end.

(** The body of a handler behind its authorization *)
Definition authorized (principal : Principal) (tenant_id : TenantId) (permission : Permission)
    (correlation_id : uuid) (resource : string) (k : TenantContext → Serve unit) : Serve unit :=
  let! allowed := _authorize principal tenant_id permission correlation_id resource in
  if allowed then k (mkTenantContext tenant_id) else ret tt.

Definition tenant_body (tenant : Tenant) : pyval :=
  PDict (dict_of [("tenant_id", PStr (tid_value (tn_tenant_id tenant)));
                  ("display_name", PStr (tn_display_name tenant)); ("enabled", PBool (tn_enabled tenant))]).

Definition _get_tenant (principal : Principal) (tenant_id : TenantId) (correlation_id : uuid) : Serve unit :=
  authorized principal tenant_id TENANT_READ correlation_id ("tenant/" +:+ tid_value tenant_id) (λ context,
    stored (reading TENANT_RECORD context (cp_tenants app context)) (λ found,
      match found with
      | None => _respond 404 (error_body "tenant_not_found") []
      | Some tenant => _respond 200 (tenant_body tenant) []
      end)).

Definition _get_policy (principal : Principal) (tenant_id : TenantId) (correlation_id : uuid) : Serve unit :=
  authorized principal tenant_id POLICY_READ correlation_id
    ("tenant/" +:+ tid_value tenant_id +:+ "/policy") (λ context,
    stored (reading TENANT_POLICY context (cp_policies app context)) (λ found,
      match found with
      | None => _respond 404 (error_body "policy_not_found") []
      | Some policy => _respond 200 (_policy_body policy) []
      end)).

(** The body of the [try] block of [_get_model_view] *)
Definition model_view (operations : GatewayOperations) (view : string) (principal : Principal)
    (context : TenantContext) (policy : TenantPolicy) (at_ : Dt.datetime) : M exn S pyval :=
  if bool_decide (view = "models") then
    let! models := catalog operations principal context policy at_ in
    ret (PDict (dict_of [("models", PTuple models)]))
  else if bool_decide (view = "model-usage") then
    let! summary := usage principal context at_ in ret (PDict summary)
  else
    let! providers := health operations principal context policy at_ in
    ret (PDict (dict_of [("providers", PTuple providers)])).

Definition _get_model_view (principal : Principal) (tenant_id : TenantId) (correlation_id : uuid)
    (view : string) : Serve unit :=
  authorized principal tenant_id MODEL_READ correlation_id
    ("tenant/" +:+ tid_value tenant_id +:+ "/" +:+ view) (λ context,
    match cp_gateway_operations app with
    | None => _respond 503 (error_body "gateway_not_configured") []
    | Some operations =>
        let! found := reading TENANT_POLICY context (cp_policies app context) in
        match found with
        | None => _respond 404 (error_body "policy_not_found") []
        | Some policy =>
            let! at_ := now_utc in
            let! r := outcome (reading (GATEWAY_VIEW view) context
                                 (model_view operations view principal context policy at_)) in
            match r with
            | inr body => _respond 200 body []
            | inl (PermissionError _) => _respond 403 (error_body "permission_denied") []
            | inl e => raise e
            end
        end
    end).

Definition _get_ledger (principal : Principal) (tenant_id : TenantId) (correlation_id : uuid)
    (after_position : Z) : Serve unit :=
  authorized principal tenant_id RESOURCE_READ correlation_id
    ("tenant/" +:+ tid_value tenant_id +:+ "/ledger") (λ context,
    match cp_event_store app with
    | None => _respond 503 (error_body "storage_not_configured") []
    | Some events =>
        stored (reading (LEDGER_PAGE after_position) context (er_read_all events context after_position 100)) (λ page,
          _respond 200 (PDict (dict_of [("events", PList (map _event_body (pg_events page)));
                                        ("next_cursor", optional_int (pg_next_cursor page))])) [])
    end).

Definition timeline_cursor (events : list EventEnvelope) : option Z :=
  if (Z.of_nat (length events) =? 100)%Z then aggregate_sequence <$> last events else None.

Definition _get_timeline (principal : Principal) (tenant_id : TenantId) (run_id : string)
    (correlation_id : uuid) (after_version : Z) : Serve unit :=
  if PyStr.is_empty run_id then _respond 400 (error_body "invalid_run_id") [] else
  authorized principal tenant_id RESOURCE_READ correlation_id
    ("tenant/" +:+ tid_value tenant_id +:+ "/runs/" +:+ run_id +:+ "/timeline") (λ context,
    match cp_event_store app with
    | None => _respond 503 (error_body "storage_not_configured") []
    | Some events =>
        stored (reading (RUN_TIMELINE run_id after_version) context
                  (er_read_stream events context run_id after_version 100)) (λ found,
          _respond 200 (PDict (dict_of [("run_id", PStr run_id); ("events", PList (map _event_body found));
                                        ("next_cursor", optional_int (timeline_cursor found))])) [])
    end).

Definition _get_run_status (principal : Principal) (tenant_id : TenantId) (correlation_id : uuid) : Serve unit :=
  authorized principal tenant_id RESOURCE_READ correlation_id
    ("tenant/" +:+ tid_value tenant_id +:+ "/projections/run-status") (λ context,
    match cp_projections app with
    | None => _respond 503 (error_body "storage_not_configured") []
    | Some run_status =>
        stored (reading RUN_STATUS context (run_status context 100)) (λ rows,
          _respond 200 (PDict (dict_of [("runs", PList rows)])) [])
    end).

(** ** Routing *)

Definition not_ready (reason : string) : pyval :=
  PDict (dict_of [("status", PStr "not-ready"); ("reason", PStr reason)]).

Definition storage_is_ready : Serve bool :=
  match cp_storage_ready app with None => ret true | Some ready => on_env ready end.

Definition _readiness : Serve unit :=
  let! environ := gets (λ s, he_environ (sv_env s)) in
  match from_env environ with
  | inl (ConfigurationError msg) => _respond 503 (not_ready msg) []
  | inl e => raise e
  | inr _ =>
      let! ready := storage_is_ready in
      if negb ready then _respond 503 (not_ready "storage_unavailable") []
      else
        let checks := match cp_storage_ready app with
                      | Some _ => [PStr "configuration"; PStr "storage"]
                      | None => [PStr "configuration"]
                      end in
        _respond 200 (PDict (dict_of [("status", PStr "ready"); ("checks", PList checks)])) []
  end.

(** A route with a cursor *)
Definition with_cursor (scope : pydict) (k : Z → Serve unit) : Serve unit :=
  match _cursor_parameter scope with
  | inr cursor => k cursor
  | inl e => if except_ValueError e then _respond 400 (error_body "invalid_cursor") [] else raise e
  end.

Definition model_views : list string := ["models"; "model-usage"; "provider-health"].

(** The routes below [/v1/tenants/{tenant_id}] *)
Definition tenant_route (scope : pydict) (principal : Principal) (tenant_id : TenantId)
    (correlation_id : uuid) (segments : list string) : Serve unit :=
  match segments with
  | [] => _get_tenant principal tenant_id correlation_id
  | [view] =>
      if bool_decide (view = "policy") then _get_policy principal tenant_id correlation_id
      else if bool_decide (view ∈ model_views) then _get_model_view principal tenant_id correlation_id view
      else if bool_decide (view = "ledger") then
        with_cursor scope (λ after_position, _get_ledger principal tenant_id correlation_id after_position)
      else _respond 404 not_found []
  | [a; b] =>
      if bool_decide (a = "projections") && bool_decide (b = "run-status")
      then _get_run_status principal tenant_id correlation_id
      else _respond 404 not_found []
  | [a; run_id; c] =>
      if bool_decide (a = "runs") && bool_decide (c = "timeline") then
        with_cursor scope (λ after_version,
          _get_timeline principal tenant_id run_id correlation_id after_version)
      else _respond 404 not_found []
  | _ => _respond 404 not_found []
  end.

(** The routes below [/v1/] *)
Definition api_route (scope : pydict) (path : string) : Serve unit :=
  let! correlation_id := uuid4 in
  let! authenticated := _authenticate scope correlation_id in
  match authenticated with
  | None => ret tt
  | Some principal =>
      if bool_decide (path = "/v1/me") then
        let! at_ := now_utc in
        let! body := lift (_principal_body principal at_) in
        _respond 200 body []
      else
        match List.filter (λ segment, negb (PyStr.is_empty segment)) (split_on "/"%char path) with
        | version :: collection :: name :: rest =>
            if negb (bool_decide (version = "v1") && bool_decide (collection = "tenants"))
            then _respond 404 not_found []
            else
              match TenantId_new name with
              | inl e => if except_ValueError e then _respond 400 (error_body "invalid_tenant_id") [] else raise e
              | inr tenant_id => tenant_route scope principal tenant_id correlation_id rest
              end
        | _ => _respond 404 not_found []
        end
  end.

Definition http_route (scope : pydict) : Serve unit :=
  let path := default PNone (dict_get "path" scope) in
  if negb (equals_str (Some (default (PStr "GET") (dict_get "method" scope))) "GET")
  then _respond 405 (error_body "method_not_allowed") [] else
  do! raise_if (negb (hashable path)) (TypeError "unhashable type") ;;
  match path with
  | PStr path =>
      if bool_decide (path ∈ ["/healthz"; "/health/live"]) then
        _respond 200 (PDict (dict_of [("status", PStr "ok"); ("service", PStr "control-plane")])) []
      else if bool_decide (path ∈ ["/readyz"; "/health/ready"]) then _readiness
      else if negb (PyStr.starts_with "/v1/" path) then _respond 404 not_found []
      else api_route scope path
  | _ => _respond 404 not_found []
  end.

(** [__call__] *)
Definition serve (scope : pydict) : Serve unit :=
  if negb (equals_str (dict_get "type" scope) "http") then ret tt else http_route scope.
End Serve.
