(* ===== verification/ControlPlaneResponses.v ===== *)
(** * Responses and outages of the control plane

    Rules for what a computation adds to the trace, the messages and the reads
    of a trace, what answering and auditing add, and a sample application; then
    every request is answered exactly once, and an outage of the storage is
    answered rather than raised, but for the views of the model gateway. *)

From stdpp Require Import base gmap sets list strings.
From Stdlib Require Import ZArith Lia SpecFloat.
From S2P Require Import Prelude PyLib Json Events Identity Amounts Policy ModelContracts Routing Resilience EventStore.
From S2P Require Import Raises Wire AuditTrail Config GatewayOperations HttpText ControlPlane JsonText.

Local Open Scope Z_scope.

Section Trace.
Context {S : Type} {Repr : PyRepr} {Readers : GatewayReaders S} {Http : HttpEnvironment S}.
Context (app : ControlPlaneApp S).

Abbreviation Serve := (M exn (Serving S)).

(** ** What a computation adds to the trace *)

Definition meets {A : Type} (m : Serve A) (P : result A → list effect → Prop) : Prop :=
  ∀ s r s', m s = (r, s') → ∃ t, sv_trace s' = sv_trace s ++ t ∧ P r t.

Lemma meets_bind {A B : Type} (m : Serve A) (k : A → Serve B) P Q (R : result B → list effect → Prop) :
  meets m P → (∀ a, meets (k a) (Q a)) →
  (∀ e t, P (inl e) t → R (inl e) t) →
  (∀ a r t t', P (inr a) t → Q a r t' → R r (t ++ t')) → meets (bind m k) R.
Proof.
  intros Hm Hk Herr Hok s r s'. unfold bind. destruct (m s) as [[e|a] s1] eqn:H1; apply Hm in H1 as (t & Ht & HP).
  - intros [= <- <-]. exists t. split; [done|]. by apply Herr.
  - intros H2. apply Hk in H2 as (t' & Ht' & HQ). exists (t ++ t'). split; [by rewrite Ht', Ht, app_assoc|].
    by eapply Hok.
Qed.

Lemma meets_weaken {A : Type} (m : Serve A) P Q : meets m P → (∀ r t, P r t → Q r t) → meets m Q.
Proof. intros Hm HPQ s r s' Hrun. destruct (Hm _ _ _ Hrun) as (t & Ht & HP). eauto. Qed.

(** Adds nothing. *)
Definition silent {A : Type} (r : result A) (t : list effect) : Prop := t = [].

Lemma meets_ret {A : Type} (a : A) : meets (ret a) (λ r t, r = inr a ∧ t = []).
Proof. intros s r s' [= <- <-]. exists []. by rewrite app_nil_r. Qed.
Lemma meets_raise {A : Type} e : meets (raise (A := A) e) (λ r t, r = inl e ∧ t = []).
Proof. intros s r s' [= <- <-]. exists []. by rewrite app_nil_r. Qed.
Lemma meets_lift {A : Type} (x : result A) : meets (lift x) (λ r t, r = x ∧ t = []).
Proof. intros s r s' [= <- <-]. exists []. by rewrite app_nil_r. Qed.
Lemma meets_on_env {A : Type} (m : M exn S A) : meets (on_env m) silent.
Proof.
  intros s r s'. unfold on_env. destruct (m (sv_env s)) as [r' env]. intros [= <- <-].
  exists []. by rewrite app_nil_r.
Qed.
Lemma meets_gets {A : Type} (f : Serving S → A) : meets (gets f) silent.
Proof. intros s r s' [= <- <-]. exists []. by rewrite app_nil_r. Qed.
Lemma meets_performed {A : Type} e (m : M exn S A) : meets (performed e m) (λ _ t, t = [e]).
Proof.
  intros s r s'. unfold performed, note, bind, modify, on_env. cbn [sv_env sv_trace].
  destruct (m (sv_env s)) as [r' env]. intros [= <- <-]. by exists [e].
Qed.
Lemma meets_outcome {A : Type} (m : Serve A) P : meets m P →
  meets (outcome m) (λ r t, ∃ x, r = inr x ∧ P x t).
Proof.
  intros Hm s r s'. unfold outcome. destruct (m s) as [x s1] eqn:H1. apply Hm in H1 as (t & Ht & HP).
  intros [= <- <-]. exists t. split; [done|]. by exists x.
Qed.

(** What adds nothing may come first. *)
Lemma meets_after {A B : Type} (m : Serve A) (k : A → Serve B) (R : result B → list effect → Prop) :
  meets m silent → (∀ e, R (inl e) []) → (∀ a, meets (k a) R) → meets (bind m k) R.
Proof.
  intros Hm He Hk. eapply meets_bind; [exact Hm|exact Hk| |].
  - intros e t ->. apply He.
  - intros a r t t' -> H. exact H.
Qed.

Lemma meets_after_such {A B : Type} (φ : A → Prop) (m : Serve A) (k : A → Serve B)
    (R : result B → list effect → Prop) :
  meets m (λ r t, t = [] ∧ ∃ a, r = inr a ∧ φ a) → (∀ a, φ a → meets (k a) R) → meets (bind m k) R.
Proof.
  intros Hm Hk s r s'. unfold bind. destruct (m s) as [x s1] eqn:H1.
  apply Hm in H1 as (t & Ht & -> & a & -> & Ha). intros H2. apply (Hk a Ha) in H2 as (t' & Ht' & HR).
  exists t'. by rewrite Ht', Ht, app_nil_r.
Qed.

Lemma meets_now : meets now_utc (λ r t, t = [] ∧ ∃ at_, r = inr at_ ∧ ∃ us, at_ = Dt.Aware us).
Proof.
  intros s r s'. unfold now_utc, on_env. destruct (he_now (sv_env s)) as [us env]. intros [= <- <-].
  exists []. rewrite app_nil_r. split; [done|]. split; [done|]. by exists (Dt.Aware us); split; [|exists us].
Qed.

Lemma meets_after_lift {A B : Type} (x : result A) (k : A → Serve B) (R : result B → list effect → Prop) :
  (∀ e, x = inl e → R (inl e) []) → (∀ a, x = inr a → meets (k a) R) → meets (bind (lift x) k) R.
Proof.
  intros He Hk s r s'. unfold bind, lift. destruct x as [e|a]; [|by apply Hk].
  intros [= <- <-]. exists []. rewrite app_nil_r. split; [done|]. by apply He.
Qed.

(** ** Responses and audit events *)

(** A whole response: its two messages, for a body [json.dumps] accepts. *)
Definition is_response (l : list AsgiMessage) : Prop := ∃ status body encoded extra,
  json_encode body = inr encoded ∧
  l = [ResponseStart status (response_headers encoded extra); ResponseBody encoded].

(** No response, or an interrupted one *)
Definition partial_response (l : list AsgiMessage) : Prop := ∃ l', is_response l' ∧ l `prefix_of` l'.

Definition messages (t : list effect) : list AsgiMessage :=
  omap (λ e, match e with Sent m => Some m | _ => None end) t.

Definition reads (t : list effect) : list (source * TenantContext) :=
  omap (λ e, match e with Read what context => Some (what, context) | _ => None end) t.

Lemma messages_app t t' : messages (t ++ t') = messages t ++ messages t'.
Proof. apply omap_app. Qed.
Lemma reads_app t t' : reads (t ++ t') = reads t ++ reads t'.
Proof. apply omap_app. Qed.

Lemma no_response_partial : partial_response [].
Proof. eexists. split; [by exists 200, PNone, "null"%string, []|apply prefix_nil]. Qed.

Definition responded (r : result unit) (t : list effect) : Prop :=
  reads t = [] ∧ match r with inr _ => is_response (messages t) | inl _ => partial_response (messages t) end.

Lemma meets_sends m1 m2 :
  meets (do! send m1 ;; send m2)
    (λ r t, t = [Sent m1; Sent m2] ∨ (t = [Sent m1] ∧ ∃ e, r = inl e)).
Proof.
  eapply meets_bind; [apply meets_performed|intros ?; apply meets_performed| |].
  - intros e t Ht. right. by split; [|eexists].
  - intros _ r t t' -> ->. by left.
Qed.

Lemma meets_respond status body extra : meets (_respond status body extra) responded.
Proof.
  unfold _respond. eapply meets_bind; [apply meets_lift|intros encoded; apply meets_sends| |].
  - intros e t [_ ->]. split; [done|apply no_response_partial].
  - intros encoded r t t' [Hb ->] Ht'. rewrite app_nil_l.
    assert (Hr : is_response [ResponseStart status (response_headers encoded extra); ResponseBody encoded])
      by by exists status, body, encoded, extra.
    destruct Ht' as [-> |[-> [e ->]]]; (split; [done|]).
    + destruct r; [|done]. by eexists.
    + eexists. split; [exact Hr|]. by eexists.
Qed.

(** The event an audit call stores, if it gets that far *)
Definition audit_stored (tenant_id : TenantId) (event_type : AuditEventType) (o : AuditOutcome)
    (actor action resource : string) (r : result unit) (t : list effect) : Prop :=
  (t = [] ∧ ∃ e, r = inl e) ∨
  ∃ event, t = [Audited (mkTenantContext tenant_id) event] ∧ ae_tenant_id event = tenant_id ∧
    ae_event_type event = event_type ∧ ae_outcome event = o ∧ ae_actor_id event = actor ∧
    ae_action event = action ∧ ae_resource event = resource.

Lemma meets_audit tenant_id event_type o actor action resource correlation details :
  meets (_audit_event app tenant_id event_type o actor action resource correlation details)
    (audit_stored tenant_id event_type o actor action resource).
Proof.
  assert (Hno : ∀ e, audit_stored tenant_id event_type o actor action resource (inl e) [])
    by (intros e; left; by split; [|eexists]).
  unfold _audit_event. apply meets_after; [apply meets_on_env|done|intros id].
  apply meets_after; [apply meets_on_env|done|intros at_].
  apply meets_after_lift; [by intros e _|intros event Hevent].
  eapply meets_weaken; [apply meets_performed|]. intros r t ->. right. exists event. split; [done|].
  unfold AuditEvent_post_init in Hevent.
  do 3 apply rbind_ok in Hevent as (? & _ & Hevent). injection Hevent as <-. done.
Qed.
End Trace.

(** ** A sample application

    One tenant, its administrator, a clock at 50 and a policy repository that
    may be down. *)

#[export] Instance sample_http : HttpEnvironment unit := {|
  he_now := λ s, (50, s); he_uuid4 := λ s, (7%N, s); he_environ := λ _, ∅; he_send := λ _, ret tt |}.

Definition idle_controls : ProviderControls := mkControls ∅ ∅ ∅ ∅ (λ _, S754_zero false) 0.

#[export] Instance sample_gateway : GatewayReaders unit := {|
  gr_controls := λ A m s, (fst (m idle_controls), s); gr_usage_summary := λ _, ret (dict_of []) |}.

Definition sample_app (down : bool) : ControlPlaneApp unit := {|
  cp_authentication := Some (λ _, ret sample_reader);
  cp_tenants := λ context, ret (Some (mkTenant (ctx_tenant_id context) "Acme" true));
  cp_policies := λ _, if down then raise (TransientStorageError "down") else ret (Some routed_policy);
  cp_audit := λ _ _, ret tt;
  cp_event_store := None;
  cp_projections := None;
  cp_storage_ready := None;
  cp_gateway_operations := Some sample_views |}.

Definition sample_scope (path : string) : pydict :=
  dict_of [("type", PStr "http"); ("path", PStr path)]%string.

Definition idle : Serving unit := mkServing tt [].

Section Guarantees.
Context {S : Type} {Repr : PyRepr} {Readers : GatewayReaders S} {Http : HttpEnvironment S}.
Context (app : ControlPlaneApp S).

Abbreviation Serve := (M exn (Serving S)).
Local Abbreviation meets := (meets (S := S)).

(** ** One response *)

Definition quiet {A : Type} (r : result A) (t : list effect) : Prop := messages t = [].

(** [f a] says whether the response is sent when the result is [a]. *)
Definition gate {A : Type} (f : A → bool) (r : result A) (t : list effect) : Prop :=
  match r with
  | inr a => if f a then is_response (messages t) else messages t = []
  | inl _ => partial_response (messages t)
  end.

Abbreviation answers := (gate (λ _ : unit, true)).

Lemma gate_bind {A B : Type} (f : A → bool) (g : B → bool) (m : Serve A) (k : A → Serve B) :
  meets m (gate f) →
  (∀ a, if f a then ∃ b, k a = ret b ∧ g b = true else meets (k a) (gate g)) →
  meets (bind m k) (gate g).
Proof.
  intros Hm Hk. eapply (meets_bind _ _ _ (λ a r t, if f a then ∃ b, r = inr b ∧ t = [] ∧ g b = true else gate g r t));
    [exact Hm| |done|].
  - intros a. specialize (Hk a). destruct (f a); [|done]. destruct Hk as (b & -> & Hb).
    eapply meets_weaken; [apply meets_ret|]. intros r t [-> ->]. by exists b.
  - intros a r t t' Ht Ht'. cbn [gate] in Ht. destruct (f a).
    + destruct Ht' as (b & -> & -> & Hb). cbn [gate]. by rewrite Hb, app_nil_r.
    + unfold gate in *. by rewrite messages_app, Ht, app_nil_l.
Qed.

Lemma gate_quiet {A : Type} (m : Serve A) : meets m quiet → meets m (gate (λ _, false)).
Proof.
  intros Hm. eapply meets_weaken; [exact Hm|]. intros [e|a] t Ht; cbn [gate]; [|done].
  rewrite Ht. apply no_response_partial.
Qed.

Lemma gate_after {A B : Type} (g : B → bool) (m : Serve A) (k : A → Serve B) :
  meets m quiet → (∀ a, meets (k a) (gate g)) → meets (bind m k) (gate g).
Proof. intros Hm Hk. by apply (gate_bind (λ _, false)); [apply gate_quiet|]. Qed.

Lemma answers_respond status body extra : meets (_respond status body extra) answers.
Proof. eapply meets_weaken; [apply meets_respond|]. by intros r t [_ H]. Qed.

(** A response, and a result that says so *)
Lemma gate_respond {A : Type} (g : A → bool) status body extra a : g a = true →
  meets (do! _respond status body extra ;; ret a) (gate g).
Proof. intros Ha. apply (gate_bind (λ _, true)); [apply answers_respond|]. intros _. by exists a. Qed.

Lemma gate_raise {A : Type} (g : A → bool) e : meets (raise (A := A) e) (gate g).
Proof. eapply meets_weaken; [apply meets_raise|]. intros r t [-> ->]. apply no_response_partial. Qed.

Lemma gate_ret {A : Type} (g : A → bool) a : g a = false → meets (ret a) (gate g).
Proof. intros Ha. eapply meets_weaken; [apply meets_ret|]. intros r t [-> ->]. cbn [gate]. by rewrite Ha. Qed.

Lemma quiet_pure {A : Type} (x : result A) : meets (lift x) quiet.
Proof. eapply meets_weaken; [apply meets_lift|]. by intros r t [_ ->]. Qed.
Lemma quiet_on_env {A : Type} (m : M exn S A) : meets (on_env m) quiet.
Proof. eapply meets_weaken; [apply meets_on_env|]. by intros r t ->. Qed.
Lemma quiet_observe {A : Type} (f : Serving S → A) : meets (gets f) quiet.
Proof. eapply meets_weaken; [apply meets_gets|]. by intros r t ->. Qed.
Lemma quiet_reading {A : Type} what context (m : M exn S A) : meets (reading what context m) quiet.
Proof. eapply meets_weaken; [apply meets_performed|]. by intros r t ->. Qed.
Lemma quiet_outcome {A : Type} (m : Serve A) : meets m quiet → meets (outcome m) quiet.
Proof. intros Hm. eapply meets_weaken; [by apply meets_outcome|]. by intros r t (x & _ & H). Qed.
Lemma quiet_audit tenant_id event_type o actor action resource correlation details :
  meets (_audit_event app tenant_id event_type o actor action resource correlation details) quiet.
Proof.
  eapply meets_weaken; [apply meets_audit|]. by intros r t [[-> _]|(event & -> & _)].
Qed.

Create HintDb serve.
#[local] Hint Resolve answers_respond gate_raise quiet_pure quiet_on_env quiet_observe quiet_reading quiet_outcome
  quiet_audit : serve.

Lemma gate_authenticate scope correlation :
  meets (_authenticate app scope correlation)
    (gate (λ p, match p with Some _ => false | None => true end)).
Proof.
  unfold _authenticate. destruct (cp_authentication app) as [authenticate|]; [|by apply gate_respond].
  apply gate_after; [auto with serve|]. intros [e|principal].
  - destruct e; try (by apply gate_respond); try apply gate_raise.
    apply gate_after; [auto with serve|]. intros _. by apply gate_respond.
  - apply gate_after; [auto with serve|]. intros actor. apply gate_after; [auto with serve|]. intros _.
    by apply gate_ret.
Qed.

Lemma gate_authorize principal tenant_id permission correlation resource :
  meets (_authorize app principal tenant_id permission correlation resource) (gate negb).
Proof.
  unfold _authorize, _audit_authorization. apply gate_after; [apply quiet_on_env|intros at_].
  apply gate_after; [auto with serve|intros decision]. apply gate_after.
  - intros s r s'. unfold bind, lift. destruct (principal_actor_id principal) as [e|actor].
    + intros [= <- <-]. exists []. by rewrite app_nil_r.
    + intros Hrun. by apply quiet_audit in Hrun.
  - intros _. destruct (ad_allowed decision); [by apply gate_ret|by apply gate_respond].
Qed.

Lemma answers_authorized principal tenant_id permission correlation resource k :
  (∀ context, meets (k context) answers) →
  meets (authorized app principal tenant_id permission correlation resource k) answers.
Proof.
  intros Hk. unfold authorized. apply (gate_bind negb); [apply gate_authorize|].
  intros []; cbn [negb]; [apply Hk|by exists tt].
Qed.

Lemma answers_stored {A : Type} (m : Serve A) k : meets m quiet → (∀ a, meets (k a) answers) →
  meets (stored m k) answers.
Proof.
  intros Hm Hk. unfold stored. apply gate_after; [auto with serve|]. intros [e|a]; [|done].
  destruct e; auto with serve.
Qed.
#[local] Hint Resolve answers_authorized answers_stored : serve.
#[local] Hint Extern 3 (meets (match ?x with _ => _ end) _) => destruct x : serve.
#[local] Hint Extern 2 (meets (reading _ _ _) quiet) => apply quiet_reading : serve.

Lemma answers_model_view principal tenant_id correlation view :
  meets (_get_model_view app principal tenant_id correlation view) answers.
Proof.
  apply answers_authorized. intros context. destruct (cp_gateway_operations app); [|auto with serve].
  apply gate_after; [auto with serve|]. intros [policy|]; [|auto with serve].
  apply gate_after; [apply quiet_on_env|]. intros at_. apply gate_after; [auto with serve|].
  intros [e|body]; [|auto with serve]. destruct e; auto with serve.
Qed.

Lemma answers_with_cursor scope k : (∀ cursor, meets (k cursor) answers) →
  meets (with_cursor scope k) answers.
Proof. intros Hk. unfold with_cursor. destruct (_cursor_parameter scope) as [e|c]; auto with serve. Qed.

Lemma answers_tenant_route scope principal tenant_id correlation segments :
  meets (tenant_route app scope principal tenant_id correlation segments) answers.
Proof.
  assert (Hstored : ∀ permission resource (A : Type) (what : TenantContext → source) (read : TenantContext → M exn S A) k,
    (∀ a, meets (k a) answers) →
    meets (authorized app principal tenant_id permission correlation resource
      (λ context, stored (reading (what context) context (read context)) k)) answers).
  { intros. apply answers_authorized. intros context. apply answers_stored; auto with serve. }
  unfold tenant_route, _get_tenant, _get_policy, _get_ledger, _get_timeline, _get_run_status.
  destruct segments as [|a [|b [|c [|]]]]; try apply answers_respond.
  - apply (Hstored _ _ _ (λ _, TENANT_RECORD)). intros [tenant|]; apply answers_respond.
  - case_bool_decide; [apply (Hstored _ _ _ (λ _, TENANT_POLICY)); intros [policy|]; apply answers_respond|].
    case_bool_decide; [apply answers_model_view|]. case_bool_decide; [|apply answers_respond].
    apply answers_with_cursor. intros cursor. apply answers_authorized. intros context.
    destruct (cp_event_store app); [|apply answers_respond]. apply answers_stored; auto with serve.
  - destruct (_ && _); [|apply answers_respond]. apply answers_authorized. intros context.
    destruct (cp_projections app); [|apply answers_respond]. apply answers_stored; auto with serve.
  - destruct (_ && _); [|apply answers_respond]. apply answers_with_cursor. intros cursor.
    destruct (PyStr.is_empty b); [apply answers_respond|]. apply answers_authorized. intros context.
    destruct (cp_event_store app); [|apply answers_respond]. apply answers_stored; auto with serve.
Qed.

Lemma answers_api_route scope path : meets (api_route app scope path) answers.
Proof.
  unfold api_route. apply gate_after; [apply quiet_on_env|]. intros correlation.
  apply (gate_bind (λ p, match p with Some _ => false | None => true end)); [apply gate_authenticate|].
  intros [principal|]; [|by exists tt]. case_bool_decide.
  - apply gate_after; [apply quiet_on_env|]. intros at_. apply gate_after; auto with serve.
  - destruct (List.filter _ _) as [|version [|collection [|name rest]]]; try apply answers_respond.
    destruct (negb _); [apply answers_respond|]. destruct (TenantId_new name) as [e|tenant_id].
    + destruct (except_ValueError e); auto with serve.
    + apply answers_tenant_route.
Qed.

Lemma answers_readiness : meets (_readiness app) answers.
Proof.
  unfold _readiness. apply gate_after; [auto with serve|]. intros environ.
  destruct (from_env environ) as [e|settings]; [destruct e; auto with serve|].
  apply gate_after.
  - unfold storage_is_ready. destruct (cp_storage_ready app); [apply quiet_on_env|].
    eapply meets_weaken; [apply meets_ret|]. by intros r t [_ ->].
  - intros ready. destruct (negb ready); apply answers_respond.
Qed.

Lemma answers_http scope : meets (http_route app scope) answers.
Proof.
  unfold http_route. cbv zeta. destruct (negb (equals_str _ _)); [apply answers_respond|].
  apply gate_after; [destruct (negb _)|intros _].
  - eapply meets_weaken; [apply meets_raise|]. by intros r t [_ ->].
  - eapply meets_weaken; [apply meets_ret|]. by intros r t [_ ->].
  - destruct (default _ _); try apply answers_respond. case_bool_decide; [apply answers_respond|].
    case_bool_decide; [apply answers_readiness|]. destruct (negb _); [apply answers_respond|].
    apply answers_api_route.
Qed.

(** C29. Every HTTP request gets exactly one response: a call for a scope of
    type [http] that returns has sent one response start and one body, the
    start with the length of that body and the body the JSON text of a value
    [json.dumps] accepts; a call that raises has sent at most a prefix of such
    a response; and a call for any other scope does nothing at all. *)
Theorem one_response_per_request scope s r s' :
  serve app scope s = (r, s') →
  if equals_str (dict_get "type" scope) "http" then
    ∃ t, sv_trace s' = sv_trace s ++ t ∧
      match r with inr _ => is_response (messages t) | inl _ => partial_response (messages t) end
  else r = inr tt ∧ s' = s.
Proof.
  unfold serve. destruct (equals_str _ _); cbn [negb]; [|by intros [= <- <-]].
  intros Hrun. apply answers_http in Hrun as (t & Ht & Hr). exists t. by destruct r.
Qed.

(** ** Outages *)

Definition calm (e : exn) : Prop := match e with TransientStorageError _ => False | _ => True end.

#[local] Hint Extern 2 (calm _) => exact I : raises.

Lemma calm_json_check v : raises_result calm (json_check v).
Proof.
  assert (Hl : ∀ l, Forall (λ v, raises_result calm (json_check v)) l → raises_result calm (json_check (PList l))).
  { induction 1 as [|x l Hx _ IH]; [apply raises_inr|]. cbn [json_check] in *. auto with raises. }
  assert (Hd : ∀ d : pydict, Forall (λ kv, raises_result calm (json_check kv.2)) d →
    raises_result calm (json_check (PDict d))).
  { induction 1 as [|[[k|n] x] d Hx _ IH]; cbn [json_check] in *; auto with raises. }
  induction v as [| | | | |l IH|l IH|d IH|d IH| |] using pyval_deep_ind; try (cbn [json_check]; auto with raises; fail).
  - by apply Hl.
  - by apply (Hl l).
  - by apply Hd.
Qed.
#[local] Hint Resolve calm_json_check : raises.

Lemma calm_aware at_ : raises_result calm (require_aware_datetime at_).
Proof. unfold require_aware_datetime. auto with raises. Qed.
#[local] Hint Resolve calm_aware : raises.

Lemma calm_le a b : raises_result calm (Dt.le a b).
Proof. destruct a, b; cbn [Dt.le]; auto with raises. Qed.
Lemma calm_lt a b : raises_result calm (dt_lt a b).
Proof. unfold dt_lt. auto using calm_le with raises. Qed.
#[local] Hint Resolve calm_le calm_lt : raises.

Lemma calm_binding_active b at_ : raises_result calm (is_active b at_).
Proof. unfold is_active. auto 10 with raises. Qed.
#[local] Hint Resolve calm_binding_active : raises.

Lemma calm_decide principal tenant permission at_ :
  raises_result calm (decide_authorization principal tenant (inl permission) at_).
Proof.
  assert (Hroles : raises_result calm (active_roles_of tenant at_ (pr_role_bindings principal))).
  { induction (pr_role_bindings principal) as [|b bs IH]; cbn [active_roles_of]; auto 10 with raises. }
  unfold decide_authorization. auto 10 with raises.
Qed.

Lemma calm_actor principal : raises_result calm (principal_actor_id principal).
Proof. unfold principal_actor_id. auto with raises. Qed.

Lemma calm_event e : raises_result calm (AuditEvent_post_init e).
Proof. unfold AuditEvent_post_init. auto 10 with raises. Qed.
#[local] Hint Resolve calm_decide calm_actor calm_event : raises.

Section Outage.
Context (calm_send : ∀ m, raises calm (he_send m)) (calm_audit : ∀ c e, raises calm (cp_audit app c e)).

Lemma calm_on_env {A : Type} (m : M exn S A) : raises calm m → raises calm (on_env m).
Proof using.
  intros Hm s e s'. unfold on_env. destruct (m (sv_env s)) as [r env] eqn:H. intros [= -> _]. by eapply Hm.
Qed.

Lemma calm_performed {A : Type} x (m : M exn S A) : raises calm m → raises calm (performed x m).
Proof using. intros Hm. apply raises_bind; [apply raises_modify|intros _; by apply calm_on_env]. Qed.

Lemma calm_now : raises calm now_utc.
Proof using. apply calm_on_env. intros s e s'. by destruct (he_now s). Qed.
Lemma calm_event_id : raises calm uuid4.
Proof using. apply calm_on_env. intros s e s'. by destruct (he_uuid4 s). Qed.
#[local] Hint Resolve calm_on_env calm_performed calm_now calm_event_id calm_send calm_audit : raises.

Lemma calm_respond status body extra : raises calm (_respond status body extra).
Proof using calm_send. unfold _respond, json_encode, send. auto 10 with raises. Qed.
#[local] Hint Resolve calm_respond : raises.

Lemma calm_authorized principal tenant_id permission correlation resource k :
  (∀ context, raises calm (k context)) →
  raises calm (authorized app principal tenant_id permission correlation resource k).
Proof using calm_send calm_audit.
  intros Hk. unfold authorized, _authorize, _audit_authorization, _audit_event. auto 20 with raises.
Qed.

(** A [try] block with a handler for outages *)
Lemma calm_stored {A : Type} (m : Serve A) k : (∀ a, raises calm (k a)) → raises calm (stored m k).
Proof using calm_send.
  intros Hk. unfold stored. apply raises_bind.
  - intros s e s'. unfold outcome. by destruct (m s).
  - intros [e|a]; [|apply Hk]. destruct e; auto with raises.
Qed.

Lemma calm_with_cursor scope k : (∀ cursor, raises calm (k cursor)) → raises calm (with_cursor scope k).
Proof using calm_send.
  intros Hk. unfold with_cursor. destruct (_cursor_parameter scope) as [e|c] eqn:Hc; [|apply Hk].
  apply cursor_errors in Hc as [m ->]. apply calm_respond.
Qed.

Lemma calm_tenant_route scope principal tenant_id correlation segments :
  (∀ view, segments = [view] → view ∉ model_views) →
  raises calm (tenant_route app scope principal tenant_id correlation segments).
Proof using calm_send calm_audit.
  intros Hview. unfold tenant_route, _get_tenant, _get_policy, _get_ledger, _get_timeline, _get_run_status.
  destruct segments as [|a [|b [|c [|]]]]; try apply calm_respond.
  - apply calm_authorized. intros context. apply calm_stored. intros [tenant|]; apply calm_respond.
  - case_bool_decide.
    { apply calm_authorized. intros context. apply calm_stored. intros [policy|]; apply calm_respond. }
    rewrite bool_decide_false by by apply Hview. case_bool_decide; [|apply calm_respond].
    apply calm_with_cursor. intros cursor. apply calm_authorized. intros context.
    destruct (cp_event_store app); [|apply calm_respond]. apply calm_stored. intros page. apply calm_respond.
  - destruct (_ && _); [|apply calm_respond]. apply calm_authorized. intros context.
    destruct (cp_projections app); [|apply calm_respond]. apply calm_stored. intros rows. apply calm_respond.
  - destruct (_ && _); [|apply calm_respond]. apply calm_with_cursor. intros cursor.
    destruct (PyStr.is_empty b); [apply calm_respond|]. apply calm_authorized. intros context.
    destruct (cp_event_store app); [|apply calm_respond]. apply calm_stored. intros found. apply calm_respond.
Qed.
End Outage.

(** C30. An outage of the storage is answered, except where the models are
    viewed: with a working audit store and server, no route of a tenant but the
    three model views lets [TransientStorageError] escape, whatever the
    repositories do; but those read the policy outside any handler, so that
    once the request is authorized and a gateway is configured, an outage of
    the policy repository is raised and no response is sent. *)
Theorem storage_outage_answered scope principal tenant_id correlation :
  (∀ m, raises calm (he_send m)) → (∀ c e, raises calm (cp_audit app c e)) →
  (∀ segments, (∀ view, segments = [view] → view ∉ model_views) →
     raises calm (tenant_route app scope principal tenant_id correlation segments)) ∧
  (∀ view operations msg env s s1,
     view ∈ model_views → cp_gateway_operations app = Some operations →
     _authorize app principal tenant_id MODEL_READ correlation
       ("tenant/" +:+ tid_value tenant_id +:+ "/" +:+ view) s = (inr true, s1) →
     cp_policies app (mkTenantContext tenant_id) (sv_env s1) = (inl (TransientStorageError msg), env) →
     tenant_route app scope principal tenant_id correlation [view] s =
       (inl (TransientStorageError msg),
        mkServing env (sv_trace s1 ++ [Read TENANT_POLICY (mkTenantContext tenant_id)])) ∧
     messages (sv_trace s1) = messages (sv_trace s)).
Proof.
  intros Hsend Haudit. split; [by apply calm_tenant_route|].
  intros view operations msg env s s1 Hview Hops Hauth Hpolicy. split.
  - assert (Hne : view ≠ "policy"%string).
    { intros ->. assert (Hno : bool_decide ("policy"%string ∈ model_views) = false) by done.
      by apply bool_decide_eq_false in Hno. }
    unfold tenant_route. rewrite bool_decide_false by done.
    rewrite bool_decide_true by done. unfold _get_model_view, authorized, bind. rewrite Hauth, Hops.
    unfold reading, performed, note, on_env, bind, modify. cbn [sv_env sv_trace]. by rewrite Hpolicy.
  - apply gate_authorize in Hauth as (t & -> & Ht). cbn [gate negb] in Ht. by rewrite messages_app, Ht, app_nil_r.
Qed.
End Guarantees.

#[local] Instance no_floats : PyRepr := λ _, "0.0"%string.

Lemma one_response_per_request_witness :
  ∃ t, (serve (sample_app false) (sample_scope "/v1/tenants/acme") idle).1 = inr tt ∧
    sv_trace (serve (sample_app false) (sample_scope "/v1/tenants/acme") idle).2 = t ∧ is_response (messages t).
Proof.
  destruct (serve (sample_app false) (sample_scope "/v1/tenants/acme") idle) as [r s'] eqn:Hrun.
  pose proof (one_response_per_request (sample_app false) (sample_scope "/v1/tenants/acme") idle r s' Hrun) as H.
  assert (Hr : r = inr tt) by (apply (f_equal fst) in Hrun; vm_compute in Hrun; by rewrite <- Hrun).
  destruct H as (t & Ht & Hresp). exists t. rewrite Hr in Hresp. split; [exact Hr|]. split; [exact Ht|exact Hresp].
Defined.

Lemma storage_outage_answered_witness : ∃ s,
  tenant_route (sample_app true) [] sample_reader (mkTenantId "acme") 1%N ["models"%string] idle =
    (inl (TransientStorageError "down"), s).
Proof.
  destruct (storage_outage_answered (sample_app true) [] sample_reader (mkTenantId "acme") 1%N) as [_ H].
  - by intros m s e s' [=].
  - by intros c x s e s' [=].
  - destruct (_authorize (sample_app true) sample_reader (mkTenantId "acme") MODEL_READ 1%N
      ("tenant/" +:+ tid_value (mkTenantId "acme") +:+ "/" +:+ "models") idle) as [r s1] eqn:Hauth.
    eexists. eapply (H "models"%string sample_views "down"%string tt idle s1).
    + left.
    + reflexivity.
    + rewrite Hauth. f_equal. apply (f_equal fst) in Hauth. vm_compute in Hauth. by rewrite <- Hauth.
    + by destruct s1 as [[] t].
Defined.
