(* ===== verification/ControlPlaneReads.v ===== *)
(** * Reads of the control plane

    Tenant data is read only behind an audited decision that allows it. *)

From stdpp Require Import base gmap sets list strings.
From Stdlib Require Import ZArith Lia SpecFloat.
From S2P Require Import Prelude PyLib Json Events Identity Amounts Policy ModelContracts Routing Resilience EventStore.
From S2P Require Import Raises Wire AuditTrail Config GatewayOperations HttpText ControlPlane ControlPlaneResponses.

Local Open Scope Z_scope.

Section Guarantees.
Context {S : Type} {Repr : PyRepr} {Readers : GatewayReaders S} {Http : HttpEnvironment S}.
Context (app : ControlPlaneApp S).

Abbreviation Serve := (M exn (Serving S)).
Local Abbreviation meets := (ControlPlaneResponses.meets (S := S)).

(** ** Reads behind decisions *)

(** The permissions a source may be read with: the policy is also read for the
    views of the models. *)
Definition permissions_for (what : source) : list Permission :=
  match what with
  | TENANT_RECORD => [TENANT_READ]
  | TENANT_POLICY => [POLICY_READ; MODEL_READ]
  | GATEWAY_VIEW _ => [MODEL_READ]
  | LEDGER_PAGE _ | RUN_TIMELINE _ _ | RUN_STATUS => [RESOURCE_READ]
  end.

(** Reads nothing but the sources of a permission, in one tenant. *)
Definition within {A : Type} (permission : Permission) (context : TenantContext) (r : result A)
    (t : list effect) : Prop :=
  ∀ what c, (what, c) ∈ reads t → c = context ∧ permission ∈ permissions_for what.

Definition readless {A : Type} (r : result A) (t : list effect) : Prop := reads t = [].

Section Within.
Context (permission : Permission) (context : TenantContext).

Lemma within_readless {A : Type} (m : Serve A) : meets m readless → meets m (within permission context).
Proof.
  intros Hm. eapply meets_weaken; [exact Hm|]. intros r t Ht what c Hin. rewrite Ht in Hin.
  by apply not_elem_of_nil in Hin.
Qed.

Lemma reading_bind {A B : Type} (m : Serve A) (k : A → Serve B) :
  meets m (within permission context) → (∀ a, meets (k a) (within permission context)) →
  meets (bind m k) (within permission context).
Proof.
  intros Hm Hk. eapply meets_bind; [exact Hm|exact Hk|done|]. intros a r t t' Ht Ht' what c.
  rewrite reads_app, elem_of_app. intros [H|H]; [by apply Ht|by apply Ht'].
Qed.

Lemma within_reading {A : Type} what (m : M exn S A) : permission ∈ permissions_for what →
  meets (reading what context m) (within permission context).
Proof.
  intros Hp. eapply meets_weaken; [apply meets_performed|]. intros r t -> what' c Hin.
  apply list_elem_of_singleton in Hin as [= -> ->]. done.
Qed.

Lemma within_outcome {A : Type} (m : Serve A) : meets m (within permission context) →
  meets (outcome m) (within permission context).
Proof. intros Hm. eapply meets_weaken; [by apply meets_outcome|]. by intros r t (x & _ & H). Qed.

Lemma within_respond status body extra : meets (_respond status body extra) (within permission context).
Proof. apply within_readless. eapply meets_weaken; [apply meets_respond|]. by intros r t [H _]. Qed.

Lemma reading_raise {A : Type} e : meets (raise (A := A) e) (within permission context).
Proof. apply within_readless. eapply meets_weaken; [apply meets_raise|]. by intros r t [_ ->]. Qed.

Lemma within_on_env {A : Type} (m : M exn S A) : meets (on_env m) (within permission context).
Proof. apply within_readless. eapply meets_weaken; [apply meets_on_env|]. by intros r t ->. Qed.

Lemma within_stored {A : Type} what (m : M exn S A) k : permission ∈ permissions_for what →
  (∀ a, meets (k a) (within permission context)) →
  meets (stored (reading what context m) k) (within permission context).
Proof.
  intros Hp Hk. unfold stored. apply reading_bind; [by apply within_outcome, within_reading|].
  intros [e|a]; [|done]. destruct e; first [apply within_respond|apply reading_raise].
Qed.
End Within.

(** The audit event of a decision that allows *)
Definition allows (principal : Principal) (permission : Permission) (context : TenantContext)
    (event : AuditEvent) : Prop :=
  ae_event_type event = AUTHORIZATION_DECISION ∧ ae_outcome event = AUDIT_SUCCESS ∧
  ae_action event = sc_value permission ∧ principal_actor_id principal = inr (ae_actor_id event) ∧
  ∃ us d, decide_authorization principal (ctx_tenant_id context) (inl permission) (Dt.Aware us) = inr d ∧
          ad_allowed d = true.

(** The audit events of one tenant *)
Definition audited (tenant_id : TenantId) (event : AuditEvent) (t : list effect) : Prop :=
  Audited (mkTenantContext tenant_id) event ∈ t.

(** Whatever is read is read after the event of the decision that allows it. *)
Definition guarded {A : Type} (principal : Principal) (r : result A) (t : list effect) : Prop :=
  reads t = [] ∨
  ∃ before after permission context event, t = before ++ after ∧ reads before = [] ∧
    audited (pr_tenant_id principal) event before ∧ allows principal permission context event ∧
    within permission context r after.

Lemma guarded_readless {A : Type} principal (m : Serve A) : meets m readless → meets m (guarded principal).
Proof. intros Hm. eapply meets_weaken; [exact Hm|]. by left. Qed.

Lemma guarded_respond principal status body extra : meets (_respond status body extra) (guarded principal).
Proof. apply guarded_readless. eapply meets_weaken; [apply meets_respond|]. by intros r t [H _]. Qed.

Lemma decision_permission principal tenant permission at_ d :
  decide_authorization principal tenant (inl permission) at_ = inr d → ad_permission d = sc_value permission.
Proof.
  unfold decide_authorization. destruct (negb _); [by intros [= <-]|].
  destruct (active_roles_of _ _ _); [done|]. by intros [= <-].
Qed.

(** The audited decision *)
Lemma meets_authorize principal tenant_id permission correlation resource :
  meets (_authorize app principal tenant_id permission correlation resource)
    (λ r t, reads t = [] ∧
       (r = inr true → ∃ event, audited (pr_tenant_id principal) event t ∧
          allows principal permission (mkTenantContext tenant_id) event)).
Proof.
  unfold _authorize, _audit_authorization.
  eapply meets_after_such; [apply meets_now|]. intros at_ [us ->].
  apply meets_after_lift; [done|]. intros d Hd.
  assert (Haudit : meets (let! actor := lift (principal_actor_id principal) in
      _audit_event app (pr_tenant_id principal) AUTHORIZATION_DECISION
        (if ad_allowed d then AUDIT_SUCCESS else AUDIT_DENIED) actor (ad_permission d) resource correlation
        (decision_details d))
    (λ r t, reads t = [] ∧ (r = inr tt → ad_allowed d = true → ∃ event, audited (pr_tenant_id principal) event t ∧
          allows principal permission (mkTenantContext tenant_id) event))).
  { apply meets_after_lift; [done|]. intros actor Hactor.
    eapply meets_weaken; [apply meets_audit|].
    intros r t [[-> [e ->]]|(event & -> & _ & Htype & Hout & Hact & Haction & _)]; [done|].
    split; [done|]. intros _ Hall. exists event. split; [by left|]. rewrite Hall in Hout.
    split_and!; try done.
    - rewrite Haction. by eapply decision_permission.
    - by rewrite Hact.
    - by exists us, d. }
  eapply (meets_bind _ _ _ (λ _ r t, reads t = [] ∧ (r = inr true → ad_allowed d = true)));
    [exact Haudit| |by intros e t [Ht _]|].
  - intros []. destruct (ad_allowed d).
    + eapply meets_weaken; [apply meets_ret|]. by intros r t [-> ->].
    + eapply (meets_bind _ _ _ (λ _ r t, r = inr false ∧ t = [])); [apply meets_respond|intros ?; apply meets_ret| |].
      * intros e t [Ht _]. by split.
      * intros a r t t' [Ht _] [-> ->]. rewrite app_nil_r. by split.
  - intros [] r t t' [Ht Hev] [Ht' Hall]. rewrite reads_app, Ht, Ht'. split; [done|]. intros Hr.
    destruct (Hev eq_refl (Hall Hr)) as (event & Hin & Hallows). exists event. split; [|done].
    apply elem_of_app. by left.
Qed.

Lemma guarded_authorized principal tenant_id permission correlation resource k :
  (∀ context, meets (k context) (within permission context)) →
  meets (authorized app principal tenant_id permission correlation resource k) (guarded principal).
Proof.
  intros Hk. unfold authorized. eapply (meets_bind _ _ _ (λ allowed r t,
    if allowed : bool then within permission (mkTenantContext tenant_id) r t else t = [])); [apply meets_authorize| | |].
  - intros []; [apply Hk|]. eapply meets_weaken; [apply meets_ret|]. by intros r t [_ ->].
  - intros e t [Ht _]. by left.
  - intros allowed r t t' [Ht Hev] Ht'. destruct allowed.
    + destruct (Hev eq_refl) as (event & Hin & Hallows). right.
      by exists t, t', permission, (mkTenantContext tenant_id), event.
    + left. rewrite reads_app, Ht. by subst t'.
Qed.

Lemma guarded_model_view principal tenant_id correlation view :
  meets (_get_model_view app principal tenant_id correlation view) (guarded principal).
Proof.
  apply guarded_authorized. intros context. destruct (cp_gateway_operations app); [|apply within_respond].
  apply reading_bind; [apply within_reading; by right; left|]. intros [policy|]; [|apply within_respond].
  apply reading_bind; [apply within_on_env|]. intros at_.
  apply reading_bind; [apply within_outcome, within_reading; by left|].
  intros [e|body]; [|apply within_respond]. destruct e; first [apply within_respond|apply reading_raise].
Qed.

Lemma guarded_with_cursor principal scope k : (∀ cursor, meets (k cursor) (guarded principal)) →
  meets (with_cursor scope k) (guarded principal).
Proof.
  intros Hk. unfold with_cursor. destruct (_cursor_parameter scope) as [e|c]; [|done].
  destruct (except_ValueError e); [apply guarded_respond|]. apply guarded_readless.
  eapply meets_weaken; [apply meets_raise|]. by intros r t [_ ->].
Qed.

Lemma guarded_tenant_route scope principal tenant_id correlation segments :
  meets (tenant_route app scope principal tenant_id correlation segments) (guarded principal).
Proof.
  unfold tenant_route, _get_tenant, _get_policy, _get_ledger, _get_timeline, _get_run_status.
  destruct segments as [|a [|b [|c [|]]]]; try apply guarded_respond.
  - apply guarded_authorized. intros context. apply within_stored; [by left|].
    intros [tenant|]; apply within_respond.
  - case_bool_decide.
    { apply guarded_authorized. intros context. apply within_stored; [by left|].
      intros [policy|]; apply within_respond. }
    case_bool_decide; [apply guarded_model_view|]. case_bool_decide; [|apply guarded_respond].
    apply guarded_with_cursor. intros cursor. apply guarded_authorized. intros context.
    destruct (cp_event_store app); [|apply within_respond]. apply within_stored; [by left|].
    intros page. apply within_respond.
  - destruct (_ && _); [|apply guarded_respond]. apply guarded_authorized. intros context.
    destruct (cp_projections app); [|apply within_respond]. apply within_stored; [by left|].
    intros rows. apply within_respond.
  - destruct (_ && _); [|apply guarded_respond]. apply guarded_with_cursor. intros cursor.
    destruct (PyStr.is_empty b); [apply guarded_respond|]. apply guarded_authorized. intros context.
    destruct (cp_event_store app); [|apply within_respond]. apply within_stored; [by left|].
    intros found. apply within_respond.
Qed.

(** The principal of a request: what authentication made of its header, and
    the audit event of that. *)
Definition authenticated (scope : pydict) (principal : Principal) : Prop :=
  ∃ authenticate env env', cp_authentication app = Some authenticate ∧
    authenticate (_single_header scope "authorization") env = (inr principal, env').

Definition admitted (scope : pydict) (principal : Principal) (t : list effect) : Prop :=
  authenticated scope principal ∧
  ∃ event, audited (pr_tenant_id principal) event t ∧ ae_event_type event = AUTHENTICATION_OUTCOME ∧
    ae_outcome event = AUDIT_SUCCESS ∧ principal_actor_id principal = inr (ae_actor_id event).

Lemma admitted_app scope principal t t' : admitted scope principal t → admitted scope principal (t ++ t').
Proof. intros [H (e & Hin & He)]. split; [done|]. exists e. split; [|done]. apply elem_of_app. by left. Qed.

Lemma meets_refused scope status body extra :
  meets (do! _respond status body extra ;; ret None)
    (λ r t, reads t = [] ∧ ∀ p, r = inr (Some p) → admitted scope p t).
Proof.
  eapply (meets_bind _ _ _ (λ _ r t, r = inr None ∧ t = [])); [apply meets_respond|intros ?; apply meets_ret| |].
  - intros e t [Ht _]. by split.
  - intros a r t t' [Ht _] [-> ->]. rewrite app_nil_r. by split.
Qed.

Lemma meets_authenticate scope correlation :
  meets (_authenticate app scope correlation)
    (λ r t, reads t = [] ∧ ∀ p, r = inr (Some p) → admitted scope p t).
Proof.
  unfold _authenticate. destruct (cp_authentication app) as [authenticate|] eqn:Hauth; [|apply meets_refused].
  eapply (meets_after_such (λ x, ∀ p, x = inr p → authenticated scope p)).
  { intros s r s'. unfold outcome, on_env.
    destruct (authenticate _ (sv_env s)) as [x env] eqn:Hx. intros [= <- <-]. exists []. rewrite app_nil_r.
    split; [done|]. split; [done|]. exists x. split; [done|]. intros p ->.
    by exists authenticate, (sv_env s), env. }
  intros [e|principal] Hp.
  - destruct e; try apply meets_refused;
      try (eapply meets_weaken; [apply meets_raise|]; intros r t [-> ->]; by split).
    eapply (meets_bind _ _ _ (λ _ r t, reads t = [] ∧ ∀ p, r = inr (Some p) → admitted scope p t));
      [apply meets_audit|intros ?; apply meets_refused| |].
    + by intros e t [[-> _]|(event & -> & _)].
    + intros [] r t t' [[-> _]|(event & -> & _)] [Ht' Hr]; rewrite reads_app, Ht'; (split; [done|]);
        intros p Hrp; destruct (Hr p Hrp) as [? (ev & Hin & ?)]; (split; [done|]); exists ev;
        (split; [apply elem_of_app; by right|done]).
  - apply meets_after_lift; [done|]. intros actor Hactor.
    eapply (meets_bind _ _ _ (λ _ r t, r = inr (Some principal) ∧ t = []));
      [apply meets_audit|intros ?; apply meets_ret| |].
    + by intros e t [[-> _]|(event & -> & _)].
    + intros [] r t t' Ht [-> ->]. rewrite app_nil_r.
      destruct Ht as [[_ [e [=]]]|(event & -> & _ & Htype & Hout & Hact & _)]. split; [done|].
      intros p [= <-]. split; [by apply Hp|]. exists event. rewrite Hact. split; [by left|done].
Qed.

(** Whatever was read was read for an admitted principal, after the event of
    the decision that allows it. *)
Definition secured (scope : pydict) (t : list effect) : Prop :=
  ∀ before what context after, t = before ++ Read what context :: after →
  ∃ principal permission event, admitted scope principal before ∧
    permission ∈ permissions_for what ∧ audited (pr_tenant_id principal) event before ∧
    allows principal permission context event.

Lemma reads_none t what context : reads t = [] → Read what context ∉ t.
Proof.
  intros Ht Hin. assert (Hr : (what, context) ∈ reads t).
  { unfold reads. apply list_elem_of_omap. by exists (Read what context). }
  rewrite Ht in Hr. by apply not_elem_of_nil in Hr.
Qed.

Lemma secured_readless scope t : reads t = [] → secured scope t.
Proof.
  intros Ht before what context after ->. destruct (reads_none _ what context Ht).
  apply elem_of_app. right. left.
Qed.

Lemma secured_guarded scope principal (r : result unit) t t' :
  reads t = [] → admitted scope principal t → guarded principal r t' → secured scope (t ++ t').
Proof.
  intros Ht Had [Ht'|(t1 & t2 & permission & context & event & -> & Ht1 & Hin & Hallows & Hwithin)].
  { apply secured_readless. by rewrite reads_app, Ht, Ht'. }
  intros before what c after Heq. rewrite app_assoc in Heq.
  apply app_split_cons in Heq as [(q & Heq & _)|(q & -> & ->)].
  - exfalso. apply (reads_none (t ++ t1) what c); [by rewrite reads_app, Ht, Ht1|]. rewrite Heq.
    apply elem_of_app. right. left.
  - destruct (Hwithin what c) as [-> Hp].
    { unfold reads. apply list_elem_of_omap. exists (Read what c). split; [|done]. apply elem_of_app. right. left. }
    exists principal, permission, event. split; [by rewrite <- !app_assoc; apply admitted_app|].
    split; [done|]. split; [|done]. unfold audited in *. rewrite !elem_of_app. auto.
Qed.

Lemma secured_api_route scope path : meets (api_route app scope path) (λ _ t, secured scope t).
Proof.
  unfold api_route. apply meets_after; [apply meets_on_env|intros e; by apply secured_readless|intros correlation].
  eapply (meets_bind _ _ _ (λ p r t, match p with Some p => guarded p r t | None => t = [] end));
    [apply meets_authenticate| | |].
  - intros [principal|]; [|eapply meets_weaken; [apply meets_ret|]; by intros r t [_ ->]].
    case_bool_decide.
    + apply meets_after; [apply meets_on_env|by left|intros at_]. apply meets_after_lift; [by left|].
      intros body _. apply guarded_respond.
    + destruct (List.filter _ _) as [|version [|collection [|name rest]]]; try apply guarded_respond.
      destruct (negb _); [apply guarded_respond|]. destruct (TenantId_new name) as [e|tenant_id].
      * destruct (except_ValueError e); [apply guarded_respond|]. apply guarded_readless.
        eapply meets_weaken; [apply meets_raise|]. by intros r t [_ ->].
      * apply guarded_tenant_route.
  - intros e t [Ht _]. by apply secured_readless.
  - intros [principal|] r t t' [Ht Had] Ht'.
    + eapply secured_guarded; [done|by apply Had|exact Ht'].
    + subst t'. rewrite app_nil_r. by apply secured_readless.
Qed.

Lemma secured_respond scope status body extra : meets (_respond status body extra) (λ _ t, secured scope t).
Proof. eapply meets_weaken; [apply meets_respond|]. intros r t [Ht _]. by apply secured_readless. Qed.

Lemma secured_readiness scope : meets (_readiness app) (λ _ t, secured scope t).
Proof.
  assert (Hnil : secured scope []) by by apply secured_readless.
  unfold _readiness. apply meets_after; [apply meets_gets|done|intros environ].
  destruct (from_env environ) as [e|settings].
  - destruct e; first [apply secured_respond|eapply meets_weaken; [apply meets_raise|]; by intros r t [_ ->]].
  - apply meets_after; [|done|intros ready].
    + unfold storage_is_ready. destruct (cp_storage_ready app); [apply meets_on_env|].
      eapply meets_weaken; [apply meets_ret|]. by intros r t [_ ->].
    + destruct (negb ready); apply secured_respond.
Qed.

(** C28. Tenant data is read only behind an audited decision: in every call,
    however it ends, each read was preceded by an audit event of the successful
    authentication of the principal that the request's header names, and by an
    audit event of a decision that allows that principal a permission the
    source needs; and where authenticated principals hold valid bindings, the
    principal is of the tenant read and has a binding in force that grants the
    permission. *)
Theorem reads_follow_authorization scope s r s' :
  serve app scope s = (r, s') →
  ∃ t, sv_trace s' = sv_trace s ++ t ∧ secured scope t ∧
    ((∀ principal, authenticated scope principal → Forall binding_ok (pr_role_bindings principal)) →
     ∀ before what context after, t = before ++ Read what context :: after →
     ∃ principal permission us, authenticated scope principal ∧ permission ∈ permissions_for what ∧
       entitled principal context permission (Dt.Aware us)).
Proof.
  intros Hrun. enough (H : ∃ t, sv_trace s' = sv_trace s ++ t ∧ secured scope t).
  { destruct H as (t & Ht & Hs). exists t. split; [done|]. split; [done|]. intros Hok before what context after Heq.
    destruct (Hs _ _ _ _ Heq) as (p & permission & event & [Hauth _] & Hp & _ & _ & _ & _ & _ & us & d & Hd & Hall).
    exists p, permission, us. split; [done|]. split; [done|]. by eapply decide_entitled; [apply Hok| |]. }
  assert (Hnil : secured scope []) by by apply secured_readless.
  unfold serve in Hrun. destruct (negb (equals_str _ _)).
  { injection Hrun as <- <-. exists []. by rewrite app_nil_r. }
  revert Hrun. apply (λ H, H s r s'). unfold http_route. cbv zeta.
  destruct (negb (equals_str _ _)); [apply secured_respond|].
  apply (meets_after (raise_if _ _)); [destruct (negb _)|done|intros _].
  - eapply meets_weaken; [apply meets_raise|]. by intros r' t [_ ->].
  - eapply meets_weaken; [apply meets_ret|]. by intros r' t [_ ->].
  - destruct (default _ _); try apply secured_respond. case_bool_decide; [apply secured_respond|].
    case_bool_decide; [apply secured_readiness|]. destruct (negb _); [apply secured_respond|].
    apply secured_api_route.
Qed.
End Guarantees.

#[local] Instance no_floats : PyRepr := λ _, "0.0"%string.

(** The tenant's record is read, for a principal of that tenant. *)
Lemma reads_follow_authorization_witness : ∃ t,
  sv_trace (serve (sample_app false) (sample_scope "/v1/tenants/acme") idle).2 = t ∧
  secured (sample_app false) (sample_scope "/v1/tenants/acme") t ∧
  reads t = [(TENANT_RECORD, mkTenantContext (mkTenantId "acme"))].
Proof.
  destruct (serve (sample_app false) (sample_scope "/v1/tenants/acme") idle) as [r s'] eqn:Hrun.
  destruct (reads_follow_authorization (sample_app false) (sample_scope "/v1/tenants/acme") idle r s' Hrun)
    as (t & Ht & Hs & _).
  exists t. split; [exact Ht|]. split; [exact Hs|].
  assert (Hreads : reads (sv_trace (serve (sample_app false) (sample_scope "/v1/tenants/acme") idle).2) =
    [(TENANT_RECORD, mkTenantContext (mkTenantId "acme"))]) by (vm_compute; reflexivity).
  rewrite Hrun in Hreads. cbn [snd] in Hreads. rewrite Ht in Hreads. exact Hreads.
Defined.
