(* ===== verification/Persistence.v ===== *)
(** * The identity, tenancy, policy and audit tables

    Models [persistence/postgres.py]: the SQL repositories of the control
    plane, over the tables of migrations 0001 and 0002.  Row-level security is
    part of the model: an ordinary statement sees the rows of the tenant that
    the transaction has set; only [lookup_identity_by_subject] sees all. *)

From stdpp Require Import base gmap sets list strings.
From Stdlib Require Import ZArith Lia.
From S2P Require Import Prelude PyLib Json Events Identity Amounts Database EventStore.
From S2P Require Import Authentication Policy AuditTrail.

Local Open Scope Z_scope.

(** ** Tables *)

Record TenantRow : Type := mkTenantRow {
  te_display_name : string;
  te_enabled : bool;
}.

(** A row of [identities]; [None] is SQL NULL. *)
Record IdentityRow : Type := mkIdentityRow {
  id_identity_id : uuid;
  id_tenant_id : string;
  id_issuer : string;
  id_subject : string;
  id_identity_kind : string;
  id_user_id : option string;
  id_service_identity : option string;
  id_enabled : bool;
}.

Record RoleBindingRow : Type := mkRoleBindingRow {
  br_tenant_id : string;
  br_identity_id : uuid;
  br_role : string;
  br_assigned_by : option string;
  br_assigned_by_kind : option string;
  br_assigned_at : Z;
  br_expires_at : option Z;
  br_revoked_at : option Z;
}.

Record PolicyRow : Type := mkPolicyRow {
  po_policy_version : string;
  po_policy_document : pyval;
}.

(** A row of [security_audit_events]; [sequence_number] is its place. *)
Record AuditRow : Type := mkAuditRow {
  au_event_id : uuid;
  au_tenant_id : string;
  au_event_type : string;
  au_schema_version : Z;
  au_occurred_at : Z;
  au_outcome : string;
  au_actor_id : string;
  au_action : string;
  au_resource : string;
  au_correlation_id : uuid;
  au_details : pydict;
}.

Record Governance : Type := mkGovernance {
  gv_tenants : gmap string TenantRow;
  gv_identities : list IdentityRow;
  gv_role_bindings : list RoleBindingRow;
  gv_policies : gmap string PolicyRow;
  gv_quotas : gmap string QuotaRow;
  gv_audit : list AuditRow;
}.

(** The policies of row-level security for a value of [aegis.tenant_id]. *)
Definition visible (setting : option string) (tenant : string) : bool :=
  bool_decide (setting = Some tenant).

Definition visible_key {R} (setting : option string) (kv : string * R) : Prop := visible setting kv.1.

Definition rls (setting : option string) (db : Governance) : Governance :=
  {| gv_tenants := filter (visible_key setting) (gv_tenants db);
     gv_identities := List.filter (λ r, visible setting (id_tenant_id r)) (gv_identities db);
     gv_role_bindings := List.filter (λ r, visible setting (br_tenant_id r)) (gv_role_bindings db);
     gv_policies := filter (visible_key setting) (gv_policies db);
     gv_quotas := filter (visible_key setting) (gv_quotas db);
     gv_audit := List.filter (λ r, visible setting (au_tenant_id r)) (gv_audit db) |}.

(** ** Connections

    A connection: the committed tables and the changes of the transaction,
    the setting [aegis.tenant_id], and which round trips to the server fail. *)
Record Connection : Type := mkConnection {
  cn_db : Governance;
  cn_tenant : option string;
  cn_trips : nat;
  cn_failure : nat → option psycopg_class;
}.

Abbreviation Sql := (M exn Connection).

Definition with_db (db : Governance) (c : Connection) : Connection :=
  mkConnection db (cn_tenant c) (cn_trips c) (cn_failure c).
Definition with_tenant (tenant : option string) (c : Connection) : Connection :=
  mkConnection (cn_db c) tenant (cn_trips c) (cn_failure c).

(** One round trip to the server. *)
Definition trip {A} (m : Sql A) : Sql A := λ c,
  let c' := mkConnection (cn_db c) (cn_tenant c) (S (cn_trips c)) (cn_failure c) in
  match cn_failure c (cn_trips c) with
  | Some x => (inl (PsycopgError x), c')
  | None => m c'
  end.

(** A SELECT under row-level security. *)
Definition select {A} (f : Governance → A) : Sql A :=
  trip (gets (λ c, f (rls (cn_tenant c) (cn_db c)))).

Definition set_config (tenant : string) : Sql unit := trip (modify (with_tenant (Some tenant))).

(** [connection.transaction()]: BEGIN, the block, COMMIT; an exception of
    any of them rolls back, and the local setting ends with the transaction. *)
Definition sql_transaction {A} (body : Sql A) : Sql A := λ c,
  match (do! trip (ret tt) ;; let! a := body in do! trip (ret tt) ;; ret a) c with
  | (inr a, c') => (inr a, with_tenant (cn_tenant c) c')
  | (inl e, c') => (inl e, with_db (cn_db c) (with_tenant (cn_tenant c) c'))
  end.

Definition _set_tenant (context : TenantContext) : Sql unit := set_config (ctx_str context).

Definition _tenant_transaction {A} (context : TenantContext) (body : Sql A) : Sql A :=
  sql_transaction (do! _set_tenant context ;; body).

(** [_CONNECTION_LOCKS]: the locks by the identity of their connection. *)
Record LockTable : Type := mkLockTable {
  lt_locks : gmap nat nat;
  lt_fresh : nat;
}.

Definition _connection_lock (connection : nat) : M exn LockTable nat :=
  let! lock := gets (λ t, lt_locks t !! connection) in
  match lock with
  | Some lock => ret lock
  | None =>
      let! fresh := gets lt_fresh in
      do! modify (λ t, mkLockTable (<[connection := fresh]> (lt_locks t)) (S fresh)) ;;
      ret fresh
  end.

(** ** Tenants *)

Definition tenant_of_row (tenant : string) (r : TenantRow) : result Tenant :=
  let? id := TenantId_new tenant in
  Tenant_post_init (mkTenant id (te_display_name r) (te_enabled r)).

Definition PostgresTenantRepository_get (context : TenantContext) : Sql (option Tenant) :=
  let! row := storage_guard (_tenant_transaction context
                (select (λ db, gv_tenants db !! ctx_str context))) in
  match row with
  | None => ret None
  | Some r => let! tenant := lift (tenant_of_row (ctx_str context) r) in ret (Some tenant)
  end.

(** ** Identities *)

#[export] Instance PrincipalKind_constant : StringConstant PrincipalKind := {
  sc_value k := match k with PK_USER => "user" | PK_SERVICE => "service" end%string;
  sc_members := [PK_USER; PK_SERVICE];
}.

#[export] Instance PrincipalKind_ok : StringConstantOk PrincipalKind.
Proof. solve_string_constant. Qed.

(** The SECURITY DEFINER function: it reads the table of every tenant. *)
Definition lookup_identity_by_subject (issuer subject : string) (db : Governance) : option IdentityRow :=
  find (λ r, bool_decide (id_issuer r = issuer) && bool_decide (id_subject r = subject)) (gv_identities db).

(** [ORDER BY assigned_at, role] *)
Definition binding_leb (a b : RoleBindingRow) : bool :=
  (br_assigned_at a <? br_assigned_at b)
  || (br_assigned_at a =? br_assigned_at b) && PyStr.str_leb (br_role a) (br_role b).

Definition select_bindings (tenant : string) (identity : uuid) (db : Governance) : list RoleBindingRow :=
  py_sorted binding_leb
    (List.filter (λ r, bool_decide (br_tenant_id r = tenant) && bool_decide (br_identity_id r = identity))
       (gv_role_bindings db)).

Definition _role_binding_from_row (tenant_id : TenantId) (row : RoleBindingRow) : result RoleBinding :=
  match br_assigned_by row, br_assigned_by_kind row with
  | Some by_raw, Some by_kind =>
      let? assigned_by :=
        if bool_decide (by_kind = "service"%string)
        then let? s := ServiceIdentity_new by_raw in inr (inr s)
        else let? u := UserId_new by_raw in inr (inl u) in
      let? role := sc_new (br_role row) in
      RoleBinding_post_init
        (mkRoleBinding tenant_id role assigned_by (Dt.Aware (br_assigned_at row))
           (Dt.Aware <$> br_expires_at row) (Dt.Aware <$> br_revoked_at row))
  | _, _ => inl (PermanentStorageError "role binding assigned_by fields must be strings")
  end.

(** [C(value) if value is not None else None] *)
Definition optional {A B} (f : A → result B) (o : option A) : result (option B) :=
  match o with Some a => let? b := f a in inr (Some b) | None => inr None end.

(** The block of [resolve]: the identity, its tenant and its bindings. *)
Definition resolve_rows (claims : VerifiedClaims) : Sql (IdentityRow * TenantId * list RoleBindingRow) :=
  let! identity := trip (gets (λ c, lookup_identity_by_subject (vc_issuer claims) (vc_subject claims) (cn_db c))) in
  match identity with
  | None => raise (AuthenticationError UNKNOWN_IDENTITY)
  | Some identity =>
      do! raise_if (negb (id_enabled identity)) (AuthenticationError IDENTITY_DISABLED) ;;
      let! stored_tenant_id := lift (TenantId_new (id_tenant_id identity)) in
      do! raise_if (match vc_asserted_tenant_id claims with
                    | Some t => negb (bool_decide (t = stored_tenant_id))
                    | None => false
                    end) (AuthenticationError TENANT_MISMATCH) ;;
      do! set_config (tid_value stored_tenant_id) ;;
      let! bindings := select (select_bindings (tid_value stored_tenant_id) (id_identity_id identity)) in
      ret (identity, stored_tenant_id, bindings)
  end.

Definition principal_of_rows (claims : VerifiedClaims) (identity : IdentityRow) (tenant_id : TenantId)
    (bindings : list RoleBindingRow) : result Principal :=
  let? kind := sc_new (id_identity_kind identity) in
  let? role_bindings := map_result (_role_binding_from_row tenant_id) bindings in
  let? user_id := optional UserId_new (id_user_id identity) in
  let? service_identity := optional ServiceIdentity_new (id_service_identity identity) in
  Principal_post_init
    (mkPrincipal (vc_subject claims) (vc_issuer claims) tenant_id kind role_bindings user_id service_identity).

Definition PostgresIdentityDirectory_resolve (claims : VerifiedClaims) : Sql Principal :=
  let! found := storage_guard (sql_transaction (resolve_rows claims)) in
  lift (principal_of_rows claims found.1.1 found.1.2 found.2).

(** ** Policies *)

Fixpoint nonempty_strings (l : list pyval) : option (list string) :=
  match l with
  | [] => Some []
  | PStr s :: l' => if PyStr.is_empty s then None else (s ::.) <$> nonempty_strings l'
  | _ => None
  end.

Definition _string_set (document : pydict) (key : string) (default : option (gset string))
    : result (gset string) :=
  let refused := inl (ValueError (key +:+ " must be a list of strings")) in
  match dict_get key document with
  | Some (PList l) =>
      match nonempty_strings l with Some ss => inr (list_to_set ss) | None => refused end
  | Some _ => refused
  | None => match default with Some d => inr d | None => refused end
  end.

Definition _required_int (document : pydict) (key : string) : result Z :=
  match dict_get key document with
  | None => inl (KeyError key)
  | Some (PInt z) => inr z
  | Some _ => inl (ValueError (key +:+ " must be an integer"))
  end.

(** [value == default] also holds of a number equal to the boolean. *)
Definition _required_bool (document : pydict) (key : string) (default : option bool) : result bool :=
  let refused := inl (ValueError (key +:+ " must be a boolean")) in
  match dict_get key document, default with
  | Some (PBool b), _ => inr b
  | Some v, Some d => if equals_int (Some v) (if d then 1 else 0) then inr d else refused
  | Some _, None => refused
  | None, Some d => inr d
  | None, None => refused
  end.

(** [RiskLevel(value)] *)
Definition RiskLevel_new (z : Z) : result RiskLevel :=
  match find (λ r, risk_value r =? z) [LOW; MEDIUM; HIGH; CRITICAL] with
  | Some r => inr r
  | None => inl (ValueError "not a valid RiskLevel")
  end.

Definition required_risk (document : pydict) (key : string) : result RiskLevel :=
  let? z := _required_int document key in RiskLevel_new z.

(** The body of the [try]: the policy a row of the join describes. *)
Definition policy_of_row (tenant_id : TenantId) (version : string) (document : pydict) (q : QuotaRow)
    : result TenantPolicy :=
  let? models := _string_set document "allowed_models" None in
  let? tools := _string_set document "allowed_tools" None in
  let? connectors := _string_set document "allowed_connectors" None in
  let? environments := _string_set document "allowed_environments" None in
  let? risk := required_risk document "max_risk" in
  let? approval := required_risk document "approval_from_risk" in
  let? with_approval := _string_set document "tools_requiring_approval" None in
  let? approvers := _string_set document "approver_roles" None in
  let? roles := map_result sc_new (elements approvers) in
  let? limits := QuotaLimits_post_init
    (mkQuotaLimits (qr_max_run_tokens q) (of_numeric 6 (qr_max_run_cost_usd q))
       (qr_max_tenant_tokens_per_period q) (of_numeric 6 (qr_max_tenant_cost_usd_per_period q))
       (qr_max_concurrent_runs q)) in
  let? providers := _string_set document "allowed_providers" (Some ∅) in
  let? residencies := _string_set document "allowed_data_residencies" (Some ∅) in
  let? retention := _required_bool document "allow_provider_retention" (Some false) in
  TenantPolicy_post_init
    (mkTenantPolicy tenant_id version models tools connectors environments risk approval with_approval
       roles limits providers residencies retention).

(** [except (KeyError, TypeError, ValueError)] *)
Definition except_schema (e : exn) : bool :=
  match e with KeyError _ | TypeError _ | ValueError _ => true | _ => false end.

Definition invalid_schema : exn := PermanentStorageError "policy document has an invalid schema".

Definition read_policy (tenant_id : TenantId) (p : PolicyRow) (q : QuotaRow) : result TenantPolicy :=
  match po_policy_document p with
  | PDict document =>
      match policy_of_row tenant_id (po_policy_version p) document q with
      | inl e => if except_schema e then inl invalid_schema else inl e
      | inr policy => inr policy
      end
  | _ => inl (PermanentStorageError "policy document must be a JSON object")
  end.

Definition PostgresPolicyRepository_get (context : TenantContext) : Sql (option TenantPolicy) :=
  let! row := storage_guard (_tenant_transaction context
                (select (λ db, p ← gv_policies db !! ctx_str context;
                               q ← gv_quotas db !! ctx_str context; Some (p, q)))) in
  match row with
  | None => ret None
  | Some (p, q) =>
      let! policy := lift (read_policy (ctx_tenant_id context) p q) in ret (Some policy)
  end.

(** ** Audit events *)

(** What a [jsonb] column holds of a mapping: [json.dumps] in the driver and
    the server may refuse it. *)
Class JsonColumn : Type := json_column : pydict → result pydict.

(** Members in their thawed form. *)
Definition thaw_mapping (d : pydict) : pydict := map (λ '(k, item), (k, thaw_json item)) d.

Definition audit_row (event : AuditEvent) (details : pydict) : AuditRow :=
  {| au_event_id := ae_event_id event;
     au_tenant_id := tid_value (ae_tenant_id event);
     au_event_type := sc_value (ae_event_type event);
     au_schema_version := ae_schema_version event;
     au_occurred_at := Dt.us (ae_occurred_at event);
     au_outcome := sc_value (ae_outcome event);
     au_actor_id := ae_actor_id event;
     au_action := ae_action event;
     au_resource := ae_resource event;
     au_correlation_id := ae_correlation_id event;
     au_details := details |}.

(** The constraints of the table, and the check of row-level security. *)
Definition audit_row_check (setting : option string) (db : Governance) (r : AuditRow) : bool :=
  visible setting (au_tenant_id r)
  && negb (existsb (λ old, bool_decide (au_event_id old = au_event_id r)) (gv_audit db))
  && bool_decide (is_Some (gv_tenants db !! au_tenant_id r))
  && (0 <? au_schema_version r)
  && negb (PyStr.is_empty (au_actor_id r) || PyStr.is_empty (au_action r) || PyStr.is_empty (au_resource r)).

Definition add_audit_row (r : AuditRow) (db : Governance) : Governance :=
  mkGovernance (gv_tenants db) (gv_identities db) (gv_role_bindings db) (gv_policies db) (gv_quotas db)
    (gv_audit db ++ [r]).

Definition insert_audit_row (r : AuditRow) : Sql unit :=
  trip (let! ok := gets (λ c, audit_row_check (cn_tenant c) (cn_db c) r) in
        do! raise_if (negb ok) violates ;;
        modify (λ c, with_db (add_audit_row r (cn_db c)) c)).

Definition PostgresAuditStore_append {Column : JsonColumn} (context : TenantContext) (event : AuditEvent)
    : Sql unit :=
  do! raise_if (negb (bool_decide (ctx_tenant_id context = ae_tenant_id event)))
        (ValueError "audit event tenant does not match trusted context") ;;
  storage_guard (_tenant_transaction context
    (let! details := lift (json_column (thaw_mapping (ae_details event))) in
     insert_audit_row (audit_row event details))).

Definition event_of_row (r : AuditRow) : result AuditEvent :=
  let? tenant_id := TenantId_new (au_tenant_id r) in
  let? event_type := sc_new (au_event_type r) in
  let? outcome := sc_new (au_outcome r) in
  AuditEvent_post_init
    (mkAuditEvent (au_event_id r) tenant_id event_type (Dt.Aware (au_occurred_at r)) outcome (au_actor_id r)
       (au_action r) (au_resource r) (au_correlation_id r) (au_details r) (au_schema_version r)).

(** [WHERE tenant_id = %s ORDER BY sequence_number DESC LIMIT %s] *)
Definition select_audit (tenant : string) (limit : Z) (db : Governance) : list AuditRow :=
  take (Z.to_nat limit)
    (rev (List.filter (λ r, bool_decide (au_tenant_id r = tenant)) (gv_audit db))).

Definition PostgresAuditStore_query (context : TenantContext) (limit : Z) : Sql (list AuditEvent) :=
  do! raise_if (negb ((1 <=? limit) && (limit <=? 1000)))
        (ValueError "audit query limit must be between 1 and 1000") ;;
  let! rows := storage_guard (_tenant_transaction context (select (select_audit (ctx_str context) limit))) in
  lift (map_result event_of_row (rev rows)).
