(* ===== verification/PersistenceTheorems.v ===== *)
(** * Theorems about the identity, tenancy, policy and audit tables

    What the SQL repositories answer: what the in-memory ones would, or a
    storage error with the tables untouched. *)

From stdpp Require Import base gmap sets list strings.
From Stdlib Require Import ZArith Lia.
From S2P Require Import Prelude PyLib Json Events Identity Amounts Database EventStore Ledger Raises.
From S2P Require Import Authentication Policy AuditTrail Persistence.

Local Open Scope Z_scope.

(** ** What an operation does

    [serves s m r s']: on a connection at [s], [m] ends with [r] at [s'] or,
    where round trips fail, with a storage error at [s]. *)

Abbreviation state := (Governance * option string)%type.

Definition at_state (c : Connection) (s : state) : Prop := cn_db c = s.1 ∧ cn_tenant c = s.2.
Definition healthy (c : Connection) : Prop := ∀ n, cn_failure c n = None.

Definition serves {A} (s : state) (m : Sql A) (r : result A) (s' : state) : Prop := ∀ c, at_state c s →
  ∃ r' c', m c = (r', c') ∧
    ((r' = r ∧ at_state c' s') ∨
     (¬ healthy c ∧ at_state c' s ∧ ∃ x, r' = inl (classify_storage_error x))).

(** The same within a transaction, where a failure leaves any state. *)
Definition runs {A} (s : state) (m : Sql A) (r : result A) (s' : state) : Prop := ∀ c, at_state c s →
  ∃ r' c', m c = (r', c') ∧ cn_failure c' = cn_failure c ∧
    ((r' = r ∧ at_state c' s') ∨ (¬ healthy c ∧ ∃ x, r' = inl (PsycopgError x))).

Section Rules.
Implicit Types s : state.

Lemma runs_exact {A} s (m : Sql A) r s' :
  (∀ c, at_state c s → ∃ c', m c = (r, c') ∧ cn_failure c' = cn_failure c ∧ at_state c' s') → runs s m r s'.
Proof. intros Hm c Hc. destruct (Hm c Hc) as (c' & Hrun & Hf & Hs). exists r, c'. by split_and!; [..|left]. Qed.

Lemma runs_ret {A} s (a : A) : runs s (ret a) (inr a) s.
Proof. apply runs_exact. intros c Hc. by exists c. Qed.
Lemma runs_raise {A} s e : runs (A := A) s (raise e) (inl e) s.
Proof. apply runs_exact. intros c Hc. by exists c. Qed.
Lemma runs_lift {A} s (r : result A) : runs s (lift r) r s.
Proof. apply runs_exact. intros c Hc. by exists c. Qed.
Lemma runs_raise_if s b e : runs s (raise_if b e) (reject_if b e) s.
Proof. destruct b; [apply runs_raise|apply runs_ret]. Qed.

Lemma runs_bind {A B} s m (k : A → Sql B) a s1 r s' :
  runs s m (inr a) s1 → runs s1 (k a) r s' → runs s (bind m k) r s'.
Proof.
  intros Hm Hk c Hc. destruct (Hm c Hc) as (r1 & c1 & Hrun & Hf & [[-> Hc1]|(Hbad & x & ->)]).
  - destruct (Hk c1 Hc1) as (r' & c' & Hrun' & Hf' & Hend). exists r', c'. unfold bind. rewrite Hrun.
    split; [done|]. split; [congruence|]. destruct Hend as [Hok|[Hbad Hx]]; [by left|right].
    split; [|done]. intros Hh. apply Hbad. intros n. rewrite Hf. apply Hh.
  - exists (inl (PsycopgError x)), c1. unfold bind. rewrite Hrun. split; [done|]. split; [done|]. right. eauto.
Qed.

Lemma runs_bind_err {A B} s m (k : A → Sql B) e s' : runs s m (inl e) s' → runs s (bind m k) (inl e) s'.
Proof.
  intros Hm c Hc. destruct (Hm c Hc) as (r1 & c1 & Hrun & Hf & [[-> Hc1]|(Hbad & x & ->)]);
    eexists _, c1; unfold bind; rewrite Hrun; (split; [reflexivity|]); (split; [done|]); [by left|].
  right. eauto.
Qed.

Lemma runs_trip {A} s (m : Sql A) r s' : runs s m r s' → runs s (trip m) r s'.
Proof.
  intros Hm c Hc. unfold trip. destruct (cn_failure c (cn_trips c)) as [x|] eqn:Hx.
  - eexists _, _. split; [reflexivity|]. split; [done|]. right. split; [|by exists x].
    intros H. by rewrite H in Hx.
  - apply (Hm (mkConnection (cn_db c) (cn_tenant c) (S (cn_trips c)) (cn_failure c)) Hc).
Qed.

Lemma runs_select {A} db tenant (f : Governance → A) :
  runs (db, tenant) (select f) (inr (f (rls tenant db))) (db, tenant).
Proof.
  apply runs_trip, runs_exact. intros c [Hdb Ht]. exists c. cbn [fst snd] in *. unfold gets. by rewrite Hdb, Ht.
Qed.

Lemma runs_gets {A} s (f : Connection → A) a : (∀ c, at_state c s → f c = a) → runs s (gets f) (inr a) s.
Proof. intros Hf. apply runs_exact. intros c Hc. exists c. unfold gets. by rewrite Hf. Qed.

Lemma runs_set_config db tenant t : runs (db, tenant) (set_config t) (inr tt) (db, Some t).
Proof. apply runs_trip, runs_exact. intros c [Hdb Ht]. by eexists. Qed.

(** A transaction commits what its body did, or undoes it. *)
Definition committed {A} s (r : result A) s' : state :=
  match r with inr _ => (s'.1, s.2) | inl _ => s end.

(** [except psycopg.Error] *)
Definition classified {A} (r : result A) : result A :=
  match r with inl (PsycopgError x) => inl (classify_storage_error x) | r => r end.

Lemma serves_transaction {A} s (m : Sql A) r s' :
  runs s m r s' → serves s (storage_guard (sql_transaction m)) (classified r) (committed s r s').
Proof.
  intros Hm c Hc.
  assert (Hall : runs s (do! trip (ret tt) ;; let! a := m in do! trip (ret tt) ;; ret a) r s').
  { eapply runs_bind; [apply runs_trip, runs_ret|]. destruct r as [e|a]; [by apply runs_bind_err|].
    eapply runs_bind; [exact Hm|]. eapply runs_bind; [apply runs_trip, runs_ret|]. apply runs_ret. }
  destruct (Hall c Hc) as (r' & c' & Hrun & Hf & Hend). unfold storage_guard, catch, sql_transaction.
  rewrite Hrun. destruct Hc as [Hdb Ht]. destruct Hend as [[-> [Hdb' Ht']]|(Hbad & x & ->)].
  - destruct r as [e|a]; [|by eexists _, _; split; [reflexivity|left]].
    eexists (classified (inl e)), _. split; [by destruct e|]. by left.
  - eexists _, _. split; [reflexivity|]. right. split; [done|]. split; [done|]. by exists x.
Qed.

Lemma serves_tenant {A} db tenant context (m : Sql A) r s' :
  runs (db, Some (ctx_str context)) m r s' →
  serves (db, tenant) (storage_guard (_tenant_transaction context m)) (classified r)
    (committed (db, tenant) r s').
Proof. intros Hm. apply serves_transaction. eapply runs_bind; [apply runs_set_config|exact Hm]. Qed.

(** What is computed from the rows after the transaction. *)
Lemma serves_lift {A B} s m (r : result A) s' (f : A → result B) :
  serves s m r s' → serves s (let! a := m in lift (f a)) (rbind r f) s'.
Proof.
  intros Hm c Hc. destruct (Hm c Hc) as (r' & c' & Hrun & Hend). unfold bind. rewrite Hrun.
  destruct Hend as [[-> Hs]|(Hbad & Hs & x & ->)].
  - destruct r as [e|a]; eexists _, c'; (split; [reflexivity|]); by left.
  - eexists _, c'. split; [reflexivity|]. right. eauto.
Qed.

(** A read under the tenant of a context. *)
Lemma serves_read {A B} db tenant context (f : Governance → A) (g : A → result B) :
  serves (db, tenant) (let! a := storage_guard (_tenant_transaction context (select f)) in lift (g a))
    (g (f (rls (Some (ctx_str context)) db))) (db, tenant).
Proof. apply (serves_lift _ _ _ _ g (serves_tenant db tenant context _ _ _ (runs_select _ _ f))). Qed.

Lemma serves_guard {A} s b e (m : Sql A) r s' : (b = false → serves s m r s') →
  serves s (do! raise_if b e ;; m) (if b then inl e else r) (if b then s else s').
Proof.
  intros Hm c Hc. destruct b; [|by apply (Hm eq_refl)]. exists (inl e), c. split; [done|]. by left.
Qed.

Lemma serves_ext {A} s (m m' : Sql A) r r' s' s'' :
  (∀ c, m c = m' c) → r = r' → s' = s'' → serves s m r s' → serves s m' r' s''.
Proof. intros Hm -> -> H c Hc. rewrite <- Hm. by apply H. Qed.
End Rules.

(** ** Visible rows *)

Lemma visible_own tenant : visible (Some tenant) tenant = true.
Proof. by apply bool_decide_true. Qed.

Lemma visible_lookup {R} (m : gmap string R) tenant : filter (visible_key (Some tenant)) m !! tenant = m !! tenant.
Proof.
  destruct (m !! tenant) as [x|] eqn:Hx.
  - apply map_lookup_filter_Some. split; [done|]. unfold visible_key. cbn [fst]. by rewrite visible_own.
  - apply map_lookup_filter_None. by left.
Qed.

Lemma filter_visible {R} (f : R → bool) (g : R → bool) l :
  (∀ x, f x = true → g x = true) → List.filter f (List.filter g l) = List.filter f l.
Proof.
  intros Hfg. induction l as [|x l IH]; [done|]. cbn [List.filter].
  destruct (g x) eqn:Hg; cbn [List.filter].
  - destruct (f x); by rewrite IH.
  - destruct (f x) eqn:Hf; [by rewrite Hfg in Hg|done].
Qed.

Lemma tenant_id_new t : tenant_id_ok t → TenantId_new (tid_value t) = inr t.
Proof.
  intros (Hne & Hs & Hl). unfold TenantId_new, _validate_identifier, PyStr.str_eqb. rewrite Hs.
  apply PyStr.is_empty_false in Hne. rewrite Hne, bool_decide_true by done.
  rewrite (proj2 (Z.ltb_ge _ _)) by lia. cbn. by destruct t.
Qed.

(** ** Identities *)

(** The registration an identity row and its bindings describe. *)
Definition record_of_row (db : Governance) (row : IdentityRow) : result IdentityRecord :=
  let? tenant_id := TenantId_new (id_tenant_id row) in
  let? kind := sc_new (id_identity_kind row) in
  let? bindings := map_result (_role_binding_from_row tenant_id)
                     (select_bindings (id_tenant_id row) (id_identity_id row) db) in
  let? user_id := optional UserId_new (id_user_id row) in
  let? service_identity := optional ServiceIdentity_new (id_service_identity row) in
  IdentityRecord_post_init
    (mkIdentityRecord (id_issuer row) (id_subject row) tenant_id kind bindings (id_enabled row) user_id
       service_identity).

(** The directory the tables hold. *)
Definition holds_directory (db : Governance) (directory : Directory) : Prop := ∀ issuer subject,
  match lookup_identity_by_subject issuer subject db with
  | Some row => ∃ r, record_of_row db row = inr r ∧ directory !! (issuer, subject) = Some r
  | None => directory !! (issuer, subject) = None
  end.

Lemma select_bindings_own tenant identity db :
  select_bindings tenant identity (rls (Some tenant) db) = select_bindings tenant identity db.
Proof.
  unfold select_bindings. f_equal. apply filter_visible. intros r Hr. bool_props.
  by apply bool_decide_true; f_equal.
Qed.

(** What a row resolves to: the disabled and mismatched refusals, then the
    principal. *)
Definition admitted (claims : VerifiedClaims) (row : IdentityRow) (tenant_id : TenantId) : result unit :=
  raise! AuthenticationError IDENTITY_DISABLED when! negb (id_enabled row) ;;
  reject_if (match vc_asserted_tenant_id claims with
             | Some t => negb (bool_decide (t = tenant_id))
             | None => false
             end) (AuthenticationError TENANT_MISMATCH).

Lemma TenantId_value v t : TenantId_new v = inr t → t = mkTenantId v.
Proof. intros H. apply TenantId_new_ok in H as [<- _]. by destruct t. Qed.

Lemma runs_resolve_rows db tenant claims row tenant_id :
  lookup_identity_by_subject (vc_issuer claims) (vc_subject claims) db = Some row →
  TenantId_new (id_tenant_id row) = inr tenant_id →
  ∃ s', s'.1 = db ∧ runs (db, tenant) (resolve_rows claims)
    (let? _ := admitted claims row tenant_id in
     inr (row, tenant_id, select_bindings (id_tenant_id row) (id_identity_id row) db)) s'.
Proof.
  intros Hrow Hid. pose proof (TenantId_value _ _ Hid) as ->. unfold admitted.
  destruct (id_enabled row) eqn:Hen; cbn [negb reject_if rbind].
  2: { exists (db, tenant). split; [done|]. eapply runs_bind.
       { apply runs_trip, runs_gets. intros c [-> _]. exact Hrow. }
       cbv beta iota. rewrite Hen. apply runs_bind_err, runs_raise. }
  set (mismatch := match vc_asserted_tenant_id claims with Some t => _ | None => false end).
  exists (if mismatch then (db, tenant) else (db, Some (id_tenant_id row))). split; [by destruct mismatch|].
  eapply runs_bind. { apply runs_trip, runs_gets. intros c [-> _]. exact Hrow. }
  cbv beta iota. rewrite Hen. eapply runs_bind; [apply runs_ret|]. rewrite Hid. eapply runs_bind; [apply runs_lift|].
  fold mismatch. destruct mismatch; cbn [reject_if rbind].
  - apply runs_bind_err, runs_raise.
  - eapply runs_bind; [apply runs_ret|]. eapply runs_bind; [apply runs_set_config|].
    eapply runs_bind; [apply runs_select|]. cbn [tid_value]. rewrite select_bindings_own. apply runs_ret.
Qed.

(** A record that exists gives the same principal in both directories. *)
Lemma principal_of_record db claims row tenant_id r :
  TenantId_new (id_tenant_id row) = inr tenant_id → record_of_row db row = inr r →
  id_issuer row = vc_issuer claims → id_subject row = vc_subject claims →
  ir_tenant_id r = tenant_id ∧ ir_enabled r = id_enabled row ∧
  principal_of_rows claims row tenant_id (select_bindings (id_tenant_id row) (id_identity_id row) db)
    = to_principal r.
Proof.
  intros Hid Hr Hi Hs. unfold record_of_row in Hr. rewrite Hid in Hr. cbn [rbind] in Hr.
  unfold principal_of_rows.
  destruct (sc_new (id_identity_kind row)) as [e|kind]; [done|]. cbn [rbind] in *.
  destruct (map_result _ _) as [e|bindings]; [done|]. cbn [rbind] in *.
  destruct (optional UserId_new _) as [e|user]; [done|]. cbn [rbind] in *.
  destruct (optional ServiceIdentity_new _) as [e|service]; [done|]. cbn [rbind] in *.
  unfold IdentityRecord_post_init in Hr. py_inv. cbn. by rewrite <- Hi, <- Hs.
Qed.

(** A resolution is its block and what is built of the rows. *)
Lemma serves_resolve s claims r s' : runs s (resolve_rows claims) r s' →
  serves s (PostgresIdentityDirectory_resolve claims)
    (rbind (classified r) (λ found, principal_of_rows claims found.1.1 found.1.2 found.2)) (committed s r s').
Proof.
  intros Hrun.
  exact (serves_lift _ _ _ _ (λ found, principal_of_rows claims found.1.1 found.1.2 found.2)
           (serves_transaction _ _ _ _ Hrun)).
Qed.

(** C32. The SQL identity directory implements the in-memory one: over tables
    that hold a directory, resolving verified claims answers exactly what the
    in-memory directory answers - the principal with its bindings, or the same
    refusal - or, where the connection fails, reports a storage error; nothing
    is changed and the tenant setting does not outlive the call. *)
Theorem sql_directory_agrees db tenant directory claims :
  holds_directory db directory →
  serves (db, tenant) (PostgresIdentityDirectory_resolve claims) (resolve directory claims) (db, tenant).
Proof.
  intros Hdir. specialize (Hdir (vc_issuer claims) (vc_subject claims)). unfold resolve.
  destruct (lookup_identity_by_subject _ _ db) as [row|] eqn:Hrow.
  - destruct Hdir as (r & Hr & ->). apply find_some in Hrow as Hk. destruct Hk as [_ Hk]. bool_props.
    assert (∃ tenant_id, TenantId_new (id_tenant_id row) = inr tenant_id) as [tenant_id Hid].
    { unfold record_of_row in Hr. destruct (TenantId_new (id_tenant_id row)) as [e|t]; [done|by exists t]. }
    destruct (principal_of_record db claims row tenant_id r Hid Hr) as (Ht & Hen & Hp); [done|done|].
    destruct (runs_resolve_rows db tenant claims row tenant_id Hrow Hid) as (s' & Hdb & Hrun).
    apply serves_resolve in Hrun. unfold admitted in Hrun. rewrite Hen, Ht, <- Hp.
    destruct (id_enabled row); cbn [negb reject_if rbind] in *; [|exact Hrun].
    destruct (match vc_asserted_tenant_id claims with Some t => _ | None => false end);
      cbn [reject_if rbind] in *; [exact Hrun|by subst db].
  - rewrite Hdir. apply (serves_resolve _ _ (inl (AuthenticationError UNKNOWN_IDENTITY)) (db, tenant)).
    eapply (runs_bind _ _ _ None); [|apply runs_raise]. apply runs_trip, runs_gets. by intros c [-> _].
Qed.

(** ** Policies *)

(** Every exception of reading a document is one the [except] clause names. *)
Abbreviation schema_error := (raises_result (λ e, except_schema e = true)).

#[local] Hint Extern 2 (except_schema _ = true) => reflexivity : raises.

Lemma string_set_errors document key default : schema_error (_string_set document key default).
Proof.
  unfold _string_set. destruct (dict_get key document) as [[]|]; eauto with raises.
Qed.

Lemma required_bool_errors document key default : schema_error (_required_bool document key default).
Proof.
  unfold _required_bool. destruct (dict_get key document) as [[]|], default; cbv zeta; eauto with raises;
    destruct (equals_int _ _); eauto with raises.
Qed.

Lemma required_risk_errors document key : schema_error (required_risk document key).
Proof.
  unfold required_risk, _required_int, RiskLevel_new.
  apply raises_rbind; [destruct (dict_get key document) as [[]|]|intros z; destruct (find _ _)]; eauto with raises.
Qed.

Lemma constant_errors {T} `{StringConstant T} (v : string) : schema_error (sc_new v).
Proof. unfold sc_new. destruct (find _ _); eauto with raises. Qed.

Lemma finite_cost_errors n name : schema_error (_require_finite_non_negative_decimal (of_numeric 6 n) name).
Proof.
  unfold _require_finite_non_negative_decimal.
  destruct n as [units|]; cbn [of_numeric is_finite negb reject_if rbind]; eauto 6 with raises.
Qed.

#[local] Hint Resolve string_set_errors required_bool_errors required_risk_errors constant_errors
  finite_cost_errors : raises.

Lemma policy_of_row_errors tenant_id version document q : schema_error (policy_of_row tenant_id version document q).
Proof.
  unfold policy_of_row, QuotaLimits_post_init, TenantPolicy_post_init.
  repeat (apply raises_rbind; [eauto 6 with raises|intros ?]); eauto 6 with raises.
Qed.

Lemma read_policy_errors tenant_id p q e :
  read_policy tenant_id p q = inl e → ∃ message, e = PermanentStorageError message.
Proof.
  unfold read_policy. destruct (po_policy_document p); try (intros [= <-]; by eexists).
  destruct (policy_of_row _ _ _ _) as [x|policy] eqn:Hx; [|done].
  rewrite (policy_of_row_errors _ _ _ _ _ Hx). intros [= <-]. by eexists.
Qed.

(** A set of the policy is the document's list of non-empty strings, or empty
    where the document may leave it out. *)
Definition lists (document : pydict) (key : string) (required : bool) (set : gset string) : Prop :=
  (∃ l, dict_get key document = Some (PList (map PStr l)) ∧ ("" ∉ l)%string ∧ set = list_to_set l)
  ∨ (required = false ∧ dict_get key document = None ∧ set = ∅).

Lemma nonempty_strings_ok l ss : nonempty_strings l = Some ss → l = map PStr ss ∧ ("" ∉ ss)%string.
Proof.
  revert ss. induction l as [|v l IH]; intros ss; cbn [nonempty_strings].
  { intros [= <-]. split; [done|]. apply not_elem_of_nil. }
  destruct v; try done. destruct (PyStr.is_empty s) eqn:Hs; [done|].
  destruct (nonempty_strings l) as [rest|]; [|done]. intros [= <-].
  destruct (IH rest eq_refl) as [-> Hr]. split; [done|]. apply PyStr.is_empty_false in Hs.
  intros [?|?]%elem_of_cons; [by subst|done].
Qed.

Lemma string_set_lists document key default set :
  _string_set document key default = inr set → default = None ∨ default = Some ∅ →
  lists document key (bool_decide (default = None)) set.
Proof.
  unfold _string_set, lists. intros Hs Hd.
  destruct (dict_get key document) as [[]|]; try done.
  - destruct (nonempty_strings l) as [ss|] eqn:Hl; [|done]. injection Hs as <-.
    apply nonempty_strings_ok in Hl as [-> ?]. left. by exists ss.
  - destruct default as [d|]; [|done]. injection Hs as ->. right. destruct Hd as [?|[= ->]]; [done|].
    by rewrite bool_decide_false.
Qed.

Lemma required_risk_ok document key r :
  required_risk document key = inr r → dict_get key document = Some (PInt (risk_value r)).
Proof.
  unfold required_risk, _required_int, RiskLevel_new. destruct (dict_get key document) as [[]|]; try done.
  cbn [rbind]. destruct (find _ _) as [r'|] eqn:Hf; [|done]. intros [= <-]. apply find_some in Hf as [_ Hf].
  apply Z.eqb_eq in Hf. by subst.
Qed.

Lemma retention_ok document key b : _required_bool document key (Some false) = inr b →
  (b = true ↔ dict_get key document = Some (PBool true)).
Proof.
  unfold _required_bool. destruct (dict_get key document) as [[]|]; cbv zeta;
    try (intros [= <-]; naive_solver); destruct (equals_int _ _); intros; naive_solver.
Qed.

Lemma roles_ok (approvers : gset string) roles :
  map_result sc_new (elements approvers) = inr roles → ∀ role : Role, role ∈ roles ↔ sc_value role ∈ approvers.
Proof.
  intros Hr role. apply map_result_ok in Hr. rewrite <- elem_of_elements. split.
  - intros Hin. apply list_elem_of_lookup in Hin as (i & Hi).
    destruct (Forall2_lookup_r _ _ _ _ _ Hr Hi) as (v & Hv & Hnew). apply sc_new_inv in Hnew. subst v.
    by eapply list_elem_of_lookup_2.
  - intros Hin. apply list_elem_of_lookup in Hin as (i & Hi).
    destruct (Forall2_lookup_l _ _ _ _ _ Hr Hi) as (role' & Hv & Hnew). rewrite sc_new_value in Hnew.
    injection Hnew as <-. by eapply list_elem_of_lookup_2.
Qed.

(** The policy says what its document and its quota row say. *)
Record describes (tenant_id : TenantId) (p : PolicyRow) (q : QuotaRow) (document : pydict)
    (policy : TenantPolicy) : Prop := {
  ds_document : po_policy_document p = PDict document;
  ds_tenant : tp_tenant_id policy = tenant_id;
  ds_version : tp_version policy = po_policy_version p ∧ tp_version policy ≠ ""%string;
  ds_models : lists document "allowed_models" true (allowed_models policy);
  ds_tools : lists document "allowed_tools" true (allowed_tools policy);
  ds_connectors : lists document "allowed_connectors" true (allowed_connectors policy);
  ds_environments : lists document "allowed_environments" true (allowed_environments policy);
  ds_risk : dict_get "max_risk" document = Some (PInt (risk_value (max_risk policy)));
  ds_approval : dict_get "approval_from_risk" document = Some (PInt (risk_value (approval_from_risk policy)));
  ds_with_approval : lists document "tools_requiring_approval" true (tools_requiring_approval policy);
  ds_approvers : approver_roles policy ≠ [] ∧ ∃ approvers, lists document "approver_roles" true approvers ∧
                 ∀ role, role ∈ approver_roles policy ↔ sc_value role ∈ approvers;
  ds_quotas : quotas policy = mkQuotaLimits (qr_max_run_tokens q) (of_numeric 6 (qr_max_run_cost_usd q))
                (qr_max_tenant_tokens_per_period q) (of_numeric 6 (qr_max_tenant_cost_usd_per_period q))
                (qr_max_concurrent_runs q) ∧ QuotaLimits_post_init (quotas policy) = inr (quotas policy);
  ds_providers : lists document "allowed_providers" false (allowed_providers policy);
  ds_residencies : lists document "allowed_data_residencies" false (allowed_data_residencies policy);
  ds_retention : allow_provider_retention policy = true ↔
                 dict_get "allow_provider_retention" document = Some (PBool true);
}.

Lemma limits_ok limits limits' : QuotaLimits_post_init limits = inr limits' → limits' = limits.
Proof. unfold QuotaLimits_post_init. intros H. by py_inv. Qed.

Lemma read_policy_describes tenant_id p q policy :
  read_policy tenant_id p q = inr policy → ∃ document, describes tenant_id p q document policy.
Proof.
  unfold read_policy. destruct (po_policy_document p) as [| | | | | | |document| | |] eqn:Hdoc; try done.
  destruct (policy_of_row _ _ _ _) as [x|policy'] eqn:Hp; [by destruct (except_schema x)|]. intros [= ->].
  exists document. revert Hp. unfold policy_of_row.
  intros (models & Hmodels & (tools & Htools & (connectors & Hconnectors & (environments & Henvironments &
    (risk & Hrisk & (approval & Happroval & (with_approval & Hwith & (approvers & Happrovers &
    (roles & Hroles & (limits & Hlimits & (providers & Hproviders & (residencies & Hresidencies &
    (retention & Hretention & Hp)%rbind_ok)%rbind_ok)%rbind_ok)%rbind_ok)%rbind_ok)%rbind_ok)%rbind_ok)%rbind_ok)%rbind_ok)%rbind_ok)%rbind_ok)%rbind_ok)%rbind_ok.
  unfold TenantPolicy_post_init in Hp. apply rbind_ok in Hp as ([] & [Hversion _]%reject_if_ok & Hp).
  apply rbind_ok in Hp as ([] & [Hsome _]%reject_if_ok & [= <-]). cbn in Hversion, Hsome.
  pose proof (limits_ok _ _ Hlimits) as ->.
  assert (Hreq : ∀ key set, _string_set document key None = inr set → lists document key true set).
  { intros key set Hs. apply (string_set_lists document key None set Hs). by left. }
  assert (Hopt : ∀ key set, _string_set document key (Some ∅) = inr set → lists document key false set).
  { intros key set Hs. apply (string_set_lists document key (Some ∅) set Hs). by right. }
  apply PyStr.is_empty_false in Hversion. apply bool_decide_eq_false in Hsome.
  split; cbn; auto using required_risk_ok, retention_ok.
  split; [done|]. exists approvers. split; [auto|]. by apply roles_ok.
Qed.

(** C33. Reading a policy: whatever document is stored, the repository answers
    no policy where the tenant has none or no quotas, or a valid policy of the
    tenant that says exactly what the document and the quota row say - a set
    the document leaves out allows nothing - or refuses it with a permanent
    storage error; no other exception of decoding escapes, a failing
    connection gives a classified one, and nothing changes. *)
Theorem policy_reads_exact db tenant context :
  ∃ r, serves (db, tenant) (PostgresPolicyRepository_get context) r (db, tenant) ∧
    match r with
    | inr None => gv_policies db !! ctx_str context = None ∨ gv_quotas db !! ctx_str context = None
    | inr (Some policy) => ∃ p q document, gv_policies db !! ctx_str context = Some p ∧
        gv_quotas db !! ctx_str context = Some q ∧ describes (ctx_tenant_id context) p q document policy
    | inl e => ∃ message, e = PermanentStorageError message
    end.
Proof.
  set (decode := λ row : option (PolicyRow * QuotaRow),
    match row with
    | None => inr None
    | Some (p, q) => let? policy := read_policy (ctx_tenant_id context) p q in inr (Some policy)
    end).
  set (row := λ db : Governance, p ← gv_policies db !! ctx_str context;
                q ← gv_quotas db !! ctx_str context; Some (p, q)).
  exists (decode (row (rls (Some (ctx_str context)) db))). split.
  - eapply (serves_ext _ _ _ _ _ _ _); [|reflexivity|reflexivity|apply (serves_read db tenant context row decode)].
    intros c. unfold PostgresPolicyRepository_get, bind. fold row.
    destruct (storage_guard _ c) as [[e|[[p q]|]] c']; [done| |done]. unfold decode, lift, ret.
    by destruct (read_policy _ p q).
  - unfold row, rls. cbn [gv_policies gv_quotas]. rewrite !visible_lookup.
    destruct (gv_policies db !! ctx_str context) as [p|]; [|by left].
    destruct (gv_quotas db !! ctx_str context) as [q|]; [|by right]. cbn [mbind option_bind decode].
    destruct (read_policy _ p q) as [e|policy] eqn:Hr; cbn [rbind].
    + by eapply read_policy_errors.
    + apply read_policy_describes in Hr as [document Hd]. by exists p, q, document.
Qed.

(** ** Tenants *)

(** A tenant is read as its row says; a row that the constraints of the table
    allow and the constructor does not, such as one of a blank name, is a
    [ValueError] rather than a storage error. *)
Theorem tenant_reads_exact db tenant context :
  let answer := match gv_tenants db !! ctx_str context with
                | None => inr None
                | Some r => let? t := tenant_of_row (ctx_str context) r in inr (Some t)
                end in
  serves (db, tenant) (PostgresTenantRepository_get context) answer (db, tenant) ∧
  (∀ r, gv_tenants db !! ctx_str context = Some r → te_display_name r = " "%string →
        tenant_id_ok (ctx_tenant_id context) → answer = inl (ValueError "display_name is required")).
Proof.
  cbv zeta. split.
  - set (decode := λ row : option TenantRow,
      match row with None => inr None | Some r => let? t := tenant_of_row (ctx_str context) r in inr (Some t) end).
    eapply (serves_ext _ _ _ _ _ _ _); [|reflexivity|reflexivity|].
    2: { pose proof (serves_read db tenant context (λ db, gv_tenants db !! ctx_str context) decode) as H.
         unfold rls in H. cbn [gv_tenants] in H. rewrite visible_lookup in H. exact H. }
    intros c. unfold PostgresTenantRepository_get, bind.
    destruct (storage_guard _ c) as [[e|[r|]] c']; [done| |done]. unfold decode, lift, ret.
    by destruct (tenant_of_row _ r).
  - intros r -> Hr Ht. unfold tenant_of_row, ctx_str. by rewrite tenant_id_new, Hr.
Qed.

(** ** Audit events *)

(** Redaction after a trip through a [jsonb] column changes nothing. *)
Lemma redact_thaw v : _redact_value (thaw_json (_redact_value v)) = _redact_value v.
Proof.
  induction v as [| | | |s|l IH|l IH|d IH|d IH| |] using pyval_deep_ind; try done; cbn [_redact_value thaw_json].
  - unfold redact_text. rewrite sub_unchanged; [done|done|by apply sub_clean].
  - f_equal. rewrite !map_map. by apply map_ext_Forall.
  - f_equal. rewrite !map_map. by apply map_ext_Forall.
  - f_equal. rewrite !map_map. apply map_ext_Forall. eapply Forall_impl; [exact IH|].
    intros [k x] Hx. cbn [fst snd] in *. destruct (sensitive_key k); [done|]. by rewrite Hx.
  - f_equal. rewrite !map_map. apply map_ext_Forall. eapply Forall_impl; [exact IH|].
    intros [k x] Hx. cbn [fst snd] in *. destruct (sensitive_key k); [done|]. by rewrite Hx.
Qed.

Lemma redact_thaw_details d : redact_details (thaw_mapping (redact_details d)) = redact_details d.
Proof. pose proof (redact_thaw (PProxy d)) as H. cbn in H. by injection H. Qed.

(** An event as its constructor returns it. *)
Definition constructed_event (e : AuditEvent) : Prop :=
  tenant_id_ok (ae_tenant_id e) ∧ ∃ e0, AuditEvent_post_init e0 = inr e.

(** An event is read back from its row as it was. *)
Lemma audit_row_roundtrip e :
  constructed_event e → event_of_row (audit_row e (thaw_mapping (ae_details e))) = inr e.
Proof.
  intros [Ht (e0 & He)]. unfold event_of_row, audit_row.
  cbn [au_tenant_id au_event_type au_outcome au_event_id au_occurred_at au_actor_id au_action au_resource
       au_correlation_id au_details au_schema_version].
  rewrite tenant_id_new, !sc_new_value by done. cbn [rbind]. revert He. unfold AuditEvent_post_init.
  intros ([] & Haware & ([] & [Hschema _]%reject_if_ok & ([] & [Hactor _]%reject_if_ok & [= <-])%rbind_ok)%rbind_ok)%rbind_ok.
  cbn in *. rewrite Hschema, Hactor. cbn [rbind reject_if].
  unfold require_aware_datetime in *. apply reject_if_ok in Haware as [Haware _].
  rewrite redact_thaw_details. by destruct (ae_occurred_at e0).
Qed.

(** The table holds the events of an in-memory store, in their order. *)
Definition holds_events (db : Governance) (events : list AuditEvent) : Prop :=
  Forall2 (λ e r, event_of_row r = inr e) events (gv_audit db).

Lemma event_of_row_tenant r e : event_of_row r = inr e → tid_value (ae_tenant_id e) = au_tenant_id r.
Proof.
  unfold event_of_row. intros H. py_inv. unfold AuditEvent_post_init in H. py_inv. cbn.
  match goal with Ht : TenantId_new _ = inr _ |- _ => by apply TenantId_new_ok in Ht as [-> _] end.
Qed.

Lemma holds_filter context events rows :
  Forall2 (λ e r, event_of_row r = inr e) events rows →
  Forall2 (λ r e, event_of_row r = inr e)
    (List.filter (λ r, bool_decide (au_tenant_id r = ctx_str context)) rows)
    (List.filter (λ e, bool_decide (ae_tenant_id e = ctx_tenant_id context)) events).
Proof.
  induction 1 as [|e r events rows He _ IH]; cbn [List.filter]; [constructor|].
  apply event_of_row_tenant in He as Ht.
  assert (Heq : bool_decide (au_tenant_id r = ctx_str context) = bool_decide (ae_tenant_id e = ctx_tenant_id context)).
  { apply bool_decide_ext. rewrite <- Ht. unfold ctx_str. destruct (ae_tenant_id e), (ctx_tenant_id context). cbn.
    naive_solver. }
  rewrite Heq. destruct (bool_decide (ae_tenant_id e = ctx_tenant_id context)); [by constructor|done].
Qed.

(** The newest rows, back in order, are the last events. *)
Lemma newest_rows {A} (n : nat) (l : list A) : rev (take n (rev l)) = drop (length l - n) l.
Proof. by rewrite firstn_rev, rev_involutive. Qed.

Lemma runs_insert db context row :
  runs (db, Some (ctx_str context)) (insert_audit_row row)
    (if audit_row_check (Some (ctx_str context)) db row then inr tt else inl violates)
    (if audit_row_check (Some (ctx_str context)) db row then (add_audit_row row db, Some (ctx_str context))
     else (db, Some (ctx_str context))).
Proof.
  apply runs_trip. eapply runs_bind.
  { apply runs_gets. intros c [-> ->]. cbn [fst snd]. reflexivity. }
  destruct (audit_row_check _ _ _); cbn [negb].
  - eapply runs_bind; [apply runs_ret|]. apply runs_exact. intros c [Hdb Ht]. cbn [fst snd] in *. eexists.
    split; [reflexivity|]. split; [done|]. split; [|done]. cbn. by rewrite Hdb.
  - apply runs_bind_err, runs_raise.
Qed.

(** The SQL audit store implements the in-memory one: over a table that
    holds the events of an in-memory store, an append gives what that store
    gives and the table then holds its events, unless the row violates a
    constraint or the connection fails, which is a storage error that leaves
    the table alone; a query changes nothing and answers the same events, the
    last of its tenant in order.  What redaction removed stays removed. *)
Theorem sql_audit_store_agrees {Column : JsonColumn} db tenant context event limit events :
  holds_events db events → constructed_event event →
  json_column (thaw_mapping (ae_details event)) = inr (thaw_mapping (ae_details event)) →
  let row := audit_row event (thaw_mapping (ae_details event)) in
  let '(appended, events') := InMemoryAuditStore_append context event events in
  ((∃ db', serves (db, tenant) (PostgresAuditStore_append context event) appended (db', tenant) ∧
      holds_events db' events')
   ∨ (audit_row_check (Some (ctx_str context)) db row = false ∧
      serves (db, tenant) (PostgresAuditStore_append context event)
        (inl (PermanentStorageError "permanent PostgreSQL storage failure")) (db, tenant))) ∧
  serves (db, tenant) (PostgresAuditStore_query context limit) (InMemoryAuditStore_query context limit events).1
    (db, tenant).
Proof.
  intros Hev Hc Hjson row.
  assert (Hquery : serves (db, tenant) (PostgresAuditStore_query context limit)
            (InMemoryAuditStore_query context limit events).1 (db, tenant)).
  { unfold PostgresAuditStore_query, InMemoryAuditStore_query. cbv zeta.
    refine (serves_ext _ _ _ _ _ _ _ (λ _, eq_refl) _ _ (serves_guard _ _ _ _ _ (db, tenant) (λ _,
      serves_read db tenant context (select_audit (ctx_str context) limit) (λ rows, map_result event_of_row (rev rows)))));
      [|by destruct (negb _)].
    destruct (negb _); [done|]. cbn. apply map_result_ok. unfold select_audit. rewrite newest_rows.
    unfold rls. cbn [gv_audit]. rewrite filter_visible.
    2: { intros r Hr. bool_props. apply bool_decide_true. by f_equal. }
    pose proof (holds_filter context _ _ Hev) as Hf. rewrite (Forall2_length _ _ _ Hf). by apply Forall2_drop. }
  unfold InMemoryAuditStore_append, PostgresAuditStore_append, raise_if.
  destruct (bool_decide (ctx_tenant_id context = ae_tenant_id event)) eqn:Ht; bool_props.
  2: { split; [|exact Hquery]. left. exists db. split; [|done]. intros c Hat. eexists _, c. split; [reflexivity|]. by left. }
  split; [|exact Hquery]. fold row.
  pose proof (runs_insert db context row) as Hins.
  assert (Hbody : ∀ r s', runs (db, Some (ctx_str context)) (insert_audit_row row) r s' →
    runs (db, Some (ctx_str context))
      (let! details := lift (json_column (thaw_mapping (ae_details event))) in insert_audit_row (audit_row event details)) r s').
  { intros r s' H. eapply runs_bind; [rewrite Hjson; apply runs_lift|exact H]. }
  apply Hbody, (serves_tenant db tenant) in Hins.
  destruct (audit_row_check (Some (ctx_str context)) db row).
  - left. exists (add_audit_row row db). split; [exact Hins|]. apply Forall2_app; [done|].
    constructor; [by apply audit_row_roundtrip|constructor].
  - right. split; [done|]. exact Hins.
Qed.

(** ** Examples *)

Definition sample_identity : IdentityRow :=
  mkIdentityRow 7 "acme" "https://issuer" "alice" "user" (Some "u-1"%string) None true.
Definition sample_binding : RoleBindingRow :=
  mkRoleBindingRow "acme" 7 "viewer" (Some "u-2"%string) (Some "user"%string) 1000 None None.
Definition sample_document : pydict :=
  [(KStr "allowed_models", PList [PStr "m"]); (KStr "allowed_tools", PList [PStr "t"]);
   (KStr "allowed_connectors", PList []); (KStr "allowed_environments", PList [PStr "prod"]);
   (KStr "max_risk", PInt 3); (KStr "approval_from_risk", PInt 2);
   (KStr "tools_requiring_approval", PList []); (KStr "approver_roles", PList [PStr "approver"]);
   (KStr "allow_provider_retention", PInt 0)].

Definition sample_event : AuditEvent :=
  mkAuditEvent 5 (mkTenantId "acme") AUTHORIZATION_DECISION (Dt.Aware 2000) AUDIT_SUCCESS "u-1" "read" "tenant" 6
    (redact_details [(KStr "password", PStr "x"); (KStr "note", PDict [(KStr "k", PStr "Bearer abc")])]) 1.

Definition sample_db : Governance :=
  mkGovernance {["acme"%string := mkTenantRow "Acme" true]} [sample_identity] [sample_binding]
    {["acme"%string := mkPolicyRow "v1" (PDict sample_document)]}
    {["acme"%string := mkQuotaRow 10 (Some 5000000) 100 (Some 50000000) 2]}
    [audit_row sample_event (thaw_mapping (ae_details sample_event))].

Definition sample_context : TenantContext := mkTenantContext (mkTenantId "acme").

(** A member left out of the document allows nothing. *)
Example policy_sample :
  match read_policy (mkTenantId "acme") (mkPolicyRow "v1" (PDict sample_document))
          (mkQuotaRow 10 (Some 5000000) 100 (Some 50000000) 2) with
  | inr p => (elements (allowed_tools p), elements (allowed_providers p), allow_provider_retention p)
             = (["t"]%string, [], false)
  | inl _ => False
  end.
Proof. vm_compute. reflexivity. Qed.

Definition sample_claims : VerifiedClaims :=
  mkVerifiedClaims "https://issuer" "alice" [] (Dt.Aware 9) (Dt.Aware 1) None None.

Definition sample_record : IdentityRecord :=
  mkIdentityRecord "https://issuer" "alice" (mkTenantId "acme") PK_USER
    [mkRoleBinding (mkTenantId "acme") VIEWER (inl (mkUserId "u-2")) (Dt.Aware 1000) None None] true
    (Some (mkUserId "u-1")) None.

Definition sample_directory : Directory :=
  {[("https://issuer", "alice")%string := sample_record]}.

Lemma sample_holds : holds_directory sample_db sample_directory.
Proof.
  intros issuer subject. unfold lookup_identity_by_subject, sample_db, sample_directory. cbn [gv_identities find].
  cbn [id_issuer id_subject sample_identity].
  destruct (bool_decide ("https://issuer"%string = issuer) && bool_decide ("alice"%string = subject)) eqn:Hk.
  - bool_props. subst. exists sample_record. split; [by vm_compute|]. apply lookup_singleton_eq.
  - apply lookup_singleton_ne. intros [= <- <-]. by rewrite !bool_decide_true in Hk.
Qed.

Lemma sql_directory_agrees_witness :
  serves (sample_db, None) (PostgresIdentityDirectory_resolve sample_claims)
    (resolve sample_directory sample_claims) (sample_db, None).
Proof. apply sql_directory_agrees. apply sample_holds. Defined.

Lemma sample_constructed : constructed_event sample_event.
Proof. split; [by vm_compute|]. exists sample_event. by vm_compute. Qed.

Lemma sample_events : holds_events sample_db [sample_event].
Proof. constructor; [by vm_compute|constructor]. Qed.

Lemma sql_audit_store_agrees_witness :
  serves (sample_db, None) (PostgresAuditStore_query sample_context 10) (inr [sample_event]) (sample_db, None).
Proof.
  exact (proj2 (@sql_audit_store_agrees (λ d, inr d) sample_db None sample_context sample_event 10 [sample_event]
                  sample_events sample_constructed eq_refl)).
Defined.

(** A connection has one lock, and no other connection shares it. *)
Definition locks_ok (t : LockTable) : Prop :=
  (∀ c lock, lt_locks t !! c = Some lock → (lock < lt_fresh t)%nat) ∧
  (∀ c c' lock, lt_locks t !! c = Some lock → lt_locks t !! c' = Some lock → c = c').

Theorem connection_lock_unique connection t : locks_ok t →
  ∃ lock t', _connection_lock connection t = (inr lock, t') ∧ locks_ok t' ∧
    lt_locks t' !! connection = Some lock ∧ lt_locks t ⊆ lt_locks t'.
Proof.
  intros [Hfresh Hinj]. unfold _connection_lock, bind, gets, modify, ret.
  destruct (lt_locks t !! connection) as [lock|] eqn:Hl; [by exists lock, t|].
  eexists _, _. split; [reflexivity|]. cbn. split; [|split; [apply lookup_insert_eq|by apply insert_subseteq]].
  split; cbn.
  - intros c lock [[<- <-]|[_ H]]%lookup_insert_Some; [lia|]. apply Hfresh in H. lia.
  - intros c c' lock [[<- <-]|[_ H]]%lookup_insert_Some [[<- Heq]|[_ H']]%lookup_insert_Some; try done.
    + apply Hfresh in H'. lia.
    + subst lock. apply Hfresh in H. lia.
    + by eapply Hinj.
Qed.
