(* ===== verification/ControlPlaneWiring.v ===== *)
(** * The control plane over its SQL repositories

    The application of [control_plane/api.py] with the repositories of
    [persistence/postgres.py] injected: what is answered is what the tables
    hold, and a failed authentication is recorded because the migrations seed
    the tenant it is recorded under. *)

From stdpp Require Import base gmap sets list strings.
From Stdlib Require Import ZArith Lia.
From S2P Require Import Prelude PyLib Json Events Identity Amounts Policy Database EventStore Raises Wire.
From S2P Require Import Authentication AuditTrail GatewayOperations HttpText ControlPlane ControlPlaneResponses.
From S2P Require Import Persistence PersistenceTheorems.

Local Open Scope Z_scope.

(** ** The deployment

    The connection to the database, beside whatever else the process has. *)

Section Wiring.
Context {E : Type} {Repr : PyRepr} {Column : JsonColumn} {Http : HttpEnvironment E}.

Abbreviation Deployment := (Connection * E)%type.

Definition on_sql {A} (m : Sql A) : M exn Deployment A := λ s,
  let '(r, c) := m s.1 in (r, (c, s.2)).

#[export] Instance deployed_environment : HttpEnvironment Deployment := {
  he_now s := let '(t, e) := he_now s.2 in (t, (s.1, e));
  he_uuid4 s := let '(u, e) := he_uuid4 s.2 in (u, (s.1, e));
  he_environ s := he_environ s.2;
  he_send m := λ s, let '(r, e) := he_send m s.2 in (r, (s.1, e));
}.

Context {Readers : GatewayReaders Deployment}.
Context (authenticate : option string → M exn Deployment Principal).

Definition sql_app : ControlPlaneApp Deployment :=
  {| cp_authentication := Some authenticate;
     cp_tenants context := on_sql (PostgresTenantRepository_get context);
     cp_policies context := on_sql (PostgresPolicyRepository_get context);
     cp_audit context event := on_sql (PostgresAuditStore_append context event);
     cp_event_store := None; cp_projections := None; cp_storage_ready := None;
     cp_gateway_operations := None |}.

Abbreviation Serve := (M exn (Serving Deployment)).
Abbreviation tables s := (cn_db (sv_env s).1).

(** ** What changes of the tables *)

(** The same records; only the audit trail may have grown. *)
Record same_records (db db' : Governance) : Prop := {
  same_tenants : gv_tenants db' = gv_tenants db;
  same_identities : gv_identities db' = gv_identities db;
  same_bindings : gv_role_bindings db' = gv_role_bindings db;
  same_policies : gv_policies db' = gv_policies db;
  same_quotas : gv_quotas db' = gv_quotas db;
  same_audit : gv_audit db `prefix_of` gv_audit db';
}.

#[export] Instance same_records_preorder : PreOrder same_records.
Proof.
  split; [by constructor|]. intros a b c [H1 H2 H3 H4 H5 H6] [K1 K2 K3 K4 K5 K6].
  constructor; try congruence. by etrans.
Qed.

Lemma same_added row db : same_records db (add_audit_row row db).
Proof. constructor; try done. by apply prefix_app_r. Qed.

(** Every run keeps the records and the setting of the connection. *)
Definition keeps {A} (m : Serve A) : Prop := ∀ s r s', m s = (r, s') →
  same_records (tables s) (tables s') ∧ cn_tenant (sv_env s').1 = cn_tenant (sv_env s).1.

Lemma kept_bind {A B} (m : Serve A) (k : A → Serve B) : keeps m → (∀ a, keeps (k a)) → keeps (bind m k).
Proof.
  intros Hm Hk s r s'. unfold bind. destruct (m s) as [[e|a] s1] eqn:H1; apply Hm in H1 as [H1 T1].
  - by intros [= <- <-].
  - intros H2. apply Hk in H2 as [H2 T2]. split; [by etrans|congruence].
Qed.

Lemma kept_unchanged {A} (m : Serve A) : (∀ s r s', m s = (r, s') → (sv_env s').1 = (sv_env s).1) → keeps m.
Proof. intros Hm s r s' Hrun. by rewrite (Hm _ _ _ Hrun). Qed.

Lemma kept_ret {A} (a : A) : keeps (ret a).
Proof. apply kept_unchanged. by intros s r s' [= <- <-]. Qed.
Lemma kept_raise {A} e : keeps (raise (A := A) e).
Proof. apply kept_unchanged. by intros s r s' [= <- <-]. Qed.
Lemma kept_lift {A} (r : result A) : keeps (lift r).
Proof. apply kept_unchanged. by intros s r' s' [= <- <-]. Qed.
Lemma kept_now : keeps now_utc.
Proof.
  apply kept_unchanged. intros s r s'. unfold now_utc, on_env. cbn.
  destruct (he_now (sv_env s).2). by intros [= <- <-].
Qed.
Lemma kept_uuid4 : keeps uuid4.
Proof.
  apply kept_unchanged. intros s r s'. unfold uuid4, on_env. cbn.
  destruct (he_uuid4 (sv_env s).2). by intros [= <- <-].
Qed.
Lemma kept_send m : keeps (send m).
Proof.
  apply kept_unchanged. intros s r s'. unfold send, performed, note, bind, modify, on_env. cbn.
  destruct (he_send m (sv_env s).2). by intros [= <- <-].
Qed.

(** A call on the connection. *)
Lemma sql_run {A} e (m : Sql A) (s : Serving Deployment) r s' : performed e (on_sql m) s = (r, s') →
  ∃ c', m (sv_env s).1 = (r, c') ∧ s' = mkServing (c', (sv_env s).2) (sv_trace s ++ [e]).
Proof.
  unfold performed, note, bind, modify, on_env, on_sql. cbn. destruct (m (sv_env s).1) as [r' c'].
  intros [= <- <-]. by exists c'.
Qed.

Lemma at_own c : at_state c (cn_db c, cn_tenant c).
Proof. done. Qed.

Lemma append_serves db tenant context event : ∃ r db', same_records db db' ∧
  serves (db, tenant) (PostgresAuditStore_append context event) r (db', tenant).
Proof.
  unfold PostgresAuditStore_append. destruct (negb _) eqn:Ht.
  { exists (inl (ValueError "audit event tenant does not match trusted context")), db. split; [done|].
    intros c Hc. eexists _, c. split; [reflexivity|]. by left. }
  assert (Hbody : ∃ r s', same_records db s'.1 ∧ runs (db, Some (ctx_str context))
    (let! details := lift (json_column (thaw_mapping (ae_details event))) in insert_audit_row (audit_row event details)) r s').
  { destruct (json_column (thaw_mapping (ae_details event))) as [e|details].
    - exists (inl e), (db, Some (ctx_str context)). split; [done|]. apply runs_bind_err, runs_lift.
    - pose proof (runs_insert db context (audit_row event details)) as Hins.
      eexists _, _. split; [|eapply runs_bind; [apply runs_lift|exact Hins]]. case_match; [apply same_added|done]. }
  destruct Hbody as (r & s' & Hs' & Hbody). apply (serves_tenant db tenant) in Hbody.
  exists (classified r), (committed (db, tenant) r s').1. split; [by destruct r|].
  intros c Hc. destruct (Hbody c Hc) as (r' & c' & Hrun & Hend). exists r', c'. split; [exact Hrun|].
  destruct Hend as [[-> Hs]|Hend]; [left|by right]. split; [done|]. by destruct r.
Qed.

Lemma kept_audited context event : keeps (performed (Audited context event) (cp_audit sql_app context event)).
Proof.
  intros s r s' Hrun. apply sql_run in Hrun as (c' & Hc & ->).
  destruct (append_serves (cn_db (sv_env s).1) (cn_tenant (sv_env s).1) context event) as (r0 & db' & Hsame & Hserves).
  destruct (Hserves _ (at_own _)) as (r1 & c1 & Hrun & Hend). rewrite Hc in Hrun. injection Hrun as -> ->.
  cbn. destruct Hend as [[_ [-> ->]]|(_ & [-> ->] & _)]; by split.
Qed.

#[local] Hint Resolve kept_ret kept_raise kept_lift kept_now kept_uuid4 kept_send kept_audited : wiring.
Local Ltac kept_solve :=
  repeat first [ solve [auto with wiring] | apply kept_bind; [|intros ?] | case_match ].

Lemma kept_respond status body extra : keeps (_respond status body extra).
Proof. unfold _respond. kept_solve. Qed.
Lemma kept_audit_event tenant_id event_type o actor action resource correlation details :
  keeps (_audit_event sql_app tenant_id event_type o actor action resource correlation details).
Proof. unfold _audit_event. kept_solve. Qed.
#[local] Hint Resolve kept_respond kept_audit_event : wiring.
Lemma kept_authorize principal tenant_id permission correlation resource :
  keeps (_authorize sql_app principal tenant_id permission correlation resource).
Proof. unfold _authorize, _audit_authorization. kept_solve. Qed.

(** ** Responses *)

(** The messages of a whole response with this status and body. *)
Definition responds (status : Z) (body : pyval) (t : list effect) : Prop := ∃ encoded,
  json_encode body = inr encoded ∧
  messages t = [ResponseStart status (response_headers encoded []); ResponseBody encoded].

Lemma respond_run status body (s s' : Serving Deployment) : _respond status body [] s = (inr tt, s') →
  ∃ t, sv_trace s' = sv_trace s ++ t ∧ responds status body t.
Proof.
  unfold _respond. intros Hrun. apply bind_ok in Hrun as (encoded & s1 & Henc & Hrun). injection Henc as Henc <-.
  apply bind_ok in Hrun as ([] & s2 & H1 & H2).
  apply (meets_performed (Sent (ResponseStart status (response_headers encoded [])))) in H1 as (t1 & Ht1 & ->).
  apply (meets_performed (Sent (ResponseBody encoded))) in H2 as (t2 & Ht2 & ->).
  exists ([Sent (ResponseStart status (response_headers encoded []))] ++ [Sent (ResponseBody encoded)]).
  split; [by rewrite Ht2, Ht1, app_assoc|]. by exists encoded.
Qed.

(** A decision: without a message where it allows, with a 403 where it does not. *)
Lemma authorize_run principal tenant_id permission correlation resource (s s' : Serving Deployment) allowed :
  _authorize sql_app principal tenant_id permission correlation resource s = (inr allowed, s') →
  ∃ t, sv_trace s' = sv_trace s ++ t ∧
    if allowed then messages t = [] else ∃ body, responds 403 body t.
Proof.
  unfold _authorize. intros Hrun. apply bind_ok in Hrun as (at_ & s1 & Hnow & Hrun).
  apply meets_now in Hnow as (t1 & Ht1 & -> & _). apply bind_ok in Hrun as (decision & s2 & Hd & Hrun).
  injection Hd as _ <-. apply bind_ok in Hrun as ([] & s3 & Haudit & Hrun).
  assert (Hquiet : ∃ t, sv_trace s3 = sv_trace s1 ++ t ∧ messages t = []).
  { unfold _audit_authorization in Haudit. apply bind_ok in Haudit as (actor & s4 & Hactor & Haudit).
    injection Hactor as _ <-. apply meets_audit in Haudit as (t & Ht & HP). exists t. split; [done|].
    by destruct HP as [[-> _]|(event & -> & _)]. }
  destruct Hquiet as (t & Ht & Hm). rewrite Ht1, app_nil_r in Ht.
  destruct (ad_allowed decision).
  - injection Hrun as <- <-. by exists t.
  - apply bind_ok in Hrun as ([] & s4 & Hresp & Hret). injection Hret as <- <-.
    apply respond_run in Hresp as (t' & Ht' & encoded & Henc & Hm'). exists (t ++ t').
    split; [by rewrite Ht', Ht, app_assoc|]. eexists. exists encoded. split; [exact Henc|].
    by rewrite messages_app, Hm, Hm'.
Qed.

(** ** What is answered *)

(** The answers that say nothing of a record. *)
Definition refused (t : list effect) : Prop :=
  (∃ body, responds 403 body t) ∨ responds 503 (error_body "storage_unavailable") t.

(** A handler behind its decision that reads one record of the tenant. *)
Lemma record_answered {A} principal tenant_id permission correlation resource what (read : TenantContext → Sql A)
    (k : A → Serve unit) (P : A → list effect → Prop) s s' :
  (∀ a s s', k a s = (inr tt, s') → ∃ t, sv_trace s' = sv_trace s ++ t ∧ P a t) →
  (∀ a t t', messages t = [] → P a t' → P a (t ++ t')) →
  authorized sql_app principal tenant_id permission correlation resource (λ context,
    stored (reading (what context) context (on_sql (read context))) k) s = (inr tt, s') →
  ∃ t, sv_trace s' = sv_trace s ++ t ∧
    (refused t ∨ ∃ c a c', same_records (tables s) (cn_db c) ∧ read (mkTenantContext tenant_id) c = (inr a, c') ∧ P a t).
Proof.
  intros Hk HP. unfold authorized. intros Hrun. apply bind_ok in Hrun as (allowed & s1 & Hauth & Hrun).
  apply kept_authorize in Hauth as Hkeep. destruct Hkeep as [Hsame _].
  apply authorize_run in Hauth as (t & Ht & Hauth). destruct allowed.
  2: { injection Hrun as <-. exists t. split; [done|]. left. by left. }
  unfold stored in Hrun. apply bind_ok in Hrun as (r & s2 & Hread & Hrun). unfold outcome in Hread.
  destruct (reading _ _ _ s1) as [r' s2'] eqn:Hreading. injection Hread as <- <-.
  unfold reading in Hreading. apply sql_run in Hreading as (c' & Hc & ->).
  assert (Hjoin : ∀ t', messages (t ++ [Read (what (mkTenantContext tenant_id)) (mkTenantContext tenant_id)] ++ t') = messages t').
  { intros t'. rewrite !messages_app, Hauth. done. }
  destruct r' as [e|a].
  - destruct e; try done. apply respond_run in Hrun as (t' & Ht' & encoded & Henc & Hm). cbn [sv_trace] in Ht'.
    exists (t ++ [Read (what (mkTenantContext tenant_id)) (mkTenantContext tenant_id)] ++ t').
    split; [by rewrite Ht', Ht, !app_assoc|]. left. right. exists encoded. split; [done|]. by rewrite Hjoin.
  - apply Hk in Hrun as (t' & Ht' & Ha). cbn [sv_trace] in Ht'.
    exists ((t ++ [Read (what (mkTenantContext tenant_id)) (mkTenantContext tenant_id)]) ++ t').
    split; [by rewrite Ht', Ht, !app_assoc|]. right. exists (sv_env s1).1, a, c'. split; [done|]. split; [done|].
    apply HP; [|done]. by rewrite messages_app, Hauth.
Qed.

(** An answer of a call whose results are known. *)
Lemma served_answer {A} db tenant (m : Sql A) r s' c a c' : serves (db, tenant) m r s' →
  at_state c (db, tenant) → m c = (inr a, c') → r = inr a.
Proof.
  intros Hm Hc Hrun. destruct (Hm c Hc) as (r' & c1 & H1 & [[-> _]|(_ & _ & x & ->)]); rewrite H1 in Hrun; [|done].
  by injection Hrun as ->.
Qed.

Lemma served_keeps {A} (m : Sql A) r c r' c' : serves (cn_db c, cn_tenant c) m r (cn_db c, cn_tenant c) →
  m c = (r', c') → cn_db c' = cn_db c ∧ cn_tenant c' = cn_tenant c.
Proof.
  intros Hm Hrun. destruct (Hm c (at_own c)) as (r1 & c1 & H1 & Hend). rewrite H1 in Hrun. injection Hrun as -> ->.
  destruct Hend as [[_ H]|(_ & H & _)]; exact H.
Qed.

Lemma kept_reading {A} what context (m : Sql A) :
  (∀ db tenant, ∃ r, serves (db, tenant) m r (db, tenant)) → keeps (reading what context (on_sql m)).
Proof.
  intros Hm s r s' Hrun. apply sql_run in Hrun as (c' & Hc & ->). cbn.
  destruct (Hm (cn_db (sv_env s).1) (cn_tenant (sv_env s).1)) as (r0 & Hserves).
  destruct (served_keeps _ _ _ _ _ Hserves Hc) as [-> ->]. by split.
Qed.

Lemma kept_stored {A} (m : Serve A) k : keeps m → (∀ a, keeps (k a)) → keeps (stored m k).
Proof.
  intros Hm Hk. unfold stored. apply kept_bind.
  - intros s r s'. unfold outcome. destruct (m s) as [x s1] eqn:H1. intros [= <- <-]. by eapply Hm.
  - intros [e|a]; [destruct e; auto with wiring|done].
Qed.

Definition tenant_answer (db : Governance) (tenant_id : TenantId) (t : list effect) : Prop :=
  match gv_tenants db !! tid_value tenant_id with
  | None => responds 404 (error_body "tenant_not_found") t
  | Some row => ∃ tenant, tenant_of_row (tid_value tenant_id) row = inr tenant ∧ responds 200 (tenant_body tenant) t
  end.

Definition policy_answer (db : Governance) (tenant_id : TenantId) (t : list effect) : Prop :=
  ((gv_policies db !! tid_value tenant_id = None ∨ gv_quotas db !! tid_value tenant_id = None) ∧
     responds 404 (error_body "policy_not_found") t) ∨
  ∃ p q document policy, gv_policies db !! tid_value tenant_id = Some p ∧ gv_quotas db !! tid_value tenant_id = Some q ∧
    describes tenant_id p q document policy ∧ responds 200 (_policy_body policy) t.

Lemma responds_after status body t t' : messages t = [] → responds status body t' → responds status body (t ++ t').
Proof. intros Ht (encoded & Henc & Hm). exists encoded. split; [done|]. by rewrite messages_app, Ht. Qed.

Lemma get_tenant_answered principal tenant_id correlation s s' :
  _get_tenant sql_app principal tenant_id correlation s = (inr tt, s') →
  ∃ t, sv_trace s' = sv_trace s ++ t ∧ (refused t ∨ tenant_answer (tables s) tenant_id t).
Proof.
  intros Hrun. unfold _get_tenant in Hrun. cbn [cp_tenants sql_app] in Hrun.
  apply (record_answered _ _ _ _ _ (λ _, TENANT_RECORD) PostgresTenantRepository_get _
    (λ found t, match found with
                | None => responds 404 (error_body "tenant_not_found") t
                | Some tenant => responds 200 (tenant_body tenant) t
                end)) in Hrun as (t & Ht & Hanswer).
  - exists t. split; [done|]. destruct Hanswer as [?|(c & found & c' & Hsame & Hread & Hfound)]; [by left|right].
    destruct (tenant_reads_exact (cn_db c) (cn_tenant c) (mkTenantContext tenant_id)) as [Hserves _].
    apply (served_answer _ _ _ _ _ _ _ _ Hserves (at_own c)) in Hread. unfold tenant_answer.
    rewrite <- (same_tenants _ _ Hsame). change (ctx_str (mkTenantContext tenant_id)) with (tid_value tenant_id) in Hread.
    destruct (gv_tenants (cn_db c) !! tid_value tenant_id) as [row|]; [|by injection Hread as <-].
    destruct (tenant_of_row _ row) as [e|tenant]; [done|]. cbn [rbind] in Hread. injection Hread as <-. by exists tenant.
  - intros [tenant|] x x' Hx; by apply respond_run in Hx.
  - intros [tenant|] t1 t2 Hm; by apply responds_after.
Qed.

Lemma get_policy_answered principal tenant_id correlation s s' :
  _get_policy sql_app principal tenant_id correlation s = (inr tt, s') →
  ∃ t, sv_trace s' = sv_trace s ++ t ∧ (refused t ∨ policy_answer (tables s) tenant_id t).
Proof.
  intros Hrun. unfold _get_policy in Hrun. cbn [cp_policies sql_app] in Hrun.
  apply (record_answered _ _ _ _ _ (λ _, TENANT_POLICY) PostgresPolicyRepository_get _
    (λ found t, match found with
                | None => responds 404 (error_body "policy_not_found") t
                | Some policy => responds 200 (_policy_body policy) t
                end)) in Hrun as (t & Ht & Hanswer).
  - exists t. split; [done|]. destruct Hanswer as [?|(c & found & c' & Hsame & Hread & Hfound)]; [by left|right].
    destruct (policy_reads_exact (cn_db c) (cn_tenant c) (mkTenantContext tenant_id)) as (r & Hserves & Hr).
    apply (served_answer _ _ _ _ _ _ _ _ Hserves (at_own c)) in Hread. subst r. unfold policy_answer.
    rewrite <- (same_policies _ _ Hsame), <- (same_quotas _ _ Hsame).
    destruct found as [policy|]; [right|by left].
    destruct Hr as (p & q & document & Hp & Hq & Hd). by exists p, q, document, policy.
  - intros [policy|] x x' Hx; by apply respond_run in Hx.
  - intros [policy|] t1 t2 Hm; by apply responds_after.
Qed.

(** What the control plane answers of a tenant is what the tables hold:
    over the SQL repositories, a whole answer to a request for a tenant or its
    policy is a refusal (403, or 503 in an outage), or the record of that
    tenant's rows as they were, or a 404 when there is none; and however the
    request ends, it leaves every table as it was, but for audit events added
    to the trail. *)
Theorem answered_records_are_stored scope principal tenant_id correlation s :
  (∀ s', tenant_route sql_app scope principal tenant_id correlation [] s = (inr tt, s') →
     ∃ t, sv_trace s' = sv_trace s ++ t ∧ (refused t ∨ tenant_answer (tables s) tenant_id t)) ∧
  (∀ s', tenant_route sql_app scope principal tenant_id correlation ["policy"%string] s = (inr tt, s') →
     ∃ t, sv_trace s' = sv_trace s ++ t ∧ (refused t ∨ policy_answer (tables s) tenant_id t)) ∧
  (∀ segments r s', segments = [] ∨ segments = ["policy"%string] →
     tenant_route sql_app scope principal tenant_id correlation segments s = (r, s') →
     same_records (tables s) (tables s')).
Proof.
  split; [apply get_tenant_answered|]. split; [apply get_policy_answered|].
  intros segments r s' Hsegments. enough (Hk : keeps (tenant_route sql_app scope principal tenant_id correlation segments))
    by (intros Hrun; by apply Hk in Hrun as [? _]).
  assert (Htenants : ∀ context db tenant, ∃ r, serves (db, tenant) (PostgresTenantRepository_get context) r (db, tenant))
    by (intros; eexists; apply tenant_reads_exact).
  assert (Hpolicies : ∀ context db tenant, ∃ r, serves (db, tenant) (PostgresPolicyRepository_get context) r (db, tenant))
    by (intros context db tenant; destruct (policy_reads_exact db tenant context) as (r0 & H & _); by exists r0).
  destruct Hsegments as [-> | ->].
  - change (keeps (_get_tenant sql_app principal tenant_id correlation)). unfold _get_tenant, authorized.
    apply kept_bind; [apply kept_authorize|]. intros []; [|apply kept_ret].
    apply kept_stored; [apply kept_reading, Htenants|]. intros []; apply kept_respond.
  - change (keeps (_get_policy sql_app principal tenant_id correlation)). unfold _get_policy, authorized.
    apply kept_bind; [apply kept_authorize|]. intros []; [|apply kept_ret].
    apply kept_stored; [apply kept_reading, Hpolicies|]. intros []; apply kept_respond.
Qed.

(** ** Failed authentications *)

Definition failure_body (code : AuthenticationErrorCode) : pyval :=
  PDict (dict_of [("error", PDict (dict_of [("code", PStr (code_value code));
                                             ("message", PStr "authentication failed")]))]).

Definition failure_details (code : AuthenticationErrorCode) : pydict :=
  dict_of [("error_code", PStr (code_value code))].

Lemma failure_encodes code : ∃ encoded, json_encode (failure_body code) = inr encoded.
Proof. destruct code; eexists; vm_compute; reflexivity. Qed.

(** The event of a failed authentication. *)
Definition failure_event (id : uuid) (us : Z) (correlation : uuid) (code : AuthenticationErrorCode) : AuditEvent :=
  mkAuditEvent id PLATFORM_TENANT_ID AUTHENTICATION_OUTCOME (Dt.Aware us) AUDIT_FAILURE "unauthenticated"
    "authenticate" "control-plane" correlation (failure_details code) 1.

Lemma failure_constructed id us correlation code :
  AuditEvent_post_init (failure_event id us correlation code) = inr (failure_event id us correlation code).
Proof. by destruct code; vm_compute. Qed.

Lemma failure_lifted id us correlation code (s : Serving Deployment) :
  lift (AuditEvent_post_init (failure_event id us correlation code)) s = (inr (failure_event id us correlation code), s).
Proof. unfold lift. by rewrite failure_constructed. Qed.

Lemma failure_thawed code : thaw_mapping (failure_details code) = failure_details code.
Proof. by destruct code. Qed.

(** An append of a tenant's own event on a connection that works. *)
Lemma append_healthy context event details c : healthy c → ctx_tenant_id context = ae_tenant_id event →
  json_column (thaw_mapping (ae_details event)) = inr details →
  let accepted := audit_row_check (Some (ctx_str context)) (cn_db c) (audit_row event details) in
  ∃ c', PostgresAuditStore_append context event c =
      (if accepted then inr tt else inl (PermanentStorageError "permanent PostgreSQL storage failure"), c') ∧
    cn_db c' = if accepted then add_audit_row (audit_row event details) (cn_db c) else cn_db c.
Proof.
  intros Hc Ht Hjson accepted. unfold PostgresAuditStore_append. rewrite bool_decide_true by done. cbn [negb raise_if].
  pose proof (runs_insert (cn_db c) context (audit_row event details)) as Hins. fold accepted in Hins.
  assert (Hbody : ∀ r s', runs (cn_db c, Some (ctx_str context)) (insert_audit_row (audit_row event details)) r s' →
    runs (cn_db c, Some (ctx_str context)) (let! details := lift (json_column (thaw_mapping (ae_details event))) in
      insert_audit_row (audit_row event details)) r s').
  { intros r s' H. eapply runs_bind; [rewrite Hjson; apply runs_lift|exact H]. }
  apply Hbody, (serves_tenant (cn_db c) (cn_tenant c)) in Hins.
  destruct (Hins c (at_own c)) as (r & c' & Hrun & [[-> [Hdb _]]|(Hbad & _)]); [|by destruct Hbad].
  exists c'. split; [|by destruct accepted]. erewrite bind_run by reflexivity. rewrite Hrun. by destruct accepted.
Qed.

(** A response whose messages are taken. *)
Lemma respond_runs status body extra encoded (s : Serving Deployment) :
  (∀ m (e : E), ∃ e', he_send m e = (inr tt, e')) → json_encode body = inr encoded →
  ∃ s', _respond status body extra s = (inr tt, s') ∧ (sv_env s').1 = (sv_env s).1 ∧
    sv_trace s' = sv_trace s ++ [Sent (ResponseStart status (response_headers encoded extra));
                                 Sent (ResponseBody encoded)].
Proof.
  intros Hsend Hjson.
  assert (H : ∀ m (s : Serving Deployment), ∃ s', send m s = (inr tt, s') ∧ (sv_env s').1 = (sv_env s).1 ∧
                sv_trace s' = sv_trace s ++ [Sent m]).
  { intros m [[c e] t]. destruct (Hsend m e) as [e' He]. exists (mkServing (c, e') (t ++ [Sent m])). split; [|done].
    unfold send, performed, note, bind, modify, on_env. cbn. by rewrite He. }
  destruct (H (ResponseStart status (response_headers encoded extra)) s) as (s1 & H1 & Hc1 & Ht1).
  destruct (H (ResponseBody encoded) s1) as (s2 & H2 & Hc2 & Ht2). exists s2. split.
  - unfold _respond. erewrite bind_run by (unfold lift; rewrite Hjson; reflexivity).
    by erewrite bind_run by exact H1.
  - split; [congruence|]. by rewrite Ht2, Ht1, <- app_assoc.
Qed.

Lemma uuid4_run c e t :
  uuid4 (mkServing (c, e) t) = (inr (he_uuid4 e).1, mkServing ((c, (he_uuid4 e).2) : Deployment) t).
Proof. unfold uuid4, on_env. cbn. by destruct (he_uuid4 e). Qed.

Lemma now_run c e t :
  now_utc (mkServing (c, e) t) = (inr (Dt.Aware (he_now e).1), mkServing ((c, (he_now e).2) : Deployment) t).
Proof. unfold now_utc, on_env. cbn. by destruct (he_now e). Qed.

(** C40. A failed authentication is answered and recorded: over a working
    connection whose tables hold the seeded platform tenant, the client gets a
    whole 401 with the failure's code and the audit trail one event of it,
    under that tenant and this request's correlation; without the seed the
    audit event violates its foreign key, and the request is not answered at
    all.  No other table changes. *)
Theorem failed_authentication_recorded scope correlation s c e code :
  authenticate (_single_header scope "authorization") (sv_env s) = (inl (AuthenticationError code), (c, e)) →
  healthy c → (∀ m (e : E), ∃ e', he_send m e = (inr tt, e')) →
  json_column (failure_details code) = inr (failure_details code) →
  Forall (λ r, au_event_id r ≠ (he_uuid4 e).1) (gv_audit (cn_db c)) →
  let event := failure_event (he_uuid4 e).1 (he_now (he_uuid4 e).2).1 correlation code in
  if bool_decide (is_Some (gv_tenants (cn_db c) !! "platform"%string))
  then ∃ s' t encoded, _authenticate sql_app scope correlation s = (inr None, s') ∧ sv_trace s' = sv_trace s ++ t ∧
         json_encode (failure_body code) = inr encoded ∧
         messages t = [ResponseStart 401 (response_headers encoded challenge); ResponseBody encoded] ∧
         tables s' = add_audit_row (audit_row event (failure_details code)) (cn_db c)
  else ∃ s' t x, _authenticate sql_app scope correlation s = (inl (PermanentStorageError x), s') ∧
         sv_trace s' = sv_trace s ++ t ∧ messages t = [] ∧ tables s' = cn_db c.
Proof.
  intros Hauth Hc Hsend Hjson Hfresh event. set (context := mkTenantContext PLATFORM_TENANT_ID).
  destruct (append_healthy context event (failure_details code) c Hc eq_refl) as (c' & Happend & Hdb);
    [cbn [ae_details event failure_event]; by rewrite failure_thawed|].
  assert (Hcheck : audit_row_check (Some (ctx_str context)) (cn_db c) (audit_row event (failure_details code))
                   = bool_decide (is_Some (gv_tenants (cn_db c) !! "platform"%string))).
  { unfold audit_row_check. cbn [audit_row au_tenant_id au_event_id au_schema_version au_actor_id au_action au_resource].
    assert (Hold : existsb (λ old, bool_decide (au_event_id old = ae_event_id event)) (gv_audit (cn_db c)) = false).
    { apply not_true_is_false. intros (old & Hin & Hold)%existsb_exists. bool_props.
      rewrite Forall_forall in Hfresh. by apply (Hfresh old); [apply list_elem_of_In|]. }
    rewrite Hold. unfold visible. rewrite bool_decide_true by done.
    change (gv_tenants (cn_db c) !! tid_value (ae_tenant_id event)) with (gv_tenants (cn_db c) !! "platform"%string).
    cbn [negb andb]. by rewrite andb_true_r, andb_true_r. }
  rewrite Hcheck in Happend, Hdb.
  assert (Hevent : ∀ s1 : Serving Deployment, sv_env s1 = (c, e) →
    _audit_event sql_app PLATFORM_TENANT_ID AUTHENTICATION_OUTCOME AUDIT_FAILURE "unauthenticated" "authenticate"
      "control-plane" correlation (failure_details code) s1 =
    (if bool_decide (is_Some (gv_tenants (cn_db c) !! "platform"%string)) then inr tt
     else inl (PermanentStorageError "permanent PostgreSQL storage failure"),
     mkServing (c', (he_now (he_uuid4 e).2).2) (sv_trace s1 ++ [Audited context event]))).
  { intros [env1 t1] [= ->]. unfold _audit_event. subst event.
    erewrite bind_run by apply uuid4_run. erewrite bind_run by apply now_run.
    erewrite bind_run by apply failure_lifted.
    unfold performed, note, bind, modify, on_env, on_sql. cbn [cp_audit sql_app sv_env sv_trace].
    unfold on_sql. cbn [fst snd]. fold context. by rewrite Happend. }
  assert (Hout : outcome (on_env (authenticate (_single_header scope "authorization"))) s =
                 (inr (inl (AuthenticationError code)), mkServing (c, e) (sv_trace s)))
    by (unfold outcome, on_env; by rewrite Hauth).
  unfold _authenticate. cbn [cp_authentication sql_app]. specialize (Hevent (mkServing (c, e) (sv_trace s)) eq_refl).
  fold (failure_details code) (failure_body code). case_bool_decide.
  - destruct (failure_encodes code) as [encoded Hencoded].
    edestruct (respond_runs 401 _ challenge _ (mkServing (c', (he_now (he_uuid4 e).2).2)
      (sv_trace s ++ [Audited context event])) Hsend Hencoded) as (s' & Hrun & Hconn & Ht).
    exists s'. eexists _, encoded. split; [|split; [|split; [done|split; [|by rewrite Hconn]]]].
    + erewrite bind_run by exact Hout. cbv iota. erewrite bind_run by exact Hevent. by erewrite bind_run by exact Hrun.
    + rewrite Ht. cbn [sv_trace]. by rewrite <- app_assoc.
    + done.
  - exists (mkServing (c', (he_now (he_uuid4 e).2).2) (sv_trace s ++ [Audited context event])), [Audited context event].
    eexists. split; [|split; [done|split; [done|exact Hdb]]].
    erewrite bind_run by exact Hout. cbv iota. by apply bind_fail.
Qed.
End Wiring.

(** ** Examples *)

#[local] Instance plain_process : HttpEnvironment unit :=
  {| he_now s := (1700000000, s); he_uuid4 s := (9%N, s); he_environ _ := ∅; he_send _ s := (inr tt, s) |}.
#[local] Instance plain_column : JsonColumn := λ d, inr d.
#[local] Instance plain_readers : GatewayReaders (Connection * unit) :=
  {| gr_controls _ _ := raise (KeyError "no gateway"); gr_usage_summary _ := raise (KeyError "no gateway") |}.
#[local] Instance plain_repr : PyRepr := λ _, "0.0"%string.

Definition unknown_credential : option string → M exn (Connection * unit) Principal :=
  λ _, raise (AuthenticationError MALFORMED_TOKEN).

Definition seeded (db : Governance) : Governance :=
  mkGovernance (<["platform"%string := mkTenantRow "Platform" true]> (gv_tenants db)) (gv_identities db)
    (gv_role_bindings db) (gv_policies db) (gv_quotas db) (gv_audit db).

Definition calm_connection (db : Governance) : Connection := mkConnection db None 0 (λ _, None).

Lemma failed_authentication_recorded_witness : ∃ s' t,
  _authenticate (sql_app unknown_credential) [] 3%N (mkServing (calm_connection (seeded sample_db), tt) []) =
    (inr None, s') ∧
  sv_trace s' = t ∧ length (messages t) = 2%nat ∧ length (gv_audit (cn_db (sv_env s').1)) = 2%nat.
Proof.
  destruct (failed_authentication_recorded unknown_credential [] 3%N
    (mkServing (calm_connection (seeded sample_db), tt) []) (calm_connection (seeded sample_db)) tt MALFORMED_TOKEN)
    as (s' & t & encoded & Hrun & Ht & _ & Hm & Hdb).
  - reflexivity.
  - done.
  - intros m []. by exists tt.
  - reflexivity.
  - constructor; [discriminate|constructor].
  - exists s', t. split; [exact Hrun|]. split; [exact Ht|]. split; [by rewrite Hm|]. by rewrite Hdb.
Defined.
