(* ===== verification/ProviderTypes.v ===== *)
(** * The older provider contracts

    Models [providers/types.py], kept for imports of older code. *)

From stdpp Require Import base list strings.
From Stdlib Require Import ZArith SpecFloat.
From S2P Require Import Prelude PyLib Floats.

Local Open Scope Z_scope.

Inductive ResponseFormat : Type := TEXT | JSON.

Record ModelMessage : Type := mkModelMessage {
  mm_role : string;
  mm_content : string;
}.

Record ModelRequest : Type := mkModelRequest {
  mq_model : string;
  mq_messages : list ModelMessage;
  mq_temperature : option spec_float;
  mq_max_output_tokens : option Z;
  mq_stop_sequences : list string;
  mq_response_format : ResponseFormat;
}.

Definition ModelRequest_post_init (r : ModelRequest) : result ModelRequest :=
  raise! ValueError "temperature must be between 0 and 2"
    when! match mq_temperature r with
          | Some t => negb (SFleb f64_zero t && SFleb t (sf_of_Z 2))
          | None => false
          end ;;
  raise! ValueError "max_output_tokens must be positive"
    when! match mq_max_output_tokens r with Some n => n <=? 0 | None => false end ;;
  inr r.

Record ModelResponse : Type := mkModelResponse {
  ms_content : string;
  ms_finish_reason : string;
  ms_input_tokens : Z;
  ms_output_tokens : Z;
  ms_provider_request_id : option string;
}.

Definition ModelResponse_post_init (r : ModelResponse) : result ModelResponse :=
  raise! ValueError "token counts cannot be negative"
    when! (ms_input_tokens r <? 0) || (ms_output_tokens r <? 0) ;;
  inr r.
