(* ===== verification/Providers.v ===== *)
(** * What the provider adapters share

    Models [providers/_translation.py], [providers/config.py],
    [providers/fake.py] and the part of [providers/openai.py] and
    [providers/anthropic.py] that is the same in both: the client, its HTTP transport and the containment of failures.
    The SDKs and the HTTP library are the class [SdkLibrary]. *)

From stdpp Require Import base gmap sets list strings.
From Stdlib Require Import ZArith Lia SpecFloat.
From S2P Require Import Prelude PyLib Json Events Identity Amounts Floats Parsing Wire JsonText RedisStreams.
From S2P Require Import ModelContracts SecretsBoundary Config.

Local Open Scope Z_scope.

(** ** Objects of the SDKs

    A response is plain values, lists, and objects with attributes. *)

Inductive sdk : Type :=
| SdkValue (v : pyval)
| SdkList (l : list sdk)
| SdkObject (attributes : list (string * sdk)).

Definition none : sdk := SdkValue PNone.

(** [getattr(o, name, default)]; plain values have none of the attributes
    that are asked for. *)
Definition getattr (o : sdk) (name : string) (default : sdk) : sdk :=
  match o with
  | SdkObject attributes =>
      match find (λ kv, bool_decide (kv.1 = name)) attributes with
      | Some (_, v) => v
      | None => default
      end
  | _ => default
  end.

Definition is_none (o : sdk) : bool := match o with SdkValue PNone => true | _ => false end.

(** [o == text] *)
Definition is_text (o : sdk) (text : string) : bool :=
  match o with SdkValue (PStr s) => bool_decide (s = text) | _ => false end.

(** [isinstance(o, list)] *)
Definition as_list (o : sdk) : option (list sdk) :=
  match o with
  | SdkList l => Some l
  | SdkValue (PList l) => Some (map SdkValue l)
  | _ => None
  end.

(** [bool(o)] *)
Definition truthy (o : sdk) : bool :=
  match o with
  | SdkValue v =>
      match v with
      | PNone => false
      | PBool b => b
      | PInt z => negb (z =? 0)
      | PFloat (S754_zero _) => false
      | PStr s | PBytes s => negb (PyStr.is_empty s)
      | PList l | PTuple l => negb (bool_decide (length l = 0%nat))
      | PDict d | PProxy d => negb (bool_decide (length d = 0%nat))
      | PFloat _ | PObject _ => true
      end
  | SdkList l => negb (bool_decide (length l = 0%nat))
  | SdkObject _ => true
  end.

Definition or_else (a b : sdk) : sdk := if truthy a then a else b.

Definition _optional_text (o : sdk) : option string :=
  match o with SdkValue (PStr s) => if PyStr.is_empty s then None else Some s | _ => None end.

(** [isinstance(value, int) and not isinstance(value, bool) and value >= 0] *)
Definition _usage_int (o : sdk) : result Z :=
  match o with
  | SdkValue (PInt z) =>
      raise! ambiguous_failure MALFORMED_RESPONSE "invalid_provider_usage" when! z <? 0 ;; inr z
  | _ => inl (ambiguous_failure MALFORMED_RESPONSE "invalid_provider_usage")
  end.

(** ** Translation *)

Definition message_text (m : ModelMessage) : string :=
  join (String (Ascii.ascii_of_N 10) "") (omap (λ p, match p with TextPart s => Some s | _ => None end) (mm_content m)).

Section Serialize.
Context {Repr : PyRepr} {Limit : RecursionLimit}.

(** [thaw_json] and [json.dumps] recur on nested containers; one limit stands
    for both. *)
Definition thawing (value : pyval) : result pyval :=
  raise! RecursionError when! negb (nests value recursion_limit) ;; inr (thaw_json value).

Definition json_object (value : pydict) : result pyval := thawing (PProxy value).

(** [json.dumps(thawed, separators=(",", ":"), sort_keys=True)]: the members are
    written, and refused, in the order of their keys. *)
Definition dumping (thawed : pyval) : result string :=
  let? _ := json_check (sort_json thawed) in inr (json_dumps thawed).

Definition serialize_tool_result (content : pyval) : result string :=
  let? thawed := thawing content in dumping thawed.
End Serialize.

Definition bounded_text (value : sdk) (max_response_chars : Z) : result string :=
  match value with
  | SdkValue (PStr s) =>
      raise! ambiguous_failure MALFORMED_RESPONSE "provider_response_too_large"
        when! max_response_chars <? PyStr.len s ;;
      inr s
  | _ => inl (ambiguous_failure MALFORMED_RESPONSE "provider_text_is_not_string")
  end.

Definition all_parts (messages : list ModelMessage) : list ContentPart := flat_map mm_content messages.

(** [type(error).__name__] *)
Definition class_name (e : exn) : string :=
  match e with
  | ValueError _ => "ValueError" | TypeError _ => "TypeError" | KeyError _ => "KeyError"
  | AssertionError => "AssertionError" | IndexError => "IndexError" | TimeoutError => "TimeoutError"
  | CancelledError => "CancelledError" | RecursionError => "RecursionError" | OverflowError => "OverflowError"
  | PermissionError _ => "PermissionError" | RuntimeError _ => "RuntimeError"
  | InvalidOperation => "InvalidOperation" | DecimalOverflow => "Overflow" | UrlError => "URLError"
  | PsycopgError c => match c with
      | OperationalError => "OperationalError" | InterfaceError => "InterfaceError"
      | SerializationFailure => "SerializationFailure" | DeadlockDetected => "DeadlockDetected"
      | ConnectionException => "ConnectionException" | IntegrityError => "IntegrityError"
      | DataError => "DataError"
      end
  | RedisError c _ => match c with
      | RedisConnection => "ConnectionError" | RedisTimeout => "TimeoutError"
      | RedisResponse => "ResponseError" | RedisOther => "RedisError"
      end
  | JwtError c => match c with
      | JwtExpiredSignature => "ExpiredSignatureError" | JwtInvalidIssuer => "InvalidIssuerError"
      | JwtInvalidAudience => "InvalidAudienceError" | JwtInvalidSignature => "InvalidSignatureError"
      | JwtInvalidToken => "InvalidTokenError"
      end
  | TransientStorageError _ => "TransientStorageError" | PermanentStorageError _ => "PermanentStorageError"
  | ConcurrencyError _ _ => "ConcurrencyError" | FencingError _ _ => "FencingError"
  | ReplayCorruptionError _ => "ReplayCorruptionError" | ClaimUnavailableError => "_ClaimUnavailableError"
  | RetryableQueueError _ => "RetryableQueueError" | PermanentQueueError _ => "PermanentQueueError"
  | PoisonMessageError _ => "PoisonMessageError" | CatalogError _ => "CatalogError"
  | RouteDeniedError _ => "RouteDeniedError" | BudgetDeniedError _ => "BudgetDeniedError"
  | DuplicateCallInProgressError _ => "DuplicateCallInProgressError" | CircuitOpenError _ => "CircuitOpenError"
  | ModelGatewayError _ => "ModelGatewayError" | WorkerExecutionError _ _ => "WorkerExecutionError"
  | AuthenticationError _ => "AuthenticationError" | OperationDeniedError _ => "OperationDeniedError"
  | SecretError _ => "SecretError" | ConfigurationError _ => "ConfigurationError"
  | SdkError e => se_class e
  end%string.

Definition status_code (e : exn) : option Z := match e with SdkError e => se_status_code e | _ => None end.

Definition retry_limit : spec_float := sf_of_Z 300.

Definition _retry_after (e : exn) : option spec_float :=
  match e with
  | SdkError {| se_retry_after := Some raw |} =>
      match float_of_text raw with
      | inr value => if negb (float_isfinite value) || SFltb value f64_zero then None
                     else Some (f64_min value retry_limit)
      | inl _ => None
      end
  | _ => None
  end.

(** [status is not None and low <= status < high] *)
Definition status_within (low high : Z) (status : option Z) : bool :=
  match status with Some s => (low <=? s) && (s <? high) | None => false end.

Definition classify_sdk_error (e : exn) : gateway_error :=
  let name := str_lower (class_name e) in
  let status := status_code e in
  if bool_decide (status = Some 401) || contains "authentication" name then
    gateway_raise AUTHENTICATION "provider_authentication_failed" false false
  else if bool_decide (status = Some 403) || contains "permission" name then
    gateway_raise AUTHORIZATION "provider_authorization_failed" false false
  else if bool_decide (status = Some 429) || contains "ratelimit" name || contains "rate_limit" name then
    mkGatewayError RATE_LIMIT "provider_rate_limited" true (_retry_after e) false
  else if status_within 400 500 status then
    gateway_raise INVALID_REQUEST "provider_rejected_request" false false
  else if contains "timeout" name then gateway_raise MODEL_TIMEOUT "provider_timeout" true true
  else if contains "connection" name || match status with Some s => 500 <=? s | None => false end then
    gateway_raise PROVIDER_UNAVAILABLE "provider_unavailable" true true
  else gateway_raise PROVIDER_BUG "provider_sdk_failure" false true.

(** ** Waiting for the operation

    What ends the wait first, what the operation then gave, and what it gives
    once it is cancelled; a deadline that passes while a cancelled operation
    still ends is not considered. *)
Inductive wake : Type := Finished | DeadlinePassed | TokenSet | TaskCancelled.

Record race : Type := mkRace {
  rc_is_set : bool;               (** [cancellation.is_set()] at the start *)
  rc_first : wake;
  rc_result : result sdk;
  rc_cancelled : result sdk;      (** after [operation_task.cancel()] *)
}.

(** A wait for the operation itself passes a cancellation on to it. *)
Definition interrupted (r : race) (e : exn) : result sdk :=
  match rc_cancelled r with inl CancelledError => inl e | other => other end.

(** [token]: whether a cancellation token is given; without one nothing sets
    it. *)
Definition await_with_cancellation (token : bool) (r : race) : result sdk :=
  if negb token then
    match rc_first r with
    | Finished | TokenSet => rc_result r
    | DeadlinePassed => interrupted r TimeoutError
    | TaskCancelled => interrupted r CancelledError
    end
  else if rc_is_set r then inl CancelledError
  else
    match rc_first r with
    | Finished => rc_result r
    | DeadlinePassed => inl TimeoutError
    | TaskCancelled => inl CancelledError
    | TokenSet =>
        match rc_cancelled r with
        | inl CancelledError | inr _ => inl CancelledError
        | inl e => inl e
        end
    end.

(** ** Settings *)

Record ProviderClientSettings : Type := mkProviderClientSettings {
  ps_api_key : SecretReference;
  ps_base_url : option string;
  ps_proxy_url : option string;
  ps_connect_timeout_seconds : spec_float;
  ps_read_timeout_seconds : spec_float;
  ps_max_connections : Z;
  ps_max_keepalive_connections : Z;
  ps_verify_tls : bool;
}.

Definition ProviderClientSettings_post_init (s : ProviderClientSettings) : result ProviderClientSettings :=
  raise! ValueError "provider base URL must use HTTPS"
    when! match ps_base_url s with Some u => negb (PyStr.starts_with "https://" u) | None => false end ;;
  raise! ValueError "proxy URL must use HTTP or HTTPS"
    when! match ps_proxy_url s with
          | Some u => negb (PyStr.starts_with "https://" u || PyStr.starts_with "http://" u)
          | None => false
          end ;;
  raise! ValueError "provider timeouts must be positive"
    when! SFleb (ps_connect_timeout_seconds s) f64_zero || SFleb (ps_read_timeout_seconds s) f64_zero ;;
  raise! ValueError "provider pool sizes are invalid"
    when! (ps_max_connections s <? 1) || (ps_max_keepalive_connections s <? 0) ;;
  raise! ValueError "keepalive pool cannot exceed total connections"
    when! ps_max_connections s <? ps_max_keepalive_connections s ;;
  raise! ValueError "provider TLS verification cannot be disabled" when! negb (ps_verify_tls s) ;;
  inr s.

(** ** Adapters

    The clock, [httpx.AsyncClient], the SDK's client class with its request
    for kwargs, a timeout and a token, and iteration and text of objects. *)
Class SdkLibrary (S C : Type) : Type := {
  sl_clock : M exn S spec_float;
  sl_open_http : ProviderClientSettings → M exn S unit;
  sl_close_http : M exn S unit;
  sl_client_factory : string → option string → M exn S C;
  sl_create : C → pydict → spec_float → bool → M exn S race;
  sl_iterate : list (string * sdk) → result (list sdk);
  sl_str : sdk → string;
}.

(** The part of an adapter that does not change; [secrets.resolve] of either
    provider is a function. *)
Record AdapterConfig : Type := mkAdapterConfig {
  ac_context : TenantContext;
  ac_resolve : TenantContext → SecretReference → result SecretValue;
  ac_settings : ProviderClientSettings;
  ac_max_response_chars : Z;
}.

Definition Adapter_init (config : AdapterConfig) : result AdapterConfig :=
  raise! ValueError "provider secret must belong to adapter tenant"
    when! negb (bool_decide (ctx_str (ac_context config)
                             = tid_value (sr_tenant_id (ps_api_key (ac_settings config))))) ;;
  raise! ValueError "response bound must be positive" when! ac_max_response_chars config <? 1 ;;
  inr config.

(** The environment, the two fields that change, and which HTTP clients are
    open. *)
Record Adapter (S C : Type) : Type := mkAdapter {
  ad_env : S;
  ad_client : option C;
  ad_http_client : option nat;
  ad_open : gset nat;
  ad_fresh : nat;
}.
Arguments mkAdapter {S C}.
Arguments ad_env {S C}.
Arguments ad_client {S C}.
Arguments ad_http_client {S C}.
Arguments ad_open {S C}.
Arguments ad_fresh {S C}.

Definition new_adapter {S C} (env : S) : Adapter S C := mkAdapter env None None ∅ 0.

Definition except_Exception (e : exn) : bool := match e with CancelledError => false | _ => true end.

(** The [except] clauses of [complete]. *)
Definition contain (e : exn) : exn :=
  match e with
  | TimeoutError => ModelGatewayError (gateway_raise MODEL_TIMEOUT "provider_timeout" true true)
  | CancelledError => ModelGatewayError (gateway_raise MODEL_CANCELLED "provider_call_cancelled" false true)
  | ModelGatewayError g => ModelGatewayError g
  | e => ModelGatewayError (classify_sdk_error e)
  end.

(** [max(0, int((clock() - started) * 1000))] *)
Definition latency_ms (started now : spec_float) : result Z :=
  let? z := int_of_json (PFloat (f64_mul (f64_sub now started) (sf_of_Z 1000))) in inr (Z.max 0 z).

Section Client.
Context {S C : Type} {Sdk : SdkLibrary S C} (config : AdapterConfig).

Abbreviation Ad := (M exn (Adapter S C)).

Definition on_sdk {A} (m : M exn S A) : Ad A := λ a,
  let '(r, env) := m (ad_env a) in
  (r, mkAdapter env (ad_client a) (ad_http_client a) (ad_open a) (ad_fresh a)).

Definition set_clients (client : option C) (http_client : option nat) (a : Adapter S C) : Adapter S C :=
  mkAdapter (ad_env a) client http_client (ad_open a) (ad_fresh a).

Definition open_http : Ad nat :=
  do! on_sdk (sl_open_http (ac_settings config)) ;;
  let! id := gets ad_fresh in
  do! modify (λ a, mkAdapter (ad_env a) (ad_client a) (ad_http_client a) ({[id]} ∪ ad_open a)
                     (Datatypes.S (ad_fresh a))) ;;
  ret id.

(** [await http_client.aclose()]: the client is closed, whatever its
    transport raises. *)
Definition aclose (id : nat) : Ad unit :=
  do! modify (λ a, mkAdapter (ad_env a) (ad_client a) (ad_http_client a) (ad_open a ∖ {[id]}) (ad_fresh a)) ;;
  on_sdk sl_close_http.

Definition reload_client : Ad unit :=
  let! http_client := gets ad_http_client in
  do! modify (set_clients None None) ;;
  match http_client with Some id => aclose id | None => ret tt end.

Definition _get_client : Ad C :=
  let! current := gets ad_client in
  match current with
  | Some client => ret client
  | None =>
      let! key := lift (ac_resolve config (ac_context config) (ps_api_key (ac_settings config))) in
      let! http_client := open_http in
      let! api_key := lift (utf8_decode (reveal key)) in
      let! client := catch (on_sdk (sl_client_factory api_key (ps_base_url (ac_settings config))))
                       (λ e, if except_Exception e then do! aclose http_client ;; raise e else raise e) in
      do! modify (set_clients (Some client) (Some http_client)) ;;
      ret client
  end.

(** The request of the SDK's client, awaited. *)
Definition create_response (client : C) (kwargs : pydict) (request : ModelRequest) (token : bool) : Ad sdk :=
  let! race := on_sdk (sl_create client kwargs (mq_timeout_seconds request) token) in
  lift (await_with_cancellation token race).

(** The [try] block of [complete]. *)
Definition containing {A} (block : Ad A) : Ad A := catch block (λ e, raise (contain e)).
End Client.

(** ** Building requests and answers *)

(** A loop that may raise. *)
Fixpoint foldl_result {A B} (f : A → B → result A) (a : A) (l : list B) : result A :=
  match l with
  | [] => inr a
  | b :: l' => let? a' := f a b in foldl_result f a' l'
  end.

Definition optional_result {A B} (f : A → result B) (o : option A) : result (option B) :=
  match o with Some a => let? b := f a in inr (Some b) | None => inr None end.

Definition str (s : string) : pyval := PStr s.
Definition obj (items : list (string * pyval)) : pyval := PDict (map (λ kv, (KStr kv.1, kv.2)) items).

Section Answers.
Context {Repr : PyRepr} {Limit : RecursionLimit}.

(** [except json.JSONDecodeError] *)
Definition except_JSONDecodeError (e : exn) : bool :=
  match e with ValueError m => bool_decide (m = "JSONDecodeError"%string) | _ => false end.

(** [json.loads] of a text that must hold an object. *)
Definition load_object (not_json not_object : string) (s : string) : result pydict :=
  match json_loads s with
  | inr (PDict d) => inr d
  | inr _ => inl (ambiguous_failure MALFORMED_RESPONSE not_object)
  | inl e => if except_JSONDecodeError e then inl (ambiguous_failure MALFORMED_RESPONSE not_json) else inl e
  end.

(** What the loop over the output has gathered. *)
Record gathered : Type := mkGathered {
  ga_parts : list ContentPart;
  ga_refusal : option string;
  ga_structured : option pydict;
}.

Definition nothing : gathered := mkGathered [] None None.
Definition add_part (p : ContentPart) (g : gathered) : gathered :=
  mkGathered (ga_parts g ++ [p]) (ga_refusal g) (ga_structured g).

Definition call_part (proposal : ToolCallProposal) : result ContentPart :=
  let? p := ToolCallProposal_post_init proposal in inr (ToolCallPart p).

Definition text_part (text : string) : result ContentPart :=
  let? _ := TextPart_post_init text in inr (TextPart text).

(** A text of the answer, which is the structured output where one is asked
    for. *)
Definition add_text (max_response_chars : Z) (structured : string → result pydict) (wanted : bool) (g : gathered) (value : sdk)
    : result gathered :=
  let? text := bounded_text value max_response_chars in
  let? part := text_part text in
  let g := add_part part g in
  if wanted then let? d := structured text in inr (mkGathered (ga_parts g) (ga_refusal g) (Some d)) else inr g.

Context {S C : Type} {Sdk : SdkLibrary S C}.

(** [for x in o] *)
Definition iterate (o : sdk) : result (list sdk) :=
  match o with
  | SdkList l => inr l
  | SdkObject attributes => sl_iterate attributes
  | SdkValue (PList l) | SdkValue (PTuple l) => inr (map SdkValue l)
  | SdkValue (PDict d) | SdkValue (PProxy d) =>
      inr (map (λ kv, SdkValue (match kv.1 with KStr s => PStr s | KOther n => PInt n end)) d)
  | SdkValue (PStr s) => inr (map (λ c, SdkValue (PStr (String c ""))) (String.list_ascii_of_string s))
  | SdkValue (PBytes s) =>
      inr (map (λ c, SdkValue (PInt (Z.of_N (Ascii.N_of_ascii c)))) (String.list_ascii_of_string s))
  | SdkValue _ => inl (TypeError "object is not iterable")
  end.

(** [str(o)] *)
Definition sdk_str (o : sdk) : string := match o with SdkValue v => py_str v | o => sl_str o end.

(** [getattr(raw, "_request_id", None) or getattr(raw, "id", None)] *)
Definition provider_request_id (raw : sdk) : option string :=
  _optional_text (or_else (getattr raw "_request_id" none) (getattr raw "id" none)).

End Answers.

(** ** The scripted provider *)

Definition ScriptedOutcome : Type := ModelResponse + gateway_error.

Record RecordedCall : Type := mkRecordedCall {
  rc_request : ModelRequest;
  rc_model : ModelIdentity;
}.

Record ScriptedModelProvider : Type := mkScripted {
  sm_provider_name : string;
  sm_outcomes : list ScriptedOutcome;
  sm_calls : list RecordedCall;
}.

Definition ScriptedModelProvider_init (provider_name : string) (outcomes : list ScriptedOutcome)
    : result ScriptedModelProvider :=
  raise! ValueError "provider name is required" when! PyStr.is_empty provider_name ;;
  inr (mkScripted provider_name outcomes []).

(** [cancelled]: a token is given and set. *)
Definition scripted_complete (request : ModelRequest) (model : ModelIdentity) (cancelled : bool)
    : M exn ScriptedModelProvider ModelResponse :=
  let! name := gets sm_provider_name in
  do! raise_if (negb (bool_decide (mi_provider model = name)))
        (ValueError "model does not belong to scripted provider") ;;
  do! raise_if cancelled (ModelGatewayError (gateway_raise MODEL_CANCELLED "cancelled_before_attempt" false false)) ;;
  do! modify (λ p, mkScripted (sm_provider_name p) (sm_outcomes p) (sm_calls p ++ [mkRecordedCall request model])) ;;
  let! outcomes := gets sm_outcomes in
  match outcomes with
  | [] => raise (RuntimeError "scripted provider has no remaining outcome")
  | outcome :: rest =>
      do! modify (λ p, mkScripted (sm_provider_name p) rest (sm_calls p)) ;;
      match outcome with
      | inr error => raise (ModelGatewayError error)
      | inl response => ret response
      end
  end.
