(* ===== verification/OpenAI.v ===== *)
(** * The OpenAI adapter

    Models [providers/openai.py]: the translation of requests to the
    Responses API and of its responses, and [complete]. *)

From stdpp Require Import base gmap list strings.
From Stdlib Require Import ZArith Lia SpecFloat.
From S2P Require Import Prelude PyLib Json Events Identity Amounts Floats Parsing Wire JsonText RedisStreams.
From S2P Require Import ModelContracts SecretsBoundary Providers.

Local Open Scope Z_scope.

(** ** Requests *)

Section Request.
Context {Repr : PyRepr} {Limit : RecursionLimit}.

Definition openai_role (role : MessageRole) : string :=
  match role with MR_SYSTEM => "developer" | r => sc_value r end.

(** [if content: inputs.append({"role": role, "content": list(content)})] *)
Definition flush (role : string) (content : list pyval) (inputs : list pyval) : list pyval :=
  match content with
  | [] => inputs
  | _ => inputs ++ [obj [("role", str role); ("content", PList content)]%string]
  end.

Definition function_call (proposal : ToolCallProposal) : result pyval :=
  let? object := json_object (tc_arguments proposal) in
  let? arguments := dumping object in
  inr (obj [("type", str "function_call"); ("call_id", str (tc_call_id proposal));
            ("name", str (tc_tool_name proposal)); ("arguments", str arguments)]%string).

Definition function_call_output (call_id : string) (content : pyval) : result pyval :=
  let? output := serialize_tool_result content in
  inr (obj [("type", str "function_call_output"); ("call_id", str call_id); ("output", str output)]%string).

(** The loop over the parts of a message. *)
Fixpoint openai_parts (role : string) (parts : list ContentPart) (content inputs : list pyval)
    : result (list pyval) :=
  match parts with
  | [] => inr (flush role content inputs)
  | part :: parts' =>
      match part with
      | TextPart text =>
          openai_parts role parts' (content ++ [obj [("type", str "input_text"); ("text", str text)]%string]) inputs
      | ImagePart _ uri =>
          openai_parts role parts'
            (content ++ [obj [("type", str "input_image"); ("image_url", str uri)]%string]) inputs
      | ToolCallPart proposal =>
          let? call := function_call proposal in
          openai_parts role parts' [] (flush role content inputs ++ [call])
      | ToolResultPart call_id result _ =>
          let? output := function_call_output call_id result in
          openai_parts role parts' [] (flush role content inputs ++ [output])
      end
  end.

Definition openai_inputs (messages : list ModelMessage) : result (list pyval) :=
  foldl_result (λ inputs m, openai_parts (openai_role (mm_role m)) (mm_content m) [] inputs) [] messages.

Definition openai_tool (t : ToolDefinition) : result pyval :=
  let? parameters := json_object (js_schema (td_input_schema t)) in
  inr (obj [("type", str "function"); ("name", str (td_name t)); ("description", str (td_description t));
            ("parameters", parameters); ("strict", PBool (js_strict (td_input_schema t)))]%string).

Definition openai_format (s : JsonSchema) : result pyval :=
  let? schema := json_object (js_schema s) in
  inr (obj [("format", obj [("type", str "json_schema"); ("name", str (js_name s)); ("schema", schema);
                            ("strict", PBool (js_strict s))])]%string).

(** What building a request may raise: [float] of the temperature raises nothing,
    which is a number from 0 to 2. *)
Definition OpenAI_request_kwargs (request : ModelRequest) (model : ModelIdentity) : result pydict :=
  let? inputs := openai_inputs (mq_messages request) in
  let? tools := map_result openai_tool (mq_tools request) in
  let? text := optional_result openai_format (mq_response_schema request) in
  inr (map (λ kv, (KStr kv.1, kv.2))
    ([("model", str (mi_model model));
      ("input", PList inputs);
      ("max_output_tokens", PInt (mq_max_output_tokens request));
      ("temperature", PFloat (float_of_dec (mq_temperature request)));
      ("extra_headers", obj [("Idempotency-Key", str (mq_idempotency_key request))])]%string
     ++ match tools with [] => [] | _ => [("tools"%string, PList tools)] end
     ++ match text with Some format => [("text"%string, format)] | None => [] end)).
End Request.

(** ** Responses *)

Section Response.
Context {Repr : PyRepr} {Limit : RecursionLimit} {S C : Type} {Sdk : SdkLibrary S C} (config : AdapterConfig).

Definition _json_arguments (value : sdk) : result pydict :=
  match value with
  | SdkValue (PDict d) | SdkValue (PProxy d) => inr d
  | SdkValue (PStr s) => load_object "tool_arguments_not_json" "tool_arguments_not_object" s
  | _ => inl (ambiguous_failure MALFORMED_RESPONSE "tool_arguments_not_json")
  end.

Definition openai_content (wanted : bool) (g : gathered) (content : sdk) : result gathered :=
  let content_type := getattr content "type" none in
  if is_text content_type "output_text" then
    add_text (ac_max_response_chars config) (λ text, _json_arguments (SdkValue (PStr text))) wanted g (getattr content "text" none)
  else if is_text content_type "refusal" then
    let? refusal := bounded_text (getattr content "refusal" none) (ac_max_response_chars config) in
    inr (mkGathered (ga_parts g) (Some refusal) (ga_structured g))
  else inr g.

Definition openai_item (wanted : bool) (g : gathered) (item : sdk) : result gathered :=
  let item_type := getattr item "type" none in
  if is_text item_type "function_call" then
    let? arguments := _json_arguments (getattr item "arguments" none) in
    let? part := call_part (mkToolCallProposal (sdk_str (getattr item "call_id" (SdkValue (PStr ""))))
                              (sdk_str (getattr item "name" (SdkValue (PStr "")))) arguments) in
    inr (add_part part g)
  else if is_text item_type "message" then
    let? contents := iterate (getattr item "content" (SdkValue (PTuple []))) in
    foldl_result (openai_content wanted) g contents
  else inr g.

Definition _optional_nonnegative_int (o : sdk) : result Z := if is_none o then inr 0 else _usage_int o.

Definition openai_usage (usage : sdk) : result TokenUsage :=
  let input_details := getattr usage "input_tokens_details" none in
  let output_details := getattr usage "output_tokens_details" none in
  let? total_input := _usage_int (getattr usage "input_tokens" none) in
  let? cache_read := _optional_nonnegative_int (getattr input_details "cached_tokens" (SdkValue (PInt 0))) in
  raise! ambiguous_failure MALFORMED_RESPONSE "cached_tokens_exceed_input_tokens"
    when! total_input <? cache_read ;;
  let? total_output := _usage_int (getattr usage "output_tokens" none) in
  let? reasoning := _optional_nonnegative_int (getattr output_details "reasoning_tokens" (SdkValue (PInt 0))) in
  raise! ambiguous_failure MALFORMED_RESPONSE "reasoning_tokens_exceed_output_tokens"
    when! total_output <? reasoning ;;
  TokenUsage_post_init (mkTokenUsage (total_input - cache_read) (total_output - reasoning) cache_read 0 reasoning).

Definition is_tool_call (p : ContentPart) : bool := match p with ToolCallPart _ => true | _ => false end.

Definition openai_finish (raw : sdk) (g : gathered) : FinishReason :=
  let incomplete_reason := getattr (getattr raw "incomplete_details" none) "reason" none in
  if is_some (ga_refusal g) then FR_REFUSAL
  else if is_text incomplete_reason "max_output_tokens" then FR_LENGTH
  else if is_text incomplete_reason "content_filter" then FR_CONTENT_FILTER
  else if existsb is_tool_call (ga_parts g) then FR_TOOL_CALLS
  else FR_STOP.

Definition openai_safety (refused : bool) (finish : FinishReason) : result SafetyResult :=
  SafetyResult_post_init
    (if refused then mkSafetyResult SO_REFUSED (Some "provider_refusal"%string)
     else match finish with
          | FR_CONTENT_FILTER => mkSafetyResult SO_FILTERED (Some "provider_content_filter"%string)
          | _ => mkSafetyResult SO_ALLOWED None
          end).

(** The output and the usage of an answer. *)
Definition openai_parse (raw : sdk) (request : ModelRequest) : result (gathered * TokenUsage) :=
  let usage := getattr raw "usage" none in
  match as_list (getattr raw "output" none) with
  | Some output =>
      raise! ambiguous_failure MALFORMED_RESPONSE "malformed_openai_response" when! is_none usage ;;
      let? g := foldl_result (openai_item (is_some (mq_response_schema request))) nothing output in
      let? token_usage := openai_usage usage in
      inr (g, token_usage)
  | None => inl (ambiguous_failure MALFORMED_RESPONSE "malformed_openai_response")
  end.

Definition OpenAI_response (raw : sdk) (request : ModelRequest) (model : ModelIdentity) (started : spec_float)
    : M exn (Adapter S C) ModelResponse :=
  let! parsed := lift (openai_parse raw request) in
  let '(g, usage) := parsed in
  let finish := openai_finish raw g in
  let! safety := lift (openai_safety (is_some (ga_refusal g)) finish) in
  let! now := on_sdk sl_clock in
  lift (let? latency := latency_ms started now in
        ModelResponse_post_init
          (mkModelResponse (mq_request_id request) model (ga_parts g) finish safety usage latency
             (provider_request_id raw) (ga_structured g))).
End Response.

Definition OpenAI_complete {Repr : PyRepr} {Limit : RecursionLimit} {S C} {Sdk : SdkLibrary S C}
    (config : AdapterConfig) (request : ModelRequest) (model : ModelIdentity) (token : bool)
    : M exn (Adapter S C) ModelResponse :=
  do! raise_if (negb (bool_decide (mi_provider model = "openai"%string)))
        (ValueError "OpenAI adapter received a non-OpenAI model") ;;
  let! started := on_sdk sl_clock in
  let! kwargs := lift (OpenAI_request_kwargs request model) in
  containing (let! client := _get_client config in
              let! raw := create_response client kwargs request token in
              OpenAI_response config raw request model started).
