(* ===== verification/Anthropic.v ===== *)
(** * The Anthropic adapter

    Models [providers/anthropic.py]: the translation of requests to the
    Messages API and of its responses, and [complete]. *)

From stdpp Require Import base gmap list strings.
From Stdlib Require Import ZArith Lia SpecFloat.
From S2P Require Import Prelude PyLib Json Events Identity Amounts Floats Parsing Wire JsonText RedisStreams.
From S2P Require Import ModelContracts SecretsBoundary Providers.

Local Open Scope Z_scope.

(** ** Requests *)

Section Request.
Context {Repr : PyRepr} {Limit : RecursionLimit}.

Definition anthropic_part (part : ContentPart) : result pyval :=
  match part with
  | TextPart text => inr (obj [("type", str "text"); ("text", str text)])
  | ImagePart _ uri => inr (obj [("type", str "image"); ("source", obj [("type", str "url"); ("url", str uri)])])
  | ToolCallPart proposal =>
      let? input := json_object (tc_arguments proposal) in
      inr (obj [("type", str "tool_use"); ("id", str (tc_call_id proposal)); ("name", str (tc_tool_name proposal));
                ("input", input)])
  | ToolResultPart call_id result is_error =>
      let? content := serialize_tool_result result in
      inr (obj [("type", str "tool_result"); ("tool_use_id", str call_id);
                ("content", str content); ("is_error", PBool is_error)])
  end%string.

Definition anthropic_role (role : MessageRole) : string :=
  match role with MR_ASSISTANT => "assistant" | _ => "user" end.

Definition anthropic_message (m : ModelMessage) : result pyval :=
  let? content := map_result anthropic_part (mm_content m) in
  inr (obj [("role", str (anthropic_role (mm_role m))); ("content", PList content)]%string).

Definition is_system (m : ModelMessage) : bool := bool_decide (mm_role m = MR_SYSTEM).

(** One loop fills both lists. *)
Definition split_messages (messages : list ModelMessage) : result (list string * list pyval) :=
  foldl_result (λ acc m, if is_system m then inr (acc.1 ++ [message_text m], acc.2)
                         else let? message := anthropic_message m in inr (acc.1, acc.2 ++ [message]))
    ([], []) messages.

Definition paragraphs (systems : list string) : string :=
  let newline := String (Ascii.ascii_of_N 10) "" in join (newline +:+ newline) systems.

Definition anthropic_tool (t : ToolDefinition) : result pyval :=
  let? input_schema := json_object (js_schema (td_input_schema t)) in
  inr (obj [("name", str (td_name t)); ("description", str (td_description t));
            ("input_schema", input_schema)]%string).

Definition anthropic_format (s : JsonSchema) : result pyval :=
  let? schema := json_object (js_schema s) in
  inr (obj [("format", obj [("type", str "json_schema"); ("schema", schema)])]%string).

Definition Anthropic_request_kwargs (request : ModelRequest) (model : ModelIdentity) : result pydict :=
  let? split := split_messages (mq_messages request) in
  let '(systems, messages) := split in
  let? tools := map_result anthropic_tool (mq_tools request) in
  let? output_config := optional_result anthropic_format (mq_response_schema request) in
  inr (map (λ kv, (KStr kv.1, kv.2))
    ([("model", str (mi_model model));
      ("messages", PList messages);
      ("max_tokens", PInt (mq_max_output_tokens request));
      ("temperature", PFloat (float_of_dec (mq_temperature request)));
      ("extra_headers", obj [("Idempotency-Key", str (mq_idempotency_key request))])]%string
     ++ match systems with [] => [] | _ => [("system"%string, str (paragraphs systems))] end
     ++ match tools with [] => [] | _ => [("tools"%string, PList tools)] end
     ++ match output_config with Some format => [("output_config"%string, format)] | None => [] end)).
End Request.

(** ** Responses *)

Section Response.
Context {Repr : PyRepr} {Limit : RecursionLimit} {S C : Type} {Sdk : SdkLibrary S C} (config : AdapterConfig).

Definition _json_object : string → result pydict :=
  load_object "structured_output_not_json" "structured_output_not_object".

Definition anthropic_item (wanted : bool) (g : gathered) (item : sdk) : result gathered :=
  let item_type := getattr item "type" none in
  if is_text item_type "text" then
    add_text (ac_max_response_chars config) _json_object wanted g (getattr item "text" none)
  else if is_text item_type "tool_use" then
    match getattr item "input" none with
    | SdkValue (PDict value) | SdkValue (PProxy value) =>
        let? part := call_part (mkToolCallProposal (sdk_str (getattr item "id" (SdkValue (PStr ""))))
                                  (sdk_str (getattr item "name" (SdkValue (PStr "")))) value) in
        inr (add_part part g)
    | _ => inl (ambiguous_failure MALFORMED_RESPONSE "tool_arguments_not_object")
    end
  else inr g.

Definition finish_by_reason (reason : string) : FinishReason :=
  match find (λ kv, bool_decide (kv.1 = reason))
          [("end_turn", FR_STOP); ("stop_sequence", FR_STOP); ("max_tokens", FR_LENGTH);
           ("tool_use", FR_TOOL_CALLS); ("refusal", FR_REFUSAL)]%string with
  | Some (_, finish) => finish
  | None => FR_UNKNOWN
  end.

Definition anthropic_finish (raw : sdk) : FinishReason :=
  match getattr raw "stop_reason" none with
  | SdkValue (PStr reason) => finish_by_reason reason
  | _ => FR_UNKNOWN
  end.

Definition anthropic_safety (finish : FinishReason) : result SafetyResult :=
  SafetyResult_post_init
    (match finish with
     | FR_REFUSAL => mkSafetyResult SO_REFUSED (Some "provider_refusal"%string)
     | _ => mkSafetyResult SO_ALLOWED None
     end).

Definition anthropic_usage (usage : sdk) : result TokenUsage :=
  let zero := SdkValue (PInt 0) in
  let? input := _usage_int (getattr usage "input_tokens" none) in
  let? output := _usage_int (getattr usage "output_tokens" none) in
  let? cache_read := _usage_int (getattr usage "cache_read_input_tokens" zero) in
  let? cache_write := _usage_int (getattr usage "cache_creation_input_tokens" zero) in
  TokenUsage_post_init (mkTokenUsage input output cache_read cache_write 0).

Definition anthropic_parse (raw : sdk) (request : ModelRequest) : result gathered :=
  match as_list (getattr raw "content" none) with
  | Some content =>
      raise! ambiguous_failure MALFORMED_RESPONSE "malformed_anthropic_response"
        when! is_none (getattr raw "usage" none) ;;
      foldl_result (anthropic_item (is_some (mq_response_schema request))) nothing content
  | None => inl (ambiguous_failure MALFORMED_RESPONSE "malformed_anthropic_response")
  end.

Definition Anthropic_response (raw : sdk) (request : ModelRequest) (model : ModelIdentity) (started : spec_float)
    : M exn (Adapter S C) ModelResponse :=
  let! g := lift (anthropic_parse raw request) in
  let finish := anthropic_finish raw in
  let! safety := lift (anthropic_safety finish) in
  let! usage := lift (anthropic_usage (getattr raw "usage" none)) in
  let! now := on_sdk sl_clock in
  lift (let? latency := latency_ms started now in
        ModelResponse_post_init
          (mkModelResponse (mq_request_id request) model (ga_parts g) finish safety usage latency
             (provider_request_id raw) (ga_structured g))).
End Response.

Definition Anthropic_complete {Repr : PyRepr} {Limit : RecursionLimit} {S C} {Sdk : SdkLibrary S C}
    (config : AdapterConfig) (request : ModelRequest) (model : ModelIdentity) (token : bool)
    : M exn (Adapter S C) ModelResponse :=
  do! raise_if (negb (bool_decide (mi_provider model = "anthropic"%string)))
        (ValueError "Anthropic adapter received a non-Anthropic model") ;;
  let! started := on_sdk sl_clock in
  containing (let! client := _get_client config in
              let! kwargs := lift (Anthropic_request_kwargs request model) in
              let! raw := create_response client kwargs request token in
              Anthropic_response config raw request model started).
