(* ===== verification/ProviderTheorems.v ===== *)
(** * Theorems about the provider adapters

    What a failed call raises, what an answer is metered at, what a request
    carries, and which HTTP clients stay open. *)

From stdpp Require Import base gmap sets list strings.
From Stdlib Require Import ZArith Lia SpecFloat.
From S2P Require Import Prelude PyLib Json Events Identity Amounts Ledger Raises Floats Parsing Wire PyEquality JsonText RedisStreams.
From S2P Require Import RedisQueue ModelContracts SecretsBoundary Config Providers OpenAI Anthropic.

Local Open Scope Z_scope.

(** ** Failures *)

(** What every failure of a provider call says: a code, a retry delay only of
    a rate limit and of at most five minutes, and a retry only where it may
    help. *)
Record failure_ok (g : gateway_error) : Prop := {
  fo_valid : ModelGatewayError_init g = inr g;
  fo_delay : ∀ t, ge_retry_after_seconds g = Some t →
    ge_error_class g = RATE_LIMIT ∧ float_isfinite t = true ∧ SFltb t f64_zero = false ∧ SFleb t retry_limit = true;
  fo_retryable : ge_retryable g = true →
    ge_error_class g ∈ [RATE_LIMIT; MODEL_TIMEOUT; PROVIDER_UNAVAILABLE];
}.

Lemma raised_ok c code retryable ambiguous :
  code ≠ ""%string → (retryable = true → c ∈ [RATE_LIMIT; MODEL_TIMEOUT; PROVIDER_UNAVAILABLE]) →
  failure_ok (gateway_raise c code retryable ambiguous).
Proof.
  intros Hc Hr. apply PyStr.is_empty_false in Hc. split; [|done|exact Hr].
  unfold ModelGatewayError_init. cbn. by rewrite Hc.
Qed.

(** Two numbers are in order one way or the other. *)
Lemma SFleb_total x y : float_isfinite x = true → float_isfinite y = true → SFltb y x = false → SFleb x y = true.
Proof.
  unfold SFltb, SFleb. destruct x as [sx| | |sx mx ex], y as [sy| | |sy my ey]; try done; intros _ _; cbn [SFcompare];
    try (destruct sx; done || (destruct sy; done)); try (destruct sy; done).
  change (Pos.compare_cont Eq mx my) with (Pos.compare mx my).
  change (Pos.compare_cont Eq my mx) with (Pos.compare my mx).
  rewrite (Z.compare_antisym ey ex), (Pos.compare_antisym my mx).
  destruct sx, sy; try done; destruct (ey ?= ex); cbn; try done; by destruct (Pos.compare my mx).
Qed.

Lemma retry_after_bounds e t : _retry_after e = Some t →
  float_isfinite t = true ∧ SFltb t f64_zero = false ∧ SFleb t retry_limit = true.
Proof.
  unfold _retry_after. destruct e; try done. destruct error as [class status [raw|]]; [|done].
  destruct (float_of_text raw) as [?|x]; [done|].
  destruct (negb (float_isfinite x) || SFltb x f64_zero) eqn:Hx; [done|]. intros [= <-].
  apply orb_false_iff in Hx as [Hfin%negb_false_iff Hpos]. unfold f64_min.
  assert (Hlim : float_isfinite retry_limit = true) by (vm_compute; reflexivity).
  destruct (SFltb retry_limit x) eqn:Hlt; [vm_compute; done|]. split; [done|]. split; [done|].
  by apply SFleb_total.
Qed.

Lemma rate_limited_ok e : failure_ok (mkGatewayError RATE_LIMIT "provider_rate_limited" true (_retry_after e) false).
Proof.
  split; cbn [ge_retry_after_seconds ge_error_class ge_retryable].
  - unfold ModelGatewayError_init. cbn [ge_code ge_retry_after_seconds PyStr.is_empty reject_if rbind].
    destruct (_retry_after e) as [t|] eqn:Ht; [|done]. apply retry_after_bounds in Ht as (_ & Ht & _).
    change (sf_of_Z 0) with f64_zero. by rewrite Ht.
  - intros t Ht. split; [done|]. by apply retry_after_bounds in Ht.
  - intros _. left.
Qed.

Lemma classified_failure_ok e : failure_ok (classify_sdk_error e).
Proof.
  unfold classify_sdk_error.
  repeat match goal with |- failure_ok (if ?b then _ else _) => destruct b end;
    first [ apply rate_limited_ok
          | apply raised_ok; [done|first [discriminate|intros _; apply list_elem_of_In; simpl; tauto]] ].
Qed.

(** A failure in the block of [complete] is a gateway error that is as it
    should be, or any other exception. *)
Definition acceptable (e : exn) : Prop := match e with ModelGatewayError g => failure_ok g | _ => True end.

Definition gateway_failure (e : exn) : Prop := ∃ g, e = ModelGatewayError g ∧ failure_ok g.

Lemma contained e : acceptable e → gateway_failure (contain e).
Proof.
  destruct e; cbn; intros H; try (eexists; split; [reflexivity|apply classified_failure_ok]).
  - by exists error.
  - eexists. split; [reflexivity|]. apply raised_ok; [done|]. intros _. apply list_elem_of_In. simpl. tauto.
  - eexists. split; [reflexivity|]. by apply raised_ok.
Qed.

Lemma malformed_ok code : code ≠ ""%string → acceptable (ambiguous_failure MALFORMED_RESPONSE code).
Proof. intros Hc. by apply raised_ok. Qed.

#[local] Hint Extern 2 (acceptable (ambiguous_failure _ _)) => (apply malformed_ok; discriminate) : raises.
#[local] Hint Extern 2 (acceptable _) => exact I : raises.
Abbreviation accepted := (raises_result acceptable).

#[export] Instance acceptable_store_errors : StoreErrors acceptable.
Proof. by intros []. Qed.

Lemma accepted_decoding {A} (r : result A) : raises_result (λ e, except_decoding e = true) r → accepted r.
Proof. intros Hr e He. specialize (Hr e He). by destruct e. Qed.

Lemma accepted_loads `{RecursionLimit} text : accepted (json_loads text).
Proof. apply accepted_decoding, poisonous_loads. Qed.
Lemma accepted_utf8 text : accepted (utf8_decode text).
Proof. apply accepted_decoding, poisonous_utf8. Qed.
#[local] Hint Resolve accepted_loads accepted_utf8 : raises.

(** ** Where the failures come from

    The SDK, the HTTP library and the secrets raise no gateway errors. *)

Definition foreign (e : exn) : Prop := ∀ g, e ≠ ModelGatewayError g.

Class SdkLaws (S C : Type) {Sdk : SdkLibrary S C} : Prop := {
  sl_clock_total : raises (λ _, False) sl_clock;
  sl_open_foreign settings : raises foreign (sl_open_http settings);
  sl_close_foreign : raises foreign sl_close_http;
  sl_client_foreign key url : raises foreign (sl_client_factory key url);
  sl_create_foreign client kwargs timeout token : raises foreign (sl_create client kwargs timeout token);
  sl_race_foreign client kwargs timeout token s r s' : sl_create client kwargs timeout token s = (inr r, s') →
    raises_result foreign (rc_result r) ∧ raises_result foreign (rc_cancelled r);
  sl_iterate_foreign attributes : raises_result foreign (sl_iterate attributes);
}.

Lemma foreign_acceptable e : foreign e → acceptable e.
Proof. destruct e; try done. intros H. by destruct (H error). Qed.

Lemma raises_foldl (P : exn → Prop) {A B} (f : A → B → result A) a l :
  (∀ a b, raises_result P (f a b)) → raises_result P (foldl_result f a l).
Proof.
  intros Hf. revert a. induction l as [|b l IH]; intros a; cbn [foldl_result]; [apply raises_inr|].
  apply raises_rbind; [apply Hf|exact IH].
Qed.

(** ** What can be written as JSON *)

(** The exceptions of [thaw_json] and [json.dumps]. *)
Inductive unserializable : exn → Prop :=
| too_nested : unserializable RecursionError
| too_long : unserializable (ValueError "Exceeds the limit for integer string conversion")
| bad_key : unserializable (TypeError "keys must be str, int, float, bool or None")
| bad_value : unserializable (TypeError "Object is not JSON serializable").

(** JSON within the interpreter's limits. *)
Definition serializable {Limit : RecursionLimit} (v : pyval) : bool :=
  json_value v && short_integers v && nests v recursion_limit.

Definition part_serializable {Limit : RecursionLimit} (p : ContentPart) : bool :=
  match p with
  | ToolCallPart proposal => serializable (PProxy (tc_arguments proposal))
  | ToolResultPart _ result _ => serializable result
  | _ => true
  end.

Definition schema_nests {Limit : RecursionLimit} (s : JsonSchema) : bool := nests (PProxy (js_schema s)) recursion_limit.

Definition request_serializable {Limit : RecursionLimit} (r : ModelRequest) : bool :=
  forallb part_serializable (all_parts (mq_messages r)) &&
  forallb (λ t, schema_nests (td_input_schema t)) (mq_tools r) &&
  match mq_response_schema r with Some s => schema_nests s | None => true end.

Section Serializable.
Context {Repr : PyRepr} {Limit : RecursionLimit}.

Lemma thawing_ok v : nests v recursion_limit = true → thawing v = inr (thaw_json v).
Proof. intros Hn. unfold thawing. by rewrite Hn. Qed.

Lemma dumping_ok v : json_value v = true → short_integers v = true → dumping (thaw_json v) = inr (json_dumps (thaw_json v)).
Proof. intros Hj Hs. unfold dumping. by rewrite sort_thaw, json_check_arranged. Qed.

Lemma result_serializes v : serializable v = true → serialize_tool_result v = inr (json_dumps (thaw_json v)).
Proof. unfold serializable, serialize_tool_result. intros H. bool_props. rewrite thawing_ok by done. by apply dumping_ok. Qed.

Lemma call_built proposal : serializable (PProxy (tc_arguments proposal)) = true → ∃ call, function_call proposal = inr call.
Proof.
  unfold serializable, function_call, json_object. intros H. bool_props. rewrite thawing_ok by done. cbn [rbind].
  rewrite dumping_ok by done. by eexists.
Qed.

Lemma foldl_result_total {A B} (f : A → B → result A) a l :
  (∀ a b, b ∈ l → ∃ a', f a b = inr a') → ∃ a', foldl_result f a l = inr a'.
Proof.
  revert a. induction l as [|b l IH]; intros a Hf; cbn [foldl_result]; [by eexists|].
  destruct (Hf a b) as [a' ->]; [left|]. apply IH. intros. apply Hf. by right.
Qed.

Lemma map_result_total {A B} (f : A → result B) l : (∀ a, a ∈ l → ∃ b, f a = inr b) → ∃ bs, map_result f l = inr bs.
Proof.
  induction l as [|a l IH]; intros Hf; cbn [map_result]; [by eexists|].
  destruct (Hf a) as [b ->]; [left|]. destruct IH as [bs ->]; [|by eexists]. intros. apply Hf. by right.
Qed.

Lemma parts_built role parts content inputs : forallb part_serializable parts = true →
  ∃ inputs', openai_parts role parts content inputs = inr inputs'.
Proof.
  revert content inputs. induction parts as [|part parts IH]; intros content inputs; cbn [forallb openai_parts];
    intros H; bool_props; [by eexists|].
  destruct part as [| |proposal|call_id result is_error]; try (by apply IH).
  - destruct (call_built proposal) as [call ->]; [done|]. by apply IH.
  - unfold function_call_output. rewrite result_serializes by done. by apply IH.
Qed.

Lemma message_parts messages m : forallb part_serializable (all_parts messages) = true → m ∈ messages →
  forallb part_serializable (mm_content m) = true.
Proof.
  unfold all_parts. induction messages as [|m' messages IH]; intros Hs Hm; [by apply not_elem_of_nil in Hm|].
  cbn [flat_map] in Hs. rewrite forallb_app in Hs. bool_props. apply elem_of_cons in Hm as [->|Hm]; [done|by apply IH].
Qed.

Lemma inputs_built messages : forallb part_serializable (all_parts messages) = true →
  ∃ inputs, openai_inputs messages = inr inputs.
Proof.
  intros Hs. apply foldl_result_total. intros inputs m Hm. apply parts_built. by eapply message_parts.
Qed.


Lemma openai_kwargs_built request model : request_serializable request = true →
  ∃ kwargs, OpenAI_request_kwargs request model = inr kwargs.
Proof.
  unfold request_serializable. intros H. bool_props. unfold OpenAI_request_kwargs.
  destruct (inputs_built (mq_messages request)) as [inputs ->]; [done|]. cbn [rbind].
  destruct (map_result_total openai_tool (mq_tools request)) as [tools ->].
  { intros t Ht. unfold openai_tool, json_object. rewrite thawing_ok; [by eexists|].
    match goal with H : forallb _ (mq_tools request) = true |- _ => rewrite forallb_forall in H; apply H end.
    by apply list_elem_of_In. }
  cbn [rbind]. destruct (mq_response_schema request) as [s|]; cbn [optional_result]; [|by eexists].
  unfold openai_format, json_object. rewrite thawing_ok by done. by eexists.
Qed.


End Serializable.

Section Failures.
Context {Repr : PyRepr} {Limit : RecursionLimit} {S C : Type} {Sdk : SdkLibrary S C} {Laws : SdkLaws S C}
  (config : AdapterConfig).
Hypothesis resolve_foreign : raises_result foreign
  (ac_resolve config (ac_context config) (ps_api_key (ac_settings config))).

Lemma accepted_iterate o : accepted (iterate o).
Proof.
  destruct o as [[]| |attributes]; cbn [iterate]; eauto with raises.
  intros e He. by eapply foreign_acceptable, sl_iterate_foreign.
Qed.
Lemma accepted_usage o : accepted (_usage_int o).
Proof. destruct o as [[]| |]; cbn [_usage_int]; eauto with raises. Qed.
Lemma accepted_text value bound : accepted (bounded_text value bound).
Proof. destruct value as [[]| |]; cbn [bounded_text]; eauto with raises. Qed.
Lemma accepted_object a b text : a ≠ ""%string → b ≠ ""%string → accepted (load_object a b text).
Proof.
  intros Ha Hb. unfold load_object. destruct (json_loads text) as [e|[]] eqn:He;
    try (apply raises_inl; by apply malformed_ok); [|apply raises_inr].
  destruct (except_JSONDecodeError e); apply raises_inl; [by apply malformed_ok|by eapply accepted_loads].
Qed.
Lemma accepted_arguments value : accepted (_json_arguments value).
Proof. destruct value as [[]| |]; cbn [_json_arguments]; eauto with raises. by apply accepted_object. Qed.
Lemma accepted_call proposal : accepted (call_part proposal).
Proof. unfold call_part, ToolCallProposal_post_init. eauto 8 with raises. Qed.
Lemma accepted_text_part text : accepted (text_part text).
Proof. unfold text_part, TextPart_post_init. eauto with raises. Qed.
#[local] Hint Resolve accepted_iterate raises_foldl accepted_usage accepted_text accepted_arguments accepted_call
  accepted_text_part : raises.

Lemma accepted_add_text bound f wanted g value : (∀ text, accepted (f text)) → accepted (add_text bound f wanted g value).
Proof. intros Hf. unfold add_text. destruct wanted; eauto 8 with raises. Qed.
#[local] Hint Resolve accepted_add_text : raises.

Lemma accepted_content wanted g content : accepted (openai_content config wanted g content).
Proof.
  unfold openai_content. cbv zeta. destruct (is_text _ _); [eauto with raises|]. destruct (is_text _ _); eauto with raises.
Qed.
#[local] Hint Resolve accepted_content : raises.
Lemma accepted_openai_item wanted g item : accepted (openai_item config wanted g item).
Proof.
  unfold openai_item. cbv zeta. destruct (is_text _ _); [eauto 8 with raises|].
  destruct (is_text _ _); eauto with raises.
Qed.
Lemma accepted_optional o : accepted (_optional_nonnegative_int o).
Proof. unfold _optional_nonnegative_int. destruct (is_none o); eauto with raises. Qed.
#[local] Hint Resolve accepted_openai_item accepted_optional : raises.
Lemma accepted_openai_usage usage : accepted (openai_usage usage).
Proof.
  unfold openai_usage, TokenUsage_post_init. cbv zeta.
  repeat (apply raises_rbind; [eauto with raises|intros ?]); eauto with raises.
Qed.
#[local] Hint Resolve accepted_openai_usage : raises.
Lemma accepted_openai_parse raw request : accepted (openai_parse config raw request).
Proof. unfold openai_parse. cbv zeta. destruct (as_list _); eauto 8 with raises. Qed.
Lemma accepted_openai_safety refused finish : accepted (openai_safety refused finish).
Proof. unfold openai_safety, SafetyResult_post_init. eauto with raises. Qed.

Lemma accepted_anthropic_item wanted g item : accepted (anthropic_item config wanted g item).
Proof.
  unfold anthropic_item. cbv zeta. destruct (is_text _ _).
  - apply accepted_add_text. intros text. by apply accepted_object.
  - destruct (is_text _ _); [|eauto with raises]. destruct (getattr _ _ _) as [[]| |]; eauto 8 with raises.
Qed.
#[local] Hint Resolve accepted_anthropic_item : raises.
Lemma accepted_anthropic_parse raw request : accepted (anthropic_parse config raw request).
Proof. unfold anthropic_parse. destruct (as_list _); eauto with raises. Qed.
Lemma accepted_anthropic_usage usage : accepted (anthropic_usage usage).
Proof.
  unfold anthropic_usage, TokenUsage_post_init. cbv zeta.
  repeat (apply raises_rbind; [eauto with raises|intros ?]); eauto with raises.
Qed.
Lemma accepted_anthropic_safety finish : accepted (anthropic_safety finish).
Proof. unfold anthropic_safety, SafetyResult_post_init. eauto with raises. Qed.
#[local] Hint Resolve accepted_openai_parse accepted_openai_safety accepted_anthropic_parse accepted_anthropic_usage
  accepted_anthropic_safety : raises.

(** *** The calls *)

Lemma acceptable_sdk {A} (m : M exn S A) : raises acceptable m → raises acceptable (on_sdk (C := C) m).
Proof. intros Hm a e a'. unfold on_sdk. destruct (m (ad_env a)) as [r env] eqn:Hr. intros [= -> <-]. by eapply Hm. Qed.

Lemma acceptable_clock : raises acceptable (on_sdk (C := C) sl_clock).
Proof. apply acceptable_sdk. eapply raises_weaken; [|apply sl_clock_total]. done. Qed.

Lemma acceptable_foreign {A} (m : M exn S A) : raises foreign m → raises acceptable (on_sdk (C := C) m).
Proof. intros Hm. apply acceptable_sdk. eapply raises_weaken; [exact foreign_acceptable|exact Hm]. Qed.

Lemma acceptable_aclose id : raises acceptable (aclose id).
Proof. unfold aclose. apply raises_bind; [eauto with raises|intros _]. apply acceptable_foreign, sl_close_foreign. Qed.

Lemma acceptable_resolve : accepted (ac_resolve config (ac_context config) (ps_api_key (ac_settings config))).
Proof. intros e He. by apply foreign_acceptable, resolve_foreign. Qed.
#[local] Hint Resolve acceptable_clock acceptable_aclose acceptable_resolve : raises.

Lemma acceptable_client : raises acceptable (_get_client config).
Proof.
  unfold _get_client. apply raises_bind; [eauto with raises|]. intros [client|]; [eauto with raises|].
  apply raises_bind; [eauto with raises|intros key].
  apply raises_bind. { unfold open_http. apply raises_bind; [apply acceptable_foreign, sl_open_foreign|eauto with raises]. }
  intros http. apply raises_bind; [eauto with raises|intros api_key]. apply raises_bind; [|eauto with raises].
  apply raises_catch_again; [apply acceptable_foreign, sl_client_foreign|]. intros e He.
  destruct (except_Exception e); eauto with raises.
Qed.

Lemma acceptable_latency started now : accepted (latency_ms started now).
Proof. unfold latency_ms, int_of_json. destruct (f64_mul _ _); eauto with raises. Qed.
Lemma acceptable_answer r : accepted (ModelResponse_post_init r).
Proof. unfold ModelResponse_post_init. destruct (ms_structured_output r); eauto 8 with raises. Qed.
#[local] Hint Resolve acceptable_client acceptable_latency acceptable_answer : raises.

Lemma acceptable_openai raw request model started : raises acceptable (OpenAI_response config raw request model started).
Proof.
  unfold OpenAI_response. apply raises_bind; [eauto with raises|intros [g usage]]. cbv zeta.
  apply raises_bind; [eauto with raises|intros safety]. eauto 8 with raises.
Qed.
Lemma acceptable_anthropic raw request model started :
  raises acceptable (Anthropic_response config raw request model started).
Proof.
  unfold Anthropic_response. apply raises_bind; [eauto with raises|intros g]. cbv zeta.
  apply raises_bind; [eauto with raises|intros safety].
  apply raises_bind; [eauto with raises|intros usage]. eauto 8 with raises.
Qed.

Lemma accepted_await token r : raises_result foreign (rc_result r) → raises_result foreign (rc_cancelled r) →
  accepted (await_with_cancellation token r).
Proof.
  intros Hr Hc. assert (Hr' : accepted (rc_result r)) by (intros e He; by apply foreign_acceptable, Hr).
  assert (Hc' : accepted (rc_cancelled r)) by (intros e He; by apply foreign_acceptable, Hc).
  assert (Hi : ∀ e, acceptable e → accepted (interrupted r e)).
  { intros e He. unfold interrupted. destruct (rc_cancelled r) as [x|]; [|eauto with raises].
    destruct x; try exact Hc'. by apply raises_inl. }
  unfold await_with_cancellation. destruct token; cbn [negb].
  - destruct (rc_is_set r); [eauto with raises|]. destruct (rc_first r); eauto with raises.
  - destruct (rc_first r); try exact Hr'; by apply Hi.
Qed.

(** *** Building requests *)

Lemma refused_check v : raises_result unserializable (json_check v).
Proof.
  assert (Hl : ∀ l, Forall (λ v, raises_result unserializable (json_check v)) l →
    raises_result unserializable (json_check (PList l))).
  { induction 1 as [|x l Hx _ IH]; [apply raises_inr|]. cbn [json_check] in *. by apply raises_rbind. }
  assert (Hd : ∀ d : pydict, Forall (λ kv, raises_result unserializable (json_check kv.2)) d →
    raises_result unserializable (json_check (PDict d))).
  { induction 1 as [|[[k|n] x] d Hx _ IH]; [apply raises_inr| |apply raises_inl; constructor].
    cbn [json_check fst snd] in *. by apply raises_rbind. }
  induction v as [| |z| | |l IH|l IH|d IH|d IH| |] using pyval_deep_ind;
    try (apply raises_inr); try (apply raises_inl; constructor);
    [|by apply Hl|by apply (Hl l)|by apply Hd].
  cbn [json_check]. apply raises_reject. constructor.
Qed.
Lemma refused_thawing v : raises_result unserializable (thawing v).
Proof. unfold thawing. apply raises_rbind; [apply raises_reject; constructor|intros _; apply raises_inr]. Qed.
Lemma refused_dumping v : raises_result unserializable (dumping v).
Proof. unfold dumping. apply raises_rbind; [apply refused_check|intros _; apply raises_inr]. Qed.
Lemma refused_result v : raises_result unserializable (serialize_tool_result v).
Proof. unfold serialize_tool_result. apply raises_rbind; [apply refused_thawing|apply refused_dumping]. Qed.
#[local] Hint Resolve refused_thawing refused_dumping refused_result : raises.

Lemma refused_optional {A B} (f : A → result B) o :
  (∀ a, raises_result unserializable (f a)) → raises_result unserializable (optional_result f o).
Proof. intros Hf. destruct o; cbn [optional_result]; [|apply raises_inr]. apply raises_rbind; [apply Hf|intros ?; apply raises_inr]. Qed.

Lemma refused_parts role parts content inputs : raises_result unserializable (openai_parts role parts content inputs).
Proof.
  revert content inputs. induction parts as [|part parts IH]; intros content inputs; cbn [openai_parts]; [apply raises_inr|].
  destruct part; try apply IH.
  - unfold function_call, json_object. apply raises_rbind; [|intros ?; apply IH]. eauto 8 with raises.
  - unfold function_call_output. apply raises_rbind; [|intros ?; apply IH]. eauto 8 with raises.
Qed.

Lemma refused_openai request model : raises_result unserializable (OpenAI_request_kwargs request model).
Proof.
  unfold OpenAI_request_kwargs, openai_inputs. apply raises_rbind; [apply raises_foldl; intros; apply refused_parts|intros inputs].
  apply raises_rbind; [apply raises_map_result; intros t; unfold openai_tool, json_object; eauto with raises|intros tools].
  apply raises_rbind; [apply refused_optional; intros f; unfold openai_format, json_object; eauto with raises|].
  intros ?. apply raises_inr.
Qed.

Lemma refused_message m : raises_result unserializable (anthropic_message m).
Proof.
  unfold anthropic_message. apply raises_rbind; [|intros ?; apply raises_inr]. apply raises_map_result.
  intros []; cbn [anthropic_part]; unfold json_object; eauto with raises.
Qed.

Lemma refused_anthropic request model : raises_result unserializable (Anthropic_request_kwargs request model).
Proof.
  unfold Anthropic_request_kwargs, split_messages. apply raises_rbind.
  { apply raises_foldl. intros acc m. destruct (is_system m); [apply raises_inr|].
    apply raises_rbind; [apply refused_message|intros ?; apply raises_inr]. }
  intros [systems messages].
  apply raises_rbind; [apply raises_map_result; intros t; unfold anthropic_tool, json_object; eauto with raises|intros tools].
  apply raises_rbind; [apply refused_optional; intros f; unfold anthropic_format, json_object; eauto with raises|].
  intros ?. apply raises_inr.
Qed.

Lemma accepted_kwargs request model : accepted (Anthropic_request_kwargs request model).
Proof. intros e He. by destruct (refused_anthropic _ _ e He). Qed.

(** *** The calls of an own model *)

Lemma acceptable_create client kwargs request token :
  raises acceptable (create_response (S := S) client kwargs request token).
Proof.
  intros a x a1. unfold create_response, bind at 1, on_sdk.
  destruct (sl_create client _ _ _ (ad_env a)) as [[y|race] env] eqn:Hc.
  - intros [= <- <-]. by eapply foreign_acceptable, sl_create_foreign.
  - destruct (sl_race_foreign _ _ _ _ _ _ _ Hc) as [H1 H2].
    apply raises_lift. by apply accepted_await.
Qed.

Lemma raises_containing {A} (block : M exn (Adapter S C) A) :
  raises acceptable block → raises gateway_failure (containing block).
Proof.
  intros Hm a e a'. unfold containing, catch. destruct (block a) as [[x|r] a1] eqn:Hrun; [|done].
  intros [= <- <-]. apply contained. by eapply Hm.
Qed.

Lemma clock_never_raises (P : exn → Prop) : raises P (on_sdk (C := C) sl_clock).
Proof.
  intros a e a' Ha. exfalso. unfold on_sdk in Ha. destruct (sl_clock (ad_env a)) as [r env] eqn:Hr.
  injection Ha as -> <-. by eapply sl_clock_total.
Qed.

Lemma raises_own (P : exn → Prop) name mismatch model (rest : M exn (Adapter S C) ModelResponse) :
  (mi_provider model = name → raises P rest) →
  raises (λ e, mi_provider model ≠ name ∧ e = mismatch ∨ mi_provider model = name ∧ P e)
    (do! raise_if (negb (bool_decide (mi_provider model = name))) mismatch ;; rest).
Proof.
  intros Hrest. destruct (bool_decide (mi_provider model = name)) eqn:Hp; bool_props; cbn [negb].
  2: { intros a e a'. unfold bind, raise_if, raise. intros [= <- <-]. by left. }
  intros a e a' Ha. right. split; [done|]. by eapply Hrest.
Qed.

Lemma openai_raises request model token :
  raises (λ e, mi_provider model ≠ "openai"%string ∧ e = ValueError "OpenAI adapter received a non-OpenAI model" ∨
    mi_provider model = "openai"%string ∧
    match OpenAI_request_kwargs request model with inl x => e = x ∧ unserializable e | inr _ => gateway_failure e end)
    (OpenAI_complete config request model token).
Proof.
  unfold OpenAI_complete. apply raises_own. intros _. apply raises_bind; [apply clock_never_raises|intros started].
  destruct (OpenAI_request_kwargs request model) as [x|kwargs] eqn:Hk.
  - intros a e a' [= <- <-]. split; [done|]. by apply (refused_openai request model).
  - apply raises_bind; [apply raises_lift, raises_inr|]. intros kwargs'. apply raises_containing.
    apply raises_bind; [apply acceptable_client|intros client].
    apply raises_bind; [apply acceptable_create|intros raw]. apply acceptable_openai.
Qed.

Lemma anthropic_raises request model token :
  raises (λ e, mi_provider model ≠ "anthropic"%string ∧ e = ValueError "Anthropic adapter received a non-Anthropic model" ∨
    mi_provider model = "anthropic"%string ∧ gateway_failure e)
    (Anthropic_complete config request model token).
Proof.
  unfold Anthropic_complete. apply raises_own. intros _. apply raises_bind; [apply clock_never_raises|intros started].
  apply raises_containing. apply raises_bind; [apply acceptable_client|intros client].
  apply raises_bind; [apply raises_lift, accepted_kwargs|intros kwargs].
  apply raises_bind; [apply acceptable_create|intros raw]. apply acceptable_anthropic.
Qed.

End Failures.

(** C34. Provider failures are contained: a call of either adapter with a model
    of its provider raises nothing but gateway errors - timeouts, cancellation,
    malformed answers, refused secrets and whatever the SDK raises included -
    each with a code, a retry delay only for a rate limit and of at most five
    minutes, and marked retryable only as a rate limit, a timeout or an outage;
    with another provider's model it raises the one [ValueError].  The one
    exception is the OpenAI adapter building its request, outside its [try]
    block: what that raises is what the call raises, an error of serializing
    tool arguments, results or schemas, and no request whose arguments and
    results are JSON within the interpreter's limits meets it. *)
Theorem provider_failures_contained {Repr : PyRepr} {Limit : RecursionLimit} {S C} {Sdk : SdkLibrary S C}
    {Laws : SdkLaws S C} config request model token :
  raises_result foreign (ac_resolve config (ac_context config) (ps_api_key (ac_settings config))) →
  raises (λ e, mi_provider model ≠ "openai"%string ∧ e = ValueError "OpenAI adapter received a non-OpenAI model" ∨
               mi_provider model = "openai"%string ∧
               match OpenAI_request_kwargs request model with
               | inl x => e = x ∧ unserializable e
               | inr _ => gateway_failure e
               end)
    (OpenAI_complete config request model token) ∧
  raises (λ e, mi_provider model ≠ "anthropic"%string ∧ e = ValueError "Anthropic adapter received a non-Anthropic model" ∨
               mi_provider model = "anthropic"%string ∧ gateway_failure e)
    (Anthropic_complete config request model token) ∧
  (request_serializable request = true → ∃ kwargs, OpenAI_request_kwargs request model = inr kwargs).
Proof.
  intros Hresolve. split; [by apply openai_raises|]. split; [by apply anthropic_raises|apply openai_kwargs_built].
Qed.

(** What building the request raises leaves the OpenAI adapter as it is, without
    a client and before any request was sent; the Anthropic adapter reports the
    same failure as one of the SDK. *)
Theorem request_building_escapes {Repr : PyRepr} {Limit : RecursionLimit} {S C} {Sdk : SdkLibrary S C} config
    request model token (a : Adapter S C) e started env :
  mi_provider model = "openai"%string → OpenAI_request_kwargs request model = inl e →
  sl_clock (ad_env a) = (inr started, env) →
  OpenAI_complete config request model token a
    = (inl e, mkAdapter env (ad_client a) (ad_http_client a) (ad_open a) (ad_fresh a)).
Proof.
  intros Hp Hk Hc. unfold OpenAI_complete. rewrite Hk. unfold bind, raise_if, on_sdk, lift, ret.
  rewrite bool_decide_true by done. cbn [negb]. by rewrite Hc.
Qed.

Theorem request_building_contained {Repr : PyRepr} {Limit : RecursionLimit} {S C} {Sdk : SdkLibrary S C} config
    request model token (a : Adapter S C) e started env client :
  mi_provider model = "anthropic"%string → Anthropic_request_kwargs request model = inl e →
  sl_clock (ad_env a) = (inr started, env) → ad_client a = Some client →
  (Anthropic_complete config request model token a).1
    = inl (ModelGatewayError (gateway_raise PROVIDER_BUG "provider_sdk_failure" false true)).
Proof.
  intros Hp Hk Hs Hc. unfold Anthropic_complete. rewrite Hk. unfold containing, catch, _get_client, bind, raise_if, on_sdk, gets, lift, ret.
  rewrite bool_decide_true by done. cbn [negb]. rewrite Hs. cbn [ad_client]. rewrite Hc.
  cbn. by destruct (refused_anthropic _ _ e Hk).
Qed.

(** ** Answers *)

(** The counter a usage object reports. *)
Definition reports (usage : sdk) (counter : string) (n : Z) : Prop :=
  getattr usage counter none = SdkValue (PInt n) ∧ 0 ≤ n.

Lemma usage_int_ok o n : _usage_int o = inr n → o = SdkValue (PInt n) ∧ 0 ≤ n.
Proof.
  destruct o as [[]| |]; try done. cbn [_usage_int]. intros H. py_inv. split; [done|]. by apply Z.ltb_ge.
Qed.

Lemma optional_int_ok o n : _optional_nonnegative_int o = inr n → 0 ≤ n.
Proof. unfold _optional_nonnegative_int. destruct (is_none o); intros H; [by injection H as <-|by destruct (usage_int_ok _ _ H)]. Qed.

Lemma openai_usage_exact usage u : openai_usage usage = inr u →
  ∃ i o, reports usage "input_tokens" i ∧ reports usage "output_tokens" o ∧
    input_tokens u + cache_read_tokens u = i ∧ output_tokens u + reasoning_tokens u = o ∧
    cache_write_tokens u = 0 ∧ Forall (λ n, 0 ≤ n) (usage_fields u).
Proof.
  unfold openai_usage, TokenUsage_post_init. cbv zeta.
  intros (i & Hi & (c & Hc & ([] & [Hci _]%reject_if_ok & (o & Ho & (g & Hg & ([] & [Hgo _]%reject_if_ok &
    ([] & _ & [= <-])%rbind_ok)%rbind_ok)%rbind_ok)%rbind_ok)%rbind_ok)%rbind_ok)%rbind_ok.
  apply usage_int_ok in Hi as [Hi ?], Ho as [Ho ?]. apply optional_int_ok in Hc, Hg.
  apply Z.ltb_ge in Hci, Hgo. exists i, o. unfold reports, usage_fields. cbn.
  split_and!; try done; try lia. rewrite !Forall_cons, Forall_nil. lia.
Qed.

Lemma anthropic_usage_exact usage u : anthropic_usage usage = inr u →
  reports usage "input_tokens" (input_tokens u) ∧ reports usage "output_tokens" (output_tokens u) ∧
  getattr usage "cache_read_input_tokens" (SdkValue (PInt 0)) = SdkValue (PInt (cache_read_tokens u)) ∧
  getattr usage "cache_creation_input_tokens" (SdkValue (PInt 0)) = SdkValue (PInt (cache_write_tokens u)) ∧
  reasoning_tokens u = 0 ∧ Forall (λ n, 0 ≤ n) (usage_fields u).
Proof.
  unfold anthropic_usage, TokenUsage_post_init. cbv zeta.
  intros (i & Hi & (o & Ho & (r & Hr & (w & Hw & ([] & _ & [= <-])%rbind_ok)%rbind_ok)%rbind_ok)%rbind_ok)%rbind_ok.
  apply usage_int_ok in Hi as [? ?], Ho as [? ?], Hr as [? ?], Hw as [? ?]. unfold reports, usage_fields. cbn. split_and!; try done.
  rewrite !Forall_cons, Forall_nil. lia.
Qed.

(** A part of an answer: text within the bound, or a call with immutable
    arguments. *)
Definition part_ok (bound : Z) (p : ContentPart) : Prop :=
  match p with
  | TextPart text => text ≠ ""%string ∧ PyStr.len text ≤ bound
  | ToolCallPart proposal =>
      tc_call_id proposal ≠ ""%string ∧ tc_tool_name proposal ≠ ""%string ∧
      frozen_dict (tc_arguments proposal) = true
  | _ => False
  end.

Record gathered_ok (bound : Z) (wanted : bool) (g : gathered) : Prop := {
  go_parts : Forall (part_ok bound) (ga_parts g);
  go_structured : wanted = false → ga_structured g = None;
}.

Lemma nothing_ok bound wanted : gathered_ok bound wanted nothing.
Proof. by split. Qed.

Lemma foldl_result_inv {A B} (P : A → Prop) (f : A → B → result A) l a a' :
  (∀ a b a', P a → f a b = inr a' → P a') → P a → foldl_result f a l = inr a' → P a'.
Proof.
  intros Hf. revert a. induction l as [|b l IH]; intros a Ha; cbn [foldl_result]; [by intros [= <-]|].
  intros (a1 & H1 & H)%rbind_ok. by eapply IH; [eapply Hf|].
Qed.

Lemma bounded_text_ok value bound text : bounded_text value bound = inr text → PyStr.len text ≤ bound.
Proof. destruct value as [[]| |]; try done. cbn [bounded_text]. intros H. py_inv. by apply Z.ltb_ge. Qed.

Lemma add_text_ok bound f wanted g value g' :
  gathered_ok bound wanted g → add_text bound f wanted g value = inr g' → gathered_ok bound wanted g'.
Proof.
  intros [Hp Hs]. unfold add_text.
  intros (text & Ht & (part & Hpart & H)%rbind_ok)%rbind_ok. unfold text_part, TextPart_post_init in Hpart.
  apply rbind_ok in Hpart as ([] & [Hne _]%reject_if_ok & [= <-]). apply bounded_text_ok in Ht.
  apply PyStr.is_empty_false in Hne.
  assert (Hparts : Forall (part_ok bound) (ga_parts (add_part (TextPart text) g))).
  { cbn. apply Forall_app. split; [done|]. by constructor. }
  destruct wanted; [|injection H as <-; by split].
  apply rbind_ok in H as (d & _ & [= <-]). by split.
Qed.

Lemma call_part_ok bound wanted g proposal part :
  gathered_ok bound wanted g → call_part proposal = inr part → gathered_ok bound wanted (add_part part g).
Proof.
  intros [Hp Hs]. unfold call_part, ToolCallProposal_post_init.
  intros (p & Hcall & [= <-])%rbind_ok. apply rbind_ok in Hcall as ([] & [Hne _]%reject_if_ok & Hcall).
  apply rbind_ok in Hcall as (d & Hd & [= <-]).
  apply orb_false_iff in Hne as [H1 H2]. split; [|done]. cbn. apply Forall_app. split; [done|]. constructor; [|done].
  cbn. split; [by apply PyStr.is_empty_false|]. split; [by apply PyStr.is_empty_false|].
  by eapply freeze_mapping_frozen.
Qed.

Section Metered.
Context {Repr : PyRepr} {Limit : RecursionLimit} {S C : Type} {Sdk : SdkLibrary S C} (config : AdapterConfig).
Abbreviation bound := (ac_max_response_chars config).

Lemma openai_content_ok wanted g content g' :
  gathered_ok bound wanted g → openai_content config wanted g content = inr g' → gathered_ok bound wanted g'.
Proof.
  unfold openai_content. cbv zeta. intros Hg. destruct (is_text _ _); [by apply add_text_ok|].
  destruct (is_text _ _); [|by intros [= <-]]. destruct Hg as [Hp Hs].
  intros (refusal & _ & [= <-])%rbind_ok. by split.
Qed.

Lemma openai_item_ok wanted g item g' :
  gathered_ok bound wanted g → openai_item config wanted g item = inr g' → gathered_ok bound wanted g'.
Proof.
  unfold openai_item. cbv zeta. intros Hg. destruct (is_text _ _).
  - intros (arguments & _ & (part & Hpart & [= <-])%rbind_ok)%rbind_ok. by eapply call_part_ok.
  - destruct (is_text _ _); [|by intros [= <-]]. intros (contents & _ & H)%rbind_ok.
    eapply foldl_result_inv; [|exact Hg|exact H]. intros. by eapply openai_content_ok.
Qed.

Lemma anthropic_item_ok wanted g item g' :
  gathered_ok bound wanted g → anthropic_item config wanted g item = inr g' → gathered_ok bound wanted g'.
Proof.
  unfold anthropic_item. cbv zeta. intros Hg. destruct (is_text _ _); [by apply add_text_ok|].
  destruct (is_text _ _); [|by intros [= <-]].
  destruct (getattr _ _ _) as [[]| |]; try done; intros (part & Hpart & [= <-])%rbind_ok; by eapply call_part_ok.
Qed.

(** What an answer says, whatever the provider said. *)
Record answer_ok (request : ModelRequest) (model : ModelIdentity) (r : ModelResponse) : Prop := {
  an_request : ms_request_id r = mq_request_id request;
  an_model : ms_model r = model;
  an_parts : Forall (part_ok bound) (ms_content r);
  an_refused : ms_finish_reason r = FR_REFUSAL ↔ sr_outcome (ms_safety r) = SO_REFUSED;
  an_reason : is_Some (sr_reason_code (ms_safety r)) ↔ sr_outcome (ms_safety r) ≠ SO_ALLOWED;
  an_structured : mq_response_schema request = None → ms_structured_output r = None;
  an_latency : 0 ≤ ms_latency_ms r;
  an_usage : Forall (λ n, 0 ≤ n) (usage_fields (ms_usage r));
}.

Lemma answer_fields r0 r : ModelResponse_post_init r0 = inr r →
  ms_request_id r = ms_request_id r0 ∧ ms_model r = ms_model r0 ∧ ms_content r = ms_content r0 ∧
  ms_finish_reason r = ms_finish_reason r0 ∧ ms_safety r = ms_safety r0 ∧ ms_usage r = ms_usage r0 ∧
  0 ≤ ms_latency_ms r ∧ (ms_structured_output r0 = None → ms_structured_output r = None).
Proof.
  unfold ModelResponse_post_init.
  intros ([] & [Hl _]%reject_if_ok & ([] & _ & (d & Hd & [= <-])%rbind_ok)%rbind_ok)%rbind_ok. cbn.
  split_and!; try done; [by apply Z.ltb_ge|]. intros Hn. rewrite Hn in Hd. by injection Hd.
Qed.

Lemma on_sdk_ok {A} (m : M exn S A) (a : Adapter S C) x a' :
  on_sdk m a = (inr x, a') → ∃ env, m (ad_env a) = (inr x, env).
Proof. unfold on_sdk. destruct (m (ad_env a)) as [r env]. intros [= -> _]. by exists env. Qed.

Lemma structured_wanted request g : gathered_ok bound (is_some (mq_response_schema request)) g →
  mq_response_schema request = None → ga_structured g = None.
Proof. intros [_ Hs] Hn. rewrite Hn in Hs. by apply Hs. Qed.

(** The last lines of both translations. *)
Lemma answer_built request model g finish safety usage started now r raw :
  gathered_ok bound (is_some (mq_response_schema request)) g →
  (finish = FR_REFUSAL ↔ sr_outcome safety = SO_REFUSED) →
  (is_Some (sr_reason_code safety) ↔ sr_outcome safety ≠ SO_ALLOWED) →
  Forall (λ n, 0 ≤ n) (usage_fields usage) →
  (let? latency := latency_ms started now in
   ModelResponse_post_init
     (mkModelResponse (mq_request_id request) model (ga_parts g) finish safety usage latency
        (provider_request_id raw) (ga_structured g))) = inr r →
  answer_ok request model r ∧ ms_usage r = usage.
Proof.
  intros Hg Hf Hs Hu (latency & _ & H)%rbind_ok.
  destruct (answer_fields _ _ H) as (H1 & H2 & H3 & H4 & H5 & H6 & H7 & H8). cbn in *.
  split; [|done]. split; try done.
  - rewrite H3. apply Hg.
  - by rewrite H4, H5.
  - by rewrite H5.
  - intros Hn. apply H8. by apply (structured_wanted request).
  - by rewrite H6.
Qed.

Lemma safety_value s s' : SafetyResult_post_init s = inr s' → s' = s.
Proof. unfold SafetyResult_post_init. intros H. by py_inv. Qed.

Lemma openai_response_ok raw request model started a r a' :
  OpenAI_response config raw request model started a = (inr r, a') →
  answer_ok request model r ∧ openai_usage (getattr raw "usage" none) = inr (ms_usage r).
Proof.
  unfold OpenAI_response. intros ([g usage] & a1 & Hparse & H)%bind_ok. cbv zeta in H.
  apply bind_ok in H as (safety & a2 & Hsafety & H). apply bind_ok in H as (now & a3 & Hnow & H).
  apply run_inv in Hparse as [Hparse _], Hsafety as [Hsafety _], H as [H _].
  symmetry in Hparse, Hsafety, H. revert Hparse. unfold openai_parse. cbv zeta.
  destruct (as_list _) as [output|]; [|done].
  intros ([] & _ & (g' & Hg & (usage' & Husage & [= -> ->])%rbind_ok)%rbind_ok)%rbind_ok.
  assert (Hok : gathered_ok bound (is_some (mq_response_schema request)) g).
  { eapply foldl_result_inv; [|apply nothing_ok|exact Hg]. intros. by eapply openai_item_ok. }
  unfold openai_safety in Hsafety. apply safety_value in Hsafety. destruct (openai_usage_exact _ _ Husage) as
    (i & o & _ & _ & _ & _ & _ & Hnonneg).
  eapply answer_built in H as [Ha ->]; [by split|exact Hok| | |exact Hnonneg]; subst safety; unfold openai_finish;
    destruct (is_some (ga_refusal g)); try (cbn; split; [done|by eexists]); try done;
    repeat (destruct (is_text _ _) || destruct (existsb _ _)); cbn; split; try done; by intros [? ?] || by eexists.
Qed.

Lemma anthropic_response_ok raw request model started a r a' :
  Anthropic_response config raw request model started a = (inr r, a') →
  answer_ok request model r ∧ anthropic_usage (getattr raw "usage" none) = inr (ms_usage r).
Proof.
  unfold Anthropic_response. intros (g & a1 & Hparse & H)%bind_ok. cbv zeta in H.
  apply bind_ok in H as (safety & a2 & Hsafety & H). apply bind_ok in H as (usage & a3 & Husage & H).
  apply bind_ok in H as (now & a4 & Hnow & H).
  apply run_inv in Hparse as [Hparse _], Hsafety as [Hsafety _], Husage as [Husage _], H as [H _].
  symmetry in Hparse, Hsafety, Husage, H. revert Hparse. unfold anthropic_parse.
  destruct (as_list _) as [content|]; [|done]. intros ([] & _ & Hg)%rbind_ok.
  assert (Hok : gathered_ok bound (is_some (mq_response_schema request)) g).
  { eapply foldl_result_inv; [|apply nothing_ok|exact Hg]. intros. by eapply anthropic_item_ok. }
  unfold anthropic_safety in Hsafety. apply safety_value in Hsafety.
  destruct (anthropic_usage_exact _ _ Husage) as (_ & _ & _ & _ & _ & Hnonneg).
  eapply answer_built in H as [Ha ->]; [by split|exact Hok| | |exact Hnonneg]; subst safety;
    destruct (anthropic_finish raw); cbn; split; try done; by intros [? ?] || by eexists.
Qed.

Lemma create_ok client kwargs request token (a : Adapter S C) raw a' :
  create_response client kwargs request token a = (inr raw, a') →
  ∃ env race env', sl_create client kwargs (mq_timeout_seconds request) token env = (inr race, env') ∧
    await_with_cancellation token race = inr raw.
Proof.
  unfold create_response. intros (race & a1 & Hrace & Hraw)%bind_ok. apply on_sdk_ok in Hrace as (env' & Hrace).
  apply run_inv in Hraw as [Hraw _]. by eexists _, race, env'.
Qed.

Lemma containing_ok {A} (block : M exn (Adapter S C) A) a x a' :
  containing block a = (inr x, a') → block a = (inr x, a').
Proof. unfold containing, catch. by destruct (block a) as [[e|r] a1]. Qed.

Lemma openai_complete_ok request model token a r a' : OpenAI_complete config request model token a = (inr r, a') →
  ∃ kwargs client env race env' raw started a1, OpenAI_request_kwargs request model = inr kwargs ∧
    sl_create client kwargs (mq_timeout_seconds request) token env = (inr race, env') ∧
    await_with_cancellation token race = inr raw ∧ OpenAI_response config raw request model started a1 = (inr r, a').
Proof.
  unfold OpenAI_complete. intros ([] & a1 & _ & (started & a2 & _ & (kwargs & a3 & Hk & H)%bind_ok)%bind_ok)%bind_ok.
  apply containing_ok in H. apply bind_ok in H as (client & a4 & _ & (raw & a5 & Hraw & H)%bind_ok).
  apply create_ok in Hraw as (env & race & env' & Hrace & Hraw). apply run_inv in Hk as [Hk _].
  by exists kwargs, client, env, race, env', raw, started, a5.
Qed.

Lemma anthropic_complete_ok request model token a r a' : Anthropic_complete config request model token a = (inr r, a') →
  ∃ kwargs client env race env' raw started a1, Anthropic_request_kwargs request model = inr kwargs ∧
    sl_create client kwargs (mq_timeout_seconds request) token env = (inr race, env') ∧
    await_with_cancellation token race = inr raw ∧ Anthropic_response config raw request model started a1 = (inr r, a').
Proof.
  unfold Anthropic_complete. intros ([] & a1 & _ & (started & a2 & _ & H)%bind_ok)%bind_ok.
  apply containing_ok in H.
  apply bind_ok in H as (client & a3 & _ & (kwargs & a4 & Hk & (raw & a5 & Hraw & H)%bind_ok)%bind_ok).
  apply create_ok in Hraw as (env & race & env' & Hrace & Hraw). apply run_inv in Hk as [Hk _].
  by exists kwargs, client, env, race, env', raw, started, a5.
Qed.
End Metered.

(** C35. An answer is metered at what the provider reported: when a call of an
    adapter returns, the operation it awaited had given an answer whose usage
    reports counters that are integers, none negative, and the usage of the
    response splits exactly these - the OpenAI counters into cached and other
    input, reasoning and other output - so that what is billed is their sum;
    and the response is of this request and model, with text within the bound,
    calls with immutable arguments, a refusal flagged as one and structured
    output only where it was asked for. *)
Theorem answers_metered_exactly {Repr : PyRepr} {Limit : RecursionLimit} {S C} {Sdk : SdkLibrary S C}
    config request model token (a a' : Adapter S C) r :
  (OpenAI_complete config request model token a = (inr r, a') →
   answer_ok config request model r ∧
   ∃ kwargs client env race env' raw i o, OpenAI_request_kwargs request model = inr kwargs ∧
     sl_create client kwargs (mq_timeout_seconds request) token env = (inr race, env') ∧
     await_with_cancellation token race = inr raw ∧
     reports (getattr raw "usage" none) "input_tokens" i ∧ reports (getattr raw "usage" none) "output_tokens" o ∧
     input_tokens (ms_usage r) + cache_read_tokens (ms_usage r) = i ∧
     output_tokens (ms_usage r) + reasoning_tokens (ms_usage r) = o ∧ billable_tokens (ms_usage r) = i + o) ∧
  (Anthropic_complete config request model token a = (inr r, a') →
   answer_ok config request model r ∧
   ∃ kwargs client env race env' raw, Anthropic_request_kwargs request model = inr kwargs ∧
     sl_create client kwargs (mq_timeout_seconds request) token env = (inr race, env') ∧
     await_with_cancellation token race = inr raw ∧
     reports (getattr raw "usage" none) "input_tokens" (input_tokens (ms_usage r)) ∧
     reports (getattr raw "usage" none) "output_tokens" (output_tokens (ms_usage r)) ∧
     getattr (getattr raw "usage" none) "cache_read_input_tokens" (SdkValue (PInt 0))
       = SdkValue (PInt (cache_read_tokens (ms_usage r))) ∧
     getattr (getattr raw "usage" none) "cache_creation_input_tokens" (SdkValue (PInt 0))
       = SdkValue (PInt (cache_write_tokens (ms_usage r))) ∧
     reasoning_tokens (ms_usage r) = 0).
Proof.
  split; intros H.
  - apply openai_complete_ok in H as (kwargs & client & env & race & env' & raw & started & a1 & Hk & Hc & Hr & H).
    apply openai_response_ok in H as [Ha Hu]. apply openai_usage_exact in Hu as (i & o & ? & ? & ? & ? & ? & _).
    split; [done|]. exists kwargs, client, env, race, env', raw, i, o. unfold billable_tokens. split_and!; done || lia.
  - apply anthropic_complete_ok in H as (kwargs & client & env & race & env' & raw & started & a1 & Hk & Hc & Hr & H).
    apply anthropic_response_ok in H as [Ha Hu]. apply anthropic_usage_exact in Hu as (? & ? & ? & ? & ? & _).
    split; [done|]. by exists kwargs, client, env, race, env', raw.
Qed.

(** ** HTTP clients *)

Section Clients.
Context {Repr : PyRepr} {Limit : RecursionLimit} {S C : Type} {Sdk : SdkLibrary S C} (config : AdapterConfig).

(** The HTTP clients that are open are the one the adapter holds, if it has a
    client. *)
Record clients_ok (a : Adapter S C) : Prop := {
  co_open : ad_open a = match ad_http_client a with Some id => {[id]} | None => ∅ end;
  co_pair : is_Some (ad_client a) ↔ is_Some (ad_http_client a);
}.

Definition keeps {A} (m : M exn (Adapter S C) A) : Prop :=
  ∀ a r a', clients_ok a → m a = (r, a') → clients_ok a'.

Lemma keeps_then {A B} (m : M exn (Adapter S C) A) (k : A → M exn (Adapter S C) B) :
  keeps m → (∀ x, keeps (k x)) → keeps (bind m k).
Proof.
  intros Hm Hk a r a' Ha. unfold bind. destruct (m a) as [[e|x] a1] eqn:H1; [|intros H2; eapply Hk; [|exact H2]; by eapply Hm].
  intros [= <- <-]. by eapply Hm.
Qed.
Lemma keeps_lift {A} (r : result A) : keeps (lift r).
Proof. by intros a r' a' Ha [= _ <-]. Qed.
Lemma keeps_raise_if b e : keeps (raise_if b e).
Proof. intros a r a' Ha. destruct b; by intros [= _ <-]. Qed.
Lemma keeps_gets {A} (f : Adapter S C → A) : keeps (gets f).
Proof. by intros a r a' Ha [= _ <-]. Qed.
Lemma keeps_sdk {A} (m : M exn S A) : keeps (on_sdk m).
Proof. intros a r a' [Ho Hp]. unfold on_sdk. destruct (m (ad_env a)). by intros [= _ <-]. Qed.
Lemma keeps_catch {A} (m : M exn (Adapter S C) A) (h : exn → exn) : keeps m → keeps (catch m (λ e, raise (h e))).
Proof.
  intros Hm a r a' Ha. unfold catch. destruct (m a) as [[e|x] a1] eqn:H1; intros [= _ <-]; by eapply Hm.
Qed.

Lemma keeps_reload : keeps reload_client.
Proof.
  intros a r a' [Ho _]. unfold reload_client, bind, gets, modify, set_clients.
  destruct (ad_http_client a) as [id|] eqn:Hh.
  - unfold aclose, bind, modify, on_sdk. cbn. destruct (sl_close_http (ad_env a)). intros [= _ <-].
    split; cbn; [rewrite Ho; set_solver|]. split; by intros [].
  - intros [= _ <-]. split; cbn; [done|]. split; by intros [].
Qed.

Hypothesis key_decodes : ∀ v, ac_resolve config (ac_context config) (ps_api_key (ac_settings config)) = inr v →
  ∃ text, utf8_decode (reveal v) = inr text.
Hypothesis factory_exceptions : ∀ key url,
  raises (λ e, except_Exception e = true) (sl_client_factory (C := C) key url).

Lemma keeps_client : keeps (_get_client config).
Proof.
  intros a r a' Ha. pose proof Ha as [Ho Hp]. unfold _get_client, bind at 1, gets at 1.
  destruct (ad_client a) as [client|] eqn:Hc; [by intros [= _ <-]|].
  assert (Hh : ad_http_client a = None).
  { destruct (ad_http_client a); [|done]. destruct (proj2 Hp) as [x Hx]; [by eexists|done]. }
  rewrite Hh in Ho. unfold lift at 1, bind at 1.
  destruct (ac_resolve config _ _) as [e|v] eqn:Hv; [by intros [= _ <-]|].
  destruct (key_decodes v eq_refl) as [text Ht]. unfold open_http, on_sdk at 1. unfold bind at 1 2.
  destruct (sl_open_http (ac_settings config) (ad_env a)) as [[e|u] env] eqn:Hopen.
  { intros [= _ <-]. split; cbn; [by rewrite Hh|by rewrite Hc]. }
  unfold bind, gets, modify, ret, lift. rewrite Ht. unfold catch, on_sdk. cbn.
  destruct (sl_client_factory text _ env) as [[e|client] env'] eqn:Hf.
  - rewrite (factory_exceptions _ _ _ _ _ Hf). unfold aclose, bind, modify, on_sdk. cbn.
    destruct (sl_close_http env') as [[e'|] env'']; intros [= _ <-]; (split; cbn; [rewrite Hh, Ho; set_solver|by rewrite Hc, Hh]).
  - intros [= _ <-]. split; cbn; [rewrite Ho; set_solver|]. split; by eexists.
Qed.

Lemma keeps_openai raw request model started : keeps (OpenAI_response config raw request model started).
Proof.
  unfold OpenAI_response. apply keeps_then; [apply keeps_lift|intros [g usage]]. cbv zeta.
  apply keeps_then; [apply keeps_lift|intros safety]. apply keeps_then; [apply keeps_sdk|intros now]. apply keeps_lift.
Qed.

Lemma keeps_anthropic raw request model started : keeps (Anthropic_response config raw request model started).
Proof.
  unfold Anthropic_response. apply keeps_then; [apply keeps_lift|intros g]. cbv zeta.
  apply keeps_then; [apply keeps_lift|intros safety]. apply keeps_then; [apply keeps_lift|intros usage].
  apply keeps_then; [apply keeps_sdk|intros now]. apply keeps_lift.
Qed.
Lemma keeps_create client kwargs request token : keeps (create_response client kwargs request token).
Proof. unfold create_response. apply keeps_then; [apply keeps_sdk|intros race]. apply keeps_lift. Qed.

Lemma keeps_openai_complete request model token : keeps (OpenAI_complete config request model token).
Proof.
  unfold OpenAI_complete. apply keeps_then; [apply keeps_raise_if|intros _].
  apply keeps_then; [apply keeps_sdk|intros started]. apply keeps_then; [apply keeps_lift|intros kwargs].
  apply keeps_catch. apply keeps_then; [apply keeps_client|intros client].
  apply keeps_then; [apply keeps_create|intros raw]. apply keeps_openai.
Qed.

Lemma keeps_anthropic_complete request model token : keeps (Anthropic_complete config request model token).
Proof.
  unfold Anthropic_complete. apply keeps_then; [apply keeps_raise_if|intros _].
  apply keeps_then; [apply keeps_sdk|intros started]. apply keeps_catch.
  apply keeps_then; [apply keeps_client|intros client]. apply keeps_then; [apply keeps_lift|intros kwargs].
  apply keeps_then; [apply keeps_create|intros raw]. apply keeps_anthropic.
Qed.
End Clients.

(** What a user of an adapter may call, with whatever outcome. *)
Inductive adapter_step {Repr : PyRepr} {Limit : RecursionLimit} {S C} {Sdk : SdkLibrary S C} (config : AdapterConfig)
    : Adapter S C → Adapter S C → Prop :=
| step_reload a r a' : reload_client a = (r, a') → adapter_step config a a'
| step_openai request model token a r a' :
    OpenAI_complete config request model token a = (r, a') → adapter_step config a a'
| step_anthropic request model token a r a' :
    Anthropic_complete config request model token a = (r, a') → adapter_step config a a'.

(** C36. HTTP clients do not leak: whatever calls and reloads an adapter has
    served, and however they ended, the only HTTP client that is open is the
    one behind its current client, provided that the resolved key is text. *)
Theorem http_clients_closed {Repr : PyRepr} {Limit : RecursionLimit} {S C} {Sdk : SdkLibrary S C} config
    (env : S) (a : Adapter S C) :
  (∀ v, ac_resolve config (ac_context config) (ps_api_key (ac_settings config)) = inr v →
        ∃ text, utf8_decode (reveal v) = inr text) →
  (∀ key url, raises (λ e, except_Exception e = true) (sl_client_factory (C := C) key url)) →
  rtc (adapter_step config) (new_adapter env) a →
  ad_open a = match ad_http_client a with Some id => {[id]} | None => ∅ end ∧
  (is_Some (ad_client a) ↔ is_Some (ad_http_client a)).
Proof.
  intros Hkey Hfactory Hsteps.
  assert (Hnew : clients_ok (new_adapter (C := C) env)) by (split; [done|]; cbn; split; by intros []).
  assert (H : clients_ok a); [|by destruct H].
  induction Hsteps as [|a1 a2 a3 Hstep _ IH]; [done|]. apply IH. clear IH.
  destruct Hstep as [a r a' H|request model token a r a' H|request model token a r a' H].
  - by eapply keeps_reload.
  - by eapply keeps_openai_complete.
  - by eapply keeps_anthropic_complete.
Qed.

(** The key is decoded after the HTTP client was opened: of a key that is no
    text every call leaves another client open, which no reload closes. *)
Theorem undecodable_key_leaks {S C} {Sdk : SdkLibrary S C} config (a : Adapter S C) v e env :
  ad_client a = None →
  ac_resolve config (ac_context config) (ps_api_key (ac_settings config)) = inr v →
  utf8_decode (reveal v) = inl e → sl_open_http (ac_settings config) (ad_env a) = (inr tt, env) →
  _get_client config a
    = (inl e, mkAdapter env None (ad_http_client a) ({[ad_fresh a]} ∪ ad_open a) (Datatypes.S (ad_fresh a))).
Proof.
  intros Hc Hv Hd Hopen. unfold _get_client, bind at 1, gets at 1. rewrite Hc, Hv.
  unfold open_http, on_sdk at 1. unfold bind, lift, gets, modify, ret. rewrite Hopen. cbn. by rewrite Hd, Hc.
Qed.

(** ** Requests *)

(** A piece of the conversation: what is said under which role, or a call or
    its result. *)
Abbreviation piece := (option string * pyval)%type.



Section Conversation.
Context {Repr : PyRepr} {Limit : RecursionLimit}.








End Conversation.


(** ** Cancellation *)

(** A set token is never ignored, and a deadline ends a call that can be
    cancelled; the answer of an operation that finished first is returned. *)
Theorem cancellation_respected r :
  (rc_is_set r = true → await_with_cancellation true r = inl CancelledError) ∧
  (rc_is_set r = false → rc_first r = TokenSet → ∃ e, await_with_cancellation true r = inl e) ∧
  (rc_is_set r = false → rc_first r = DeadlinePassed → await_with_cancellation true r = inl TimeoutError) ∧
  (rc_first r = DeadlinePassed → rc_cancelled r = inl CancelledError → await_with_cancellation false r = inl TimeoutError) ∧
  (∀ token, rc_is_set r = false → rc_first r = Finished → await_with_cancellation token r = rc_result r).
Proof.
  unfold await_with_cancellation, interrupted. split_and!; cbn [negb].
  - by intros ->.
  - intros -> ->. destruct (rc_cancelled r) as [[]|]; by eexists.
  - by intros -> ->.
  - by intros -> ->.
  - intros [] -> ->; done.
Qed.

(** ** What null counters do

    An object may have a counter that is [None]: the OpenAI adapter reads it as
    zero, the Anthropic adapter refuses the answer. *)
Theorem null_counters_refused raw i o :
  (getattr raw "input_tokens" none = SdkValue (PInt i) → getattr raw "output_tokens" none = SdkValue (PInt o) →
   0 ≤ i → 0 ≤ o → getattr raw "cache_read_input_tokens" (SdkValue (PInt 0)) = none →
   anthropic_usage raw = inl (ambiguous_failure MALFORMED_RESPONSE "invalid_provider_usage")) ∧
  (getattr raw "input_tokens" none = SdkValue (PInt i) → getattr raw "output_tokens" none = SdkValue (PInt o) →
   0 ≤ i → 0 ≤ o → getattr (getattr raw "input_tokens_details" none) "cached_tokens" (SdkValue (PInt 0)) = none →
   getattr (getattr raw "output_tokens_details" none) "reasoning_tokens" (SdkValue (PInt 0)) = none →
   openai_usage raw = inr (mkTokenUsage i o 0 0 0)).
Proof.
  split; intros Hi Ho Hi0 Ho0.
  - intros Hc. unfold anthropic_usage. rewrite Hi, Ho, Hc. cbn [_usage_int none].
    by rewrite (proj2 (Z.ltb_ge i 0)), (proj2 (Z.ltb_ge o 0)).
  - intros Hc Hr. unfold openai_usage. cbv zeta. rewrite Hi, Ho, Hc, Hr. cbn [_usage_int _optional_nonnegative_int is_none none].
    rewrite (proj2 (Z.ltb_ge i 0)), (proj2 (Z.ltb_ge o 0)) by done. cbn [reject_if rbind].
    rewrite (proj2 (Z.ltb_ge i 0)), (proj2 (Z.ltb_ge o 0)) by done. cbn [reject_if rbind].
    unfold TokenUsage_post_init, usage_fields. cbn.
    rewrite !Z.sub_0_r, (proj2 (Z.ltb_ge i 0)), (proj2 (Z.ltb_ge o 0)) by done. done.
Qed.

(** ** Examples *)

#[local] Instance no_text : PyRepr := λ _, "0.0".
#[local] Instance some_depth : RecursionLimit := 100%nat.

(** A clock that counts, a client that answers with [raw]. *)
#[local] Instance sample_sdk (raw : sdk) : SdkLibrary nat unit := {
  sl_clock := λ n, (inr (sf_of_Z (Z.of_nat n)), Datatypes.S n);
  sl_open_http _ := ret tt;
  sl_close_http := ret tt;
  sl_client_factory _ _ := ret tt;
  sl_create _ _ _ _ := ret (mkRace false Finished (inr raw) (inl CancelledError));
  sl_iterate _ := inl (TypeError "object is not iterable");
  sl_str _ := "object";
}.

#[local] Instance sample_laws raw : SdkLaws (Sdk := sample_sdk raw) nat unit.
Proof.
  split; try (intros; by apply raises_ret).
  - intros n e n' Hn. cbn in Hn. discriminate Hn.
  - intros client kwargs timeout token s r s' Hr. cbn in Hr. injection Hr as <- <-.
    split; intros e He; cbn in He; [discriminate He|]. by injection He as <-.
  - intros attributes e He. cbn in He. by injection He as <-.
Qed.

Definition sample_reference : SecretReference := mkSecretReference (mkTenantId "acme") "memory" "key" None.

Definition sample_config : AdapterConfig :=
  mkAdapterConfig (mkTenantContext (mkTenantId "acme"))
    (InMemorySecretProvider_resolve [(sample_reference, "secret"%string)])
    (mkProviderClientSettings sample_reference None None (sf_of_Z 5) (sf_of_Z 60) 32 16 true) 1000.

Definition sample_proposal : ToolCallProposal :=
  mkToolCallProposal "call-1" "lookup" [(KStr "b", PInt 2); (KStr "a", PTuple [PStr "x"])].

Definition sample_messages : list ModelMessage :=
  [mkModelMessage MR_SYSTEM [TextPart "Be concise"] None;
   mkModelMessage MR_USER [TextPart "Hello"] None;
   mkModelMessage MR_ASSISTANT [TextPart "One moment"; ToolCallPart sample_proposal] None;
   mkModelMessage MR_TOOL [ToolResultPart "call-1" (PTuple [PInt 1]) false] None].

Definition sample_request : ModelRequest :=
  mkModelRequest 1 "acme" 2 sample_messages 50 10 None [] None (DFin 0 0) (sf_of_Z 60) "key-1".

Definition sample_usage : sdk :=
  SdkObject [("input_tokens", SdkValue (PInt 10)); ("output_tokens", SdkValue (PInt 4));
             ("input_tokens_details", SdkObject [("cached_tokens", SdkValue (PInt 2))]);
             ("output_tokens_details", SdkObject [("reasoning_tokens", SdkValue (PInt 1))])]%string.

Definition sample_openai : sdk :=
  SdkObject [("output", SdkList
                [SdkObject [("type", SdkValue (PStr "message"));
                            ("content", SdkList [SdkObject [("type", SdkValue (PStr "output_text"));
                                                            ("text", SdkValue (PStr "hi"))]])]]);
             ("usage", sample_usage); ("id", SdkValue (PStr "resp-1"))]%string.

Definition sample_anthropic : sdk :=
  SdkObject [("content", SdkList [SdkObject [("type", SdkValue (PStr "text")); ("text", SdkValue (PStr "hi"))]]);
             ("usage", sample_usage); ("stop_reason", SdkValue (PStr "end_turn"))]%string.

Lemma sample_resolves : raises_result foreign
  (ac_resolve sample_config (ac_context sample_config) (ps_api_key (ac_settings sample_config))).
Proof. intros e He. vm_compute in He. discriminate He. Qed.

Lemma provider_failures_contained_witness :
  raises gateway_failure
    (OpenAI_complete (Sdk := sample_sdk none) sample_config sample_request (mkModelIdentity "openai" "m") false).
Proof.
  pose proof (provider_failures_contained (Sdk := sample_sdk none) sample_config sample_request
                (mkModelIdentity "openai" "m") false sample_resolves) as (Hopenai & _ & Hbuilt).
  intros a e a' Ha. destruct (Hbuilt eq_refl) as [kwargs Hk].
  destruct (Hopenai a e a' Ha) as [[Hp _]|[_ He]]; [by destruct (Hp eq_refl)|]. by rewrite Hk in He.
Defined.

(** Arguments nested deeper than the interpreter recurs end a call of the
    OpenAI adapter with a [RecursionError]. *)
Fixpoint nested (n : nat) : pyval := match n with O => PNone | Datatypes.S n => PTuple [nested n] end.

Definition deep_request : ModelRequest :=
  mkModelRequest 1 "acme" 2
    [mkModelMessage MR_TOOL [ToolResultPart "call-1" (nested 101) false] None]
    50 10 None [] None (DFin 0 0) (sf_of_Z 60) "key-1".

Example deep_results_escape :
  OpenAI_complete (Sdk := sample_sdk sample_openai) sample_config deep_request (mkModelIdentity "openai" "m") false
    (new_adapter 0%nat) = (inl RecursionError, mkAdapter 1%nat None None ∅ 0).
Proof. by apply request_building_escapes with (started := sf_of_Z 0). Qed.

Definition openai_run : (exn + ModelResponse) * Adapter nat unit :=
  OpenAI_complete (Sdk := sample_sdk sample_openai) sample_config sample_request (mkModelIdentity "openai" "m") false
    (new_adapter 0%nat).

Definition anthropic_run : (exn + ModelResponse) * Adapter nat unit :=
  Anthropic_complete (Sdk := sample_sdk sample_anthropic) sample_config sample_request
    (mkModelIdentity "anthropic" "m") true (new_adapter 0%nat).

Definition answered (r : exn + ModelResponse) : ModelResponse :=
  match r with
  | inr r => r
  | inl _ => mkModelResponse 0 (mkModelIdentity "" "") [] FR_UNKNOWN (mkSafetyResult SO_ALLOWED None)
               (mkTokenUsage 0 0 0 0 0) 0 None None
  end.

Lemma openai_answers : OpenAI_complete (Sdk := sample_sdk sample_openai) sample_config sample_request
  (mkModelIdentity "openai" "m") false (new_adapter 0%nat) = (inr (answered openai_run.1), openai_run.2).
Proof. vm_compute. reflexivity. Qed.
Lemma anthropic_answers : Anthropic_complete (Sdk := sample_sdk sample_anthropic) sample_config sample_request
  (mkModelIdentity "anthropic" "m") true (new_adapter 0%nat) = (inr (answered anthropic_run.1), anthropic_run.2).
Proof. vm_compute. reflexivity. Qed.

Lemma answers_metered_exactly_witness :
  billable_tokens (ms_usage (answered openai_run.1)) = 14 ∧ reasoning_tokens (ms_usage (answered anthropic_run.1)) = 0.
Proof.
  split.
  - destruct (proj1 (answers_metered_exactly (Sdk := sample_sdk sample_openai) sample_config sample_request
        (mkModelIdentity "openai" "m") false (new_adapter 0%nat) openai_run.2 (answered openai_run.1)) openai_answers)
      as (_ & kwargs & client & env & race & env' & raw & i & o & _ & Hc & Hr & [Hi _] & [Ho _] & _ & _ & Hb).
    cbn in Hc. injection Hc as <- <-. cbn in Hr. injection Hr as <-.
    cbn in Hi, Ho. injection Hi as <-. injection Ho as <-. exact Hb.
  - destruct (proj2 (answers_metered_exactly (Sdk := sample_sdk sample_anthropic) sample_config sample_request
        (mkModelIdentity "anthropic" "m") true (new_adapter 0%nat) anthropic_run.2 (answered anthropic_run.1)) anthropic_answers)
      as (_ & kwargs & client & env & race & env' & raw & _ & _ & _ & _ & _ & _ & _ & H). exact H.
Defined.

Lemma http_clients_closed_witness :
  ad_open openai_run.2 = match ad_http_client openai_run.2 with Some id => {[id]} | None => ∅ end.
Proof.
  apply (http_clients_closed (Sdk := sample_sdk sample_openai) sample_config 0%nat openai_run.2).
  - intros v Hv. vm_compute in Hv. injection Hv as <-. by eexists.
  - intros key url. apply raises_ret.
  - eapply rtc_once, (step_openai (Sdk := sample_sdk sample_openai) sample_config sample_request
      (mkModelIdentity "openai" "m") false _ openai_run.1 _). reflexivity.
Defined.

