(* ===== verification/Diagnostic.v ===== *)
(** * The mock diagnostic

    Models [gateway/__main__.py]: one call of the gateway over the in-memory
    repository and the scripted provider, with every part built by its own
    constructor.  The loop's clock and the JSON Schema library are arguments;
    [main] parses the command line and prints. *)

From stdpp Require Import base gmap list strings.
From Stdlib Require Import ZArith Lia SpecFloat.
From S2P Require Import Prelude PyLib Json Events Identity Work Database EventStore Wire Amounts Parsing.
From S2P Require Import Floats Backoff Policy ModelContracts Routing GatewayRepository Resilience.
From S2P Require Import GatewayService GatewayServiceTheorems GatewayWiring Providers.

Local Open Scope Z_scope.

Definition _uuid_text (index : Z) : string := "00000000-0000-4000-8000-" +:+ pad 12 index.

(** [next(values)] after [n] others; the texts are UUIDs. *)
Definition _diagnostic_uuid_factory (n : nat) : uuid :=
  match uuid_of_str (_uuid_text (Z.of_nat n + 4)) with inr u => u | inl _ => 0%N end.

Definition _NOW : Dt.datetime := Dt.Aware (Dt.days_from_civil 2026 1 1 * Dt.day).
Definition _MODEL : ModelIdentity := mkModelIdentity "mock" "aegis-diagnostic-v1".

Section Diagnostic.
Context {Repr : PyRepr} {Schemas : JsonSchemaLibrary} (loop_time : nat → spec_float).

Definition diagnostic_request (tenant : TenantId) (prompt : string) : result ModelRequest :=
  let? request_id := uuid_of_str (_uuid_text 2) in
  let? run_id := uuid_of_str (_uuid_text 1) in
  let? _ := TextPart_post_init prompt in
  let? message := ModelMessage_post_init (mkModelMessage MR_USER [TextPart prompt] None) in
  ModelRequest_post_init
    {| mq_request_id := request_id; mq_tenant_id := tid_value tenant; mq_run_id := run_id;
       mq_messages := [message]; mq_max_output_tokens := 64;
       mq_prompt_token_estimate := Z.max 1 (PyStr.len prompt / 4);
       mq_requested_model := Some _MODEL; mq_tools := []; mq_response_schema := None;
       mq_temperature := DFin 0 0; mq_timeout_seconds := sf_of_Z 5;
       mq_idempotency_key := "diagnostic-call-v1" |}.

Definition diagnostic_response (request : ModelRequest) : result ModelResponse :=
  let? _ := TextPart_post_init "Mock completion succeeded; no network was used." in
  let? safety := SafetyResult_post_init (mkSafetyResult SO_ALLOWED None) in
  let? usage := TokenUsage_post_init (mkTokenUsage (mq_prompt_token_estimate request) 9 0 0 0) in
  ModelResponse_post_init
    {| ms_request_id := mq_request_id request; ms_model := _MODEL;
       ms_content := [TextPart "Mock completion succeeded; no network was used."];
       ms_finish_reason := FR_STOP; ms_safety := safety; ms_usage := usage; ms_latency_ms := 1;
       ms_provider_request_id := Some "mock-request-1"; ms_structured_output := None |}.

Definition diagnostic_entry : result ModelCatalogEntry :=
  let? input_price := dec_of_str "0.10" in
  let? output_price := dec_of_str "0.20" in
  let? pricing := PricingVersion_post_init
    {| pv_version := "mock-pricing-v1"; pv_effective_at := _NOW;
       input_per_million_usd := input_price; output_per_million_usd := output_price;
       cache_read_per_million_usd := DFin 0 0; cache_write_per_million_usd := DFin 0 0;
       reasoning_per_million_usd := DFin 0 0 |} in
  let? capabilities := ModelCapabilities_post_init
    {| max_context_tokens := 8192; ModelContracts.max_output_tokens := 1024; supports_tools := true;
       supports_vision := false; supports_structured_output := true;
       supports_reasoning_tokens := false; supports_cache_tokens := false |} in
  ModelCatalogEntry_post_init
    {| ce_identity := _MODEL; ce_capabilities := capabilities; ce_pricing := pricing;
       ce_environments := [DEVELOPMENT; TEST]; ce_data_residencies := {["local"%string]};
       ce_provider_retains_data := false; ce_cost_rank := 0; ce_latency_rank := 0;
       ce_fallback_models := [] |}.

Definition diagnostic_lease (tenant : TenantId) : result WorkLease :=
  let? run_id := uuid_of_str (_uuid_text 1) in
  let? token := uuid_of_str (_uuid_text 3) in
  WorkLease_post_init
    {| wl_work_id := run_id; wl_tenant_id := tid_value tenant; wl_token := token; wl_generation := 1;
       wl_owner := "diagnostic"; wl_attempt := 1; wl_acquired_at := _NOW; wl_heartbeat_at := _NOW;
       wl_expires_at := Dt.add _NOW (5 * 60 * Dt.second) |}.

Definition diagnostic_policy (tenant : TenantId) : result TenantPolicy :=
  let? quotas := QuotaLimits_post_init
    {| max_run_tokens := 10000; max_run_cost_usd := DFin 1 0;
       max_tenant_tokens_per_period := 100000; max_tenant_cost_usd_per_period := DFin 10 0;
       max_concurrent_runs := 1 |} in
  TenantPolicy_post_init
    {| tp_tenant_id := tenant; tp_version := "diagnostic-policy-v1";
       allowed_models := {[catalog_key _MODEL]}; allowed_tools := ∅; allowed_connectors := ∅;
       allowed_environments := {[sc_value DEVELOPMENT]}; max_risk := LOW;
       approval_from_risk := CRITICAL; tools_requiring_approval := ∅; approver_roles := [APPROVER];
       quotas := quotas; allowed_providers := {["mock"%string]};
       allowed_data_residencies := {["local"%string]}; allow_provider_retention := false |}.

(** [controls] with a clock that stands still. *)
Definition diagnostic_controls : result ProviderControls :=
  match ProviderControls_init [_MODEL] 1 10 10000 3 (mkControls ∅ ∅ ∅ ∅ (λ _, f64_zero) 0) with
  | (inl e, _) => inl e
  | (inr _, controls) => inr controls
  end.

(** No other task runs; the provider is asked at most once, as the retry
    policy has one attempt and no failover. *)
Definition diagnostic_oracles (provider : ScriptedModelProvider) : Oracles GatewayState :=
  {| or_clock _ := _NOW; or_loop_time := loop_time;
     or_reply _ request model := (scripted_complete request model false provider).1;
     or_cancelled _ := false; or_others _ x := x |}.

(** The answer of the call, with the service it leaves. *)
Definition diagnostic_call (prompt : string) : result (result ModelResponse * Service GatewayState) :=
  let? tenant := TenantId_new "diagnostic-local" in
  raise! ValueError "diagnostic prompt must contain 1 to 1000 characters"
    when! PyStr.is_empty prompt || (1000 <? PyStr.len prompt) ;;
  let? request := diagnostic_request tenant prompt in
  let? response := diagnostic_response request in
  let? entry := diagnostic_entry in
  let? lease := diagnostic_lease tenant in
  let? catalog := ModelCatalog_init [entry] in
  let? controls := diagnostic_controls in
  let? provider := ScriptedModelProvider_init "mock" [inl response] in
  let? retries := RetryPolicy_post_init (mkRetryPolicy 1 0 default_backoff) in
  let? gateway := ModelGateway_init catalog {["mock"%string]} retries in
  let? policy := diagnostic_policy tenant in
  inr (complete (diagnostic_oracles provider) gateway (mkTenantContext tenant) request lease policy
         DEVELOPMENT RP_COST false
         (mkService (gateway_init [lease] _diagnostic_uuid_factory) controls false false 0 [])).

Definition part_text (part : ContentPart) : string :=
  match part with TextPart text => text | _ => "" end.

Definition run_mock_diagnostic (prompt : string) : result pydict :=
  let? call := diagnostic_call prompt in
  let? result := call.1 in
  inr (dict_of
    [("provider", PStr (mi_provider (ms_model result)));
     ("model", PStr (mi_model (ms_model result)));
     ("finish_reason", PStr (sc_value (ms_finish_reason result)));
     ("text", PStr (String.concat "" (map part_text (ms_content result))));
     ("input_tokens", PInt (input_tokens (ms_usage result)));
     ("output_tokens", PInt (output_tokens (ms_usage result)));
     ("durable_event_types", PList (map (λ e, PStr (event_type e)) (gs_events (sv_repo call.2))))]%string).
End Diagnostic.

(** ** What a run does *)

Section Theorems.
Context {Repr : PyRepr} {Schemas : JsonSchemaLibrary} (loop_time : nat → spec_float).

Definition acceptable_prompt (prompt : string) : bool :=
  negb (PyStr.is_empty prompt) && (PyStr.len prompt <=? 1000).

Definition diagnostic_tenant : TenantId := mkTenantId "diagnostic-local".

(** Every constructor accepts what the diagnostic gives it, whatever the
    prompt. *)
Lemma request_constructed prompt : PyStr.is_empty prompt = false →
  ∃ request, diagnostic_request diagnostic_tenant prompt = inr request ∧
    mq_prompt_token_estimate request = Z.max 1 (PyStr.len prompt / 4).
Proof.
  intros Hp. unfold diagnostic_request, TextPart_post_init, ModelRequest_post_init.
  cbn [mq_prompt_token_estimate]. rewrite Hp.
  generalize (eq_refl (Z.max 1 (PyStr.len prompt / 4) <? 1)).
  assert (Hn : (Z.max 1 (PyStr.len prompt / 4) <? 1) = false) by (apply Z.ltb_ge; lia).
  rewrite Hn. intros _. generalize (Z.max 1 (PyStr.len prompt / 4)). intros n.
  eexists. split; [vm_compute; reflexivity|]. done.
Qed.

Lemma response_constructed request : 0 ≤ mq_prompt_token_estimate request →
  ∃ response, diagnostic_response request = inr response ∧ ms_request_id response = mq_request_id request ∧
    input_tokens (ms_usage response) = mq_prompt_token_estimate request.
Proof.
  intros Hn. unfold diagnostic_response, TokenUsage_post_init, usage_fields. cbn [existsb input_tokens].
  rewrite (proj2 (Z.ltb_ge _ _)) by done. destruct request. eexists. split; [vm_compute; reflexivity|]. done.
Qed.

Definition built {A} (r : result A) : Prop := ∃ a, r = inr a.

Lemma constants_constructed :
  TenantId_new "diagnostic-local" = inr diagnostic_tenant ∧ built diagnostic_entry ∧
  built (diagnostic_lease diagnostic_tenant) ∧ built (diagnostic_policy diagnostic_tenant) ∧
  built diagnostic_controls.
Proof. split_and!; [done|eexists; vm_compute; reflexivity..]. Qed.

(** An acceptable prompt reaches the gateway; the others are refused. *)
Lemma call_made prompt : acceptable_prompt prompt = true →
  ∃ gateway provider context request lease policy controls,
    diagnostic_call loop_time prompt =
      inr (complete (diagnostic_oracles loop_time provider) gateway context request lease policy
             DEVELOPMENT RP_COST false
             (mkService (gateway_init [lease] _diagnostic_uuid_factory) controls false false 0 [])) ∧
    RetryPolicy_post_init (mg_retry_policy gateway) = inr (mg_retry_policy gateway) ∧
    rp_max_attempts (mg_retry_policy gateway) = 1 ∧ rp_max_failovers (mg_retry_policy gateway) = 0 ∧
    NoDup (map ce_identity (mg_catalog gateway)).
Proof.
  unfold acceptable_prompt. intros [He Hl]%andb_prop. bool_props.
  destruct constants_constructed as (Ht & [entry Hentry] & [lease Hlease] & [policy Hpolicy] & [controls Hcontrols]).
  destruct (request_constructed prompt He) as (request & Hrequest & Hn).
  destruct (response_constructed request) as (response & Hresponse & _); [lia|].
  assert (Hmodel : ce_identity entry = _MODEL).
  { revert Hentry. vm_compute. by intros [= <-]. }
  unfold diagnostic_call. rewrite Ht. cbn [rbind]. rewrite He.
  rewrite (proj2 (Z.ltb_ge _ _)) by done. cbn [orb reject_if rbind].
  rewrite Hrequest. cbn [rbind]. rewrite Hresponse. cbn [rbind]. rewrite Hentry. cbn [rbind].
  rewrite Hlease. cbn [rbind]. unfold ModelCatalog_init. cbn [map]. rewrite Hmodel.
  rewrite bool_decide_true by apply NoDup_singleton. cbn [negb reject_if rbind].
  rewrite Hcontrols. cbn [rbind].
  unfold ModelGateway_init, catalog_entries. cbn [py_sorted].
  rewrite Hpolicy.
  change (ScriptedModelProvider_init "mock" [inl response]) with (inr (A := exn) (mkScripted "mock" [inl response] [])).
  cbn [rbind]. change (RetryPolicy_post_init (mkRetryPolicy 1 0 default_backoff))
    with (inr (A := exn) (mkRetryPolicy 1 0 default_backoff)). cbn [rbind].
  change (py_sorted _ [entry]) with [entry]. cbn [map]. rewrite Hmodel. cbn [mi_provider _MODEL].
  rewrite bool_decide_true by set_solver. cbn [negb reject_if rbind].
  exists (mkModelGateway [entry] {["mock"%string]} (mkRetryPolicy 1 0 default_backoff)),
    (mkScripted "mock" [inl response] []), (mkTenantContext diagnostic_tenant), request, lease, policy, controls.
  split_and!; [done..|]. apply NoDup_singleton.
Qed.

(** A prompt of 1 to 1000 characters reaches the gateway, which asks the
    provider at most once and returns every permit, whatever the loop's clock;
    any other prompt is refused before anything is built. *)
Theorem diagnostic_calls_once prompt :
  if acceptable_prompt prompt
  then ∃ answer service, diagnostic_call loop_time prompt = inr (answer, service) ∧
         (calls (sv_trace service) ≤ 1)%nat ∧ slots None (sv_trace service) = Some None
  else ∃ text, run_mock_diagnostic loop_time prompt = inl (ValueError text).
Proof.
  destruct (acceptable_prompt prompt) eqn:Hp.
  - destruct (call_made prompt Hp) as (gateway & provider & context & request & lease & policy & controls
      & -> & Hpolicy & Hattempts & Hfailovers & Hnd).
    destruct (complete _ _ _ _ _ _ _ _ _ _) as [answer service] eqn:Hrun. exists answer, service.
    split; [done|].
    eapply complete_calls_bounded in Hrun as (Hslots & Hcalls & _); [|done..].
    rewrite Hattempts, Hfailovers in Hcalls. split; [lia|done].
  - unfold run_mock_diagnostic, diagnostic_call. rewrite (proj1 constants_constructed). cbn [rbind].
    unfold acceptable_prompt in Hp. rewrite Z.leb_antisym, <- negb_orb in Hp. apply negb_false_iff in Hp.
    rewrite Hp. cbn [reject_if rbind]. by eexists.
Qed.
End Theorems.

(** ** Runs *)

#[local] Instance diagnostic_repr : PyRepr := λ _, ""%string.
#[local] Instance diagnostic_schemas : JsonSchemaLibrary := {
  check_schema _ := true;
  schema_accepts _ _ := true;
}.

(** The run of the tests, on a clock that stands still: the answer and the
    events of a call that was routed, reserved, made, metered and charged. *)
Example diagnostic_run :
  run_mock_diagnostic (λ _, f64_zero) "Why reserve before calling?" = inr (dict_of
    [("provider", PStr "mock"); ("model", PStr "aegis-diagnostic-v1"); ("finish_reason", PStr "stop");
     ("text", PStr "Mock completion succeeded; no network was used.");
     ("input_tokens", PInt 6); ("output_tokens", PInt 9);
     ("durable_event_types", PList (map PStr
        ["model.route_decided.v1"; "model.call_requested.v1"; "model.budget_reserved.v1";
         "model.call_started.v1"; "model.call_succeeded.v1"; "model.usage_recorded.v1";
         "model.budget_charged.v1"; "model.budget_released.v1"]))]%string).
Proof. by vm_compute. Qed.

(** On a loop that is too slow the call ends with the deadline. *)
Example slow_diagnostic_run :
  run_mock_diagnostic (λ n, sf_of_Z (Z.of_nat n)) "Why reserve before calling?"
  = inl (ModelGatewayError (gateway_raise MODEL_TIMEOUT "provider_attempt_timeout" true false)).
Proof. by vm_compute. Qed.
