(* ===== verification/Agents.v ===== *)
(** * Specialist agents

    Models [agents/artifacts.py] and [agents/coordination.py]: the typed
    artifacts specialists exchange, with the checks of their constructors, and
    the coordinator's budgets, assignments and plans.  [ArtifactLedger] is a
    protocol without an implementation. *)

From stdpp Require Import base gmap sets list strings.
From Stdlib Require Import ZArith Lia SpecFloat.
From S2P Require Import Prelude PyLib Json Events Identity Floats.

Local Open Scope Z_scope.

Inductive AgentRole : Type :=
| INCIDENT_COORDINATOR
| TELEMETRY_INVESTIGATOR
| CHANGE_INVESTIGATOR
| RUNTIME_INVESTIGATOR
| KNOWLEDGE_INVESTIGATOR
| HYPOTHESIS_REVIEWER
| REMEDIATION_PLANNER
| VERIFICATION_AGENT.

Definition AgentRole_value (r : AgentRole) : string :=
  match r with
  | INCIDENT_COORDINATOR => "incident_coordinator"
  | TELEMETRY_INVESTIGATOR => "telemetry_investigator"
  | CHANGE_INVESTIGATOR => "change_investigator"
  | RUNTIME_INVESTIGATOR => "runtime_investigator"
  | KNOWLEDGE_INVESTIGATOR => "knowledge_investigator"
  | HYPOTHESIS_REVIEWER => "hypothesis_reviewer"
  | REMEDIATION_PLANNER => "remediation_planner"
  | VERIFICATION_AGENT => "verification_agent"
  end.

(** ** Artifacts *)

Record ArtifactMetadata : Type := {
  artifact_id : uuid;
  art_tenant_id : string;
  incident_id : string;
  produced_by : AgentRole;
  created_at : Dt.datetime;
}.

Definition ArtifactMetadata_post_init (m : ArtifactMetadata) : result unit :=
  raise! ValueError "tenant_id and incident_id are required"
    when! blank (art_tenant_id m) || blank (incident_id m) ;;
  require_aware_datetime (created_at m).

Definition _validate_supported_claim (evidence_ids : list uuid) (confidence : spec_float) : result unit :=
  raise! ValueError "supported claims require evidence citations"
    when! bool_decide (evidence_ids = []) ;;
  reject_if (negb (SFleb (S754_zero false) confidence && SFleb confidence (sf_of_Z 1)))
    (ValueError "confidence must be between 0 and 1").

Record EvidenceArtifact : Type := {
  evi_metadata : ArtifactMetadata;
  source : string;
  source_reference : string;
  summary : string;
}.

Definition EvidenceArtifact_post_init (a : EvidenceArtifact) : result EvidenceArtifact :=
  let? _ := ArtifactMetadata_post_init (evi_metadata a) in inr a.

Record FindingArtifact : Type := {
  fin_metadata : ArtifactMetadata;
  fin_statement : string;
  fin_evidence_ids : list uuid;
  fin_confidence : spec_float;
}.

Definition FindingArtifact_post_init (a : FindingArtifact) : result FindingArtifact :=
  let? _ := ArtifactMetadata_post_init (fin_metadata a) in
  let? _ := _validate_supported_claim (fin_evidence_ids a) (fin_confidence a) in
  inr a.

Record HypothesisArtifact : Type := {
  hyp_metadata : ArtifactMetadata;
  hyp_statement : string;
  supporting_evidence_ids : list uuid;
  conflicting_evidence_ids : list uuid;
  hyp_confidence : spec_float;
}.

Definition HypothesisArtifact_post_init (a : HypothesisArtifact) : result HypothesisArtifact :=
  let? _ := ArtifactMetadata_post_init (hyp_metadata a) in
  let? _ := _validate_supported_claim (supporting_evidence_ids a) (hyp_confidence a) in
  inr a.

Record RemediationProposal : Type := {
  rem_metadata : ArtifactMetadata;
  action : string;
  target : string;
  hypothesis_id : uuid;
  risk : string;
}.

Definition RemediationProposal_post_init (a : RemediationProposal) : result RemediationProposal :=
  let? _ := ArtifactMetadata_post_init (rem_metadata a) in inr a.

Record VerificationArtifact : Type := {
  ver_metadata : ArtifactMetadata;
  recovered : bool;
  ver_evidence_ids : list uuid;
  observation_window_seconds : Z;
}.

Definition VerificationArtifact_post_init (a : VerificationArtifact) : result VerificationArtifact :=
  let? _ := ArtifactMetadata_post_init (ver_metadata a) in
  raise! ValueError "verification requires evidence citations"
    when! bool_decide (ver_evidence_ids a = []) ;;
  raise! ValueError "observation window must be positive"
    when! observation_window_seconds a <=? 0 ;;
  inr a.

Inductive AgentArtifact : Type :=
| Evidence (a : EvidenceArtifact)
| Finding (a : FindingArtifact)
| Hypothesis_ (a : HypothesisArtifact)
| Remediation (a : RemediationProposal)
| Verification (a : VerificationArtifact).

(** The constructor of an artifact's class. *)
Definition artifact_post_init (a : AgentArtifact) : result AgentArtifact :=
  match a with
  | Evidence a => let? a := EvidenceArtifact_post_init a in inr (Evidence a)
  | Finding a => let? a := FindingArtifact_post_init a in inr (Finding a)
  | Hypothesis_ a => let? a := HypothesisArtifact_post_init a in inr (Hypothesis_ a)
  | Remediation a => let? a := RemediationProposal_post_init a in inr (Remediation a)
  | Verification a => let? a := VerificationArtifact_post_init a in inr (Verification a)
  end.

(** ** Coordination *)

Record SpecialistBudget : Type := {
  max_steps : Z;
  max_input_tokens : Z;
  sb_timeout_seconds : Z;
}.

Definition SpecialistBudget_post_init (b : SpecialistBudget) : result SpecialistBudget :=
  raise! ValueError "specialist budget limits must be positive"
    when! Z.min (Z.min (max_steps b) (max_input_tokens b)) (sb_timeout_seconds b) <=? 0 ;;
  inr b.

Record SpecialistAssignment : Type := {
  assignment_id : uuid;
  sa_role : AgentRole;
  depends_on : list uuid;
  capabilities : gset string;
  sa_budget : SpecialistBudget;
  read_only : bool;
}.

Record InvestigationPlan : Type := {
  ip_incident_id : string;
  assignments : list SpecialistAssignment;
}.

(** ** What the constructors guarantee *)

Definition metadata_of (a : AgentArtifact) : ArtifactMetadata :=
  match a with
  | Evidence a => evi_metadata a
  | Finding a => fin_metadata a
  | Hypothesis_ a => hyp_metadata a
  | Remediation a => rem_metadata a
  | Verification a => ver_metadata a
  end.

(** The evidence a claim rests on; evidence itself and proposals claim
    nothing. *)
Definition citations (a : AgentArtifact) : option (list uuid) :=
  match a with
  | Finding a => Some (fin_evidence_ids a)
  | Hypothesis_ a => Some (supporting_evidence_ids a)
  | Verification a => Some (ver_evidence_ids a)
  | Evidence _ | Remediation _ => None
  end.

Definition confidence_of (a : AgentArtifact) : option spec_float :=
  match a with
  | Finding a => Some (fin_confidence a)
  | Hypothesis_ a => Some (hyp_confidence a)
  | _ => None
  end.

Definition window_of (a : AgentArtifact) : option Z :=
  match a with Verification a => Some (observation_window_seconds a) | _ => None end.

Record artifact_wf (a : AgentArtifact) : Prop := {
  aw_tenant : blank (art_tenant_id (metadata_of a)) = false;
  aw_incident : blank (incident_id (metadata_of a)) = false;
  aw_created : Dt.naive (created_at (metadata_of a)) = false;
  aw_citations : ∀ ids, citations a = Some ids → ids ≠ [];
  aw_confidence : ∀ c, confidence_of a = Some c →
    SFleb (S754_zero false) c = true ∧ SFleb c (sf_of_Z 1) = true;
  aw_window : ∀ n, window_of a = Some n → 0 < n;
}.

Lemma metadata_checked m : match ArtifactMetadata_post_init m with
  | inr _ => blank (art_tenant_id m) = false ∧ blank (incident_id m) = false ∧ Dt.naive (created_at m) = false
  | inl x => except_ValueError x = true ∧
      ¬ (blank (art_tenant_id m) = false ∧ blank (incident_id m) = false ∧ Dt.naive (created_at m) = false)
  end.
Proof.
  unfold ArtifactMetadata_post_init, require_aware_datetime, reject_if.
  destruct (blank (art_tenant_id m)), (blank (incident_id m)), (Dt.naive (created_at m)); cbn [orb rbind];
    naive_solver.
Qed.

Lemma claim_checked ids c : match _validate_supported_claim ids c with
  | inr _ => ids ≠ [] ∧ SFleb (S754_zero false) c = true ∧ SFleb c (sf_of_Z 1) = true
  | inl x => except_ValueError x = true ∧
      ¬ (ids ≠ [] ∧ SFleb (S754_zero false) c = true ∧ SFleb c (sf_of_Z 1) = true)
  end.
Proof.
  unfold _validate_supported_claim, reject_if. case_bool_decide; cbn [rbind]; [naive_solver|].
  destruct (SFleb (S754_zero false) c), (SFleb c (sf_of_Z 1)); cbn [andb negb]; naive_solver.
Qed.

(** The cases of a checked step, its specification at hand. *)
Local Ltac by_cases spec :=
  let H := fresh in pose proof spec as H; cbn [metadata_of] in *;
  match type of H with context [match ?r with _ => _ end] => destruct r end; cbn [rbind].

Local Ltac accepted := split; [done|constructor; cbn; naive_solver].
Local Ltac refused := split; [naive_solver|intros []; cbn in *; naive_solver].

(** An artifact of any class is constructed, unchanged, exactly when its
    tenant and incident are named, its time is aware, whatever it claims cites
    evidence, its confidence is a number between 0 and 1 and its observation
    window is positive; otherwise [ValueError] is raised. *)
Theorem artifact_constructor_exact a :
  match artifact_post_init a with
  | inr a' => a' = a ∧ artifact_wf a
  | inl x => except_ValueError x = true ∧ ¬ artifact_wf a
  end.
Proof.
  pose proof (metadata_checked (metadata_of a)) as Hm. destruct a as [a|a|a|a|a]; cbn [artifact_post_init metadata_of] in *;
    unfold EvidenceArtifact_post_init, FindingArtifact_post_init, HypothesisArtifact_post_init,
      RemediationProposal_post_init, VerificationArtifact_post_init;
    destruct (ArtifactMetadata_post_init _); cbn [rbind]; try refused.
  - accepted.
  - by_cases (claim_checked (fin_evidence_ids a) (fin_confidence a)); [refused|accepted].
  - by_cases (claim_checked (supporting_evidence_ids a) (hyp_confidence a)); [refused|accepted].
  - accepted.
  - unfold reject_if. case_bool_decide; cbn [rbind]; [refused|].
    destruct (Z.leb_spec (observation_window_seconds a) 0); cbn [rbind]; [|accepted].
    split; [done|]. intros [_ _ _ _ _ Hw]. specialize (Hw _ eq_refl). lia.
Qed.

(** A budget is constructed exactly when all its limits are positive. *)
Lemma budget_constructor b :
  (SpecialistBudget_post_init b = inr b ↔ 0 < max_steps b ∧ 0 < max_input_tokens b ∧ 0 < sb_timeout_seconds b).
Proof.
  unfold SpecialistBudget_post_init, reject_if. destruct (Z.leb_spec (Z.min (Z.min (max_steps b) (max_input_tokens b))
    (sb_timeout_seconds b)) 0); cbn [rbind]; split; try done; lia.
Qed.

(** ** Examples *)

Definition example_id : uuid := 7.

Definition example_metadata : ArtifactMetadata :=
  {| artifact_id := example_id; art_tenant_id := "tenant-1"; incident_id := "incident-1";
     produced_by := CHANGE_INVESTIGATOR; created_at := Dt.Aware 0 |}.

Example finding_accepted :
  let a := Finding {| fin_metadata := example_metadata; fin_statement := "bad deploy";
                      fin_evidence_ids := [example_id]; fin_confidence := sf_of_Z 1 |} in
  artifact_post_init a = inr a.
Proof. done. Qed.

(** Not a number is no confidence. *)
Example nan_refused :
  artifact_post_init (Finding {| fin_metadata := example_metadata; fin_statement := "bad deploy";
    fin_evidence_ids := [example_id]; fin_confidence := S754_nan |})
  = inl (ValueError "confidence must be between 0 and 1").
Proof. done. Qed.
